(* ===== verification/_CoqProject ===== *)
-Q . S2P
Prelude.v
DList.v
Paging.v
Pmm.v
BootTables.v
Slab.v
Vmm.v
Mman.v
Munmap.v
CString.v
Printf.v
Ports.v
Pci.v
Bytes.v
Kvm.v
Memory.v
Nvme.v
Interrupts.v
Apic.v
Ec.v
Graphics.v
Trace.v
Osl.v
Express.v
Acpi.v
Block.v
Fs.v
Boot.v
DlBins.v
DlHeap.v
DlTree.v
DlUnlink.v
DlLarge.v
DlFit.v
DlSmall.v
DlFree.v
DlMalloc.v
DlLayout.v
DlCore.v
DlAlloc.v
DlServe.v
DlRequest.v
DlRelease.v
DlInit.v
Dlmalloc.v
DlFrame.v
DlSys.v
DlGrow.v
DlSystem.v
DlKernel.v
DlCalls.v
DlDispose.v
DlRealloc.v
DlContents.v
DlAlign.v
DlSession.v
DlBulk.v
DlInfo.v
DlUsage.v
