(* ===== verification/Prelude.v ===== *)
(** * vineyard: a verification development for the vineyard kernel

    vineyard is a 64-bit kernel started from UEFI: it takes over the page tables, manages
    physical pages and the kernel's address space, brings ACPI, the interrupt controllers, PCI
    and NVMe up, and looks for partitions on the disk it finds. The development is a shallow
    embedding of its C code. A routine is a command of type [cmd S A] (below): a function from
    the state of its component to a result and a new state, or to the reason why it does not
    return ([stop]: a panic, a failed assertion, a fault, a loop that used its fuel up). Words
    of [w] bits are integers with [wrap w] written where the C code wraps.

    ** Parts, files and sources

    Memory management
    - Paging: [mm_virtual_map], [mm_virtual_get_phys] and the index arithmetic
      (kernel/mm/virtual.c), on an MMU that walks tables in RAM through the recursive slot 510.
      The class [PageSource] is what mapping needs of the page allocator.
    - Pmm: the page allocator (kernel/mm/physical.c), stacks of free pages kept in free pages;
      its ghost version [gpmm] is a [PageSource].
    - BootTables: the tables of the allocator's window at boot ([mm_physical_init_stack]) and the
      switch that follows ([mm_page_tables_commit] of kernel/mm/page_tables.c).
    - DList, Slab: the intrusive list (kernel/util/list.c) on a node heap with aliasing, and the
      slab allocator (kernel/mm/slab.c), which keeps its slabs on such lists.
    - Vmm: the regions of the kernel's address space (kernel/mm/virtual.c), a doubly linked list
      whose nodes come from a slab.
    - Mman, Munmap: mmap and munmap (lib/sys/mman) over regions, tables and pages.
    - Kvm, Memory: the interface [KernelVm] of the address space towards the drivers and its laws
      [KernelVmLaws] (Kvm), and the proof that the region list, the page tables and the page
      allocator together implement it (Memory).

    C library
    - CString: lib/string and lib/ctype on a partial byte memory.
    - Printf: lib/stdio: [vcbprintf] with any callback, [vasprintf], and [printf] on the class
      [Console] of what shows the blocks it is given.

    The allocator of the C library (lib/stdlib/dlmalloc.c)
    - DlBins, DlHeap: sizes, bin numbers and bit maps; chunk headers in memory, [malloc_state], the
      macros on heads and the small bins. DlTree, DlUnlink: the tree bins as they are in memory, and
      as tries keyed by the bits of the size.
    - DlSmall, DlLarge, DlFree: what the small bins, the trees, and both together hold, as sets;
      DlFit: the searches for a best fit.
    - DlMalloc: the part of [dlmalloc] and [dlfree] that works on the heap alone; DlInit: a new heap.
    - DlLayout, DlCore: a segment as a row of blocks with boundary tags, and the heap invariant;
      DlAlloc, DlServe, DlRequest: allocation keeps it; DlRelease: so does release; Dlmalloc: the
      contract, for single calls and for sequences of calls.
    - DlSys: segments, parameters, [sys_alloc], [sys_trim] and what they call, on the class
      [SystemMemory] of what the allocator asks of the system. DlFrame: what the heap operations
      leave alone; DlGrow: one segment that grows and shrinks; DlSystem: the contract of [dlmalloc] and
      [dlfree] over [GrowingMemory], the laws of such a system; DlKernel: the instance that is the
      kernel's own mmap and munmap.
    - DlCalls: the other calls (realloc, memalign and its relatives, calloc, requests and releases
      in bulk, statistics, parameters) and [dispose_chunk]. DlDispose: [dispose_chunk] does what
      [dlfree] does; DlRealloc: resizing in place; DlAlign: aligned blocks cut out of larger ones;
      DlContents: which bytes the calls touch; DlBulk: releases in bulk; DlInfo: statistics;
      DlSession, DlUsage: each call on a heap in order, and sequences of all of them.

    Devices
    - Ports: port I/O (kernel/cpu/ports.c) on the class [PortDevice]; the PIC, the PIT and the
      UART, with classes of laws for the devices ([PitLaws], [UartLaws]).
    - Pci, Express: configuration space, BARs and the enumeration (kernel/pci), on a host bridge
      with the laws [PciLaws]; the MCFG segments and memory-mapped configuration reads.
    - Nvme: the driver (kernel/driver/nvme); the controller is a device that reads and writes
      memory when a doorbell is rung ([NvmeDevice], with the laws [NvmeDisk] of a disk).
    - Interrupts, Apic: GDT, IDT and dispatch (kernel/cpu, kernel/int), the local APIC and the
      IOAPICs, and the MADT parser (kernel/driver/acpi/tables.c).
    - Ec, Osl, Acpi: the embedded controller, the services ACPICA asks for, and bring-up,
      interrupt routing and shutdown (kernel/driver/acpi).
    - Graphics: framebuffer, terminal, puts (kernel/driver/graphics, lib/stdio/puts.c).
    - Trace: symbols from the kernel's ELF image and stack traces (kernel/debug).

    Storage and boot
    - Block, Fs: the interface [BlockReader] of a disk towards file systems, implemented by the
      NVMe driver; partition table and file system probes (kernel/fs).
    - Boot: the device callback and [main] over the states above put together, panic, failed
      assertions and the sanitiser's reports (kernel/boot, kernel/misc, lib/assert).

    The table in PROJECT.json maps each definition to the lines it translates; definitions keep
    the names of the C functions, and a loop of a function [f] is usually [f_loop].

    ** What the theorems show

    - Address translation: mapping changes exactly the translations asked for, software and MMU
      walk agree (Paging); the drivers' view of the address space holds of the real allocator
      and tables (Memory), and of windows made for ACPICA (Osl).
    - Allocators: page conservation and exhaustion (Pmm), slab contents and double use (Slab),
      lists as sequences (DList), first fit, disjointness, release and re-use of address ranges
      (Vmm), backed mappings (Mman), their release (Munmap).
    - Library: comparison (CString); rendering of every format within its limits, digits that
      read back, and the two buffer overflows beyond them (Printf).
    - dlmalloc: a request is answered with a fresh block, or refused because none is large enough
      and the system has no more (DlSystem); release merges neighbours and gives the tail back
      (DlSystem); best fit, and the bins as sets (Dlmalloc, over DlFit, DlFree); over a system that
      maps one growing region no use of the allocator loses a block or a byte of one (DlUsage);
      statistics that add up (DlInfo); on the kernel's own mmap the first block is mapped, and
      giving the tail back stops the kernel (DlKernel).
    - Boot: the window of the page allocator maps its first stack and nothing else changes
      (BootTables).
    - Devices: delays (Ports), serial output (Ports), BAR sizes and the enumeration (Pci),
      configuration reads (Express), descriptor tables and dispatch (Interrupts), MADT decoding
      and redirection (Apic), the embedded controller's protocol (Ec), disk reads and
      completions (Nvme), text on the screen (Graphics), symbolisation (Trace).
    - Composition: the partition table read through the NVMe driver, through its queues and the
      device's DMA, with names and console text produced by the modelled formatter (Fs); the
      ACPI walks (Acpi).
    Theorems that state a defect prove it: the code as written has the behaviour stated. They
    are listed as findings in PROJECT.json.

    ** Bounds and fuel

    Loops of the code that end by their own data are structural or take a fuel argument; the
    theorems then ask for more fuel than the data has elements, so that termination is part of
    them. Loops that poll a device take fuel because the device may never answer; the
    theorems assume that it does within a number of polls, and cover the other case where the
    code can be shown to wait for ever. Counts that come from the code (500 rounds of
    [nvme_wait], 256 buses) are those of the code. A tree bin is at most 64 levels deep, so the
    walks of dlmalloc get fuel 65 ([TREE_FUEL]); that it is enough is part of the theorems.
    The walks over the segments of a heap take fuel too; on one segment a step of it is enough. The
    rounding up of an alignment gets fuel 60 ([POWER_FUEL]), enough up to 2^63; beyond, the loop of
    the code does not end. The walk of [dlmallinfo] over the chunks takes fuel for their number.

    ** What is not modelled

    - Of dlmalloc, what the kernel's configuration leaves out: mspaces, footers, locks, the traversal
      of the heap, [malloc_stats] and the debugging checks. The heap theorems are about one segment,
      below 2^40 bytes. Chunk headers are records found by address, and the bytes of the blocks in
      use are a memory of their own, apart from the headers. Of the requests in bulk ([ialloc]) and
      the parameters there are definitions but no theorems. The other drivers take the addresses malloc answers as given.
    - Assembly (.s files): interrupt entry, register access, TLB and port instructions are
      operations of the models or absent; ordering of memory accesses is program order, and the
      TLB holds nothing stale.
    - ACPICA and the UEFI headers (submodules): parameters.
    - Output for debugging under CONFIG_* switches, and [mm_virtual_dump]. *)
From Stdlib Require Export ZArith Lia.
From stdpp Require Export base numbers option list strings gmap.
#[global] Open Scope Z_scope.
#[export] Set Default Goal Selector "!".

(** ** Machine integers *)

(** [wrap w x] is the value a [w]-bit unsigned object holds after [x] is stored in it. *)
Definition wrap (w x : Z) : Z := x mod 2 ^ w.

Declare Scope mach_scope.
Delimit Scope mach_scope with mach.
Abbreviation u8 := (wrap 8).
Abbreviation u16 := (wrap 16).
Abbreviation u32 := (wrap 32).
Abbreviation u64 := (wrap 64).
Notation "x .& y" := (Z.land x y) (at level 40, left associativity) : mach_scope.
Notation "x .| y" := (Z.lor x y) (at level 50, left associativity) : mach_scope.
#[global] Open Scope mach_scope.

(** The value of a two's complement [w]-bit pattern. *)
Definition signed (w x : Z) : Z :=
  let y := wrap w x in if decide (y < 2 ^ (w - 1)) then y else y - 2 ^ w.

(** [~x] on a [w]-bit unsigned operand. *)
Definition bnot (w x : Z) : Z := wrap w (Z.lnot x).

Definition fits (w x : Z) : Prop := 0 <= x < 2 ^ w.
#[global] Instance fits_dec w x : Decision (fits w x).
Proof. unfold fits. apply _. Defined.

Lemma wrap_fits w x : 0 <= w -> fits w (wrap w x).
Proof. intros. apply Z.mod_pos_bound. lia. Qed.

Lemma wrap_small w x : fits w x -> wrap w x = x.
Proof. apply Z.mod_small. Qed.

Lemma wrap_wrap w x : wrap w (wrap w x) = wrap w x.
Proof. apply Zmod_mod. Qed.

Lemma wrap_add_l w x y : wrap w (wrap w x + y) = wrap w (x + y).
Proof. apply Zplus_mod_idemp_l. Qed.

Lemma wrap_add_r w x y : wrap w (x + wrap w y) = wrap w (x + y).
Proof. apply Zplus_mod_idemp_r. Qed.

Lemma wrap_sub_l w x y : wrap w (wrap w x - y) = wrap w (x - y).
Proof. apply Zminus_mod_idemp_l. Qed.

Lemma wrap_testbit w x i :
  0 <= i < w -> Z.testbit (wrap w x) i = Z.testbit x i.
Proof. intros. unfold wrap. apply Z.mod_pow2_bits_low. lia. Qed.

Lemma fits_mono v w x : v <= w -> fits v x -> fits w x.
Proof.
  unfold fits. intros Hvw [H0 H1]. split; [done|].
  destruct (decide (0 <= v)) as [Hv|Hv].
  - pose proof (Z.pow_le_mono_r 2 v w). lia.
  - rewrite Z.pow_neg_r in H1 by lia. lia.
Qed.

(** ** Model-specific registers (include/cpu/msr.h), which the boot-time page tables and the boot processor set *)
Definition MSR_GS_BASE : Z := 0xC0000101.
Definition MSR_GS_KERNEL_BASE : Z := 0xC0000102.

(** ** Bits: masks, fields and disjoint unions *)

Lemma land_low x w : 0 <= w -> x .& Z.ones w = x mod 2 ^ w.
Proof. apply Z.land_ones. Qed.

Lemma testbit_small x n i : fits n x -> n <= i -> Z.testbit x i = false.
Proof.
  intros [H0 H1] Hi. destruct (decide (x = 0)) as [->|]; [apply Z.bits_0|].
  apply Z.bits_above_log2; [done|].
  apply Z.log2_lt_pow2; [lia|].
  destruct (decide (0 <= n)).
  - pose proof (Z.pow_le_mono_r 2 n i). lia.
  - rewrite Z.pow_neg_r in H1 by lia. lia.
Qed.

(** A field of [w] bits at position [lo]. *)
Lemma land_field x lo w :
  0 <= lo -> 0 <= w ->
  x .& (Z.ones w ≪ lo) = (x / 2 ^ lo mod 2 ^ w) * 2 ^ lo.
Proof.
  intros. rewrite <-Z.shiftl_mul_pow2, <-Z.shiftr_div_pow2, <-Z.land_ones by lia.
  apply Z.bits_inj'. intros i Hi.
  rewrite Z.land_spec.
  destruct (decide (i < lo)).
  - rewrite !Z.shiftl_spec_low by lia. by rewrite andb_false_r.
  - rewrite !Z.shiftl_spec_high by lia.
    rewrite Z.land_spec, Z.shiftr_spec by lia. do 2 f_equal. lia.
Qed.

(** A single bit. *)
Lemma land_bit x n : 0 <= n -> x .& 2 ^ n = if Z.testbit x n then 2 ^ n else 0.
Proof.
  intros Hn. apply Z.bits_inj'. intros i Hi. rewrite Z.land_spec, Z.pow2_bits_eqb by done.
  destruct (Z.eqb_spec n i) as [->|Hne].
  - rewrite andb_true_r. destruct (Z.testbit x i); [by rewrite Z.pow2_bits_true|by rewrite Z.bits_0].
  - rewrite andb_false_r. destruct (Z.testbit x n); [by rewrite Z.pow2_bits_false|by rewrite Z.bits_0].
Qed.

(** [a | b] is [a + b] when [a] is a multiple of [2^n] and [b < 2^n]. *)
Lemma lor_add n a b :
  0 <= n -> fits n b -> (a * 2 ^ n) .| b = a * 2 ^ n + b.
Proof.
  intros Hn Hb. rewrite <-Z.add_lor_land, (Z.land_comm _ b).
  enough (b .& (a * 2 ^ n) = 0) as -> by lia.
  rewrite <-Z.shiftl_mul_pow2 by lia.
  apply Z.bits_inj'. intros i Hi. rewrite Z.land_spec, Z.bits_0.
  destruct (decide (i < n)).
  - rewrite Z.shiftl_spec_low by lia. apply andb_false_r.
  - rewrite (testbit_small b n i) by (done || lia). done.
Qed.

Lemma lor_add' n a b :
  0 <= n -> a mod 2 ^ n = 0 -> fits n b -> a .| b = a + b.
Proof.
  intros Hn Ha Hb.
  rewrite (Z.div_mod a (2 ^ n)), Ha, Z.add_0_r, (Z.mul_comm (2 ^ n)) by lia.
  by apply lor_add.
Qed.

Lemma bnot_fits w x : 0 <= w -> fits w (bnot w x).
Proof. apply wrap_fits. Qed.

Lemma bnot_testbit w x i :
  0 <= i < w -> Z.testbit (bnot w x) i = negb (Z.testbit x i).
Proof. intros. unfold bnot. rewrite wrap_testbit, Z.lnot_spec by lia. done. Qed.

Lemma fits_bits w x :
  0 <= w -> (forall i, w <= i -> Z.testbit x i = false) -> fits w x.
Proof.
  intros Hw H. replace x with (wrap w x); [by apply wrap_fits|].
  apply Z.bits_inj'. intros i Hi. unfold wrap. destruct (decide (i < w)).
  - by rewrite Z.mod_pow2_bits_low by lia.
  - by rewrite Z.mod_pow2_bits_high, H by lia.
Qed.

Lemma lor_fits w x y : 0 <= w -> fits w x -> fits w y -> fits w (x .| y).
Proof.
  intros Hw Hx Hy. apply fits_bits; [done|]. intros i Hi.
  rewrite Z.lor_spec. by rewrite !(testbit_small _ w) by done.
Qed.

Lemma land_fits_l w x y : 0 <= w -> fits w x -> fits w (x .& y).
Proof.
  intros Hw Hx. apply fits_bits; [done|]. intros i Hi.
  rewrite Z.land_spec. by rewrite (testbit_small _ w) by done.
Qed.

(** Clearing the low [k] bits: [x & ~(2^k - 1)]. *)
Lemma land_bnot_ones w k x : 0 <= k <= w -> fits w x ->
  x .& bnot w (Z.ones k) = x / 2 ^ k * 2 ^ k.
Proof.
  intros Hk Hx. rewrite <-Z.shiftl_mul_pow2, <-Z.shiftr_div_pow2 by lia.
  apply Z.bits_inj'. intros i Hi. rewrite Z.land_spec.
  destruct (decide (i < k)).
  - rewrite Z.shiftl_spec_low, bnot_testbit, Z.ones_spec_low by lia. apply andb_false_r.
  - rewrite Z.shiftl_spec_high, Z.shiftr_spec by lia. rewrite Z.sub_add.
    destruct (decide (i < w)).
    + rewrite bnot_testbit, Z.ones_spec_high by lia. apply andb_true_r.
    + by rewrite (testbit_small x w) by (done || lia).
Qed.

(** [lia] with [/] and [mod] by constants unfolded. *)
Ltac zlia := unfold wrap, fits in *; Z.div_mod_to_equations; lia.

(** ** Outcomes of kernel code

    A call returns a value, or never returns: [panic()], a failing [assert] (both spin
    for ever), an access to an address that holds no object, or a loop that has used up
    the fuel given to its model. *)
Inductive stop : Type :=
  | Panicked (msg : string)
  | AssertFailed (expr : string)
  | Faulted (addr : Z)
  | OutOfFuel.

Inductive res (A : Type) : Type :=
  | Ok (a : A)
  | Stop (s : stop).
Arguments Ok {A} a.
Arguments Stop {A} s.

#[global] Instance stop_eq_dec : EqDecision stop.
Proof. solve_decision. Defined.
#[global] Instance res_eq_dec `{EqDecision A} : EqDecision (res A).
Proof. solve_decision. Defined.

(** State-passing commands over a state [S]. *)
Definition cmd (S A : Type) : Type := S -> res (A * S).

#[global] Instance cmd_ret {S} : MRet (cmd S) := fun A a s => Ok (a, s).
#[global] Instance cmd_bind {S} : MBind (cmd S) := fun A B k m s =>
  match m s with Ok (a, s') => k a s' | Stop w => Stop w end.

Definition halt {S A} (w : stop) : cmd S A := fun _ => Stop w.
Definition panic {S A} (msg : string) : cmd S A := halt (Panicked msg).
Definition assert_c {S} (expr : string) (b : bool) : cmd S unit :=
  if b then mret tt else halt (AssertFailed expr).
Definition get_st {S} : cmd S S := fun s => Ok (s, s).
Definition put_st {S} (s : S) : cmd S unit := fun _ => Ok (tt, s).
Definition modify {S} (f : S -> S) : cmd S unit := fun s => Ok (tt, f s).
Definition gets {S A} (f : S -> A) : cmd S A := fun s => Ok (f s, s).
Definition when {S} (b : bool) (c : cmd S unit) : cmd S unit :=
  if b then c else mret tt.
Definition lift_opt {S A} (w : stop) (o : option A) : cmd S A :=
  match o with Some a => mret a | None => halt w end.

(** [for(i = from; i < from + n; i++) body i] *)
Fixpoint for_n {S} (n : nat) (from : Z) (body : Z -> cmd S unit) : cmd S unit :=
  match n with
  | O => mret tt
  | S n => _ ← body from; for_n n (from + 1) body
  end.

Lemma bind_ok {S A B} (m : cmd S A) (k : A -> cmd S B) s a s' :
  m s = Ok (a, s') -> (m ≫= k) s = k a s'.
Proof. intros H. unfold mbind, cmd_bind. by rewrite H. Qed.

Lemma bind_stop {S A B} (m : cmd S A) (k : A -> cmd S B) s w :
  m s = Stop w -> (m ≫= k) s = Stop w.
Proof. intros H. unfold mbind, cmd_bind. by rewrite H. Qed.

Lemma bind_inv {S A B} (m : cmd S A) (k : A -> cmd S B) s r :
  (m ≫= k) s = Ok r -> exists a s', m s = Ok (a, s') /\ k a s' = Ok r.
Proof.
  unfold mbind, cmd_bind. destruct (m s) as [[a s']|]; [eauto|done].
Qed.

Lemma assert_inv {S} expr b (s : S) r :
  assert_c expr b s = Ok r -> b = true /\ r = (tt, s).
Proof. destruct b; cbn; [|done]. unfold mret, cmd_ret. by intros [= <-]. Qed.

(** Rule of the counting loop: an invariant indexed by the loop counter. *)
Lemma for_n_inv {S} (I : Z -> S -> Prop) n from body (s : S) :
  I from s ->
  (forall i s, from <= i < from + Z.of_nat n -> I i s ->
     exists s', body i s = Ok (tt, s') /\ I (i + 1) s') ->
  exists s', for_n n from body s = Ok (tt, s') /\ I (from + Z.of_nat n) s'.
Proof.
  revert from s. induction n as [|n IH]; intros from s HI Hstep.
  - exists s. split; [done|]. by rewrite Z.add_0_r.
  - destruct (Hstep from s) as (s1 & Hb & HI1); [lia|done|].
    destruct (IH (from + 1) s1 HI1) as (s2 & Hr & HI2).
    { intros i s' ? ?. apply Hstep; [lia|done]. }
    exists s2. cbn [for_n]. erewrite bind_ok by done. split; [done|].
    by replace (from + Z.of_nat (Datatypes.S n)) with (from + 1 + Z.of_nat n) by lia.
Qed.

(** Evaluate the plumbing of [cmd]: used to step through a concrete command. *)
Ltac cmd_unfold :=
  cbv beta iota delta [mbind cmd_bind mret cmd_ret gets modify get_st put_st when
    assert_c panic halt lift_opt].
Tactic Notation "cmd_unfold" "in" hyp(H) :=
  cbv beta iota delta [mbind cmd_bind mret cmd_ret gets modify get_st put_st when
    assert_c panic halt lift_opt] in H.

(** Invert a successful chain of binds. *)
Ltac cmd_inv H :=
  let a := fresh "a" in let s := fresh "s" in let E := fresh "E" in
  apply bind_inv in H as (a & s & E & H).

(** *** Simulation

    Two commands over different states do the same, up to a relation on the states: they
    return the same value or stop in the same way, and keep the relation. *)
Definition sim {S1 S2 A} (R : S1 -> S2 -> Prop) (m1 : cmd S1 A) (m2 : cmd S2 A) : Prop :=
  forall s1 s2, R s1 s2 ->
    match m1 s1, m2 s2 with
    | Ok (a1, t1), Ok (a2, t2) => a1 = a2 /\ R t1 t2
    | Stop w1, Stop w2 => w1 = w2
    | _, _ => False
    end.

Lemma sim_ret {S1 S2 A} (R : S1 -> S2 -> Prop) (a : A) : sim R (mret a) (mret a).
Proof. by intros s1 s2 HR. Qed.

Lemma sim_halt {S1 S2 A} (R : S1 -> S2 -> Prop) w : sim (A := A) R (halt w) (halt w).
Proof. by intros s1 s2 HR. Qed.

Lemma sim_bind {S1 S2 A B} (R : S1 -> S2 -> Prop) (m1 : cmd S1 A) m2
    (k1 : A -> cmd S1 B) k2 :
  sim R m1 m2 -> (forall a, sim R (k1 a) (k2 a)) -> sim R (m1 ≫= k1) (m2 ≫= k2).
Proof.
  intros Hm Hk s1 s2 HR. specialize (Hm s1 s2 HR). unfold mbind, cmd_bind.
  destruct (m1 s1) as [[a1 t1]|w1], (m2 s2) as [[a2 t2]|w2]; try done.
  destruct Hm as [<- HR']. by apply Hk.
Qed.

Lemma sim_ok {S1 S2 A} (R : S1 -> S2 -> Prop) (m1 : cmd S1 A) m2 s1 s2 a t2 :
  sim R m1 m2 -> R s1 s2 -> m2 s2 = Ok (a, t2) -> exists t1, m1 s1 = Ok (a, t1) /\ R t1 t2.
Proof.
  intros Hs HR H2. specialize (Hs s1 s2 HR). rewrite H2 in Hs.
  destruct (m1 s1) as [[a1 t1]|]; [|done]. destruct Hs as [-> ?]. eauto.
Qed.

(** ** Lists *)

(** First element of a list, or [d]. *)
Definition hd_or {A} (d : A) (l : list A) : A := default d (head l).
(** Last element of a list, or [d]. *)
Definition last_or {A} (d : A) (l : list A) : A := default d (last l).

Lemma hd_or_app {A} (d : A) l1 l2 : hd_or d (l1 ++ l2) = hd_or (hd_or d l2) l1.
Proof. by destruct l1. Qed.

Lemma last_or_app {A} (d : A) l1 l2 : last_or d (l1 ++ l2) = last_or (last_or d l1) l2.
Proof. unfold last_or. rewrite last_app. by destruct (last l2). Qed.

Lemma last_or_cons {A} (d : A) x l : last_or d (x :: l) = last_or x l.
Proof. unfold last_or. rewrite last_cons. by destruct (last l). Qed.

Lemma last_or_snoc {A} (d : A) l x : last_or d (l ++ [x]) = x.
Proof. unfold last_or. by rewrite last_snoc. Qed.

Lemma NoDup_snoc {A} (l : list A) x : NoDup (l ++ [x]) <-> NoDup l /\ x ∉ l.
Proof.
  rewrite NoDup_app. split.
  - intros (H1 & H2 & _). split; [done|]. intros Hx. eapply H2; [done|by left].
  - intros [H1 H2]. repeat split; [done| |apply NoDup_singleton].
    intros y Hy ->%list_elem_of_singleton. done.
Qed.

Lemma NoDup_middle {A} (l1 l2 : list A) x :
  NoDup (l1 ++ x :: l2) <-> NoDup (l1 ++ l2) /\ x ∉ l1 /\ x ∉ l2.
Proof.
  rewrite !NoDup_app, NoDup_cons. split.
  - intros (H1 & Hd & Hx & H2). repeat split; try done.
    + intros y Hy Hy2. eapply Hd; [done|by right].
    + intros Hin. eapply Hd; [done|by left].
  - intros ((H1 & Hd & H2) & Hx1 & Hx2). repeat split; try done.
    intros y Hy [->|Hy2]%elem_of_cons; [done|by eapply Hd].
Qed.

(** Case analysis on every lookup in an updated map. *)
Ltac map_cases := repeat
  match goal with
  | |- context [ <[?k:=_]> _ !! ?a ] =>
      destruct (decide (k = a)); [subst; simplify_map_eq|simplify_map_eq]
  | |- context [ decide ?P ] =>
      destruct (decide P); [subst; simplify_map_eq|simplify_map_eq]
  end; simplify_map_eq; try done; try congruence.

(** A list split at the first element that satisfies [pred]. *)
Fixpoint split_first {A} (pred : A -> bool) (l : list A) : option (list A * A * list A) :=
  match l with
  | [] => None
  | x :: l =>
      if pred x then Some ([], x, l) else
      match split_first pred l with
      | Some (l1, y, l2) => Some (x :: l1, y, l2)
      | None => None
      end
  end.

Lemma split_first_spec {A} (pred : A -> bool) l :
  match split_first pred l with
  | Some (l1, y, l2) => l = l1 ++ y :: l2 /\ pred y = true /\ Forall (fun x => pred x = false) l1
  | None => Forall (fun x => pred x = false) l
  end.
Proof.
  induction l as [|x l IH]; cbn; [done|]. destruct (pred x) eqn:Hx; [done|].
  destruct (split_first pred l) as [[[l1 y] l2]|].
  - destruct IH as (-> & ? & ?). repeat split; try done. by constructor.
  - by constructor.
Qed.

Lemma split_first_fmap {A B} (f : A -> B) (pred : B -> bool) (l : list A) :
  split_first pred (f <$> l) =
  match split_first (fun x => pred (f x)) l with
  | Some (l1, y, l2) => Some (f <$> l1, f y, f <$> l2)
  | None => None
  end.
Proof.
  induction l as [|x l IH]; cbn; [done|]. destruct (pred (f x)); [done|].
  rewrite IH. by destruct (split_first _ l) as [[[? ?] ?]|].
Qed.

(** The split found is the only one. *)
Lemma split_first_app {A} (pred : A -> bool) l1 y l2 :
  Forall (fun x => pred x = false) l1 -> pred y = true ->
  split_first pred (l1 ++ y :: l2) = Some (l1, y, l2).
Proof.
  intros Hl Hy. induction Hl as [|x l1 Hx _ IH]; cbn; [by rewrite Hy|].
  by rewrite Hx, IH.
Qed.

(** Sum of a list of integers. *)
Definition sumZ (l : list Z) : Z := foldr Z.add 0 l.

Lemma sumZ_app l1 l2 : sumZ (l1 ++ l2) = sumZ l1 + sumZ l2.
Proof. induction l1 as [|x l1 IH]; cbn; [done|]. fold (sumZ (l1 ++ l2)). rewrite IH.
  fold (sumZ l1). lia. Qed.

Create HintDb vy discriminated.
#[export] Hint Resolve wrap_fits bnot_fits lor_fits land_fits_l : vy.
#[export] Hint Extern 1 (0 <= _) => lia : vy.
Create Rewrite HintDb wrapdb.
#[export] Hint Rewrite wrap_wrap wrap_add_l wrap_add_r wrap_sub_l : wrapdb.
Create HintDb simdb discriminated.
#[export] Hint Resolve sim_ret sim_halt sim_bind : simdb.
(** Decompose a simulation of two commands of the same shape. *)
Ltac sim_step :=
  match goal with
  | |- sim _ (mret _) (mret _) => apply sim_ret
  | |- sim _ (halt _) (halt _) => apply sim_halt
  | |- sim _ (_ ≫= _) (_ ≫= _) => apply sim_bind; [|intros ?]
  | |- sim _ (if ?b then _ else _) _ => destruct b
  | |- sim _ (match ?x with _ => _ end) _ => destruct x
  | |- sim _ (let '_ := ?x in _) _ => destruct x
  end.
