(* ===== verification/DList.v ===== *)
(** Doubly linked lists in a heap of nodes.

    [Links] is the representation predicate both list implementations of the kernel
    share: the intrusive [list_t]/[node_t] of [kernel/util/list.c] (modelled here, module
    [UtilList]) and the region list of [kernel/mm/virtual.c] (file Vmm).  A pointer is a
    [Z], [NULL] is [0]; a heap maps the addresses of live nodes to their fields, and an
    access to any other address is [Faulted]. *)
From S2P Require Import Prelude.

Module Links.
Section links.
(** The [prev] and [next] fields of the heap under consideration. *)
Implicit Types pv nx : Z -> option Z.

(** [seg pv nx p ns n]: the nodes [ns] are linked in this order, the first one's [prev]
  is [p] and the last one's [next] is [n]. *)
Fixpoint seg pv nx (p : Z) (ns : list Z) (n : Z) : Prop :=
match ns with
| [] => True
| a :: r => a <> 0 /\ pv a = Some p /\ nx a = Some (hd_or n r) /\ seg pv nx a r n
end.

Lemma seg_app pv nx p l1 l2 n :
seg pv nx p (l1 ++ l2) n <->
seg pv nx p l1 (hd_or n l2) /\ seg pv nx (last_or p l1) l2 n.
Proof.
revert p. induction l1 as [|a l1 IH]; intros p; cbn [seg app]; [tauto|].
rewrite IH, last_or_cons, hd_or_app. tauto.
Qed.

Lemma seg_ext pv nx pv' nx' p ns n :
(forall a, a ∈ ns -> pv' a = pv a /\ nx' a = nx a) ->
seg pv nx p ns n -> seg pv' nx' p ns n.
Proof.
revert p. induction ns as [|a ns IH]; intros p Hext; cbn [seg]; [done|].
intros (Ha & Hp & Hn & Hs).
destruct (Hext a) as [-> ->]; [by left|].
repeat split; [done..|]. apply IH; [|done]. intros b Hb. apply Hext. by right.
Qed.

Lemma seg_nonzero pv nx p ns n a : seg pv nx p ns n -> a ∈ ns -> a <> 0.
Proof.
revert p. induction ns as [|b ns IH]; intros p Hs Hin; [by inversion Hin|].
destruct Hs as (Hb & _ & _ & Hs). apply elem_of_cons in Hin as [->|Hin]; [done|].
by eapply IH.
Qed.

Lemma seg_alloc pv nx p ns n a :
seg pv nx p ns n -> a ∈ ns -> is_Some (pv a) /\ is_Some (nx a).
Proof.
revert p. induction ns as [|b ns IH]; intros p Hs Hin; [by inversion Hin|].
destruct Hs as (_ & Hp & Hn & Hs).
apply elem_of_cons in Hin as [->|Hin]; [rewrite Hp, Hn; eauto|by eapply IH].
Qed.

(** The whole list, from the [head] and [tail] pointers of its header. *)
Definition whole pv nx (hd tl : Z) (ns : list Z) : Prop :=
hd = hd_or 0 ns /\ tl = last_or 0 ns /\ NoDup ns /\ seg pv nx 0 ns 0.

Lemma whole_split pv nx hd tl l1 a l2 :
whole pv nx hd tl (l1 ++ a :: l2) ->
a <> 0 /\ a ∉ l1 /\ a ∉ l2 /\ NoDup (l1 ++ l2) /\
pv a = Some (last_or 0 l1) /\ nx a = Some (hd_or 0 l2) /\
seg pv nx 0 l1 a /\ seg pv nx a l2 0.
Proof.
intros (_ & _ & Hnd & Hs). apply seg_app in Hs as [H1 (Ha & Hp & Hn & H2)].
apply NoDup_app in Hnd as (Hn1 & Hd & Hn2). apply NoDup_cons in Hn2 as [Ha2 Hn2].
assert (a ∉ l1) by (intros Hin; eapply Hd; [done|by left]).
repeat split; try done. apply NoDup_app. repeat split; [done| |done].
intros x Hx Hx2. eapply Hd; [done|by right].
Qed.

Lemma last_or_0_iff pv nx p l n : seg pv nx p l n -> last_or 0 l = 0 <-> l = [].
Proof.
intros Hs. split; [|by intros ->]. destruct l as [|x l _] using rev_ind; [done|].
rewrite last_or_snoc. intros ->. exfalso.
eapply seg_nonzero; [done| |done]. apply elem_of_app. right. by left.
Qed.

Lemma hd_or_0_iff pv nx p l n : seg pv nx p l n -> hd_or 0 l = 0 <-> l = [].
Proof.
intros Hs. split; [|by intros ->]. destruct l as [|x l]; [done|].
cbn. intros ->. by destruct Hs.
Qed.

(** Retarget the [next] of the last node, or the [prev] of the first one. *)
Lemma seg_relink_end pv nx pv' nx' p l n n' :
NoDup l ->
(forall b, b ∈ l -> pv' b = pv b) ->
(forall b, b ∈ l -> nx' b = if decide (b = last_or 0 l) then Some n' else nx b) ->
seg pv nx p l n -> seg pv' nx' p l n'.
Proof.
intros Hnd Hp Hn Hs. destruct l as [|t l _] using rev_ind; [done|].
apply NoDup_snoc in Hnd as [_ Hni]. rewrite last_or_snoc in Hn.
apply seg_app in Hs as [Hs (Htz & Htp & _ & _)]. apply seg_app. split.
- eapply seg_ext; [|exact Hs]. intros a Ha.
  rewrite Hp, Hn by set_solver. rewrite decide_False by (by intros ->). done.
- repeat split; [done| |].
  + by rewrite Hp by set_solver.
  + by rewrite Hn, decide_True by set_solver.
Qed.

Lemma seg_relink_start pv nx pv' nx' p p' l n :
NoDup l ->
(forall b, b ∈ l -> nx' b = nx b) ->
(forall b, b ∈ l -> pv' b = if decide (b = hd_or 0 l) then Some p' else pv b) ->
seg pv nx p l n -> seg pv' nx' p' l n.
Proof.
intros Hnd Hn Hp Hs. destruct l as [|t l]; [done|].
apply NoDup_cons in Hnd as [Hni _]. destruct Hs as (Htz & _ & Htn & Hs).
repeat split; [done| | |].
- rewrite Hp by set_solver. by rewrite decide_True.
- by rewrite Hn by set_solver.
- eapply seg_ext; [|exact Hs]. intros a Ha.
  rewrite Hn, Hp by set_solver. rewrite decide_False by (intros ->; done). done.
Qed.

(** Linking [a] in between [l1] and [l2]. *)
Lemma whole_insert pv nx pv' nx' hd tl hd' tl' l1 a l2 :
whole pv nx hd tl (l1 ++ l2) -> a <> 0 -> a ∉ l1 ++ l2 ->
pv' a = Some (last_or 0 l1) -> nx' a = Some (hd_or 0 l2) ->
(forall b, b ∈ l1 ++ l2 -> pv' b = if decide (b = hd_or 0 l2) then Some a else pv b) ->
(forall b, b ∈ l1 ++ l2 -> nx' b = if decide (b = last_or 0 l1) then Some a else nx b) ->
hd' = hd_or a l1 -> tl' = last_or a l2 ->
whole pv' nx' hd' tl' (l1 ++ a :: l2).
Proof.
intros (_ & _ & Hnd & Hs) Ha Hni Hpa Hna Hp Hn -> ->.
apply seg_app in Hs as [Hs1 Hs2].
pose proof Hni as Hni'. apply not_elem_of_app in Hni' as [Hn1 Hn2].
pose proof Hnd as Hnd'. apply NoDup_app in Hnd' as (Hd1 & Hdis & Hd2).
repeat split.
- by rewrite hd_or_app.
- by rewrite last_or_app, last_or_cons.
- by apply NoDup_middle.
- apply seg_app. split; [|repeat split; [done..|]].
  + eapply seg_relink_end; [done| | |exact Hs1].
    * intros b Hb. rewrite Hp by set_solver. apply decide_False. intros ->.
      destruct l2 as [|x l2]; cbn in *; [by eapply seg_nonzero|].
      eapply Hdis; [exact Hb|by left].
    * intros b Hb. rewrite Hn by set_solver. done.
  + eapply seg_relink_start; [done| | |exact Hs2].
    * intros b Hb. rewrite Hn by set_solver. apply decide_False. intros ->.
      destruct l1 as [|x l1 _] using rev_ind; [by eapply seg_nonzero|].
      rewrite last_or_snoc in *. eapply (Hdis x); [set_solver|done].
    * intros b Hb. rewrite Hp by set_solver. done.
Qed.

(** Unlinking [a]. *)
Lemma whole_remove pv nx pv' nx' hd tl hd' tl' l1 a l2 :
whole pv nx hd tl (l1 ++ a :: l2) ->
(forall b, b ∈ l1 ++ l2 ->
   pv' b = if decide (b = hd_or 0 l2) then Some (last_or 0 l1) else pv b) ->
(forall b, b ∈ l1 ++ l2 ->
   nx' b = if decide (b = last_or 0 l1) then Some (hd_or 0 l2) else nx b) ->
hd' = hd_or 0 (l1 ++ l2) -> tl' = last_or 0 (l1 ++ l2) ->
whole pv' nx' hd' tl' (l1 ++ l2).
Proof.
intros Hw Hp Hn -> ->. apply whole_split in Hw as (_ & _ & _ & Hnd & _ & _ & Hs1 & Hs2).
pose proof Hnd as Hnd'. apply NoDup_app in Hnd' as (Hd1 & Hdis & Hd2).
repeat split; [done|]. apply seg_app. split.
- eapply seg_relink_end; [done| | |exact Hs1].
  + intros b Hb. rewrite Hp by set_solver. apply decide_False. intros ->.
    destruct l2 as [|x l2]; cbn in *; [by eapply seg_nonzero|].
    eapply Hdis; [exact Hb|by left].
  + intros b Hb. rewrite Hn by set_solver. done.
- eapply seg_relink_start; [done| | |exact Hs2].
  + intros b Hb. rewrite Hn by set_solver. apply decide_False. intros ->.
    destruct l1 as [|x l1 _] using rev_ind; [by eapply seg_nonzero|].
    rewrite last_or_snoc in *. eapply (Hdis x); [set_solver|done].
  + intros b Hb. rewrite Hp by set_solver. done.
Qed.
End links.
End Links.

(** ** kernel/util/list.c *)
Module UtilList.

(** [node_t] of kernel/include/util/list.h; [data] is the payload pointer. *)
Record node_t := mkNode { prev : Z; next : Z; data : Z }.
(** [list_t]. *)
Record list_t := mkList { head : Z; tail : Z; length : Z }.

Definition empty_list : list_t := mkList 0 0 0.

#[global] Instance node_eq_dec : EqDecision node_t.
Proof. solve_decision. Defined.
#[global] Instance list_t_eq_dec : EqDecision list_t.
Proof. solve_decision. Defined.

Abbreviation heap := (gmap Z node_t).
(** One list header and the nodes. *)
Definition st : Type := list_t * heap.

(** [p->field] for a pointer to a node. *)
Definition load (p : Z) : cmd st node_t := fun s =>
  match s.2 !! p with Some n => Ok (n, s) | None => Stop (Faulted p) end.
Definition store (p : Z) (n : node_t) : cmd st unit := fun s =>
  Ok (tt, (s.1, <[p:=n]> s.2)).
(** [p->prev = x], [p->next = x]. *)
Definition set_prev (p x : Z) : cmd st unit :=
  n ← load p; store p (mkNode x (next n) (data n)).
Definition set_next (p x : Z) : cmd st unit :=
  n ← load p; store p (mkNode (prev n) x (data n)).
Definition set_head (x : Z) : cmd st unit :=
  modify (fun s => (mkList x (tail s.1) (length s.1), s.2)).
Definition set_tail (x : Z) : cmd st unit :=
  modify (fun s => (mkList (head s.1) x (length s.1), s.2)).
Definition set_length (x : Z) : cmd st unit :=
  modify (fun s => (mkList (head s.1) (tail s.1) (u64 x), s.2)).
Definition get_list : cmd st list_t := gets fst.

Definition list_insert_after (after node : Z) : cmd st unit :=
  if decide (after = 0 \/ node = 0) then mret tt else
  a ← load after;
  _ ← set_next node (next a);
  _ ← set_prev node after;
  a ← load after;
  _ ← (if decide (next a = 0) then set_tail node else set_prev (next a) node);
  _ ← set_next after node;
  l ← get_list;
  set_length (length l + 1).

Definition list_append (node : Z) : cmd st unit :=
  if decide (node = 0) then mret tt else
  l ← get_list;
  _ ← (if decide (head l = 0) then set_head node else mret tt);
  l ← get_list;
  _ ← (if decide (tail l = 0) then mret tt else set_next (tail l) node);
  l ← get_list;
  _ ← set_prev node (tail l);
  _ ← set_tail node;
  l ← get_list;
  _ ← set_next (tail l) 0;
  l ← get_list;
  set_length (length l + 1).

Definition list_remove (node : Z) : cmd st unit :=
  if decide (node = 0) then mret tt else
  n ← load node;
  _ ← (if decide (prev n = 0) then set_head (next n) else set_next (prev n) (next n));
  n ← load node;
  _ ← (if decide (next n = 0) then set_tail (prev n) else set_prev (next n) (prev n));
  l ← get_list;
  set_length (length l - 1).

(** *** Correctness: [list_t] represents a sequence of nodes *)

Definition pv (h : heap) (a : Z) : option Z := prev <$> h !! a.
Definition nx (h : heap) (a : Z) : option Z := next <$> h !! a.

(** The header and heap [s] hold the node sequence [ns]. *)
Definition is_list (s : st) (ns : list Z) : Prop :=
  Links.whole (pv s.2) (nx s.2) (head s.1) (tail s.1) ns /\
  length s.1 = u64 (Z.of_nat (List.length ns)).

(** Payloads and node set of two heaps agree, and so do all nodes outside [touched]. *)
Definition same_payload (h h' : heap) (touched : list Z) : Prop :=
  (forall a, data <$> h' !! a = data <$> h !! a) /\
  (forall a, a ∉ touched -> h' !! a = h !! a).

Lemma is_list_empty h : is_list (empty_list, h) [].
Proof. split; [|done]. repeat split. constructor. Qed.

Lemma pv_node h a p : pv h a = Some p -> exists n, h !! a = Some n /\ prev n = p.
Proof. unfold pv. destruct (h !! a) as [n|]; cbn; [|done]. intros [= <-]. eauto. Qed.
Lemma nx_node h a p : nx h a = Some p -> exists n, h !! a = Some n /\ next n = p.
Proof. unfold nx. destruct (h !! a) as [n|]; cbn; [|done]. intros [= <-]. eauto. Qed.

(** Step through a command on an explicit state, looking nodes up in the heap. *)
Ltac run_list :=
  repeat first
    [ progress (cbv beta iota delta [set_prev set_next set_head set_tail set_length
        get_list load store mbind cmd_bind mret cmd_ret gets modify]; cbn [fst snd head tail length prev next data])
    | rewrite decide_True by (tauto || lia || congruence)
    | rewrite decide_False by (tauto || lia || congruence)
    | progress simplify_map_eq ].

Lemma list_append_spec l h ns node nd :
  is_list (l, h) ns -> node <> 0 -> node ∉ ns -> h !! node = Some nd ->
  exists l' h', list_append node (l, h) = Ok (tt, (l', h')) /\
    is_list (l', h') (ns ++ [node]) /\ same_payload h h' (ns ++ [node]).
Proof.
  intros [Hw Hlen] Hnz Hni Hnode. pose proof Hw as (Hh & Ht & Hnd & Hs).
  destruct l as [hd tl len]; cbn in *.
  pose proof (Links.hd_or_0_iff _ _ _ _ _ Hs) as Hhd0.
  pose proof (Links.last_or_0_iff _ _ _ _ _ Hs) as Htl0.
  destruct (decide (ns = [])) as [->|Hne].
  - cbn in Hh, Ht. subst. eexists _, _. split; [unfold list_append; by run_list|].
    split; [split|split].
    + eapply (Links.whole_insert _ _ _ _ 0 0 _ _ [] node []); [done..| | | | | |].
      all: cbn; unfold pv, nx; simplify_map_eq; try done.
      all: intros b Hb; by inversion Hb.
    + done.
    + intros a. map_cases.
    + intros a [Ha _]%not_elem_of_cons. by simplify_map_eq.
  - assert (tl <> 0) by naive_solver. assert (hd <> 0) by naive_solver.
    destruct (Links.seg_alloc _ _ _ _ _ tl Hs) as [[? E] _].
    { subst tl. destruct ns as [|x ns _] using rev_ind; [done|].
      rewrite last_or_snoc. set_solver. }
    apply pv_node in E as (tn & Htn & _).
    assert (tl <> node).
    { intros ->. destruct ns as [|y ns _] using rev_ind; [done|].
      rewrite last_or_snoc in Ht. set_solver. }
    eexists _, _. split; [unfold list_append; by run_list|].
    split; [split|split].
    + assert (Hmem : forall b, b ∈ ns ++ [] -> b <> node /\ b <> 0).
      { intros b. rewrite app_nil_r. intros Hb. split; [congruence|].
        by eapply Links.seg_nonzero. }
      eapply (Links.whole_insert _ _ _ _ hd tl _ _ ns node []);
        [by rewrite app_nil_r|done|by rewrite app_nil_r| | | | | |].
      all: cbn; unfold pv, nx; simplify_map_eq; try done.
      * intros b [??]%Hmem. map_cases.
      * intros b [??]%Hmem. map_cases.
      * destruct ns; done.
    + autorewrite with wrapdb. rewrite length_app. cbn. f_equal. lia.
    + intros a. map_cases.
    + intros a [Ha1 Ha2]%not_elem_of_app. rewrite list_elem_of_singleton in Ha2.
      assert (a <> last_or 0 ns); [|map_cases].
      intros ->. destruct ns as [|y ns _] using rev_ind; [done|].
      rewrite last_or_snoc in Ha1. set_solver.
Qed.

Lemma last_or_elem (l : list Z) : l <> [] -> last_or 0 l ∈ l.
Proof.
  destruct l as [|y l _] using rev_ind; [done|]. rewrite last_or_snoc. set_solver.
Qed.
Lemma hd_or_elem (l : list Z) : l <> [] -> hd_or 0 l ∈ l.
Proof. destruct l; [done|]. cbn. set_solver. Qed.

Lemma list_remove_spec l h l1 node l2 :
  is_list (l, h) (l1 ++ node :: l2) ->
  exists l' h', list_remove node (l, h) = Ok (tt, (l', h')) /\
    is_list (l', h') (l1 ++ l2) /\ same_payload h h' (l1 ++ l2).
Proof.
  intros [Hw Hlen]. destruct l as [hd tl len]; cbn in *.
  pose proof (Links.whole_split _ _ _ _ _ _ _ Hw)
    as (Hnz & Hn1 & Hn2 & Hnd & Hp & Hn & Hs1 & Hs2).
  pose proof (Links.last_or_0_iff _ _ _ _ _ Hs1) as Hl1.
  pose proof (Links.hd_or_0_iff _ _ _ _ _ Hs2) as Hl2.
  pose proof Hw as (Hhd & Htl & _ & _).
  rewrite hd_or_app in Hhd. rewrite last_or_app, last_or_cons in Htl. cbn in Hhd.
  apply pv_node in Hp as (nd & Hnode & Hp). apply nx_node in Hn as (? & E & Hn).
  simplify_eq. destruct nd as [p0 n0 d0]; cbn in *; subst p0 n0.
  assert (Hm1 : last_or 0 l1 <> 0 -> last_or 0 l1 ∈ l1) by
    (intros ?; apply last_or_elem; naive_solver).
  assert (Hm2 : hd_or 0 l2 <> 0 -> hd_or 0 l2 ∈ l2) by
    (intros ?; apply hd_or_elem; naive_solver).
  assert (Hmem : forall b, b ∈ l1 ++ l2 -> b <> node /\ b <> 0 /\ is_Some (h !! b)).
  { intros b [Hb|Hb]%elem_of_app; [pose proof Hs1 as Hsb|pose proof Hs2 as Hsb];
      (split; [congruence|]); (split; [by eapply Links.seg_nonzero|]);
      destruct (Links.seg_alloc _ _ _ _ _ b Hsb Hb) as [[? E'] _];
      apply pv_node in E' as (? & ? & _); eauto. }
  assert (Hx : last_or 0 l1 <> 0 -> hd_or 0 l2 <> 0 -> last_or 0 l1 <> hd_or 0 l2).
  { intros H1 H2 Heq. apply NoDup_app in Hnd as (_ & Hdis & _).
    eapply Hdis; [by apply Hm1|]. rewrite Heq. by apply Hm2. }
  assert (Hne1 : last_or 0 l1 <> node).
  { destruct (decide (last_or 0 l1 = 0)); [congruence|]. set_solver. }
  assert (Hne2 : hd_or 0 l2 <> node).
  { destruct (decide (hd_or 0 l2 = 0)); [congruence|]. set_solver. }
  assert (Hs' : forall b, b ∈ l1 ++ l2 -> exists n, h !! b = Some n) by naive_solver.
  destruct (decide (last_or 0 l1 = 0)) as [Hz1|Hz1];
    destruct (decide (hd_or 0 l2 = 0)) as [Hz2|Hz2];
  [ | destruct (Hs' (hd_or 0 l2)) as [n2 Hn2']; [set_solver|]
    | destruct (Hs' (last_or 0 l1)) as [n1 Hn1']; [set_solver|]
    | destruct (Hs' (last_or 0 l1)) as [n1 Hn1']; [set_solver|];
      destruct (Hs' (hd_or 0 l2)) as [n2 Hn2']; [set_solver|] ].
  all: eexists _, _; (split; [unfold list_remove; run_list; reflexivity|]).
  all: split; [split|split].
  all: try (cbn; autorewrite with wrapdb; rewrite !length_app; cbn; f_equal; lia).
  all: try (intros a; map_cases).
  all: try (intros [??]%not_elem_of_app; simplify_map_eq; set_solver).
  all: eapply (Links.whole_remove _ _ _ _ _ _ _ _ l1 node l2); [exact Hw|..].
  all: cbn [fst snd head tail]; try specialize (Hx Hz1 Hz2).
  all: try (intros b (?&?&?)%Hmem; unfold pv, nx; map_cases).
  all: rewrite ?hd_or_app, ?last_or_app.
  all: try (apply Hl1 in Hz1; subst l1; done).
  all: try (apply Hl2 in Hz2; subst l2; done).
  all: try (destruct l1; [by contradict Hz1|done]).
  all: destruct l2 as [|? ? _] using rev_ind; [by contradict Hz2|by rewrite !last_or_snoc].
Qed.

Lemma list_insert_after_spec l h l1 after l2 node nd :
  is_list (l, h) ((l1 ++ [after]) ++ l2) -> node <> 0 ->
  node ∉ (l1 ++ [after]) ++ l2 -> h !! node = Some nd ->
  exists l' h', list_insert_after after node (l, h) = Ok (tt, (l', h')) /\
    is_list (l', h') ((l1 ++ [after]) ++ node :: l2) /\
    same_payload h h' ((l1 ++ [after]) ++ node :: l2).
Proof.
  intros [Hw Hlen] Hnz Hni Hnode. destruct l as [hd tl len]; cbn in *.
  assert (Hw' : Links.whole (pv h) (nx h) hd tl (l1 ++ after :: l2))
    by (by rewrite <-app_assoc in Hw).
  pose proof (Links.whole_split _ _ _ _ _ _ _ Hw')
    as (Haz & _ & _ & _ & _ & Hn & _ & Hs2).
  pose proof (Links.hd_or_0_iff _ _ _ _ _ Hs2) as Hl2.
  pose proof Hw as (Hhd & Htl & Hnd & Hs).
  assert (Hlast : last_or 0 (l1 ++ [after]) = after) by apply last_or_snoc.
  apply nx_node in Hn as (ad & Hafter & Hn). destruct ad as [pa na da]; cbn in *; subst na.
  assert (Hna : node <> after) by set_solver.
  assert (Hmem : forall b, b ∈ (l1 ++ [after]) ++ l2 -> b <> node /\ b <> 0).
  { intros b Hb. split; [set_solver|]. eapply Links.seg_nonzero; [exact Hs|done]. }
  assert (Hah : after <> hd_or 0 l2).
  { intros ->. destruct l2; [done|]. cbn in *. apply NoDup_app in Hnd as (_ & Hnd & _).
    eapply (Hnd z); set_solver. }
  assert (Hn2 : hd_or 0 l2 <> 0 -> exists n2, h !! hd_or 0 l2 = Some n2).
  { intros Hz. assert (hd_or 0 l2 ∈ l2) as Hin by (apply hd_or_elem; naive_solver).
    destruct (Links.seg_alloc _ _ _ _ _ (hd_or 0 l2) Hs2 Hin) as [[? E'] _].
    apply pv_node in E' as (n2 & ? & _). eauto. }
  assert (hd_or 0 l2 <> node).
  { intros Heq. rewrite Heq in *. destruct l2; cbn in *; [done|]. set_solver. }
  assert (Hfr : forall a, a ∉ (l1 ++ [after]) ++ node :: l2 ->
    a <> after /\ a <> node /\ (hd_or 0 l2 <> 0 -> a <> hd_or 0 l2)).
  { intros a [Ha1 Ha2]%not_elem_of_app. split; [set_solver|]. split; [set_solver|].
    intros Hz ->. assert (hd_or 0 l2 ∈ l2) by (apply hd_or_elem; naive_solver).
    set_solver. }
  destruct (decide (hd_or 0 l2 = 0)) as [Hz|Hz];
    [|destruct (Hn2 Hz) as [n2 Hn2']].
  all: eexists _, _; split; [unfold list_insert_after; run_list; reflexivity|].
  all: rewrite ?insert_insert_eq; split; [split|split].
  all: try (cbn; autorewrite with wrapdb; rewrite !length_app; cbn; f_equal; lia).
  all: try (eapply (Links.whole_insert _ _ _ _ _ _ _ _ (l1 ++ [after]) node l2);
    [exact Hw|done|set_solver|..]).
  all: clear Hw Hw' Hs Hnd Hs2; cbn [fst snd head tail].
  all: rewrite ?Hlast, ?hd_or_app, ?last_or_app; unfold pv, nx.
  all: try (intros b [? ?]%Hmem; map_cases).
  all: try (intros a (? & ? & Ha)%Hfr; try specialize (Ha Hz); by simplify_map_eq).
  all: try (destruct l1; done).
  all: try (intros a; map_cases).
  all: try (apply Hl2 in Hz; subst l2; done).
  all: try (destruct l2; done).
  all: try by simplify_map_eq.
  destruct l2 as [|x l2 _] using rev_ind; [by contradict Hz|by rewrite !last_or_snoc].
Qed.


End UtilList.
