(* ===== verification/Paging.v ===== *)
(** The page tables: kernel/mm/virtual.c (lines 34-118) over an x86-64 MMU.

    The hardware side is the four-level translation [walk] over physical memory; the
    kernel reaches its own tables through the recursive slot 510, so every table access
    of the C code is an access at a virtual address, translated by [walk] like any other.
    Physical pages come from a [PageSource] (implemented by file Pmm). *)
From S2P Require Import Prelude.

(** ** Constants of kernel/include/mm/virtual.h *)
Definition PAGE_PRESENT : Z := 0x01.
Definition PAGE_WRITE : Z := 0x02.
Definition PAGE_NX : Z := 0x8000000000000000.
Definition PAGE_SHIFT : Z := 12.
Definition HIGHER_HALF : Z := 0xFFFF800000000000.
Definition PML1_OFFSET : Z := 0xFFFFFF0000000000.
Definition PML2_OFFSET : Z := 0xFFFFFF7F80000000.
Definition PML3_OFFSET : Z := 0xFFFFFF7FBFC00000.
Definition PML4_OFFSET : Z := 0xFFFFFF7FBFDFE000.
Definition PML1_SHIFT : Z := 12.
Definition PML2_SHIFT : Z := 21.
Definition PML3_SHIFT : Z := 30.
Definition PML4_SHIFT : Z := 39.

(** [PAGE_UP(x)] *)
Definition PAGE_UP (x : Z) : Z :=
  if decide (0xFFF .& x = 0) then x else u64 (x + 0x1000) .& bnot 64 0xFFF.

(** [struct vm_indices] *)
Record vm_indices := {
  pml4i : Z; pml3i : Z; pml2i : Z; pml1i : Z;
  pml4 : Z; pml3 : Z; pml2 : Z; pml1 : Z }.

Definition mm_virtual_indices (addr : Z) : vm_indices :=
  let high := bool_decide (HIGHER_HALF <= addr) in
  let addr := if high then u64 (addr - HIGHER_HALF) else addr in
  let i4 := if high then 256 + ((addr ≫ PML4_SHIFT) .& 0x1FF)
            else (addr ≫ PML4_SHIFT) .& 0x1FF in
  let i3 := (addr ≫ PML3_SHIFT) .& 0x1FF in
  let i2 := (addr ≫ PML2_SHIFT) .& 0x1FF in
  let i1 := (addr ≫ PML1_SHIFT) .& 0x1FF in
  {| pml4i := i4; pml3i := i3; pml2i := i2; pml1i := i1;
     pml4 := PML4_OFFSET;
     pml3 := u64 (PML3_OFFSET + (i4 ≪ PML1_SHIFT));
     pml2 := u64 (PML2_OFFSET + (i4 ≪ PML2_SHIFT) + (i3 ≪ PML1_SHIFT));
     pml1 := u64 (PML1_OFFSET + (i4 ≪ PML3_SHIFT) + (i3 ≪ PML2_SHIFT)
                  + (i2 ≪ PML1_SHIFT)) |}.

(** ** The MMU *)
Module MMU.
(** Physical memory by 8-byte words; a word never written reads as 0. *)
Definition rd (m : gmap Z Z) (a : Z) : Z := default 0 (m !! a).

Definition present (e : Z) : bool := Z.testbit e 0.
(** The page-size bit of a level 2 or level 3 entry. *)
Definition large (e : Z) : bool := Z.testbit e 7.
Definition base (e : Z) : Z := e .& 0x000FFFFFFFFFF000.

Definition idx (lvl : nat) (va : Z) : Z := (va ≫ (12 + 9 * Z.of_nat lvl)) .& 0x1FF.

(** Translation from the table [tbl] of level [lvl] (3 is the PML4). *)
Fixpoint walk_from (m : gmap Z Z) (lvl : nat) (tbl va : Z) : option Z :=
  let e := rd m (tbl + 8 * idx lvl va) in
  if negb (present e) then None else
  match lvl with
  | O => Some (base e + va mod 2 ^ 12)
  | S l =>
      if large e && bool_decide (lvl < 3)%nat
      then let w := 12 + 9 * Z.of_nat lvl in
           Some ((base e / 2 ^ w) * 2 ^ w + va mod 2 ^ w)
      else walk_from m l (base e) va
  end.

(** Bits 63 to 47 all equal. *)
Definition canonical (va : Z) : bool :=
  bool_decide (0 <= va < 2 ^ 47 \/ HIGHER_HALF <= va < 2 ^ 64).

Definition walk (m : gmap Z Z) (cr3 va : Z) : option Z :=
  if canonical va then walk_from m 3 cr3 va else None.
End MMU.
Import MMU.

(** ** The contract of the physical page allocator *)
Class PageSource (P : Type) := {
  page_get : cmd P Z;
  (** the pages it can still hand out, in the order it will do so *)
  avail : P -> list Z;
  page_wf : P -> Prop;
  page_get_spec p : page_wf p ->
    match avail p with
    | [] => exists w, page_get p = Stop w
    | a :: r => exists p', page_get p = Ok (a, p') /\ avail p' = r /\ page_wf p'
    end }.
#[global] Hint Mode PageSource ! : typeclass_instances.

Record pst {P : Type} := mkP { ram : gmap Z Z; cr3 : Z; pages : P }.
Arguments pst P : clear implicits.
Arguments mkP {P} _ _ _.

Section paging.
Context {P : Type} `{!PageSource P}.

(** An 8-byte access at a virtual address. *)
Definition vread (va : Z) : cmd (pst P) Z := fun s =>
  match walk (ram s) (cr3 s) va with
  | Some pa => Ok (rd (ram s) pa, s)
  | None => Stop (Faulted va)
  end.
Definition vwrite (va v : Z) : cmd (pst P) unit := fun s =>
  match walk (ram s) (cr3 s) va with
  | Some pa => Ok (tt, mkP (<[pa:=v]> (ram s)) (cr3 s) (pages s))
  | None => Stop (Faulted va)
  end.
(** [memset(va, 0, 0x1000)] on a page-aligned address, word by word. *)
Definition vclear (va : Z) : cmd (pst P) unit :=
  for_n 512 0 (fun k => vwrite (va + 8 * k) 0).

Definition mm_physical_get : cmd (pst P) Z := fun s =>
  match page_get (pages s) with
  | Ok (a, p) => Ok (a, mkP (ram s) (cr3 s) p)
  | Stop w => Stop w
  end.

(** The block the C code repeats per level:
    [if(!(tbl[i] & PAGE_PRESENT)) { tbl[i] = get() | P | W; memset(next, 0, 0x1000); }] *)
Definition ensure_table (tbl i next : Z) : cmd (pst P) unit :=
  e ← vread (tbl + 8 * i);
  if decide (e .& PAGE_PRESENT = 0) then
    new_table ← mm_physical_get;
    _ ← vwrite (tbl + 8 * i) (new_table .| PAGE_PRESENT .| PAGE_WRITE);
    vclear next
  else mret tt.

(** [for(c = i.pml1i; c < 512 && mapped_pages < pages; c++, mapped_pages++)
       i.pml1[c] = (phys + (mapped_pages << PAGE_SHIFT)) | flags;] *)
Fixpoint map_loop (fuel : nat) (pml1 phys pages flags c mapped_pages : Z)
  : cmd (pst P) Z :=
  match fuel with
  | O => halt OutOfFuel
  | S fuel =>
      if decide (c < 512 /\ mapped_pages < pages) then
        _ ← vwrite (pml1 + 8 * c) (u64 (phys + (mapped_pages ≪ PAGE_SHIFT)) .| flags);
        map_loop fuel pml1 phys pages flags (c + 1) (mapped_pages + 1)
      else mret mapped_pages
  end.

Fixpoint mm_virtual_map (fuel : nat) (phys virt pages flags : Z) : cmd (pst P) unit :=
  match fuel with
  | O => halt OutOfFuel
  | S fuel =>
      let i := mm_virtual_indices virt in
      _ ← ensure_table (pml4 i) (pml4i i) (pml3 i);
      _ ← ensure_table (pml3 i) (pml3i i) (pml2 i);
      _ ← ensure_table (pml2 i) (pml2i i) (pml1 i);
      mapped_pages ← map_loop 513 (pml1 i) phys pages flags (pml1i i) 0;
      if decide (mapped_pages < pages) then
        mm_virtual_map fuel (u64 (phys + (mapped_pages ≪ PAGE_SHIFT)))
          (u64 (virt + (mapped_pages ≪ PAGE_SHIFT))) (pages - mapped_pages) flags
      else mret tt
  end.

(** [i.pml4[..] & P && i.pml3[..] & P && i.pml2[..] & P && i.pml1[..] & P ? i.pml1[..] : 0]
    with C's short-circuit order. *)
Definition read_leaf (virt : Z) : cmd (pst P) Z :=
  let i := mm_virtual_indices virt in
  e4 ← vread (pml4 i + 8 * pml4i i);
  if decide (e4 .& PAGE_PRESENT = 0) then mret 0 else
  e3 ← vread (pml3 i + 8 * pml3i i);
  if decide (e3 .& PAGE_PRESENT = 0) then mret 0 else
  e2 ← vread (pml2 i + 8 * pml2i i);
  if decide (e2 .& PAGE_PRESENT = 0) then mret 0 else
  e1 ← vread (pml1 i + 8 * pml1i i);
  if decide (e1 .& PAGE_PRESENT = 0) then mret 0 else
  mret e1.

Definition mm_virtual_get_phys (virt : Z) : cmd (pst P) Z :=
  e ← read_leaf virt; mret (e .& 0x000FFFFFFFFFF000).
Definition mm_virtual_get_flags (virt : Z) : cmd (pst P) Z :=
  e ← read_leaf virt; mret (e .& 0xfff0000000000fff).
End paging.

(** ** Addresses and index paths *)

Lemma idx_div lvl va : idx lvl va = va / 2 ^ (12 + 9 * Z.of_nat lvl) mod 512.
Proof.
  unfold idx. change 0x1FF with (Z.ones 9).
  by rewrite land_low, Z.shiftr_div_pow2 by lia.
Qed.

Lemma idx_range lvl va : 0 <= idx lvl va < 512.
Proof. rewrite idx_div. by apply Z.mod_pos_bound. Qed.

Lemma idx_0 va : idx 0 va = va / 2 ^ 12 mod 512. Proof. apply idx_div. Qed.
Lemma idx_1 va : idx 1 va = va / 2 ^ 21 mod 512. Proof. apply idx_div. Qed.
Lemma idx_2 va : idx 2 va = va / 2 ^ 30 mod 512. Proof. apply idx_div. Qed.
Lemma idx_3 va : idx 3 va = va / 2 ^ 39 mod 512. Proof. apply idx_div. Qed.

(** The four indices of an address, from the PML4 down. *)
Definition path_of (va : Z) : list Z := [idx 3 va; idx 2 va; idx 1 va; idx 0 va].

(** A canonical address with the given indices and page offset. *)
Definition addr_of (a b c d off : Z) : Z :=
  (if decide (256 <= a) then 2 ^ 64 - 2 ^ 48 else 0) +
  a * 2 ^ 39 + b * 2 ^ 30 + c * 2 ^ 21 + d * 2 ^ 12 + off.

Lemma addr_of_canonical a b c d off :
  0 <= a < 512 -> 0 <= b < 512 -> 0 <= c < 512 -> 0 <= d < 512 -> 0 <= off < 4096 ->
  canonical (addr_of a b c d off) = true.
Proof.
  intros. unfold canonical. apply bool_decide_eq_true.
  unfold addr_of, HIGHER_HALF. case_decide; lia.
Qed.

Lemma addr_of_path a b c d off :
  0 <= a < 512 -> 0 <= b < 512 -> 0 <= c < 512 -> 0 <= d < 512 -> 0 <= off < 4096 ->
  path_of (addr_of a b c d off) = [a; b; c; d] /\ addr_of a b c d off mod 2 ^ 12 = off.
Proof.
  intros. unfold path_of. rewrite idx_0, idx_1, idx_2, idx_3. unfold addr_of.
  case_decide; split.
  all: try zlia.
  all: repeat f_equal; cbn -[Z.div Z.modulo Z.pow Z.mul Z.add]; zlia.
Qed.

(** A canonical address is determined by its indices and offset. *)
Lemma addr_of_path_of va :
  canonical va = true ->
  addr_of (idx 3 va) (idx 2 va) (idx 1 va) (idx 0 va) (va mod 2 ^ 12) = va.
Proof.
  intros Hc%bool_decide_eq_true. unfold HIGHER_HALF in Hc. rewrite idx_0, idx_1, idx_2, idx_3.
  unfold addr_of. case_decide; zlia.
Qed.

Lemma indices_idx va :
  fits 64 va ->
  let i := mm_virtual_indices va in
  [pml4i i; pml3i i; pml2i i; pml1i i] = path_of va.
Proof.
  intros Hf. unfold path_of. rewrite idx_0, idx_1, idx_2, idx_3.
  unfold mm_virtual_indices, PML4_SHIFT, PML3_SHIFT, PML2_SHIFT, PML1_SHIFT, HIGHER_HALF.
  cbn -[Z.div Z.modulo Z.pow Z.mul Z.add Z.shiftr Z.land Z.shiftl].
  change 0x1FF with (Z.ones 9). rewrite !land_low, !Z.shiftr_div_pow2 by lia.
  case_bool_decide; unfold fits, wrap in *;
    repeat (apply (f_equal2 cons); [zlia|]); done.
Qed.

(** ** The tables as a tree *)

(** The page an entry points to. *)
Definition entry_page (e : Z) : option Z := if present e then Some (base e) else None.
Definition step (m : gmap Z Z) (t i : Z) : option Z := entry_page (rd m (t + 8 * i)).

(** The page reached from [t] along a path of indices: a table for up to three
    indices, a mapped page for four. *)
Fixpoint table (m : gmap Z Z) (t : Z) (p : list Z) : option Z :=
  match p with
  | [] => Some t
  | i :: p => match step m t i with Some t' => table m t' p | None => None end
  end.

Definition index (i : Z) : Prop := 0 <= i < 512.
(** Paths that do not go through the recursive slot. *)
Definition tpath (p : list Z) : Prop := Forall index p /\ head p <> Some 510.
Definition is_page (a : Z) : Prop := fits 52 a /\ a mod 4096 = 0.
#[export] Instance is_page_dec a : Decision (is_page a).
Proof. unfold is_page. apply _. Defined.

Lemma base_div e : base e = e / 2 ^ 12 mod 2 ^ 40 * 2 ^ 12.
Proof.
  unfold base. change 0x000FFFFFFFFFF000 with (Z.ones 40 ≪ 12). by rewrite land_field by lia.
Qed.

Lemma base_page e : is_page (base e).
Proof. rewrite base_div. unfold is_page. split; zlia. Qed.

Lemma base_of_page a fl : is_page a -> fits 12 fl -> base (a + fl) = a.
Proof. intros [Hf Ha] Hfl. rewrite base_div. zlia. Qed.

Lemma table_app m t p q :
  table m t (p ++ q) = match table m t p with Some t' => table m t' q | None => None end.
Proof.
  revert t. induction p as [|i p IH]; intros t; cbn; [done|]. by destruct (step m t i).
Qed.

Lemma table_snoc m t p i :
  table m t (p ++ [i]) = match table m t p with Some t' => step m t' i | None => None end.
Proof. rewrite table_app. destruct (table m t p); [|done]. cbn. by destruct (step m _ i). Qed.

Lemma step_page m t i t' : step m t i = Some t' -> is_page t'.
Proof. unfold step, entry_page. case_match; [|done]. intros [= <-]. apply base_page. Qed.

Lemma table_page m t p t' : is_page t -> table m t p = Some t' -> is_page t'.
Proof.
  intros Ht. destruct p as [|i p _] using rev_ind; [by intros [= <-]|].
  rewrite table_snoc. case_match; [|done]. apply step_page.
Qed.

(** Entries of distinct tables, or of one table at distinct indices, are distinct. *)
Lemma entry_addr_inj t t' i i' :
  is_page t -> is_page t' -> index i -> index i' ->
  t + 8 * i = t' + 8 * i' -> t = t' /\ i = i'.
Proof. unfold is_page, index. intros [_ H1] [_ H2] ? ? ?. zlia. Qed.

Lemma rd_insert_eq m a v : rd (<[a:=v]> m) a = v.
Proof. unfold rd. by rewrite lookup_insert_eq. Qed.
Lemma rd_insert_ne m a b v : a <> b -> rd (<[a:=v]> m) b = rd m b.
Proof. intros. unfold rd. by rewrite lookup_insert_ne. Qed.

Lemma rd_singleton a v : rd {[ a := v ]} a = v.
Proof. unfold rd. by rewrite lookup_singleton_eq. Qed.

(** ** The walk follows the tree *)

Lemma path_of_index va : Forall index (path_of va).
Proof. unfold path_of. repeat constructor; apply idx_range. Qed.

(** The entries on the way to the last step of a path are not large pages. *)
Definition small_path (m : gmap Z Z) (c : Z) (p : list Z) : Prop := forall pre j t,
  pre ++ [j] `prefix_of` p -> (S (List.length pre) < List.length p)%nat ->
  table m c pre = Some t -> present (rd m (t + 8 * j)) = true ->
  large (rd m (t + 8 * j)) = false.

Lemma walk_table m c va :
  small_path m c (path_of va) -> canonical va = true ->
  walk m c va = (fun t => t + va mod 2 ^ 12) <$> table m c (path_of va).
Proof.
  intros Hl Hc. unfold walk. rewrite Hc. unfold path_of in *.
  cbn [walk_from table]. unfold step, entry_page.
  destruct (present (rd m (c + 8 * idx 3 va))) eqn:P3; [|done]. cbn [negb].
  rewrite (bool_decide_eq_false_2 (3 < 3)%nat), andb_false_r by lia.
  set (t3 := base (rd m (c + 8 * idx 3 va))).
  assert (T3 : table m c [idx 3 va] = Some t3)
    by (cbn; unfold step, entry_page; by rewrite P3).
  destruct (present (rd m (t3 + 8 * idx 2 va))) eqn:P2; [|done]. cbn [negb].
  rewrite (Hl [idx 3 va] (idx 2 va) t3); [|by eexists|cbn; lia|done..].
  cbn [andb]. set (t2 := base (rd m (t3 + 8 * idx 2 va))).
  assert (T2 : table m c [idx 3 va; idx 2 va] = Some t2)
    by (cbn; unfold step, entry_page; rewrite P3; fold t3; by rewrite P2).
  destruct (present (rd m (t2 + 8 * idx 1 va))) eqn:P1; [|done]. cbn [negb].
  rewrite (Hl [idx 3 va; idx 2 va] (idx 1 va) t2); [|by eexists|cbn; lia|done..].
  cbn [andb]. by destruct (present (rd m (base (rd m (t2 + 8 * idx 1 va)) + 8 * idx 0 va))).
Qed.

(** ** The recursive slot *)

(** Windows: the virtual address at which the table of path [p] appears. *)
Definition win (p : list Z) : Z :=
  match p with
  | [] => addr_of 510 510 510 510 0
  | [a] => addr_of 510 510 510 a 0
  | [a; b] => addr_of 510 510 a b 0
  | a :: b :: c :: _ => addr_of 510 a b c 0
  end.

Lemma indices_windows va :
  fits 64 va ->
  let i := mm_virtual_indices va in
  pml4 i = win [] /\ pml3 i = win [idx 3 va] /\ pml2 i = win [idx 3 va; idx 2 va] /\
  pml1 i = win [idx 3 va; idx 2 va; idx 1 va].
Proof.
  intros Hf i. pose proof (indices_idx va Hf) as Hi.
  assert (E4 : pml4 i = PML4_OFFSET) by done.
  assert (E3 : pml3 i = u64 (PML3_OFFSET + (pml4i i ≪ PML1_SHIFT))) by done.
  assert (E2 : pml2 i = u64 (PML2_OFFSET + (pml4i i ≪ PML2_SHIFT) + (pml3i i ≪ PML1_SHIFT)))
    by done.
  assert (E1 : pml1 i = u64 (PML1_OFFSET + (pml4i i ≪ PML3_SHIFT) + (pml3i i ≪ PML2_SHIFT)
    + (pml2i i ≪ PML1_SHIFT))) by done.
  cbv zeta in Hi. fold i in Hi. clearbody i. unfold path_of in Hi.
  pose proof (idx_range 3 va) as I3. pose proof (idx_range 2 va) as I2.
  pose proof (idx_range 1 va) as I1. injection Hi as H4 H3 H2 H1.
  rewrite <-H4 in I3. rewrite <-H3 in I2. rewrite <-H2 in I1. rewrite <-H4, <-H3, <-H2, E4.
  rewrite E3, E2, E1.
  unfold PML1_OFFSET, PML2_OFFSET, PML3_OFFSET, PML1_SHIFT, PML2_SHIFT, PML3_SHIFT.
  rewrite !Z.shiftl_mul_pow2 by lia. cbn [win]. unfold addr_of.
  rewrite !decide_True by lia. repeat split; zlia.
Qed.

Lemma win_spec p :
  Forall index p -> (List.length p <= 3)%nat ->
  exists k, path_of (win p) = repeat 510 k ++ p /\ win p mod 4096 = 0 /\
    forall i, index i -> canonical (win p + 8 * i) = true /\
      path_of (win p + 8 * i) = repeat 510 k ++ p /\ (win p + 8 * i) mod 2 ^ 12 = 8 * i.
Proof.
  intros Hp Hlen.
  assert (Hgen : forall a b c d, index a -> index b -> index c -> index d ->
    path_of (addr_of a b c d 0) = [a; b; c; d] /\ addr_of a b c d 0 mod 4096 = 0 /\
    forall i, index i -> canonical (addr_of a b c d 0 + 8 * i) = true /\
      path_of (addr_of a b c d 0 + 8 * i) = [a; b; c; d] /\
      (addr_of a b c d 0 + 8 * i) mod 2 ^ 12 = 8 * i).
  { unfold index. intros a b c d ? ? ? ?.
    destruct (addr_of_path a b c d 0) as [Hq1 Hq2]; [lia..|].
    split; [done|]. split; [done|].
    intros i Hi. replace (addr_of a b c d 0 + 8 * i) with (addr_of a b c d (8 * i))
      by (unfold addr_of; lia).
    destruct (addr_of_path a b c d (8 * i)) as [Hq3 Hq4]; [lia..|].
    rewrite addr_of_canonical by lia. done. }
  assert (index 510) by (unfold index; lia).
  destruct p as [|a [|b [|c [|? ?]]]]; cbn in Hlen; [..|lia].
  all: repeat match goal with H : Forall _ (_ :: _) |- _ => inversion H; subst; clear H end.
  - exists 4%nat. by apply Hgen.
  - exists 3%nat. by apply Hgen.
  - exists 2%nat. by apply Hgen.
  - exists 1%nat. by apply Hgen.
Qed.

(** The recursive slot maps the PML4 onto itself. *)
Definition self_mapped (m : gmap Z Z) (c : Z) : Prop :=
  step m c 510 = Some c /\ large (rd m (c + 8 * 510)) = false.

Lemma table_self m c k p : self_mapped m c -> table m c (repeat 510 k ++ p) = table m c p.
Proof. intros [Hs _]. induction k as [|k IH]; [done|]. cbn. by rewrite Hs. Qed.

Lemma small_path_self m c k p :
  self_mapped m c -> small_path m c p -> small_path m c (repeat 510 k ++ p).
Proof.
  intros Hself Hp. induction k as [|k IH]; [done|].
  intros [|x pre] j t Hpre Hlen Ht Hpr.
  - cbn in Hpre. apply prefix_cons_inv_1 in Hpre as ->. injection Ht as <-. by destruct Hself.
  - cbn in Hpre. pose proof (prefix_cons_inv_1 _ _ _ _ Hpre) as ->.
    apply prefix_cons_inv_2 in Hpre. cbn in Ht, Hlen. destruct Hself as [Hs Hl].
    rewrite Hs in Ht. eapply (IH pre); [done|cbn in *; lia|done|done].
Qed.

(** An access through the window of table [p] reaches that table. *)
Lemma walk_win m c p t i :
  self_mapped m c -> small_path m c p -> Forall index p -> (List.length p <= 3)%nat ->
  table m c p = Some t -> index i ->
  walk m c (win p + 8 * i) = Some (t + 8 * i).
Proof.
  intros Hself Hsm Hp Hlp Ht Hi.
  destruct (win_spec p Hp Hlp) as (k & _ & _ & Hw). destruct (Hw i Hi) as (Hc & Hpath & Hoff).
  rewrite walk_table, Hpath, table_self, Ht, Hoff; [done..| |done].
  rewrite Hpath. by apply small_path_self.
Qed.

(** ** Updating one entry *)

(** No two paths outside the recursive slot lead to the same table. *)
Definition tables_distinct (m : gmap Z Z) (c : Z) : Prop := forall p q t,
  tpath p -> tpath q -> (List.length p <= 3)%nat -> (List.length q <= 3)%nat ->
  table m c p = Some t -> table m c q = Some t -> p = q.

(** [t] is a table outside the recursive slot. *)
Definition is_table (m : gmap Z Z) (c t : Z) : Prop :=
  exists p, tpath p /\ (List.length p <= 3)%nat /\ table m c p = Some t.

Lemma tpath_app p i : tpath (p ++ [i]) -> tpath p /\ index i.
Proof.
  intros [Hf Hh]. apply Forall_app in Hf as [Hf Hi]. inversion Hi; subst.
  split; [split; [done|]|done]. by destruct p.
Qed.

Lemma table_ext_path m m' c q :
  (forall q1 j t, q1 ++ [j] `prefix_of` q -> table m c q1 = Some t ->
     rd m' (t + 8 * j) = rd m (t + 8 * j)) ->
  table m' c q = table m c q.
Proof.
  induction q as [|j q IH] using rev_ind; intros Hext; [done|].
  rewrite !table_snoc, IH.
  - destruct (table m c q) as [t|] eqn:Ht; [|done]. unfold step. by rewrite (Hext q j t) by done.
  - intros q1 k t Hpre. apply Hext. by apply prefix_app_r.
Qed.

Lemma tpath_snoc p i : tpath p -> index i -> (p = [] -> i <> 510) -> tpath (p ++ [i]).
Proof.
  intros [Hf Hh] Hi Hn. split; [apply Forall_app; split; [done|by constructor]|].
  destruct p; [cbn; intros [= ->]; by apply Hn|done].
Qed.

(** The part of a loop body that has run: words [0..n) cleared. *)
Definition cleared (m : gmap Z Z) (a : Z) (n : Z) (m' : gmap Z Z) : Prop :=
  (forall i, 0 <= i < n -> rd m' (a + 8 * i) = 0) /\
  (forall b, (forall i, 0 <= i < n -> b <> a + 8 * i) -> rd m' b = rd m b).

Lemma cleared_step m a n m' :
  0 <= n -> cleared m a n m' -> cleared m a (n + 1) (<[a + 8 * n := 0]> m').
Proof.
  intros Hn [H1 H2]. split.
  - intros i Hi. destruct (decide (i = n)) as [->|]; [apply rd_insert_eq|].
    rewrite rd_insert_ne by lia. apply H1. lia.
  - intros b Hb. rewrite rd_insert_ne by (intros <-; eapply (Hb n); lia).
    apply H2. intros i Hi. apply Hb. lia.
Qed.


(** ** The invariant of the memory manager's page tables *)
Section invariant.
Context {P : Type} `{!PageSource P}.

Record pt_ok (s : pst P) : Prop := {
  ok_cr3 : is_page (cr3 s);
  ok_self : self_mapped (ram s) (cr3 s);
  ok_large : forall p i t, tpath p -> index i -> (List.length p <= 2)%nat ->
    table (ram s) (cr3 s) p = Some t ->
    present (rd (ram s) (t + 8 * i)) = true -> large (rd (ram s) (t + 8 * i)) = false;
  ok_distinct : tables_distinct (ram s) (cr3 s);
  ok_pages : page_wf (pages s);
  ok_avail : Forall is_page (avail (pages s));
  ok_nodup : NoDup (avail (pages s));
  ok_fresh : forall a, a ∈ avail (pages s) -> ~ is_table (ram s) (cr3 s) a }.

Lemma ok_small s p :
  pt_ok s -> tpath p -> (List.length p <= 4)%nat -> small_path (ram s) (cr3 s) p.
Proof.
  intros Hok Hp Hlp pre j t [rest Hpre] Hlt Ht Hpr.
  assert (Hpj : tpath (pre ++ [j])).
  { subst p. destruct Hp as [Hf Hh]. apply Forall_app in Hf as [Hf _]. split; [done|].
    by destruct pre. }
  apply tpath_app in Hpj as [Htp Hj]. eapply (ok_large s Hok pre); eauto. lia.
Qed.

Lemma vread_win s p t i :
  pt_ok s -> tpath p -> (List.length p <= 3)%nat ->
  table (ram s) (cr3 s) p = Some t -> index i ->
  vread (win p + 8 * i) s = Ok (rd (ram s) (t + 8 * i), s).
Proof.
  intros Hok Hp Hlp Ht Hi. unfold vread.
  rewrite (walk_win _ _ p t i); [done|by apply ok_self|apply ok_small; [done..|lia]| |done..].
  apply Hp.
Qed.

(** Linking a cleared page [a] at entry [i] of table [p]: which words changed. *)
Record linked (m : gmap Z Z) (t i v a : Z) (m' : gmap Z Z) : Prop := {
  linked_entry : rd m' (t + 8 * i) = v;
  linked_other b : b <> t + 8 * i -> (forall k, index k -> b <> a + 8 * k) ->
    rd m' b = rd m b }.

Definition zeroed (m' : gmap Z Z) (a : Z) : Prop :=
  forall k, index k -> rd m' (a + 8 * k) = 0.

Section link.
Context (m m' : gmap Z Z) (c t i v a : Z) (p : list Z).
Hypothesis (Hc : is_page c) (Hd : tables_distinct m c) (Hp : tpath p)
  (Hlp : (List.length p <= 2)%nat) (Ht : table m c p = Some t) (Hi : tpath (p ++ [i]))
  (Hnp : present (rd m (t + 8 * i)) = false) (Ha : is_page a) (Hfr : ~ is_table m c a)
  (Hv : entry_page v = Some a) (Hl : linked m t i v a m').

Lemma link_rd q j t' :
  tpath (q ++ [j]) -> (List.length q <= 3)%nat -> table m c q = Some t' ->
  q ++ [j] <> p ++ [i] -> rd m' (t' + 8 * j) = rd m (t' + 8 * j).
Proof.
  intros Hq Hlq Ht' Hne. apply tpath_app in Hq as [Hq Hj].
  pose proof (tpath_app _ _ Hi) as [_ Hii].
  apply (linked_other _ _ _ _ _ _ Hl).
  - intros Heq. apply entry_addr_inj in Heq as [-> ->]; [|by eauto using table_page..|done|done].
    apply Hne. f_equal. by apply (Hd q p t); [..|lia| |].
  - intros k Hk Heq. apply entry_addr_inj in Heq as [-> _];
      [|by eauto using table_page..|done|done].
    apply Hfr. by exists q.
Qed.

(** The recursive slot is no entry of the path being linked. *)
Lemma link_self : rd m' (c + 8 * 510) = rd m (c + 8 * 510).
Proof.
  apply (linked_other _ _ _ _ _ _ Hl).
  - intros Heq. apply entry_addr_inj in Heq as [Hct Hi510];
      [|done|by eauto using table_page|unfold index; lia|by eapply tpath_app].
    rewrite (Hd p [] c) in Hi; [|done|by repeat constructor|lia|cbn; lia|congruence|done].
    destruct Hi as [_ Hi]. cbn in Hi. congruence.
  - intros k Hk Heq. apply entry_addr_inj in Heq as [Hca _];
      [|done|done|unfold index; lia|done].
    apply Hfr. exists []. repeat split; [constructor|done|cbn; lia|cbn; congruence].
Qed.

Lemma link_before q : table m c ((p ++ [i]) ++ q) = None.
Proof.
  rewrite table_app, table_snoc, Ht. unfold step, entry_page. by rewrite Hnp.
Qed.

Lemma link_prefix pre j r : p = pre ++ j :: r -> tpath (pre ++ [j]) /\
  (List.length pre <= 3)%nat /\ pre ++ [j] <> p ++ [i].
Proof.
  intros Hr. split; [|split].
  - rewrite Hr in Hp. destruct Hp as [Hf Hh]. apply Forall_app in Hf as [Hf Hj].
    split; [|by destruct pre]. apply Forall_app. split; [done|]. inversion Hj; subst.
    by constructor.
  - rewrite Hr, length_app in Hlp. cbn in Hlp. lia.
  - intros Heq. apply (f_equal List.length) in Heq. rewrite Hr, !length_app in Heq.
    cbn in Heq. lia.
Qed.

Lemma link_table_prefix pre r : p = pre ++ r -> table m' c pre = table m c pre.
Proof.
  intros Hpr. apply table_ext_path. intros q j t1 [x Hx] Ht1.
  destruct (link_prefix q j (x ++ r)) as (? & ? & ?); [|by apply (link_rd q j t1)].
  by rewrite Hpr, Hx, <-!app_assoc.
Qed.

Lemma link_new : table m' c (p ++ [i]) = Some a.
Proof.
  rewrite table_snoc, (link_table_prefix p []), Ht by (by rewrite app_nil_r).
  unfold step. by rewrite (linked_entry _ _ _ _ _ _ Hl).
Qed.

(** The window of the new table already works, whatever the page still holds. *)
Lemma link_walk k :
  self_mapped m c -> small_path m c (p ++ [i]) -> index k ->
  walk m' c (win (p ++ [i]) + 8 * k) = Some (a + 8 * k).
Proof.
  intros [Hs1 Hs2] Hsm Hk. apply walk_win; [| |apply Hi| |apply link_new|done].
  - unfold self_mapped, step. by rewrite link_self.
  - intros pre j t1 [r Hr] Hlen Ht1 Hpr. pose proof Hlen as Hlen'.
    rewrite length_app in Hlen. cbn in Hlen.
    destruct r as [|x r _] using rev_ind.
    { rewrite app_nil_r in Hr. apply (f_equal List.length) in Hr.
      rewrite !length_app in Hr. cbn in Hr. lia. }
    rewrite app_assoc in Hr. pose proof Hr as Hr'.
    apply app_inj_tail in Hr as [Hr _]. rewrite <-app_assoc in Hr. cbn in Hr.
    rewrite (link_table_prefix pre (j :: r)) in Ht1 by done.
    destruct (link_prefix pre j r Hr) as (? & ? & ?).
    rewrite (link_rd pre j t1) in Hpr |- * by done.
    eapply Hsm; [|exact Hlen'|done|done]. rewrite Hr', <-app_assoc. by eexists.
  - rewrite length_app. cbn. lia.
Qed.

Lemma link_other q :
  zeroed m' a -> tpath q -> (List.length q <= 4)%nat -> q <> p ++ [i] -> table m' c q = table m c q.
Proof.
  intros Hz Hq Hlq Hne.
  destruct (decide (p ++ [i] `prefix_of` q)) as [[r ->]|Hpre].
  - rewrite link_before, table_app, link_new. destruct r as [|k r].
    { by rewrite app_nil_r in Hne. }
    destruct Hq as [Hf _]. apply Forall_app in Hf as [_ Hf]. inversion Hf; subst.
    cbn. unfold step, entry_page. by rewrite Hz.
  - apply table_ext_path. intros q1 j t1 Hq1 Ht1. pose proof Hq1 as [r Hr].
    apply (link_rd q1 j t1); [..|done|].
    + subst q. destruct Hq as [Hf Hh]. apply Forall_app in Hf as [Hf _].
      split; [done|]. by destruct q1.
    + apply (f_equal List.length) in Hr. rewrite !length_app in Hr. cbn in Hr. lia.
    + intros Heq. apply Hpre. by rewrite <-Heq.
Qed.
End link.

Lemma large_false_of v : fits 12 v -> Z.testbit v 7 = false -> forall a, is_page a ->
  large (a + v) = false.
Proof.
  intros Hv H7 a [_ Ha]. unfold large. rewrite <-H7.
  replace a with (a / 2 ^ 12 * 2 ^ 12) by zlia.
  rewrite <-(lor_add 12) by (done || lia).
  rewrite Z.lor_spec, <-Z.shiftl_mul_pow2, Z.shiftl_spec_low by lia. done.
Qed.

Lemma entry_page_add a fl : is_page a -> fits 12 fl ->
  entry_page (a + fl) = if Z.testbit fl 0 then Some a else None.
Proof.
  intros Ha Hfl. unfold entry_page, present.
  rewrite base_of_page by done. destruct Ha as [_ Ha].
  replace a with (a / 2 ^ 12 * 2 ^ 12) at 1 by zlia.
  rewrite <-(lor_add 12) by (done || lia).
  by rewrite Z.lor_spec, <-Z.shiftl_mul_pow2, Z.shiftl_spec_low by lia.
Qed.

Lemma or_flags a : is_page a -> a .| PAGE_PRESENT .| PAGE_WRITE = a + 3.
Proof.
  intros [_ Ha]. unfold PAGE_PRESENT, PAGE_WRITE. rewrite <-Z.lor_assoc.
  change (1 .| 2) with 3. apply (lor_add' 12); [lia|done|unfold fits; lia].
Qed.

(** The state after a fresh page has been taken, linked and cleared is well formed. *)
Lemma link_ok (s : pst P) p t i v a m' pg :
  pt_ok s -> tpath p -> (List.length p <= 2)%nat ->
  table (ram s) (cr3 s) p = Some t -> tpath (p ++ [i]) ->
  present (rd (ram s) (t + 8 * i)) = false -> avail (pages s) = a :: avail pg ->
  page_wf pg -> entry_page v = Some a -> large v = false ->
  linked (ram s) t i v a m' -> zeroed m' a ->
  pt_ok (mkP m' (cr3 s) pg).
Proof.
  intros Hok Hp Hlp Ht Hi Hnp Hav Hwf Hv Hlv Hl Hz.
  pose proof (ok_cr3 s Hok) as Hc. pose proof (ok_distinct s Hok) as Hd.
  pose proof (ok_avail s Hok) as Hap. pose proof (ok_nodup s Hok) as Hnd.
  pose proof (ok_fresh s Hok) as Hfr. rewrite Hav in Hap, Hnd, Hfr.
  assert (Ha : is_page a) by (by inversion Hap).
  assert (Hfa : ~ is_table (ram s) (cr3 s) a) by (apply Hfr; by left).
  pose proof (link_other _ _ _ _ _ _ _ _ Hc Hd Hp Hlp Ht Hi Hnp Ha Hfa Hv Hl) as Hoth.
  specialize (fun q => Hoth q Hz).
  pose proof (link_new _ _ _ _ _ _ _ _ Hc Hd Hp Hlp Ht Hi Ha Hfa Hv Hl) as Hnew.
  pose proof (link_rd _ _ _ _ _ _ _ _ Hc Hd Hp Hlp Ht Hi Ha Hfa Hl) as Hrd.
  pose proof (link_self _ _ _ _ _ _ _ _ Hc Hd Hp Hlp Ht Hi Ha Hfa Hv Hl) as Hself.
  (* which path leads to a table of the new state *)
  assert (Hcase : forall q t', tpath q -> (List.length q <= 4)%nat ->
    table m' (cr3 s) q = Some t' ->
    (q = p ++ [i] /\ t' = a) \/ (q <> p ++ [i] /\ table (ram s) (cr3 s) q = Some t')).
  { intros q t' Hq Hlq Ht'. destruct (decide (q = p ++ [i])) as [->|Hne].
    - left. split; [done|]. congruence.
    - right. split; [done|]. by rewrite <-Hoth. }
  constructor; cbn [ram cr3 pages].
  - done.
  - unfold self_mapped, step. rewrite Hself. apply (ok_self s Hok).
  - intros q j t' Hq Hj Hlq Ht'. destruct (Hcase q t') as [[-> ->]|[Hne Hold]]; [done|lia|done|..].
    { by rewrite Hz. }
    destruct (decide (q ++ [j] = p ++ [i])) as [Heq|Hne2].
    { apply app_inj_tail in Heq as [-> ->]. rewrite Ht in Hold. injection Hold as <-.
      by rewrite (linked_entry _ _ _ _ _ _ Hl). }
    assert (rd m' (t' + 8 * j) = rd (ram s) (t' + 8 * j)) as ->; [|by eapply (ok_large s Hok)].
    destruct (decide (j = 510 /\ q = [])) as [[-> ->]|Hj510].
    + by injection Hold as <-.
    + apply (Hrd q j t'); [|lia|done|done].
      destruct Hq as [Hf Hh]. split; [by apply Forall_app; split; [|constructor]|].
      destruct q; [cbn; naive_solver|done].
  - intros q1 q2 t' Hq1 Hq2 Hl1 Hl2 H1 H2.
    destruct (Hcase q1 t') as [[-> E1]|[Hn1 O1]]; [done|lia|done|..];
      destruct (Hcase q2 t') as [[-> E2]|[Hn2 O2]]; try done; try lia.
    + exfalso. apply Hfa. exists q2. by rewrite <-E1.
    + exfalso. apply Hfa. exists q1. by rewrite <-E2.
    + by eapply Hd.
  - done.
  - by inversion Hap.
  - by inversion Hnd.
  - intros b Hb (q & Hq & Hlq & Hqt).
    destruct (Hcase q b) as [[_ ->]|[_ O]]; [done|lia|done|..].
    + by inversion Hnd.
    + eapply Hfr; [by right|]. by exists q.
Qed.

Lemma present_flag e : (e .& PAGE_PRESENT = 0) <-> present e = false.
Proof.
  unfold PAGE_PRESENT, present. change 0x01 with (Z.ones 1). rewrite land_low by lia.
  rewrite <-Z.bit0_mod. destruct (Z.testbit e 0); cbn; split; (done || lia).
Qed.

Lemma cleared_linked m c t i v a n mk p :
  is_page c -> tpath p -> (length p <= 3)%nat -> table m c p = Some t -> index i ->
  is_page a -> ~ is_table m c a -> n <= 512 ->
  cleared (<[t + 8 * i := v]> m) a n mk -> linked m t i v a mk.
Proof.
  intros Hc Hp Hlp Ht Hi Ha Hfa Hn [_ Hcl]. split.
  - rewrite Hcl; [apply rd_insert_eq|]. intros k Hk Heq.
    apply entry_addr_inj in Heq as [-> _]; [|by eauto using table_page|done|done|].
    + apply Hfa. by exists p.
    + unfold index. lia.
  - intros b Hb Hba. rewrite Hcl by (intros k Hk; apply Hba; unfold index; lia).
    by apply rd_insert_ne.
Qed.

(** What one level of [mm_virtual_map] guarantees: the table exists afterwards, every
    other path is as before, and at most one page has been taken. *)
Definition keeps (s s' : pst P) (q : list Z) : Prop :=
  cr3 s' = cr3 s /\
  (length (avail (pages s)) <= length (avail (pages s')) + 1)%nat /\
  (forall q', tpath q' -> (length q' <= 4)%nat -> q' <> q ->
     table (ram s') (cr3 s) q' = table (ram s) (cr3 s) q').

Lemma ensure_table_spec (s : pst P) p i t :
  pt_ok s -> tpath (p ++ [i]) -> (length p <= 2)%nat ->
  table (ram s) (cr3 s) p = Some t -> avail (pages s) <> [] ->
  exists s', ensure_table (win p) i (win (p ++ [i])) s = Ok (tt, s') /\
    pt_ok s' /\ keeps s s' (p ++ [i]) /\
    is_Some (table (ram s') (cr3 s') (p ++ [i])).
Proof.
  intros Hok Hpi Hlp Ht Hav. destruct (tpath_app _ _ Hpi) as [Hp Hi].
  unfold ensure_table. erewrite bind_ok by (apply vread_win; [done|done|lia|done|done]).
  destruct (present (rd (ram s) (t + 8 * i))) eqn:Hpres.
  - rewrite decide_False by (rewrite present_flag; congruence).
    exists s. split; [done|]. split; [done|]. split.
    + split; [done|]. split; [lia|done].
    + rewrite table_snoc, Ht. unfold step, entry_page. rewrite Hpres. eauto.
  - rewrite decide_True by (by apply present_flag).
    pose proof (page_get_spec (pages s) (ok_pages s Hok)) as Hget.
    destruct (avail (pages s)) as [|a r] eqn:Hal; [done|].
    destruct Hget as (pg & Hget & Hr & Hwf).
    pose proof (ok_avail s Hok) as Hap. rewrite Hal in Hap.
    assert (Ha : is_page a) by (by inversion Hap).
    assert (Hfa : ~ is_table (ram s) (cr3 s) a)
      by (apply (ok_fresh s Hok); rewrite Hal; by left).
    erewrite bind_ok by (unfold mm_physical_get; by rewrite Hget).
    rewrite or_flags by done.
    erewrite bind_ok.
    2: { unfold vwrite. cbn [ram cr3 pages].
      rewrite (walk_win _ _ p t i);
        [reflexivity|by apply ok_self|apply ok_small; [done..|lia]|by apply Hp|lia|done..]. }
    cbn [ram cr3 pages].
    assert (Hv : entry_page (a + 3) = Some a) by
      (rewrite entry_page_add by (done || (unfold fits; lia)); done).
    destruct (for_n_inv (fun k st => exists mk, st = mkP mk (cr3 s) pg /\
        cleared (<[t + 8 * i := a + 3]> (ram s)) a k mk) 512 0
        (fun k => vwrite (win (p ++ [i]) + 8 * k) 0)
        (mkP (<[t + 8 * i := a + 3]> (ram s)) (cr3 s) pg)) as (s' & Hs' & mk & -> & Hcl).
    { eexists. split; [done|]. split; [lia|done]. }
    { intros k st Hk (mk & -> & Hcl). eexists. split.
      - unfold vwrite. cbn [ram cr3 pages].
        rewrite (link_walk (ram s) mk (cr3 s) t i (a + 3) a p);
          [reflexivity|..]; try done; try by destruct Hok.
        + apply (cleared_linked _ (cr3 s) t i _ a k _ p); try done; [by destruct Hok|lia|lia].
        + apply ok_small; [done..|]. rewrite length_app. cbn. lia.
      - eexists. split; [done|]. apply cleared_step; [lia|done]. }
    assert (Hl : linked (ram s) t i (a + 3) a mk) by
      (apply (cleared_linked _ (cr3 s) t i _ a 512 _ p); try done; [by destruct Hok|lia]).
    assert (Hz : zeroed mk a) by (intros k Hk; apply Hcl; unfold index in Hk; lia).
    exists (mkP mk (cr3 s) pg). split; [exact Hs'|]. split; [|split].
    + eapply link_ok; [done|exact Hp|done|done|exact Hpi|done|by rewrite Hal, Hr|done|done| |
        exact Hl|exact Hz].
      rewrite large_false_of; [done|unfold fits; lia|done|done].
    + split; [done|]. cbn [ram cr3 pages]. split; [rewrite Hal, Hr; cbn; lia|].
      intros q Hq Hlq Hne.
      eapply (link_other (ram s) mk (cr3 s) t i (a + 3) a p); try done; by destruct Hok.
    + cbn [ram cr3 pages]. exists a.
      apply (link_new (ram s) mk (cr3 s) t i (a + 3) a p); try done; by destruct Hok.
Qed.

(** *** Writing leaf entries *)
Lemma leaf_write (s : pst P) p t i v :
  pt_ok s -> tpath (p ++ [i]) -> length p = 3%nat -> table (ram s) (cr3 s) p = Some t ->
  let s' := mkP (<[t + 8 * i := v]> (ram s)) (cr3 s) (pages s) in
  vwrite (win p + 8 * i) v s = Ok (tt, s') /\ pt_ok s' /\
  table (ram s') (cr3 s) (p ++ [i]) = entry_page v /\
  (forall q, tpath q -> (length q <= 4)%nat -> q <> p ++ [i] ->
     table (ram s') (cr3 s) q = table (ram s) (cr3 s) q).
Proof.
  intros Hok Hpi Hlp Ht. set (m' := <[t + 8 * i:=v]> (ram s)). cbn [ram cr3 pages].
  destruct (tpath_app _ _ Hpi) as [Hp Hi].
  pose proof (ok_cr3 s Hok) as Hc. pose proof (ok_distinct s Hok) as Hd.
  assert (Hrd : forall q j t1, tpath q -> index j -> (length q <= 3)%nat ->
    table (ram s) (cr3 s) q = Some t1 -> q ++ [j] <> p ++ [i] ->
    rd m' (t1 + 8 * j) = rd (ram s) (t1 + 8 * j)).
  { intros q j t1 Hq Hj Hlq Ht1 Hne. apply rd_insert_ne. intros Heq.
    apply entry_addr_inj in Heq as [<- <-]; [|by eauto using table_page..|done|done].
    apply Hne. f_equal. by apply (Hd q p t); [..|lia| |]. }
  assert (Hoth : forall q, tpath q -> (length q <= 4)%nat -> q <> p ++ [i] ->
     table m' (cr3 s) q = table (ram s) (cr3 s) q).
  { intros q Hq Hlq Hne. apply table_ext_path. intros q1 j t1 [r Hr] Ht1.
    rewrite Hr in Hq, Hlq. rewrite !length_app in Hlq. cbn in Hlq.
    assert (Hqj : tpath (q1 ++ [j])).
    { destruct Hq as [Hf Hh]. apply Forall_app in Hf as [Hf _]. split; [done|]. by destruct q1. }
    apply tpath_app in Hqj as [Hq1 Hj]. apply (Hrd q1); [done..|lia|done|].
    intros Heq. pose proof (f_equal length Heq) as Hle. rewrite !length_app in Hle.
    cbn in Hle. destruct r; [|cbn in Hlq; lia]. apply Hne. by rewrite Hr, app_nil_r. }
  assert (Hshort : forall q, tpath q -> (length q <= 3)%nat ->
     table m' (cr3 s) q = table (ram s) (cr3 s) q).
  { intros q Hq Hlq. apply Hoth; [done|lia|]. intros ->. rewrite length_app in Hlq.
    cbn in Hlq. lia. }
  split; [|split; [|split]].
  - unfold vwrite. rewrite (walk_win _ _ p t i); [reflexivity|by apply ok_self| | |lia|done..].
    + apply ok_small; [done..|lia].
    + apply Hp.
  - constructor; cbn [ram cr3 pages]; try by destruct Hok.
    + destruct (ok_self s Hok) as [H1 H2]. unfold self_mapped, step.
      assert (rd m' (cr3 s + 8 * 510) = rd (ram s) (cr3 s + 8 * 510)) as ->; [|done].
      apply (Hrd [] 510); [by repeat constructor|unfold index; lia|cbn; lia|done|].
      intros Heq. apply (f_equal length) in Heq. rewrite !length_app in Heq. cbn in Heq. lia.
    + intros q j t1 Hq Hj Hlq Ht1. rewrite Hshort in Ht1 by (done || lia).
      rewrite (Hrd q); [by apply (ok_large s Hok q)|done..|lia|done|].
      intros Heq. apply (f_equal length) in Heq. rewrite !length_app in Heq. cbn in Heq. lia.
    + intros q1 q2 t1 Hq1 Hq2 Hl1 Hl2 H1 H2. rewrite Hshort in H1, H2 by done. by eapply Hd.
    + intros a Ha (q & Hq & Hlq & Hqt). rewrite Hshort in Hqt by done.
      eapply (ok_fresh s Hok); [done|]. by exists q.
  - rewrite table_snoc, (Hshort p), Ht by (done || lia).
    unfold step. f_equal. apply rd_insert_eq.
  - done.
Qed.

(** Entry number [k] of a mapping. *)
Definition map_entry (phys flags k : Z) : Z := u64 (phys + (k ≪ PAGE_SHIFT)) .| flags.

Lemma map_loop_spec fuel (s : pst P) p t phys pgs flags c mapped :
  pt_ok s -> tpath p -> length p = 3%nat -> table (ram s) (cr3 s) p = Some t ->
  0 <= c <= 512 -> 0 <= mapped <= pgs -> 512 - c < Z.of_nat fuel ->
  exists n s', map_loop fuel (win p) phys pgs flags c mapped s = Ok (mapped + n, s') /\
    n = Z.min (512 - c) (pgs - mapped) /\ pt_ok s' /\ cr3 s' = cr3 s /\
    pages s' = pages s /\
    (forall k, 0 <= k < n -> table (ram s') (cr3 s) (p ++ [c + k]) =
       entry_page (map_entry phys flags (mapped + k))) /\
    (forall q, tpath q -> (length q <= 4)%nat -> (forall k, 0 <= k < n -> q <> p ++ [c + k]) ->
       table (ram s') (cr3 s) q = table (ram s) (cr3 s) q).
Proof.
  revert s c mapped. induction fuel as [|fuel IH]; intros s c mapped Hok Hp Hlp Ht Hc Hm Hf.
  { lia. }
  cbn [map_loop]. destruct (decide (c < 512 /\ mapped < pgs)) as [Hlt|Hge].
  2: { exists 0, s. rewrite Z.add_0_r. split; [done|]. split; [lia|].
    do 3 (split; [done|]). split; [lia|done]. }
  assert (Hpc : tpath (p ++ [c])).
  { apply tpath_snoc; [done|unfold index; lia|by intros ->]. }
  destruct (leaf_write s p t c (map_entry phys flags mapped) Hok Hpc Hlp Ht)
    as (Hw & Hok1 & Hnew & Hoth).
  set (s1 := mkP _ _ _) in *. erewrite bind_ok by exact Hw.
  assert (Hnp : p <> p ++ [c]).
  { intros Heq. apply (f_equal length) in Heq. rewrite length_app in Heq. cbn in Heq. lia. }
  destruct (IH s1 (c + 1) (mapped + 1)) as (n & s' & Hr & Hn & Hok' & Hcr & Hpg & Hin & Hout);
    [done|done|done| |lia..|].
  { cbn [cr3 s1]. rewrite Hoth; [done|done|lia|done]. }
  exists (n + 1), s'. replace (mapped + (n + 1)) with (mapped + 1 + n) by lia.
  split; [exact Hr|]. split; [lia|]. do 3 (split; [done|]). split.
  - intros k Hk. destruct (decide (k = 0)) as [->|Hk0].
    + rewrite Hout; [|by rewrite Z.add_0_r|rewrite length_app; cbn; lia|].
      * by rewrite !Z.add_0_r.
      * intros j Hj Heq. apply app_inj_tail in Heq as [_ Heq]. lia.
    + replace (c + k) with (c + 1 + (k - 1)) by lia.
      replace (mapped + k) with (mapped + 1 + (k - 1)) by lia. apply Hin. lia.
  - intros q Hq Hlq Hne. rewrite Hout; [apply Hoth|done|done|]; [done|done| |].
    + specialize (Hne 0). rewrite Z.add_0_r in Hne. apply Hne. lia.
    + intros k Hk. replace (c + 1 + k) with (c + (k + 1)) by lia. apply Hne. lia.
Qed.

(** *** Ranges of pages *)

(** [n] pages from [virt] stay in one canonical half and outside the recursive slot. *)
Definition range_ok (virt n : Z) : Prop :=
  virt mod 4096 = 0 /\
  ((0 <= virt /\ virt + 4096 * n <= 2 ^ 47) \/
   (HIGHER_HALF <= virt /\ virt + 4096 * n <= 2 ^ 64)) /\
  (forall k, 0 <= k < n -> idx 3 (virt + 4096 * k) <> 510).

Lemma range_fits virt n k : range_ok virt n -> 0 <= k < n ->
  fits 64 (virt + 4096 * k) /\ canonical (virt + 4096 * k) = true /\
  tpath (path_of (virt + 4096 * k)).
Proof.
  intros (Ha & Hr & Hi) Hk. unfold HIGHER_HALF in Hr. split; [unfold fits; lia|]. split.
  - unfold canonical, HIGHER_HALF. apply bool_decide_eq_true. lia.
  - split; [apply path_of_index|]. cbn. intros [= E]. by eapply Hi.
Qed.

Lemma range_tail virt n k : range_ok virt n -> 0 <= k -> range_ok (virt + 4096 * k) (n - k).
Proof.
  intros (Ha & Hr & Hi) Hk. split; [zlia|]. split; [lia|].
  intros j Hj. replace (virt + 4096 * k + 4096 * j) with (virt + 4096 * (k + j)) by lia.
  apply Hi. lia.
Qed.

(** Pages of one last-level table share the first three indices. *)
Lemma path_add virt k :
  virt mod 4096 = 0 -> 0 <= k -> idx 0 virt + k < 512 ->
  path_of (virt + 4096 * k) = [idx 3 virt; idx 2 virt; idx 1 virt] ++ [idx 0 virt + k].
Proof.
  unfold path_of. rewrite !idx_0, !idx_1, !idx_2, !idx_3. intros Ha Hk Hlt.
  cbn [app]. repeat (apply (f_equal2 cons); [zlia|]). done.
Qed.

Lemma path_inj a b :
  canonical a = true -> canonical b = true -> a mod 4096 = b mod 4096 ->
  path_of a = path_of b -> a = b.
Proof.
  intros Ha Hb Hab Hp. rewrite <-(addr_of_path_of a), <-(addr_of_path_of b) by done.
  unfold path_of in Hp. injection Hp as -> -> -> ->. by change (2 ^ 12) with 4096; rewrite Hab.
Qed.

Lemma range_path_inj virt n j k : range_ok virt n -> 0 <= j < n -> 0 <= k < n ->
  path_of (virt + 4096 * j) = path_of (virt + 4096 * k) -> j = k.
Proof.
  intros Hr Hj Hk Hp. destruct (range_fits _ _ _ Hr Hj) as (_ & Hcj & _).
  destruct (range_fits _ _ _ Hr Hk) as (_ & Hck & _).
  enough (virt + 4096 * j = virt + 4096 * k) by lia.
  apply path_inj; [done..| |done]. zlia.
Qed.

(** What mapping [n] pages at [virt] to [phys] does to the translation. *)
Definition maps (s s' : pst P) (phys virt n flags : Z) : Prop :=
  (forall k, 0 <= k < n -> table (ram s') (cr3 s) (path_of (virt + 4096 * k)) =
     entry_page (map_entry phys flags k)) /\
  (forall q, tpath q -> length q = 4%nat ->
     (forall k, 0 <= k < n -> q <> path_of (virt + 4096 * k)) ->
     table (ram s') (cr3 s) q = table (ram s) (cr3 s) q).

(** The three table levels of one address. *)
Lemma ensure_tables (s : pst P) virt :
  pt_ok s -> tpath (path_of virt) -> (3 <= length (avail (pages s)))%nat ->
  fits 64 virt -> let i := mm_virtual_indices virt in
  exists s1 s2 s' t, ensure_table (pml4 i) (pml4i i) (pml3 i) s = Ok (tt, s1) /\
    ensure_table (pml3 i) (pml3i i) (pml2 i) s1 = Ok (tt, s2) /\
    ensure_table (pml2 i) (pml2i i) (pml1 i) s2 = Ok (tt, s') /\
    pt_ok s' /\ cr3 s' = cr3 s /\
    (length (avail (pages s)) <= length (avail (pages s')) + 3)%nat /\
    table (ram s') (cr3 s) [idx 3 virt; idx 2 virt; idx 1 virt] = Some t /\
    (forall q, tpath q -> length q = 4%nat ->
       table (ram s') (cr3 s) q = table (ram s) (cr3 s) q).
Proof.
  intros Hok Htp Hav Hf i. pose proof (indices_idx virt Hf) as Hi. cbv zeta in Hi.
  destruct (indices_windows virt Hf) as (W4 & W3 & W2 & W1). cbv zeta in *.
  fold i in Hi, W4, W3, W2, W1. clearbody i. unfold path_of in *. injection Hi as I4 I3 I2 I1.
  rewrite W4, W3, W2, W1, I4, I3, I2.
  set (a := idx 3 virt) in *. set (b := idx 2 virt) in *. set (c := idx 1 virt) in *.
  assert (T3 : tpath [a; b; c]) by
    (apply (tpath_app [a; b; c] (idx 0 virt)); exact Htp).
  assert (T2 : tpath [a; b]) by (apply (tpath_app [a; b] c); exact T3).
  assert (T1 : tpath [a]) by (apply (tpath_app [a] b); exact T2).
  assert (Hnil : forall l : list Z, (1 <= length l)%nat -> l <> []) by (intros []; cbn; [lia|done]).
  destruct (ensure_table_spec s [] a (cr3 s)) as (s1 & R1 & Hok1 & (C1 & L1 & O1) & [t1 E1]);
    [done|done|cbn; lia|done|apply Hnil; lia|].
  destruct (ensure_table_spec s1 [a] b t1) as (s2 & R2 & Hok2 & (C2 & L2 & O2) & [t2 E2]);
    [done|done|cbn; lia|done|apply Hnil; lia|].
  destruct (ensure_table_spec s2 [a; b] c t2) as (s3 & R3 & Hok3 & (C3 & L3 & O3) & [t3 E3]);
    [done|done|cbn; lia|done|apply Hnil; lia|].
  exists s1, s2, s3, t3. do 3 (split; [done|]).
  split; [done|]. split; [congruence|]. split; [lia|]. split.
  - rewrite <-C1, <-C2, <-C3. exact E3.
  - intros q Hq Hlq.
    assert (Hne : forall r : list Z, (length r < 4)%nat -> q <> r) by (intros r Hr ->; lia).
    rewrite <-C1, <-C2, O3, C2, O2, C1, O1; try done; try lia; apply Hne; cbn; lia.
Qed.


Lemma map_entry_shift phys flags n k : 0 <= n -> 0 <= k ->
  map_entry (u64 (phys + (n ≪ PAGE_SHIFT))) flags k = map_entry phys flags (n + k).
Proof.
  intros. unfold map_entry, PAGE_SHIFT. rewrite !Z.shiftl_mul_pow2 by lia.
  autorewrite with wrapdb. do 2 f_equal. lia.
Qed.

Lemma maps_none (s s' : pst P) phys virt n flags : n <= 0 ->
  (forall q, tpath q -> length q = 4%nat ->
     table (ram s') (cr3 s) q = table (ram s) (cr3 s) q) -> maps s s' phys virt n flags.
Proof. intros Hn H. split; [lia|]. intros q Hq Hl _. by apply H. Qed.

(** Mapping [n1] pages of the current last-level table, then the rest. *)
Lemma maps_trans (s s1 s2 : pst P) phys virt n1 n flags :
  cr3 s1 = cr3 s -> range_ok virt n -> 0 <= n1 <= n ->
  maps s s1 phys virt n1 flags ->
  maps s1 s2 (u64 (phys + (n1 ≪ PAGE_SHIFT))) (virt + 4096 * n1) (n - n1) flags ->
  maps s s2 phys virt n flags.
Proof.
  intros Hc Hr Hn [I1 O1] [I2 O2]. rewrite Hc in I2, O2. split.
  - intros k Hk. destruct (decide (k < n1)).
    + rewrite O2; [apply I1; lia|by apply (range_fits _ n)|done|].
      intros j Hj Heq. replace (virt + 4096 * n1 + 4096 * j) with (virt + 4096 * (n1 + j)) in Heq
        by lia. apply (range_path_inj _ n) in Heq; [lia|done|lia|lia].
    + replace (virt + 4096 * k) with (virt + 4096 * n1 + 4096 * (k - n1)) by lia.
      rewrite I2, map_entry_shift by lia. do 2 f_equal. lia.
  - intros q Hq Hl Hne. rewrite O2; [apply O1|done|done|]; [done|done| |].
    + intros k Hk. apply Hne. lia.
    + intros k Hk. replace (virt + 4096 * n1 + 4096 * k) with (virt + 4096 * (n1 + k)) by lia.
      apply Hne. lia.
Qed.

Lemma mm_virtual_map_maps fuel (s : pst P) phys virt n flags :
  pt_ok s -> range_ok virt n -> 0 < n < Z.of_nat fuel ->
  3 * n <= Z.of_nat (length (avail (pages s))) ->
  exists s', mm_virtual_map fuel phys virt n flags s = Ok (tt, s') /\
    pt_ok s' /\ cr3 s' = cr3 s /\ maps s s' phys virt n flags /\
    Z.of_nat (length (avail (pages s))) <= Z.of_nat (length (avail (pages s'))) + 3 * n.
Proof.
  revert s phys virt n. induction fuel as [|fuel IH]; intros s phys virt n Hok Hr Hn Hav; [lia|].
  destruct (range_fits virt n 0 Hr) as (Hf & _ & Htp); [lia|].
  rewrite Z.mul_0_r, Z.add_0_r in Hf, Htp.
  destruct (ensure_tables s virt Hok Htp)
    as (s1 & s2 & s3 & t & R1 & R2 & R3 & Hok3 & C3 & L3 & E3 & O3); [lia|done|].
  cbn [mm_virtual_map]. erewrite bind_ok by exact R1. erewrite bind_ok by exact R2.
  erewrite bind_ok by exact R3.
  pose proof (idx_range 0 virt) as Hc.
  assert (Hp3 : tpath [idx 3 virt; idx 2 virt; idx 1 virt]) by
    (apply (tpath_app _ (idx 0 virt)); exact Htp).
  destruct (indices_windows virt Hf) as (_ & _ & _ & W1). pose proof (indices_idx virt Hf) as Hi.
  cbv zeta in W1, Hi. clear R1 R2 R3. set (i := mm_virtual_indices virt) in *. clearbody i.
  injection Hi as _ _ _ I1. rewrite W1, I1.
  rewrite <-C3 in E3.
  destruct (map_loop_spec 513 s3 _ t phys n flags (idx 0 virt) 0 Hok3 Hp3)
    as (n1 & s4 & Hl & Hn1 & Hok4 & C4 & P4 & In & Out); [done|done|lia..|].
  erewrite bind_ok by exact Hl. rewrite Z.add_0_l, Z.sub_0_r in *.
  assert (M : maps s s4 phys virt n1 flags).
  { destruct Hr as (Hal & _). split.
    - intros k Hk. rewrite path_add, <-C3 by (done || lia). by apply In.
    - intros q Hq Hq4 Hne. rewrite <-C3 at 1. rewrite Out, C3; [by apply O3|done|lia|].
      intros k Hk. rewrite <-path_add by (done || lia). by apply Hne. }
  case_decide as Hlt.
  - assert (Hv : u64 (virt + (n1 ≪ PAGE_SHIFT)) = virt + 4096 * n1).
    { unfold PAGE_SHIFT. rewrite Z.shiftl_mul_pow2 by lia. rewrite wrap_small; [lia|].
      replace (virt + n1 * 2 ^ 12) with (virt + 4096 * n1) by lia.
      apply (range_fits virt n n1 Hr). lia. }
    rewrite Hv.
    destruct (IH s4 (u64 (phys + (n1 ≪ PAGE_SHIFT))) (virt + 4096 * n1) (n - n1) Hok4)
      as (s5 & Hm & Hok5 & C5 & M5 & L5); [apply range_tail; [done|lia]|lia| |].
    { rewrite P4. lia. }
    exists s5. split; [exact Hm|]. split; [done|]. split; [congruence|]. rewrite P4 in L5.
    split; [|lia]. apply (maps_trans s s4 s5 phys virt n1); [congruence|done|lia|done|done].
  - exists s4. split; [done|]. split; [done|]. split; [congruence|].
    rewrite P4. replace n with n1 by lia. split; [done|lia].
Qed.

(** *** In terms of the hardware translation *)
Lemma walk_tpath (s : pst P) va :
  pt_ok s -> canonical va = true -> idx 3 va <> 510 ->
  walk (ram s) (cr3 s) va = (fun t => t + va mod 2 ^ 12) <$> table (ram s) (cr3 s) (path_of va).
Proof.
  intros Hok Hc Hi. apply walk_table; [|done].
  apply ok_small; [done| |cbn; lia]. split; [apply path_of_index|]. cbn. congruence.
Qed.

Lemma path_page va : path_of (va / 4096 * 4096) = path_of va.
Proof.
  unfold path_of. rewrite !idx_0, !idx_1, !idx_2, !idx_3.
  repeat (apply (f_equal2 cons); [zlia|]). done.
Qed.

Lemma map_entry_page phys flags k :
  phys mod 4096 = 0 -> 0 <= phys -> 0 <= k -> phys + 4096 * k < 2 ^ 52 ->
  present flags = true -> base flags = 0 ->
  entry_page (map_entry phys flags k) = Some (phys + 4096 * k).
Proof.
  intros Ha H0 Hk Hf Hp Hb. unfold entry_page, map_entry, PAGE_SHIFT, present in *.
  rewrite Z.lor_spec, Hp, orb_true_r. f_equal. unfold base in *.
  rewrite Z.land_lor_distr_l, Hb, Z.lor_0_r. fold (base (u64 (phys + (k ≪ 12)))).
  rewrite base_div, Z.shiftl_mul_pow2 by lia. zlia.
Qed.

Lemma maps_walk (s s' : pst P) phys virt n flags :
  pt_ok s -> pt_ok s' -> cr3 s' = cr3 s -> range_ok virt n ->
  phys mod 4096 = 0 -> 0 <= phys -> phys + 4096 * n <= 2 ^ 52 ->
  present flags = true -> base flags = 0 -> maps s s' phys virt n flags ->
  forall va, canonical va = true -> idx 3 va <> 510 ->
    walk (ram s') (cr3 s') va =
      if decide (virt <= va < virt + 4096 * n) then Some (phys + (va - virt))
      else walk (ram s) (cr3 s) va.
Proof.
  intros Hok Hok' Hc Hr Ha H0 Hf Hp Hb [In Out] va Hcan Hi.
  rewrite !walk_tpath, Hc by done. pose proof Hr as (Hal & Hhalf & _). case_decide as Hin.
  - set (k := (va - virt) / 4096).
    assert (Hk : 0 <= k < n) by (unfold k; zlia).
    assert (Hva : va / 4096 * 4096 = virt + 4096 * k) by (unfold k; zlia).
    rewrite <-path_page, Hva, In, map_entry_page by (done || lia). cbn. f_equal. zlia.
  - rewrite Out; [done| |done|].
    + split; [apply path_of_index|]. cbn. congruence.
    + intros k Hk Heq. apply Hin.
      enough (va / 4096 * 4096 = virt + 4096 * k) by zlia.
      destruct (range_fits _ _ _ Hr Hk) as (_ & Hck & _). apply path_inj; [|done|zlia|].
      * revert Hcan. unfold canonical, HIGHER_HALF. rewrite !bool_decide_eq_true. zlia.
      * by rewrite path_page.
Qed.

(** Taking a page. *)
Lemma mm_physical_get_ok (s : pst P) a r : pt_ok s -> avail (pages s) = a :: r ->
  exists p, mm_physical_get s = Ok (a, mkP (ram s) (cr3 s) p) /\
    pt_ok (mkP (ram s) (cr3 s) p) /\ avail p = r /\ is_page a.
Proof.
  intros Hok Hav. pose proof (page_get_spec (pages s) (ok_pages s Hok)) as Hg.
  rewrite Hav in Hg. destruct Hg as (p & Hg & Hr & Hw). exists p.
  unfold mm_physical_get. rewrite Hg. split; [done|].
  destruct Hok as [H1 H2 H3 H4 _ H6 H7 H8]. rewrite Hav in H6, H7, H8.
  split; [|split; [done|by inversion H6]]. split; cbn; try done; rewrite ?Hr.
  - by inversion H6.
  - by inversion H7.
  - intros b Hb. apply H8. by right.
Qed.

(** [mm_virtual_map(mm_physical_get(), virt, 1, flags)]: one page of fresh memory. *)
Lemma map_fresh_page (s : pst P) virt flags :
  pt_ok s -> range_ok virt 1 -> 4 <= Z.of_nat (length (avail (pages s))) ->
  present flags = true -> base flags = 0 ->
  exists s', (page ← mm_physical_get; mm_virtual_map 2 page virt 1 flags) s = Ok (tt, s') /\
    pt_ok s' /\
    Z.of_nat (length (avail (pages s))) <= Z.of_nat (length (avail (pages s'))) + 4 /\
    forall va, canonical va = true -> idx 3 va <> 510 ->
      (virt <= va < virt + 4096 -> is_Some (walk (ram s') (cr3 s') va)) /\
      (~ virt <= va < virt + 4096 ->
        walk (ram s') (cr3 s') va = walk (ram s) (cr3 s) va).
Proof.
  intros Hok Hr Hav Hp Hb. destruct (avail (pages s)) as [|a r] eqn:Ha; [cbn in Hav; lia|].
  destruct (mm_physical_get_ok s a r Hok Ha) as (p & Hg & Hok1 & Hr1 & Hpa).
  erewrite bind_ok by exact Hg. set (s1 := mkP _ _ p) in *. cbn [length] in Hav.
  destruct (mm_virtual_map_maps 2 s1 a virt 1 flags) as (s' & Hm & Hok' & Hc & Hmp & Hl);
    [done|done|lia|cbn [pages s1]; rewrite Hr1; lia|].
  exists s'. split; [done|]. split; [done|]. cbn [pages s1] in Hl. rewrite Hr1 in Hl.
  split; [cbn [length]; lia|]. intros va Hcan Hi. destruct Hpa as [[? ?] ?].
  rewrite (maps_walk s1 s' a virt 1 flags) by (done || lia || zlia). cbn [ram cr3 s1].
  split; intros Hin.
  - rewrite decide_True by lia. eauto.
  - by rewrite decide_False by lia.
Qed.

Lemma read_leaf_spec (s : pst P) virt :
  pt_ok s -> fits 64 virt -> idx 3 virt <> 510 ->
  exists e, read_leaf virt s = Ok (e, s) /\
    (if present e then Some (base e) else None) = table (ram s) (cr3 s) (path_of virt) /\
    (present e = false -> e = 0).
Proof.
  intros Hok Hf Hi. unfold read_leaf.
  destruct (indices_windows virt Hf) as (W4 & W3 & W2 & W1). pose proof (indices_idx virt Hf) as E.
  cbv zeta in *. set (i := mm_virtual_indices virt) in *. clearbody i.
  pose proof (path_of_index virt) as Hall. unfold path_of in *. injection E as I4 I3 I2 I1.
  rewrite W4, W3, W2, W1, I4, I3, I2, I1.
  set (a := idx 3 virt) in *. set (b := idx 2 virt) in *. set (c := idx 1 virt) in *.
  set (d := idx 0 virt) in *. clearbody a b c d. clear W4 W3 W2 W1 I4 I3 I2 I1 Hf i.
  assert (index a /\ index b /\ index c /\ index d) as (Ia & Ib & Ic & Id).
  { rewrite !Forall_cons in Hall. by destruct Hall as (?&?&?&?&?). }
  assert (T1 : tpath [a]) by (split; [auto using Forall_nil_2, Forall_cons_2|cbn; congruence]).
  assert (T2 : tpath [a; b]) by (split; [auto using Forall_nil_2, Forall_cons_2|cbn; congruence]).
  assert (T3 : tpath [a; b; c]) by (split; [auto using Forall_nil_2, Forall_cons_2|cbn; congruence]).
  pose proof (vread_win s [] (cr3 s) a Hok) as V4. cbn [table] in *. unfold step, entry_page.
  set (e4 := rd (ram s) (cr3 s + 8 * a)) in *.
  erewrite bind_ok by (apply V4; [by repeat constructor|cbn; lia|done..]).
  destruct (present e4) eqn:P4.
  2: { rewrite decide_True by (by apply present_flag). by exists 0. }
  rewrite decide_False by (rewrite present_flag; congruence).
  pose proof (vread_win s [a] (base e4) b Hok T1) as V3.
  erewrite bind_ok by (apply V3; [cbn; lia| |done]; cbn; unfold step, entry_page; fold e4;
    by rewrite P4).
  set (e3 := rd (ram s) (base e4 + 8 * b)) in *. destruct (present e3) eqn:P3.
  2: { rewrite decide_True by (by apply present_flag). by exists 0. }
  rewrite decide_False by (rewrite present_flag; congruence).
  pose proof (vread_win s [a; b] (base e3) c Hok T2) as V2.
  erewrite bind_ok by (apply V2; [cbn; lia| |done]; cbn; unfold step, entry_page; fold e4;
    rewrite P4; fold e3; by rewrite P3).
  set (e2 := rd (ram s) (base e3 + 8 * c)) in *. destruct (present e2) eqn:P2.
  2: { rewrite decide_True by (by apply present_flag). by exists 0. }
  rewrite decide_False by (rewrite present_flag; congruence).
  pose proof (vread_win s [a; b; c] (base e2) d Hok T3) as V1.
  erewrite bind_ok by (apply V1; [cbn; lia| |done]; cbn; unfold step, entry_page; fold e4;
    rewrite P4; fold e3; rewrite P3; fold e2; by rewrite P2).
  set (e1 := rd (ram s) (base e2 + 8 * d)) in *. destruct (present e1) eqn:P1.
  2: { rewrite decide_True by (by apply present_flag). by exists 0. }
  rewrite decide_False by (rewrite present_flag; congruence).
  exists e1. rewrite P1. done.
Qed.

(** A PML4 whose only entry is the recursive one. *)
Lemma pt_ok_init c p :
  is_page c -> page_wf p -> Forall is_page (avail p) -> NoDup (avail p) -> c ∉ avail p ->
  pt_ok (mkP {[ c + 8 * 510 := c + 3 ]} c p).
Proof.
  intros Hc Hw Ha Hnd Hin. set (m := {[ c + 8 * 510 := c + 3 ]} : gmap Z Z).
  assert (Hrd : forall q t i, tpath q -> index i -> tpath (q ++ [i]) -> table m c q = Some t ->
    rd m (t + 8 * i) = 0).
  { intros q t i Hq Hi Hqi Ht. unfold rd, m. rewrite lookup_singleton_ne; [done|].
    intros Heq. apply entry_addr_inj in Heq as [-> <-]; [|done|by eauto using table_page|
      unfold index; lia|done].
    destruct q as [|j q]; [by destruct Hqi as [_ Hh]|].
    destruct Hq as [Hf Hh]. cbn in Hh, Ht. unfold step, entry_page, rd, m in Ht.
    inversion Hf; subst. rewrite lookup_singleton_ne in Ht by (intros E; apply Hh; f_equal; lia).
    done. }
  assert (Hnone : forall q t, tpath q -> table m c q = Some t -> q = []).
  { intros q t Hq Ht. destruct q as [|i q]; [done|]. exfalso.
    cbn in Ht. unfold step in Ht. destruct Hq as [Hf Hh]. inversion Hf; subst.
    rewrite (Hrd [] c i) in Ht; [done|by repeat constructor|done| |done].
    split; [cbn; auto using Forall_nil_2, Forall_cons_2|done]. }
  constructor; cbn [ram cr3 pages].
  - done.
  - unfold self_mapped, step, m. rewrite rd_singleton. split.
    + rewrite entry_page_add by (done || (unfold fits; lia)). done.
    + apply large_false_of; [unfold fits; lia|done|done].
  - intros q i t Hq Hi Hl Ht Hp. pose proof (Hnone q t Hq Ht) as ->. injection Ht as <-.
    destruct (decide (i = 510)) as [->|Hne].
    + unfold m. rewrite rd_singleton. apply large_false_of; [unfold fits; lia|done|done].
    + rewrite (Hrd [] c i); [done|done|done| |done].
      split; [cbn; auto using Forall_nil_2, Forall_cons_2|cbn; congruence].
  - intros q1 q2 t H1 H2 _ _ E1 E2. by rewrite (Hnone q1 t), (Hnone q2 t).
  - done.
  - done.
  - done.
  - intros a Hal (q & Hq & _ & E). pose proof (Hnone q a Hq E) as ->. injection E as <-. done.
Qed.
End invariant.

(** The simplest page source: a list of free pages. *)
Definition list_get : cmd (list Z) Z := fun l =>
  match l with [] => Stop (Panicked "out of physical memory") | a :: r => Ok (a, r) end.

#[export] Instance list_source : PageSource (list Z).
Proof.
  refine {| page_get := list_get; avail l := l; page_wf _ := True |}.
  intros [|a r] _; cbn; eauto.
Defined.

(** ** Properties *)

(** C1: mapping. In a well-formed paging state, mapping [n] pages of physical memory at a
    page-aligned virtual range that lies in one canonical half and avoids the recursive
    slot terminates without faulting or running out of pages (three free pages per mapped
    page are always enough), keeps the tables well formed, and changes the hardware
    translation of exactly the bytes of that range, to the given physical range. *)
Theorem mm_virtual_map_translates {P} `{!PageSource P} fuel (s : pst P) phys virt n flags :
  pt_ok s -> range_ok virt n -> 0 < n < Z.of_nat fuel ->
  3 * n <= Z.of_nat (length (avail (pages s))) ->
  phys mod 4096 = 0 -> 0 <= phys -> phys + 4096 * n <= 2 ^ 52 ->
  present flags = true -> base flags = 0 ->
  exists s', mm_virtual_map fuel phys virt n flags s = Ok (tt, s') /\ pt_ok s' /\
    forall va, canonical va = true -> idx 3 va <> 510 ->
      walk (ram s') (cr3 s') va =
        if decide (virt <= va < virt + 4096 * n) then Some (phys + (va - virt))
        else walk (ram s) (cr3 s) va.
Proof.
  intros Hok Hr Hn Hav Ha H0 Hf Hp Hb.
  destruct (mm_virtual_map_maps fuel s phys virt n flags) as (s' & H & Hok' & Hc & Hm & _); [done..|].
  exists s'. split; [done|]. split; [done|]. by eapply maps_walk.
Qed.

Definition pst_example : pst (list Z) :=
  mkP {[ 0x1000 + 8 * 510 := 0x1000 + 3 ]} 0x1000
    [0x2000; 0x3000; 0x4000; 0x5000; 0x6000; 0x7000].

Lemma pst_example_ok : pt_ok pst_example.
Proof.
  apply pt_ok_init; try done.
  - apply (bool_decide_unpack _). vm_compute. done.
  - apply (bool_decide_unpack _). vm_compute. done.
  - apply (bool_decide_unpack _). vm_compute. done.
Qed.

Lemma range_example : range_ok 0x400000 2.
Proof.
  split; [done|]. split; [unfold HIGHER_HALF; lia|].
  intros k Hk. assert (k = 0 \/ k = 1) as [-> | ->] by lia; done.
Qed.

Lemma mm_virtual_map_translates_witness :
  exists s', mm_virtual_map 3 0x200000 0x400000 2 3 pst_example = Ok (tt, s') /\ pt_ok s' /\
    forall va, canonical va = true -> idx 3 va <> 510 ->
      walk (ram s') (cr3 s') va =
        if decide (0x400000 <= va < 0x400000 + 4096 * 2) then Some (0x200000 + (va - 0x400000))
        else walk (ram pst_example) (cr3 pst_example) va.
Proof.
  apply (mm_virtual_map_translates 3 pst_example 0x200000 0x400000 2 3);
    [apply pst_example_ok|apply range_example|lia|cbn; lia|done|lia|lia|done|done].
Defined.

(** [mm_virtual_get_phys] agrees with the hardware: it returns the page frame the MMU
    translates the address to, or 0 when the MMU faults, and changes nothing. *)
Theorem mm_virtual_get_phys_walk {P} `{!PageSource P} (s : pst P) virt :
  pt_ok s -> canonical virt = true -> idx 3 virt <> 510 ->
  mm_virtual_get_phys virt s =
    Ok (match walk (ram s) (cr3 s) virt with
        | Some pa => pa - virt mod 4096
        | None => 0 end, s).
Proof.
  intros Hok Hc Hi. rewrite walk_tpath by done.
  assert (Hf : fits 64 virt).
  { revert Hc. unfold canonical, HIGHER_HALF, fits. rewrite bool_decide_eq_true. lia. }
  destruct (read_leaf_spec s virt Hok Hf Hi) as (e & He & Ht & H0).
  unfold mm_virtual_get_phys. erewrite bind_ok by exact He. unfold mret, cmd_ret. do 2 f_equal.
  fold (base e). rewrite <-Ht. destruct (present e).
  - cbn. change (2 ^ 12) with 4096. lia.
  - by rewrite H0.
Qed.

Lemma mm_virtual_get_phys_walk_witness :
  mm_virtual_get_phys 0x400123 pst_example = Ok (0, pst_example).
Proof.
  apply (mm_virtual_get_phys_walk pst_example 0x400123); [apply pst_example_ok|done|done].
Defined.

(** The index split and the recursive window. For every canonical address the four
    indices and the page offset reassemble to the address, and, as long as the tables
    down to the last level exist, the window address [pml1 + 8 * pml1i] the kernel computes
    is translated by the MMU to the very page-table entry that maps the address. *)
Theorem mm_virtual_indices_window {P} `{!PageSource P} (s : pst P) va t :
  pt_ok s -> canonical va = true -> idx 3 va <> 510 ->
  table (ram s) (cr3 s) [idx 3 va; idx 2 va; idx 1 va] = Some t ->
  let i := mm_virtual_indices va in
  addr_of (pml4i i) (pml3i i) (pml2i i) (pml1i i) (va mod 4096) = va /\
  walk (ram s) (cr3 s) (pml1 i + 8 * pml1i i) = Some (t + 8 * idx 0 va).
Proof.
  intros Hok Hc Hi Ht.
  assert (Hf : fits 64 va).
  { revert Hc. unfold canonical, HIGHER_HALF, fits. rewrite bool_decide_eq_true. lia. }
  pose proof (indices_idx va Hf) as E. destruct (indices_windows va Hf) as (_ & _ & _ & W).
  cbv zeta in *. set (i := mm_virtual_indices va) in *. clearbody i.
  injection E as -> -> -> ->. rewrite W. split; [by apply addr_of_path_of|].
  assert (T3 : tpath [idx 3 va; idx 2 va; idx 1 va]).
  { split; [unfold index; auto using Forall_nil_2, Forall_cons_2, idx_range|cbn; congruence]. }
  apply walk_win; [by apply ok_self| |apply T3|cbn; lia|done|apply idx_range].
  apply ok_small; [done|done|cbn; lia].
Qed.

Lemma mm_virtual_indices_window_witness :
  exists (s : pst (list Z)) t, let i := mm_virtual_indices 0x400123 in
    addr_of (pml4i i) (pml3i i) (pml2i i) (pml1i i) 0x123 = 0x400123 /\
    walk (ram s) (cr3 s) (pml1 i + 8 * pml1i i) = Some (t + 8 * 0).
Proof.
  destruct (ensure_tables pst_example 0x400123) as (_ & _ & s & t & _ & _ & _ & Hok & Hc & _ & Ht & _).
  - apply pst_example_ok.
  - split; [apply path_of_index|done].
  - cbn. lia.
  - unfold fits. lia.
  - exists s, t. apply (mm_virtual_indices_window s 0x400123 t Hok); [done|done|].
    rewrite Hc. exact Ht.
Defined.
