(* ===== verification/Pmm.v ===== *)
(** The physical page allocator: kernel/mm/physical.c.

    Free pages are kept on page-sized stacks that live in free pages themselves and are
    chained by their [prev] words; the current stack is mapped at [STACK_ADDR] by the last
    entry of a page table, a stack being set up by the entry before. The allocator
    implements the [PageSource] contract of file Paging. *)
From S2P Require Import Prelude Paging.
Import MMU.

Definition STACK_SIZE : Z := 509.
Definition STACK_ADDR : Z := 0xFFFFFEFFFFFFF000.
Definition STACK_ADDR_TEMP : Z := 0xFFFFFEFFFFFFE000.

(** Offsets of [struct mm_physical_stack]. *)
Definition OFF_prev : Z := 0.
Definition OFF_next : Z := 8.
Definition OFF_used : Z := 16.
Definition OFF_data (i : Z) : Z := 24 + 8 * i.

(** The memory of the stacks by 8-byte words, and the two window entries. *)
Record pmm := mkPmm { mem : gmap Z Z; pml1_510 : Z; pml1_511 : Z }.

Definition stack_rd (off : Z) : cmd pmm Z := fun s =>
  Ok (rd (mem s) (base (pml1_511 s) + off), s).
Definition stack_wr (off v : Z) : cmd pmm unit := fun s =>
  Ok (tt, mkPmm (<[base (pml1_511 s) + off := v]> (mem s)) (pml1_510 s) (pml1_511 s)).
Definition temp_wr (off v : Z) : cmd pmm unit := fun s =>
  Ok (tt, mkPmm (<[base (pml1_510 s) + off := v]> (mem s)) (pml1_510 s) (pml1_511 s)).
Definition set_510 (e : Z) : cmd pmm unit := fun s => Ok (tt, mkPmm (mem s) e (pml1_511 s)).
Definition set_511 (e : Z) : cmd pmm unit := fun s => Ok (tt, mkPmm (mem s) (pml1_510 s) e).

Definition mm_physical_next_stack (addr : Z) : cmd pmm unit :=
  set_511 (addr .| PAGE_PRESENT .| PAGE_WRITE).

Definition mm_physical_create_stack (phys : Z) : cmd pmm Z :=
  current ← gets (fun s => pml1_511 s .& 0x000FFFFFFFFFF000);
  _ ← set_510 (phys .| PAGE_PRESENT .| PAGE_WRITE);
  _ ← temp_wr OFF_prev 0;
  _ ← temp_wr OFF_next 0;
  _ ← temp_wr OFF_used 0;
  _ ← temp_wr OFF_prev current;
  _ ← set_510 0;
  mret phys.

Fixpoint mm_physical_get (fuel : nat) : cmd pmm Z :=
  match fuel with
  | O => halt OutOfFuel
  | S fuel =>
      used ← stack_rd OFF_used;
      if decide (0 < used) then
        ret ← stack_rd (OFF_data (used - 1));
        _ ← stack_wr (OFF_data (used - 1)) 0;
        _ ← stack_wr OFF_used (used - 1);
        mret ret
      else
        prev ← stack_rd OFF_prev;
        if decide (prev = 0) then panic "out of physical memory" else
        _ ← mm_physical_next_stack prev;
        mm_physical_get fuel
  end.

(** [stack->data[stack->used++] = addr;] *)
Definition stack_push (addr : Z) : cmd pmm unit :=
  used ← stack_rd OFF_used;
  _ ← stack_wr OFF_used (used + 1);
  stack_wr (OFF_data used) addr.

Definition mm_physical_mark_free (fuel : nat) (addr : Z) : cmd pmm unit :=
  used ← stack_rd OFF_used;
  if decide (used < STACK_SIZE) then stack_push addr
  else
    phys ← mm_physical_get fuel;
    new ← mm_physical_create_stack phys;
    _ ← stack_wr OFF_next new;
    next ← stack_rd OFF_next;
    _ ← mm_physical_next_stack next;
    stack_push addr.

(** The firmware's memory types, as the table [memory_map_types] lists them; their numbers
    are the UEFI headers' and play no role. *)
Inductive efi_memory_type : Type :=
  | EfiReservedMemoryType | EfiLoaderCode | EfiLoaderData | EfiBootServicesCode
  | EfiBootServicesData | EfiRuntimeServicesCode | EfiRuntimeServicesData
  | EfiConventionalMemory | EfiUnusableMemory | EfiACPIReclaimMemory | EfiACPIMemoryNVS
  | EfiMemoryMappedIO | EfiMemoryMappedIOPortSpace | EfiPalCode | EfiPersistentMemory
  | OtherMemoryType (n : Z).
#[export] Instance efi_memory_type_dec : EqDecision efi_memory_type.
Proof. solve_decision. Defined.

(** [efi_memory_descriptor], the fields the allocator reads. *)
Record efi_memory_descriptor := {
  Type_ : efi_memory_type; PhysicalStart : Z; NumberOfPages : Z }.

(** The inner loop of [mm_physical_init] over one descriptor. *)
Definition mm_physical_mark_range (fuel : nat) (start pages : Z) : cmd pmm unit :=
  for_n (Z.to_nat pages) 0 (fun j =>
    mm_physical_mark_free fuel (u64 (start + (j ≪ PAGE_SHIFT)))).

(** ** The chain of stacks *)

(** One stack: its page frame and the pages on it, the top first. *)
Notation stk := (Z * list Z)%type.

Definition top (L : list stk) : Z := match L with [] => 0 | (f, _) :: _ => f end.
Definition frames (L : list stk) : list Z := L.*1.
(** The free pages in the order [mm_physical_get] will return them. *)
Definition free_pages (L : list stk) : list Z := concat L.*2.

Record is_stack (m : gmap Z Z) (f : Z) (l : list Z) (prev : Z) : Prop := {
  stk_prev : rd m (f + OFF_prev) = prev;
  stk_used : rd m (f + OFF_used) = Z.of_nat (length l);
  stk_size : (length l <= 509)%nat;
  stk_data : forall i a, reverse l !! i = Some a -> rd m (f + OFF_data (Z.of_nat i)) = a }.

Fixpoint chain (m : gmap Z Z) (L : list stk) : Prop :=
  match L with
  | [] => True
  | (f, l) :: L => is_stack m f l (top L) /\ chain m L
  end.

Record is_pmm (s : pmm) (L : list stk) : Prop := {
  pmm_cur : base (pml1_511 s) = top L;
  pmm_chain : chain (mem s) L;
  pmm_nonempty : L <> [];
  pmm_frames : Forall (fun f => is_page f /\ f <> 0) (frames L);
  pmm_pages : Forall (fun f => is_page f /\ f <> 0) (free_pages L);
  pmm_nodup : NoDup (frames L ++ free_pages L) }.

(** Two maps that agree on the words of a page. *)
Definition same_page (m m' : gmap Z Z) (f : Z) : Prop :=
  forall i, index i -> rd m' (f + 8 * i) = rd m (f + 8 * i).

Lemma same_page_insert m f g i v :
  is_page f -> is_page g -> f <> g -> index i -> same_page m (<[g + 8 * i := v]> m) f.
Proof.
  intros Hf Hg Hne Hi j Hj. apply rd_insert_ne. intros Heq.
  apply entry_addr_inj in Heq as [-> _]; done.
Qed.

Lemma same_page_trans m1 m2 m3 f : same_page m1 m2 f -> same_page m2 m3 f -> same_page m1 m3 f.
Proof. intros H1 H2 i Hi. by rewrite H2, H1. Qed.

Lemma is_stack_same m m' f l p : same_page m m' f -> is_stack m f l p -> is_stack m' f l p.
Proof.
  intros Hs [H1 H2 H3 H4]. unfold same_page, index, OFF_prev, OFF_used, OFF_data in *. split.
  - rewrite <-H1. apply (Hs 0). lia.
  - rewrite <-H2. apply (Hs 2). lia.
  - done.
  - intros i a Hi. rewrite <-(H4 i a Hi).
    apply lookup_lt_Some in Hi. rewrite length_reverse in Hi.
    unfold OFF_data. replace (f + (24 + 8 * Z.of_nat i)) with (f + 8 * (3 + Z.of_nat i)) by lia.
    apply Hs. lia.
Qed.

Lemma chain_same m m' L :
  (forall f, f ∈ frames L -> same_page m m' f) -> chain m L -> chain m' L.
Proof.
  induction L as [|[f l] L IH]; cbn; [done|]. intros Hs [H1 H2]. split.
  - eapply is_stack_same; [|done]. apply Hs. by left.
  - apply IH; [|done]. intros g Hg. apply Hs. by right.
Qed.

Lemma base_entry f : is_page f -> base (f .| PAGE_PRESENT .| PAGE_WRITE) = f.
Proof. intros Hf. rewrite or_flags by done. apply base_of_page; [done|unfold fits; lia]. Qed.

(** Writing word [i] of frame [f] leaves the chain of other frames alone. *)
Lemma chain_insert m f i v L :
  is_page f -> index i -> f ∉ frames L -> Forall (fun f => is_page f /\ f <> 0) (frames L) ->
  chain m L -> chain (<[f + 8 * i := v]> m) L.
Proof.
  intros Hf Hi Hni Hfr. apply chain_same. intros g Hg.
  rewrite Forall_forall in Hfr. apply same_page_insert; [by apply Hfr|done| |done]. congruence.
Qed.

(** *** Push and pop on the current stack *)
Lemma is_stack_push m f l p a :
  is_page f -> is_stack m f l p -> (length l < 509)%nat ->
  is_stack (<[f + OFF_data (Z.of_nat (length l)) := a]>
     (<[f + OFF_used := Z.of_nat (length l) + 1]> m)) f (a :: l) p.
Proof.
  intros Hf [H1 H2 H3 H4] Hl. unfold OFF_prev, OFF_used, OFF_data in *. split.
  - unfold OFF_prev. rewrite !rd_insert_ne by lia. done.
  - unfold OFF_used. rewrite rd_insert_ne, rd_insert_eq by lia. cbn. lia.
  - cbn. lia.
  - intros i b. rewrite reverse_cons, lookup_app, length_reverse. unfold OFF_data.
    destruct (reverse l !! i) as [c|] eqn:E.
    + intros [= ->]. pose proof (lookup_lt_Some _ _ _ E) as Hi. rewrite length_reverse in Hi.
      rewrite !rd_insert_ne by lia. by apply H4.
    + apply lookup_ge_None in E. rewrite length_reverse in E. intros Hb.
      apply list_lookup_singleton_Some in Hb as [Hi <-].
      replace i with (length l) by lia. by rewrite rd_insert_eq.
Qed.

Lemma is_stack_pop m f l p a :
  is_page f -> is_stack m f (a :: l) p ->
  rd m (f + OFF_data (Z.of_nat (length l))) = a /\
  is_stack (<[f + OFF_used := Z.of_nat (length l)]>
     (<[f + OFF_data (Z.of_nat (length l)) := 0]> m)) f l p.
Proof.
  intros Hf [H1 H2 H3 H4]. unfold OFF_prev, OFF_used, OFF_data in *.
  assert (Hlook : forall i b, reverse l !! i = Some b -> reverse (a :: l) !! i = Some b).
  { intros i b Hi. rewrite reverse_cons. by apply lookup_app_l_Some. }
  split; [|split].
  - apply H4. rewrite reverse_cons, lookup_app_r by (rewrite length_reverse; lia).
    by rewrite length_reverse, Nat.sub_diag.
  - unfold OFF_prev. rewrite !rd_insert_ne by lia. done.
  - unfold OFF_used. by rewrite rd_insert_eq.
  - cbn in H3. lia.
  - intros i b Hi. unfold OFF_data. pose proof (lookup_lt_Some _ _ _ Hi) as Hil.
    rewrite length_reverse in Hil. rewrite !rd_insert_ne by lia. by apply H4, Hlook.
Qed.

(** ** The operations on the chain *)

Lemma stack_rd_bind {A} off (k : Z -> cmd pmm A) s :
  (stack_rd off ≫= k) s = k (rd (mem s) (base (pml1_511 s) + off)) s.
Proof. done. Qed.

Lemma pmm_head s f l L : is_pmm s ((f, l) :: L) ->
  base (pml1_511 s) = f /\ is_page f /\ f <> 0 /\ f ∉ frames L /\
  is_stack (mem s) f l (top L) /\ chain (mem s) L /\
  Forall (fun f => is_page f /\ f <> 0) (frames L).
Proof.
  intros [Hc [Hst Hch] _ Hfr _ Hnd]. cbn in *. inversion Hfr; subst.
  apply NoDup_cons in Hnd as [Hni _]. rewrite elem_of_app in Hni. naive_solver.
Qed.

(** A used page index is a word of the frame. *)
Lemma data_index n : (n < 509)%nat -> index (3 + Z.of_nat n).
Proof. unfold index. lia. Qed.
Lemma off_data f n : f + OFF_data (Z.of_nat n) = f + 8 * (3 + Z.of_nat n).
Proof. unfold OFF_data. lia. Qed.
Lemma off_used f : f + OFF_used = f + 8 * 2.
Proof. unfold OFF_used. lia. Qed.

Lemma get_step s f a l L : is_pmm s ((f, a :: l) :: L) ->
  exists m', forall fuel,
    mm_physical_get (S fuel) s = Ok (a, mkPmm m' (pml1_510 s) (pml1_511 s)) /\
    is_pmm (mkPmm m' (pml1_510 s) (pml1_511 s)) ((f, l) :: L).
Proof.
  intros H. destruct (pmm_head _ _ _ _ H) as (Hb & Hf & Hnz & Hni & Hst & Hch & Hfr).
  destruct (is_stack_pop _ _ _ _ _ Hf Hst) as [Hret Hst'].
  pose proof (stk_used _ _ _ _ Hst) as Hu. pose proof (stk_size _ _ _ _ Hst) as Hsz. cbn in Hu, Hsz.
  eexists. intros fuel. cbn [mm_physical_get]. rewrite stack_rd_bind, Hb, Hu.
  rewrite decide_True by lia.
  replace (Z.of_nat (S (length l)) - 1) with (Z.of_nat (length l)) by lia.
  rewrite stack_rd_bind, Hb, Hret.
  unfold stack_wr. cmd_unfold. cbn [mem pml1_510 pml1_511]. rewrite Hb. split; [reflexivity|].
  destruct H as [_ _ _ Hf1 Hf2 Hnd]. cbn in Hf1, Hf2, Hnd. split; cbn.
  - done.
  - split; [done|]. rewrite off_data, off_used.
    apply chain_insert; [done|unfold index; lia|done|done|].
    apply chain_insert; [done|by apply data_index|done|done|done].
  - done.
  - done.
  - unfold free_pages in *. cbn in *. by inversion Hf2.
  - unfold free_pages in *. cbn in *.
    rewrite NoDup_cons in *. destruct Hnd as [Hn Hnd]. apply NoDup_middle in Hnd. set_solver.
Qed.

Lemma is_pmm_drop s f L : is_pmm s ((f, []) :: L) -> L <> [] ->
  is_pmm (mkPmm (mem s) (pml1_510 s) (top L .| PAGE_PRESENT .| PAGE_WRITE)) L.
Proof.
  intros H HL. destruct (pmm_head _ _ _ _ H) as (Hb & Hf & Hnz & Hni & Hst & Hch & Hfr).
  destruct H as [_ _ _ _ Hf2 Hnd]. split; cbn; try done.
  - apply base_entry. destruct L as [|[g ?] L]; [done|]. by inversion Hfr as [|? ? [??]].
  - cbn in Hnd. by apply NoDup_cons in Hnd as [_ ?].
Qed.

(** What a successful [mm_physical_get] does to the chain: empty stacks are left behind. *)
Fixpoint chain_get (L : list stk) : list stk :=
  match L with
  | [] => []
  | (f, []) :: L => chain_get L
  | (f, a :: l) :: L => (f, l) :: L
  end.

Lemma get_spec fuel s L : is_pmm s L -> (length L <= fuel)%nat ->
  match free_pages L with
  | [] => mm_physical_get fuel s = Stop (Panicked "out of physical memory")
  | a :: r => exists s', mm_physical_get fuel s = Ok (a, s') /\ is_pmm s' (chain_get L) /\
      free_pages (chain_get L) = r /\ (length (chain_get L) <= length L)%nat
  end.
Proof.
  revert s L. induction fuel as [|fuel IH]; intros s L H Hfuel.
  { destruct L; [by destruct H|cbn in Hfuel; lia]. }
  destruct L as [|[f [|a l]] L]; [by destruct H| |].
  - destruct (pmm_head _ _ _ _ H) as (Hb & Hf & Hnz & Hni & Hst & Hch & Hfr).
    cbn [mm_physical_get].
    unfold free_pages. cbn -[free_pages]. fold (free_pages L).
    assert (Hstep : forall X : res (Z * pmm),
      (if decide (top L = 0) then Stop (Panicked "out of physical memory")
       else mm_physical_get fuel (mkPmm (mem s) (pml1_510 s) (top L .| PAGE_PRESENT .| PAGE_WRITE)))
      = X -> mm_physical_get (S fuel) s = X).
    { intros X <-. cbn [mm_physical_get].
      rewrite stack_rd_bind, Hb, (stk_used _ _ _ _ Hst). cbn [length Z.of_nat].
      rewrite decide_False by lia. rewrite stack_rd_bind, Hb, (stk_prev _ _ _ _ Hst).
      by destruct (decide (top L = 0)). }
    cbn [mm_physical_get] in Hstep.
    destruct L as [|[g l2] L].
    + by apply Hstep.
    + assert (Hg : g <> 0) by (by inversion Hfr as [|? ? [??]]).
      specialize (IH _ _ (is_pmm_drop _ _ _ H ltac:(done))). cbn in Hfuel.
      specialize (IH ltac:(cbn; lia)).
      destruct (free_pages ((g, l2) :: L)) as [|a r].
      * apply Hstep. by rewrite decide_False.
      * destruct IH as (s' & Hr & Hp & Hfp & Hl). exists s'. split.
        { apply Hstep. by rewrite decide_False. }
        split; [done|]. split; [done|]. cbn in *. lia.
  - destruct (get_step s f a l L H) as [m' Hg]. destruct (Hg fuel) as [Hr Hp].
    unfold free_pages at 1. cbn -[mm_physical_get]. eexists. split; [exact Hr|].
    split; [exact Hp|]. done.
Qed.

Lemma create_stack_spec s a L :
  is_page a -> a ∉ frames L -> Forall (fun f => is_page f /\ f <> 0) (frames L) ->
  chain (mem s) L ->
  exists m', mm_physical_create_stack a s = Ok (a, mkPmm m' 0 (pml1_511 s)) /\
    is_stack m' a [] (base (pml1_511 s)) /\ chain m' L.
Proof.
  intros Ha Hni Hfr Hch. unfold mm_physical_create_stack, set_510, temp_wr. cmd_unfold.
  cbn [mem pml1_510 pml1_511]. rewrite base_entry by done. fold (base (pml1_511 s)).
  eexists. split; [reflexivity|]. unfold OFF_prev, OFF_next, OFF_used. split.
  - split; unfold OFF_prev, OFF_next, OFF_used.
    + by rewrite rd_insert_eq.
    + rewrite rd_insert_ne, rd_insert_eq by lia. done.
    + cbn. lia.
    + intros i b Hi. apply lookup_lt_Some in Hi. cbn in Hi. lia.
  - change 0 with (8 * 0). change 8 with (8 * 1) at 3. change 16 with (8 * 2).
    repeat (apply chain_insert; [done|unfold index; lia|done|done|]). done.
Qed.

Lemma push_spec s f l L a : is_pmm s ((f, l) :: L) -> (length l < 509)%nat ->
  is_page a -> a <> 0 -> a ∉ frames ((f, l) :: L) ++ free_pages ((f, l) :: L) ->
  exists m', stack_push a s = Ok (tt, mkPmm m' (pml1_510 s) (pml1_511 s)) /\
    is_pmm (mkPmm m' (pml1_510 s) (pml1_511 s)) ((f, a :: l) :: L).
Proof.
  intros H Hl Ha Hanz Hni. destruct (pmm_head _ _ _ _ H) as (Hb & Hf & Hnz & Hnf & Hst & Hch & Hfr).
  pose proof (is_stack_push _ _ _ _ a Hf Hst Hl) as Hst'.
  eexists. unfold stack_push. rewrite stack_rd_bind, Hb, (stk_used _ _ _ _ Hst).
  unfold stack_wr. cmd_unfold. cbn [mem pml1_510 pml1_511]. rewrite Hb. split; [reflexivity|].
  destruct H as [_ _ _ Hf1 Hf2 Hnd]. split; cbn; try done.
  - split; [done|]. rewrite off_data, off_used.
    apply chain_insert; [done|by apply data_index|done|done|].
    by apply chain_insert; [done|unfold index; lia|done|done|].
  - unfold free_pages in *. cbn in *. by constructor.
  - unfold free_pages in *. cbn in *. rewrite NoDup_cons in *. destruct Hnd as [Hn Hnd].
    split; [set_solver|]. apply NoDup_middle. set_solver.
Qed.

(** What [mm_physical_mark_free] does to the chain: a full stack gives up its top page,
    which becomes the frame of a new stack. *)
Definition chain_mark (L : list stk) (a : Z) : list stk :=
  match L with
  | [] => []
  | (f, l) :: L => if decide (length l < 509)%nat then (f, a :: l) :: L
                   else (hd_or 0 l, [a]) :: (f, tail l) :: L
  end.

Lemma mark_free_spec fuel s f l L a : is_pmm s ((f, l) :: L) -> (0 < fuel)%nat ->
  is_page a -> a <> 0 -> a ∉ frames ((f, l) :: L) ++ free_pages ((f, l) :: L) ->
  exists s', mm_physical_mark_free fuel a s = Ok (tt, s') /\
    is_pmm s' (chain_mark ((f, l) :: L) a).
Proof.
  intros H Hfuel Ha Hanz Hni.
  destruct (pmm_head _ _ _ _ H) as (Hb & Hf & Hnz & Hnf & Hst & Hch & Hfr).
  unfold mm_physical_mark_free. rewrite stack_rd_bind, Hb, (stk_used _ _ _ _ Hst).
  unfold STACK_SIZE, chain_mark. destruct (decide (length l < 509)%nat) as [Hl|Hl].
  { rewrite decide_True by lia. destruct (push_spec s f l L a) as (m' & Hp & Hok); eauto. }
  rewrite decide_False by lia. pose proof (stk_size _ _ _ _ Hst) as Hsz.
  destruct l as [|b l]; [cbn in Hl; lia|]. change (hd_or 0 (b :: l)) with b. cbn [tail].
  destruct (get_step s f b l L H) as [m1 Hg]. destruct fuel as [|fuel]; [lia|].
  destruct (Hg fuel) as [Hr H1]. erewrite bind_ok by exact Hr. clear Hg Hr.
  assert (Hb' : is_page b /\ b <> 0 /\ b <> f /\ b ∉ frames L /\ b ∉ free_pages ((f, l) :: L)).
  { destruct H as [_ _ _ _ Hp Hnd]. unfold free_pages in *. cbn in *. inversion Hp; subst.
    rewrite NoDup_cons in Hnd. destruct Hnd as [Hnd1 Hnd]. apply NoDup_middle in Hnd.
    set_solver. }
  destruct Hb' as (Hbp & Hbnz & Hbf & Hbn & Hbfree).
  set (s1 := mkPmm m1 _ _) in *.
  destruct (pmm_head _ _ _ _ H1) as (Hb1 & _ & _ & _ & Hst1 & Hch1 & _).
  destruct (create_stack_spec s1 b ((f, l) :: L)) as (m2 & Hc & Hst2 & Hch2);
    [done|cbn; set_solver|by constructor|by destruct H1|].
  erewrite bind_ok by exact Hc. rewrite Hb1 in Hst2.
  set (m3 := <[f + 8 * 1 := b]> m2).
  set (s3 := mkPmm m3 0 (b .| PAGE_PRESENT .| PAGE_WRITE)).
  assert (Hs3 : is_pmm s3 ((b, []) :: (f, l) :: L)).
  { destruct H1 as [_ _ _ Hf1 Hf2 Hnd]. split; cbn.
    - by apply base_entry.
    - split; [|split].
      + eapply is_stack_same; [|done]. by apply same_page_insert.
      + destruct Hch2 as [[P1 P2 P3 P4] _]. unfold m3, OFF_prev, OFF_used, OFF_data in *.
        split; unfold OFF_prev, OFF_used, OFF_data.
        * by rewrite rd_insert_ne by lia.
        * by rewrite rd_insert_ne by lia.
        * done.
        * intros i c Hi. rewrite rd_insert_ne by lia. by apply P4.
      + apply chain_insert; [done|unfold index; lia|done|done|]. by destruct Hch2.
    - done.
    - by constructor.
    - done.
    - apply NoDup_cons. split; [|done]. cbn in *. set_solver. }
  assert (Hrun : forall k : cmd pmm unit,
    (_ ← stack_wr OFF_next b; next ← stack_rd OFF_next; _ ← mm_physical_next_stack next; k)
      (mkPmm m2 0 (pml1_511 s1)) = k s3).
  { intros k. unfold stack_wr, stack_rd, mm_physical_next_stack, set_511. cmd_unfold.
    cbn [mem pml1_510 pml1_511]. rewrite Hb1, rd_insert_eq. done. }
  rewrite Hrun.
  destruct (push_spec s3 b [] ((f, l) :: L) a Hs3) as (m4 & Hp & H4);
    [cbn; lia|done|done| |eauto].
  unfold free_pages in *. cbn in *. set_solver.
Qed.

(** ** The page source *)

(** The allocator with its chain as auxiliary state. *)
Record gpmm := mkG { gp : pmm; gchain : list stk }.

Definition gget : cmd gpmm Z := fun g =>
  match mm_physical_get (length (gchain g)) (gp g) with
  | Ok (a, s) => Ok (a, mkG s (chain_get (gchain g)))
  | Stop w => Stop w
  end.
Definition gmark (a : Z) : cmd gpmm unit := fun g =>
  match mm_physical_mark_free (length (gchain g)) a (gp g) with
  | Ok (_, s) => Ok (tt, mkG s (chain_mark (gchain g) a))
  | Stop w => Stop w
  end.

#[export] Instance pmm_source : PageSource gpmm.
Proof.
  refine {| page_get := gget; avail g := free_pages (gchain g);
            page_wf g := is_pmm (gp g) (gchain g) |}.
  intros g Hg. pose proof (get_spec (length (gchain g)) (gp g) (gchain g) Hg ltac:(done)) as H.
  unfold gget. destruct (free_pages (gchain g)) as [|a r].
  - rewrite H. eauto.
  - destruct H as (s' & -> & Hp & Hf & _). eauto.
Defined.

(** ** Initialisation: marking the pages of the firmware's memory map *)

Definition on_pages {P A} (c : cmd P A) : cmd (pst P) A := fun s =>
  match c (pages s) with
  | Ok (a, p) => Ok (a, mkP (ram s) (cr3 s) p)
  | Stop w => Stop w
  end.

(** One descriptor of the loop of [mm_physical_init]. *)
Definition mm_physical_init_desc (d : efi_memory_descriptor) : cmd (pst gpmm) unit :=
  if decide (Type_ d = EfiConventionalMemory \/ Type_ d = EfiBootServicesCode \/
             Type_ d = EfiBootServicesData) then
    for_n (Z.to_nat (NumberOfPages d)) 0 (fun j =>
      on_pages (gmark (u64 (PhysicalStart d + (j ≪ PAGE_SHIFT)))))
  else if decide (Type_ d = EfiACPIReclaimMemory) then
    mm_virtual_map (S (Z.to_nat (NumberOfPages d))) (PhysicalStart d) (PhysicalStart d)
      (NumberOfPages d) (PAGE_PRESENT .| PAGE_NX)
  else mret tt.

Fixpoint mm_physical_init (descs : list efi_memory_descriptor) : cmd (pst gpmm) unit :=
  match descs with
  | [] => mret tt
  | d :: descs => _ ← mm_physical_init_desc d; mm_physical_init descs
  end.

Definition page_range (start n : Z) : list Z := (fun j => start + 4096 * j) <$> seqZ 0 n.
Definition usable (d : efi_memory_descriptor) : Prop :=
  Type_ d = EfiConventionalMemory \/ Type_ d = EfiBootServicesCode \/
  Type_ d = EfiBootServicesData.
#[export] Instance usable_dec d : Decision (usable d).
Proof. unfold usable. apply _. Defined.
Definition desc_pages (d : efi_memory_descriptor) : list Z :=
  if decide (usable d) then page_range (PhysicalStart d) (NumberOfPages d) else [].
Definition map_pages (descs : list efi_memory_descriptor) : list Z :=
  concat (desc_pages <$> descs).

(** Marking a page never loses one: it is free or it is a stack. *)
Lemma chain_mark_perm L a : L <> [] ->
  frames (chain_mark L a) ++ free_pages (chain_mark L a) ≡ₚ a :: frames L ++ free_pages L.
Proof.
  intros HL. destruct L as [|[f l] L]; [done|]. unfold chain_mark, frames, free_pages.
  destruct (decide (length l < 509)%nat) as [Hl|Hl]; cbn.
  - rewrite <-Permutation_middle. apply perm_swap.
  - destruct l as [|b l]; [cbn in Hl; lia|]. cbn. unfold hd_or. cbn.
    rewrite <-!Permutation_middle. rewrite (perm_swap f b), (perm_swap a b). by rewrite (perm_swap f a).
Qed.

Lemma gmark_spec g a : is_pmm (gp g) (gchain g) -> is_page a -> a <> 0 ->
  a ∉ frames (gchain g) ++ free_pages (gchain g) ->
  exists s', gmark a g = Ok (tt, mkG s' (chain_mark (gchain g) a)) /\
    is_pmm s' (chain_mark (gchain g) a).
Proof.
  destruct g as [s [|[f l] L]]; cbn [gp gchain]; intros H Ha Hnz Hni; [by destruct H|].
  destruct (mark_free_spec (length ((f, l) :: L)) s f l L a H) as (s' & Hr & Hp);
    [cbn; lia|done..|].
  exists s'. unfold gmark. cbn [gp gchain]. by rewrite Hr.
Qed.

Definition marks (L : list stk) (as_ : list Z) : list stk := foldl chain_mark L as_.

Lemma chain_mark_ne L a : L <> [] -> chain_mark L a <> [].
Proof. destruct L as [|[f l] L]; [done|]. cbn. by case_decide. Qed.

Lemma marks_perm L as_ : L <> [] ->
  frames (marks L as_) ++ free_pages (marks L as_) ≡ₚ as_ ++ frames L ++ free_pages L.
Proof.
  revert L. induction as_ as [|a as_ IH]; intros L HL; cbn; [done|].
  unfold marks in IH. rewrite IH by (by apply chain_mark_ne).
  rewrite chain_mark_perm by done. by rewrite <-Permutation_middle.
Qed.

(** The bookkeeping cost: one page per 509, starting with the 510th. *)
Record filled (L : list stk) (n : nat) : Prop := {
  filled_rest : Forall (fun p => length p.2 = 508%nat) (tail L);
  filled_head : (1 <= n)%nat -> exists f l, head L = Some (f, l) /\
    (1 <= length l <= 509)%nat /\ n = (length l + 509 * length (tail L))%nat }.

Lemma filled_mark L n a : (1 <= n)%nat -> filled L n -> filled (chain_mark L a) (S n).
Proof.
  intros Hn [Hr Hh]. destruct (Hh Hn) as (f & l & E & Hl & Hs). destruct L as [|[f' l'] L]; [done|].
  injection E as -> ->. cbn in *. case_decide.
  - split; [done|]. intros _. exists f, (a :: l). cbn. split; [done|]. lia.
  - split.
    + cbn. constructor; [|done]. cbn. rewrite length_tl. lia.
    + intros _. eexists _, _. split; [done|]. cbn. lia.
Qed.

Lemma marks_filled f as_ : as_ <> [] -> filled (marks [(f, [])] as_) (length as_).
Proof.
  intros Hne. induction as_ as [|a as_ IH] using rev_ind; [done|].
  unfold marks in *. rewrite foldl_app, length_app. cbn. rewrite Nat.add_1_r.
  destruct (decide (as_ = [])) as [->|Hn].
  - assert (chain_mark (foldl chain_mark [(f, [])] []) a = [(f, [a])]) as -> by done.
    split; [constructor|]. intros _. exists f, [a]. split; [done|]. cbn [length tail]. lia.
  - apply filled_mark; [|by apply IH]. destruct as_; [done|]. cbn. lia.
Qed.

Lemma marks_count f as_ : as_ <> [] ->
  Z.of_nat (length (free_pages (marks [(f, [])] as_))) =
    Z.of_nat (length as_) - (Z.of_nat (length as_) - 1) / 509.
Proof.
  intros Hne. pose proof (marks_filled f as_ Hne) as [Hr Hh].
  destruct Hh as (g & l & E & Hl & Hs); [destruct as_; [done|cbn; lia]|].
  set (L := marks _ _) in *. destruct L as [|p L]; [done|]. injection E as ->. cbn [tail] in *.
  unfold free_pages. cbn. rewrite length_app.
  assert (length (concat L.*2) = 508 * length L)%nat as ->.
  { clear -Hr. induction Hr as [|? ? Hx ? IH]; cbn; [done|]. rewrite length_app, IH, Hx. lia. }
  rewrite Hs. zlia.
Qed.

Lemma on_pages_mark (s : pst gpmm) a g : gmark a (pages s) = Ok (tt, g) ->
  on_pages (gmark a) s = Ok (tt, mkP (ram s) (cr3 s) g).
Proof. intros H. unfold on_pages. by rewrite H. Qed.

(** Marking one region, page by page. *)
Lemma mark_range_spec n j start (s : pst gpmm) :
  is_pmm (gp (pages s)) (gchain (pages s)) -> 0 <= j ->
  (forall k, j <= k < j + Z.of_nat n -> is_page (start + 4096 * k) /\ start + 4096 * k <> 0 /\
     start + 4096 * k ∉ frames (gchain (pages s)) ++ free_pages (gchain (pages s))) ->
  exists p, for_n n j (fun j => on_pages (gmark (u64 (start + (j ≪ PAGE_SHIFT))))) s =
      Ok (tt, mkP (ram s) (cr3 s) p) /\
    gchain p = marks (gchain (pages s)) ((fun j => start + 4096 * j) <$> seqZ j (Z.of_nat n)) /\
    is_pmm (gp p) (gchain p).
Proof.
  revert j s. induction n as [|n IH]; intros j s Hok Hj Hp.
  { exists (pages s). by destruct s. }
  destruct (Hp j) as (Hpg & Hnz & Hni); [lia|].
  assert (Hu : u64 (start + (j ≪ PAGE_SHIFT)) = start + 4096 * j).
  { unfold PAGE_SHIFT. rewrite Z.shiftl_mul_pow2 by lia. rewrite wrap_small; [lia|].
    destruct Hpg as [Hf _]. replace (start + j * 2 ^ 12) with (start + 4096 * j) by lia.
    by apply (fits_mono 52). }
  destruct (gmark_spec (pages s) _ Hok Hpg Hnz Hni) as (p1 & Hm & Hok1).
  cbn [for_n]. rewrite Hu. erewrite bind_ok by (apply on_pages_mark; exact Hm).
  destruct (IH (j + 1) (mkP (ram s) (cr3 s) (mkG p1 (chain_mark (gchain (pages s)) (start + 4096 * j)))))
    as (p & Hr & Hg & Hokp); [done|lia| |].
  { intros k Hk. destruct (Hp k) as (H1 & H2 & H3); [lia|]. split; [done|]. split; [done|].
    cbn [pages gchain]. rewrite chain_mark_perm by (by destruct Hok).
    apply not_elem_of_cons. split; [lia|done]. }
  exists p. split; [exact Hr|]. split; [|done]. rewrite Hg. cbn [pages gchain].
  rewrite (seqZ_cons j) by lia.
  replace (Z.pred (Z.of_nat (S n))) with (Z.of_nat n) by lia. by rewrite Z.add_1_r.
Qed.

Lemma init_spec descs (s : pst gpmm) :
  is_pmm (gp (pages s)) (gchain (pages s)) ->
  Forall (fun d => Type_ d <> EfiACPIReclaimMemory) descs ->
  Forall (fun a => is_page a /\ a <> 0) (map_pages descs) ->
  NoDup (map_pages descs ++ frames (gchain (pages s)) ++ free_pages (gchain (pages s))) ->
  exists p, mm_physical_init descs s = Ok (tt, mkP (ram s) (cr3 s) p) /\
    gchain p = marks (gchain (pages s)) (map_pages descs) /\ is_pmm (gp p) (gchain p).
Proof.
  revert s. induction descs as [|d descs IH]; intros s Hok Hty Hpg Hnd.
  { exists (pages s). by destruct s. }
  inversion Hty as [|? ? Hd Hds]; subst. unfold map_pages in *. cbn in Hpg, Hnd.
  apply Forall_app in Hpg as [Hpd Hpds]. rewrite <-app_assoc in Hnd.
  apply NoDup_app in Hnd as (Hnd1 & Hdis & Hnd2). cbn [mm_physical_init].
  assert (exists p1, mm_physical_init_desc d s = Ok (tt, mkP (ram s) (cr3 s) p1) /\
    gchain p1 = marks (gchain (pages s)) (desc_pages d) /\ is_pmm (gp p1) (gchain p1))
    as (p1 & Hr1 & Hg1 & Hok1).
  { unfold mm_physical_init_desc, desc_pages in *. fold (usable d). destruct (decide (usable d)).
    - unfold page_range in *.
      destruct (mark_range_spec (Z.to_nat (NumberOfPages d)) 0 (PhysicalStart d) s)
        as (p1 & ? & Hg & ?); [done|lia| |].
      + intros k Hk. assert (PhysicalStart d + 4096 * k ∈
          (fun j => PhysicalStart d + 4096 * j) <$> seqZ 0 (NumberOfPages d)) as Hin.
        { apply list_elem_of_fmap. exists k. split; [done|]. apply elem_of_seqZ. lia. }
        rewrite Forall_forall in Hpd. specialize (Hpd _ Hin) as [? ?]. split; [done|].
        split; [done|]. intros Hx. eapply Hdis; [exact Hin|]. set_solver.
      + exists p1. split; [done|]. split; [|done]. rewrite Hg.
        destruct (decide (0 <= NumberOfPages d)).
        * by rewrite Z2Nat.id by lia.
        * rewrite (seqZ_nil 0 (NumberOfPages d)) by lia.
          by replace (Z.to_nat (NumberOfPages d)) with 0%nat by lia.
    - rewrite decide_False by done. exists (pages s). by destruct s. }
  erewrite bind_ok by exact Hr1.
  destruct (IH (mkP (ram s) (cr3 s) p1)) as (p & Hr & Hg & Hokp); [done|done|done| |].
  { cbn [pages]. rewrite Hg1, marks_perm by (by destruct Hok).
    apply NoDup_app. apply NoDup_app in Hnd2 as (Hm1 & Hm2 & Hm3). split; [done|]. split.
    - intros x Hx. specialize (Hm2 x Hx). intros [Hy|Hy]%elem_of_app; [|done].
      eapply (Hdis x); [done|]. set_solver.
    - apply NoDup_app. split; [done|]. split; [|done]. intros x Hx Hy. eapply Hdis; [done|]. set_solver. }
  exists p. split; [exact Hr|]. split; [|done]. rewrite Hg. cbn [pages]. rewrite Hg1.
  unfold marks. by rewrite <-foldl_app.
Qed.

(** ** Properties *)

(** C9: allocation. On a well-formed chain of stacks [mm_physical_get] terminates (one
    unit of fuel per stack is enough); it panics exactly when every stack is empty, and
    otherwise returns the most recently freed page, which is a page the allocator owned as
    free, and the chain stays well formed without it. *)
Theorem mm_physical_get_correct fuel s L :
  is_pmm s L -> (length L <= fuel)%nat ->
  match free_pages L with
  | [] => mm_physical_get fuel s = Stop (Panicked "out of physical memory")
  | a :: r => exists s', mm_physical_get fuel s = Ok (a, s') /\
      is_pmm s' (chain_get L) /\ free_pages (chain_get L) = r /\ is_page a /\ a ∉ r
  end.
Proof.
  intros H Hf. pose proof (get_spec fuel s L H Hf) as G. pose proof (pmm_pages _ _ H) as Hp.
  pose proof (pmm_nodup _ _ H) as Hnd. destruct (free_pages L) as [|a r]; [done|].
  destruct G as (s' & ? & ? & ? & _). exists s'. do 3 (split; [done|]).
  inversion Hp as [|? ? [? _] _]; subst. split; [done|].
  apply NoDup_app in Hnd as (_ & _ & Hnd). by apply NoDup_cons in Hnd as [? _].
Qed.

Definition pmm_root : pmm := mkPmm ∅ 0 0x9003.
Lemma pmm_root_ok : is_pmm pmm_root [(0x9000, [])].
Proof.
  split; cbn; try done.
  - split; [|done]. split; [done|done|cbn; lia|]. intros i a Hi. apply lookup_lt_Some in Hi. cbn in Hi. lia.
  - repeat constructor; done.
  - apply NoDup_singleton.
Qed.

Lemma mm_physical_get_correct_witness :
  mm_physical_get 1 pmm_root = Stop (Panicked "out of physical memory") /\
  exists s L, is_pmm s L /\ exists s', mm_physical_get 1 s = Ok (0x5000, s') /\
    is_pmm s' (chain_get L) /\ free_pages (chain_get L) = [] /\ is_page 0x5000 /\ 0x5000 ∉ @nil Z.
Proof.
  split; [apply (mm_physical_get_correct 1 pmm_root _ pmm_root_ok); cbn; lia|].
  destruct (push_spec pmm_root 0x9000 [] [] 0x5000 pmm_root_ok) as (m & _ & H);
    [cbn; lia|done|done|apply (bool_decide_unpack _); vm_compute; done|].
  eexists _, _. split; [exact H|].
  apply (mm_physical_get_correct 1 _ _ H). cbn. lia.
Defined.

(** C10: freeing. Marking a page free keeps the chain well formed and conserves pages: the
    frames of the stacks together with the free pages are those from before plus the page;
    while the current stack has room the page is simply the next one to be handed out, and
    when it is full the stack's top page becomes the frame of a new stack. *)
Theorem mm_physical_mark_free_conserves fuel s L a :
  is_pmm s L -> (0 < fuel)%nat -> is_page a -> a <> 0 -> a ∉ frames L ++ free_pages L ->
  exists s', mm_physical_mark_free fuel a s = Ok (tt, s') /\ is_pmm s' (chain_mark L a) /\
    frames (chain_mark L a) ++ free_pages (chain_mark L a) ≡ₚ a :: frames L ++ free_pages L /\
    head (free_pages (chain_mark L a)) = Some a.
Proof.
  intros H Hf Ha Hnz Hni. destruct L as [|[f l] L]; [by destruct H|].
  destruct (mark_free_spec fuel s f l L a) as (s' & Hr & Hp); [done..|].
  exists s'. split; [done|]. split; [done|]. split; [by apply chain_mark_perm|].
  unfold chain_mark. by case_decide.
Qed.

Lemma mm_physical_mark_free_conserves_witness :
  exists s', mm_physical_mark_free 1 0x5000 pmm_root = Ok (tt, s') /\
    is_pmm s' [(0x9000, [0x5000])] /\
    frames [(0x9000, [0x5000])] ++ free_pages [(0x9000, [0x5000])] ≡ₚ [0x5000; 0x9000] /\
    head (free_pages [(0x9000, [0x5000])]) = Some 0x5000.
Proof.
  apply (mm_physical_mark_free_conserves 1 pmm_root [(0x9000, [])] 0x5000 pmm_root_ok);
    [lia|done|done|].
  apply (bool_decide_unpack _). vm_compute. done.
Defined.

(** Initialisation. Starting from the empty root stack, [mm_physical_init] over a
    memory map (without regions to identity-map) marks every page of its usable regions:
    afterwards each page is either free or the frame of a stack, and of [n] usable pages
    exactly [n - (n - 1) / 509] are free. *)
Theorem mm_physical_init_accounts (s : pst gpmm) f descs :
  is_pmm (gp (pages s)) (gchain (pages s)) -> gchain (pages s) = [(f, [])] ->
  Forall (fun d => Type_ d <> EfiACPIReclaimMemory) descs ->
  Forall (fun a => is_page a /\ a <> 0) (map_pages descs) ->
  NoDup (f :: map_pages descs) -> map_pages descs <> [] ->
  exists p, mm_physical_init descs s = Ok (tt, mkP (ram s) (cr3 s) p) /\
    is_pmm (gp p) (gchain p) /\
    frames (gchain p) ++ free_pages (gchain p) ≡ₚ f :: map_pages descs /\
    let n := Z.of_nat (length (map_pages descs)) in
    Z.of_nat (length (free_pages (gchain p))) = n - (n - 1) / 509.
Proof.
  intros Hok Hc Hty Hpg Hnd Hne.
  destruct (init_spec descs s) as (p & Hr & Hg & Hp); try done.
  { rewrite Hc. cbn. by rewrite <-Permutation_cons_append. }
  rewrite Hc in Hg. exists p. split; [done|]. split; [done|]. rewrite Hg. split.
  - rewrite marks_perm by done. cbn. by rewrite <-Permutation_cons_append.
  - by apply marks_count.
Qed.

Lemma mm_physical_init_accounts_witness :
  let descs := [ {| Type_ := EfiConventionalMemory; PhysicalStart := 0x100000; NumberOfPages := 3 |};
                 {| Type_ := EfiReservedMemoryType; PhysicalStart := 0x200000; NumberOfPages := 5 |};
                 {| Type_ := EfiBootServicesData; PhysicalStart := 0x300000; NumberOfPages := 2 |} ] in
  exists p, mm_physical_init descs (mkP ∅ 0x1000 (mkG pmm_root [(0x9000, [])])) =
      Ok (tt, mkP ∅ 0x1000 p) /\
    is_pmm (gp p) (gchain p) /\
    frames (gchain p) ++ free_pages (gchain p) ≡ₚ 0x9000 :: map_pages descs /\
    Z.of_nat (length (free_pages (gchain p))) = 5 - (5 - 1) / 509.
Proof.
  apply (mm_physical_init_accounts (mkP ∅ 0x1000 (mkG pmm_root [(0x9000, [])])) 0x9000).
  - apply pmm_root_ok.
  - done.
  - apply (bool_decide_unpack _). vm_compute. done.
  - apply (bool_decide_unpack _). vm_compute. done.
  - apply (bool_decide_unpack _). vm_compute. done.
  - done.
Defined.
