(* ===== verification/BootTables.v ===== *)
(** The page tables set up at boot: the window of the page allocator's current stack ([mm_physical_init_stack] of kernel/mm/physical.c),
    made from tables of the kernel image before there are pages to hand out, and the switch that follows
    ([mm_page_tables_commit] of kernel/mm/page_tables.c). *)
From S2P Require Import Prelude Paging Pmm.
Import MMU.

Section init.
Context {P : Type} `{!PageSource P}.
(** The addresses of the static arrays. *)
Variables (stack_pml3 stack_pml2 stack_pml1 root_stack : Z).

(** [if(!(tbl[i] & PAGE_PRESENT)) { tbl[i] = mm_virtual_get_phys((uintptr_t) &array) | P | W; memset(next, 0, 0x1000); }] *)
Definition static_table (tbl i next array : Z) : cmd (pst P) unit :=
  e ← vread (tbl + 8 * i);
  if decide (e .& PAGE_PRESENT = 0) then
    a ← mm_virtual_get_phys array;
    _ ← vwrite (tbl + 8 * i) (a .| PAGE_PRESENT .| PAGE_WRITE);
    vclear next
  else mret tt.

(** Answers [mm_physical_stack_pml1] and [root_stack_phys]. The last [memset] clears one word: [sizeof( *root_stack)] is 8. *)
Definition mm_physical_init_stack : cmd (pst P) (Z * Z) :=
  let i := mm_virtual_indices STACK_ADDR in
  _ ← static_table (pml4 i) (pml4i i) (pml3 i) stack_pml3;
  _ ← static_table (pml3 i) (pml3i i) (pml2 i) stack_pml2;
  _ ← static_table (pml2 i) (pml2i i) (pml1 i) stack_pml1;
  root_stack_phys ← mm_virtual_get_phys root_stack;
  _ ← mm_virtual_map 2 root_stack_phys STACK_ADDR 1 (PAGE_PRESENT .| PAGE_WRITE);
  _ ← vwrite (pml1 i + 8 * 511) (root_stack_phys .| PAGE_PRESENT .| PAGE_WRITE);
  _ ← vwrite root_stack 0;
  mret (pml1 i, root_stack_phys).
End init.

(** ** The same memory with other pages to hand out *)
Lemma for_n_pages {P P'} (m : gmap Z Z) c (pg : P) (pg' : P') body body' n : forall from s',
  (forall k m, match body k (mkP m c pg) with Ok (_, s1) => exists m1, s1 = mkP m1 c pg /\ body' k (mkP m c pg') = Ok (tt, mkP m1 c pg') | Stop _ => True end) ->
  for_n n from body (mkP m c pg) = Ok (tt, s') -> exists m', s' = mkP m' c pg /\ for_n n from body' (mkP m c pg') = Ok (tt, mkP m' c pg').
Proof.
  revert m. induction n as [|n IH]; intros m from s' Hb H; cbn [for_n] in *.
  - injection H as <-. by exists m.
  - apply bind_inv in H as ([] & s1 & H1 & H). pose proof (Hb from m) as Hb1. rewrite H1 in Hb1. destruct Hb1 as (m1 & -> & E). destruct (IH m1 (from + 1) s' Hb H) as (m' & -> & E'). exists m'. split; [done|].
    by rewrite (bind_ok _ _ _ _ _ E).
Qed.

Lemma vclear_pages {P P'} `{!PageSource P} `{!PageSource P'} m c (pg : P) (pg' : P') next s' : vclear next (mkP m c pg) = Ok (tt, s') ->
  exists m', s' = mkP m' c pg /\ vclear next (mkP m c pg') = Ok (tt, mkP m' c pg').
Proof.
  apply for_n_pages. intros k m1. unfold vwrite. cbn [ram cr3 pages]. destruct (walk m1 c _); [|done]. by eexists.
Qed.

Section boot.
Context {P : Type} `{!PageSource P}.

(** What [pt_ok] says of a state is said of its tables and the list of free pages. *)
Lemma pt_ok_pages (m : gmap Z Z) c (pg : P) : page_wf pg -> pt_ok (mkP m c (avail pg) : pst (list Z)) -> pt_ok (mkP m c pg).
Proof. intros Hw [H1 H2 H3 H4 _ H6 H7 H8]. by split. Qed.
Lemma pt_ok_fewer (m : gmap Z Z) c (l l' : list Z) : (forall a, a ∈ l' -> a ∈ l) -> NoDup l' -> pt_ok (mkP m c l : pst (list Z)) -> pt_ok (mkP m c l' : pst (list Z)).
Proof.
  intros Hs Hn [H1 H2 H3 H4 H5 H6 H7 H8]. cbn in *. split; try done; cbn; [|intros a Ha; by apply H8, Hs]. rewrite Forall_forall in H6 |- *. intros a Ha. by apply H6, Hs.
Qed.
Lemma pt_ok_drop (m : gmap Z Z) c (l l' : list Z) : pt_ok (mkP m c (l ++ l') : pst (list Z)) -> pt_ok (mkP m c l' : pst (list Z)).
Proof.
  intros H. pose proof (ok_nodup _ H) as Hn. cbn in Hn. apply NoDup_app in Hn as (_ & _ & Hn). apply (pt_ok_fewer m c (l ++ l')); [|done|done]. intros a Ha. apply elem_of_app. by right.
Qed.

(** A static array takes the place of a page handed out. *)
Lemma static_table_spec m c (pg : P) a l p i t array : let s := mkP m c pg in pt_ok (mkP m c (a :: l) : pst (list Z)) -> tpath (p ++ [i]) -> (length p <= 2)%nat ->
  table m c p = Some t -> mm_virtual_get_phys array s = Ok (a, s) ->
  exists m', static_table (win p) i (win (p ++ [i])) array s = Ok (tt, mkP m' c pg) /\ pt_ok (mkP m' c l : pst (list Z)) /\ is_Some (table m' c (p ++ [i])) /\
    forall q, tpath q -> (length q <= 4)%nat -> q <> p ++ [i] -> table m' c q = table m c q.
Proof.
  intros s Hok Hpi Hlp Ht Hget. set (sl := mkP m c (a :: l) : pst (list Z)) in *.
  destruct (ensure_table_spec sl p i t Hok Hpi Hlp Ht) as (s' & Hrun & Hok' & (_ & _ & Hq) & Hsome); [done|]. destruct (tpath_app _ _ Hpi) as [Hp Hi].
  pose proof (vread_win sl p t i Hok Hp ltac:(lia) Ht Hi) as Hv. unfold ensure_table in Hrun. rewrite (bind_ok _ _ _ _ _ Hv) in Hrun. change (ram sl) with m in Hrun.
  assert (Hv' : vread (win p + 8 * i) s = Ok (rd m (t + 8 * i), s)).
  { revert Hv. unfold vread. cbn [ram cr3 sl s]. destruct (walk m c _); [|done]. intros [= E]. by rewrite E. }
  unfold static_table. rewrite (bind_ok _ _ _ _ _ Hv'). destruct (decide (rd m (t + 8 * i) .& PAGE_PRESENT = 0)) as [Hpres|Hpres].
  - assert (Hpop : Paging.mm_physical_get sl = Ok (a, mkP m c l)) by done.
    rewrite (bind_ok _ _ _ _ _ Hpop) in Hrun. rewrite (bind_ok _ _ _ _ _ Hget). apply bind_inv in Hrun as ([] & s1 & Hw & Hcl).
    assert (Hw' : exists m1, s1 = mkP m1 c l /\ vwrite (win p + 8 * i) (a .| PAGE_PRESENT .| PAGE_WRITE) s = Ok (tt, mkP m1 c pg)).
    { revert Hw. unfold vwrite. cbn [ram cr3 pages s]. destruct (walk m c _); [|done]. intros [= <-]. by eexists. }
    destruct Hw' as (m1 & -> & Hw'). rewrite (bind_ok _ _ _ _ _ Hw'). destruct (vclear_pages m1 c l pg _ _ Hcl) as (m' & -> & Hcl'). exists m'. done.
  - injection Hrun as <-. exists m. split; [done|]. split; [by apply (pt_ok_drop m c [a] l)|]. done.
Qed.

(** A table that is there is left alone. *)
Lemma ensure_present (s : pst P) p i t t' next : pt_ok s -> tpath (p ++ [i]) -> (length p <= 2)%nat -> table (ram s) (cr3 s) p = Some t -> table (ram s) (cr3 s) (p ++ [i]) = Some t' ->
  ensure_table (win p) i next s = Ok (tt, s).
Proof.
  intros Hok Hpi Hlp Ht Ht'. destruct (tpath_app _ _ Hpi) as [Hp Hi]. unfold ensure_table. rewrite (bind_ok _ _ _ _ _ (vread_win s p t i Hok Hp ltac:(lia) Ht Hi)).
  rewrite table_snoc, Ht in Ht'. unfold step, entry_page in Ht'. destruct (present _) eqn:E; [|done]. rewrite decide_False; [done|]. rewrite present_flag. congruence.
Qed.

(** Mapping a page whose tables are there takes none. *)
Lemma map_present fuel (s : pst P) phys virt flags t : pt_ok s -> range_ok virt 1 -> table (ram s) (cr3 s) [idx 3 virt; idx 2 virt; idx 1 virt] = Some t ->
  exists s', mm_virtual_map (S fuel) phys virt 1 flags s = Ok (tt, s') /\ pt_ok s' /\ cr3 s' = cr3 s /\ pages s' = pages s /\ maps s s' phys virt 1 flags /\
    forall q, tpath q -> (length q <= 3)%nat -> table (ram s') (cr3 s) q = table (ram s) (cr3 s) q.
Proof.
  intros Hok Hr Ht. destruct (range_fits virt 1 0 Hr) as (Hf & _ & Htp); [lia|]. rewrite Z.mul_0_r, Z.add_0_r in Hf, Htp.
  pose proof (indices_idx virt Hf) as E. destruct (indices_windows virt Hf) as (W4 & W3 & W2 & W1). cbn [mm_virtual_map]. cbv zeta in *. set (i := mm_virtual_indices virt) in *. clearbody i. unfold path_of in *. injection E as I4 I3 I2 I1. rewrite W4, W3, W2, W1, I4, I3, I2, I1.
  set (a := idx 3 virt) in *. set (b := idx 2 virt) in *. set (c := idx 1 virt) in *.
  assert (T3 : tpath [a; b; c]) by (apply (tpath_app [a; b; c] (idx 0 virt)); exact Htp). assert (T2 : tpath [a; b]) by (apply (tpath_app [a; b] c); exact T3). assert (T1 : tpath [a]) by (apply (tpath_app [a] b); exact T2).
  assert (E2 : exists t2, table (ram s) (cr3 s) [a; b] = Some t2) by (change [a; b; c] with ([a; b] ++ [c]) in Ht; rewrite table_snoc in Ht; destruct (table _ _ [a; b]); [by eexists|done]). destruct E2 as [t2 E2].
  assert (E1 : exists t1, table (ram s) (cr3 s) [a] = Some t1) by (change [a; b] with ([a] ++ [b]) in E2; rewrite table_snoc in E2; destruct (table _ _ [a]); [by eexists|done]). destruct E1 as [t1 E1].
  rewrite (bind_ok _ _ _ _ _ (ensure_present s [] a (cr3 s) t1 _ Hok T1 ltac:(simpl; lia) eq_refl E1)).
  rewrite (bind_ok _ _ _ _ _ (ensure_present s [a] b t1 t2 _ Hok T2 ltac:(simpl; lia) E1 E2)).
  rewrite (bind_ok _ _ _ _ _ (ensure_present s [a; b] c t2 t _ Hok T3 ltac:(simpl; lia) E2 Ht)).
  pose proof (idx_range 0 virt) as Hc. destruct (map_loop_spec 513 s _ t phys 1 flags (idx 0 virt) 0 Hok T3) as (n1 & s' & Hl & Hn1 & Hok' & C & Pg & In & Out); [done|done|lia..|].
  assert (n1 = 1) as -> by lia. rewrite (bind_ok _ _ _ _ _ Hl). rewrite decide_False by lia. exists s'. split; [done|]. split; [done|]. split; [done|]. split; [done|]. destruct Hr as (Hal & _). split; [split|].
  - intros k Hk. rewrite path_add by (done || lia). rewrite In by lia. done.
  - intros q Hq Hlq Hne. apply Out; [done|lia|]. intros k Hk Eq. apply (Hne k Hk). rewrite Eq. symmetry. apply path_add; [done|lia|lia].
  - intros q Hq Hlq. apply Out; [done|lia|]. intros k Hk ->. simpl in Hlq. lia.
Qed.

(** A word of a page that is no table. *)
Lemma page_write (s : pst P) a i v : pt_ok s -> is_page a -> ~ is_table (ram s) (cr3 s) a -> index i -> let m' := <[a + 8 * i := v]> (ram s) in
  pt_ok (mkP m' (cr3 s) (pages s)) /\ forall q, tpath q -> (length q <= 4)%nat -> table m' (cr3 s) q = table (ram s) (cr3 s) q.
Proof.
  intros Hok Ha Hnt Hi m'. pose proof (ok_cr3 s Hok) as Hc.
  assert (Hrd : forall q j t, tpath q -> index j -> (length q <= 3)%nat -> table (ram s) (cr3 s) q = Some t -> rd m' (t + 8 * j) = rd (ram s) (t + 8 * j)).
  { intros q j t Hq Hj Hlq Ht. apply rd_insert_ne. intros E. apply entry_addr_inj in E as [-> _]; [|done|by eauto using table_page|done|done]. apply Hnt. by exists q. }
  assert (Hall : forall q, tpath q -> (length q <= 4)%nat -> table m' (cr3 s) q = table (ram s) (cr3 s) q).
  { intros q Hq Hlq. apply table_ext_path. intros q1 j t [r Hr] Ht. rewrite Hr in Hq, Hlq. rewrite !length_app in Hlq. cbn in Hlq.
    assert (Hqj : tpath (q1 ++ [j])) by (destruct Hq as [Hf Hh]; apply Forall_app in Hf as [Hf _]; split; [done|]; by destruct q1).
    apply tpath_app in Hqj as [Hq1 Hj]. apply (Hrd q1); [done|done|lia|done]. }
  split; [|done]. constructor; cbn [ram cr3 pages]; try by destruct Hok.
  - destruct (ok_self s Hok) as [H1 H2]. unfold self_mapped, step. rewrite (Hrd [] 510); [done|by repeat constructor|unfold index; lia|cbn; lia|done].
  - intros q j t Hq Hj Hlq Ht. rewrite Hall in Ht by (done || lia). rewrite (Hrd q) by (done || lia). by apply (ok_large s Hok q).
  - intros q1 q2 t Hq1 Hq2 Hl1 Hl2 H1 H2. rewrite Hall in H1, H2 by (done || lia). by apply (ok_distinct s Hok q1 q2 t).
  - intros b Hb (q & Hq & Hlq & Hqt). rewrite Hall in Hqt by (done || lia). apply (ok_fresh s Hok b Hb). by exists q.
Qed.

(** The array at [va] is the page [a]. *)
Definition at_page (s : pst P) (va a : Z) : Prop :=
  va mod 4096 = 0 /\ canonical va = true /\ idx 3 va <> 510 /\ va <> STACK_ADDR /\ walk (ram s) (cr3 s) va = Some a.

(** The kernel image before the allocator runs: the static arrays are pages of their own, neither tables nor free. *)
Record boot_image (s : pst P) (v3 a3 v2 a2 v1 a1 vr root : Z) : Prop := {
  bi_ok : pt_ok (mkP (ram s) (cr3 s) ([a3; a2; a1; root] ++ avail (pages s)) : pst (list Z));
  bi_wf : page_wf (pages s);
  bi_3 : at_page s v3 a3; bi_2 : at_page s v2 a2; bi_1 : at_page s v1 a1; bi_root : at_page s vr root }.

Lemma at_path (s : pst P) va a : pt_ok s -> at_page s va a -> table (ram s) (cr3 s) (path_of va) = Some a /\ tpath (path_of va) /\ fits 64 va /\ path_of va <> path_of STACK_ADDR.
Proof.
  intros Hok (Hm & Hc & Hi & Hne & Hw). rewrite walk_tpath in Hw by done. destruct (table _ _ _) as [t|]; [|done]. injection Hw as <-.
  split; [f_equal; change (2 ^ 12) with 4096; lia|]. split; [split; [apply path_of_index|cbn; congruence]|]. split.
  - apply bool_decide_eq_true in Hc. unfold HIGHER_HALF in Hc. unfold fits. lia.
  - intros E. apply Hne. by apply path_inj.
Qed.

Lemma get_phys_at (s : pst P) va a : pt_ok s -> tpath (path_of va) -> fits 64 va -> table (ram s) (cr3 s) (path_of va) = Some a -> mm_virtual_get_phys va s = Ok (a, s).
Proof.
  intros Hok Htp Hf Ht. assert (Hi : idx 3 va <> 510) by (destruct Htp as [_ Hh]; cbn in Hh; congruence). destruct (read_leaf_spec s va Hok Hf Hi) as (e & Hrun & E & _). rewrite Ht in E. destruct (present e); [|done]. injection E as <-.
  unfold mm_virtual_get_phys. by rewrite (bind_ok _ _ _ _ _ Hrun).
Qed.

Lemma stack_range : range_ok STACK_ADDR 1.
Proof. split; [done|]. split; [unfold HIGHER_HALF, STACK_ADDR; lia|]. intros k Hk. assert (k = 0) as -> by lia. by vm_compute. Qed.
Lemma stack_path : path_of STACK_ADDR = [509; 511; 511] ++ [511].
Proof. by vm_compute. Qed.
Lemma stack_tpath : tpath [509] /\ tpath [509; 511] /\ tpath [509; 511; 511] /\ tpath [509; 511; 511; 511].
Proof. repeat split; try (by cbn); repeat constructor; unfold index; lia. Qed.
Lemma stack_indices : let i := mm_virtual_indices STACK_ADDR in pml4i i = 509 /\ pml3i i = 511 /\ pml2i i = 511 /\ pml4 i = win [] /\ pml3 i = win [509] /\ pml2 i = win [509; 511] /\ pml1 i = win [509; 511; 511].
Proof. by vm_compute. Qed.

(** The three tables of the window. *)
Lemma stack_tables (s : pst P) v3 a3 v2 a2 v1 a1 vr root : boot_image s v3 a3 v2 a2 v1 a1 vr root -> exists s1 s2 m t,
  static_table (win []) 509 (win [509]) v3 s = Ok (tt, s1) /\ static_table (win [509]) 511 (win [509; 511]) v2 s1 = Ok (tt, s2) /\
  static_table (win [509; 511]) 511 (win [509; 511; 511]) v1 s2 = Ok (tt, mkP m (cr3 s) (pages s)) /\
  pt_ok (mkP m (cr3 s) (root :: avail (pages s)) : pst (list Z)) /\ table m (cr3 s) [509; 511; 511] = Some t /\
  forall q, tpath q -> length q = 4%nat -> table m (cr3 s) q = table (ram s) (cr3 s) q.
Proof.
  intros [H0 Hw B3 B2 B1 Br]. destruct s as [m0 c pg]. cbn [ram cr3 pages] in *.
  assert (Hok0 : pt_ok (mkP m0 c pg)) by (apply pt_ok_pages; [done|]; by apply (pt_ok_drop m0 c [a3; a2; a1; root])).
  destruct (at_path _ _ _ Hok0 B3) as (T3 & P3 & F3 & _). destruct (at_path _ _ _ Hok0 B2) as (T2 & P2 & F2 & _). destruct (at_path _ _ _ Hok0 B1) as (T1 & P1 & F1 & _). cbn [ram cr3] in *.
  assert (Hn : forall p : list Z, (length p < 4)%nat -> forall q, length q = 4%nat -> q <> p) by (intros p Hp q Hq ->; lia).
  destruct (static_table_spec m0 c pg a3 ([a2; a1; root] ++ avail pg) [] 509 c v3 H0) as (m1 & R1 & H1 & [t1 E1] & Q1); [apply stack_tpath|cbn; lia|done|by apply get_phys_at|].
  assert (Hok1 : pt_ok (mkP m1 c pg)) by (apply pt_ok_pages; [done|]; by apply (pt_ok_drop m1 c [a2; a1; root])).
  destruct (static_table_spec m1 c pg a2 ([a1; root] ++ avail pg) [509] 511 t1 v2 H1) as (m2 & R2 & H2 & [t2 E2] & Q2); [apply stack_tpath|cbn; lia|done|apply get_phys_at; [done|done|done|cbn [ram cr3]; rewrite Q1; [done|done|cbn; lia|by apply Hn; cbn; lia]]|].
  assert (Hok2 : pt_ok (mkP m2 c pg)) by (apply pt_ok_pages; [done|]; by apply (pt_ok_drop m2 c [a1; root])).
  destruct (static_table_spec m2 c pg a1 ([root] ++ avail pg) [509; 511] 511 t2 v1 H2) as (m3 & R3 & H3 & [t3 E3] & Q3); [apply stack_tpath|cbn; lia|done|apply get_phys_at; [done|done|done|cbn [ram cr3]; rewrite Q2, Q1; [done|done|cbn; lia|by apply Hn; cbn; lia|done|cbn; lia|by apply Hn; cbn; lia]]|].
  exists (mkP m1 c pg), (mkP m2 c pg), m3, t3. split; [done|]. split; [done|]. split; [done|]. split; [done|]. split; [done|].
  intros q Hq Hl. rewrite Q3, Q2, Q1; try done; try lia; apply Hn; cbn; lia.
Qed.

Lemma init_stack_ok (s : pst P) v3 a3 v2 a2 v1 a1 vr root : boot_image s v3 a3 v2 a2 v1 a1 vr root -> exists s' t,
  mm_physical_init_stack v3 v2 v1 vr s = Ok ((win [509; 511; 511], root), s') /\ pt_ok s' /\ cr3 s' = cr3 s /\ pages s' = pages s /\
  maps s s' root STACK_ADDR 1 (PAGE_PRESENT .| PAGE_WRITE) /\ rd (ram s') root = 0 /\
  table (ram s') (cr3 s) [509; 511; 511] = Some t /\ rd (ram s') (t + 8 * 511) = root .| PAGE_PRESENT .| PAGE_WRITE.
Proof.
  intros H. destruct (stack_tables s _ _ _ _ _ _ _ _ H) as (s1 & s2 & m & t & R1 & R2 & R3 & Hl & Ht & Hq). destruct H as [H0 Hw _ _ _ Br]. set (c := cr3 s) in *. set (pg := pages s) in *.
  assert (Hok0 : pt_ok s) by (destruct s as [m0 c0 pg0]; apply pt_ok_pages; [done|]; by apply (pt_ok_drop m0 c0 [a3; a2; a1; root])).
  destruct (at_path s vr root Hok0 Br) as (Tr & Pr & Fr & Nr). change (cr3 s) with c in Tr.
  assert (Hroot : is_page root) by (pose proof (ok_avail _ Hl) as Ha; by apply Forall_cons in Ha as [Ha _]).
  assert (Hok1 : pt_ok (mkP m c pg)) by (apply pt_ok_pages; [done|]; by apply (pt_ok_drop m c [root])).
  pose proof (get_phys_at (mkP m c pg) vr root Hok1 Pr Fr) as Hget. cbn [ram cr3] in Hget. rewrite Hq in Hget by done. specialize (Hget Tr).
  destruct (map_present 1 (mkP m c pg) root STACK_ADDR (PAGE_PRESENT .| PAGE_WRITE) t Hok1 stack_range Ht) as (s3 & Hmap & Hok2 & C2 & G2 & [M2 Q2] & Q3). destruct s3 as [m2 c2 pg2]. cbn [ram cr3 pages] in *. subst c2 pg2.
  specialize (M2 0 ltac:(lia)). rewrite Z.mul_0_r, Z.add_0_r, stack_path in M2.
  destruct (leaf_write (mkP m2 c pg) [509; 511; 511] t 511 (root .| PAGE_PRESENT .| PAGE_WRITE) Hok2) as (Hwr & Hok3 & M3 & Q4); [apply stack_tpath|done|cbn [ram cr3]; rewrite Q3; [done|apply stack_tpath|cbn; lia]|].
  cbn [ram cr3 pages] in *. set (m3 := <[t + 8 * 511 := _]> m2) in *.
  (* the root stack is still no table *)
  assert (Hnt : ~ is_table m3 c root).
  { intros (q & Hqt & Hlq & E). apply (ok_fresh _ Hl root); [left|]. exists q. split; [done|]. split; [done|]. cbn [ram cr3]. rewrite <-Q3, <-Q4; try done; try lia. intros ->. cbn in Hlq. lia. }
  destruct (page_write (mkP m3 c pg) root 0 0 Hok3 Hroot Hnt) as [Hok4 Q5]; [done|]. cbn [ram cr3 pages] in *. rewrite Z.mul_0_r, Z.add_0_r in *. set (m4 := <[root := 0]> m3) in *.
  assert (Hv : vwrite vr 0 (mkP m3 c pg) = Ok (tt, mkP m4 c pg)).
  { unfold vwrite. cbn [ram cr3 pages]. destruct Br as (Hm & Hc & Hi & _ & Hw0). change (ram (mkP m3 c pg)) with m3. pose proof (walk_tpath (mkP m3 c pg) vr Hok3 Hc Hi) as Ew. cbn [ram cr3] in Ew. rewrite Ew.
    rewrite Q4, Q2, Hq, Tr by (done || lia || (intros k Hk; by replace (STACK_ADDR + 4096 * k) with STACK_ADDR by lia) || (rewrite stack_path in Nr; done)). cbn. change (2 ^ 12) with 4096. by rewrite Hm, Z.add_0_r. }
  exists (mkP m4 c pg), t. cbn [ram cr3 pages]. assert (Tt : table m3 c [509; 511; 511] = Some t) by (rewrite Q4, Q3; [done|apply stack_tpath|cbn; lia|apply stack_tpath|cbn; lia|done]).
  split; [|split; [done|split; [done|split; [done|split; [split|split; [|split]]]]]].
  - unfold mm_physical_init_stack. destruct stack_indices as (-> & -> & -> & -> & -> & -> & ->). cbv zeta.
    rewrite (bind_ok _ _ _ _ _ R1), (bind_ok _ _ _ _ _ R2), (bind_ok _ _ _ _ _ R3), (bind_ok _ _ _ _ _ Hget), (bind_ok _ _ _ _ _ Hmap), (bind_ok _ _ _ _ _ Hwr), (bind_ok _ _ _ _ _ Hv). done.
  - intros k Hk. assert (k = 0) as -> by lia. rewrite Z.mul_0_r, Z.add_0_r, stack_path. rewrite Q5, M3 by (apply stack_tpath || (cbn; lia)).
    rewrite or_flags by done. rewrite entry_page_add by (done || (unfold fits; lia)). destruct Hroot as [[Hr0 Hr1] Hrm].
    rewrite map_entry_page by (done || lia). by rewrite Z.mul_0_r, Z.add_0_r.
  - intros q Hqt Hl4 Hne. rewrite Q5, Q4, Q2, Hq by (done || lia || (rewrite <-stack_path; intros ->; apply (Hne 0); [lia|by rewrite Z.mul_0_r, Z.add_0_r])). done.
  - apply rd_insert_eq.
  - rewrite Q5 by (apply stack_tpath || (cbn; lia)). done.
  - unfold m4. rewrite rd_insert_ne; [apply rd_insert_eq|]. intros E. apply Hnt. exists [509; 511; 511]. split; [apply stack_tpath|]. split; [cbn; lia|]. rewrite Tt.
    assert (Hp : is_page t) by (apply (table_page m3 c [509; 511; 511]); [by apply (ok_cr3 _ Hok3)|done]). rewrite <-(Z.add_0_r root) in E. change (root + 0) with (root + 8 * 0) in E. symmetry in E. by apply entry_addr_inj in E as [-> _].
Qed.

(** ** [mm_page_tables_commit] *)
Definition STACK_PML1 : Z := pml1 (mm_virtual_indices STACK_ADDR).

(** The window entry that [mm_physical_stack_pml1] holds at index 511 is entry 511 of the table [t], and it is in use. *)
Definition window_at (s : pst P) (t : Z) : Prop :=
  table (ram s) (cr3 s) [509; 511; 511] = Some t /\ present (rd (ram s) (t + 8 * 511)) = true.

Lemma masks_apart e : base (e .& 0xFFF0000000000FFF) = 0.
Proof. unfold base. rewrite <-Z.land_assoc. change (0xFFF0000000000FFF .& 0x000FFFFFFFFFF000) with 0. apply Z.land_0_r. Qed.
Lemma mask_present e : present (e .& 0xFFF0000000000FFF) = present e.
Proof. unfold present. rewrite Z.land_spec. change (Z.testbit 0xFFF0000000000FFF 0) with true. apply andb_true_r. Qed.

(** Mapping the window again with the page and the flags it has changes no translation. *)
Lemma remap_window fuel (s : pst P) t : pt_ok s -> window_at s t -> let e := rd (ram s) (t + 8 * 511) in exists s',
  mm_virtual_map (S fuel) (base e) STACK_ADDR 1 (e .& 0xFFF0000000000FFF) s = Ok (tt, s') /\ pt_ok s' /\ cr3 s' = cr3 s /\ pages s' = pages s /\ window_at s' t /\
  forall q, tpath q -> (length q <= 4)%nat -> table (ram s') (cr3 s) q = table (ram s) (cr3 s) q.
Proof.
  intros Hok [Ht Hp] e. destruct (map_present fuel s (base e) STACK_ADDR (e .& 0xFFF0000000000FFF) t Hok stack_range Ht) as (s' & Hrun & Hok' & C & G & [M Q] & Q3). exists s'.
  destruct (base_page e) as [[Hb0 Hb1] Hbm]. specialize (M 0 ltac:(lia)).
  rewrite Z.mul_0_r, Z.add_0_r, map_entry_page, Z.mul_0_r, Z.add_0_r in M by (done || lia || apply masks_apart || (rewrite mask_present; exact Hp)).
  assert (E : table (ram s) (cr3 s) (path_of STACK_ADDR) = Some (base e)) by (rewrite stack_path, table_snoc, Ht; unfold step, entry_page; fold e; unfold e in *; by rewrite Hp).
  assert (Q4 : forall q, tpath q -> (length q <= 4)%nat -> table (ram s') (cr3 s) q = table (ram s) (cr3 s) q).
  { intros q Hq Hl. destruct (decide (length q = 4%nat)) as [H4|H4]; [|apply Q3; [done|lia]]. destruct (decide (q = path_of STACK_ADDR)) as [->|Hne]; [by rewrite M, E|].
    apply Q; [done|done|]. intros k Hk. assert (k = 0) as -> by lia. by rewrite Z.mul_0_r, Z.add_0_r. }
  split; [done|]. split; [done|]. split; [done|]. split; [done|]. split; [|done].
  assert (Ht' : table (ram s') (cr3 s) [509; 511; 511] = Some t) by (rewrite Q4; [done|apply stack_tpath|cbn; lia]). split; [by rewrite C|].
  rewrite stack_path, table_snoc, Ht' in M. unfold step, entry_page in M. by destruct (present (rd (ram s') (t + 8 * 511))).
Qed.
End boot.

(** The registers [mm_page_tables_commit] sets, with the page tables. *)
Record boot_st {P : Type} := mkBoot { space : pst P; msrs : gmap Z Z; cr4 : Z; mm_physical_stack_pml1 : Z }.
Arguments boot_st P : clear implicits.
Arguments mkBoot {P} _ _ _ _.

Section commit.
Context {P : Type} `{!PageSource P}.
Definition on_tables {B} (c : cmd (pst P) B) : cmd (boot_st P) B := fun s =>
  match c (space s) with Ok (b, t) => Ok (b, mkBoot t (msrs s) (cr4 s) (mm_physical_stack_pml1 s)) | Stop w => Stop w end.
Definition msr_read (r : Z) : cmd (boot_st P) Z := gets (fun s => default 0 (msrs s !! r)).
Definition msr_write (r v : Z) : cmd (boot_st P) unit := modify (fun s => mkBoot (space s) (<[r := v]> (msrs s)) (cr4 s) (mm_physical_stack_pml1 s)).
Definition cr4_read : cmd (boot_st P) Z := gets cr4.
Definition cr4_write (v : Z) : cmd (boot_st P) unit := modify (fun s => mkBoot (space s) (msrs s) v (mm_physical_stack_pml1 s)).
Definition MSR_EFER : Z := 0xC0000080.

(** [bsp] is the address of the boot processor's structure. *)
Definition mm_page_tables_commit (bsp : Z) : cmd (boot_st P) unit :=
  pml1a ← gets mm_physical_stack_pml1;
  e ← on_tables (vread (pml1a + 8 * 511));
  let pmm_stack_addr := e .& 0x000FFFFFFFFFF000 in
  let pmm_stack_flags := e .& 0xFFF0000000000FFF in
  _ ← on_tables (mm_virtual_map 2 pmm_stack_addr STACK_ADDR 1 pmm_stack_flags);
  efer ← msr_read MSR_EFER;
  _ ← msr_write MSR_EFER (efer .| 0x800);
  c ← cr4_read;
  _ ← cr4_write (c .| 0x10);
  _ ← msr_write MSR_GS_BASE bsp;
  _ ← msr_write MSR_GS_KERNEL_BASE bsp;
  modify (fun s => mkBoot (space s) (msrs s) (cr4 s) (pml1 (mm_virtual_indices STACK_ADDR))).

Lemma on_tables_bind {A B} (c : cmd (pst P) A) (k : A -> cmd (boot_st P) B) s a t : c (space s) = Ok (a, t) ->
  (on_tables c ≫= k) s = k a (mkBoot t (msrs s) (cr4 s) (mm_physical_stack_pml1 s)).
Proof. intros H. apply bind_ok. unfold on_tables. by rewrite H. Qed.

(** No translation changes; execution protection and large pages are on, and both bases are the boot processor's. *)
Definition committed (bsp : Z) (s s' : boot_st P) : Prop :=
  pt_ok (space s') /\ cr3 (space s') = cr3 (space s) /\ pages (space s') = pages (space s) /\ mm_physical_stack_pml1 s' = STACK_PML1 /\
  (forall va, canonical va = true -> idx 3 va <> 510 -> walk (ram (space s')) (cr3 (space s')) va = walk (ram (space s)) (cr3 (space s)) va) /\
  cr4 s' = cr4 s .| 0x10 /\ msrs s' !! MSR_EFER = Some (default 0 (msrs s !! MSR_EFER) .| 0x800) /\
  msrs s' !! MSR_GS_BASE = Some bsp /\ msrs s' !! MSR_GS_KERNEL_BASE = Some bsp.

Lemma commit_ok bsp (s : boot_st P) t : pt_ok (space s) -> mm_physical_stack_pml1 s = STACK_PML1 -> window_at (space s) t ->
  exists s', mm_page_tables_commit bsp s = Ok (tt, s') /\ committed bsp s s' /\ window_at (space s') t.
Proof.
  intros Hok Hpml Hw. destruct (remap_window 1 (space s) t Hok Hw) as (sp & Hrun & Hok' & C & G & Hw' & Q). cbv zeta in Hrun. destruct Hw as [Ht _].
  assert (Hv : vread (STACK_PML1 + 8 * 511) (space s) = Ok (rd (ram (space s)) (t + 8 * 511), space s)).
  { unfold STACK_PML1. destruct stack_indices as (_ & _ & _ & _ & _ & _ & ->). apply vread_win; [done|apply stack_tpath|cbn; lia|done|done]. }
  destruct s as [s0 ms c4 pm]. cbn [space mm_physical_stack_pml1] in *. subst pm. eexists. split.
  - unfold mm_page_tables_commit. erewrite bind_ok by reflexivity. cbn [mm_physical_stack_pml1]. erewrite on_tables_bind by exact Hv. cbn [space msrs cr4 mm_physical_stack_pml1]. erewrite on_tables_bind by exact Hrun. reflexivity.
  - cbn. split; [|done]. split; [done|]. split; [done|]. split; [done|]. split; [done|]. split.
    + intros va Hc Hi. rewrite !walk_tpath by done.
      cbn [space] in *. rewrite C, Q; [done| |cbn; lia]. split; [apply path_of_index|cbn; congruence].
    + split; [done|]. cbn [msrs]. split; [|split; [|apply lookup_insert_eq]]; rewrite !lookup_insert_ne by done; apply lookup_insert_eq.
Qed.
End commit.

(** ** Properties *)

(** C8: the tables of the page allocator at boot. From the tables the firmware left, whatever part of the window they have, with the static arrays of the image in
    pages of their own, [mm_physical_init_stack] needs no page: it returns, the root stack is mapped at [STACK_ADDR] and nothing else is translated differently,
    the entry the allocator switches stacks with is the one the hardware uses, and the root stack has no predecessor. From any later state with this window,
    [mm_page_tables_commit] changes no translation, and turns on execution protection before the first use of the bit. *)
Theorem boot_window {P} `{!PageSource P} (s : pst P) v3 a3 v2 a2 v1 a1 vr root : boot_image s v3 a3 v2 a2 v1 a1 vr root ->
  (exists s' t, mm_physical_init_stack v3 v2 v1 vr s = Ok ((STACK_PML1, root), s') /\ pt_ok s' /\ pages s' = pages s /\ window_at s' t /\
    rd (ram s') (t + 8 * 511) = root .| PAGE_PRESENT .| PAGE_WRITE /\ rd (ram s') root = 0 /\
    forall va, canonical va = true -> idx 3 va <> 510 ->
      walk (ram s') (cr3 s') va = if decide (STACK_ADDR <= va < STACK_ADDR + 4096) then Some (root + (va - STACK_ADDR)) else walk (ram s) (cr3 s) va) /\
  forall (b : boot_st P) t bsp, pt_ok (space b) -> mm_physical_stack_pml1 b = STACK_PML1 -> window_at (space b) t ->
    exists b', mm_page_tables_commit bsp b = Ok (tt, b') /\ committed bsp b b' /\ window_at (space b') t.
Proof.
  intros H. split; [|intros b t bsp; apply commit_ok]. destruct (init_stack_ok s _ _ _ _ _ _ _ _ H) as (s' & t & Hrun & Hok & C & G & M & Hz & Ht & He). destruct H as [H0 Hw _ _ _ _].
  assert (Hroot : is_page root) by (pose proof (ok_avail _ H0) as Ha; cbn in Ha; rewrite !Forall_cons in Ha; tauto). destruct Hroot as [[Hr0 Hr1] Hrm].
  assert (Hok0 : pt_ok s) by (destruct s as [m0 c0 pg0]; apply pt_ok_pages; [done|]; by apply (pt_ok_drop m0 c0 [a3; a2; a1; root])).
  exists s', t. split; [exact Hrun|]. split; [done|]. split; [done|]. split; [split; [by rewrite C|rewrite He; unfold present; by rewrite !Z.lor_spec, !orb_true_r]|].
  split; [done|]. split; [done|]. intros va Hc Hi. apply (maps_walk s s' root STACK_ADDR 1 (PAGE_PRESENT .| PAGE_WRITE)); try done; [apply stack_range|zlia].
Qed.

(** An image of four pages at 4 MiB, and no page to hand out. *)
Definition image_source : pst (list Z) :=
  mkP {[ 0x1000 + 8 * 510 := 0x1000 + 3 ]} 0x1000 [0x2000; 0x3000; 0x4000; 0x200000; 0x201000; 0x202000; 0x203000; 0x5000; 0x6000; 0x7000; 0x8000; 0x9000].
Definition image_mapped : pst (list Z) := match mm_virtual_map 5 0x200000 0x400000 4 3 image_source with Ok (_, s) => s | Stop _ => image_source end.
Definition image : pst (list Z) := mkP (ram image_mapped) (cr3 image_mapped) [].

Lemma image_mapped_ok : pt_ok image_mapped /\ cr3 image_mapped = cr3 image_source /\ maps image_source image_mapped 0x200000 0x400000 4 3.
Proof.
  assert (H : pt_ok image_source) by (apply pt_ok_init; [| |apply (bool_decide_unpack _); vm_compute; done..]; (apply (bool_decide_unpack _); vm_compute; done) || done).
  destruct (mm_virtual_map_maps 5 image_source 0x200000 0x400000 4 3 H) as (s' & Hrun & Hok & Hc & Hm & _); [|lia|cbn; lia|unfold image_mapped; rewrite Hrun; exact (conj Hok (conj Hc Hm))].
  split; [done|]. split; [unfold HIGHER_HALF; lia|]. intros k Hk. assert (k = 0 \/ k = 1 \/ k = 2 \/ k = 3) as [-> |[-> |[-> | ->]]] by lia; done.
Qed.

Lemma image_ok : boot_image image 0x400000 0x200000 0x401000 0x201000 0x402000 0x202000 0x403000 0x203000.
Proof.
  destruct image_mapped_ok as (Hok & Hc & [Hm _]).
  assert (Hat : forall k, 0 <= k < 4 -> at_page image (0x400000 + 4096 * k) (0x200000 + 4096 * k)).
  { intros k Hk. assert (k = 0 \/ k = 1 \/ k = 2 \/ k = 3) as [-> |[-> |[-> | ->]]] by lia; repeat split; vm_compute; congruence. }
  split; [|done|apply (Hat 0); lia|apply (Hat 1); lia|apply (Hat 2); lia|apply (Hat 3); lia].
  assert (E : pages image_mapped = [0x200000; 0x201000; 0x202000; 0x203000] ++ drop 4 (pages image_mapped)) by (vm_compute; reflexivity).
  assert (Hok' : pt_ok (mkP (ram image) (cr3 image) (pages image_mapped) : pst (list Z))) by (revert Hok; unfold image; by destruct image_mapped). rewrite E in Hok'.
  refine (pt_ok_fewer _ _ _ _ _ _ Hok'); [|apply (bool_decide_unpack _); vm_compute; done]. intros a Ha. change (avail (pages image)) with (@nil Z) in Ha. rewrite app_nil_r in Ha. apply elem_of_app. by left.
Qed.

Lemma boot_window_witness : exists s', mm_physical_init_stack 0x400000 0x401000 0x402000 0x403000 image = Ok ((STACK_PML1, 0x203000), s') /\
  walk (ram s') (cr3 s') (STACK_ADDR + 5) = Some 0x203005 /\ walk (ram image) (cr3 image) (STACK_ADDR + 5) = None /\
  exists b', mm_page_tables_commit 0x1234 (mkBoot s' ∅ 0 STACK_PML1) = Ok (tt, b') /\ cr4 b' = 0x10.
Proof.
  destruct (boot_window image 0x400000 0x200000 0x401000 0x201000 0x402000 0x202000 0x403000 0x203000 image_ok) as [(s' & t & Hrun & Hok & _ & Hw & _ & _ & Ht) Hc].
  exists s'. split; [exact Hrun|]. split; [rewrite Ht by (vm_compute; congruence); vm_compute; reflexivity|]. split; [vm_compute; reflexivity|].
  destruct (Hc (mkBoot s' ∅ 0 STACK_PML1) t 0x1234 Hok eq_refl Hw) as (b' & Hrun' & (_ & _ & _ & _ & _ & Hcr & _) & _). exists b'. split; [exact Hrun'|exact Hcr].
Defined.
