(* ===== verification/Slab.v ===== *)
(** The slab allocator of the kernel's region list: kernel/mm/slab.c.

    One cache ([vm]) with one slab, laid out at [SLAB_VM_BASE]: a header with the stack of
    free object indices, then the objects. The memory of the slab is kept by 8-byte words
    under its virtual addresses; object sizes are multiples of eight, as the only user's
    is. The queues of slabs are the [list_t] of file DList. *)
From S2P Require Import Prelude DList Paging.
Import MMU.

Definition SLAB_VM_BASE : Z := 0xFFFFFEFFFFFF8000.
Definition SLAB_SIZE : Z := 0x4000.

(** Offsets of [slab_t]. *)
Definition OFF_start : Z := 0.
Definition OFF_inuse : Z := 8.
Definition OFF_free (i : Z) : Z := 16 + 8 * i.
Definition SIZEOF_slab_t : Z := 24.

Record slab_cache_t := mkCache {
  slabs_full : UtilList.list_t; slabs_partial : UtilList.list_t;
  slabs_free : UtilList.list_t; object_size : Z; objects_per_slab : Z }.

Record slab_st {P : Type} := mkSlab {
  mem : gmap Z Z; vm : slab_cache_t; nodes : UtilList.heap; pt : pst P }.
Arguments slab_st P : clear implicits.
Arguments mkSlab {P} _ _ _ _.

Inductive queue := QFull | QPartial | QFree.

Section slab.
Context {P : Type} `{!PageSource P}.
(** The address of the static [node_t] that links the slab. *)
Context (vm_node : Z).

Abbreviation M := (cmd (slab_st P)).

Definition ld (a : Z) : M Z := fun s => Ok (rd (mem s) a, s).
Definition st (a v : Z) : M unit := fun s =>
  Ok (tt, mkSlab (<[a := v]> (mem s)) (vm s) (nodes s) (pt s)).
(** [memset(a, 0, bytes)] for [bytes] a multiple of 8. *)
Definition memset0 (a bytes : Z) : M unit :=
  for_n (Z.to_nat (bytes / 8)) 0 (fun k => st (a + 8 * k) 0).

Definition on_pt {A} (c : cmd (pst P) A) : M A := fun s =>
  match c (pt s) with
  | Ok (a, p) => Ok (a, mkSlab (mem s) (vm s) (nodes s) p)
  | Stop w => Stop w
  end.

Definition q_get (q : queue) (c : slab_cache_t) : UtilList.list_t :=
  match q with QFull => slabs_full c | QPartial => slabs_partial c | QFree => slabs_free c end.
Definition q_set (q : queue) (l : UtilList.list_t) (c : slab_cache_t) : slab_cache_t :=
  match q with
  | QFull => mkCache l (slabs_partial c) (slabs_free c) (object_size c) (objects_per_slab c)
  | QPartial => mkCache (slabs_full c) l (slabs_free c) (object_size c) (objects_per_slab c)
  | QFree => mkCache (slabs_full c) (slabs_partial c) l (object_size c) (objects_per_slab c)
  end.
Definition on_queue {A} (q : queue) (c : cmd UtilList.st A) : M A := fun s =>
  match c (q_get q (vm s), nodes s) with
  | Ok (a, (l, h)) => Ok (a, mkSlab (mem s) (q_set q l (vm s)) h (pt s))
  | Stop w => Stop w
  end.

(** [mm_virtual_map(mm_physical_get(), virt, 1, PAGE_PRESENT | PAGE_WRITE | PAGE_NX)] *)
Definition map_fresh (virt : Z) : cmd (pst P) unit :=
  page ← mm_physical_get;
  mm_virtual_map 2 page virt 1 (PAGE_PRESENT .| PAGE_WRITE .| PAGE_NX).

Definition mm_slab_create_initial : M Z :=
  _ ← on_pt (map_fresh SLAB_VM_BASE);
  _ ← on_pt (map_fresh (SLAB_VM_BASE + 0x1000));
  _ ← on_pt (map_fresh (SLAB_VM_BASE + 0x2000));
  _ ← on_pt (map_fresh (SLAB_VM_BASE + 0x3000));
  n ← gets (fun s => objects_per_slab (vm s));
  size ← gets (fun s => object_size (vm s));
  let start := u64 (SLAB_VM_BASE + SLAB_SIZE - n * size) in
  _ ← st (SLAB_VM_BASE + OFF_start) start;
  _ ← st (SLAB_VM_BASE + OFF_inuse) 0;
  _ ← for_n (Z.to_nat n) 0 (fun i => st (SLAB_VM_BASE + OFF_free i) i);
  _ ← memset0 start (n * size);
  mret SLAB_VM_BASE.

Definition mm_slab_create : M Z := panic "mm_slab_create unimplemented".

Definition slab_objects (obj_size : Z) : Z := (SLAB_SIZE - (SIZEOF_slab_t - 8)) / (obj_size + 8).

Definition mm_cache_create_vm (obj_size : Z) : M unit :=
  let n := slab_objects obj_size in
  _ ← modify (fun s => mkSlab (mem s)
        (mkCache UtilList.empty_list UtilList.empty_list UtilList.empty_list obj_size n)
        (nodes s) (pt s));
  slab ← mm_slab_create_initial;
  _ ← modify (fun s => mkSlab (mem s) (vm s)
        (<[vm_node := UtilList.mkNode 0 0 slab]> (nodes s)) (pt s));
  on_queue QFree (UtilList.list_append vm_node).

Definition mm_slab_get : M Z :=
  c ← gets vm;
  if decide (UtilList.tail (slabs_partial c) <> 0) then
    n ← on_queue QPartial (UtilList.load (UtilList.tail (slabs_partial c)));
    mret (UtilList.data n)
  else if decide (UtilList.tail (slabs_free c) <> 0) then
    n ← on_queue QFree (UtilList.load (UtilList.tail (slabs_free c)));
    mret (UtilList.data n)
  else panic "no slab space left".

Definition mm_slab_alloc : M Z :=
  slab ← mm_slab_get;
  if decide (slab = 0) then panic "no slab found" else
  n ← gets (fun s => objects_per_slab (vm s));
  size ← gets (fun s => object_size (vm s));
  start ← ld (slab + OFF_start);
  inuse ← ld (slab + OFF_inuse);
  let index := u64 (n - inuse - 1) in
  i ← ld (slab + OFF_free index);
  let addr := u64 (start + size * i) in
  let '(q, q_up) := if decide (inuse = 0) then (QFree, QPartial) else (QPartial, QFull) in
  _ ← st (slab + OFF_free index) 0;
  _ ← st (slab + OFF_inuse) (u64 (inuse + 1));
  inuse ← ld (slab + OFF_inuse);
  _ ← (if decide (u64 (n - inuse) <= 1) then
         tl ← gets (fun s => UtilList.tail (q_get q (vm s)));
         _ ← on_queue q_up (UtilList.list_append tl);
         tl ← gets (fun s => UtilList.tail (q_get q (vm s)));
         _ ← on_queue q (UtilList.list_remove tl);
         _ ← mm_slab_create;
         mret tt
       else mret tt);
  _ ← memset0 addr size;
  mret addr.

Definition mm_slab_free (object : Z) : M unit :=
  let slab := object .& bnot 64 (SLAB_SIZE - 1) in
  start ← ld (slab + OFF_start);
  let offset := u64 (object - start) in
  size ← gets (fun s => object_size (vm s));
  let object_index := offset / size in
  n ← gets (fun s => objects_per_slab (vm s));
  inuse ← ld (slab + OFF_inuse);
  let free_objects := u64 (n - inuse) in
  _ ← st (slab + OFF_inuse) (u64 (inuse - 1));
  st (slab + OFF_free free_objects) object_index.
End slab.

(** ** The slab as a stack of free indices *)

(** The layout of a slab of [n] objects of [size] bytes from [start]. *)
Record layout (n size start : Z) : Prop := {
  lay_n : 3 <= n;
  lay_size : 0 < size;
  lay_mod : size mod 8 = 0;
  lay_start : start = SLAB_VM_BASE + SLAB_SIZE - n * size;
  lay_header : SLAB_VM_BASE + 16 + 8 * n <= start }.

Section spec.
Context {P : Type} `{!PageSource P} (vm_node : Z).

Record is_slab (s : slab_st P) (n size start : Z) (fl : list Z) : Prop := {
  slab_lay : layout n size start;
  slab_n : objects_per_slab (vm s) = n;
  slab_size : object_size (vm s) = size;
  slab_start : rd (mem s) (SLAB_VM_BASE + OFF_start) = start;
  slab_inuse : rd (mem s) (SLAB_VM_BASE + OFF_inuse) = n - Z.of_nat (length fl);
  slab_free : forall i a, reverse fl !! i = Some a ->
    rd (mem s) (SLAB_VM_BASE + OFF_free (Z.of_nat i)) = a;
  slab_indices : Forall (fun i => 0 <= i < n) fl;
  slab_nodup : NoDup fl;
  slab_queues : slabs_partial (vm s) = UtilList.empty_list /\
    slabs_free (vm s) = UtilList.mkList vm_node vm_node 1 /\
    nodes s !! vm_node = Some (UtilList.mkNode 0 0 SLAB_VM_BASE) /\ vm_node <> 0 }.

(** The bytes of object [i]. *)
Definition in_object (size start i a : Z) : Prop := start + size * i <= a < start + size * (i + 1).

Lemma free_length n fl : Forall (fun i => 0 <= i < n) fl -> NoDup fl -> 0 <= n ->
  Z.of_nat (length fl) <= n.
Proof.
  intros Hf Hnd Hn.
  assert (Hs : fl ⊆+ seqZ 0 n).
  { apply NoDup_submseteq; [done|]. intros i Hi. rewrite Forall_forall in Hf.
    apply elem_of_seqZ. specialize (Hf i Hi). lia. }
  apply submseteq_length in Hs. rewrite length_seqZ in Hs. lia.
Qed.

Lemma object_bounds n size start i : layout n size start -> 0 <= i < n ->
  start <= start + size * i /\ start + size * i + size <= SLAB_VM_BASE + SLAB_SIZE.
Proof. intros [? ? ? -> ?] Hi. nia. Qed.

Lemma object_addr n size start i : layout n size start -> 0 <= i < n ->
  u64 (start + size * i) = start + size * i.
Proof.
  intros Hl Hi. pose proof (object_bounds _ _ _ _ Hl Hi). destruct Hl.
  apply wrap_small. unfold fits, SLAB_VM_BASE, SLAB_SIZE in *. lia.
Qed.

(** [memset0] clears its words and nothing else. *)
Lemma memset0_spec (s : slab_st P) a bytes : 0 <= bytes -> bytes mod 8 = 0 ->
  exists m', memset0 a bytes s = Ok (tt, mkSlab m' (vm s) (nodes s) (pt s)) /\
    (forall b, a <= b < a + bytes -> (b - a) mod 8 = 0 -> rd m' b = 0) /\
    (forall b, ~ a <= b < a + bytes -> rd m' b = rd (mem s) b).
Proof.
  intros Hb Hm. unfold memset0.
  destruct (for_n_inv (fun k st => exists m', st = mkSlab m' (vm s) (nodes s) (pt s) /\
     (forall b, a <= b < a + 8 * k -> (b - a) mod 8 = 0 -> rd m' b = 0) /\
     (forall b, ~ a <= b < a + 8 * k -> rd m' b = rd (mem s) b))
     (Z.to_nat (bytes / 8)) 0 (fun k => st (a + 8 * k) 0) s) as (s' & Hr & m' & -> & H1 & H2).
  - exists (mem s). split; [by destruct s|]. split; [lia|done].
  - intros k st0 Hk (m' & -> & H1 & H2). eexists. split; [reflexivity|]. eexists.
    split; [reflexivity|]. cbn [mem]. split.
    + intros b Hb1 Hb2. destruct (decide (b = a + 8 * k)) as [->|Hne]; [by rewrite rd_insert_eq|].
      rewrite rd_insert_ne by done. apply H1; [|done]. zlia.
    + intros b Hb1. rewrite rd_insert_ne by lia. apply H2. lia.
  - exists m'. split; [done|].
    replace (0 + Z.of_nat (Z.to_nat (bytes / 8))) with (bytes / 8) in * by zlia.
    replace (8 * (bytes / 8)) with bytes in * by zlia. done.
Qed.

(** The header of a slab is below its objects. *)
Lemma header_same (s : slab_st P) n size start fl m' :
  is_slab s n size start fl -> (forall b, b < start -> rd m' b = rd (mem s) b) ->
  is_slab (mkSlab m' (vm s) (nodes s) (pt s)) n size start fl.
Proof.
  intros H Hm. pose proof (slab_lay _ _ _ _ _ H) as Hlay.
  pose proof (free_length _ _ (slab_indices _ _ _ _ _ H) (slab_nodup _ _ _ _ _ H)) as Hlen.
  destruct Hlay as [L1 L2 L3 L4 L5]. destruct H.
  split; cbn [mem vm nodes]; try done.
  - rewrite Hm; [done|]. unfold OFF_start. lia.
  - rewrite Hm; [done|]. unfold OFF_inuse. lia.
  - intros i a Hi. rewrite Hm; [by apply slab_free0|]. unfold OFF_free.
    apply lookup_lt_Some in Hi. rewrite length_reverse in Hi. lia.
Qed.

(** Popping the top free index in the header. *)
Lemma slab_pop (s : slab_st P) n size start i fl :
  is_slab s n size start (i :: fl) ->
  let m' := <[SLAB_VM_BASE + OFF_inuse := n - Z.of_nat (length fl)]>
              (<[SLAB_VM_BASE + OFF_free (Z.of_nat (length fl)) := 0]> (mem s)) in
  rd (mem s) (SLAB_VM_BASE + OFF_free (Z.of_nat (length fl))) = i /\
  is_slab (mkSlab m' (vm s) (nodes s) (pt s)) n size start fl.
Proof.
  intros [Hl Hn Hs Hst Hin Hf Hi Hnd Hq] m'. unfold OFF_inuse, OFF_free, OFF_start in *.
  split.
  { unfold OFF_free. apply Hf. rewrite reverse_cons, lookup_app_r by (rewrite length_reverse; lia).
    by rewrite length_reverse, Nat.sub_diag. }
  inversion Hi; subst. apply NoDup_cons in Hnd as [_ Hnd].
  split; cbn [mem vm nodes]; try done; unfold m', OFF_inuse, OFF_free, OFF_start.
  - rewrite !rd_insert_ne by lia. done.
  - by rewrite rd_insert_eq.
  - intros j a Hj. pose proof (lookup_lt_Some _ _ _ Hj) as Hjl. rewrite length_reverse in Hjl.
    rewrite !rd_insert_ne by lia. apply Hf. rewrite reverse_cons. by apply lookup_app_l_Some.
Qed.

(** Pushing an index. *)
Lemma slab_push (s : slab_st P) n size start i fl :
  is_slab s n size start fl -> 0 <= i < n -> i ∉ fl ->
  let m' := <[SLAB_VM_BASE + OFF_free (Z.of_nat (length fl)) := i]>
              (<[SLAB_VM_BASE + OFF_inuse := n - Z.of_nat (length fl) - 1]> (mem s)) in
  is_slab (mkSlab m' (vm s) (nodes s) (pt s)) n size start (i :: fl).
Proof.
  intros [Hl Hn Hs Hst Hin Hf Hi Hnd Hq] Hr Hni m'. unfold OFF_inuse, OFF_free, OFF_start in *.
  split; cbn [mem vm nodes]; try done; unfold m', OFF_inuse, OFF_free, OFF_start.
  - rewrite !rd_insert_ne by lia. done.
  - rewrite rd_insert_ne, rd_insert_eq by lia. cbn [length]. lia.
  - intros j a. rewrite reverse_cons, lookup_app, length_reverse.
    destruct (reverse fl !! j) as [c|] eqn:E.
    + intros [= ->]. pose proof (lookup_lt_Some _ _ _ E) as Hjl. rewrite length_reverse in Hjl.
      rewrite !rd_insert_ne by lia. by apply Hf.
    + apply lookup_ge_None in E. rewrite length_reverse in E. intros Hb.
      apply list_lookup_singleton_Some in Hb as [Hj <-].
      replace j with (length fl) by lia. by rewrite rd_insert_eq.
  - by constructor.
  - by constructor.
Qed.

Lemma slab_get_spec (s : slab_st P) n size start fl :
  is_slab s n size start fl -> mm_slab_get s = Ok (SLAB_VM_BASE, s).
Proof.
  intros H. destruct (slab_queues _ _ _ _ _ H) as (Hp & Hf & Hv & Hvz). unfold mm_slab_get, on_queue.
  cmd_unfold. rewrite Hp, Hf. cbn [UtilList.tail UtilList.empty_list].
  rewrite decide_False by tauto. rewrite decide_True by done. unfold UtilList.load.
  cbn [q_get snd]. rewrite Hv, Hf. cbn. rewrite <-Hf. destruct s as [? [] ? ?]. done.
Qed.

(** Allocation up to the point where the slab would be retired. *)
Lemma slab_alloc_spec (s : slab_st P) n size start i fl :
  is_slab s n size start (i :: fl) ->
  if decide (2 <= length fl)%nat then
    exists m', mm_slab_alloc s = Ok (start + size * i, mkSlab m' (vm s) (nodes s) (pt s)) /\
      is_slab (mkSlab m' (vm s) (nodes s) (pt s)) n size start fl /\
      (forall b, in_object size start i b -> (b - (start + size * i)) mod 8 = 0 -> rd m' b = 0) /\
      (forall b, start <= b -> ~ in_object size start i b -> rd m' b = rd (mem s) b)
  else mm_slab_alloc s = Stop (Panicked "mm_slab_create unimplemented").
Proof.
  intros H. pose proof H as [Hl Hn Hs Hst Hin Hf Hi Hnd Hq].
  pose proof (Forall_inv Hi) as Hir. cbn beta in Hir.
  pose proof Hl as [L1 L2 L3 L4 L5].
  pose proof (free_length n _ Hi Hnd ltac:(lia)) as Hlen. cbn [length] in Hlen.
  assert (Hn64 : n < 0x4000) by (unfold SLAB_VM_BASE, SLAB_SIZE in *; nia).
  destruct (slab_pop s n size start i fl H) as [Hpop H1]. cbv zeta in H1.
  set (m1 := <[SLAB_VM_BASE + OFF_inuse := _]> _) in *.
  set (s1 := mkSlab m1 (vm s) (nodes s) (pt s)) in *.
  assert (Hstep : forall X, 
    (_ ← (if decide (length fl <= 1)%nat then
         let '(q, q_up) := if decide (n - Z.of_nat (S (length fl)) = 0) then (QFree, QPartial) else (QPartial, QFull) in
         tl ← gets (fun s => UtilList.tail (q_get q (vm s)));
         _ ← on_queue q_up (UtilList.list_append tl);
         tl ← gets (fun s => UtilList.tail (q_get q (vm s)));
         _ ← on_queue q (UtilList.list_remove tl);
         _ ← mm_slab_create;
         mret tt
       else mret tt);
     _ ← memset0 (start + size * i) size; mret (start + size * i)) s1 = X -> mm_slab_alloc s = X).
  { intros X <-. unfold mm_slab_alloc. erewrite bind_ok by (eapply slab_get_spec; exact H).
    rewrite decide_False by done.
    erewrite bind_ok by (unfold gets; reflexivity). erewrite bind_ok by (unfold gets; reflexivity).
    erewrite bind_ok by (unfold ld; reflexivity). erewrite bind_ok by (unfold ld; reflexivity).
    rewrite Hn, Hs, Hst, Hin. cbn [length]. cbv zeta.
    assert (u64 (n - (n - Z.of_nat (S (length fl))) - 1) = Z.of_nat (length fl)) as ->.
    { rewrite wrap_small; [lia|]. unfold fits. lia. }
    erewrite bind_ok by (unfold ld; reflexivity). rewrite Hpop, (object_addr n) by done.
    assert (u64 (n - Z.of_nat (S (length fl)) + 1) = n - Z.of_nat (length fl)) as ->.
    { rewrite wrap_small; [lia|]. unfold fits. lia. }
    assert (Hrem : u64 (n - (n - Z.of_nat (length fl))) = Z.of_nat (length fl)).
    { rewrite wrap_small; [lia|]. unfold fits. lia. }
    destruct (if decide (n - Z.of_nat (S (length fl)) = 0) then (QFree, QPartial)
              else (QPartial, QFull)) as [q q_up].
    erewrite (bind_ok (st _ _)) by (unfold st; reflexivity).
    erewrite (bind_ok (st _ _)) by (unfold st; reflexivity). cbn [mem vm nodes pt]. fold m1. fold s1.
    erewrite bind_ok by (unfold ld; reflexivity).
    rewrite (slab_inuse _ _ _ _ _ H1), Hrem.
    destruct (decide (length fl <= 1)%nat); [rewrite decide_True by lia|rewrite decide_False by lia]; done. }
  destruct (decide (2 <= length fl)%nat) as [H2|H2].
  - destruct (memset0_spec s1 (start + size * i) size) as (m2 & Hr & Hz & Ho); [lia|done|].
    exists m2. split; [|split; [|split]].
    + apply Hstep. rewrite decide_False by lia. erewrite bind_ok by done.
      erewrite bind_ok by exact Hr. done.
    + apply (header_same s1 n); [done|]. intros b Hb. apply Ho.
      pose proof (object_bounds _ _ _ _ Hl Hir). lia.
    + intros b Hb. apply Hz. unfold in_object in Hb. lia.
    + intros b Hb Hni. rewrite Ho by (unfold in_object in Hni; lia).
      cbn [mem s1]. unfold m1. rewrite !rd_insert_ne; [done|..];
        unfold OFF_inuse, OFF_free; lia.
  - apply Hstep. rewrite decide_True by lia. destruct Hq as (Q1 & Q2 & Q3 & Q4).
    rewrite decide_False by lia. unfold on_queue, mm_slab_create. cmd_unfold.
    unfold s1. clearbody m1. clear -Q1. destruct s as [me [fu pa fr sz k] no p].
    cbn in Q1. subst pa. done.
Qed.

Lemma slab_base object : SLAB_VM_BASE <= object < SLAB_VM_BASE + SLAB_SIZE ->
  object .& bnot 64 (SLAB_SIZE - 1) = SLAB_VM_BASE.
Proof.
  intros Ho. unfold SLAB_SIZE in *. change (0x4000 - 1) with (Z.ones 14).
  rewrite land_bnot_ones by (unfold fits, SLAB_VM_BASE in *; lia).
  unfold SLAB_VM_BASE in *. zlia.
Qed.

Lemma slab_free_spec (s : slab_st P) n size start i fl :
  is_slab s n size start fl -> 0 <= i < n -> i ∉ fl ->
  exists m', mm_slab_free (start + size * i) s = Ok (tt, mkSlab m' (vm s) (nodes s) (pt s)) /\
    is_slab (mkSlab m' (vm s) (nodes s) (pt s)) n size start (i :: fl) /\
    (forall b, start <= b -> rd m' b = rd (mem s) b).
Proof.
  intros H Hi Hni. pose proof (slab_push s n size start i fl H Hi Hni) as H1. cbv zeta in H1.
  pose proof (free_length n (i :: fl) (slab_indices _ _ _ _ _ H1) (slab_nodup _ _ _ _ _ H1)) as Hlen.
  destruct H as [Hl Hn Hs Hst Hin Hf Hix Hnd Hq]. pose proof Hl as [L1 L2 L3 L4 L5].
  pose proof (object_bounds _ _ _ _ Hl Hi) as Hb. cbn [length] in Hlen.
  assert (Hn64 : n < 0x4000) by (unfold SLAB_VM_BASE, SLAB_SIZE in *; nia).
  specialize (Hlen ltac:(lia)).
  eexists. split; [|split; [exact H1|]].
  - unfold mm_slab_free. rewrite slab_base by lia.
    unfold ld, st. cmd_unfold. cbn [mem vm nodes pt]. rewrite Hst, Hin, Hs, Hn.
    assert (u64 (start + size * i - start) / size = i) as ->.
    { rewrite wrap_small by (unfold fits, SLAB_VM_BASE, SLAB_SIZE in *; lia).
      replace (start + size * i - start) with (i * size) by lia. apply Z.div_mul. lia. }
    assert (u64 (n - (n - Z.of_nat (length fl))) = Z.of_nat (length fl)) as ->.
    { rewrite wrap_small; [lia|]. unfold fits. lia. }
    assert (u64 (n - Z.of_nat (length fl) - 1) = n - Z.of_nat (length fl) - 1) as ->.
    { rewrite wrap_small; [lia|]. unfold fits. lia. }
    done.
  - intros b Hsb. rewrite !rd_insert_ne; [done|..]; unfold OFF_free, OFF_inuse; lia.
Qed.

(** *** Creation *)
Definition slab_page (k : Z) : Prop := range_ok (SLAB_VM_BASE + 0x1000 * k) 1.
Lemma slab_page_ok k : 0 <= k < 4 -> slab_page k.
Proof.
  intros Hk. unfold slab_page, range_ok, SLAB_VM_BASE, HIGHER_HALF. split; [zlia|]. split; [lia|].
  intros j Hj. rewrite idx_3. assert (k = 0 \/ k = 1 \/ k = 2 \/ k = 3) as [-> | [-> | [-> | ->]]]
    by lia; assert (j = 0) as -> by lia; done.
Qed.

(** The four pages of the slab are mapped, and nothing else has changed. *)
Definition slab_mapped (s s' : pst P) : Prop :=
  forall va, canonical va = true -> idx 3 va <> 510 ->
    (SLAB_VM_BASE <= va < SLAB_VM_BASE + SLAB_SIZE -> is_Some (walk (ram s') (cr3 s') va)) /\
    (~ SLAB_VM_BASE <= va < SLAB_VM_BASE + SLAB_SIZE ->
       walk (ram s') (cr3 s') va = walk (ram s) (cr3 s) va).

Lemma map_slab_pages (p : pst P) : pt_ok p -> 16 <= Z.of_nat (length (avail (pages p))) ->
  exists p1 p2 p3 p4,
    map_fresh SLAB_VM_BASE p = Ok (tt, p1) /\
    map_fresh (SLAB_VM_BASE + 0x1000) p1 = Ok (tt, p2) /\
    map_fresh (SLAB_VM_BASE + 0x2000) p2 = Ok (tt, p3) /\
    map_fresh (SLAB_VM_BASE + 0x3000) p3 = Ok (tt, p4) /\ pt_ok p4 /\ slab_mapped p p4.
Proof.
  intros Hok Hav. set (fl := PAGE_PRESENT .| PAGE_WRITE .| PAGE_NX).
  assert (Hf1 : present fl = true) by done. assert (Hf2 : base fl = 0) by done.
  destruct (map_fresh_page p SLAB_VM_BASE fl) as (p1 & R1 & Ok1 & L1 & W1);
    [done|apply (slab_page_ok 0); lia|lia|done|done|].
  destruct (map_fresh_page p1 (SLAB_VM_BASE + 0x1000) fl) as (p2 & R2 & Ok2 & L2 & W2);
    [done|apply (slab_page_ok 1); lia|lia|done|done|].
  destruct (map_fresh_page p2 (SLAB_VM_BASE + 0x2000) fl) as (p3 & R3 & Ok3 & L3 & W3);
    [done|apply (slab_page_ok 2); lia|lia|done|done|].
  destruct (map_fresh_page p3 (SLAB_VM_BASE + 0x3000) fl) as (p4 & R4 & Ok4 & L4 & W4);
    [done|apply (slab_page_ok 3); lia|lia|done|done|].
  exists p1, p2, p3, p4. do 5 (split; [done|]). intros va Hc Hi.
  destruct (W1 va Hc Hi) as [I1 O1]. destruct (W2 va Hc Hi) as [I2 O2].
  destruct (W3 va Hc Hi) as [I3 O3]. destruct (W4 va Hc Hi) as [I4 O4]. unfold SLAB_SIZE.
  split; intros Hva.
  - destruct (decide (SLAB_VM_BASE + 0x3000 <= va)); [apply I4; lia|rewrite O4 by lia].
    destruct (decide (SLAB_VM_BASE + 0x2000 <= va)); [apply I3; lia|rewrite O3 by lia].
    destruct (decide (SLAB_VM_BASE + 0x1000 <= va)); [apply I2; lia|rewrite O2 by lia].
    apply I1; lia.
  - by rewrite O4, O3, O2, O1 by lia.
Qed.

Lemma cache_layout obj_size : 0 < obj_size -> obj_size mod 8 = 0 ->
  3 <= slab_objects obj_size ->
  layout (slab_objects obj_size) obj_size
    (SLAB_VM_BASE + SLAB_SIZE - slab_objects obj_size * obj_size).
Proof.
  intros Ho Hm Hn. split; try done.
  unfold slab_objects, SLAB_SIZE, SIZEOF_slab_t in *.
  pose proof (Z.mul_div_le (0x4000 - (24 - 8)) (obj_size + 8)). lia.
Qed.

Lemma free_init (s : slab_st P) n : 0 <= n -> exists m',
  for_n (Z.to_nat n) 0 (fun i => st (SLAB_VM_BASE + OFF_free i) i) s =
    Ok (tt, mkSlab m' (vm s) (nodes s) (pt s)) /\
  (forall i, 0 <= i < n -> rd m' (SLAB_VM_BASE + OFF_free i) = i) /\
  (forall b, b < SLAB_VM_BASE + 16 -> rd m' b = rd (mem s) b).
Proof.
  intros Hn.
  destruct (for_n_inv (fun k st => exists m', st = mkSlab m' (vm s) (nodes s) (pt s) /\
     (forall i, 0 <= i < k -> rd m' (SLAB_VM_BASE + OFF_free i) = i) /\
     (forall b, b < SLAB_VM_BASE + 16 -> rd m' b = rd (mem s) b))
     (Z.to_nat n) 0 (fun i => st (SLAB_VM_BASE + OFF_free i) i) s) as (s' & Hr & m' & -> & H1 & H2).
  - exists (mem s). split; [by destruct s|]. split; [lia|done].
  - intros k st0 Hk (m' & -> & H1 & H2). eexists. split; [reflexivity|]. eexists.
    split; [reflexivity|]. cbn [mem]. unfold OFF_free in *. split.
    + intros i Hi. destruct (decide (i = k)) as [->|Hne]; [by rewrite rd_insert_eq|].
      rewrite rd_insert_ne by (unfold OFF_free; lia). apply H1. lia.
    + intros b Hb. rewrite rd_insert_ne by (unfold OFF_free; lia). by apply H2.
  - exists m'. rewrite Z2Nat.id in H1 by lia. done.
Qed.

Lemma reverse_seq_lookup n i a : 0 <= n ->
  reverse (reverse (seqZ 0 n)) !! i = Some a -> a = Z.of_nat i /\ 0 <= a < n.
Proof.
  intros Hn. rewrite reverse_involutive, lookup_seqZ. lia.
Qed.

(** The slab becomes the only member of an empty queue. *)
Lemma queue_first (h : UtilList.heap) d : vm_node <> 0 -> exists h',
  UtilList.list_append vm_node (UtilList.empty_list, <[vm_node := UtilList.mkNode 0 0 d]> h) =
    Ok (tt, (UtilList.mkList vm_node vm_node 1, h')) /\
  h' !! vm_node = Some (UtilList.mkNode 0 0 d).
Proof.
  intros Hnz. destruct (UtilList.list_append_spec UtilList.empty_list
    (<[vm_node := UtilList.mkNode 0 0 d]> h) [] vm_node (UtilList.mkNode 0 0 d))
    as ([hd tl len] & h' & -> & [(Hhd & Htl & _ & Hseg) Hlen] & Hd & _);
    [apply UtilList.is_list_empty|done|set_solver|by rewrite lookup_insert_eq|].
  cbn in *. unfold hd_or, last_or in *. cbn in *. subst. exists h'. split; [done|].
  destruct Hseg as (_ & Hp & Hn & _). specialize (Hd vm_node).
  rewrite lookup_insert_eq in Hd. unfold UtilList.pv, UtilList.nx in *.
  destruct (h' !! vm_node) as [[p x e]|]; cbn in *; congruence.
Qed.

Lemma cache_create_spec (s : slab_st P) obj_size : vm_node <> 0 ->
  pt_ok (pt s) -> 16 <= Z.of_nat (length (avail (pages (pt s)))) ->
  0 < obj_size -> obj_size mod 8 = 0 -> 3 <= slab_objects obj_size ->
  let n := slab_objects obj_size in let start := SLAB_VM_BASE + SLAB_SIZE - n * obj_size in
  exists s', mm_cache_create_vm vm_node obj_size s = Ok (tt, s') /\
    is_slab s' n obj_size start (reverse (seqZ 0 n)) /\
    pt_ok (pt s') /\ slab_mapped (pt s) (pt s').
Proof.
  intros Hnz Hok Hav Ho Hm Hn n start.
  pose proof (cache_layout obj_size Ho Hm Hn) as Hlay. fold n start in Hlay.
  pose proof Hlay as [L1 L2 L3 L4 L5].
  destruct (map_slab_pages (pt s) Hok Hav) as (p1 & p2 & p3 & p4 & R1 & R2 & R3 & R4 & Ok4 & W).
  set (c0 := mkCache UtilList.empty_list UtilList.empty_list UtilList.empty_list obj_size n).
  set (m1 := <[SLAB_VM_BASE + OFF_inuse := 0]> (<[SLAB_VM_BASE + OFF_start := start]> (mem s))).
  destruct (free_init (mkSlab m1 c0 (nodes s) p4) n) as (m2 & Hfi & F1 & F2); [lia|].
  destruct (memset0_spec (mkSlab m2 c0 (nodes s) p4) start (n * obj_size))
    as (m3 & Hms & Z1 & Z2); [lia|rewrite Z.mul_mod, Hm, Z.mul_0_r by lia; done|].
  cbn [mem vm nodes pt] in *.
  assert (Hu : u64 (SLAB_VM_BASE + SLAB_SIZE - n * obj_size) = start).
  { apply wrap_small. fold start. unfold fits, SLAB_VM_BASE, SLAB_SIZE in *. lia. }
  assert (Hrun : mm_slab_create_initial (mkSlab (mem s) c0 (nodes s) (pt s)) =
    Ok (SLAB_VM_BASE, mkSlab m3 c0 (nodes s) p4)).
  { unfold mm_slab_create_initial, on_pt.
    do 4 (erewrite bind_ok; [|cbn [pt]; (rewrite R1 || rewrite R2 || rewrite R3 || rewrite R4);
      reflexivity]). cbn [mem vm nodes pt].
    erewrite bind_ok by (unfold gets; reflexivity). erewrite bind_ok by (unfold gets; reflexivity).
    cbn [vm objects_per_slab object_size c0]. rewrite Hu. cbv zeta.
    erewrite bind_ok by (unfold st; reflexivity). erewrite bind_ok by (unfold st; reflexivity).
    cbn [mem vm nodes pt]. fold m1. erewrite bind_ok by exact Hfi.
    erewrite bind_ok by exact Hms. done. }
  destruct (queue_first (nodes s) SLAB_VM_BASE Hnz) as (h' & Hq & Hh).
  eexists. split; [|split; [|split]].
  - unfold mm_cache_create_vm. fold n. erewrite bind_ok by (unfold modify; reflexivity).
    fold c0. erewrite bind_ok by exact Hrun. erewrite bind_ok by (unfold modify; reflexivity).
    cbn [mem vm nodes pt]. unfold on_queue. cbn [q_get vm slabs_free c0 nodes].
    rewrite Hq. reflexivity.
  - split; cbn [mem vm nodes pt q_set objects_per_slab object_size slabs_partial slabs_free c0];
      try done.
    + rewrite Z2 by (unfold OFF_start; lia). rewrite F2 by (unfold OFF_start; lia).
      unfold m1. rewrite rd_insert_ne, rd_insert_eq by (unfold OFF_start, OFF_inuse; lia). done.
    + rewrite Z2 by (unfold OFF_inuse; lia). rewrite F2 by (unfold OFF_inuse; lia).
      unfold m1. rewrite rd_insert_eq, length_reverse, length_seqZ. lia.
    + intros i a Hi. apply reverse_seq_lookup in Hi as [-> Hi]; [|lia].
      rewrite Z2 by (unfold OFF_free; lia). by apply F1.
    + apply Forall_forall. intros i Hi. rewrite elem_of_reverse, elem_of_seqZ in Hi. lia.
    + rewrite reverse_Permutation. apply NoDup_seqZ.
  - done.
  - done.
Qed.
End spec.

(** ** The object source the region list uses *)

(** What a client relies on: [obj_get] hands out the addresses of [objects], in order and
    never 0, and then stops for good. *)
Class ObjSource (A : Type) := {
  obj_get : cmd A Z;
  objects : A -> list Z;
  obj_wf : A -> Prop;
  obj_get_spec a : obj_wf a ->
    match objects a with
    | [] => exists w, obj_get a = Stop w
    | p :: r => exists a', obj_get a = Ok (p, a') /\ objects a' = r /\ obj_wf a'
    end;
  objects_ok a : obj_wf a -> NoDup (objects a) /\ 0 ∉ objects a }.
#[global] Hint Mode ObjSource ! : typeclass_instances.

(** A slab with its free indices as auxiliary state. *)
Record gslab {P : Type} := mkGS { gs : slab_st P; gsize : Z; gfree : list Z }.
Arguments gslab P : clear implicits.
Arguments mkGS {P} _ _ _.

Section source.
Context {P : Type} `{!PageSource P} (vm_node : Z).

Definition gstart (g : gslab P) : Z :=
  SLAB_VM_BASE + SLAB_SIZE - objects_per_slab (vm (gs g)) * gsize g.
Definition gslab_get : cmd (gslab P) Z := fun g =>
  match mm_slab_alloc (gs g) with
  | Ok (a, s) => Ok (a, mkGS s (gsize g) (tail (gfree g)))
  | Stop w => Stop w
  end.
(** The last two objects of a slab are never handed out. *)
Definition gslab_objects (g : gslab P) : list Z :=
  (fun i => gstart g + gsize g * i) <$> take (length (gfree g) - 2) (gfree g).
Definition gslab_wf (g : gslab P) : Prop :=
  is_slab vm_node (gs g) (objects_per_slab (vm (gs g))) (gsize g) (gstart g) (gfree g) /\
  (2 <= length (gfree g))%nat.

Lemma gslab_get_spec g : gslab_wf g ->
  match gslab_objects g with
  | [] => exists w, gslab_get g = Stop w
  | p :: r => exists g', gslab_get g = Ok (p, g') /\ gslab_objects g' = r /\ gslab_wf g'
  end.
Proof.
  intros [Hg H2]. unfold gslab_objects. destruct g as [s size fl].
  unfold gslab_wf, gstart, gslab_get in *. cbn [gs gsize gfree] in *.
  destruct fl as [|i fl]; cbn [length] in *; [lia|].
  pose proof (slab_alloc_spec vm_node s _ _ _ _ _ Hg) as Ha. case_decide as Hd.
  - replace (S (length fl) - 2)%nat with (S (length fl - 2)) by lia. cbn [take fmap list_fmap].
    destruct Ha as (m' & Hr & Hs & _). eexists. rewrite Hr. split; [done|]. done.
  - replace (S (length fl) - 2)%nat with 0%nat by lia. cbn. rewrite Ha. eauto.
Qed.

Lemma gslab_objects_ok g : gslab_wf g -> NoDup (gslab_objects g) /\ 0 ∉ gslab_objects g.
Proof.
  intros [Hg _]. pose proof (slab_lay _ _ _ _ _ _ Hg) as [L1 L2 L3 L4 L5].
  unfold gslab_objects. split.
  - apply NoDup_fmap_2_strong.
    + intros x y _ _ Hxy. apply Z.add_cancel_l, Z.mul_cancel_l in Hxy; lia.
    + eapply sublist_NoDup; [apply (slab_nodup _ _ _ _ _ _ Hg)|apply sublist_take].
  - intros (i & Hi & Hin)%list_elem_of_fmap.
    assert (i ∈ gfree g) as Hig by (eapply elem_of_sublist, sublist_take; exact Hin).
    pose proof (slab_indices _ _ _ _ _ _ Hg) as Hf. rewrite Forall_forall in Hf.
    specialize (Hf i Hig). cbn in Hf. unfold SLAB_VM_BASE in *. nia.
Qed.

#[export] Instance slab_source : ObjSource (gslab P) := {
  obj_get := gslab_get; objects := gslab_objects; obj_wf := gslab_wf;
  obj_get_spec := gslab_get_spec; objects_ok := gslab_objects_ok }.
End source.

(** ** Properties *)

(** C12: allocation. On a well-formed slab with free indices [i :: fl] the allocator
    returns object [i], all of whose words it has cleared, keeps the slab well formed with
    the indices [fl] left, and changes no byte of any other object; with at most two free
    indices left it panics instead (the slab would have to be replaced). *)
Theorem mm_slab_alloc_correct {P} `{!PageSource P} vm_node (s : slab_st P) n size start i fl :
  is_slab vm_node s n size start (i :: fl) ->
  if decide (2 <= length fl)%nat then
    exists m', mm_slab_alloc s = Ok (start + size * i, mkSlab m' (vm s) (nodes s) (pt s)) /\
      is_slab vm_node (mkSlab m' (vm s) (nodes s) (pt s)) n size start fl /\
      (forall b, in_object size start i b -> (b - (start + size * i)) mod 8 = 0 -> rd m' b = 0) /\
      (forall j b, 0 <= j < n -> j <> i -> in_object size start j b -> rd m' b = rd (mem s) b)
  else mm_slab_alloc s = Stop (Panicked "mm_slab_create unimplemented").
Proof.
  intros H. pose proof (slab_alloc_spec vm_node s n size start i fl H) as G.
  destruct (decide (2 <= length fl)%nat); [|done].
  destruct G as (m' & H1 & H2 & H3 & H4). exists m'. do 3 (split; [done|]).
  pose proof (slab_lay _ _ _ _ _ _ H) as [? ? ? ? ?].
  intros j b Hj Hji Hb. apply H4; unfold in_object in *; nia.
Qed.

Definition slab_example : slab_st (list Z) :=
  mkSlab ∅ (mkCache UtilList.empty_list UtilList.empty_list UtilList.empty_list 0 0) ∅
    (mkP {[ 0x1000 + 8 * 510 := 0x1000 + 3 ]} 0x1000
       ((fun k => 0x2000 + 0x1000 * k) <$> seqZ 0 20)).

Lemma slab_example_ok : pt_ok (pt slab_example).
Proof.
  apply pt_ok_init; try done; apply (bool_decide_unpack _); vm_compute; done.
Qed.

Lemma mm_slab_alloc_correct_witness : exists s : slab_st (list Z), exists i fl,
  is_slab 8 s 341 40 (SLAB_VM_BASE + SLAB_SIZE - 341 * 40) (i :: fl) /\
  exists m', mm_slab_alloc s =
    Ok (SLAB_VM_BASE + SLAB_SIZE - 341 * 40 + 40 * i, mkSlab m' (vm s) (nodes s) (pt s)).
Proof.
  destruct (cache_create_spec 8 slab_example 40 ltac:(done)) as (s & _ & H & _);
    [apply slab_example_ok|done|lia|done|done|].
  change (slab_objects 40) with 341 in H.
  exists s, 340, (tail (reverse (seqZ 0 341))).
  change (is_slab 8 s 341 40 (SLAB_VM_BASE + SLAB_SIZE - 341 * 40)
    (340 :: tail (reverse (seqZ 0 341)))) in H.
  split; [exact H|].
  destruct (mm_slab_alloc_correct 8 s 341 40 _ 340 _ H) as (m' & Hr & _). eauto.
Defined.

(** C21: freeing undoes allocation. For an object in use, [mm_slab_free] computes its slab
    and index from the address alone, keeps the slab well formed with that index free and
    no object byte changed, and the next allocation returns the same object. *)
Theorem mm_slab_free_roundtrip {P} `{!PageSource P} vm_node (s : slab_st P) n size start i fl :
  is_slab vm_node s n size start fl -> 0 <= i < n -> i ∉ fl -> (2 <= length fl)%nat ->
  exists m', mm_slab_free (start + size * i) s = Ok (tt, mkSlab m' (vm s) (nodes s) (pt s)) /\
    is_slab vm_node (mkSlab m' (vm s) (nodes s) (pt s)) n size start (i :: fl) /\
    (forall b, start <= b -> rd m' b = rd (mem s) b) /\
    exists m'', mm_slab_alloc (mkSlab m' (vm s) (nodes s) (pt s)) =
        Ok (start + size * i, mkSlab m'' (vm s) (nodes s) (pt s)) /\
      is_slab vm_node (mkSlab m'' (vm s) (nodes s) (pt s)) n size start fl.
Proof.
  intros H Hi Hni H2. destruct (slab_free_spec vm_node s n size start i fl H Hi Hni)
    as (m' & Hr & Hs & Ho).
  exists m'. do 3 (split; [done|]).
  pose proof (slab_alloc_spec vm_node _ n size start i fl Hs) as G. rewrite decide_True in G by done.
  destruct G as (m'' & Ha & Hs' & _). exists m''. done.
Qed.

Lemma mm_slab_free_roundtrip_witness : exists s : slab_st (list Z),
  let start := SLAB_VM_BASE + SLAB_SIZE - 341 * 40 in
  let fl := tail (reverse (seqZ 0 341)) in
  exists m', mm_slab_free (start + 40 * 340) s = Ok (tt, mkSlab m' (vm s) (nodes s) (pt s)) /\
    is_slab 8 (mkSlab m' (vm s) (nodes s) (pt s)) 341 40 start (340 :: fl).
Proof.
  destruct (cache_create_spec 8 slab_example 40 ltac:(done)) as (s & _ & H & _);
    [apply slab_example_ok|done|lia|done|done|].
  change (slab_objects 40) with 341 in H.
  change (is_slab 8 s 341 40 (SLAB_VM_BASE + SLAB_SIZE - 341 * 40)
    (340 :: tail (reverse (seqZ 0 341)))) in H.
  destruct (slab_alloc_spec 8 s _ _ _ _ _ H) as (m' & _ & Hs & _).
  exists (mkSlab m' (vm s) (nodes s) (pt s)).
  destruct (mm_slab_free_roundtrip 8 _ 341 40 _ 340 _ Hs) as (m2 & Hr & Hs2 & _);
    [lia|apply (bool_decide_unpack _); vm_compute; done|
     apply (bool_decide_unpack _); vm_compute; done|].
  exists m2. done.
Defined.

(** Creation. In a well-formed paging state with sixteen free pages, creating the
    cache maps the slab's four pages (and changes no other translation) and lays the slab
    out so that the free stack and the objects do not overlap: all indices are free, the
    highest on top. For the region nodes (40 bytes) the 341 objects fill the slab exactly. *)
Theorem mm_cache_create_vm_correct {P} `{!PageSource P} vm_node (s : slab_st P) obj_size :
  vm_node <> 0 -> pt_ok (pt s) -> 16 <= Z.of_nat (length (avail (pages (pt s)))) ->
  0 < obj_size -> obj_size mod 8 = 0 -> 3 <= slab_objects obj_size ->
  let n := slab_objects obj_size in let start := SLAB_VM_BASE + SLAB_SIZE - n * obj_size in
  (exists s', mm_cache_create_vm vm_node obj_size s = Ok (tt, s') /\
     is_slab vm_node s' n obj_size start (reverse (seqZ 0 n)) /\
     pt_ok (pt s') /\ slab_mapped (pt s) (pt s')) /\
  SLAB_VM_BASE + OFF_free n <= start /\
  (obj_size = 40 -> n = 341 /\ SLAB_VM_BASE + OFF_free n = start).
Proof.
  intros Hv Hok Hav Ho Hm Hn n start. split; [by apply cache_create_spec|].
  destruct (cache_layout obj_size Ho Hm Hn) as [? ? ? ? L]. fold n start in L. split.
  - unfold OFF_free. lia.
  - intros E. subst obj_size. done.
Qed.

Lemma mm_cache_create_vm_correct_witness : exists s',
  mm_cache_create_vm 8 40 slab_example = Ok (tt, s') /\
  is_slab 8 s' 341 40 (SLAB_VM_BASE + OFF_free 341) (reverse (seqZ 0 341)).
Proof.
  destruct (mm_cache_create_vm_correct 8 slab_example 40) as ((s' & H1 & H2 & _) & _);
    [done|apply slab_example_ok|done|lia|done|done|].
  exists s'. split; [exact H1|]. exact H2.
Defined.
