(* ===== verification/Vmm.v ===== *)
(** The kernel's address space: the region list of kernel/mm/virtual.c (lines 17-32 and
    120-416).

    Regions are nodes of a doubly linked list; nodes come from an [ObjSource] (the slab of
    file Slab), cleared. The abstract view is the list of regions in order: [alloc] is
    first fit over it, [free] flips a flag, [range_set] carves a region out of the last
    one. *)
From S2P Require Import Prelude DList Paging Slab.

Definition VM_FREE : Z := 1.
Definition VM_USED : Z := 2.

(** [struct vm_node]; a pointer is the address of the node, 0 is [NULL]. *)
Record vm_node := mkVN { next : Z; prev : Z; start : Z; len : Z; flags : Z }.
(** The region a node describes. *)
Record region := mkR { r_start : Z; r_len : Z; r_flags : Z }.
Definition region_of (n : vm_node) : region := mkR (start n) (len n) (flags n).
#[export] Instance region_eq_dec : EqDecision region.
Proof. solve_decision. Defined.

(** [struct vm_info] *)
Record vm_info := mkInfo { head : Z; tail : Z; nnodes : Z }.

Record vst {A : Type} := mkV {
  list_ : vm_info; vheap : gmap Z vm_node; objs : A;
  (** addresses [invlpg] was executed on, latest first *)
  tlb : list Z }.
Arguments vst A : clear implicits.
Arguments mkV {A} _ _ _ _.

Section vmm.
Context {A : Type} `{!ObjSource A}.
Abbreviation M := (cmd (vst A)).

Definition load (p : Z) : M vm_node := fun s =>
  match vheap s !! p with Some n => Ok (n, s) | None => Stop (Faulted p) end.
Definition store (p : Z) (n : vm_node) : M unit := fun s =>
  Ok (tt, mkV (list_ s) (<[p := n]> (vheap s)) (objs s) (tlb s)).
Definition set_next (p x : Z) : M unit :=
  n ← load p; store p (mkVN x (prev n) (start n) (len n) (flags n)).
Definition set_prev (p x : Z) : M unit :=
  n ← load p; store p (mkVN (next n) x (start n) (len n) (flags n)).
(** The three region fields. *)
Definition set_region (p a l f : Z) : M unit :=
  n ← load p; store p (mkVN (next n) (prev n) a l f).
Definition set_start (p a : Z) : M unit := n ← load p; set_region p a (len n) (flags n).
Definition set_len (p l : Z) : M unit := n ← load p; set_region p (start n) l (flags n).
Definition set_flags (p f : Z) : M unit := n ← load p; set_region p (start n) (len n) f.

Definition set_list (i : vm_info) : M unit := fun s =>
  Ok (tt, mkV i (vheap s) (objs s) (tlb s)).
Definition set_head (x : Z) : M unit :=
  i ← gets list_; set_list (mkInfo x (tail i) (nnodes i)).
Definition set_tail (x : Z) : M unit :=
  i ← gets list_; set_list (mkInfo (head i) x (nnodes i)).
Definition set_nodes (x : Z) : M unit :=
  i ← gets list_; set_list (mkInfo (head i) (tail i) (u64 x)).

(** [mm_slab_alloc(cache)]: a node, cleared. *)
Definition new_node : M Z := fun s =>
  match obj_get (objs s) with
  | Ok (p, a) => Ok (p, mkV (list_ s) (<[p := mkVN 0 0 0 0 0]> (vheap s)) a (tlb s))
  | Stop w => Stop w
  end.

Definition mm_tlb_invlpg (a : Z) : M unit := fun s =>
  Ok (tt, mkV (list_ s) (vheap s) (objs s) (a :: tlb s)).

Definition mm_virtual_insert_after (after new : Z) : M unit :=
  if decide (after = 0 \/ new = 0) then mret tt else
  a ← load after;
  _ ← set_next new (next a);
  _ ← set_prev new after;
  _ ← set_next after new;
  n ← load new;
  _ ← (if decide (next n = 0) then set_tail new else set_prev (next n) new);
  i ← gets list_;
  set_nodes (nnodes i + 1).

Definition mm_virtual_insert_before (b new : Z) : M unit :=
  if decide (b = 0 \/ new = 0) then mret tt else
  nb ← load b;
  let a := prev nb in
  _ ← set_prev new a;
  _ ← set_next new b;
  n ← load new;
  _ ← (if decide (prev n = 0) then set_head new else set_next a new);
  _ ← set_prev b new;
  i ← gets list_;
  set_nodes (nnodes i + 1).

Definition mm_virtual_remove (node : Z) : M unit :=
  if decide (node = 0) then mret tt else
  n ← load node;
  _ ← (if decide (prev n = 0) then set_head (next n) else set_next (prev n) (next n));
  n ← load node;
  _ ← (if decide (next n = 0) then set_tail (prev n) else set_prev (next n) (prev n));
  i ← gets list_;
  set_nodes (nnodes i - 1).

(** [while(prev && prev->next && prev->start <= addr) prev = prev->next;] *)
Fixpoint find_prev (fuel : nat) (addr p : Z) : M Z :=
  match fuel with
  | O => halt OutOfFuel
  | S fuel =>
      if decide (p = 0) then mret p else
      n ← load p;
      if decide (next n <> 0 /\ start n <= addr) then find_prev fuel addr (next n)
      else mret p
  end.

(** The part of [mm_virtual_range_set] after the new node has been taken; [p] is the node
    found, [nx] its successor. *)
Definition range_place (p nx new addr len_ flags_ : Z) : M unit :=
  n ← load p;
  let last := u64 (start n + len n - 1) in
  let start_beyond_prev_end := bool_decide (last < addr) in
  end_before_next ← (if decide (nx = 0) then mret false
    else m ← load nx; mret (bool_decide (start m < u64 (addr + len_ - 1))));
  let within_prev := bool_decide (start n <= addr /\ u64 (addr + len_ - 1) <= last) in
  let start_aliged := bool_decide (start n = addr) in
  let end_aliged := bool_decide (last = u64 (addr + len_ - 1)) in
  if start_beyond_prev_end && end_before_next then
    _ ← set_region new addr len_ flags_;
    mm_virtual_insert_after p new
  else if within_prev && negb start_aliged && negb end_aliged then
    post ← new_node;
    n ← load p;
    let total_len := len n in
    _ ← set_len p (u64 (addr - start n));
    _ ← set_region new addr len_ flags_;
    _ ← set_start post (u64 (addr + len_));
    n ← load p;
    _ ← set_len post (u64 (total_len - len n - len_));
    _ ← mm_virtual_insert_after p new;
    mm_virtual_insert_after new post
  else if within_prev && start_aliged && negb end_aliged then
    n ← load p;
    _ ← set_region new (u64 (addr + len_)) (u64 (len n - len_)) (flags n);
    _ ← set_len p len_;
    _ ← set_flags p flags_;
    mm_virtual_insert_after p new
  else if within_prev && end_aliged && negb start_aliged then panic "end-aligned"
  else if within_prev && start_aliged && end_aliged then panic "start-/end-aligned"
  else panic "unhandled overlap".

Definition mm_virtual_range_set (fuel : nat) (addr len_ flags_ : Z) : M unit :=
  _ ← assert_c "!(addr & 0xFFF)" (bool_decide (addr .& 0xFFF = 0));
  _ ← assert_c "!(len & 0xFFF)" (bool_decide (len_ .& 0xFFF = 0));
  i ← gets list_;
  p ← find_prev fuel addr (head i);
  nx ← (if decide (p = 0) then mret 0 else n ← load p; mret (next n));
  new ← new_node;
  if decide (p = 0 /\ nx = 0) then
    _ ← set_head new;
    _ ← set_tail new;
    _ ← set_prev new 0;
    _ ← set_next new 0;
    _ ← set_region new addr len_ flags_;
    set_nodes 1
  else range_place p nx new addr len_ flags_.

(** [VM_FOREACH(node) if(pred) { found = node; break; }] *)
Fixpoint find_node (fuel : nat) (pred : region -> bool) (p : Z) : M Z :=
  match fuel with
  | O => halt OutOfFuel
  | S fuel =>
      if decide (p = 0) then mret 0 else
      n ← load p;
      if pred (region_of n) then mret p else find_node fuel pred (next n)
  end.

Definition fits_request (size : Z) (r : region) : bool :=
  bool_decide (r_flags r .& VM_FREE <> 0 /\ size <= r_len r).

(** [flags &= ~clear; flags |= set;] *)
Definition flip (clear set f : Z) : Z := (f .& bnot 64 clear) .| set.

Definition mm_virtual_alloc (fuel : nat) (pages : Z) : M Z :=
  if decide (pages = 0) then mret 0 else
  let size := u64 (pages ≪ 12) in
  i ← gets list_;
  alloc ← find_node fuel (fits_request size) (head i);
  if decide (alloc = 0) then mret 0 else
  n ← load alloc;
  if decide (len n = size) then
    _ ← set_flags alloc (flip VM_FREE VM_USED (flags n));
    mret (start n)
  else
    new ← new_node;
    n ← load alloc;
    _ ← set_region new (u64 (start n + size)) (u64 (len n - size)) (flags n);
    _ ← set_region alloc (start n) size (flip VM_FREE VM_USED (flags n));
    _ ← mm_virtual_insert_after alloc new;
    n ← load alloc;
    mret (start n).

(** [for(size_t i = 0; i < len; i += 0x1000) mm_tlb_invlpg(addr + i);] *)
Fixpoint flush_loop (fuel : nat) (addr len_ i : Z) : M unit :=
  match fuel with
  | O => halt OutOfFuel
  | S fuel =>
      if decide (i < len_) then
        _ ← mm_tlb_invlpg (u64 (addr + i));
        flush_loop fuel addr len_ (u64 (i + 0x1000))
      else mret tt
  end.

Definition used_at (addr : Z) (r : region) : bool :=
  bool_decide (r_start r = addr /\ r_flags r .& VM_USED <> 0).

Definition mm_virtual_free (fuel : nat) (addr : Z) : M Z :=
  i ← gets list_;
  free ← find_node fuel (used_at addr) (head i);
  if decide (free = 0) then mret 0 else
  n ← load free;
  let ret := len n in
  _ ← flush_loop (S (Z.to_nat (len n / 0x1000 + 1))) addr (len n) 0;
  _ ← set_flags free (flip VM_USED VM_FREE (flags n));
  mret ret.

(** [mm_virtual_init] from its first region on; [KERNEL_SIZE] is the linker's. *)
Definition mm_virtual_init_ranges (KERNEL_SIZE : Z) : M unit :=
  _ ← mm_virtual_range_set 9 0xFFFFFE0000021000 0x1FFFFFDF000 VM_FREE;
  _ ← mm_virtual_range_set 9 SLAB_VM_BASE SLAB_SIZE VM_USED;
  _ ← mm_virtual_range_set 9 0xFFFFFEFFFFFFE000 0x2000 VM_USED;
  _ ← mm_virtual_range_set 9 0xFFFFFF0000000000 0x8000000000 VM_USED;
  mm_virtual_range_set 9 0xFFFFFFFF80000000 (PAGE_UP KERNEL_SIZE) VM_USED.
End vmm.

(** ** Representation *)

(** Members of the list: the node and its region. *)
Notation member := (Z * region)%type.

Definition pv (h : gmap Z vm_node) (a : Z) : option Z := prev <$> h !! a.
Definition nx (h : gmap Z vm_node) (a : Z) : option Z := next <$> h !! a.
Definition holds (h : gmap Z vm_node) (m : member) : Prop :=
  exists n, h !! m.1 = Some n /\ region_of n = m.2.

(** Evaluate heap accesses on an explicit state. *)
Ltac run_vmm := repeat first
  [ progress (cbv beta iota delta [set_next set_prev set_region set_start set_len set_flags
      set_head set_tail set_nodes set_list load store gets mbind cmd_bind mret cmd_ret];
      cbn [list_ vheap objs tlb next prev start len flags head tail nnodes fst snd])
  | rewrite lookup_insert_eq | rewrite lookup_insert_ne by (done || congruence)
  | rewrite decide_True by (tauto || congruence || lia)
  | rewrite decide_False by (tauto || congruence || lia)
  | progress simplify_map_eq ].

Section spec.
Context {A : Type} `{!ObjSource A}.

Record is_vmm (s : vst A) (l : list member) : Prop := {
  vmm_links : Links.whole (pv (vheap s)) (nx (vheap s)) (head (list_ s)) (tail (list_ s)) l.*1;
  vmm_regions : Forall (holds (vheap s)) l;
  vmm_count : nnodes (list_ s) = u64 (Z.of_nat (length l));
  vmm_objs : obj_wf (objs s);
  vmm_fresh : forall p, p ∈ l.*1 -> p ∉ objects (objs s) }.

(** A node that is not in the list yet. *)
Definition spare (s : vst A) (l : list member) (p : Z) (r : region) : Prop :=
  p <> 0 /\ p ∉ l.*1 /\ p ∉ objects (objs s) /\ holds (vheap s) (p, r).

(** Same list, objects and flushes; heaps may differ. *)
Definition same_rest (s s' : vst A) : Prop := objs s' = objs s /\ tlb s' = tlb s.

Lemma pv_iff h a p : pv h a = Some p <-> exists n, h !! a = Some n /\ prev n = p.
Proof.
  unfold pv. destruct (h !! a); cbn; (split; [intros [=]; subst; eauto|]).
  - by intros (? & [= <-] & <-).
  - by intros (? & ? & _).
Qed.
Lemma nx_iff h a p : nx h a = Some p <-> exists n, h !! a = Some n /\ next n = p.
Proof.
  unfold nx. destruct (h !! a); cbn; (split; [intros [=]; subst; eauto|]).
  - by intros (? & [= <-] & <-).
  - by intros (? & ? & _).
Qed.

Lemma is_vmm_split s l1 p r l2 : is_vmm s (l1 ++ (p, r) :: l2) ->
  p <> 0 /\ p ∉ l1.*1 /\ p ∉ l2.*1 /\
  vheap s !! p = Some (mkVN (hd_or 0 l2.*1) (last_or 0 l1.*1) (r_start r) (r_len r) (r_flags r)).
Proof.
  intros [Hw Hr _ _ _]. rewrite fmap_app in Hw. cbn in Hw.
  apply Links.whole_split in Hw as (Hnz & Hn1 & Hn2 & _ & Hp & Hn & _ & _).
  do 3 (split; [done|]).
  apply Forall_app in Hr as [_ Hr]. inversion Hr as [|? ? (n & Hh & Hreg) _]; subst.
  cbn in *. apply pv_iff in Hp as (n1 & E1 & P1). apply nx_iff in Hn as (n2 & E2 & P2).
  rewrite Hh in E1, E2. injection E1 as <-. injection E2 as <-. rewrite Hh, <-P1, <-P2.
  rewrite <-Hreg. by destruct n.
Qed.

(** Overwriting the region of a member, or anything of a node outside the list. *)
Lemma is_vmm_store s l1 p r l2 a b c : is_vmm s (l1 ++ (p, r) :: l2) ->
  is_vmm (mkV (list_ s) (<[p := mkVN (hd_or 0 l2.*1) (last_or 0 l1.*1) a b c]> (vheap s))
           (objs s) (tlb s)) (l1 ++ (p, mkR a b c) :: l2).
Proof.
  intros H. destruct (is_vmm_split _ _ _ _ _ H) as (Hnz & Hn1 & Hn2 & Hh).
  destruct H as [Hw Hr Hc Ho Hf]. split; cbn [list_ vheap objs].
  - rewrite fmap_app in *. cbn in *. destruct Hw as (Hhd & Htl & Hnd & Hs). do 3 (split; [done|]).
    eapply Links.seg_ext; [|exact Hs]. intros q _. unfold pv, nx.
    destruct (decide (p = q)) as [<-|]; [by rewrite lookup_insert_eq, Hh|].
    by rewrite !lookup_insert_ne by done.
  - apply Forall_app in Hr as [H1 H2]. inversion H2 as [|? ? _ H3]; subst.
    assert (Hk : forall l', p ∉ l'.*1 -> Forall (holds (vheap s)) l' ->
      Forall (holds (<[p := mkVN (hd_or 0 l2.*1) (last_or 0 l1.*1) a b c]> (vheap s))) l').
    { intros l' Hp Hl'. rewrite !Forall_forall in *. intros [q rq] Hq.
      destruct (Hl' _ Hq) as (n & Hn & Hreg). exists n. cbn in *. split; [|done].
      rewrite lookup_insert_ne; [done|]. intros ->. apply Hp. apply list_elem_of_fmap. by exists (q, rq). }
    apply Forall_app. split; [by apply Hk|]. constructor; [|by apply Hk].
    eexists. cbn. rewrite lookup_insert_eq. done.
  - rewrite length_app in *. done.
  - done.
  - rewrite fmap_app in *. done.
Qed.

Lemma holds_insert_ne h p n m : p <> m.1 -> holds h m -> holds (<[p := n]> h) m.
Proof. intros Hne (k & Hk & Hr). exists k. by rewrite lookup_insert_ne. Qed.

Lemma is_vmm_store_spare s l p n : is_vmm s l -> p ∉ l.*1 ->
  is_vmm (mkV (list_ s) (<[p := n]> (vheap s)) (objs s) (tlb s)) l.
Proof.
  intros [Hw Hr Hc Ho Hf] Hp. split; cbn [list_ vheap objs]; try done.
  - destruct Hw as (Hhd & Htl & Hnd & Hs). do 3 (split; [done|]).
    eapply Links.seg_ext; [|exact Hs]. intros q Hq. unfold pv, nx.
    by rewrite !lookup_insert_ne by (intros ->; done).
  - rewrite Forall_forall in *. intros m Hm. apply holds_insert_ne; [|by apply Hr].
    intros ->. apply Hp. apply list_elem_of_fmap. by exists m.
Qed.

Lemma new_node_spec s l p r : is_vmm s l -> objects (objs s) = p :: r ->
  exists a, new_node s = Ok (p, mkV (list_ s) (<[p := mkVN 0 0 0 0 0]> (vheap s)) a (tlb s)) /\
    let s' := mkV (list_ s) (<[p := mkVN 0 0 0 0 0]> (vheap s)) a (tlb s) in
    is_vmm s' l /\ spare s' l p (mkR 0 0 0) /\ objects a = r.
Proof.
  intros H Hobj. pose proof (vmm_objs _ _ H) as Hwf.
  pose proof (obj_get_spec (objs s) Hwf) as Hg. destruct (objects_ok (objs s) Hwf) as [Hnd H0].
  rewrite Hobj in Hg, Hnd, H0. destruct Hg as (a & Hg & Ho & Hwf').
  exists a. unfold new_node. rewrite Hg. split; [done|]. cbn zeta.
  assert (Hpl : p ∉ l.*1).
  { intros Hp. apply (vmm_fresh _ _ H) in Hp. rewrite Hobj in Hp. set_solver. }
  apply NoDup_cons in Hnd as [Hpr Hnd].
  split; [|split; [|done]].
  - destruct (is_vmm_store_spare _ _ p (mkVN 0 0 0 0 0) H Hpl) as [Hw Hr Hc _ _].
    split; cbn in *; try done. intros q Hq. apply (vmm_fresh _ _ H) in Hq. rewrite Hobj in Hq.
    rewrite Ho. set_solver.
  - split; [set_solver|]. split; [done|]. cbn. rewrite Ho. split; [done|].
    eexists. cbn. by rewrite lookup_insert_eq.
Qed.

Lemma new_node_none s l : is_vmm s l -> objects (objs s) = [] -> exists w, new_node s = Stop w.
Proof.
  intros H Hobj. pose proof (obj_get_spec (objs s) (vmm_objs _ _ H)) as Hg.
  rewrite Hobj in Hg. destruct Hg as [w Hg]. exists w. unfold new_node. by rewrite Hg.
Qed.

Lemma insert_after_spec s l1 a ra l2 p r :
  is_vmm s (l1 ++ (a, ra) :: l2) -> spare s (l1 ++ (a, ra) :: l2) p r ->
  exists s', mm_virtual_insert_after a p s = Ok (tt, s') /\
    is_vmm s' (l1 ++ (a, ra) :: (p, r) :: l2) /\ same_rest s s' /\
    (forall q, q ∉ (l1 ++ (a, ra) :: l2).*1 -> q <> p -> vheap s' !! q = vheap s !! q).
Proof.
  intros H (Hpz & Hpl & Hpo & (np & Hp & Hr)). cbn in Hp, Hr.
  destruct (is_vmm_split _ _ _ _ _ H) as (Haz & Ha1 & Ha2 & Ha).
  set (na := mkVN _ _ _ _ _) in *.
  assert (Hap : a <> p). { intros ->. apply Hpl. rewrite fmap_app. set_solver. }
  pose proof H as [Hw Hregs Hc Ho Hf].
  assert (Hx : hd_or 0 l2.*1 <> 0 -> exists nb rb l2', l2 = (hd_or 0 l2.*1, rb) :: l2' /\
    vheap s !! hd_or 0 l2.*1 = Some nb /\ hd_or 0 l2.*1 <> a /\ hd_or 0 l2.*1 <> p).
  { destruct l2 as [|[b rb] l2]; [done|]. intros _. change (hd_or 0 ((b, rb) :: l2).*1) with b.
    replace (l1 ++ (a, ra) :: (b, rb) :: l2) with ((l1 ++ [(a, ra)]) ++ (b, rb) :: l2) in *
      by (by rewrite <-app_assoc).
    destruct (is_vmm_split _ _ _ _ _ H) as (_ & Hb1 & _ & Hb). do 3 eexists.
    split; [done|]. split; [exact Hb|].
    rewrite !fmap_app in *. cbn in *. split; set_solver. }
  assert (Hl2 : hd_or 0 l2.*1 = 0 -> l2 = []).
  { destruct l2 as [|[b rb] l2]; [done|]. change (hd_or 0 ((b, rb) :: l2).*1) with b. intros ->.
    replace (l1 ++ (a, ra) :: (0, rb) :: l2) with ((l1 ++ [(a, ra)]) ++ (0, rb) :: l2) in *
      by (by rewrite <-app_assoc).
    by destruct (is_vmm_split _ _ _ _ _ H). }
  assert (Hout : forall x, x ∉ (l1 ++ (a, ra) :: l2).*1 ->
    x <> a /\ (hd_or 0 l2.*1 <> 0 -> x <> hd_or 0 l2.*1)).
  { intros x Hx1. rewrite fmap_app in Hx1. cbn in Hx1. split; [set_solver|].
    intros Hz ->. destruct l2 as [|[b rb] l2]; [done|]. apply Hx1.
    change (hd_or 0 ((b, rb) :: l2).*1) with b. set_solver. }
  assert (Hnx : exists s', mm_virtual_insert_after a p s = Ok (tt, s') /\ same_rest s s' /\
    nnodes (list_ s') = u64 (nnodes (list_ s) + 1) /\ head (list_ s') = head (list_ s) /\
    tail (list_ s') = (if decide (hd_or 0 l2.*1 = 0) then p else tail (list_ s)) /\
    (exists n', vheap s' !! p = Some n' /\ region_of n' = r /\ prev n' = a /\ next n' = hd_or 0 l2.*1) /\
    (exists n', vheap s' !! a = Some n' /\ region_of n' = ra /\ prev n' = last_or 0 l1.*1 /\ next n' = p) /\
    (forall q, q ∉ (l1 ++ (a, ra) :: l2).*1 -> q <> p -> vheap s' !! q = vheap s !! q) /\
    forall q n, q <> 0 -> q <> a -> q <> p -> vheap s !! q = Some n ->
      exists n', vheap s' !! q = Some n' /\ region_of n' = region_of n /\ next n' = next n /\
        prev n' = if decide (q = hd_or 0 l2.*1) then p else prev n).
  { unfold mm_virtual_insert_after. destruct (decide (hd_or 0 l2.*1 = 0)) as [Hz|Hz];
      [|destruct (Hx Hz) as (nb & rb & l2' & _ & Hb & Hba & Hbp)].
    all: eexists; (split; [run_vmm; reflexivity|]); split; [done|].
    all: cbn [list_ vheap nnodes head tail]; do 3 (split; [done|]); split; [|split; [|split]].
    all: try (intros x Hx1 Hx2; apply Hout in Hx1 as [Hx1 Hx3]; rewrite ?lookup_insert_ne
      by (done || (apply not_eq_sym; auto)); done).
    all: try (eexists; simplify_map_eq; split; [done|]; by destruct ra).
    all: try (eexists; simplify_map_eq; split; [done|]; by destruct np).
    all: intros q n Hq0 Hqa Hqp Hq; rewrite ?lookup_insert_ne by done.
    - exists n. rewrite decide_False by congruence. done.
    - destruct (decide (q = hd_or 0 l2.*1)) as [->|Hqb].
      + simplify_map_eq. eexists. split; [done|]. done.
      + exists n. rewrite !lookup_insert_ne by done. done. }
  destruct Hnx as (s' & Hrun & Hsame & Hcnt & Hhd & Htl & (n1 & P1 & P2 & P3 & P4) &
    (n2 & A1 & A2 & A3 & A4) & Hkeep & Hoth).
  exists s'. split; [done|]. split; [|done]. destruct Hsame as [Hobj _].
  assert (Hmem : forall q, q ∈ l1.*1 ++ l2.*1 -> q <> 0 /\ q <> a /\ q <> p /\
    exists n, vheap s !! q = Some n).
  { intros q Hq. assert (Hql : q ∈ (l1 ++ (a, ra) :: l2).*1).
    { rewrite fmap_app. cbn. set_solver. }
    split; [|split; [set_solver|split; [set_solver|]]].
    - destruct Hw as (_ & _ & _ & Hs). by eapply Links.seg_nonzero.
    - apply list_elem_of_fmap in Hql as ([q' rq] & -> & Hin). rewrite Forall_forall in Hregs.
      destruct (Hregs _ Hin) as (n & Hn & _). eauto. }
  split.
  - rewrite fmap_app in *. cbn [fmap list_fmap] in *.
    replace (l1.*1 ++ a :: p :: l2.*1) with ((l1.*1 ++ [a]) ++ p :: l2.*1) by (by rewrite <-app_assoc).
    replace (l1.*1 ++ a :: l2.*1) with ((l1.*1 ++ [a]) ++ l2.*1) in Hw by (by rewrite <-app_assoc).
    eapply Links.whole_insert; [exact Hw|done|set_solver|..].
    + rewrite last_or_snoc. apply pv_iff. eauto.
    + apply nx_iff. eauto.
    + intros b Hb. unfold pv. destruct (decide (b = a)) as [->|Hba].
      * rewrite A1, Ha. cbn. rewrite A3. destruct (decide (a = hd_or 0 l2.*1)) as [Hh|]; [|done]. exfalso.
        apply Ha2. rewrite Hh. destruct l2; [done|]. by left.
      * destruct (Hmem b) as (Hb0 & _ & Hbp & n & Hn); [set_solver|].
        destruct (Hoth b n Hb0 Hba Hbp Hn) as (n' & -> & _ & _ & Hpr). rewrite Hn. cbn.
        rewrite Hpr. by destruct (decide (b = hd_or 0 l2.*1)).
    + intros b Hb. rewrite last_or_snoc. unfold nx. destruct (decide (b = a)) as [->|Hba].
      * rewrite A1. cbn. by rewrite A4.
      * destruct (Hmem b) as (Hb0 & _ & Hbp & n & Hn); [set_solver|].
        destruct (Hoth b n Hb0 Hba Hbp Hn) as (n' & -> & _ & Hnn & _). rewrite Hn. cbn. by rewrite Hnn.
    + rewrite Hhd. destruct Hw as [-> _]. by destruct l1.
    + rewrite Htl. destruct Hw as (_ & -> & _). destruct l2 as [|[b rb] l2].
      * done.
      * rewrite decide_False; [|intros E; by apply Hl2 in E]. cbn. by rewrite last_or_app, !last_or_cons.
  - apply Forall_app in Hregs as [H1 H2]. apply Forall_cons in H2 as [_ H2].
    assert (Hk : forall l', (forall q, q ∈ l'.*1 -> q ∈ l1.*1 ++ l2.*1) ->
      Forall (holds (vheap s)) l' -> Forall (holds (vheap s')) l').
    { intros l' Hsub Hl'. rewrite !Forall_forall in *. intros [q rq] Hq.
      destruct (Hl' _ Hq) as (n & Hn & Hreg). cbn in Hn, Hreg. subst rq.
      destruct (Hmem q) as (Hq0 & Hqa & Hqp & _).
      { apply Hsub. apply list_elem_of_fmap. by exists (q, region_of n). }
      destruct (Hoth q n Hq0 Hqa Hqp Hn) as (n' & Hn' & Hrn & _). by exists n'. }
    apply Forall_app. split; [apply Hk; [set_solver|done]|].
    constructor; [by exists n2|]. constructor; [by exists n1|]. apply Hk; [set_solver|done].
  - rewrite Hcnt, Hc. autorewrite with wrapdb. rewrite !length_app. cbn. f_equal. lia.
  - by rewrite Hobj.
  - intros q Hq. rewrite Hobj. rewrite fmap_app in Hq, Hf. cbn in *.
    destruct (decide (q = p)) as [->|]; [done|]. apply Hf. set_solver.
Qed.

Lemma find_node_spec fuel s l1 l2 pred : is_vmm s (l1 ++ l2) -> (length l2 < fuel)%nat ->
  find_node fuel pred (hd_or 0 l2.*1) s =
    Ok (match split_first (fun m => pred m.2) l2 with Some (_, m, _) => m.1 | None => 0 end, s).
Proof.
  revert l1 l2. induction fuel as [|fuel IH]; intros l1 l2 H Hf; [lia|].
  destruct l2 as [|[p r] l2]; [done|]. cbn [find_node fmap list_fmap hd_or].
  change (hd_or 0 ((p, r).1 :: l2.*1)) with p.
  destruct (is_vmm_split _ _ _ _ _ H) as (Hpz & _ & _ & Hp).
  rewrite decide_False by done. erewrite bind_ok by (unfold load; by rewrite Hp).
  cbn [split_first fst snd next]. unfold region_of. cbn [start len flags].
  replace (mkR (r_start r) (r_len r) (r_flags r)) with r by (by destruct r).
  destruct (pred r); [done|]. rewrite (IH (l1 ++ [(p, r)]) l2); [|by rewrite <-app_assoc|cbn in Hf; lia].
  by destruct (split_first _ l2) as [[[? ?] ?]|].
Qed.

Lemma vmm_head s l : is_vmm s l -> head (list_ s) = hd_or 0 l.*1.
Proof. by intros [(-> & _) _ _ _ _]. Qed.

(** Replacing the region of a member by assignment to its fields. *)
Lemma set_region_spec s l1 p r l2 a b c : is_vmm s (l1 ++ (p, r) :: l2) ->
  exists s', set_region p a b c s = Ok (tt, s') /\ is_vmm s' (l1 ++ (p, mkR a b c) :: l2) /\
    same_rest s s' /\ list_ s' = list_ s /\ (forall q, q <> p -> vheap s' !! q = vheap s !! q).
Proof.
  intros H. destruct (is_vmm_split _ _ _ _ _ H) as (_ & _ & _ & Hp).
  pose proof (is_vmm_store s l1 p r l2 a b c H) as H'.
  eexists. unfold set_region. erewrite bind_ok by (unfold load; by rewrite Hp).
  split; [reflexivity|]. split; [exact H'|]. split; [done|]. split; [done|].
  intros q Hq. cbn. by rewrite lookup_insert_ne.
Qed.

(** The same for a node not in the list. *)
Lemma set_region_spare s l p r a b c : is_vmm s l -> spare s l p r ->
  exists s', set_region p a b c s = Ok (tt, s') /\ is_vmm s' l /\ spare s' l p (mkR a b c) /\
    same_rest s s' /\ (forall q, q <> p -> vheap s' !! q = vheap s !! q).
Proof.
  intros H (Hpz & Hpl & Hpo & (n & Hn & Hr)). cbn in Hn.
  pose proof (is_vmm_store_spare s l p (mkVN (next n) (prev n) a b c) H Hpl) as H'.
  eexists. unfold set_region. erewrite bind_ok by (unfold load; by rewrite Hn).
  split; [reflexivity|]. split; [exact H'|]. split; [|split; [done|]].
  - do 3 (split; [done|]). eexists. cbn. by rewrite lookup_insert_eq.
  - intros q Hq. cbn. by rewrite lookup_insert_ne.
Qed.

Lemma load_member s l1 p r l2 : is_vmm s (l1 ++ (p, r) :: l2) ->
  exists n, load p s = Ok (n, s) /\ region_of n = r /\ next n = hd_or 0 l2.*1.
Proof.
  intros H. destruct (is_vmm_split _ _ _ _ _ H) as (_ & _ & _ & Hp).
  eexists. unfold load. rewrite Hp. split; [done|]. by destruct r.
Qed.

Lemma spare_transfer s s' l l' p r : spare s l p r -> same_rest s s' ->
  (forall q, q ∈ l'.*1 -> q ∈ l.*1) ->
  vheap s' !! p = vheap s !! p -> spare s' l' p r.
Proof.
  intros (H1 & H2 & H3 & (n & H4 & H5)) [Ho _] Hl Hh. split; [done|]. split; [by intros Hp%Hl|].
  rewrite Ho. split; [done|]. exists n. cbn in *. by rewrite Hh.
Qed.
End spec.

(** ** The abstract allocator *)

Definition alloc_regions (size : Z) (rs : list region) : option (Z * list region) :=
  match split_first (fits_request size) rs with
  | None => None
  | Some (rs1, r, rs2) =>
      let used := mkR (r_start r) size (flip VM_FREE VM_USED (r_flags r)) in
      Some (r_start r,
        if decide (r_len r = size) then rs1 ++ used :: rs2
        else rs1 ++ used :: mkR (u64 (r_start r + size)) (u64 (r_len r - size)) (r_flags r) :: rs2)
  end.

Definition free_regions (addr : Z) (rs : list region) : option (Z * list region) :=
  match split_first (used_at addr) rs with
  | None => None
  | Some (rs1, r, rs2) =>
      Some (r_len r,
        rs1 ++ mkR (r_start r) (r_len r) (flip VM_USED VM_FREE (r_flags r)) :: rs2)
  end.

Section alloc.
Context {A : Type} `{!ObjSource A}.

Lemma alloc_spec fuel (s : vst A) l pages :
  is_vmm s l -> (length l < fuel)%nat -> pages <> 0 -> objects (objs s) <> [] ->
  match alloc_regions (u64 (pages ≪ 12)) l.*2 with
  | None => mm_virtual_alloc fuel pages s = Ok (0, s)
  | Some (a, rs') => exists s' l', mm_virtual_alloc fuel pages s = Ok (a, s') /\
      is_vmm s' l' /\ l'.*2 = rs' /\ tlb s' = tlb s /\
      (length (objects (objs s)) <= S (length (objects (objs s'))))%nat
  end.
Proof.
  intros H Hf Hpg Hobj. unfold mm_virtual_alloc. rewrite decide_False by done.
  set (size := u64 (pages ≪ 12)). unfold alloc_regions. rewrite split_first_fmap.
  cbv zeta. erewrite bind_ok by (unfold gets; reflexivity). rewrite (vmm_head _ _ H).
  erewrite bind_ok by (apply (find_node_spec fuel s [] l); done).
  pose proof (split_first_spec (fun m : member => fits_request size m.2) l) as Hs.
  destruct (split_first _ l) as [[[l1 [p r]] l2]|]; cbn [fmap option_fmap option_map fst snd]; [|done].
  destruct Hs as (-> & Hfit & _). destruct (is_vmm_split _ _ _ _ _ H) as (Hpz & _).
  rewrite decide_False by done.
  destruct (load_member _ _ _ _ _ H) as (n & Hn & Hreg & _). erewrite bind_ok by exact Hn.
  assert (r_start r = start n /\ r_len r = len n /\ r_flags r = flags n) as (Er & El & Efl)
    by (rewrite <-Hreg; done). rewrite <-Er, <-El, <-Efl.
  destruct (decide (r_len r = size)) as [He|He].
  - destruct (set_region_spec s l1 p r l2 (start n) (len n) (flip VM_FREE VM_USED (r_flags r)) H)
      as (s' & Hset & H' & [Ho Ht] & _).
    unfold set_flags. erewrite bind_ok; [|erewrite bind_ok by exact Hn; exact Hset].
    exists s', (l1 ++ (p, mkR (r_start r) size (flip VM_FREE VM_USED (r_flags r))) :: l2).
    split; [done|]. rewrite <-Er, <-El, He in H'. split; [done|].
    rewrite fmap_app. split; [done|]. split; [done|]. rewrite Ho. lia.
  - destruct (objects (objs s)) as [|q qs] eqn:Eq; [done|].
    destruct (new_node_spec s _ q qs H Eq) as (a & Hnew & H1 & Hsp & Hqs).
    erewrite bind_ok by exact Hnew. set (s1 := mkV _ _ a _) in *.
    destruct (load_member _ _ _ _ _ H1) as (n1 & Hn1 & Hreg1 & _). erewrite bind_ok by exact Hn1.
    assert (r_start r = start n1 /\ r_len r = len n1 /\ r_flags r = flags n1) as (Er1 & El1 & Efl1)
      by (rewrite <-Hreg1; done). rewrite <-Er1, <-El1, <-Efl1.
    destruct (set_region_spare s1 _ q _ (u64 (r_start r + size)) (u64 (r_len r - size)) (r_flags r) H1 Hsp)
      as (s2 & Hset2 & H2 & Hsp2 & [Ho2 Ht2] & _). erewrite bind_ok by exact Hset2.
    destruct (set_region_spec s2 l1 p r l2 (r_start r) size (flip VM_FREE VM_USED (r_flags r)) H2)
      as (s3 & Hset3 & H3 & [Ho3 Ht3] & _ & Hh3). erewrite bind_ok by exact Hset3.
    set (used := mkR (r_start r) size _) in *.
    assert (Hsp3 : spare s3 (l1 ++ (p, used) :: l2) q
      (mkR (u64 (r_start r + size)) (u64 (r_len r - size)) (r_flags r))).
    { eapply spare_transfer; [exact Hsp2|done|by rewrite !fmap_app|]. apply Hh3.
      destruct Hsp as (_ & Hq & _). rewrite fmap_app in Hq. set_solver. }
    destruct (insert_after_spec s3 l1 p used l2 q _ H3 Hsp3) as (s4 & Hins & H4 & [Ho4 Ht4] & _).
    erewrite bind_ok by exact Hins.
    destruct (load_member _ _ _ _ _ H4) as (n4 & Hn4 & Hreg4 & _). erewrite bind_ok by exact Hn4.
    eexists s4, _. split.
    { change (start n4) with (r_start (region_of n4)). rewrite Hreg4. reflexivity. }
    split; [exact H4|]. rewrite fmap_app. split; [done|]. rewrite Ht4, Ht3, Ht2, Ho4, Ho3, Ho2.
    split; [done|]. cbn [objs s1]. rewrite Hqs. cbn. lia.
Qed.

(** The addresses [invlpg] is executed on for a region. *)
Definition flushed (addr len_ : Z) : list Z :=
  (fun k => u64 (addr + 0x1000 * k)) <$> seqZ 0 ((len_ + 0xFFF) / 0x1000).

Lemma flush_spec fuel (s : vst A) addr len_ k :
  0 <= k <= (len_ + 0xFFF) / 0x1000 -> len_ <= 2 ^ 64 - 0x1000 ->
  (len_ + 0xFFF) / 0x1000 - k < Z.of_nat fuel ->
  flush_loop fuel addr len_ (0x1000 * k) s =
    Ok (tt, mkV (list_ s) (vheap s) (objs s)
      (reverse ((fun j => u64 (addr + 0x1000 * j)) <$> seqZ k ((len_ + 0xFFF) / 0x1000 - k)) ++ tlb s)).
Proof.
  revert s k. induction fuel as [|fuel IH]; intros s k Hk Hl Hf; [lia|]. cbn [flush_loop].
  destruct (decide (0x1000 * k < len_)) as [Hlt|Hge].
  - erewrite bind_ok by (unfold mm_tlb_invlpg; reflexivity).
    replace (u64 (0x1000 * k + 0x1000)) with (0x1000 * (k + 1)).
    2: { rewrite wrap_small; [lia|]. unfold fits. zlia. }
    rewrite IH by (done || zlia). cbn [list_ vheap objs tlb]. do 3 f_equal.
    rewrite (seqZ_cons k) by zlia. cbn [fmap list_fmap]. rewrite reverse_cons, <-app_assoc.
    replace (Z.pred ((len_ + 4095) / 4096 - k)) with ((len_ + 4095) / 4096 - (k + 1)) by lia.
    by rewrite Z.add_1_r.
  - rewrite seqZ_nil by zlia. by destruct s.
Qed.

Lemma free_spec fuel (s : vst A) l addr :
  is_vmm s l -> (length l < fuel)%nat ->
  Forall (fun r => 0 <= r_len r <= 2 ^ 64 - 0x1000) l.*2 ->
  match free_regions addr l.*2 with
  | None => mm_virtual_free fuel addr s = Ok (0, s)
  | Some (n, rs') => exists s' l', mm_virtual_free fuel addr s = Ok (n, s') /\
      is_vmm s' l' /\ l'.*2 = rs' /\ objs s' = objs s /\
      tlb s' = reverse (flushed addr n) ++ tlb s
  end.
Proof.
  intros H Hf Hlen. unfold mm_virtual_free, free_regions. rewrite split_first_fmap.
  erewrite bind_ok by (unfold gets; reflexivity). rewrite (vmm_head _ _ H).
  erewrite bind_ok by (apply (find_node_spec fuel s [] l); done).
  pose proof (split_first_spec (fun m : member => used_at addr m.2) l) as Hs.
  destruct (split_first _ l) as [[[l1 [p r]] l2]|]; cbn [fmap option_fmap option_map fst snd]; [|done].
  destruct Hs as (-> & Hfit & _). destruct (is_vmm_split _ _ _ _ _ H) as (Hpz & _).
  rewrite decide_False by done.
  destruct (load_member _ _ _ _ _ H) as (n & Hn & Hreg & _). erewrite bind_ok by exact Hn.
  assert (r_start r = start n /\ r_len r = len n /\ r_flags r = flags n) as (Er & El & Efl)
    by (rewrite <-Hreg; done). rewrite <-El, <-Efl. cbv zeta.
  assert (Hr : 0 <= r_len r <= 2 ^ 64 - 0x1000).
  { rewrite Forall_forall in Hlen. apply Hlen. rewrite fmap_app. set_solver. }
  erewrite bind_ok by (apply (flush_spec _ s addr (r_len r) 0); zlia).
  set (s1 := mkV _ _ _ _). assert (H1 : is_vmm s1 (l1 ++ (p, r) :: l2)) by (by destruct H).
  destruct (set_region_spec s1 l1 p r l2 (r_start r) (r_len r) (flip VM_USED VM_FREE (r_flags r)) H1)
    as (s' & Hset & H' & [Ho Ht] & _).
  destruct (load_member _ _ _ _ _ H1) as (n1 & Hn1 & Hreg1 & _).
  unfold set_flags. erewrite bind_ok; [|erewrite bind_ok by exact Hn1;
    rewrite <-Hreg1 in Hset |- *; exact Hset].
  eexists s', _. split; [done|]. split; [exact H'|]. rewrite fmap_app. split; [done|].
  split; [done|]. rewrite Ht. cbn [tlb s1]. unfold flushed. by rewrite Z.sub_0_r.
Qed.
End alloc.

(** ** Carving regions *)

(** Disjoint regions in ascending order, from address [lo] on. *)
Fixpoint ordered (lo : Z) (rs : list region) : Prop :=
  match rs with
  | [] => True
  | r :: rs => lo <= r_start r /\ 0 < r_len r /\ r_start r + r_len r <= 2 ^ 64 /\
               ordered (r_start r + r_len r) rs
  end.

Lemma ordered_app lo rs1 r rs2 : ordered lo (rs1 ++ r :: rs2) ->
  Forall (fun r' => r_start r' + r_len r' <= r_start r) rs1 /\ lo <= r_start r /\ 0 < r_len r /\
  r_start r + r_len r <= 2 ^ 64 /\ ordered (r_start r + r_len r) rs2.
Proof.
  revert lo. induction rs1 as [|r1 rs1 IH]; intros lo; cbn.
  - intros (? & ? & ? & ?). done.
  - intros (H1 & H2 & H3 & (H4 & H5 & H6 & H7 & H8)%IH). repeat split; try done; [|lia].
    by constructor.
Qed.

Lemma ordered_pos lo rs : ordered lo rs -> Forall (fun r => 0 < r_len r) rs.
Proof. revert lo. induction rs as [|r rs IH]; intros lo; cbn; [done|]. intros (?&?&?&?). eauto. Qed.

Lemma ordered_mono lo lo' rs : lo' <= lo -> ordered lo rs -> ordered lo' rs.
Proof. destruct rs as [|r rs]; cbn; [done|]. intros ? (?&?&?&?). repeat split; try done. lia. Qed.

(** Replacing one region by adjacent pieces of it. *)
Lemma ordered_replace lo rs1 r rs2 pieces :
  ordered lo (rs1 ++ r :: rs2) -> ordered (r_start r) pieces ->
  Forall (fun q => r_start q + r_len q <= r_start r + r_len r) pieces ->
  ordered lo (rs1 ++ pieces ++ rs2).
Proof.
  revert lo. induction rs1 as [|r1 rs1 IH]; intros lo; cbn; [|by intros (?&?&?&?); eauto].
  intros (H1 & H2 & H3 & H4) Hp Hq.
  assert (H5 : forall lo2, lo2 <= r_start r + r_len r -> ordered lo2 pieces ->
    ordered lo2 (pieces ++ rs2)).
  { clear Hp. induction Hq as [|q pieces Hq _ IHq]; intros lo2 Hlo; cbn.
    - intros _. by eapply ordered_mono.
    - intros (?&?&?&?). repeat split; try done. by apply IHq. }
  apply (ordered_mono (r_start r)); [done|]. apply H5; [lia|done].
Qed.

Definition carve (r : region) (addr len_ fl : Z) : list region :=
  let rest := r_start r + r_len r - (addr + len_) in
  if decide (r_start r < addr)
  then [ mkR (r_start r) (addr - r_start r) (r_flags r); mkR addr len_ fl; mkR (addr + len_) rest 0 ]
  else [ mkR addr len_ fl; mkR (addr + len_) rest (r_flags r) ].

Section range_set.
Context {A : Type} `{!ObjSource A}.

Lemma find_prev_spec fuel (s : vst A) l1 l2 p r addr : is_vmm s (l1 ++ l2 ++ [(p, r)]) ->
  (length l2 < fuel)%nat ->
  find_prev fuel addr (hd_or 0 (l2 ++ [(p, r)]).*1) s =
    Ok (match split_first (fun m => bool_decide (addr < r_start m.2)) l2 with
        | Some (_, m, _) => m.1 | None => p end, s).
Proof.
  revert l1 l2. induction fuel as [|fuel IH]; intros l1 l2 H Hf; [lia|].
  destruct l2 as [|[q rq] l2]; cbn [find_prev].
  - destruct (is_vmm_split _ _ _ _ _ H) as (Hpz & _ & _ & Hp).
    change (hd_or 0 ([] ++ [(p, r)]).*1) with p. rewrite decide_False by done.
    erewrite bind_ok by (unfold load; by rewrite Hp). cbn. by rewrite decide_False by tauto.
  - destruct (is_vmm_split s l1 q rq (l2 ++ [(p, r)]) H) as (Hqz & _ & _ & Hq).
    change (hd_or 0 (((q, rq) :: l2) ++ [(p, r)]).*1) with q. rewrite decide_False by done.
    erewrite bind_ok by (unfold load; by rewrite Hq). cbn [next start split_first fst snd].
    assert (hd_or 0 (l2 ++ [(p, r)]).*1 <> 0).
    { destruct l2 as [|[x rx] l2].
      - rewrite (app_assoc _ [(q, rq)] [(p, r)]) in H. by destruct (is_vmm_split _ _ _ _ _ H).
      - change (l1 ++ ((q, rq) :: (x, rx) :: l2) ++ [(p, r)])
          with (l1 ++ [(q, rq)] ++ (x, rx) :: (l2 ++ [(p, r)])) in H. rewrite app_assoc in H.
        by destruct (is_vmm_split _ _ _ _ _ H). }
    case_bool_decide as Ha.
    + rewrite decide_False by lia. done.
    + rewrite decide_True by lia. rewrite (IH (l1 ++ [(q, rq)]) l2);
        [|by rewrite <-!app_assoc|cbn in Hf; lia].
      by destruct (split_first _ l2) as [[[? ?] ?]|].
Qed.

(** The region found starts above [addr]: nothing matches. *)
Lemma range_place_above (s : vst A) l1 p r l2 new addr len_ fl : is_vmm s (l1 ++ (p, r) :: l2) ->
  addr < r_start r -> 0 < r_len r -> r_start r + r_len r <= 2 ^ 64 -> 0 <= addr ->
  range_place p (hd_or 0 l2.*1) new addr len_ fl s = Stop (Panicked "unhandled overlap").
Proof.
  intros H Ha Hl He H0. destruct (load_member _ _ _ _ _ H) as (n & Hn & Hreg & _).
  unfold range_place. erewrite bind_ok by exact Hn.
  assert (r_start r = start n /\ r_len r = len n) as (<- & <-) by (rewrite <-Hreg; done).
  assert (u64 (r_start r + r_len r - 1) = r_start r + r_len r - 1) as ->
    by (apply wrap_small; unfold fits; lia).
  rewrite (bool_decide_eq_false_2 (r_start r + r_len r - 1 < addr)) by lia.
  rewrite (bool_decide_eq_false_2 (r_start r <= addr /\ _)) by lia. cbv zeta.
  destruct l2 as [|[q rq] l2].
  - change (hd_or 0 (@nil member).*1) with 0. rewrite decide_True by done. done.
  - change (hd_or 0 ((q, rq) :: l2).*1) with q.
    rewrite (app_assoc l1 [(p, r)] ((q, rq) :: l2)) in H || 
      replace (l1 ++ (p, r) :: (q, rq) :: l2) with ((l1 ++ [(p, r)]) ++ (q, rq) :: l2) in H
        by (by rewrite <-app_assoc).
    destruct (is_vmm_split _ _ _ _ _ H) as (Hqz & _ & _ & Hq). rewrite decide_False by done.
    erewrite (bind_ok (load q ≫= _)).
    2: { erewrite bind_ok by (unfold load; by rewrite Hq). reflexivity. }
    by rewrite andb_false_l.
Qed.

Lemma set_len_eq (s : vst A) p n x : load p s = Ok (n, s) ->
  set_len p x s = set_region p (start n) x (flags n) s.
Proof. intros Hn. unfold set_len. by erewrite bind_ok by exact Hn. Qed.
Lemma set_start_eq (s : vst A) p n x : load p s = Ok (n, s) ->
  set_start p x s = set_region p x (len n) (flags n) s.
Proof. intros Hn. unfold set_start. by erewrite bind_ok by exact Hn. Qed.
Lemma set_flags_eq (s : vst A) p n x : load p s = Ok (n, s) ->
  set_flags p x s = set_region p (start n) (len n) x s.
Proof. intros Hn. unfold set_flags. by erewrite bind_ok by exact Hn. Qed.

Lemma load_spare (s : vst A) l p r : spare s l p r ->
  exists n, load p s = Ok (n, s) /\ region_of n = r.
Proof. intros (_ & _ & _ & (n & Hn & Hr)). exists n. unfold load. cbn in Hn. by rewrite Hn. Qed.

(** Writing the fields of a member one by one. *)
Lemma set_len_spec (s : vst A) l1 p r l2 x : is_vmm s (l1 ++ (p, r) :: l2) ->
  exists s', set_len p x s = Ok (tt, s') /\
    is_vmm s' (l1 ++ (p, mkR (r_start r) x (r_flags r)) :: l2) /\
    same_rest s s' /\ list_ s' = list_ s /\ (forall q, q <> p -> vheap s' !! q = vheap s !! q).
Proof.
  intros H. destruct (load_member _ _ _ _ _ H) as (n & Hn & <- & _).
  rewrite (set_len_eq _ _ _ _ Hn). by apply set_region_spec with (r := region_of n).
Qed.
Lemma set_flags_spec (s : vst A) l1 p r l2 x : is_vmm s (l1 ++ (p, r) :: l2) ->
  exists s', set_flags p x s = Ok (tt, s') /\
    is_vmm s' (l1 ++ (p, mkR (r_start r) (r_len r) x) :: l2) /\
    same_rest s s' /\ list_ s' = list_ s /\ (forall q, q <> p -> vheap s' !! q = vheap s !! q).
Proof.
  intros H. destruct (load_member _ _ _ _ _ H) as (n & Hn & <- & _).
  rewrite (set_flags_eq _ _ _ _ Hn). by apply set_region_spec with (r := region_of n).
Qed.
Lemma set_start_spare (s : vst A) l p r x : is_vmm s l -> spare s l p r ->
  exists s', set_start p x s = Ok (tt, s') /\ is_vmm s' l /\
    spare s' l p (mkR x (r_len r) (r_flags r)) /\ same_rest s s' /\
    (forall q, q <> p -> vheap s' !! q = vheap s !! q).
Proof.
  intros H Hs. destruct (load_spare _ _ _ _ Hs) as (n & Hn & <-).
  rewrite (set_start_eq _ _ _ _ Hn). by apply set_region_spare with (r := region_of n).
Qed.
Lemma set_len_spare (s : vst A) l p r x : is_vmm s l -> spare s l p r ->
  exists s', set_len p x s = Ok (tt, s') /\ is_vmm s' l /\
    spare s' l p (mkR (r_start r) x (r_flags r)) /\ same_rest s s' /\
    (forall q, q <> p -> vheap s' !! q = vheap s !! q).
Proof.
  intros H Hs. destruct (load_spare _ _ _ _ Hs) as (n & Hn & <-).
  rewrite (set_len_eq _ _ _ _ Hn). by apply set_region_spare with (r := region_of n).
Qed.

(** Another node can be taken while one is spare. *)
Lemma new_node_spare (s : vst A) l p r q qs : is_vmm s l -> spare s l p r ->
  objects (objs s) = q :: qs ->
  exists s', new_node s = Ok (q, s') /\ is_vmm s' l /\ spare s' l p r /\
    spare s' l q (mkR 0 0 0) /\ p <> q /\ objects (objs s') = qs /\ tlb s' = tlb s.
Proof.
  intros H (H1 & H2 & H3 & (n & H4 & H5)) Hq.
  destruct (new_node_spec s l q qs H Hq) as (a & Hr & H' & Hsp & Ha).
  rewrite Hq in H3. eexists. split; [exact Hr|]. split; [exact H'|]. split; [|].
  - do 2 (split; [done|]). cbn. rewrite Ha. split; [set_solver|]. exists n. cbn in *.
    rewrite lookup_insert_ne by set_solver. done.
  - split; [exact Hsp|]. split; [set_solver|done].
Qed.

Lemma spare_keep (s s' : vst A) l l' p q r : spare s l p r -> p <> q -> same_rest s s' ->
  l'.*1 = l.*1 -> (forall x, x <> q -> vheap s' !! x = vheap s !! x) -> spare s' l' p r.
Proof.
  intros Hs Hpq Hsame Hl Hh. eapply spare_transfer; [exact Hs|done|by rewrite Hl|by apply Hh].
Qed.

Lemma place_middle (s : vst A) l p r new x addr len_ fl q qs :
  is_vmm s (l ++ [(p, r)]) -> spare s (l ++ [(p, r)]) new x -> objects (objs s) = q :: qs ->
  0 <= r_start r -> r_start r + r_len r <= 2 ^ 64 ->
  r_start r < addr -> 0 < len_ -> addr + len_ < r_start r + r_len r ->
  exists s' l', range_place p 0 new addr len_ fl s = Ok (tt, s') /\
    is_vmm s' l' /\ l'.*2 = l.*2 ++ carve r addr len_ fl /\ objects (objs s') = qs /\
    tlb s' = tlb s.
Proof.
  intros H Hsp Hobj Hs0 Hend Ha Hl He.
  assert (Hu : forall z, 0 <= z < 2 ^ 64 -> u64 z = z) by (intros; by apply wrap_small).
  destruct (load_member _ _ _ _ _ H) as (n & Hn & Hreg & _).
  assert (r_start r = start n /\ r_len r = len n) as (Es & El) by (rewrite <-Hreg; done).
  unfold range_place. erewrite bind_ok by exact Hn. rewrite <-Es, <-El. cbv zeta.
  rewrite decide_True by done. erewrite bind_ok by done.
  rewrite !(Hu (r_start r + r_len r - 1)), !(Hu (addr + len_ - 1)) by lia.
  rewrite andb_false_r. rewrite (bool_decide_eq_true_2 (r_start r <= addr /\ _)) by lia.
  rewrite (bool_decide_eq_false_2 (r_start r = addr)), (bool_decide_eq_false_2 (_ - 1 = _)) by lia.
  cbn [andb negb].
  destruct (new_node_spare s _ new x q qs H Hsp Hobj) as (s1 & R1 & H1 & Sn1 & Sq1 & Hnq & O1 & T1).
  erewrite bind_ok by exact R1.
  destruct (load_member _ _ _ _ _ H1) as (n1 & Hn1 & Hreg1 & _). erewrite bind_ok by exact Hn1.
  assert (r_start r = start n1 /\ r_len r = len n1) as (<- & <-) by (rewrite <-Hreg1; done).
  assert (Hmem : forall (s' : vst A) r' y z, spare s' (l ++ [(p, r')]) y z -> y <> p).
  { intros s' r' y z (_ & Hy & _) ->. rewrite fmap_app in Hy. set_solver. }
  rewrite (Hu (addr - r_start r)) by lia.
  destruct (set_len_spec s1 l p r [] (addr - r_start r) H1) as (s2 & R2 & H2 & E2 & _ & K2).
  erewrite bind_ok by exact R2. set (r1 := mkR (r_start r) _ _) in *.
  assert (Sn2 : spare s2 (l ++ [(p, r1)]) new x) by
    (eapply spare_keep; [exact Sn1|by eapply Hmem|done|by rewrite !fmap_app|done]).
  assert (Sq2 : spare s2 (l ++ [(p, r1)]) q (mkR 0 0 0)) by
    (eapply spare_keep; [exact Sq1|by eapply Hmem|done|by rewrite !fmap_app|done]).
  destruct (set_region_spare s2 _ new x addr len_ fl H2 Sn2) as (s3 & R3 & H3 & Sn3 & E3 & K3).
  erewrite bind_ok by exact R3.
  assert (Sq3 : spare s3 (l ++ [(p, r1)]) q (mkR 0 0 0)) by
    (eapply spare_keep; [exact Sq2|apply not_eq_sym, Hnq|done|done|done]).
  rewrite (Hu (addr + len_)) by lia.
  destruct (set_start_spare s3 _ q _ (addr + len_) H3 Sq3) as (s4 & R4 & H4 & Sq4 & E4 & K4).
  erewrite bind_ok by exact R4.
  assert (Sn4 : spare s4 (l ++ [(p, r1)]) new (mkR addr len_ fl)) by
    (eapply spare_keep; [exact Sn3|exact Hnq|done|done|done]).
  destruct (load_member _ _ _ _ _ H4) as (n4 & Hn4 & Hreg4 & _). erewrite bind_ok by exact Hn4.
  assert (len n4 = addr - r_start r) as -> by (change (len n4) with (r_len (region_of n4)); by rewrite Hreg4).
  rewrite (Hu (r_len r - (addr - r_start r) - len_)) by lia.
  destruct (set_len_spare s4 _ q _ (r_len r - (addr - r_start r) - len_) H4 Sq4)
    as (s5 & R5 & H5 & Sq5 & E5 & K5). erewrite bind_ok by exact R5. cbn [r_start r_len r_flags] in Sq5.
  assert (Sn5 : spare s5 (l ++ [(p, r1)]) new (mkR addr len_ fl)) by
    (eapply spare_keep; [exact Sn4|exact Hnq|done|done|done]).
  destruct (insert_after_spec s5 l p r1 [] new _ H5 Sn5) as (s6 & R6 & H6 & E6 & K6).
  erewrite bind_ok by exact R6.
  replace (l ++ [(p, r1); (new, mkR addr len_ fl)])
    with ((l ++ [(p, r1)]) ++ (new, mkR addr len_ fl) :: []) in H6 by (by rewrite <-app_assoc).
  assert (Sq6 : spare s6 ((l ++ [(p, r1)]) ++ (new, mkR addr len_ fl) :: []) q
    (mkR (addr + len_) (r_len r - (addr - r_start r) - len_) 0)).
  { destruct Sq5 as (Z1 & Z2 & Z3 & (nq & Z4 & Z5)). destruct E6 as [Eo6 _].
    split; [done|]. split; [|split].
    - rewrite fmap_app. cbn. set_solver.
    - by rewrite Eo6.
    - exists nq. cbn in *. split; [|done]. rewrite K6; [done|done|]. by apply not_eq_sym. }
  destruct (insert_after_spec s6 _ new _ [] q _ H6 Sq6) as (s7 & R7 & H7 & E7 & _).
  exists s7, ((l ++ [(p, r1)]) ++ [(new, mkR addr len_ fl);
    (q, mkR (addr + len_) (r_len r - (addr - r_start r) - len_) 0)]).
  split; [exact R7|]. split; [exact H7|].
  destruct E2 as [? T2], E3 as [? T3], E4 as [? T4], E5 as [? T5], E6 as [? T6], E7 as [? T7].
  split; [|split; congruence].
  rewrite <-app_assoc, fmap_app. cbn. unfold carve. rewrite decide_True by lia. unfold r1.
  do 5 f_equal. lia.
Qed.

Lemma place_start (s : vst A) l p r new x len_ fl :
  is_vmm s (l ++ [(p, r)]) -> spare s (l ++ [(p, r)]) new x ->
  0 <= r_start r -> r_start r + r_len r <= 2 ^ 64 ->
  0 < len_ < r_len r ->
  exists s' l', range_place p 0 new (r_start r) len_ fl s = Ok (tt, s') /\
    is_vmm s' l' /\ l'.*2 = l.*2 ++ carve r (r_start r) len_ fl /\ objs s' = objs s /\
    tlb s' = tlb s.
Proof.
  intros H Hsp Hs0 Hend Hl.
  assert (Hu : forall z, 0 <= z < 2 ^ 64 -> u64 z = z) by (intros; by apply wrap_small).
  destruct (load_member _ _ _ _ _ H) as (n & Hn & Hreg & _).
  assert (r_start r = start n /\ r_len r = len n /\ r_flags r = flags n) as (Es & El & Ef)
    by (rewrite <-Hreg; done).
  unfold range_place. erewrite bind_ok by exact Hn. rewrite <-Es, <-El. cbv zeta.
  rewrite decide_True by done. erewrite bind_ok by done.
  rewrite !(Hu (r_start r + r_len r - 1)), !(Hu (r_start r + len_ - 1)) by lia.
  rewrite andb_false_r. rewrite (bool_decide_eq_true_2 (r_start r <= r_start r /\ _)) by lia.
  rewrite (bool_decide_eq_true_2 (r_start r = r_start r)), (bool_decide_eq_false_2 (_ - 1 = _)) by lia.
  cbn [andb negb]. erewrite bind_ok by exact Hn. rewrite <-El, <-Ef.
  rewrite (Hu (r_start r + len_)), (Hu (r_len r - len_)) by lia.
  assert (Hnp : new <> p). { destruct Hsp as (_ & Hy & _). intros ->. rewrite fmap_app in Hy. set_solver. }
  destruct (set_region_spare s _ new x (r_start r + len_) (r_len r - len_) (r_flags r) H Hsp)
    as (s1 & R1 & H1 & Sn1 & E1 & K1). erewrite bind_ok by exact R1.
  destruct (set_len_spec s1 l p r [] len_ H1) as (s2 & R2 & H2 & E2 & _ & K2).
  erewrite bind_ok by exact R2.
  destruct (set_flags_spec s2 l p _ [] fl H2) as (s3 & R3 & H3 & E3 & _ & K3).
  erewrite bind_ok by exact R3. cbn [r_start r_len r_flags] in H3.
  assert (Sn3 : spare s3 (l ++ [(p, mkR (r_start r) len_ fl)]) new
    (mkR (r_start r + len_) (r_len r - len_) (r_flags r))).
  { eapply spare_transfer; [exact Sn1| |by rewrite !fmap_app|].
    - destruct E2, E3. split; congruence.
    - by rewrite K3, K2. }
  destruct (insert_after_spec s3 l p _ [] new _ H3 Sn3) as (s4 & R4 & H4 & E4 & _).
  eexists s4, _. split; [exact R4|]. split; [exact H4|].
  destruct E1 as [? ?], E2 as [? ?], E3 as [? ?], E4 as [? ?].
  split; [|split; congruence]. rewrite fmap_app. cbn. unfold carve. rewrite decide_False by lia.
  do 4 f_equal. lia.
Qed.

(** The remaining positions relative to the last region. *)
Lemma place_outside (s : vst A) l p r new addr len_ fl :
  is_vmm s (l ++ [(p, r)]) -> 0 <= r_start r <= addr -> 0 < r_len r ->
  r_start r + r_len r <= 2 ^ 64 -> 0 < len_ -> r_start r + r_len r <= addr + len_ <= 2 ^ 64 ->
  exists msg, range_place p 0 new addr len_ fl s = Stop (Panicked msg).
Proof.
  intros H Ha Hr He Hl Hx.
  assert (Hu : forall z, 0 <= z < 2 ^ 64 -> u64 z = z) by (intros; by apply wrap_small).
  destruct (load_member _ _ _ _ _ H) as (n & Hn & Hreg & _).
  assert (r_start r = start n /\ r_len r = len n) as (Es & El) by (rewrite <-Hreg; done).
  unfold range_place. erewrite bind_ok by exact Hn. rewrite <-Es, <-El. cbv zeta.
  rewrite decide_True by done. erewrite bind_ok by done.
  rewrite !(Hu (r_start r + r_len r - 1)), !(Hu (addr + len_ - 1)) by lia.
  rewrite andb_false_r.
  case_bool_decide as Hw; [|cbn [andb]; eauto].
  rewrite (bool_decide_eq_true_2 (_ - 1 = _)) by lia.
  case_bool_decide; cbn [andb negb]; eauto.
Qed.

Lemma range_set_spec fuel (s : vst A) l p r addr len_ fl q1 q2 qs :
  is_vmm s (l ++ [(p, r)]) -> ordered 0 (l.*2 ++ [r]) -> (length l < fuel)%nat ->
  objects (objs s) = q1 :: q2 :: qs ->
  addr mod 4096 = 0 -> len_ mod 4096 = 0 -> 0 <= addr -> 0 < len_ -> addr + len_ <= 2 ^ 64 ->
  if decide (r_start r <= addr /\ addr + len_ < r_start r + r_len r) then
    exists s' l', mm_virtual_range_set fuel addr len_ fl s = Ok (tt, s') /\
      is_vmm s' l' /\ l'.*2 = l.*2 ++ carve r addr len_ fl /\ tlb s' = tlb s /\
      objects (objs s') = if decide (r_start r < addr) then qs else q2 :: qs
  else exists msg, mm_virtual_range_set fuel addr len_ fl s = Stop (Panicked msg).
Proof.
  intros H Hord Hf Hobj Hal Hll H0 Hl He.
  assert (Halign : forall x, x mod 4096 = 0 -> x .& 0xFFF = 0).
  { intros x Hx. change 0xFFF with (Z.ones 12). by rewrite land_low by lia. }
  pose proof (ordered_app 0 l.*2 r [] Hord) as (Hbelow & Hs0 & Hr & Hend & _).
  unfold mm_virtual_range_set.
  rewrite (bool_decide_eq_true_2 (addr .& _ = 0)), (bool_decide_eq_true_2 (len_ .& _ = 0)) by auto.
  erewrite bind_ok by done. erewrite bind_ok by done.
  erewrite bind_ok by (unfold gets; reflexivity). rewrite (vmm_head _ _ H).
  erewrite bind_ok by (apply (find_prev_spec fuel s [] l p r addr); done).
  pose proof (split_first_spec (fun m : member => bool_decide (addr < r_start m.2)) l) as Hs.
  destruct (split_first _ l) as [[[l1 [q rq]] l2]|].
  - destruct Hs as (-> & Hq%bool_decide_eq_true & _). cbn [fst snd] in *.
    rewrite decide_False.
    2: { intros [Hle _]. rewrite fmap_app in Hbelow. apply Forall_app in Hbelow as [_ Hb].
      inversion Hb; subst. rewrite fmap_app, <-app_assoc in Hord. cbn in Hord.
      apply ordered_app in Hord as (_ & _ & ? & _). cbn in *. lia. }
    rewrite <-app_assoc in H. cbn [app] in H.
    destruct (is_vmm_split _ _ _ _ _ H) as (Hqz & _ & _ & Hqh).
    rewrite decide_False by done.
    erewrite (bind_ok (load q ≫= _)).
    2: { erewrite bind_ok by (unfold load; by rewrite Hqh). reflexivity. }
    cbn [next]. destruct (new_node_spec s _ q1 _ H Hobj) as (a & Hnew & H1 & _).
    erewrite bind_ok by exact Hnew. rewrite decide_False by tauto.
    rewrite fmap_app, <-app_assoc in Hord. cbn in Hord.
    apply ordered_app in Hord as (_ & _ & ? & ? & _).
    rewrite (range_place_above _ l1 q rq (l2 ++ [(p, r)])); eauto.
  - destruct (is_vmm_split _ _ _ _ _ H) as (Hpz & _ & _ & Hp). rewrite (decide_False (P := p = 0)) by done.
    erewrite (bind_ok (load p ≫= _)).
    2: { erewrite bind_ok by (unfold load; by rewrite Hp). reflexivity. }
    cbn [next]. change (hd_or 0 (@nil member).*1) with 0.
    destruct (new_node_spec s _ q1 _ H Hobj) as (a & Hnew & H1 & Hsp & Ha).
    erewrite bind_ok by exact Hnew. rewrite (decide_False (P := p = 0 /\ _)) by tauto.
    set (s1 := mkV _ _ a _) in *. cbv zeta in H1, Hsp.
    case_decide as Hd.
    + destruct (decide (r_start r < addr)) as [Hlt|Hge].
      * destruct (place_middle s1 l p r q1 _ addr len_ fl q2 qs H1 Hsp) as (s' & l' & R & ? & ? & ? & ?);
          [exact Ha|lia..|]. exists s', l'. done.
      * assert (addr = r_start r) as -> by lia.
        destruct (place_start s1 l p r q1 _ len_ fl H1 Hsp) as (s' & l' & R & ? & ? & Ho & ?);
          [lia..|]. exists s', l'. do 3 (split; [done|]). split; [done|]. by rewrite Ho.
    + destruct (decide (r_start r <= addr)).
      * apply place_outside with (l := l) (r := r); done || lia.
      * rewrite (range_place_above s1 l p r []) by (done || lia). eauto.
Qed.

Lemma range_set_first fuel (s : vst A) addr len_ fl q1 qs :
  is_vmm s [] -> objects (objs s) = q1 :: qs -> (0 < fuel)%nat ->
  addr mod 4096 = 0 -> len_ mod 4096 = 0 ->
  exists s', mm_virtual_range_set fuel addr len_ fl s = Ok (tt, s') /\
    is_vmm s' [(q1, mkR addr len_ fl)] /\ objects (objs s') = qs /\ tlb s' = tlb s.
Proof.
  intros H Hobj Hf Hal Hll.
  assert (Halign : forall x, x mod 4096 = 0 -> x .& 0xFFF = 0).
  { intros x Hx. change 0xFFF with (Z.ones 12). by rewrite land_low by lia. }
  destruct (new_node_spec s _ q1 _ H Hobj) as (a & Hnew & H1 & Hsp & Ha).
  pose proof (vmm_head _ _ H) as Hh. cbn in Hh. unfold hd_or in Hh. cbn in Hh.
  unfold mm_virtual_range_set.
  rewrite (bool_decide_eq_true_2 (addr .& _ = 0)), (bool_decide_eq_true_2 (len_ .& _ = 0)) by auto.
  erewrite bind_ok by done. erewrite bind_ok by done.
  erewrite bind_ok by (unfold gets; reflexivity). rewrite Hh.
  destruct fuel as [|fuel]; [lia|].
  erewrite (bind_ok (find_prev _ _ _)) by done. rewrite decide_True by done.
  erewrite (bind_ok (mret 0)) by done. erewrite bind_ok by exact Hnew. rewrite decide_True by done.
  destruct Hsp as (Hq0 & _ & Hqo & _). destruct H1 as [_ _ _ Hwf _]. cbn in Hqo, Hwf.
  eexists. split; [run_vmm; reflexivity|]. split; [|done]. split; cbn.
  - split; [done|]. split; [done|]. split; [apply NoDup_singleton|]. cbn. split; [done|].
    unfold pv, nx. by rewrite lookup_insert_eq.
  - constructor; [|done]. eexists. cbn. rewrite lookup_insert_eq. done.
  - done.
  - done.
  - intros x ->%list_elem_of_singleton. done.
Qed.
End range_set.

(** ** Flags *)

Lemma flip_bit c s f i : 0 <= i -> 0 <= c -> 0 <= s < 64 -> c < 64 ->
  Z.testbit (flip (2 ^ c) (2 ^ s) f) i =
    (Z.testbit f i && bool_decide (i < 64) && negb (i =? c)) || (i =? s).
Proof.
  intros Hi Hc Hs Hc2. unfold flip. rewrite Z.lor_spec, Z.land_spec.
  rewrite Z.pow2_bits_eqb, (Z.eqb_sym s) by lia. f_equal. rewrite <-andb_assoc. f_equal.
  case_bool_decide.
  - rewrite bnot_testbit, Z.pow2_bits_eqb by lia. cbn. by rewrite Z.eqb_sym.
  - rewrite (testbit_small _ 64 i); [done|apply bnot_fits; lia|lia].
Qed.

Lemma flip_flip f :
  flip VM_FREE VM_USED (flip VM_USED VM_FREE (flip VM_FREE VM_USED f)) = flip VM_FREE VM_USED f.
Proof.
  apply Z.bits_inj'. intros i Hi. change VM_FREE with (2 ^ 0). change VM_USED with (2 ^ 1).
  rewrite !flip_bit by lia. repeat case_bool_decide.
  all: destruct (Z.testbit f i), (Z.eqb_spec i 0), (Z.eqb_spec i 1); (done || lia).
Qed.

Lemma land_pow2_nz x n : 0 <= n -> x .& 2 ^ n <> 0 <-> Z.testbit x n = true.
Proof. intros Hn. rewrite land_bit by done. destruct (Z.testbit x n); [|done]. pose proof (Z.pow_pos_nonneg 2 n). intuition lia. Qed.

Lemma flip_used f : flip VM_FREE VM_USED f .& VM_USED <> 0.
Proof.
  change VM_FREE with (2 ^ 0). change VM_USED with (2 ^ 1). rewrite land_pow2_nz, flip_bit by lia.
  apply orb_true_r.
Qed.
Lemma flip_free f : flip VM_USED VM_FREE f .& VM_FREE <> 0.
Proof.
  change VM_FREE with (2 ^ 0). change VM_USED with (2 ^ 1). rewrite land_pow2_nz, flip_bit by lia.
  apply orb_true_r.
Qed.

(** ** Properties of the abstract allocator *)

(** The pieces a first-fit allocation leaves of the region it uses. *)
Definition pieces (r : region) (size : Z) : list region :=
  mkR (r_start r) size (flip VM_FREE VM_USED (r_flags r)) ::
  (if decide (r_len r = size) then []
   else [mkR (r_start r + size) (r_len r - size) (r_flags r)]).

Lemma alloc_regions_ordered size rs : ordered 0 rs -> 0 < size ->
  match alloc_regions size rs with
  | None => Forall (fun r => fits_request size r = false) rs
  | Some (a, rs') => exists rs1 r rs2, rs = rs1 ++ r :: rs2 /\
      Forall (fun r => fits_request size r = false) rs1 /\ fits_request size r = true /\
      a = r_start r /\ rs' = rs1 ++ pieces r size ++ rs2 /\ ordered 0 rs'
  end.
Proof.
  intros Hord Hsz. unfold alloc_regions. pose proof (split_first_spec (fits_request size) rs) as Hs.
  destruct (split_first _ rs) as [[[rs1 r] rs2]|]; [|done]. destruct Hs as (-> & Hfit & Hf).
  exists rs1, r, rs2. do 4 (split; [done|]).
  pose proof (ordered_app 0 rs1 r rs2 Hord) as (_ & Hs0 & Hr & Hend & _).
  apply bool_decide_eq_true in Hfit as [_ Hle].
  assert (E : (if decide (r_len r = size)
    then rs1 ++ mkR (r_start r) size (flip VM_FREE VM_USED (r_flags r)) :: rs2
    else rs1 ++ mkR (r_start r) size (flip VM_FREE VM_USED (r_flags r))
      :: mkR (u64 (r_start r + size)) (u64 (r_len r - size)) (r_flags r) :: rs2)
    = rs1 ++ pieces r size ++ rs2).
  { unfold pieces. case_decide; [done|]. by rewrite !wrap_small by (unfold fits; lia). }
  split; [done|]. rewrite E. apply (ordered_replace 0 rs1 r rs2); [done|..].
  - unfold pieces. case_decide; cbn; lia.
  - unfold pieces. case_decide; repeat constructor; cbn; lia.
Qed.

Lemma free_alloc_regions size rs1 r rs2 :
  ordered 0 (rs1 ++ pieces r size ++ rs2) -> 0 < size ->
  Forall (fun r => fits_request size r = false) rs1 ->
  exists rs', free_regions (r_start r) (rs1 ++ pieces r size ++ rs2) = Some (size, rs') /\
    alloc_regions size rs' = Some (r_start r, rs1 ++ pieces r size ++ rs2) /\
    length rs' = length (rs1 ++ pieces r size ++ rs2).
Proof.
  intros Hord Hsz Hf. unfold pieces in *. cbn [app] in *.
  set (used := mkR (r_start r) size _) in *. set (rest := if decide _ then _ else _) in *.
  unfold free_regions. rewrite (split_first_app (used_at (r_start r)) rs1 used (rest ++ rs2)).
  2: { pose proof Hord as Hord'. apply ordered_app in Hord as (Hb & _).
    rewrite !Forall_forall in *. intros x Hx. apply bool_decide_eq_false. intros [E _].
    specialize (Hb x Hx). cbn in Hb.
    pose proof (ordered_pos 0 _ Hord') as Hp. rewrite Forall_forall in Hp.
    specialize (Hp x ltac:(set_solver)). lia. }
  2: { apply bool_decide_eq_true. split; [done|]. apply flip_used. }
  eexists. split; [reflexivity|]. split; [|by rewrite !length_app].
  unfold alloc_regions. rewrite split_first_app; [|done|].
  2: { apply bool_decide_eq_true. cbn. split; [apply flip_free|lia]. }
  cbn [r_start r_len r_flags used]. by rewrite decide_True, flip_flip by done.
Qed.

(** One carving step, in terms of the region list and the number of nodes left. *)
Lemma range_set_step {A} `{!ObjSource A} (s : vst A) l rs r addr len_ fl (n : nat) :
  is_vmm s l -> l.*2 = rs ++ [r] -> ordered 0 (rs ++ [r]) -> (length rs < 9)%nat ->
  length (objects (objs s)) = S (S n) ->
  addr mod 4096 = 0 -> len_ mod 4096 = 0 -> 0 <= addr -> 0 < len_ -> addr + len_ <= 2 ^ 64 ->
  r_start r <= addr -> addr + len_ < r_start r + r_len r ->
  exists s' l', mm_virtual_range_set 9 addr len_ fl s = Ok (tt, s') /\ is_vmm s' l' /\
    l'.*2 = rs ++ carve r addr len_ fl /\
    length (objects (objs s')) = if decide (r_start r < addr) then n else S n.
Proof.
  intros H Hl Hord Hf Hn Hal Hll H0 Hlen He Hs Hend.
  destruct l as [|[p r'] l _] using rev_ind; [by destruct rs|].
  rewrite fmap_app in Hl. apply app_inj_tail in Hl as [<- <-]. cbn [snd] in *.
  destruct (objects (objs s)) as [|q1 [|q2 qs]] eqn:Eo; [done..|].
  pose proof (range_set_spec 9 s l p r' addr len_ fl q1 q2 qs H Hord) as Hr.
  rewrite length_fmap in Hf. specialize (Hr Hf Eo Hal Hll H0 Hlen He).
  rewrite decide_True in Hr by done. destruct Hr as (s' & l' & Hrun & H' & Hl' & _ & Ho).
  exists s', l'. do 3 (split; [done|]). rewrite Ho. cbn in Hn. case_decide; cbn; lia.
Qed.

(** ** Properties *)

Section properties.
Context {A : Type} `{!ObjSource A}.

(** C22: allocation is first fit. For [0 < pages < 2^52] on an ordered region list,
    [mm_virtual_alloc] returns 0 and changes nothing when no free region is large enough;
    otherwise it returns the start of the first one that is, which becomes a used region
    of exactly the requested size, the unused rest (if any) staying behind it with the old
    flags, in a list that is again disjoint and in order. *)
Theorem mm_virtual_alloc_first_fit fuel (s : vst A) l pages :
  is_vmm s l -> ordered 0 l.*2 -> (length l < fuel)%nat -> 0 < pages < 2 ^ 52 ->
  objects (objs s) <> [] ->
  (Forall (fun r => fits_request (4096 * pages) r = false) l.*2 /\
     mm_virtual_alloc fuel pages s = Ok (0, s)) \/
  (exists s' l' rs1 r rs2, mm_virtual_alloc fuel pages s = Ok (r_start r, s') /\
     l.*2 = rs1 ++ r :: rs2 /\ fits_request (4096 * pages) r = true /\
     Forall (fun r => fits_request (4096 * pages) r = false) rs1 /\
     is_vmm s' l' /\ l'.*2 = rs1 ++ pieces r (4096 * pages) ++ rs2 /\ ordered 0 l'.*2).
Proof.
  intros H Hord Hf Hp Hobj. pose proof (alloc_spec fuel s l pages H Hf ltac:(lia) Hobj) as Ha.
  assert (u64 (pages ≪ 12) = 4096 * pages) as E.
  { rewrite Z.shiftl_mul_pow2 by lia. rewrite wrap_small; [lia|]. unfold fits. lia. }
  rewrite E in Ha. pose proof (alloc_regions_ordered (4096 * pages) l.*2 Hord ltac:(lia)) as Hr.
  destruct (alloc_regions _ _) as [[a rs']|]; [|by left]. right.
  destruct Hr as (rs1 & r & rs2 & Hl & Hno & Hfit & -> & -> & Hord').
  destruct Ha as (s' & l' & Hrun & H' & Hl' & _).
  exists s', l', rs1, r, rs2. rewrite Hl'. done.
Qed.

(** C23: freeing and re-allocating. After a successful allocation, freeing the returned
    address returns the allocated size, flushes exactly the pages of the region from the
    TLB and leaves its region free; allocating the same size again then returns the same
    address and restores the region list, without taking another node. *)
Theorem mm_virtual_free_realloc fuel (s : vst A) l rs1 r rs2 pages :
  is_vmm s l -> l.*2 = rs1 ++ pieces r (4096 * pages) ++ rs2 -> ordered 0 l.*2 ->
  Forall (fun r => r_len r <= 2 ^ 64 - 4096) l.*2 ->
  Forall (fun r => fits_request (4096 * pages) r = false) rs1 ->
  (length l < fuel)%nat -> 0 < pages < 2 ^ 52 -> objects (objs s) <> [] ->
  exists s1 l1 s2 l2, mm_virtual_free fuel (r_start r) s = Ok (4096 * pages, s1) /\
    is_vmm s1 l1 /\ free_regions (r_start r) l.*2 = Some (4096 * pages, l1.*2) /\
    tlb s1 = reverse (flushed (r_start r) (4096 * pages)) ++ tlb s /\
    mm_virtual_alloc fuel pages s1 = Ok (r_start r, s2) /\ is_vmm s2 l2 /\ l2.*2 = l.*2.
Proof.
  intros H Hl Hord Hlen Hno Hf Hp Hobj.
  pose proof (free_spec fuel s l (r_start r) H Hf) as Hfree.
  rewrite Hl in Hord, Hfree. rewrite Hl in Hlen.
  destruct (free_alloc_regions (4096 * pages) rs1 r rs2 Hord ltac:(lia) Hno) as (rs' & Hfr & Har & Hlr).
  rewrite Hfr in Hfree. destruct Hfree as (s1 & l1 & Hrun & H1 & Hl1 & Hob & Htlb).
  { pose proof (ordered_pos 0 _ Hord) as Hpos. rewrite Forall_forall in *. intros x Hx.
    specialize (Hlen x Hx). specialize (Hpos x Hx). lia. }
  assert (Hf1 : (length l1 < fuel)%nat).
  { rewrite <-(length_fmap snd l1), Hl1, Hlr, <-Hl, length_fmap. done. }
  pose proof (alloc_spec fuel s1 l1 pages H1 Hf1 ltac:(lia) ltac:(by rewrite Hob)) as Ha.
  assert (u64 (pages ≪ 12) = 4096 * pages) as E.
  { rewrite Z.shiftl_mul_pow2 by lia. rewrite wrap_small; [lia|]. unfold fits. lia. }
  rewrite E, Hl1, Har in Ha. destruct Ha as (s2 & l2 & Hrun2 & H2 & Hl2 & _).
  exists s1, l1, s2, l2. rewrite Hl1, Hl2, Hl. done.
Qed.

(** [mm_virtual_range_set] only ever carves the last region. On an ordered list, with
    page-aligned arguments, it succeeds exactly when the new range lies inside the last
    region and ends before it does; the region is then split around the range (a part
    behind a range in the middle gets flags 0). For every other range it panics. *)
Theorem mm_virtual_range_set_last fuel (s : vst A) l p r addr len_ fl :
  is_vmm s (l ++ [(p, r)]) -> ordered 0 (l.*2 ++ [r]) -> (length l < fuel)%nat ->
  (2 <= length (objects (objs s)))%nat ->
  addr mod 4096 = 0 -> len_ mod 4096 = 0 -> 0 <= addr -> 0 < len_ -> addr + len_ <= 2 ^ 64 ->
  if decide (r_start r <= addr /\ addr + len_ < r_start r + r_len r) then
    exists s' l', mm_virtual_range_set fuel addr len_ fl s = Ok (tt, s') /\
      is_vmm s' l' /\ l'.*2 = l.*2 ++ carve r addr len_ fl /\ ordered 0 l'.*2
  else exists msg, mm_virtual_range_set fuel addr len_ fl s = Stop (Panicked msg).
Proof.
  intros H Hord Hf Hobj Hal Hll H0 Hl He.
  destruct (objects (objs s)) as [|q1 [|q2 qs]] eqn:Eo; [cbn in Hobj; lia..|].
  pose proof (range_set_spec fuel s l p r addr len_ fl q1 q2 qs H Hord Hf Eo Hal Hll H0 Hl He) as Hr.
  case_decide as Hd; [|done]. destruct Hr as (s' & l' & Hrun & H' & Hl' & _).
  exists s', l'. do 3 (split; [done|]). rewrite Hl', <-(app_nil_r (carve _ _ _ _)).
  pose proof (ordered_app 0 _ _ _ Hord) as (_ & ? & ? & ? & _).
  apply (ordered_replace 0 l.*2 r []); [done|..]; unfold carve; case_decide; cbn.
  - lia.
  - lia.
  - repeat constructor; cbn; lia.
  - repeat constructor; cbn; lia.
Qed.

(** The regions after [mm_virtual_init], with [k] bytes for the kernel image. *)
Definition init_regions (k : Z) : list region :=
  [ mkR 0xFFFFFE0000021000 0xFFFFFD7000 VM_FREE;
    mkR SLAB_VM_BASE SLAB_SIZE VM_USED;
    mkR 0xFFFFFEFFFFFFC000 0x2000 0;
    mkR 0xFFFFFEFFFFFFE000 0x2000 VM_USED;
    mkR 0xFFFFFF0000000000 0x8000000000 VM_USED;
    mkR 0xFFFFFF8000000000 0x7F80000000 0;
    mkR 0xFFFFFFFF80000000 k VM_USED;
    mkR (0xFFFFFFFF80000000 + k) (0x80000000 - k) 0 ].

(** Initialisation. On an empty list with eight nodes available, the five ranges of
    [mm_virtual_init] are all placed, and the result is exactly [init_regions]: the slab,
    the allocator stacks, the page tables and the kernel are used, only the region below
    the slab is free, and the three remaining gaps are neither. *)
Theorem mm_virtual_init_layout (s : vst A) KERNEL_SIZE :
  is_vmm s [] -> (8 <= length (objects (objs s)))%nat ->
  let k := PAGE_UP KERNEL_SIZE in
  k mod 4096 = 0 -> 0 < k < 0x80000000 ->
  exists s' l', mm_virtual_init_ranges KERNEL_SIZE s = Ok (tt, s') /\ is_vmm s' l' /\
    l'.*2 = init_regions k /\ ordered 0 (init_regions k) /\
    filter (fun r => r_flags r .& VM_FREE <> 0) l'.*2 =
      [mkR 0xFFFFFE0000021000 0xFFFFFD7000 VM_FREE].
Proof.
  intros H Hobj k Hk Hk0. destruct (objects (objs s)) as [|q1 qs] eqn:Eo; [cbn in Hobj; lia|].
  unfold mm_virtual_init_ranges. fold k. clearbody k. cbn [length] in Hobj.
  destruct (range_set_first 9 s 0xFFFFFE0000021000 0x1FFFFFDF000 VM_FREE q1 qs H Eo)
    as (s1 & R1 & H1 & O1 & _); [lia|done|done|]. erewrite bind_ok by exact R1.
  destruct (range_set_step s1 _ [] (mkR 0xFFFFFE0000021000 0x1FFFFFDF000 VM_FREE) SLAB_VM_BASE
    SLAB_SIZE VM_USED (length qs - 2) H1) as (s2 & l2 & R2 & H2 & L2 & O2);
    [done|cbn; lia|cbn; lia|rewrite O1; lia|done|done|cbn; unfold SLAB_VM_BASE, SLAB_SIZE; lia..|].
  erewrite bind_ok by exact R2. rewrite decide_True in O2 by done.
  destruct (range_set_step s2 l2 [mkR 0xFFFFFE0000021000 0xFFFFFD7000 VM_FREE;
      mkR SLAB_VM_BASE SLAB_SIZE VM_USED] (mkR 0xFFFFFEFFFFFFC000 0x10000004000 0)
    0xFFFFFEFFFFFFE000 0x2000 VM_USED (length qs - 4) H2) as (s3 & l3 & R3 & H3 & L3 & O3);
    [by rewrite L2|cbn; unfold SLAB_VM_BASE, SLAB_SIZE; lia|cbn; lia|lia|done || zlia|done || zlia|cbn; lia..|].
  erewrite bind_ok by exact R3. rewrite decide_True in O3 by done.
  destruct (range_set_step s3 l3 (take 4 (init_regions k))
    (mkR 0xFFFFFF0000000000 0x10000000000 0)
    0xFFFFFF0000000000 0x8000000000 VM_USED (length qs - 6) H3) as (s4 & l4 & R4 & H4 & L4 & O4);
    [by rewrite L3|cbn; unfold SLAB_VM_BASE, SLAB_SIZE; lia|cbn; lia|lia|done || zlia|done || zlia|cbn; lia..|].
  erewrite bind_ok by exact R4. rewrite decide_False in O4 by done.
  destruct (range_set_step s4 l4 (take 5 (init_regions k))
    (mkR 0xFFFFFF8000000000 0x8000000000 0)
    0xFFFFFFFF80000000 k VM_USED (length qs - 7) H4) as (s5 & l5 & R5 & H5 & L5 & O5);
    [by rewrite L4|cbn; unfold SLAB_VM_BASE, SLAB_SIZE; lia|cbn; lia|lia|done || zlia|done || zlia|cbn; lia..|].
  exists s5, l5. split; [exact R5|]. split; [done|].
  assert (l5.*2 = init_regions k) as E.
  { rewrite L5. unfold carve. rewrite decide_True by (cbn; lia). unfold init_regions.
    cbn -[Z.add Z.sub]. repeat (f_equal; try lia). }
  split; [done|]. split; [cbn; unfold SLAB_VM_BASE, SLAB_SIZE; lia|].
  by rewrite E.
Qed.
End properties.

(** ** Witnesses: a source that hands out the addresses of a list *)
Definition list_obj_get : cmd (list Z) Z := fun l =>
  match l with [] => Stop (Panicked "no slab space left") | a :: r => Ok (a, r) end.

#[export] Instance list_objects : ObjSource (list Z).
Proof.
  refine {| obj_get := list_obj_get; objects l := l; obj_wf l := NoDup l /\ 0 ∉ l |}.
  - intros [|a r] [Hn H0]; cbn; [eauto|]. exists r. split; [done|]. split; [done|].
    apply NoDup_cons in Hn as [_ Hn]. split; [done|]. set_solver.
  - done.
Defined.

Definition vmm_empty : vst (list Z) :=
  mkV (mkInfo 0 0 0) ∅ [8; 16; 24; 32; 40; 48; 56; 64] [].
Lemma vmm_empty_ok : is_vmm vmm_empty [].
Proof.
  split; cbn; try done.
  - split; [done|]. split; [done|]. split; [constructor|done].
  - split; apply (bool_decide_unpack _); vm_compute; done.
  - intros p Hp. by apply not_elem_of_nil in Hp.
Qed.

(** A list of one region. *)
Lemma vmm_one addr len_ fl : addr mod 4096 = 0 -> len_ mod 4096 = 0 ->
  exists s : vst (list Z), is_vmm s [(8, mkR addr len_ fl)] /\
    objects (objs s) = [16; 24; 32; 40; 48; 56; 64].
Proof.
  intros Ha Hl. destruct (range_set_first 1 vmm_empty addr len_ fl 8 [16; 24; 32; 40; 48; 56; 64]
    vmm_empty_ok) as (s & _ & H & Ho & _); [done|lia|done|done|]. eauto.
Qed.

Lemma mm_virtual_alloc_first_fit_witness : exists s : vst (list Z),
  (Forall (fun r => fits_request (4096 * 2) r = false) [mkR 0x1000 0x5000 VM_FREE] /\
     mm_virtual_alloc 2 2 s = Ok (0, s)) \/
  (exists s' l' rs1 r rs2, mm_virtual_alloc 2 2 s = Ok (r_start r, s') /\
     [mkR 0x1000 0x5000 VM_FREE] = rs1 ++ r :: rs2 /\ fits_request (4096 * 2) r = true /\
     Forall (fun r => fits_request (4096 * 2) r = false) rs1 /\
     is_vmm s' l' /\ l'.*2 = rs1 ++ pieces r (4096 * 2) ++ rs2 /\ ordered 0 l'.*2).
Proof.
  destruct (vmm_one 0x1000 0x5000 VM_FREE) as (s & H & Ho); [done|done|]. exists s.
  apply (mm_virtual_alloc_first_fit 2 s [(8, mkR 0x1000 0x5000 VM_FREE)] 2 H);
    [cbn; lia|cbn; lia|lia|by rewrite Ho].
Defined.

Lemma mm_virtual_free_realloc_witness : exists s s1 : vst (list Z),
  mm_virtual_free 2 0x1000 s = Ok (0x2000, s1) /\
  tlb s1 = [0x2000; 0x1000] ++ tlb s.
Proof.
  destruct (vmm_one 0x1000 0x2000 VM_USED) as (s & H & Ho); [done|done|].
  destruct (mm_virtual_free_realloc 2 s [(8, mkR 0x1000 0x2000 VM_USED)] []
    (mkR 0x1000 0x2000 VM_FREE) [] 2 H) as (s1 & l1 & s2 & l2 & R & _ & _ & T & _);
    [done|cbn; lia|repeat constructor; cbn; lia|done|cbn; lia|lia|by rewrite Ho|].
  exists s, s1. split; [exact R|]. rewrite T. done.
Defined.

Lemma mm_virtual_range_set_last_witness : exists s s' : vst (list Z), exists l',
  mm_virtual_range_set 2 0x2000 0x1000 VM_USED s = Ok (tt, s') /\ is_vmm s' l' /\
  l'.*2 = [mkR 0x1000 0x1000 VM_FREE; mkR 0x2000 0x1000 VM_USED; mkR 0x3000 0x3000 0].
Proof.
  destruct (vmm_one 0x1000 0x5000 VM_FREE) as (s & H & Ho); [done|done|].
  destruct (mm_virtual_range_set_last 2 s [] 8 (mkR 0x1000 0x5000 VM_FREE) 0x2000 0x1000 VM_USED H)
    as (s' & l' & R & H' & L & _); [cbn; lia|cbn; lia|rewrite Ho; cbn; lia|done|done|lia..|].
  exists s, s', l'. split; [exact R|]. split; [exact H'|]. rewrite L. reflexivity.
Defined.

Lemma mm_virtual_init_layout_witness : exists s' l',
  mm_virtual_init_ranges 0x200001 vmm_empty = Ok (tt, s') /\ is_vmm s' l' /\
  l'.*2 = init_regions 0x201000.
Proof.
  destruct (mm_virtual_init_layout vmm_empty 0x200001 vmm_empty_ok)
    as (s' & l' & R & H & L & _); [cbn; lia|done|done|].
  exists s', l'. split; [exact R|]. split; [exact H|]. exact L.
Defined.
