(* ===== verification/Mman.v ===== *)
(** [mmap] and [munmap]: lib/sys/mman.

    Both run over the region list of file Vmm, the page tables of file Paging and the page
    allocator behind them; the theorems use only what those files promise. *)
From S2P Require Import Prelude DList Paging Pmm Slab Vmm.
Import MMU.

Definition PROT_NONE : Z := 0x0.
Definition PROT_READ : Z := 0x1.
Definition PROT_WRITE : Z := 0x2.
Definition PROT_EXEC : Z := 0x4.
Definition MAP_ANONYMOUS : Z := 0x1.
Definition MAP_PRIVATE : Z := 0x2.

Record mman {A P : Type} := mkMM { regions : vst A; space : pst P }.
Arguments mman A P : clear implicits.
Arguments mkMM {A P} _ _.

Section mman.
Context {A P : Type} `{!ObjSource A, !PageSource P}.

Definition on_regions {B} (c : cmd (vst A) B) : cmd (mman A P) B := fun s =>
  match c (regions s) with
  | Ok (b, v) => Ok (b, mkMM v (space s))
  | Stop w => Stop w
  end.
Definition on_space {B} (c : cmd (pst P) B) : cmd (mman A P) B := fun s =>
  match c (space s) with
  | Ok (b, p) => Ok (b, mkMM (regions s) p)
  | Stop w => Stop w
  end.

(** The page flags of a protection. *)
Definition prot_flags (prot : Z) : Z :=
  let f := 0 in
  let f := if decide (prot .& PROT_READ <> 0) then f .| PAGE_PRESENT else f in
  let f := if decide (prot .& PROT_WRITE <> 0) then f .| PAGE_WRITE else f in
  let f := if decide (prot .& PROT_EXEC = 0) then f .| PAGE_NX else f in
  if decide (prot .& PROT_NONE <> 0) then 0 else f.

(** [for(i = 0; i < pages; i++) mm_virtual_map(mm_physical_get(), virt + (i << 12), 1, f);] *)
Definition map_pages_loop (pages virt f : Z) : cmd (pst P) unit :=
  for_n (Z.to_nat pages) 0 (fun i =>
    phys ← Paging.mm_physical_get;
    mm_virtual_map 2 phys (u64 (virt + (i ≪ 12))) 1 f).

Definition mmap (fuel : nat) (addr len_ prot flags_ fd off : Z) : cmd (mman A P) Z :=
  _ ← assert_c "addr == NULL" (bool_decide (addr = 0));
  _ ← assert_c "fd == -1" (bool_decide (fd = -1));
  _ ← assert_c "flags & MAP_ANONYMOUS && flags & MAP_PRIVATE"
        (bool_decide (flags_ .& MAP_ANONYMOUS <> 0 /\ flags_ .& MAP_PRIVATE <> 0));
  _ ← assert_c "off == 0" (bool_decide (off = 0));
  let pages := len_ ≫ 12 in
  let f := prot_flags prot in
  virt ← on_regions (mm_virtual_alloc fuel pages);
  _ ← on_space (map_pages_loop pages virt f);
  mret virt.
End mman.

(** [munmap] gives the pages back to the allocator of file Pmm. *)
Section munmap.
Context {A : Type} `{!ObjSource A}.

Definition munmap (fuel : nat) (addr len_ : Z) : cmd (mman A gpmm) Z :=
  if decide (addr = 0 \/ addr .& 0x3FF <> 0 \/ len_ = 0) then mret (-1) else
  let pages := len_ ≫ 12 in
  _ ← on_space (for_n (Z.to_nat pages) 0 (fun i =>
        phys ← mm_virtual_get_phys (u64 (addr + (i ≪ 12)));
        _ ← mm_virtual_map 2 0 (u64 (addr + (i ≪ 12))) 1 0;
        on_pages (gmark phys)));
  region ← on_regions (mm_virtual_free fuel addr);
  _ ← assert_c "region == len" (bool_decide (region = len_));
  mret 0.
End munmap.

(** ** Mapping fresh pages over a range *)
Section spec.
Context {A P : Type} `{!ObjSource A, !PageSource P}.

(** Every byte of [n] pages from [virt] is mapped; all else is as before. *)
Definition fresh_mapping (s s' : pst P) (virt n : Z) : Prop :=
  forall va, canonical va = true -> idx 3 va <> 510 ->
    (virt <= va < virt + 4096 * n -> is_Some (walk (ram s') (cr3 s') va)) /\
    (~ virt <= va < virt + 4096 * n -> walk (ram s') (cr3 s') va = walk (ram s) (cr3 s) va).

Lemma range_page virt n k : range_ok virt n -> 0 <= k < n -> range_ok (virt + 4096 * k) 1.
Proof.
  intros (Ha & Hr & Hi) Hk. split; [zlia|]. split; [lia|].
  intros j Hj. replace (virt + 4096 * k + 4096 * j) with (virt + 4096 * (k + j)) by lia.
  apply Hi. lia.
Qed.

Lemma map_pages_spec (s : pst P) virt n f :
  pt_ok s -> range_ok virt n -> 0 <= n -> 4 * n <= Z.of_nat (length (avail (pages s))) ->
  present f = true -> base f = 0 ->
  exists s', map_pages_loop n virt f s = Ok (tt, s') /\ pt_ok s' /\ fresh_mapping s s' virt n.
Proof.
  intros Hok Hr Hn Hav Hp Hb. unfold map_pages_loop.
  destruct (for_n_inv (fun i (s' : pst P) => pt_ok s' /\ fresh_mapping s s' virt i /\
      4 * (n - i) <= Z.of_nat (length (avail (pages s'))))
    (Z.to_nat n) 0 (fun i => phys ← Paging.mm_physical_get; mm_virtual_map 2 phys (u64 (virt + (i ≪ 12))) 1 f)
    s) as (s' & Hrun & Hok' & Hf & _).
  - split; [done|]. split; [|lia]. intros va _ _. split; [lia|done].
  - intros i s1 Hi (Hok1 & Hf1 & Hav1).
    assert (Hv : u64 (virt + (i ≪ 12)) = virt + 4096 * i).
    { rewrite Z.shiftl_mul_pow2 by lia. replace (i * 2 ^ 12) with (4096 * i) by lia.
      apply wrap_small. apply (range_fits virt n i Hr). lia. }
    rewrite Hv.
    destruct (map_fresh_page s1 (virt + 4096 * i) f Hok1) as (s2 & R2 & Hok2 & L2 & W2);
      [apply (range_page virt n); [done|lia]|lia|done|done|].
    exists s2. split; [exact R2|]. split; [done|]. split; [|lia].
    intros va Hc Hi5. destruct (W2 va Hc Hi5) as [I2 O2]. destruct (Hf1 va Hc Hi5) as [I1 O1].
    split; intros Hva.
    + destruct (decide (virt + 4096 * i <= va)); [apply I2; lia|]. rewrite O2 by lia. apply I1. lia.
    + rewrite O2 by lia. apply O1. lia.
  - rewrite Z2Nat.id in * by lia. rewrite Z.add_0_l in *. eauto.
Qed.
End spec.

(** *** A readable mapping *)
Lemma mmap_maps {A P} `{!ObjSource A, !PageSource P} fuel (s : mman A P) l rs1 r rs2 n prot :
  is_vmm (regions s) l -> l.*2 = rs1 ++ r :: rs2 -> ordered 0 l.*2 -> (length l < fuel)%nat ->
  Forall (fun r => fits_request (4096 * n) r = false) rs1 ->
  fits_request (4096 * n) r = true -> objects (objs (regions s)) <> [] ->
  0 < n < 2 ^ 52 -> pt_ok (space s) -> range_ok (r_start r) n ->
  4 * n <= Z.of_nat (length (avail (pages (space s)))) ->
  prot .& PROT_READ <> 0 ->
  exists s' l', mmap fuel 0 (4096 * n) prot (MAP_ANONYMOUS .| MAP_PRIVATE) (-1) 0 s =
      Ok (r_start r, s') /\
    is_vmm (regions s') l' /\ l'.*2 = rs1 ++ pieces r (4096 * n) ++ rs2 /\ ordered 0 l'.*2 /\
    pt_ok (space s') /\ fresh_mapping (space s) (space s') (r_start r) n.
Proof.
  intros H Hl Hord Hf Hno Hfit Hobj Hn Hok Hr Hav Hprot.
  pose proof (alloc_spec fuel (regions s) l n H Hf ltac:(lia) Hobj) as Ha.
  assert (u64 (n ≪ 12) = 4096 * n) as E.
  { rewrite Z.shiftl_mul_pow2 by lia. rewrite wrap_small; [lia|]. unfold fits. lia. }
  rewrite E in Ha. pose proof (alloc_regions_ordered (4096 * n) l.*2 Hord ltac:(lia)) as Hr'.
  unfold alloc_regions in Ha, Hr'. rewrite Hl, split_first_app in Ha, Hr' by done.
  destruct Hr' as (x1 & y & x2 & Hx & Hx1 & Hy & Es & Erest & Hord').
  assert (Some (x1, y, x2) = Some (rs1, r, rs2)) as [= -> -> ->].
  { rewrite <-(split_first_app (fits_request (4096 * n)) x1 y x2), <-Hx by done.
    by apply split_first_app. }
  destruct Ha as (v & l' & Hrun & H' & Hl' & _). cbv zeta in Hrun.
  assert (Hfl : present (prot_flags prot) = true /\ base (prot_flags prot) = 0).
  { unfold prot_flags. rewrite (decide_True (P := prot .& PROT_READ <> 0)) by done.
    rewrite (decide_False (P := prot .& PROT_NONE <> 0)) by (rewrite Z.land_0_r; tauto).
    destruct (decide (prot .& PROT_WRITE <> 0)), (decide (prot .& PROT_EXEC = 0)); done. }
  destruct (map_pages_spec (space s) (r_start r) n (prot_flags prot) Hok Hr) as (p & Hm & Hok' & W);
    [lia|done|apply Hfl|apply Hfl|].
  rewrite Erest in Hl', Hord'. exists (mkMM v p), l'. split; [|rewrite Hl'; done].
  unfold mmap. do 4 (erewrite bind_ok by done).
  rewrite Z.shiftr_div_pow2 by lia. replace (4096 * n / 2 ^ 12) with n by zlia. cbv zeta.
  erewrite bind_ok by (unfold on_regions; rewrite Hrun; reflexivity).
  erewrite bind_ok by (unfold on_space; cbn [space]; rewrite Hm; reflexivity). done.
Qed.

(** ** Properties *)

(** C24: [mmap]. For a readable anonymous private mapping of [n > 0] pages, when [r] is
    the first free region with room, the call returns its start; the region list gains a
    used region of that size there; and afterwards every byte of the [n] pages is mapped
    by the MMU while every other translation is as before. *)
Theorem mmap_correct {A P} `{!ObjSource A, !PageSource P} fuel (s : mman A P) l rs1 r rs2 n prot :
  is_vmm (regions s) l -> l.*2 = rs1 ++ r :: rs2 -> ordered 0 l.*2 -> (length l < fuel)%nat ->
  Forall (fun r => fits_request (4096 * n) r = false) rs1 ->
  fits_request (4096 * n) r = true -> objects (objs (regions s)) <> [] ->
  0 < n < 2 ^ 52 -> pt_ok (space s) -> range_ok (r_start r) n ->
  4 * n <= Z.of_nat (length (avail (pages (space s)))) ->
  prot .& PROT_READ <> 0 ->
  exists s' l', mmap fuel 0 (4096 * n) prot (MAP_ANONYMOUS .| MAP_PRIVATE) (-1) 0 s =
      Ok (r_start r, s') /\
    is_vmm (regions s') l' /\ l'.*2 = rs1 ++ pieces r (4096 * n) ++ rs2 /\ ordered 0 l'.*2 /\
    pt_ok (space s') /\ fresh_mapping (space s) (space s') (r_start r) n.
Proof. apply mmap_maps. Qed.

Lemma mmap_correct_witness : exists (s s' : mman (list Z) (list Z)),
  mmap 2 0 (4096 * 2) 3 3 (-1) 0 s = Ok (0x400000, s') /\
  fresh_mapping (space s) (space s') 0x400000 2.
Proof.
  destruct (vmm_one 0x400000 0x5000 VM_FREE) as (v & H & Ho); [done|done|].
  set (s := mkMM v (pt slab_example) : mman (list Z) (list Z)).
  destruct (mmap_correct 2 s [(8, mkR 0x400000 0x5000 VM_FREE)] [] (mkR 0x400000 0x5000 VM_FREE) []
    2 3 H) as (s' & l' & R & _ & _ & _ & _ & W);
    [done|cbn; lia|cbn; lia|done|done|change (objects (objs v) <> []); by rewrite Ho|lia|apply slab_example_ok|
     apply range_example|vm_compute; done|done|].
  exists s, s'. split; [exact R|exact W].
Defined.

(** The unchecked failure of [mmap]. When no free region is large enough,
    [mm_virtual_alloc] answers 0 and [mmap] maps the pages at the null page all the same:
    it returns [NULL] with the first [n] pages of the address space mapped. *)
Theorem mmap_exhausted_maps_null {A P} `{!ObjSource A, !PageSource P} fuel (s : mman A P) l n prot :
  is_vmm (regions s) l -> (length l < fuel)%nat ->
  Forall (fun r => fits_request (4096 * n) r = false) l.*2 ->
  objects (objs (regions s)) <> [] -> 0 < n <= 2 ^ 35 -> pt_ok (space s) ->
  4 * n <= Z.of_nat (length (avail (pages (space s)))) -> prot .& PROT_READ <> 0 ->
  exists s', mmap fuel 0 (4096 * n) prot (MAP_ANONYMOUS .| MAP_PRIVATE) (-1) 0 s = Ok (0, s') /\
    regions s' = regions s /\ is_Some (walk (ram (space s')) (cr3 (space s')) 0).
Proof.
  intros H Hf Hno Hobj Hn Hok Hav Hprot.
  pose proof (alloc_spec fuel (regions s) l n H Hf ltac:(lia) Hobj) as Ha.
  assert (u64 (n ≪ 12) = 4096 * n) as E.
  { rewrite Z.shiftl_mul_pow2 by lia. rewrite wrap_small; [lia|]. unfold fits. lia. }
  rewrite E in Ha. unfold alloc_regions in Ha.
  pose proof (split_first_spec (fits_request (4096 * n)) l.*2) as Hs.
  destruct (split_first _ l.*2) as [[[x1 y] x2]|].
  { destruct Hs as (Hl & Hy & _). rewrite Hl in Hno. apply Forall_app in Hno as [_ Hno].
    inversion Hno; subst. congruence. }
  assert (Hfl : present (prot_flags prot) = true /\ base (prot_flags prot) = 0).
  { unfold prot_flags. rewrite (decide_True (P := prot .& PROT_READ <> 0)) by done.
    rewrite (decide_False (P := prot .& PROT_NONE <> 0)) by (rewrite Z.land_0_r; tauto).
    destruct (decide (prot .& PROT_WRITE <> 0)), (decide (prot .& PROT_EXEC = 0)); done. }
  assert (Hr : range_ok 0 n).
  { split; [done|]. split; [lia|]. intros k Hk. rewrite idx_3. zlia. }
  destruct (map_pages_spec (space s) 0 n (prot_flags prot) Hok Hr) as (p & Hm & Hok' & W);
    [lia|done|apply Hfl|apply Hfl|].
  exists (mkMM (regions s) p). split; [|split; [done|]].
  - unfold mmap. do 4 (erewrite bind_ok by done).
    rewrite Z.shiftr_div_pow2 by lia. replace (4096 * n / 2 ^ 12) with n by zlia. cbv zeta.
    erewrite bind_ok by (unfold on_regions; rewrite Ha; reflexivity).
    erewrite bind_ok by (unfold on_space; cbn [space]; rewrite Hm; reflexivity). done.
  - apply (W 0); [done|done|lia].
Qed.

Lemma mmap_exhausted_maps_null_witness : exists (s s' : mman (list Z) (list Z)),
  mmap 1 0 (4096 * 2) 1 3 (-1) 0 s = Ok (0, s') /\
  is_Some (walk (ram (space s')) (cr3 (space s')) 0).
Proof.
  set (s := mkMM vmm_empty (pt slab_example) : mman (list Z) (list Z)).
  destruct (mmap_exhausted_maps_null 1 s [] 2 1 vmm_empty_ok) as (s' & R & _ & W);
    [cbn; lia|done|done|lia|apply slab_example_ok|vm_compute; done|done|].
  exists s, s'. split; [exact R|exact W].
Defined.
