(* ===== verification/Munmap.v ===== *)
(** [munmap]: lib/sys/mman/munmap.c. What is unmapped goes back to the page allocator of file Pmm and to the region
    list of file Vmm; an address or a length that is not that of a used region stops the kernel.

    The definition is in file Mman; here are its theorems, on the page tables of file Paging. *)
From S2P Require Import Prelude DList Paging Pmm Slab Vmm Mman.
Import MMU.

(** ** Unmapping a mapped page *)
Section unmap.
Context {P : Type} `{!PageSource P}.

Lemma ensure_table_present (s : pst P) p i t next : pt_ok s -> tpath (p ++ [i]) -> (length p <= 2)%nat -> table (ram s) (cr3 s) p = Some t ->
  is_Some (table (ram s) (cr3 s) (p ++ [i])) -> ensure_table (win p) i next s = Ok (tt, s).
Proof.
  intros Hok Hpi Hl Ht Hs. destruct (tpath_app _ _ Hpi) as [Hp Hi]. unfold ensure_table.
  erewrite bind_ok by (apply vread_win; [done|done|lia|done|done]). rewrite table_snoc, Ht in Hs. cbn [mbind option_bind] in Hs. unfold step, entry_page in Hs.
  destruct (present _) eqn:Hpr; [|by destruct Hs]. rewrite decide_False; [done|]. rewrite present_flag. congruence.
Qed.

Lemma table_prefix m c p q : is_Some (table m c (p ++ q)) -> is_Some (table m c p).
Proof. rewrite table_app. destruct (table m c p); [done|by intros []]. Qed.

(** All tables on the way are there: no page is taken, and one entry changes. *)
Lemma remap_page (s : pst P) virt phys flags : pt_ok s -> range_ok virt 1 -> is_Some (table (ram s) (cr3 s) (path_of virt)) ->
  exists s', mm_virtual_map 2 phys virt 1 flags s = Ok (tt, s') /\ pt_ok s' /\ cr3 s' = cr3 s /\ pages s' = pages s /\
    table (ram s') (cr3 s) (path_of virt) = entry_page (map_entry phys flags 0) /\
    forall q, tpath q -> (length q <= 4)%nat -> q <> path_of virt -> table (ram s') (cr3 s) q = table (ram s) (cr3 s) q.
Proof.
  intros Hok Hr Hpath. destruct (range_fits virt 1 0 Hr) as (Hf & _ & Htp); [lia|]. rewrite Z.mul_0_r, Z.add_0_r in Hf, Htp.
  destruct (indices_windows virt Hf) as (W4 & W3 & W2 & W1). pose proof (indices_idx virt Hf) as Hi. pose proof (idx_range 0 virt) as Hc0.
  cbn [mm_virtual_map]. cbv zeta in *. set (i := mm_virtual_indices virt) in *. clearbody i. unfold path_of in *. injection Hi as I4 I3 I2 I1.
  rewrite W4, W3, W2, W1, I4, I3, I2, I1. set (a := idx 3 virt) in *. set (b := idx 2 virt) in *. set (c := idx 1 virt) in *. set (d := idx 0 virt) in *.
  assert (T3 : tpath [a; b; c]) by (apply (tpath_app [a; b; c] d); exact Htp).
  assert (T2 : tpath [a; b]) by (apply (tpath_app [a; b] c); exact T3). assert (T1 : tpath [a]) by (apply (tpath_app [a] b); exact T2).
  destruct (table_prefix _ _ [a] [b; c; d] Hpath) as [t1 E1]. destruct (table_prefix _ _ [a; b] [c; d] Hpath) as [t2 E2].
  destruct (table_prefix _ _ [a; b; c] [d] Hpath) as [t3 E3].
  erewrite bind_ok by (apply (ensure_table_present s [] a (cr3 s)); [done|done|cbn; lia|done|by exists t1]).
  erewrite bind_ok by (apply (ensure_table_present s [a] b t1); [done|done|cbn; lia|done|by exists t2]).
  erewrite bind_ok by (apply (ensure_table_present s [a; b] c t2); [done|done|cbn; lia|done|by exists t3]).
  destruct (map_loop_spec 513 s _ t3 phys 1 flags d 0 Hok T3) as (n & s' & Hl & Hn & Hok' & C & Pg & In & Out); [done|done|lia|lia|lia|].
  erewrite bind_ok by exact Hl. assert (n = 1) as -> by lia. rewrite decide_False by lia. exists s'. split; [done|]. split; [done|]. split; [done|]. split; [done|].
  split; [rewrite <-(Z.add_0_r d); apply (In 0); lia|]. intros q Hq Hlq Hne. apply Out; [done|done|]. intros k Hk. by replace (d + k) with d by lia.
Qed.
End unmap.

(** ** The loop of [munmap] *)
Section loop.

(** Every page the allocator has: free, or a page of its stacks. *)
Definition pool (g : gpmm) : list Z := frames (gchain g) ++ free_pages (gchain g).

Lemma chain_mark_free L a b : b ∈ free_pages (chain_mark L a) -> b = a \/ b ∈ free_pages L.
Proof.
  destruct L as [|[f l] L]; [by right|]. unfold chain_mark, free_pages. case_decide; cbn; [set_solver|].
  destruct l as [|c l]; cbn; set_solver.
Qed.

(** A page that is no table is given to the allocator. *)
Lemma mark_page_ok (s : pst gpmm) a : pt_ok s -> is_page a -> a <> 0 -> a ∉ pool (pages s) -> ~ is_table (ram s) (cr3 s) a ->
  exists g, on_pages (gmark a) s = Ok (tt, mkP (ram s) (cr3 s) g) /\ pt_ok (mkP (ram s) (cr3 s) g) /\ pool g ≡ₚ a :: pool (pages s).
Proof.
  intros [H1 H2 H3 H4 H5 H6 H7 H8] Ha Hnz Hni Hnt. destruct (gmark_spec (pages s) a H5 Ha Hnz Hni) as (s' & Hrun & Hp).
  exists (mkG s' (chain_mark (gchain (pages s)) a)). split; [by apply on_pages_mark|]. split; [|apply chain_mark_perm, H5].
  split; cbn [ram cr3 pages]; try done.
  - destruct Hp as [_ _ _ _ Hpp _]. eapply Forall_impl; [exact Hpp|]. by intros x [].
  - destruct Hp as [_ _ _ _ _ Hnd]. by apply NoDup_app in Hnd as (_ & _ & ?).
  - intros b Hb. apply chain_mark_free in Hb as [->|Hb]; [done|by apply H8].
Qed.

(** [n] pages from [virt] are mapped to the pages [fs], which are no tables and not the allocator's. *)
Record owns (s : pst gpmm) (virt n : Z) (fs : list Z) : Prop := {
  own_length : Z.of_nat (length fs) = n;
  own_mapped k a : fs !! k = Some a -> table (ram s) (cr3 s) (path_of (virt + 4096 * Z.of_nat k)) = Some a;
  own_nodup : NoDup fs;
  own_pages : Forall (fun a => a <> 0 /\ a ∉ pool (pages s) /\ ~ is_table (ram s) (cr3 s) a) fs }.

(** No byte of the pages is mapped, all else is as before, and the pages are the allocator's. *)
Definition unmapped (s s' : pst gpmm) (virt n : Z) (fs : list Z) : Prop :=
  (forall va, canonical va = true -> idx 3 va <> 510 ->
    walk (ram s') (cr3 s') va = if decide (virt <= va < virt + 4096 * n) then None else walk (ram s) (cr3 s) va) /\
  pool (pages s') ≡ₚ fs ++ pool (pages s).

Definition unmap_body (addr i : Z) : cmd (pst gpmm) unit :=
  phys ← mm_virtual_get_phys (u64 (addr + (i ≪ 12)));
  _ ← mm_virtual_map 2 0 (u64 (addr + (i ≪ 12))) 1 0;
  on_pages (gmark phys).

Lemma get_phys_ok (s : pst gpmm) virt a : pt_ok s -> fits 64 virt -> idx 3 virt <> 510 -> table (ram s) (cr3 s) (path_of virt) = Some a ->
  mm_virtual_get_phys virt s = Ok (a, s) /\ is_page a.
Proof.
  intros Hok Hf Hi Ht. destruct (read_leaf_spec s virt Hok Hf Hi) as (e & Hrun & He & _). rewrite Ht in He. destruct (present e); [|done]. injection He as He.
  split; [|rewrite <-He; apply base_page]. unfold mm_virtual_get_phys. rewrite (bind_ok _ _ _ _ _ Hrun), <-He. done.
Qed.

(** After [i] pages. *)
Record progress (s0 : pst gpmm) (virt n : Z) (fs : list Z) (i : Z) (s : pst gpmm) : Prop := {
  pr_ok : pt_ok s;
  pr_cr3 : cr3 s = cr3 s0;
  pr_done k : 0 <= k < i -> table (ram s) (cr3 s0) (path_of (virt + 4096 * k)) = None;
  pr_rest q : tpath q -> (length q <= 4)%nat -> (forall k, 0 <= k < i -> q <> path_of (virt + 4096 * k)) ->
    table (ram s) (cr3 s0) q = table (ram s0) (cr3 s0) q;
  pr_pool : pool (pages s) ≡ₚ take (Z.to_nat i) fs ++ pool (pages s0) }.

Lemma path_length va : length (path_of va) = 4%nat.
Proof. done. Qed.

Lemma progress_table s0 virt n fs i s a : progress s0 virt n fs i s -> is_table (ram s) (cr3 s) a -> is_table (ram s0) (cr3 s0) a.
Proof.
  intros [_ C _ R _] (q & Hq & Hl & Ht). rewrite C, R in Ht; [by exists q|done|lia|]. intros k _ ->. rewrite path_length in Hl. lia.
Qed.

Lemma unmap_step s0 virt n fs i s : range_ok virt n -> owns s0 virt n fs -> 0 <= i < n -> progress s0 virt n fs i s ->
  exists s', unmap_body virt i s = Ok (tt, s') /\ progress s0 virt n fs (i + 1) s'.
Proof.
  intros Hr Ho Hi Hp. destruct (range_fits virt n i Hr Hi) as (Hf & Hc & Htp). pose proof (range_page virt n i Hr Hi) as Hr1.
  destruct (lookup_lt_is_Some_2 fs (Z.to_nat i)) as [a Ha]; [pose proof (own_length _ _ _ _ Ho); lia|].
  pose proof (own_mapped _ _ _ _ Ho _ _ Ha) as Ht0. rewrite Z2Nat.id in Ht0 by lia.
  pose proof (own_pages _ _ _ _ Ho) as Hfs. rewrite Forall_lookup in Hfs. destruct (Hfs _ _ Ha) as (Hnz & Hnp & Hnt).
  set (v := virt + 4096 * i) in *. assert (Ev : u64 (virt + (i ≪ 12)) = v).
  { rewrite Z.shiftl_mul_pow2 by lia. replace (virt + i * 2 ^ 12) with v by (unfold v; lia). by apply wrap_small. }
  assert (Ht : table (ram s) (cr3 s) (path_of v) = Some a).
  { rewrite (pr_cr3 _ _ _ _ _ _ Hp), (pr_rest _ _ _ _ _ _ Hp); [done|done|by rewrite path_length|].
    intros k Hk E. apply (range_path_inj virt n) in E; [lia|done|lia|lia]. }
  unfold unmap_body. rewrite Ev. destruct (get_phys_ok s v a (pr_ok _ _ _ _ _ _ Hp) Hf) as [Hrun Hpa]; [|done|].
  { destruct Hr as (_ & _ & Hne). by apply Hne. }
  rewrite (bind_ok _ _ _ _ _ Hrun). destruct (remap_page s v 0 0 (pr_ok _ _ _ _ _ _ Hp) Hr1 ltac:(by exists a)) as (s1 & Hrun1 & Hok1 & C1 & P1 & T1 & O1).
  rewrite (bind_ok _ _ _ _ _ Hrun1). change (entry_page (map_entry 0 0 0)) with (@None Z) in T1.
  pose proof (pr_cr3 _ _ _ _ _ _ Hp) as C. assert (Hp1 : forall g, pool g ≡ₚ a :: pool (pages s1) -> pt_ok (mkP (ram s1) (cr3 s1) g) -> progress s0 virt n fs (i + 1) (mkP (ram s1) (cr3 s1) g)).
  { intros g Hg Hokg. rewrite <-C in *. split; cbn [ram cr3 pages]; [done|congruence| | |].
    - intros k Hk. rewrite <-C. destruct (decide (k = i)) as [->|]; [done|]. rewrite O1; [rewrite C; apply (pr_done _ _ _ _ _ _ Hp); lia| |by rewrite path_length|].
      + by apply (range_fits virt n k Hr); lia.
      + intros E. apply (range_path_inj virt n) in E; [lia|done|lia|lia].
    - intros q Hq Hl Hne. rewrite <-C at 1. rewrite O1, C; [apply (pr_rest _ _ _ _ _ _ Hp)| | |]; try done; [intros k Hk; apply Hne; lia|apply Hne; lia].
    - rewrite Hg, P1, (pr_pool _ _ _ _ _ _ Hp). replace (Z.to_nat (i + 1)) with (S (Z.to_nat i)) by lia. rewrite (take_S_r _ _ _ Ha).
      rewrite <-app_assoc. simpl. apply Permutation_middle. }
  destruct (mark_page_ok s1 a Hok1 Hpa Hnz) as (g & Hrun2 & Hok2 & Hpool).
  { rewrite P1, (pr_pool _ _ _ _ _ _ Hp). rewrite elem_of_app. intros [Hin|]; [|done]. apply elem_of_take in Hin as (j & Hj & Hlt).
    pose proof (NoDup_lookup _ _ _ _ (own_nodup _ _ _ _ Ho) Hj Ha). lia. }
  { intros (q & Hq & Hl & Hqt). apply Hnt. apply (progress_table s0 virt n fs i s a Hp). exists q. split; [done|]. split; [done|].
    rewrite C1, O1 in Hqt; [done|done|lia|]. intros ->. rewrite path_length in Hl. lia. }
  exists (mkP (ram s1) (cr3 s1) g). split; [done|]. by apply Hp1.
Qed.

Lemma unmap_loop_ok s virt n fs : pt_ok s -> range_ok virt n -> 0 <= n -> owns s virt n fs ->
  exists s', for_n (Z.to_nat n) 0 (unmap_body virt) s = Ok (tt, s') /\ pt_ok s' /\ unmapped s s' virt n fs.
Proof.
  intros Hok Hr Hn Ho. destruct (for_n_inv (progress s virt n fs) (Z.to_nat n) 0 (unmap_body virt) s) as (s' & Hrun & Hp).
  - split; [done|done|lia|done|done].
  - intros i s1 Hi Hp. apply unmap_step; [done|done|lia|done].
  - rewrite Z.add_0_l, Z2Nat.id in Hp by lia. exists s'. split; [done|]. pose proof Hp as [Hok' C D R Pl]. split; [done|]. split.
    + intros va Hc Hi. rewrite !walk_tpath by done. rewrite C. pose proof Hr as (Hal & Hhalf & _). case_decide as Hin.
      * assert (Hk : 0 <= (va - virt) / 4096 < n) by zlia. specialize (D _ Hk). replace (virt + 4096 * ((va - virt) / 4096)) with (va / 4096 * 4096) in D by zlia.
        by rewrite path_page in D; rewrite D.
      * rewrite R; [done| |by rewrite path_length|]; [split; [apply path_of_index|cbn; congruence]|]. intros k Hk E. apply Hin.
        enough (va / 4096 * 4096 = virt + 4096 * k) by zlia. destruct (range_fits _ _ _ Hr Hk) as (_ & Hck & _). apply path_inj; [|done|zlia|by rewrite path_page].
        revert Hc. unfold canonical, HIGHER_HALF. rewrite !bool_decide_eq_true. zlia.
    + rewrite Pl. rewrite take_ge; [done|]. pose proof (own_length _ _ _ _ Ho). lia.
Qed.
End loop.

(** ** [munmap] *)
Section call.
Context {A : Type} `{!ObjSource A}.

Lemma munmap_runs fuel (s : mman A gpmm) virt n fs : pt_ok (space s) -> range_ok virt n -> 0 < n -> virt <> 0 -> owns (space s) virt n fs ->
  exists p, pt_ok p /\ unmapped (space s) p virt n fs /\ munmap fuel virt (4096 * n) s =
    (region ← on_regions (mm_virtual_free fuel virt); _ ← assert_c "region == len" (bool_decide (region = 4096 * n)); mret 0) (mkMM (regions s) p).
Proof.
  intros Hok Hr Hn Hv Ho. destruct (unmap_loop_ok (space s) virt n fs Hok Hr ltac:(lia) Ho) as (p & Hrun & Hok' & Hu). exists p. split; [done|]. split; [done|].
  unfold munmap. rewrite decide_False.
  - rewrite Z.shiftr_div_pow2 by lia. replace (4096 * n / 2 ^ 12) with n by zlia. cbv zeta. erewrite bind_ok; [done|]. unfold on_space.
    change (for_n (Z.to_nat n) 0 _) with (for_n (Z.to_nat n) 0 (unmap_body virt)). by rewrite Hrun.
  - destruct Hr as (Hal & _). intros [?|[Hbits|?]]; [done| |lia]. apply Hbits. change 0x3FF with (Z.ones 10). rewrite land_low by lia. zlia.
Qed.

Lemma munmap_mismatch fuel (s : mman A gpmm) l virt n fs :
  is_vmm (regions s) l -> (length l < fuel)%nat -> Forall (fun r => 0 <= r_len r <= 2 ^ 64 - 0x1000) l.*2 ->
  (forall m rs', free_regions virt l.*2 = Some (m, rs') -> m <> 4096 * n) -> pt_ok (space s) -> range_ok virt n -> 0 < n -> virt <> 0 -> owns (space s) virt n fs ->
  munmap fuel virt (4096 * n) s = Stop (AssertFailed "region == len").
Proof.
  intros Hv Hf Hlen Hfree Hok Hr Hn Hnz Ho. destruct (munmap_runs fuel s virt n fs Hok Hr Hn Hnz Ho) as (p & Hok' & Hu & ->).
  pose proof (free_spec fuel (regions s) l virt Hv Hf Hlen) as Hs. destruct (free_regions virt l.*2) as [[m rs']|].
  - destruct Hs as (v & l' & Hrun & _). specialize (Hfree m rs' eq_refl). erewrite bind_ok by (unfold on_regions; cbn [regions]; rewrite Hrun; reflexivity).
    by rewrite bool_decide_eq_false_2.
  - erewrite bind_ok by (unfold on_regions; cbn [regions]; rewrite Hs; reflexivity). by rewrite bool_decide_eq_false_2 by lia.
Qed.
End call.

(** ** An example: two pages outside the allocator's mapped at 0x400000 *)

(** All tables below a table, [n] levels deep. *)
Fixpoint subtables (m : gmap Z Z) (n : nat) (t : Z) : list Z := t ::
  match n with
  | O => []
  | S n => concat ((fun i => match step m t i with Some t' => subtables m n t' | None => [] end) <$> seqZ 0 512)
  end.

Lemma table_subtables m n t p t' : Forall index p -> (length p <= n)%nat -> table m t p = Some t' -> t' ∈ subtables m n t.
Proof.
  revert n t. induction p as [|i p IH]; intros n t Hf Hl Ht; [injection Ht as <-; destruct n; left|].
  apply Forall_cons in Hf as [Hi Hf]. destruct n as [|n]; cbn in Hl; [lia|]. cbn in Ht. destruct (step m t i) as [t1|] eqn:E; [|done].
  cbn [subtables]. right. apply list_elem_of_In, in_concat. exists (subtables m n t1). split; [|by apply list_elem_of_In, IH; [|lia|]].
  apply list_elem_of_In, list_elem_of_fmap. exists i. rewrite E. split; [done|]. apply elem_of_seqZ. unfold index in Hi. lia.
Qed.

Definition own_start : pst gpmm := mkP {[ 0x1000 + 8 * 510 := 0x1000 + 3 ]} 0x1000 (mkG pmm_root [(0x9000, [])]).
Definition own_descs : list efi_memory_descriptor := [ {| Type_ := EfiConventionalMemory; PhysicalStart := 0x100000; NumberOfPages := 8 |} ].
Definition own_ready : pst gpmm := match mm_physical_init own_descs own_start with Ok (_, s) => s | Stop _ => own_start end.
Definition own_example : pst gpmm := match mm_virtual_map 3 0x500000 0x400000 2 3 own_ready with Ok (_, s) => s | Stop _ => own_start end.

Lemma own_root : is_page 0x1000.
Proof. done. Qed.
Lemma own_ready_ok : pt_ok own_ready.
Proof.
  destruct (init_spec own_descs own_start) as (p & Hrun & Hg & Hp).
  - apply pmm_root_ok.
  - apply (bool_decide_unpack _). vm_compute. reflexivity.
  - apply (bool_decide_unpack _). vm_compute. reflexivity.
  - apply (bool_decide_unpack _). vm_compute. reflexivity.
  - assert (E : free_pages (gchain p) = reverse ((fun i => 0x100000 + 4096 * i) <$> seqZ 0 8)) by (rewrite Hg; vm_compute; reflexivity).
    unfold own_ready. rewrite Hrun. apply pt_ok_init; [exact own_root|exact Hp|..]; change (avail p) with (free_pages (gchain p)); rewrite E.
    all: clear Hrun Hg Hp E; apply (bool_decide_unpack _); vm_compute; reflexivity.
Qed.
Lemma own_example_ok : pt_ok own_example /\ owns own_example 0x400000 2 [0x500000; 0x501000].
Proof.
  destruct (mm_virtual_map_maps 3 own_ready 0x500000 0x400000 2 3 own_ready_ok range_example) as (s & Hrun & Hok & Hc & [Hm _] & _);
    [lia|vm_compute; discriminate|].
  assert (E : own_example = s) by (unfold own_example; by rewrite Hrun). rewrite <-E in *. clear s E Hrun. split; [exact Hok|]. split.
  - reflexivity.
  - intros k a Ha. assert (Hk : (k < 2)%nat) by (apply lookup_lt_Some in Ha; exact Ha). rewrite Hc, Hm by lia. clear Hok Hc Hm.
    destruct k as [|[|k]]; [| |lia]; injection Ha as <-; vm_compute; reflexivity.
  - clear. apply (bool_decide_unpack _). vm_compute. reflexivity.
  - clear. assert (Hno : forall a, bool_decide (a ∈ subtables (ram own_example) 3 (cr3 own_example)) = false -> ~ is_table (ram own_example) (cr3 own_example) a).
    { intros a Ha%bool_decide_eq_false (q & [Hq _] & Hl & Ht). apply Ha. by apply (table_subtables _ _ _ q). }
    apply Forall_cons; split; [|apply Forall_singleton]; (split; [discriminate|split; [apply (bool_decide_unpack _); vm_compute; reflexivity|apply Hno; vm_compute; reflexivity]]).
Qed.

(** ** Properties *)

(** C20: [munmap] of a whole region. The pages from [virt] on, mapped to pages that are neither tables nor the allocator's, are unmapped and
    nothing else is; their pages are the allocator's again, each once; and the region, of this length, is free. *)
Theorem munmap_releases {A} `{!ObjSource A} fuel (s : mman A gpmm) l virt n fs rs' :
  is_vmm (regions s) l -> (length l < fuel)%nat -> Forall (fun r => 0 <= r_len r <= 2 ^ 64 - 0x1000) l.*2 ->
  free_regions virt l.*2 = Some (4096 * n, rs') -> pt_ok (space s) -> range_ok virt n -> 0 < n -> virt <> 0 -> owns (space s) virt n fs ->
  exists s' l', munmap fuel virt (4096 * n) s = Ok (0, s') /\ is_vmm (regions s') l' /\ l'.*2 = rs' /\ pt_ok (space s') /\ unmapped (space s) (space s') virt n fs.
Proof.
  intros Hv Hf Hlen Hfree Hok Hr Hn Hnz Ho. destruct (munmap_runs fuel s virt n fs Hok Hr Hn Hnz Ho) as (p & Hok' & Hu & ->).
  pose proof (free_spec fuel (regions s) l virt Hv Hf Hlen) as Hs. rewrite Hfree in Hs. destruct Hs as (v & l' & Hrun & Hv' & Hl & _).
  exists (mkMM v p), l'. erewrite bind_ok by (unfold on_regions; cbn [regions]; rewrite Hrun; reflexivity). by rewrite bool_decide_eq_true_2.
Qed.

(** [munmap] of anything but a whole region stops the kernel: the pages are unmapped first, then the length of the used region that starts at
    the address, 0 if there is none, is compared with the length asked for, and the assertion fails. *)
Theorem munmap_partial_stops {A} `{!ObjSource A} fuel (s : mman A gpmm) l virt n fs :
  is_vmm (regions s) l -> (length l < fuel)%nat -> Forall (fun r => 0 <= r_len r <= 2 ^ 64 - 0x1000) l.*2 ->
  (forall m rs', free_regions virt l.*2 = Some (m, rs') -> m <> 4096 * n) -> pt_ok (space s) -> range_ok virt n -> 0 < n -> virt <> 0 -> owns (space s) virt n fs ->
  munmap fuel virt (4096 * n) s = Stop (AssertFailed "region == len").
Proof. apply munmap_mismatch. Qed.

Lemma munmap_releases_witness : exists s s' : mman (list Z) gpmm, munmap 2 0x400000 (4096 * 2) s = Ok (0, s') /\ unmapped (space s) (space s') 0x400000 2 [0x500000; 0x501000].
Proof.
  destruct (vmm_one 0x400000 0x2000 VM_USED) as (v & H & _); [done|done|]. destruct own_example_ok as [Hok Ho].
  set (s := mkMM v own_example : mman (list Z) gpmm).
  destruct (munmap_releases 2 s [(8, mkR 0x400000 0x2000 VM_USED)] 0x400000 2 [0x500000; 0x501000] [mkR 0x400000 0x2000 VM_FREE] H) as (s' & l' & R & _ & _ & _ & U);
    [cbn; lia|repeat constructor; cbn; lia|done|exact Hok|apply range_example|lia|done|exact Ho|].
  exists s, s'. split; [exact R|exact U].
Defined.

Lemma munmap_partial_stops_witness : exists s : mman (list Z) gpmm, munmap 2 0x400000 (4096 * 2) s = Stop (AssertFailed "region == len").
Proof.
  destruct (vmm_one 0x400000 0x8000 VM_USED) as (v & H & _); [done|done|]. destruct own_example_ok as [Hok Ho].
  exists (mkMM v own_example).
  apply (munmap_partial_stops 2 (mkMM v own_example : mman (list Z) gpmm) [(8, mkR 0x400000 0x8000 VM_USED)] 0x400000 2 [0x500000; 0x501000] H);
    [cbn; lia|repeat constructor; cbn; lia|by intros m rs' [= <- _]|exact Hok|apply range_example|lia|done|exact Ho].
Defined.
