(* ===== verification/CString.v ===== *)
(** The C string and character routines of lib/string and lib/ctype.

    Memory is a partial map from addresses to bytes; an access outside its domain faults.
    Every routine is the loop of the source with an explicit bound (its fuel), and the
    theorems show that the length of the strings involved is bound enough. *)
From S2P Require Import Prelude.

Abbreviation memory := (gmap Z Z).
Abbreviation M := (cmd memory).

Definition ldb (p : Z) : M Z := fun m =>
  match m !! p with Some b => Ok (b, m) | None => Stop (Faulted p) end.
Definition stb (p b : Z) : M unit := fun m =>
  match m !! p with Some _ => Ok (tt, <[p := u8 b]> m) | None => Stop (Faulted p) end.

(** ** lib/ctype *)
Definition b2z (b : bool) : Z := if b then 1 else 0.
Definition isdigit (c : Z) : Z := b2z (bool_decide (48 <= c /\ c <= 57)).
Definition isgraph (c : Z) : Z := b2z (bool_decide (33 <= c /\ c <= 126)).
Definition isprint (c : Z) : Z := b2z (bool_decide (isgraph c <> 0 \/ c = 32)).
Definition isspace (c : Z) : Z :=
  b2z (bool_decide (c = 32 \/ c = 12 \/ c = 10 \/ c = 13 \/ c = 9 \/ c = 11)).
Definition isxdigit (c : Z) : Z :=
  if decide (isdigit c <> 0) then 1
  else if decide (97 <= c <= 102) then 1
  else if decide (65 <= c <= 70) then 1 else 0.
Definition tolower (c : Z) : Z := if decide (65 <= c <= 90) then 97 + c - 65 else c.
Definition toupper (c : Z) : Z := if decide (97 <= c <= 122) then 65 + c - 97 else c.

(** ** lib/string *)

(** Compare byte by byte; the difference of the first pair that differs. *)
Fixpoint memcmp (n : nat) (s1 s2 : Z) : M Z :=
  match n with
  | O => mret 0
  | S n =>
      a ← ldb s1; b ← ldb s2;
      if decide (a <> b) then mret (a - b) else memcmp n (s1 + 1) (s2 + 1)
  end.

Definition memcpy (s1 s2 : Z) (n : nat) : M Z :=
  _ ← for_n n 0 (fun i => b ← ldb (s2 + i); stb (s1 + i) b);
  mret s1.

Definition memset (s c : Z) (n : nat) : M Z :=
  _ ← for_n n 0 (fun i => stb (s + i) c);
  mret s.

Fixpoint strlen_loop (fuel : nat) (str ret : Z) : M Z :=
  match fuel with
  | O => halt OutOfFuel
  | S fuel => b ← ldb str; if decide (b = 0) then mret ret else strlen_loop fuel (str + 1) (ret + 1)
  end.
Definition strlen (fuel : nat) (str : Z) : M Z := strlen_loop fuel str 0.

(** [for(i = 0; src[i]; i++) dest[i] = src[i];], the final index. *)
Fixpoint copy_loop (fuel : nat) (dest src i : Z) : M Z :=
  match fuel with
  | O => halt OutOfFuel
  | S fuel =>
      b ← ldb (src + i);
      if decide (b = 0) then mret i
      else _ ← stb (dest + i) b; copy_loop fuel dest src (i + 1)
  end.
Definition strcpy (fuel : nat) (dest src : Z) : M Z :=
  i ← copy_loop fuel dest src 0;
  _ ← stb (dest + i) 0;
  mret dest.

Definition strcat (fuel : nat) (dest src : Z) : M Z :=
  n ← strlen fuel dest;
  _ ← strcpy fuel (dest + n) src;
  mret dest.

(** The loop of [strchrnul]. *)
Fixpoint strchrnul_loop (fuel : nat) (str c i : Z) : M Z :=
  match fuel with
  | O => halt OutOfFuel
  | S fuel =>
      b ← ldb (str + i);
      if decide (b = u8 c \/ b = 0) then mret (str + i) else strchrnul_loop fuel str c (i + 1)
  end.
Definition strchrnul (fuel : nat) (str c : Z) : M Z := strchrnul_loop fuel str c 0.

Definition strchr (fuel : nat) (str c : Z) : M Z :=
  ret ← strchrnul fuel str c;
  b ← ldb ret;
  mret (if decide (u8 c = b) then ret else 0).

Fixpoint strrchr_loop (fuel : nat) (str c last i : Z) : M Z :=
  match fuel with
  | O => halt OutOfFuel
  | S fuel =>
      b ← ldb (str + i);
      let last := if decide (b = u8 c) then str + i else last in
      if decide (b = 0) then mret last else strrchr_loop fuel str c last (i + 1)
  end.
Definition strrchr (fuel : nat) (str c : Z) : M Z := strrchr_loop fuel str c 0 0.

Fixpoint strcmp_loop (fuel : nat) (a b i : Z) : M Z :=
  match fuel with
  | O => halt OutOfFuel
  | S fuel =>
      ac ← ldb (a + i); bc ← ldb (b + i);
      if decide (ac = 0 /\ bc = 0) then mret 0
      else if decide (ac < bc) then mret (-1)
      else if decide (bc < ac) then mret 1
      else strcmp_loop fuel a b (i + 1)
  end.
Definition strcmp (fuel : nat) (a b : Z) : M Z := strcmp_loop fuel a b 0.

Fixpoint strncmp (n : nat) (s1 s2 : Z) : M Z :=
  match n with
  | O => mret 0
  | S n =>
      u1 ← ldb s1; u2 ← ldb s2;
      if decide (u1 <> u2) then mret (u1 - u2)
      else if decide (u1 = 0) then mret 0
      else strncmp n (s1 + 1) (s2 + 1)
  end.

(** [for(i = 0; i < n && src[i]; i++) dest[i] = src[i];], the final index. *)
Fixpoint ncopy_loop (n : nat) (dest src i : Z) : M Z :=
  match n with
  | O => mret i
  | S n =>
      b ← ldb (src + i);
      if decide (b = 0) then mret i
      else _ ← stb (dest + i) b; ncopy_loop n dest src (i + 1)
  end.
Definition strncpy (dest src : Z) (n : nat) : M Z :=
  i ← ncopy_loop n dest src 0;
  _ ← for_n (n - Z.to_nat i) i (fun i => stb (dest + i) 0);
  mret dest.
Definition strncat (fuel : nat) (dest src : Z) (n : nat) : M Z :=
  dest_len ← strlen fuel dest;
  i ← ncopy_loop n (dest + dest_len) src 0;
  _ ← stb (dest + dest_len + i) 0;
  mret dest.

(** [strdup]; [malloc] is the C library's allocator. *)
Definition strdup (malloc : Z -> M Z) (fuel : nat) (str : Z) : M Z :=
  len ← strlen fuel str;
  ret ← malloc (len + 1);
  if decide (ret = 0) then mret 0 else
  _ ← memcpy ret str (Z.to_nat (len + 1));
  mret ret.

(** ** Strings in memory *)

Definition is_byte (b : Z) : Prop := 0 <= b < 256.

(** The bytes [l] at [p]. *)
Definition bytes_at (m : memory) (p : Z) (l : list Z) : Prop :=
  forall i b, l !! i = Some b -> m !! (p + Z.of_nat i) = Some b.
(** The string [l] (without its terminator) at [p]. *)
Definition cstr (m : memory) (p : Z) (l : list Z) : Prop :=
  bytes_at m p (l ++ [0]) /\ Forall (fun b => is_byte b /\ b <> 0) l.

(** Nothing outside [n] bytes from [p] has changed, and no byte has been unmapped. *)
Definition writes (m m' : memory) (p n : Z) : Prop :=
  (forall a, ~ p <= a < p + n -> m' !! a = m !! a) /\
  (forall a, is_Some (m !! a) -> is_Some (m' !! a)).
Definition apart (p n q k : Z) : Prop := p + n <= q \/ q + k <= p.

Lemma bytes_at_cons m p b l : bytes_at m p (b :: l) <-> m !! p = Some b /\ bytes_at m (p + 1) l.
Proof.
  split.
  - intros H. split.
    + specialize (H 0%nat b eq_refl). by rewrite Z.add_0_r in H.
    + intros i c Hi. specialize (H (S i) c Hi).
      by replace (p + 1 + Z.of_nat i) with (p + Z.of_nat (S i)) by lia.
  - intros [H1 H2] [|i] c Hi; cbn in Hi.
    + injection Hi as <-. by rewrite Z.add_0_r.
    + replace (p + Z.of_nat (S i)) with (p + 1 + Z.of_nat i) by lia. by apply H2.
Qed.

Lemma bytes_at_app m p l1 l2 :
  bytes_at m p (l1 ++ l2) <-> bytes_at m p l1 /\ bytes_at m (p + Z.of_nat (length l1)) l2.
Proof.
  revert p. induction l1 as [|b l1 IH]; intros p; cbn [app length].
  - rewrite Z.add_0_r. split; [by split|by intros [_ ?]].
  - rewrite !bytes_at_cons, IH. replace (p + 1 + Z.of_nat (length l1))
      with (p + Z.of_nat (S (length l1))) by lia. tauto.
Qed.

Lemma bytes_at_nil m p : bytes_at m p [].
Proof. by intros i b Hi. Qed.

Lemma bytes_at_writes m m' p l q n : bytes_at m p l -> writes m m' q n ->
  apart p (Z.of_nat (length l)) q n -> bytes_at m' p l.
Proof.
  intros H [Hw _] Ha i b Hi. rewrite Hw; [by apply H|].
  apply lookup_lt_Some in Hi. unfold apart in Ha. lia.
Qed.

Lemma writes_refl m p n : writes m m p n.
Proof. by split. Qed.

Lemma writes_trans m1 m2 m3 p n : writes m1 m2 p n -> writes m2 m3 p n -> writes m1 m3 p n.
Proof.
  intros [H1 H2] [H3 H4]. split; [|by intros a ?%H2%H4].
  intros a Ha. by rewrite H3, H1.
Qed.

Lemma writes_mono m m' p n q k : writes m m' p n -> q <= p -> p + n <= q + k -> writes m m' q k.
Proof. intros [H1 H2] ? ?. split; [|done]. intros a Ha. apply H1. lia. Qed.

Lemma writes_stb m p b q k : q <= p < q + k -> writes m (<[p := b]> m) q k.
Proof.
  intros Hp. split.
  - intros a Ha. rewrite lookup_insert_ne; [done|lia].
  - intros a Ha. destruct (decide (p = a)) as [->|]; [by rewrite lookup_insert_eq|].
    by rewrite lookup_insert_ne.
Qed.

Lemma ldb_ok m p b : m !! p = Some b -> ldb p m = Ok (b, m).
Proof. intros H. unfold ldb. by rewrite H. Qed.
Lemma stb_ok m p b : is_Some (m !! p) -> is_byte b -> stb p b m = Ok (tt, <[p := b]> m).
Proof.
  intros [c H] Hb. unfold stb. rewrite H. unfold is_byte in Hb.
  rewrite wrap_small; [done|unfold fits; lia].
Qed.

Definition mapped (m : memory) (p n : Z) : Prop := forall a, p <= a < p + n -> is_Some (m !! a).

Lemma mapped_writes m m' p n q k : mapped m p n -> writes m m' q k -> mapped m' p n.
Proof. intros H [_ Hw] a Ha. by apply Hw, H. Qed.

Lemma cstr_cons m p b l : cstr m p (b :: l) ->
  m !! p = Some b /\ is_byte b /\ b <> 0 /\ cstr m (p + 1) l.
Proof.
  intros [[H1 H2]%bytes_at_cons Hf]. apply Forall_cons in Hf as [[? ?] Hf]. done.
Qed.
Lemma cstr_nil m p : cstr m p [] <-> m !! p = Some 0.
Proof.
  split.
  - intros [[H _]%bytes_at_cons _]. done.
  - intros H. split; [|constructor]. apply bytes_at_cons. split; [done|apply bytes_at_nil].
Qed.

Lemma strlen_loop_spec fuel m p l n : cstr m p l -> (length l < fuel)%nat ->
  strlen_loop fuel p n m = Ok (n + Z.of_nat (length l), m).
Proof.
  revert p l n. induction fuel as [|fuel IH]; intros p l n H Hf; [lia|]. cbn [strlen_loop].
  destruct l as [|b l].
  - apply cstr_nil in H. erewrite bind_ok by (by apply ldb_ok). cbn. by rewrite Z.add_0_r.
  - apply cstr_cons in H as (Hb & _ & Hnz & H). erewrite bind_ok by (by apply ldb_ok).
    rewrite decide_False by done. rewrite (IH (p + 1) l) by (done || (cbn in Hf; lia)).
    do 2 f_equal. cbn. lia.
Qed.

Lemma strlen_spec fuel m p l : cstr m p l -> (length l < fuel)%nat ->
  strlen fuel p m = Ok (Z.of_nat (length l), m).
Proof. apply strlen_loop_spec. Qed.

(** A byte write inside the destination. *)
Lemma step_write m p n q l b : mapped m p n -> 0 < n -> is_byte b ->
  bytes_at m q l -> apart q (Z.of_nat (length l)) p n ->
  stb p b m = Ok (tt, <[p := b]> m) /\ mapped (<[p := b]> m) (p + 1) (n - 1) /\
  bytes_at (<[p := b]> m) q l /\ writes m (<[p := b]> m) p n.
Proof.
  intros Hm Hn Hb Hq Ha. assert (Hw : writes m (<[p := b]> m) p n) by (apply writes_stb; lia).
  split; [apply stb_ok; [apply Hm; lia|done]|]. split; [|split; [|done]].
  - intros a Haa. apply Hw, Hm. lia.
  - by eapply bytes_at_writes.
Qed.

Lemma copy_loop_spec fuel m dest src i l : cstr m (src + i) l -> (length l < fuel)%nat ->
  mapped m (dest + i) (Z.of_nat (length l) + 1) ->
  apart (src + i) (Z.of_nat (length l) + 1) (dest + i) (Z.of_nat (length l) + 1) ->
  exists m', copy_loop fuel dest src i m = Ok (i + Z.of_nat (length l), m') /\
    bytes_at m' (dest + i) l /\ writes m m' (dest + i) (Z.of_nat (length l)).
Proof.
  revert m i l. induction fuel as [|fuel IH]; intros m i l H Hf Hm Ha; [lia|].
  cbn [copy_loop]. destruct l as [|b l]; cbn [length] in *.
  - apply cstr_nil in H. exists m. erewrite bind_ok by (by apply ldb_ok).
    split; [cbn; by rewrite Z.add_0_r|]. split; [apply bytes_at_nil|apply writes_refl].
  - pose proof H as [Hall _]. apply cstr_cons in H as (Hb & Hby & Hnz & H).
    erewrite bind_ok by (by apply ldb_ok). rewrite decide_False by done.
    destruct (step_write m (dest + i) (Z.of_nat (S (length l)) + 1) (src + i) ((b :: l) ++ [0]) b)
      as (Hst & Hm1 & Hs1 & Hw1); [done|lia|done|done|rewrite length_app; cbn in *; unfold apart in *; lia|].
    erewrite bind_ok by exact Hst. set (m1 := <[dest + i := b]> m) in *.
    destruct (IH m1 (i + 1) l) as (m' & Hr & Hb' & Hw').
    + destruct H as [_ Hl]. split; [|done]. rewrite Z.add_assoc.
      cbn [app] in Hs1. by apply bytes_at_cons in Hs1 as [_ ?].
    + lia.
    + intros a Haa. apply Hm1. lia.
    + unfold apart in *. lia.
    + exists m'. split; [rewrite Hr; do 2 f_equal; lia|]. rewrite Z.add_assoc in *. split.
      * apply bytes_at_cons. split; [|done]. rewrite (proj1 Hw') by lia. unfold m1.
        by rewrite lookup_insert_eq.
      * eapply (writes_trans _ m1); [apply writes_stb; lia|]. eapply writes_mono; [exact Hw'|lia|lia].
Qed.

Lemma strcpy_spec fuel m dest src l : cstr m src l -> (length l < fuel)%nat ->
  mapped m dest (Z.of_nat (length l) + 1) ->
  apart src (Z.of_nat (length l) + 1) dest (Z.of_nat (length l) + 1) ->
  exists m', strcpy fuel dest src m = Ok (dest, m') /\ cstr m' dest l /\
    writes m m' dest (Z.of_nat (length l) + 1).
Proof.
  intros H Hf Hm Ha. pose proof H as [_ Hl].
  destruct (copy_loop_spec fuel m dest src 0 l) as (m1 & Hr & Hb & Hw); rewrite ?Z.add_0_r; try done.
  rewrite Z.add_0_r, Z.add_0_l in *. unfold strcpy. erewrite bind_ok by exact Hr.
  assert (H0 : is_Some (m1 !! (dest + Z.of_nat (length l)))) by (apply Hw, Hm; lia).
  erewrite bind_ok by (apply stb_ok; [done|unfold is_byte; lia]).
  eexists. split; [reflexivity|]. split; [split; [|done]|].
  - apply bytes_at_app. split.
    + eapply bytes_at_writes; [exact Hb|apply (writes_stb _ _ _ (dest + Z.of_nat (length l)) 1); lia|].
      unfold apart. lia.
    + apply bytes_at_cons. split; [by rewrite lookup_insert_eq|apply bytes_at_nil].
  - eapply (writes_trans _ m1); [eapply writes_mono; [exact Hw|lia|lia]|apply writes_stb; lia].
Qed.

(** ** Comparison *)

(** Lexicographic order of byte strings, as -1, 0 and 1. *)
Fixpoint lex (l1 l2 : list Z) : Z :=
  match l1, l2 with
  | [], [] => 0
  | [], _ => -1
  | _, [] => 1
  | a :: l1, b :: l2 => if decide (a < b) then -1 else if decide (b < a) then 1 else lex l1 l2
  end.

Lemma lex_refl l : lex l l = 0.
Proof. induction l as [|a l IH]; cbn; [done|]. by rewrite !decide_False by lia. Qed.
Lemma lex_eq l1 l2 : lex l1 l2 = 0 <-> l1 = l2.
Proof.
  split; [|intros ->; apply lex_refl].
  revert l2. induction l1 as [|a l1 IH]; intros [|b l2]; cbn; try done.
  repeat case_decide; try done. intros ->%IH. f_equal. lia.
Qed.
Lemma lex_sym l1 l2 : lex l2 l1 = - lex l1 l2.
Proof.
  revert l2. induction l1 as [|a l1 IH]; intros [|b l2]; cbn; try done.
  repeat case_decide; try done; try lia.
Qed.
Lemma lex_range l1 l2 : lex l1 l2 = -1 \/ lex l1 l2 = 0 \/ lex l1 l2 = 1.
Proof.
  revert l2. induction l1 as [|a l1 IH]; intros [|b l2]; cbn; try tauto.
  repeat case_decide; try tauto. apply IH.
Qed.

Lemma strcmp_loop_spec fuel m a b i l1 l2 : cstr m (a + i) l1 -> cstr m (b + i) l2 ->
  (length l1 < fuel)%nat -> strcmp_loop fuel a b i m = Ok (lex l1 l2, m).
Proof.
  revert i l1 l2. induction fuel as [|fuel IH]; intros i l1 l2 H1 H2 Hf; [lia|]. cbn [strcmp_loop].
  destruct l1 as [|x l1]; [apply cstr_nil in H1|apply cstr_cons in H1 as (Hx & Hxb & Hxn & H1)];
    (destruct l2 as [|y l2]; [apply cstr_nil in H2|apply cstr_cons in H2 as (Hy & Hyb & Hyn & H2)]);
    (erewrite bind_ok by (by apply ldb_ok)); (erewrite bind_ok by (by apply ldb_ok));
    unfold is_byte in *.
  - done.
  - rewrite decide_False by lia. rewrite decide_True by lia. done.
  - rewrite decide_False by lia. rewrite decide_False by lia. rewrite decide_True by lia. done.
  - rewrite decide_False by lia. cbn [lex].
    destruct (decide (x < y)); [done|]. destruct (decide (y < x)); [done|].
    apply IH; [by rewrite Z.add_assoc|by rewrite Z.add_assoc|cbn in Hf; lia].
Qed.

Lemma strncmp_spec n m a b l1 l2 : cstr m a l1 -> cstr m b l2 ->
  exists r, strncmp n a b m = Ok (r, m) /\ Z.sgn r = lex (take n l1) (take n l2).
Proof.
  revert a b l1 l2. induction n as [|n IH]; intros a b l1 l2 H1 H2; [by exists 0|].
  cbn [strncmp].
  destruct l1 as [|x l1]; [apply cstr_nil in H1|apply cstr_cons in H1 as (Hx & Hxb & Hxn & H1)];
    (destruct l2 as [|y l2]; [apply cstr_nil in H2|apply cstr_cons in H2 as (Hy & Hyb & Hyn & H2)]);
    (erewrite bind_ok by (by apply ldb_ok)); (erewrite bind_ok by (by apply ldb_ok));
    unfold is_byte in *; cbn [take lex].
  - by exists 0.
  - rewrite decide_True by lia. eexists. split; [done|]. apply Z.sgn_neg. lia.
  - rewrite decide_True by lia. eexists. split; [done|]. apply Z.sgn_pos. lia.
  - destruct (decide (x <> y)) as [Hne|He].
    + eexists. split; [done|]. destruct (decide (x < y)); [apply Z.sgn_neg; lia|].
      rewrite decide_True by lia. apply Z.sgn_pos. lia.
    + assert (x = y) as -> by lia. rewrite decide_False by done. rewrite !decide_False by lia.
      by apply IH.
Qed.

(** ** Searching *)

Lemma cstr_byte m p l i b : cstr m p l -> (l ++ [0]) !! i = Some b ->
  m !! (p + Z.of_nat i) = Some b.
Proof. intros [H _]. apply H. Qed.

(** The first index of [c] among the bytes of a string and its terminator. *)
Definition first_at (c : Z) (l : list Z) (k : nat) : Prop :=
  (l ++ [0]) !! k = Some c /\ forall j, (j < k)%nat -> (l ++ [0]) !! j <> Some c.
Definition last_at (c : Z) (l : list Z) (k : nat) : Prop :=
  (l ++ [0]) !! k = Some c /\ forall j, (k < j)%nat -> (l ++ [0]) !! j <> Some c.

Lemma strchrnul_spec fuel m p c i l : cstr m (p + i) l -> (length l < fuel)%nat -> is_byte c ->
  exists k b, strchrnul_loop fuel p c i m = Ok (p + i + Z.of_nat k, m) /\
    (l ++ [0]) !! k = Some b /\ (b = c \/ (b = 0 /\ k = length l)) /\
    (forall j, (j < k)%nat -> (l ++ [0]) !! j <> Some c).
Proof.
  intros H Hf Hc. assert (Hu : u8 c = c) by (apply wrap_small; unfold fits, is_byte in *; lia).
  revert i l H Hf. induction fuel as [|fuel IH]; intros i l H Hf; [lia|]. cbn [strchrnul_loop].
  rewrite Hu. destruct l as [|b l].
  - apply cstr_nil in H. erewrite bind_ok by (by apply ldb_ok). rewrite decide_True by tauto.
    exists 0%nat, 0. split; [unfold mret, cmd_ret; do 2 f_equal; lia|]. split; [done|].
    split; [tauto|lia].
  - apply cstr_cons in H as (Hb & _ & Hnz & H). erewrite bind_ok by (by apply ldb_ok).
    destruct (decide (b = c \/ b = 0)) as [Hd|Hd].
    + exists 0%nat, b. split; [unfold mret, cmd_ret; do 2 f_equal; lia|]. split; [done|].
      split; [tauto|lia].
    + destruct (IH (i + 1) l) as (k & b' & Hr & Hk & Hb' & Hj); [by rewrite Z.add_assoc|cbn in Hf; lia|].
      exists (S k), b'. split; [rewrite Hr; do 2 f_equal; lia|]. split; [done|]. split.
      * destruct Hb' as [?|[? ->]]; [by left|by right].
      * intros [|j] Hjk; cbn; [intros [= ->]; tauto|]. apply Hj. lia.
Qed.

Lemma strrchr_spec fuel m p c i l last : cstr m (p + i) l -> (length l < fuel)%nat -> is_byte c ->
  exists r, strrchr_loop fuel p c last i m = Ok (r, m) /\
    ((exists k, last_at c l k /\ r = p + i + Z.of_nat k) \/ (c ∉ l ++ [0] /\ r = last)).
Proof.
  intros H Hf Hc. assert (Hu : u8 c = c) by (apply wrap_small; unfold fits, is_byte in *; lia).
  revert i l last H Hf. induction fuel as [|fuel IH]; intros i l last H Hf; [lia|].
  cbn [strrchr_loop]. rewrite Hu. destruct l as [|b l].
  - apply cstr_nil in H. erewrite bind_ok by (by apply ldb_ok). cbv zeta.
    rewrite (decide_True (P := 0 = 0)) by done. eexists. split; [done|].
    destruct (decide (0 = c)) as [<-|Hne].
    + left. exists 0%nat. split; [|lia]. split; [done|]. intros [|j] Hj; [lia|done].
    + right. set_solver.
  - apply cstr_cons in H as (Hb & _ & Hnz & H). erewrite bind_ok by (by apply ldb_ok). cbv zeta.
    rewrite (decide_False (P := b = 0)) by done.
    destruct (IH (i + 1) l (if decide (b = c) then p + i else last)) as (r & Hr & Hk);
      [by rewrite Z.add_assoc|cbn in Hf; lia|].
    exists r. split; [exact Hr|]. destruct Hk as [(k & [Hk1 Hk2] & ->)|[Hn ->]].
    + left. exists (S k). split; [|lia]. split; [done|]. intros [|j] Hj; [lia|]. apply Hk2. lia.
    + destruct (decide (b = c)) as [->|Hne].
      * left. exists 0%nat. split; [|lia]. split; [done|]. intros [|j] Hj; [lia|]. cbn.
        intros Hl. apply Hn. by eapply list_elem_of_lookup_2.
      * right. set_solver.
Qed.

Lemma first_last_none c l : is_byte c -> c ∉ l ++ [0] -> forall k, (l ++ [0]) !! k <> Some c.
Proof. intros _ Hn k Hk. apply Hn. by eapply list_elem_of_lookup_2. Qed.

(** ** Copying blocks *)
Lemma memcpy_spec m s1 s2 l : bytes_at m s2 l -> Forall is_byte l ->
  mapped m s1 (Z.of_nat (length l)) ->
  apart s2 (Z.of_nat (length l)) s1 (Z.of_nat (length l)) ->
  exists m', memcpy s1 s2 (length l) m = Ok (s1, m') /\ bytes_at m' s1 l /\
    writes m m' s1 (Z.of_nat (length l)).
Proof.
  intros H Hby Hm Ha. unfold memcpy.
  destruct (for_n_inv (fun i m' => bytes_at m' s1 (take (Z.to_nat i) l) /\
     writes m m' s1 (Z.of_nat (length l))) (length l) 0
     (fun i => b ← ldb (s2 + i); stb (s1 + i) b) m) as (m' & Hr & Hb & Hw).
  - split; [apply bytes_at_nil|apply writes_refl].
  - intros i m1 Hi [Hb1 Hw1]. destruct (lookup_lt_is_Some_2 l (Z.to_nat i)) as [b Hlb]; [lia|].
    pose proof (bytes_at_writes _ _ _ _ _ _ H Hw1 Ha) as Hs2.
    specialize (Hs2 (Z.to_nat i) b Hlb). rewrite Z2Nat.id in Hs2 by lia.
    assert (Hbb : is_byte b) by (rewrite Forall_forall in Hby; apply Hby; by eapply list_elem_of_lookup_2).
    eexists. split.
    { erewrite bind_ok by (by apply ldb_ok). apply stb_ok; [apply Hw1, Hm; lia|done]. }
    split.
    + replace (Z.to_nat (i + 1)) with (S (Z.to_nat i)) by lia. rewrite (take_S_r _ _ b) by done.
      apply bytes_at_app. rewrite length_take_le by lia. rewrite Z2Nat.id by lia. split.
      * eapply bytes_at_writes; [exact Hb1|apply (writes_stb _ _ _ (s1 + i) 1); lia|].
        unfold apart. rewrite length_take_le by lia. lia.
      * apply bytes_at_cons. split; [by rewrite lookup_insert_eq|apply bytes_at_nil].
    + eapply writes_trans; [exact Hw1|]. apply writes_stb. lia.
  - exists m'. erewrite bind_ok by exact Hr. split; [done|]. split; [|done].
    rewrite Z.add_0_l, Nat2Z.id, take_ge in Hb by lia. done.
Qed.

(** ** Properties *)

(** Concatenation. For a destination buffer with room for both strings and the
    terminator, and a source apart from it, [strcat] makes the destination the
    concatenation of the two strings, leaves the source as it was and writes nothing
    outside the buffer; [strlen] then measures the sum of the two lengths. *)
Theorem strcat_correct fuel m dest src l1 l2 :
  let n := Z.of_nat (length l1) + Z.of_nat (length l2) + 1 in
  cstr m dest l1 -> cstr m src l2 -> mapped m dest n ->
  apart src (Z.of_nat (length l2) + 1) dest n ->
  (length l1 + length l2 < fuel)%nat ->
  exists m', strcat fuel dest src m = Ok (dest, m') /\ cstr m' dest (l1 ++ l2) /\
    cstr m' src l2 /\ writes m m' dest n /\
    strlen fuel dest m' = Ok (n - 1, m').
Proof.
  intros n H1 H2 Hm Ha Hf. unfold strcat. subst n.
  erewrite bind_ok by (apply (strlen_spec fuel m dest l1); [done|lia]).
  destruct (strcpy_spec fuel m (dest + Z.of_nat (length l1)) src l2) as (m' & Hr & Hc & Hw);
    [done|lia|intros a Haa; apply Hm; lia|unfold apart in *; lia|].
  erewrite bind_ok by exact Hr. exists m'. split; [done|].
  destruct H1 as [Hb1 Hf1], H2 as [Hb2 Hf2], Hc as [Hc Hcf].
  assert (Hd : cstr m' dest (l1 ++ l2)).
  { split; [|by apply Forall_app]. rewrite <-app_assoc. apply bytes_at_app. split; [|done].
    apply bytes_at_app in Hb1 as [Hb1 _]. eapply bytes_at_writes; [exact Hb1|exact Hw|].
    unfold apart. lia. }
  split; [done|]. split; [|split].
  - split; [|done]. eapply bytes_at_writes; [exact Hb2|exact Hw|].
    rewrite length_app. cbn. unfold apart in *. lia.
  - eapply writes_mono; [exact Hw|lia|lia].
  - rewrite (strlen_spec fuel m' dest (l1 ++ l2)) by (done || (rewrite length_app; lia)).
    rewrite length_app. do 2 f_equal. lia.
Qed.

(** A memory with the given bytes from [p] on. *)
Definition mem_of (p : Z) (l : list Z) : memory :=
  list_to_map (imap (fun i b => (p + Z.of_nat i, b)) l).
Definition mem_example : memory := mem_of 100 [97; 98; 0; 0; 0; 0; 120; 97; 120; 0].

Lemma cstr_example_1 : cstr mem_example 100 [97; 98].
Proof.
  split; [|repeat constructor; lia].
  repeat (apply bytes_at_cons; split; [reflexivity|]). apply bytes_at_nil.
Qed.
Lemma cstr_example_2 : cstr mem_example 106 [120; 97; 120].
Proof.
  split; [|repeat constructor; lia].
  repeat (apply bytes_at_cons; split; [reflexivity|]). apply bytes_at_nil.
Qed.
Lemma mapped_example : mapped mem_example 100 6.
Proof.
  intros a Ha. assert (a = 100 \/ a = 101 \/ a = 102 \/ a = 103 \/ a = 104 \/ a = 105) as H by lia.
  destruct H as [->|[->|[->|[->|[->| ->]]]]]; eexists; reflexivity.
Qed.

Lemma strcat_correct_witness : exists m',
  strcat 6 100 106 mem_example = Ok (100, m') /\ cstr m' 100 [97; 98; 120; 97; 120].
Proof.
  destruct (strcat_correct 6 mem_example 100 106 [97; 98] [120; 97; 120]) as (m' & H1 & H2 & _);
    [apply cstr_example_1|apply cstr_example_2|apply mapped_example|unfold apart; cbn; lia|cbn; lia|].
  exists m'. split; [exact H1|exact H2].
Defined.

(** C25: comparison. [strcmp] returns -1, 0 or 1 as the first string is lexicographically
    below, equal to or above the second (as unsigned bytes), so it is 0 exactly for equal
    strings and changes sign when the arguments are exchanged; [strncmp] has the sign of
    the comparison of the first [n] bytes. *)
Theorem strcmp_lexicographic fuel n m a b l1 l2 :
  cstr m a l1 -> cstr m b l2 -> (length l1 < fuel)%nat -> (length l2 < fuel)%nat ->
  exists r, strcmp fuel a b m = Ok (r, m) /\ strcmp fuel b a m = Ok (- r, m) /\
    r = lex l1 l2 /\ (r = 0 <-> l1 = l2) /\
    exists r', strncmp n a b m = Ok (r', m) /\ Z.sgn r' = lex (take n l1) (take n l2).
Proof.
  intros H1 H2 Hf1 Hf2. exists (lex l1 l2). unfold strcmp.
  split; [apply strcmp_loop_spec; by rewrite ?Z.add_0_r|]. split.
  - rewrite <-lex_sym. apply strcmp_loop_spec; by rewrite ?Z.add_0_r.
  - split; [done|]. split; [apply lex_eq|]. by apply strncmp_spec.
Qed.

Lemma strcmp_lexicographic_witness :
  exists r, strcmp 4 100 106 mem_example = Ok (r, mem_example) /\ r = -1.
Proof.
  destruct (strcmp_lexicographic 4 1 mem_example 100 106 [97; 98] [120; 97; 120])
    as (r & H1 & _ & H2 & _); [apply cstr_example_1|apply cstr_example_2|cbn; lia|cbn; lia|].
  exists r. split; [exact H1|]. rewrite H2. reflexivity.
Defined.

(** Searching. [strchr] returns the address of the first and [strrchr] of the last
    occurrence of the byte in the string, the terminator included, and both return [NULL]
    when there is none. *)
Theorem strchr_strrchr_correct fuel m p c l :
  cstr m p l -> (length l < fuel)%nat -> is_byte c ->
  (exists k, first_at c l k /\ strchr fuel p c m = Ok (p + Z.of_nat k, m)) /\
  (exists k, last_at c l k /\ strrchr fuel p c m = Ok (p + Z.of_nat k, m)) \/
  (c ∉ l ++ [0] /\ strchr fuel p c m = Ok (0, m) /\ strrchr fuel p c m = Ok (0, m)).
Proof.
  intros H Hf Hc. assert (Hu : u8 c = c) by (apply wrap_small; unfold fits, is_byte in *; lia).
  destruct (strchrnul_spec fuel m p c 0 l) as (k & b & Hr & Hk & Hb & Hj);
    [by rewrite Z.add_0_r|done|done|].
  destruct (strrchr_spec fuel m p c 0 l 0) as (r & Hr' & Hl); [by rewrite Z.add_0_r|done|done|].
  rewrite !Z.add_0_r in *. fold (strrchr fuel p c) in Hr'.
  assert (Hs : strchr fuel p c m = Ok (if decide (c = b) then p + Z.of_nat k else 0, m)).
  { unfold strchr, strchrnul. erewrite bind_ok by exact Hr.
    erewrite bind_ok by (apply ldb_ok; by apply (cstr_byte m p l)). by rewrite Hu. }
  destruct (decide (c ∈ l ++ [0])) as [Hin|Hni].
  - left. split.
    + exists k. destruct (decide (c = b)) as [->|Hne]; [done|]. exfalso.
      destruct Hb as [->|[-> ->]]; [done|]. apply list_elem_of_lookup_1 in Hin as [j Hin].
      apply (Hj j); [|done]. pose proof (lookup_lt_Some _ _ _ Hin) as Hlt.
      rewrite length_app in Hlt. cbn in Hlt.
      destruct (decide (j = length l)) as [->|]; [|lia]. congruence.
    + destruct Hl as [(k' & Hk' & ->)|[Hn _]]; [|done]. eauto.
  - right. split; [done|]. split.
    + rewrite Hs, decide_False; [done|]. intros ->. apply Hni. by eapply list_elem_of_lookup_2.
    + destruct Hl as [(k' & [Hk' _] & _)|[_ ->]]; [|done]. exfalso. apply Hni.
      by eapply list_elem_of_lookup_2.
Qed.

Lemma strchr_strrchr_correct_witness :
  (exists k, first_at 120 [120; 97; 120] k /\ strchr 4 106 120 mem_example = Ok (106 + Z.of_nat k, mem_example)) /\
  (exists k, last_at 120 [120; 97; 120] k /\ strrchr 4 106 120 mem_example = Ok (106 + Z.of_nat k, mem_example)).
Proof.
  destruct (strchr_strrchr_correct 4 mem_example 106 120 [120; 97; 120]) as [H|[H _]];
    [apply cstr_example_2|cbn; lia|unfold is_byte; lia|exact H|].
  exfalso. apply H. by left.
Defined.

(** Duplication. With an allocator that returns [NULL] or a mapped block apart from
    the string and leaves the string alone, [strdup] returns [NULL] in the first case and
    an independent copy of the string in the second. *)
Theorem strdup_correct malloc fuel m str l :
  cstr m str l -> (length l < fuel)%nat ->
  (exists m1, malloc (Z.of_nat (length l) + 1) m = Ok (0, m1)) \/
  (exists p m1, malloc (Z.of_nat (length l) + 1) m = Ok (p, m1) /\ p <> 0 /\ cstr m1 str l /\
     mapped m1 p (Z.of_nat (length l) + 1) /\
     apart str (Z.of_nat (length l) + 1) p (Z.of_nat (length l) + 1)) ->
  exists p m', strdup malloc fuel str m = Ok (p, m') /\
    (p <> 0 -> cstr m' p l /\ cstr m' str l /\
       apart str (Z.of_nat (length l) + 1) p (Z.of_nat (length l) + 1)).
Proof.
  intros H Hf Hmal. unfold strdup. erewrite bind_ok by (by apply strlen_spec).
  destruct Hmal as [[m1 Hm]|(p & m1 & Hm & Hp & H1 & Hmp & Ha)].
  - exists 0, m1. erewrite bind_ok by exact Hm. rewrite decide_True by done. done.
  - exists p. erewrite bind_ok by exact Hm. rewrite decide_False by done.
    pose proof H1 as [Hb Hl].
    destruct (memcpy_spec m1 p str (l ++ [0])) as (m' & Hr & Hb' & Hw).
    + done.
    + apply Forall_app. split; [|repeat constructor; lia]. eapply Forall_impl; [exact Hl|]. by intros ? [? _].
    + rewrite length_app, Nat2Z.inj_add. done.
    + rewrite length_app, Nat2Z.inj_add. done.
    + exists m'. replace (Z.to_nat (Z.of_nat (length l) + 1)) with (length (l ++ [0])).
      2: { rewrite length_app. cbn. lia. }
      erewrite bind_ok by exact Hr. split; [done|]. intros _. split; [done|]. split; [|done].
      split; [|done]. eapply bytes_at_writes; [exact Hb|exact Hw|].
      rewrite length_app, Nat2Z.inj_add. cbn. done.
Qed.

Lemma strdup_correct_witness : exists p m',
  strdup (fun _ => mret 100) 4 106 mem_example = Ok (p, m') /\
  (p <> 0 -> cstr m' p [120; 97; 120] /\ cstr m' 106 [120; 97; 120] /\ apart 106 4 p 4).
Proof.
  apply (strdup_correct (fun _ => mret 100) 4 mem_example 106 [120; 97; 120]);
    [apply cstr_example_2|cbn; lia|].
  right. exists 100, mem_example. split; [done|]. split; [done|]. split; [apply cstr_example_2|].
  split; [|unfold apart; cbn; lia]. intros a Ha. apply mapped_example. cbn in Ha. lia.
Defined.
