(* ===== verification/Printf.v ===== *)
(** Formatted output: lib/stdio/vcbprintf.c, vasprintf.c.

    A format is its list of bytes, up to the terminator; the variable arguments are a list
    of values; the callback is a command over an arbitrary state that is given the bytes to
    print and returns a count. Writing past one of the two local buffers is [Faulted] at
    the offending index, as is taking an argument that is not there. *)
From S2P Require Import Prelude CString.

(** A variable argument: an integer register, or a string. *)
Inductive arg : Type :=
  | Num (v : Z)
  | Str (s : list Z).

Record fmt_flags := mkFlags {
  flag_hash : bool; flag_minus : bool; flag_plus : bool; flag_space : bool; flag_zero : bool }.
Definition no_flags : fmt_flags := mkFlags false false false false false.

Inductive length_t :=
  | LENGTH_SHORT_SHORT | LENGTH_SHORT | LENGTH_DEFAULT | LENGTH_LONG | LENGTH_LONG_LONG
  | LENGTH_LONG_DOUBLE | LENGTH_INTMAX_T | LENGTH_SIZE_T | LENGTH_PTRDIFF_T.
#[export] Instance length_t_dec : EqDecision length_t.
Proof. solve_decision. Defined.

(** [length_modifiers], in the order of the table ("hh", "h", "", "l", "ll", "L", "j", "z",
    "t"). *)
Definition length_modifiers : list (list Z * length_t) :=
  [ ([104; 104], LENGTH_SHORT_SHORT); ([104], LENGTH_SHORT); ([], LENGTH_DEFAULT);
    ([108], LENGTH_LONG); ([108; 108], LENGTH_LONG_LONG); ([76], LENGTH_LONG_DOUBLE);
    ([106], LENGTH_INTMAX_T); ([122], LENGTH_SIZE_T); ([116], LENGTH_PTRDIFF_T) ].

(** [*format] *)
Definition cur (format : list Z) : Z := hd_or 0 format.

(** The flag loop. *)
Fixpoint parse_flags (format : list Z) (f : fmt_flags) : fmt_flags * list Z :=
  match format with
  | [] => (f, [])
  | c :: rest =>
      if decide (c = 35) then parse_flags rest (mkFlags true (flag_minus f) (flag_plus f) (flag_space f) (flag_zero f))
      else if decide (c = 45) then parse_flags rest (mkFlags (flag_hash f) true (flag_plus f) (flag_space f) (flag_zero f))
      else if decide (c = 43) then parse_flags rest (mkFlags (flag_hash f) (flag_minus f) true (flag_space f) (flag_zero f))
      else if decide (c = 32) then parse_flags rest (mkFlags (flag_hash f) (flag_minus f) (flag_plus f) true (flag_zero f))
      else if decide (c = 48) then parse_flags rest (mkFlags (flag_hash f) (flag_minus f) (flag_plus f) (flag_space f) true)
      else (f, format)
  end.

(** Decimal digits: [n = n * 10 + digit]. *)
Fixpoint parse_digits (format : list Z) (n : Z) : Z * list Z :=
  match format with
  | [] => (n, [])
  | c :: rest =>
      if decide (48 <= c <= 57) then parse_digits rest (u64 (u64 (n * 10) + (c - 48)))
      else (n, format)
  end.

(** The length modifier: the last entry of the table that matches and is at least as long
    as the best so far. *)
Fixpoint parse_length (mods : list (list Z * length_t)) (format : list Z)
    (best : length_t) (best_length : nat) : length_t * nat :=
  match mods with
  | [] => (best, best_length)
  | (name, len) :: mods =>
      if decide (length name < best_length)%nat then parse_length mods format best best_length
      else if decide (take (length name) format <> name) then parse_length mods format best best_length
      else parse_length mods format len (length name)
  end.

Definition NO_PRECISION : Z := 2 ^ 64 - 1.

Section vcbprintf.
Context {S : Type}.
Abbreviation C := (cmd S).
Variable callback : list Z -> C Z.

(** [va_arg]: the next argument, at a signed or unsigned width. *)
Definition va_num (args : list arg) : C (Z * list arg) :=
  match args with Num v :: args => mret (v, args) | _ => halt (Faulted 0) end.
Definition va_str (args : list arg) : C (list Z * list arg) :=
  match args with Str s :: args => mret (s, args) | _ => halt (Faulted 0) end.

(** The width of an integer argument per length modifier; [None] is no integer. *)
Definition arg_bits (len : length_t) : option Z :=
  match len with
  | LENGTH_SHORT_SHORT | LENGTH_SHORT | LENGTH_DEFAULT => Some 32
  | LENGTH_LONG | LENGTH_LONG_LONG | LENGTH_INTMAX_T | LENGTH_SIZE_T | LENGTH_PTRDIFF_T => Some 64
  | LENGTH_LONG_DOUBLE => None
  end.

(** [callback(ctx, s, n) != n] ends the call with -1: [put] is true when it does not. *)
Definition put (s : list Z) : C bool :=
  n ← callback s; mret (bool_decide (n = Z.of_nat (length s))).
(** One character [n] times. *)
Fixpoint put_n (n : nat) (c : Z) : C bool :=
  match n with
  | O => mret true
  | Datatypes.S n => ok ← put [c]; if (ok : bool) then put_n n c else mret false
  end.

(** The prefix of a number; its third byte must still hold the terminator. *)
Definition int_prefix (f : fmt_flags) (negative : bool) (specifier : Z) : list Z :=
  (if negative then [45] else if flag_plus f then [43] else if flag_space f then [32] else []) ++
  (if flag_hash f && bool_decide (specifier = 120 \/ specifier = 88) then [48; specifier]
   else if flag_hash f && bool_decide (specifier = 111) then [48] else []).

(** [while(base <= copy) { copy /= base; buf_length++; }] *)
Fixpoint digit_count (fuel : nat) (base copy n : Z) : C Z :=
  match fuel with
  | O => halt OutOfFuel
  | Datatypes.S fuel =>
      if decide (base <= copy) then digit_count fuel base (copy / base) (n + 1) else mret n
  end.

(** [conv[d]] *)
Definition conv (specifier d : Z) : Z :=
  if decide (d < 10) then 48 + d else if decide (specifier = 88) then 65 + (d - 10) else 97 + (d - 10).

(** [for(i = buf_length; i > 0; i--) { buf[i-1] = conv[value % base]; value /= base; }] *)
Fixpoint digits (n : nat) (specifier base value : Z) (buf : list Z) : list Z :=
  match n with
  | O => buf
  | Datatypes.S n => digits n specifier base (value / base) (conv specifier (value mod base) :: buf)
  end.

Definition base_of (specifier : Z) : Z :=
  if decide (specifier = 88 \/ specifier = 120) then 16
  else if decide (specifier = 111) then 8 else 10.

(** Lines 253-343: print [value]; [None] is the return of -1, else the digits counted. *)
Definition put_int (f : fmt_flags) (width precision specifier value : Z) (negative : bool)
    : C (option Z) :=
  let prefix := int_prefix f negative specifier in
  let prefix_len := Z.of_nat (length prefix) in
  if decide (3 <= prefix_len) then halt (Faulted prefix_len) else
  let base := base_of specifier in
  buf_length ← digit_count 64 base value 1;
  let printed_width :=
    if decide (precision <> NO_PRECISION /\ buf_length < precision) then precision else buf_length in
  let pad := if decide (width < u64 (printed_width + prefix_len)) then 0
             else u64 (width - (printed_width + prefix_len)) in
  if decide (21 <= buf_length) then halt (Faulted buf_length) else
  let buf := digits (Z.to_nat buf_length) specifier base value [] in
  ok ← (if flag_zero f then mret true else put_n (Z.to_nat pad) 32);
  if negb ok then mret None else
  ok ← put prefix;
  if negb ok then mret None else
  ok ← (if flag_zero f && negb (flag_minus f) then put_n (Z.to_nat pad) 48 else mret true);
  if negb ok then mret None else
  ok ← (if decide (buf_length < printed_width) then put_n (Z.to_nat (printed_width - buf_length)) 48
        else mret true);
  if negb ok then mret None else
  ok ← put buf;
  if negb ok then mret None else
  ok ← (if flag_minus f then put_n (Z.to_nat pad) 32 else mret true);
  if negb ok then mret None else
  mret (Some buf_length).

(** What a conversion does: it goes on behind the directive with more written and fewer
    arguments, it is unknown, or the whole call returns -1. *)
Inductive conversion :=
  | Done (format : list Z) (n : Z) (args : list arg)
  | Unknown (args : list arg)
  | Failed.

(** The value, sign and specifier of an integer conversion. *)
Definition int_value (specifier : Z) (len : length_t) (args : list arg)
    : C (option (Z * bool * Z * list arg)) :=
  if decide (specifier = 112) then
    '(v, args) ← va_num args; mret (Some (u64 v, false, 120, args))
  else match arg_bits len with
  | None => mret None
  | Some w =>
      '(v, args) ← va_num args;
      if decide (specifier = 105 \/ specifier = 100) then
        let sv := signed w v in
        let negative := bool_decide (sv < 0) in
        mret (Some (if negative then u64 (- u64 sv) else u64 sv, negative, specifier, args))
      else mret (Some (wrap w v, false, specifier, args))
  end.

(** The switch on the conversion character [c] (lines 156-350); [rest] is the format
    behind it. *)
Definition convert (f : fmt_flags) (width precision : Z) (len : length_t) (c : Z)
    (rest : list Z) (args : list arg) : C conversion :=
  if decide (c = 37) then
    ok ← put [37];
    mret (if (ok : bool) then Done rest 0 args else Failed)
  else if decide (c = 115) then
    '(s, args) ← va_str args;
    let n := Z.of_nat (length s) in
    let n := if decide (precision < n) then precision else n in
    ok ← put (take (Z.to_nat n) s);
    mret (if (ok : bool) then Done rest n args else Failed)
  else if decide (c = 99) then
    '(v, args) ← va_num args;
    ok ← put [u8 v];
    mret (if (ok : bool) then Done rest 1 args else Failed)
  else if decide (c ∈ [100; 105; 111; 112; 117; 120; 88]) then
    r ← int_value c len args;
    match r with
    | None => mret (Unknown args)
    | Some (value, negative, specifier, args) =>
        n ← put_int f width precision specifier value negative;
        mret (match n with Some n => Done rest n args | None => Failed end)
    end
  else mret (Unknown args).

(** The directive behind a '%' (lines 62-350); [format] is what follows it. *)
Definition directive (format : list Z) (args : list arg) : C conversion :=
  let '(f, format) := parse_flags format no_flags in
  let '(width, format) := parse_digits format 0 in
  '(width, format, args) ← (if decide (cur format = 42) then
       '(v, args) ← va_num args; mret (u64 (signed 32 v), tail format, args)
     else mret (width, format, args));
  let '(precision, format) :=
    if decide (cur format = 46) then parse_digits (tail format) 0 else (NO_PRECISION, format) in
  let '(len, len_length) := parse_length length_modifiers format LENGTH_DEFAULT 0 in
  let format := drop len_length format in
  convert f width precision len (cur format) (tail format) args.

(** The bytes up to the next '%', and the rest. *)
Fixpoint block (format : list Z) : list Z * list Z :=
  match format with
  | [] => ([], [])
  | c :: rest => if decide (c = 37) then ([], format)
                 else let '(b, r) := block rest in (c :: b, r)
  end.

(** [normal_print]: the first byte, whatever it is, and all up to the next '%'. *)
Definition normal_block (format : list Z) : list Z * list Z :=
  match format with
  | [] => ([], [])
  | c :: rest => let '(b, r) := block rest in (c :: b, r)
  end.

Fixpoint vcb_loop (fuel : nat) (format : list Z) (args : list arg) (written : Z)
    (bad_conversion : bool) : C Z :=
  match fuel with
  | O => halt OutOfFuel
  | Datatypes.S fuel =>
      let normal_print format args bad :=
        let '(b, rest) := normal_block format in
        ok ← put b;
        if (ok : bool) then vcb_loop fuel rest args (u64 (written + Z.of_nat (length b))) bad
        else mret (-1) in
      match format with
      | [] => mret (if decide (2147483647 < written) then -1 else written)
      | c :: rest =>
          if decide (c <> 37) then normal_print format args bad_conversion
          else if decide (cur rest = 37) then normal_print rest args bad_conversion
          else if bad_conversion then normal_print format args true
          else
            r ← directive rest args;
            match r with
            | Done rest' n args' => vcb_loop fuel rest' args' (u64 (written + n)) false
            | Unknown args' => normal_print format args' true
            | Failed => mret (-1)
            end
      end
  end.

(** Each round takes at least one byte of the format. *)
Definition vcb_run (format : list Z) (args : list arg) : C Z :=
  vcb_loop (Datatypes.S (length format)) format args 0 false.
End vcbprintf.

(** [callback_placeholder] *)
Definition callback_placeholder {S} (s : list Z) : cmd S Z := mret (Z.of_nat (length s)).

(** [None] for the callback is [NULL]; for the format, [NULL] or the all-ones pointer. *)
Definition vcbprintf {S} (callback : option (list Z -> cmd S Z)) (format : option (list Z))
    (args : list arg) : cmd S Z :=
  match format with
  | None => mret 0
  | Some format => vcb_run (default callback_placeholder callback) format args
  end.

(** ** Digits *)

(** The value of a digit character, and of a digit string in a base. *)
Definition dval (c : Z) : Z :=
  if decide (c < 58) then c - 48 else if decide (c < 91) then c - 55 else c - 87.
Definition of_digits (base : Z) (ds : list Z) : Z := foldl (fun a c => a * base + dval c) 0 ds.

Lemma dval_conv sp d : 0 <= d < 16 -> dval (conv sp d) = d.
Proof. intros Hd. unfold dval, conv. repeat case_decide; lia. Qed.

Lemma of_digits_app base l1 l2 :
  of_digits base (l1 ++ l2) = of_digits base l1 * base ^ Z.of_nat (length l2) + of_digits base l2.
Proof.
  unfold of_digits. rewrite foldl_app.
  generalize (foldl (fun a c => a * base + dval c) 0 l1) as a. clear l1.
  induction l2 as [|c l2 IH] using rev_ind; intros a; cbn [foldl length].
  - change (Z.of_nat 0) with 0. rewrite Z.pow_0_r. lia.
  - rewrite !foldl_app, length_app. cbn [foldl length]. rewrite IH.
    rewrite Nat2Z.inj_add, Z.pow_add_r by lia. change (base ^ Z.of_nat 1) with (base ^ 1).
    rewrite Z.pow_1_r. lia.
Qed.

Lemma digits_app n sp base v buf : digits n sp base v buf = digits n sp base v [] ++ buf.
Proof.
  revert v buf. induction n as [|n IH]; intros v buf; cbn [digits]; [done|].
  rewrite IH, (IH _ [_]), <-app_assoc. done.
Qed.

Lemma digits_length n sp base v buf : length (digits n sp base v buf) = (n + length buf)%nat.
Proof.
  revert v buf. induction n as [|n IH]; intros v buf; cbn [digits]; [done|].
  rewrite IH. cbn. lia.
Qed.

Lemma digits_value n sp base v : 2 <= base <= 16 -> 0 <= v ->
  of_digits base (digits n sp base v []) = v mod base ^ Z.of_nat n.
Proof.
  intros Hb. revert v. induction n as [|n IH]; intros v Hv; cbn [digits].
  - change (Z.of_nat 0) with 0. by rewrite Z.pow_0_r, Z.mod_1_r.
  - rewrite digits_app, of_digits_app, IH by (apply Z.div_pos; lia). cbn [length].
    change (base ^ Z.of_nat 1) with (base ^ 1). rewrite Z.pow_1_r.
    unfold of_digits. cbn [foldl]. rewrite dval_conv by (pose proof (Z.mod_pos_bound v base); lia).
    rewrite Nat2Z.inj_succ, Z.pow_succ_r by lia.
    rewrite Z.rem_mul_r by (try lia; apply Z.pow_pos_nonneg; lia). lia.
Qed.

(** [n] is the number of digits of [v]. *)
Definition digit_len (base v n : Z) : Prop :=
  1 <= n /\ v < base ^ n /\ (n = 1 \/ base ^ (n - 1) <= v).

Lemma digit_count_spec {S} fuel base v k (s : S) :
  2 <= base -> (0 < fuel)%nat -> 0 <= v < base ^ Z.of_nat fuel ->
  exists n, digit_count fuel base v k s = Ok (k + n - 1, s) /\ digit_len base v n /\
    n <= Z.of_nat fuel.
Proof.
  intros Hb. revert v k. induction fuel as [|fuel IH]; intros v k Hf Hv; [lia|].
  cbn [digit_count]. case_decide as Hd.
  - rewrite Nat2Z.inj_succ, Z.pow_succ_r in Hv by lia.
    assert (Hq : 0 <= v / base < base ^ Z.of_nat fuel).
    { split; [apply Z.div_pos; lia|]. apply Z.div_lt_upper_bound; lia. }
    assert (Hf' : (0 < fuel)%nat).
    { destruct fuel; [|lia]. change (Z.of_nat 0) with 0 in Hv. rewrite Z.pow_0_r in Hv. lia. }
    destruct (IH (v / base) (k + 1) Hf' Hq) as (n & Hr & (H1 & H2 & H3) & Hle).
    exists (n + 1). split; [rewrite Hr; do 2 f_equal; lia|]. split; [|lia].
    split; [lia|]. replace (n + 1) with (Z.succ n) by lia. rewrite Z.pow_succ_r by lia. split.
    + pose proof (Z.mul_succ_div_gt v base). nia.
    + right. replace (Z.succ n - 1) with n by lia. pose proof (Z.mul_div_le v base).
      replace (base ^ n) with (base * base ^ (n - 1)).
      2: { rewrite <-Z.pow_succ_r by lia. f_equal. lia. }
      destruct H3 as [->|H3]; [change (1 - 1) with 0; rewrite Z.pow_0_r; lia|nia].
  - exists 1. split; [unfold mret, cmd_ret; do 2 f_equal; lia|]. split; [|lia].
    split; [lia|]. rewrite Z.pow_1_r. lia.
Qed.

(** ** A recording callback and the reference renderer *)

(** The callback that appends to a buffer and accepts everything. *)
Definition record (s : list Z) : cmd (list Z) Z := fun out => Ok (Z.of_nat (length s), out ++ s).

Lemma put_record s out : put record s out = Ok (true, out ++ s).
Proof. unfold put, record. cmd_unfold. by rewrite bool_decide_eq_true_2. Qed.

Lemma put_n_record n c out : put_n record n c out = Ok (true, out ++ replicate n c).
Proof.
  revert out. induction n as [|n IH]; intros out; cbn [put_n replicate].
  - by rewrite app_nil_r.
  - erewrite bind_ok by apply put_record. rewrite IH. by rewrite <-app_assoc.
Qed.

(** The number of digits, by the loop itself. *)
Definition num_digits (base value : Z) : Z :=
  match digit_count 64 base value 1 tt with Ok (n, _) => n | Stop _ => 0 end.

Lemma digit_count_num base v {S} (s : S) : 2 <= base -> 0 <= v < 2 ^ 64 ->
  digit_count 64 base v 1 s = Ok (num_digits base v, s) /\ digit_len base v (num_digits base v).
Proof.
  intros Hb Hv. assert (Hv' : 0 <= v < base ^ Z.of_nat 64).
  { split; [lia|]. eapply Z.lt_le_trans; [apply Hv|]. apply Z.pow_le_mono_l. lia. }
  destruct (digit_count_spec 64 base v 1 s Hb ltac:(lia) Hv') as (n & Hr & Hn & _).
  destruct (digit_count_spec 64 base v 1 tt Hb ltac:(lia) Hv') as (n' & Hr' & Hn' & _).
  assert (n = n') as <-.
  { destruct Hn as (A1 & A2 & A3), Hn' as (B1 & B2 & B3).
    destruct (Z.lt_trichotomy n n') as [Hl|[->|Hl]]; [exfalso|done|exfalso].
    - destruct B3 as [->|B3]; [lia|]. pose proof (Z.pow_le_mono_r base n (n' - 1)). lia.
    - destruct A3 as [->|A3]; [lia|]. pose proof (Z.pow_le_mono_r base n' (n - 1)). lia. }
  unfold num_digits. rewrite Hr'. replace (1 + n - 1) with n in * by lia. done.
Qed.

Definition int_digits (specifier value : Z) : list Z :=
  let base := base_of specifier in
  digits (Z.to_nat (num_digits base value)) specifier base value [].

(** The characters in front of the digits: a sign, a blank for it, and the base. *)
Definition sign_chars (f : fmt_flags) (negative : bool) : list Z :=
  match negative, flag_plus f, flag_space f with
  | true, _, _ => [45]
  | false, true, _ => [43]
  | false, false, true => [32]
  | false, false, false => []
  end.
Definition base_chars (f : fmt_flags) (specifier : Z) : list Z :=
  match flag_hash f with
  | false => []
  | true => if decide (specifier = 120) then [48; 120] else if decide (specifier = 88) then [48; 88]
            else if decide (specifier = 111) then [48] else []
  end.

Lemma int_prefix_chars f negative sp : int_prefix f negative sp = sign_chars f negative ++ base_chars f sp.
Proof.
  assert (E : (if negative then [45] else if flag_plus f then [43] else if flag_space f then [32] else [])
    = sign_chars f negative) by (unfold sign_chars; by destruct negative, (flag_plus f), (flag_space f)).
  unfold int_prefix, base_chars. rewrite E.
  apply (f_equal (app _)). destruct (flag_hash f); [|done]. cbn [andb].
  destruct (decide (sp = 120)) as [->|N1]; [done|]. destruct (decide (sp = 88)) as [->|N2]; [done|].
  rewrite bool_decide_eq_false_2 by tauto. destruct (decide (sp = 111)) as [->|N3]; [done|].
  by rewrite bool_decide_eq_false_2.
Qed.

(** The layout of an integer: padding, prefix, zeros, digits, padding. *)
Definition render_int (f : fmt_flags) (width precision specifier value : Z) (negative : bool)
    : list Z :=
  let prefix := sign_chars f negative ++ base_chars f specifier in
  let ds := int_digits specifier value in
  let n := Z.of_nat (length ds) in
  let zeros := if decide (precision = NO_PRECISION) then 0 else Z.max 0 (precision - n) in
  let pad := Z.to_nat (width - (n + zeros + Z.of_nat (length prefix))) in
  (if flag_zero f then [] else replicate pad 32) ++ prefix ++
  (if flag_zero f && negb (flag_minus f) then replicate pad 48 else []) ++
  replicate (Z.to_nat zeros) 48 ++ ds ++ (if flag_minus f then replicate pad 32 else []).

Lemma base_of_range sp : 8 <= base_of sp <= 16.
Proof. unfold base_of. repeat case_decide; lia. Qed.

Lemma int_digits_spec sp v : 0 <= v < 2 ^ 64 ->
  Z.of_nat (length (int_digits sp v)) = num_digits (base_of sp) v /\
  of_digits (base_of sp) (int_digits sp v) = v /\ 1 <= num_digits (base_of sp) v <= 22.
Proof.
  intros Hv. pose proof (base_of_range sp) as Hb.
  destruct (digit_count_num (base_of sp) v tt ltac:(lia) Hv) as [_ (H1 & H2 & H3)].
  unfold int_digits. rewrite digits_length, digits_value by lia. cbn [length].
  rewrite Nat.add_0_r, Z2Nat.id by lia. split; [done|]. split; [rewrite Z.mod_small by lia; done|].
  split; [lia|]. destruct (decide (num_digits (base_of sp) v <= 22)) as [|Hn]; [done|]. exfalso.
  destruct H3 as [H3|H3]; [lia|].
  assert (8 ^ 22 <= base_of sp ^ (num_digits (base_of sp) v - 1)); [|lia].
  etransitivity; [apply (Z.pow_le_mono_l 8 (base_of sp) 22); lia|]. apply Z.pow_le_mono_r; lia.
Qed.

Lemma put_int_render f width precision sp v negative out :
  0 <= v < 2 ^ 64 -> 0 <= width < 2 ^ 63 ->
  0 <= precision < 2 ^ 63 \/ precision = NO_PRECISION ->
  (length (int_prefix f negative sp) < 3)%nat -> num_digits (base_of sp) v <= 20 ->
  put_int record f width precision sp v negative out =
    Ok (Some (num_digits (base_of sp) v), out ++ render_int f width precision sp v negative).
Proof.
  intros Hv Hw Hp Hpre Hnd. pose proof (base_of_range sp) as Hb.
  destruct (int_digits_spec sp v Hv) as (Hlen & _ & Hn1).
  unfold put_int, render_int. rewrite <-int_prefix_chars, decide_False by lia. cbv zeta. rewrite Hlen.
  erewrite bind_ok by (apply digit_count_num; [lia|done]).
  set (n := num_digits (base_of sp) v) in *. fold (int_digits sp v). 
  set (pre := int_prefix f negative sp) in *. set (pl := Z.of_nat (length pre)) in *.
  set (zeros := if decide (precision = NO_PRECISION) then 0 else Z.max 0 (precision - n)).
  assert (Hpw : (if decide (precision <> NO_PRECISION /\ n < precision) then precision else n) = n + zeros).
  { unfold zeros. repeat case_decide; lia. }
  rewrite Hpw. assert (Hz : 0 <= zeros < 2 ^ 63) by (unfold zeros; case_decide; lia).
  assert (Hpad : Z.to_nat (if decide (width < u64 (n + zeros + pl)) then 0
    else u64 (width - (n + zeros + pl))) = Z.to_nat (width - (n + zeros + pl))).
  { rewrite (wrap_small 64 (n + zeros + pl)) by (unfold fits; lia).
    destruct (decide (width < n + zeros + pl)); [lia|].
    rewrite wrap_small by (unfold fits; lia). done. }
  rewrite Hpad. set (pad := Z.to_nat (width - (n + zeros + pl))).
  assert (Hzn : (if decide (n < n + zeros) then put_n record (Z.to_nat (n + zeros - n)) 48 else mret true)
    = put_n record (Z.to_nat zeros) 48).
  { replace (n + zeros - n) with zeros by lia. destruct (decide (n < n + zeros)); [done|].
    by replace zeros with 0 by lia. }
  rewrite Hzn. rewrite decide_False by lia. fold (int_digits sp v).
  replace (digits (Z.to_nat n) sp (base_of sp) v []) with (int_digits sp v) by done.
  assert (Hput : forall (b : bool) k c o,
    (if b then put_n record k c else mret true) o = Ok (true, o ++ if b then replicate k c else [])).
  { intros [] k c o; [apply put_n_record|by rewrite app_nil_r]. }
  assert (Hput' : forall (b : bool) k c o,
    (if b then mret true else put_n record k c) o = Ok (true, o ++ if b then [] else replicate k c)).
  { intros [] k c o; [by rewrite app_nil_r|apply put_n_record]. }
  erewrite bind_ok by apply Hput'. cbn [negb]. erewrite bind_ok by apply put_record. cbn [negb].
  erewrite bind_ok by apply Hput. cbn [negb]. erewrite bind_ok by apply put_n_record. cbn [negb].
  erewrite bind_ok by apply put_record. cbn [negb]. erewrite bind_ok by apply Hput. cbn [negb].
  unfold mret, cmd_ret. by rewrite <-!app_assoc.
Qed.

(** ** The main loop consumes its format *)

Lemma parse_flags_le format f : (length (parse_flags format f).2 <= length format)%nat.
Proof.
  revert f. induction format as [|c format IH]; intros f; cbn; [lia|].
  repeat case_decide; cbn; try lia; etransitivity; [apply IH|lia| | | | | | | |]; try apply IH; lia.
Qed.

Lemma parse_digits_le format n : (length (parse_digits format n).2 <= length format)%nat.
Proof.
  revert n. induction format as [|c format IH]; intros n; cbn; [lia|].
  case_decide; cbn; [|lia]. etransitivity; [apply IH|lia].
Qed.

Lemma block_le format : (length (block format).2 <= length format)%nat.
Proof.
  induction format as [|c format IH]; cbn; [lia|]. case_decide; cbn; [lia|].
  destruct (block format) as [b r]; cbn in *. lia.
Qed.

Lemma normal_block_lt format : format <> [] ->
  (length (normal_block format).2 < length format)%nat.
Proof.
  destruct format as [|c format]; [done|]. intros _. cbn. pose proof (block_le format).
  destruct (block format) as [b r]; cbn in *. lia.
Qed.

Section fuel.
Context {S : Type} (callback : list Z -> cmd S Z).

Lemma convert_rest f w p len c rest args s rest' n args' s' :
  convert callback f w p len c rest args s = Ok (Done rest' n args', s') -> rest' = rest.
Proof.
  unfold convert. intros H. destruct (decide (c = 37)).
  { apply bind_inv in H as (ok & s5 & _ & H). unfold mret, cmd_ret in H. destruct ok; by simplify_eq. }
  destruct (decide (c = 115)).
  { apply bind_inv in H as ([x a] & s5 & _ & H). apply bind_inv in H as (ok & s6 & _ & H).
    unfold mret, cmd_ret in H. destruct ok; by simplify_eq. }
  destruct (decide (c = 99)).
  { apply bind_inv in H as ([x a] & s5 & _ & H). apply bind_inv in H as (ok & s6 & _ & H).
    unfold mret, cmd_ret in H. destruct ok; by simplify_eq. }
  destruct (decide (c ∈ _)); [|done].
  apply bind_inv in H as (r & s5 & _ & H). destruct r as [[[[? ?] ?] ?]|]; [|done].
  apply bind_inv in H as (m & s6 & _ & H). unfold mret, cmd_ret in H. destruct m; by simplify_eq.
Qed.

Lemma directive_le format args s rest n args' s' :
  directive callback format args s = Ok (Done rest n args', s') ->
  (length rest <= length format)%nat.
Proof.
  unfold directive. pose proof (parse_flags_le format no_flags) as L1.
  destruct (parse_flags format no_flags) as [f f1]; cbn [snd] in L1.
  pose proof (parse_digits_le f1 0) as L2. destruct (parse_digits f1 0) as [w f2]; cbn [snd] in L2.
  intros H. apply bind_inv in H as ([[w2 f3] a3] & s3 & E & H).
  assert (L3 : (length f3 <= length f2)%nat).
  { destruct (decide (cur f2 = 42)).
    - apply bind_inv in E as ([v a] & s4 & _ & E). unfold mret, cmd_ret in E. simplify_eq. rewrite length_tl. lia.
    - unfold mret, cmd_ret in E. simplify_eq. lia. }
  assert (L4 : (length (if decide (cur f3 = 46%Z) then parse_digits (tail f3) 0 else (NO_PRECISION, f3)).2
    <= length f3)%nat).
  { case_decide; [|done]. etransitivity; [apply parse_digits_le|]. rewrite length_tl. lia. }
  destruct (if decide (cur f3 = 46) then _ else _) as [p f4]; cbn [snd] in L4.
  destruct (parse_length _ f4 _ _) as [len k]. cbv zeta in H.
  assert (L5 : (length (tail (drop k f4)) <= length f4)%nat) by (rewrite length_tl, length_drop; lia).
  apply convert_rest in H. subst rest. lia.
Qed.

(** Any bound above the length of the format gives the same result. *)
Lemma vcb_fuel k1 k2 format args w bad s :
  (length format < k1)%nat -> (length format < k2)%nat ->
  vcb_loop callback k1 format args w bad s = vcb_loop callback k2 format args w bad s.
Proof.
  revert k2 format args w bad s. induction k1 as [|k1 IH]; intros [|k2] format args w bad s H1 H2;
    try lia. cbn [vcb_loop].
  assert (Hn : forall fmt a b s, (length fmt <= length format)%nat -> fmt <> [] ->
    (let '(bl, rest) := normal_block fmt in
     ok ← put callback bl;
     if (ok : bool) then vcb_loop callback k1 rest a (u64 (w + Z.of_nat (length bl))) b else mret (-1)) s
    = (let '(bl, rest) := normal_block fmt in
     ok ← put callback bl;
     if (ok : bool) then vcb_loop callback k2 rest a (u64 (w + Z.of_nat (length bl))) b else mret (-1)) s).
  { intros fmt a b s0 Hl Hne. pose proof (normal_block_lt fmt Hne).
    destruct (normal_block fmt) as [bl rest]; cbn in *. unfold mbind, cmd_bind.
    destruct (put callback bl s0) as [[[] s1]|]; [|done..]. apply IH; lia. }
  destruct format as [|c rest]; [done|]. case_decide; [by apply Hn|].
  case_decide as Hc.
  { apply Hn; [cbn; lia|]. intros ->. done. }
  destruct bad; [by apply Hn|].
  destruct (directive callback rest args s) as [[r s1]|] eqn:E;
    [|by rewrite !(bind_stop _ _ _ _ E)]. rewrite !(bind_ok _ _ _ _ _ E).
  destruct r as [rest' n a'|a'|]; [|by apply Hn|done].
  apply directive_le in E. cbn in H1, H2. apply IH; lia.
Qed.
End fuel.

(** ** Pieces of a format *)

(** A literal text, or a conversion: flag characters, width digits, precision digits, a
    length modifier and the conversion character, with its argument. *)
Inductive piece :=
  | Lit (l : list Z)
  | Percent
  | Conv (fl wd : list Z) (pr : option (list Z)) (len : length_t) (c : Z) (a : arg).

Definition len_name (len : length_t) : list Z :=
  match len with
  | LENGTH_SHORT_SHORT => [104; 104] | LENGTH_SHORT => [104] | LENGTH_DEFAULT => []
  | LENGTH_LONG => [108] | LENGTH_LONG_LONG => [108; 108] | LENGTH_LONG_DOUBLE => [76]
  | LENGTH_INTMAX_T => [106] | LENGTH_SIZE_T => [122] | LENGTH_PTRDIFF_T => [116]
  end.

Definition show (p : piece) : list Z :=
  match p with
  | Lit l => l
  | Percent => [37; 37]
  | Conv fl wd pr len c _ =>
      37 :: fl ++ wd ++ match pr with Some ds => 46 :: ds | None => [] end ++ len_name len ++ [c]
  end.
Definition piece_args (p : piece) : list arg :=
  match p with Conv _ _ _ _ _ a => [a] | _ => [] end.

Definition is_flag (c : Z) : Prop := c ∈ [35; 45; 43; 32; 48].
Definition is_dec (c : Z) : Prop := 48 <= c <= 57.
Definition is_int (c : Z) : Prop := c ∈ [100; 105; 111; 112; 117; 120; 88].

Definition flags_of (fl : list Z) : fmt_flags :=
  mkFlags (bool_decide (35 ∈ fl)) (bool_decide (45 ∈ fl)) (bool_decide (43 ∈ fl))
    (bool_decide (32 ∈ fl)) (bool_decide (48 ∈ fl)).
Definition dec_value (ds : list Z) : Z := of_digits 10 ds.
Definition prec_value (pr : option (list Z)) : Z :=
  match pr with Some ds => dec_value ds | None => NO_PRECISION end.

(** Value, sign and specifier of an integer conversion. *)
Definition int_arg (c : Z) (len : length_t) (v : Z) : Z * bool * Z :=
  if decide (c = 112) then (u64 v, false, 120) else
  let w := default 64 (arg_bits len) in
  if decide (c = 105 \/ c = 100) then (Z.abs (signed w v), bool_decide (signed w v < 0), c)
  else (wrap w v, false, c).

(** What a piece prints, and what it adds to the count returned. *)
Definition render (p : piece) : list Z :=
  match p with
  | Lit l => l
  | Percent => [37]
  | Conv fl wd pr len c (Str s) =>
      match pr with Some ds => take (Z.to_nat (dec_value ds)) s | None => s end
  | Conv fl wd pr len c (Num v) =>
      if decide (c = 99) then [u8 v] else
      let '(value, neg, sp) := int_arg c len v in
      render_int (flags_of fl) (dec_value wd) (prec_value pr) sp value neg
  end.
Definition count (p : piece) : Z :=
  match p with
  | Conv fl wd pr len c (Num v) =>
      if decide (c = 99) then 1 else
      let '(value, neg, sp) := int_arg c len v in num_digits (base_of sp) value
  | p => Z.of_nat (length (render p))
  end.

(** Pieces within the routine's limits: widths and precisions below 2^63, at most two
    prefix characters and twenty digits. *)
Definition piece_ok (p : piece) : Prop :=
  match p with
  | Lit l => Forall (fun c => c <> 37) l
  | Percent => True
  | Conv fl wd pr len c a =>
      Forall is_flag fl /\ Forall is_dec wd /\ head wd <> Some 48 /\ dec_value wd < 2 ^ 63 /\
      (match pr with Some ds => Forall is_dec ds /\ dec_value ds < 2 ^ 63 | None => True end) /\
      match a with
      | Str s => c = 115 /\ Z.of_nat (length s) < 2 ^ 63
      | Num v => c = 99 \/
          is_int c /\ (c = 112 \/ len <> LENGTH_LONG_DOUBLE) /\
          let '(value, neg, sp) := int_arg c len v in
          (length (int_prefix (flags_of fl) neg sp) < 3)%nat /\ num_digits (base_of sp) value <= 20
      end
  end.

(** ** Parsing what [show] writes *)

Definition or_flags (f g : fmt_flags) : fmt_flags :=
  mkFlags (flag_hash f || flag_hash g) (flag_minus f || flag_minus g) (flag_plus f || flag_plus g)
    (flag_space f || flag_space g) (flag_zero f || flag_zero g).

Lemma flags_of_cons c fl : flags_of (c :: fl) = or_flags (flags_of [c]) (flags_of fl).
Proof.
  unfold flags_of, or_flags. cbn.
  f_equal; rewrite <-bool_decide_or; apply bool_decide_ext; rewrite !elem_of_cons; set_solver.
Qed.
Lemma or_flags_assoc f g h : or_flags (or_flags f g) h = or_flags f (or_flags g h).
Proof. unfold or_flags. cbn. by rewrite !orb_assoc. Qed.

Lemma parse_flags_show fl rest f : Forall is_flag fl -> ~ is_flag (cur rest) ->
  parse_flags (fl ++ rest) f = (or_flags f (flags_of fl), rest).
Proof.
  intros Hfl Hr. revert f. induction Hfl as [|c fl Hc _ IH]; intros f; cbn [app].
  - assert (or_flags f (flags_of []) = f) as ->.
    { unfold or_flags. cbn. rewrite !orb_false_r. by destruct f. }
    destruct rest as [|c rest]; [done|]. unfold is_flag, cur, hd_or in Hr. cbn in Hr. cbn.
    rewrite !decide_False by (intros ->; set_solver). done.
  - rewrite flags_of_cons, <-or_flags_assoc, <-IH. cbn [parse_flags].
    unfold is_flag in Hc. rewrite !elem_of_cons in Hc.
    destruct Hc as [->|[->|[->|[->|[->|Hc]]]]]; [..|set_solver];
      repeat (rewrite decide_False by done); rewrite decide_True by done;
      f_equal; unfold or_flags; cbn; rewrite ?orb_true_r, ?orb_false_r; by destruct f.
Qed.

Lemma parse_digits_show ds rest n : Forall is_dec ds -> ~ is_dec (cur rest) -> 0 <= n ->
  foldl (fun a c => a * 10 + dval c) n ds < 2 ^ 64 ->
  parse_digits (ds ++ rest) n = (foldl (fun a c => a * 10 + dval c) n ds, rest).
Proof.
  intros Hds Hr. revert n. induction Hds as [|c ds Hc Hds IH]; intros n Hn Hb; cbn [app].
  - destruct rest as [|c rest]; [done|]. cbn. by rewrite decide_False.
  - cbn [parse_digits foldl] in *. unfold is_dec in Hc. rewrite decide_True by done.
    assert (Hd : dval c = c - 48) by (unfold dval; rewrite decide_True by lia; done).
    rewrite Hd in *.
    assert (Hmono : forall l m, Forall is_dec l -> 0 <= m -> m <= foldl (fun a c => a * 10 + dval c) m l).
    { clear. intros l m Hl. revert m. induction Hl as [|x l Hx _ IH]; intros m Hm; cbn; [lia|].
      unfold is_dec in Hx. assert (0 <= dval x) by (unfold dval; rewrite decide_True by lia; lia).
      specialize (IH (m * 10 + dval x) ltac:(lia)). lia. }
    specialize (Hmono ds (n * 10 + (c - 48)) Hds ltac:(lia)).
    rewrite !wrap_small by (unfold fits; rewrite ?wrap_small by (unfold fits; lia); lia).
    apply IH; lia.
Qed.

Definition is_conv (c : Z) : Prop := c ∈ [37; 115; 99; 100; 105; 111; 112; 117; 120; 88].

Lemma parse_length_show len c rest : is_conv c ->
  parse_length length_modifiers (len_name len ++ c :: rest) LENGTH_DEFAULT 0 =
    (len, length (len_name len)).
Proof.
  intros Hc. unfold is_conv in Hc. rewrite !elem_of_cons, elem_of_nil in Hc.
  repeat (destruct Hc as [->|Hc]; [by destruct len|]). done.
Qed.

(** The first character after the flags of a conversion. *)
Definition tail_part (wd : list Z) (pr : option (list Z)) (len : length_t) (c : Z) (rest : list Z)
    : list Z :=
  wd ++ (match pr with Some ds => 46 :: ds | None => [] end) ++ len_name len ++ c :: rest.

Lemma cur_len len c rest : cur (len_name len ++ c :: rest) ∈ [104; 108; 76; 106; 122; 116; c].
Proof. destruct len; cbn; set_solver. Qed.

Lemma directive_show {S} (callback : list Z -> cmd S Z) fl wd pr len c rest args :
  Forall is_flag fl -> Forall is_dec wd -> head wd <> Some 48 -> dec_value wd < 2 ^ 63 ->
  (match pr with Some ds => Forall is_dec ds /\ dec_value ds < 2 ^ 63 | None => True end) ->
  is_conv c ->
  forall s, directive callback (fl ++ tail_part wd pr len c rest) args s =
    convert callback (flags_of fl) (dec_value wd) (prec_value pr) len c rest args s.
Proof.
  intros Hfl Hwd Hw0 Hwv Hpr Hc s. unfold directive.
  set (t := len_name len ++ c :: rest).
  assert (Hct : cur t ∈ [104; 108; 76; 106; 122; 116; c]) by apply cur_len.
  assert (Hcc : c <> 35 /\ c <> 45 /\ c <> 43 /\ c <> 32 /\ c <> 46 /\ c <> 42 /\ ~ 48 <= c <= 57).
  { unfold is_conv in Hc. rewrite !elem_of_cons, elem_of_nil in Hc. lia. }
  rewrite !elem_of_cons, elem_of_nil in Hct.
  set (t2 := (match pr with Some ds => 46 :: ds | None => [] end) ++ t).
  assert (Ht2 : cur t2 = 46 \/ pr = None /\ t2 = t) by (destruct pr; [by left|by right]).
  assert (Hnf : ~ is_flag (cur (wd ++ t2))).
  { unfold is_flag. rewrite !elem_of_cons, elem_of_nil. destruct wd as [|d wd].
    - cbn [app]. destruct Ht2 as [->|[_ ->]]; lia.
    - inversion Hwd; subst. unfold is_dec in *. cbn in *. unfold cur, hd_or. cbn.
      assert (d <> 48) by congruence. lia. }
  change (tail_part wd pr len c rest) with (wd ++ t2).
  rewrite parse_flags_show by done.
  assert (or_flags no_flags (flags_of fl) = flags_of fl) as -> by done.
  rewrite parse_digits_show; [|done| |lia|unfold dec_value, of_digits in Hwv; lia].
  2: { unfold is_dec. destruct Ht2 as [->|[_ ->]]; lia. }
  change (foldl _ 0 wd) with (dec_value wd).
  rewrite (decide_False (P := cur t2 = 42)) by (destruct Ht2 as [->|[_ ->]]; lia).
  erewrite bind_ok by done. cbv beta iota.
  assert (Hprec : (if decide (cur t2 = 46) then parse_digits (tail t2) 0 else (NO_PRECISION, t2))
    = (prec_value pr, t)).
  { destruct pr as [ds|]; cbn [t2 app prec_value].
    - rewrite decide_True by done. destruct Hpr as [Hds Hv]. unfold dec_value, of_digits in *.
      unfold t2. cbn [app tail]. apply parse_digits_show; [done| |lia|lia]. unfold is_dec. lia.
    - unfold t2. cbn [app]. rewrite decide_False by lia. done. }
  rewrite Hprec. unfold t. rewrite parse_length_show by done. cbv beta iota zeta.
  rewrite drop_app_length. done.
Qed.

(** ** Conversions print what the renderer says *)

Lemma dec_value_nonneg ds : Forall is_dec ds -> 0 <= dec_value ds.
Proof.
  unfold dec_value, of_digits. intros H.
  enough (forall m, 0 <= m -> 0 <= foldl (fun a c => a * 10 + dval c) m ds) by auto with lia.
  induction H as [|x l Hx _ IH]; intros m Hm; cbn; [done|]. apply IH.
  unfold is_dec in Hx. assert (0 <= dval x) by (unfold dval; rewrite decide_True by lia; lia). lia.
Qed.

Lemma signed_range w x : 1 <= w -> - 2 ^ (w - 1) <= signed w x < 2 ^ (w - 1).
Proof.
  intros Hw. unfold signed. pose proof (wrap_fits w x ltac:(lia)) as Hf. unfold fits in Hf.
  assert (2 ^ w = 2 * 2 ^ (w - 1)) by (rewrite <-Z.pow_succ_r by lia; f_equal; lia).
  case_decide; lia.
Qed.

Lemma arg_bits_range len w : arg_bits len = Some w -> w = 32 \/ w = 64.
Proof. destruct len; cbn; intros [=]; auto. Qed.

Lemma int_value_arg {S} c len v args (s : S) :
  is_int c -> c = 112 \/ len <> LENGTH_LONG_DOUBLE ->
  let '(value, neg, sp) := int_arg c len v in
  int_value c len (Num v :: args) s = Ok (Some (value, neg, sp, args), s) /\ 0 <= value < 2 ^ 64.
Proof.
  intros Hc Hl. unfold int_value, int_arg. destruct (decide (c = 112)) as [->|Hp].
  { split; [done|]. apply wrap_fits. lia. }
  destruct (arg_bits len) as [w|] eqn:Hw; [|by destruct len; destruct Hl].
  apply arg_bits_range in Hw. cbn [default from_option id].
  destruct (decide (c = 105 \/ c = 100)).
  - assert (Hr : - 2 ^ 63 <= signed w v < 2 ^ 63).
    { pose proof (signed_range w v ltac:(lia)). destruct Hw as [-> | ->]; lia. }
    split; [|lia]. cmd_unfold. cbn [va_num]. cmd_unfold. do 5 f_equal.
    case_bool_decide as Hneg.
    + rewrite Z.abs_neq by lia. set (y := signed w v) in *. clearbody y. clear -Hr Hneg. f_equal. zlia.
    + rewrite Z.abs_eq by lia. f_equal. apply wrap_small. unfold fits. lia.
  - split; [done|]. pose proof (wrap_fits w v ltac:(lia)) as Hf. unfold fits in Hf.
    destruct Hw as [-> | ->]; lia.
Qed.

Lemma convert_render fl wd pr len c a rest args out :
  piece_ok (Conv fl wd pr len c a) ->
  convert record (flags_of fl) (dec_value wd) (prec_value pr) len c rest (a :: args) out =
    Ok (Done rest (count (Conv fl wd pr len c a)) args, out ++ render (Conv fl wd pr len c a)).
Proof.
  intros (Hfl & Hwd & _ & Hwv & Hpr & Ha). pose proof (dec_value_nonneg wd Hwd) as Hw0.
  unfold convert. destruct a as [v|s].
  - destruct Ha as [->|(Hc & Hl & Hlim)].
    + do 2 (rewrite decide_False by done). rewrite decide_True by done.
      erewrite bind_ok by done. cbv beta iota. erewrite bind_ok by apply put_record. done.
    + assert (Hcn : c <> 37 /\ c <> 115 /\ c <> 99).
      { unfold is_int in Hc. rewrite !elem_of_cons, elem_of_nil in Hc. lia. }
      destruct Hcn as (H1 & H2 & H3). do 3 (rewrite decide_False by done).
      rewrite decide_True by done. unfold count, render. rewrite !(decide_False (P := c = 99)) by done.
      pose proof (int_value_arg c len v args out Hc Hl) as Hv.
      destruct (int_arg c len v) as [[value neg] sp]. destruct Hv as [Hv Hr], Hlim as [Hp Hn].
      erewrite bind_ok by exact Hv.
      assert (Hp0 : 0 <= prec_value pr < 2 ^ 63 \/ prec_value pr = NO_PRECISION).
      { destruct pr as [ds|]; [left|by right]. destruct Hpr as [Hds Hdv].
        pose proof (dec_value_nonneg ds Hds). cbn. lia. }
      cbv beta iota. erewrite bind_ok by (by apply put_int_render). done.
  - destruct Ha as [-> Hs]. rewrite decide_False by done. rewrite decide_True by done.
    erewrite bind_ok by done. cbv beta iota zeta. erewrite bind_ok by apply put_record.
    unfold count, render, mret, cmd_ret. do 2 f_equal.
    + f_equal. destruct pr as [ds|]; cbn [prec_value].
      * pose proof (dec_value_nonneg ds (proj1 Hpr)). rewrite length_take. case_decide; lia.
      * rewrite decide_False by (unfold NO_PRECISION; lia). done.
    + f_equal. destruct pr as [ds|]; cbn [prec_value].
      * case_decide; [done|]. rewrite !take_ge by lia. done.
      * rewrite decide_False by (unfold NO_PRECISION; lia). by rewrite take_ge by lia.
Qed.

(** ** The loop over pieces *)

Definition total (ps : list piece) : Z := sumZ (count <$> ps).

Lemma block_app l fmt : Forall (fun c => c <> 37) l ->
  block (l ++ fmt) = (l ++ (block fmt).1, (block fmt).2).
Proof.
  induction 1 as [|c l Hc _ IH]; cbn; [by destruct (block fmt)|].
  rewrite decide_False by done. by rewrite IH.
Qed.

Lemma block_first fmt : (block fmt).2 = [] \/ cur (block fmt).2 = 37 /\ (block fmt).2 <> [].
Proof.
  induction fmt as [|c fmt IH]; cbn; [by left|]. case_decide as Hc; [subst; by right|].
  by destruct (block fmt).
Qed.

(** One round of [normal_print] from a byte that may be anything. *)
Lemma print_round k c fmt args w bad out :
  (let '(b, rest) := normal_block (c :: fmt) in
   ok ← put record b;
   if (ok : bool) then vcb_loop record k rest args (u64 (w + Z.of_nat (length b))) bad
   else mret (-1)) out
  = vcb_loop record k (block fmt).2 args (u64 (w + Z.of_nat (S (length (block fmt).1)))) bad
      (out ++ c :: (block fmt).1).
Proof.
  cbn [normal_block]. destruct (block fmt) as [b r]. erewrite bind_ok by apply put_record. done.
Qed.

(** Literal bytes are printed, however they are grouped. *)
Lemma loop_lit l k k' fmt args w bad out : Forall (fun c => c <> 37) l ->
  (length (l ++ fmt) < k)%nat -> (length fmt < k')%nat -> 0 <= w ->
  w + Z.of_nat (length (l ++ fmt)) < 2 ^ 64 ->
  vcb_loop record k (l ++ fmt) args w bad out =
    vcb_loop record k' fmt args (w + Z.of_nat (length l)) bad (out ++ l).
Proof.
  intros Hl Hk Hk' Hw Hb. destruct Hl as [|c l Hc Hl].
  { cbn. rewrite Z.add_0_r, app_nil_r. by apply vcb_fuel. }
  cbn [app] in *. destruct k as [|k]; [lia|]. cbn [vcb_loop]. rewrite decide_True by done.
  rewrite print_round, block_app by done. cbn [fst snd length] in *. rewrite !length_app in *.
  pose proof (block_le fmt) as Hle.
  destruct fmt as [|x fmt].
  - cbn. rewrite app_nil_r, Nat.add_0_r. rewrite wrap_small by (unfold fits; lia). apply vcb_fuel; cbn; lia.
  - destruct k' as [|k']; [lia|]. destruct (decide (x = 37)) as [->|Hx].
    + assert (Hbl : block (37 :: fmt) = ([], 37 :: fmt)) by done. rewrite Hbl. cbn [fst snd].
      rewrite app_nil_r. cbn [length]. rewrite Nat.add_0_r, wrap_small by (unfold fits; cbn in *; lia).
      apply vcb_fuel; cbn in *; lia.
    + cbn [vcb_loop]. rewrite (decide_True (P := x <> 37)) by done. rewrite print_round.
      assert (Hbl : block (x :: fmt) = (x :: (block fmt).1, (block fmt).2)).
      { cbn. rewrite decide_False by done. by destruct (block fmt). }
      rewrite Hbl. cbn [fst snd length]. rewrite <-app_assoc. cbn [app].
      assert (Hbb : (length (block fmt).1 + length (block fmt).2 = length fmt)%nat).
      { clear. induction fmt as [|y fmt IH]; cbn; [done|]. case_decide; cbn; [done|].
        destruct (block fmt); cbn in *. lia. }
      cbn [length] in *. rewrite !wrap_small by (unfold fits; lia).
      rewrite (vcb_fuel _ k k') by (rewrite Hbl in Hle; cbn in *; lia). f_equal. lia.
Qed.

Lemma loop_percent k k' fmt args w bad out :
  (S (S (length fmt)) < k)%nat -> (length fmt < k')%nat -> 0 <= w ->
  w + Z.of_nat (length fmt) + 1 < 2 ^ 64 ->
  vcb_loop record k (37 :: 37 :: fmt) args w bad out =
    vcb_loop record k' fmt args (w + 1) bad (out ++ [37]).
Proof.
  intros Hk Hk' Hw Hb. destruct k as [|k]; [lia|]. cbn [vcb_loop].
  rewrite decide_False by tauto. rewrite (decide_True (P := cur (37 :: fmt) = 37)) by done.
  rewrite print_round. pose proof (block_le fmt) as Hle.
  destruct (block fmt) as [b r] eqn:E. cbn [fst snd] in *.
  assert (Hbr : fmt = b ++ r /\ Forall (fun c => c <> 37) b).
  { revert b r E Hle. clear. induction fmt as [|y fmt IH]; intros b r; cbn; [by intros [= <- <-]|].
    case_decide; [by intros [= <- <-]|]. destruct (block fmt) as [b' r'] eqn:E'. intros [= <- <-] _.
    pose proof (block_le fmt) as Hl. rewrite E' in Hl. cbn in Hl.
    destruct (IH b' r' eq_refl Hl) as [-> Hf]. split; [done|]. by constructor. }
  destruct Hbr as [-> Hf]. rewrite length_app in *.
  rewrite (loop_lit b k' (S (length r))) by (done || rewrite ?length_app; lia).
  rewrite wrap_small by (unfold fits; lia). rewrite <-app_assoc. cbn [app].
  rewrite (vcb_fuel _ k (S (length r))) by lia. f_equal. lia.
Qed.


Lemma count_nonneg p : piece_ok p -> 0 <= count p.
Proof.
  destruct p as [l| |fl wd pr len c [v|s]]; intros Hp; cbn [count]; [lia|lia| |lia].
  destruct (decide (c = 99)); [lia|]. destruct Hp as (_ & _ & _ & _ & _ & [?|(Hc & Hl & _)]); [done|].
  pose proof (int_value_arg c len v [] tt Hc Hl) as Hv.
  destruct (int_arg c len v) as [[value neg] sp]. destruct Hv as [_ Hv].
  destruct (int_digits_spec sp value Hv) as (_ & _ & ?). lia.
Qed.

Lemma total_nonneg ps : Forall piece_ok ps -> 0 <= total ps.
Proof.
  induction 1 as [|p ps Hp _ IH]; [done|]. unfold total in *. cbn.
  pose proof (count_nonneg p Hp). fold (sumZ (count <$> ps)). lia.
Qed.

Lemma conv_first fl wd pr len c rest : Forall is_flag fl -> Forall is_dec wd -> c <> 37 ->
  cur (fl ++ tail_part wd pr len c rest) <> 37.
Proof.
  intros Hfl Hwd Hc. destruct fl as [|x fl].
  - unfold tail_part. destruct wd as [|x wd].
    + destruct pr as [ds|]; [done|]. destruct len; cbn; done.
    + inversion Hwd; subst. unfold is_dec in *. unfold cur, hd_or. cbn. lia.
  - inversion Hfl; subst. unfold is_flag in *. unfold cur, hd_or. cbn. intros ->. set_solver.
Qed.

Lemma show_conv fl wd pr len c a rest :
  show (Conv fl wd pr len c a) ++ rest = 37 :: fl ++ tail_part wd pr len c rest.
Proof. unfold show, tail_part. cbn. by rewrite <-!app_assoc. Qed.

Lemma piece_conv fl wd pr len c a : piece_ok (Conv fl wd pr len c a) -> is_conv c /\ c <> 37.
Proof.
  intros (_ & _ & _ & _ & _ & Ha). unfold is_conv. destruct a as [v|s].
  - destruct Ha as [->|(Hc & _)]; [split; [set_solver|done]|]. unfold is_int in Hc.
    split; [set_solver|]. intros ->. set_solver.
  - destruct Ha as [-> _]. split; [set_solver|done].
Qed.

Lemma loop_pieces ps k w out : Forall piece_ok ps ->
  (length (concat (show <$> ps)) < k)%nat -> 0 <= w -> w + total ps <= 2147483647 ->
  Z.of_nat (length (concat (show <$> ps))) < 2 ^ 63 ->
  vcb_loop record k (concat (show <$> ps)) (concat (piece_args <$> ps)) w false out =
    Ok (w + total ps, out ++ concat (render <$> ps)).
Proof.
  intros Hps. revert k w out. induction Hps as [|p ps Hp Hps IH]; intros k w out Hk Hw Ht Hlen.
  - destruct k as [|k]; [lia|]. cbn. unfold total in *. cbn in Ht.
    rewrite decide_False by lia. rewrite app_nil_r. cbn. by rewrite Z.add_0_r.
  - pose proof (total_nonneg ps Hps) as Ht0. pose proof (count_nonneg p Hp) as Hc0.
    assert (Htot : total (p :: ps) = count p + total ps) by done. rewrite Htot in *.
    change (concat (show <$> p :: ps)) with (show p ++ concat (show <$> ps)) in *.
    change (concat (piece_args <$> p :: ps)) with (piece_args p ++ concat (piece_args <$> ps)).
    change (concat (render <$> p :: ps)) with (render p ++ concat (render <$> ps)).
    set (fmt := concat (show <$> ps)) in *. set (more := concat (piece_args <$> ps)) in *.
    rewrite length_app in *.
    assert (Hnext : forall k', (length fmt < k')%nat ->
      vcb_loop record k' fmt more (w + count p) false (out ++ render p) =
      Ok (w + (count p + total ps), out ++ render p ++ concat (render <$> ps))).
    { intros k' Hk'. rewrite IH by lia. rewrite <-app_assoc. do 2 f_equal. lia. }
    destruct p as [l| |fl wd pr len c a].
    + cbn [piece_args app show] in *.
      rewrite (loop_lit l k (S (length fmt))) by (done || rewrite ?length_app; lia).
      apply Hnext. lia.
    + cbn [piece_args app show length] in *.
      rewrite (loop_percent k (S (length fmt))) by lia. apply Hnext. lia.
    + rewrite show_conv. destruct (piece_conv _ _ _ _ _ _ Hp) as [Hc Hc37].
      destruct k as [|k]; [lia|]. cbn [vcb_loop].
      pose proof Hp as (Hfl & Hwd & Hw0 & Hwv & Hpr & _).
      rewrite decide_False by tauto.
      rewrite (decide_False (P := cur _ = 37)) by (by apply conv_first).
      change (piece_args (Conv fl wd pr len c a) ++ more) with (a :: more).
      erewrite bind_ok by (rewrite directive_show by done; by apply convert_render).
      cbv beta iota. rewrite wrap_small by (unfold fits; lia). apply Hnext.
      assert (1 <= length (show (Conv fl wd pr len c a)))%nat by (cbn; lia). lia.
Qed.

(** ** vasprintf *)

(** [struct vasprintf_state] with the bytes stored so far; [realloc] is asked for
    [len_new] bytes and never fails (its result is not checked). Sizes do not wrap: a
    buffer is smaller than memory. *)
Record vasprintf_state := mkVas { vas_buf : list Z; vas_len : Z; vas_used : Z }.

Definition vasprintf_callback (s : list Z) : cmd vasprintf_state Z := fun st =>
  let len := Z.of_nat (length s) in
  let len_needed := vas_used st + len + 1 in
  let new_len :=
    if decide (vas_len st < len_needed) then
      let len_new := vas_len st ≫ 1 in
      if decide (len_new < len_needed) then len_needed else len_new
    else vas_len st in
  (* memcpy to buf + used: the write must stay inside the block *)
  if decide (new_len < vas_used st + len) then Stop (Faulted (vas_used st + len))
  else Ok (len, mkVas (take (Z.to_nat (vas_used st)) (vas_buf st) ++ s) new_len ((vas_used st + len))).

(** [buf], [used] and the return value. *)
Definition vasprintf (format : list Z) (args : list arg) : res (Z * list Z) :=
  match vcbprintf (Some vasprintf_callback) (Some format) args (mkVas [] 1024 0) with
  | Ok (ret, st) =>
      if decide (vas_used st < vas_len st) then Ok (ret, vas_buf st ++ [0])
      else Stop (Faulted (vas_used st))
  | Stop w => Stop w
  end.

Definition asprintf := vasprintf.

(** The buffer holds what has been printed, with room for the terminator. *)
Definition vas_ok (st : vasprintf_state) (out : list Z) : Prop :=
  vas_buf st = out /\ vas_used st = Z.of_nat (length out) /\ vas_used st < vas_len st.

Lemma vas_callback_sim s : sim vas_ok (vasprintf_callback s) (record s).
Proof.
  intros [buf len used] out (Hb & Hu & Hl). cbn in *. subst buf used. unfold vasprintf_callback, record.
  cbn [vas_buf vas_len vas_used].
  set (need := Z.of_nat (length out) + Z.of_nat (length s) + 1).
  set (new_len := if decide (len < need) then if decide (len ≫ 1 < need) then need else len ≫ 1 else len).
  assert (Hn : need <= new_len) by (unfold new_len; repeat case_decide; lia).
  rewrite decide_False by lia. split; [done|]. unfold vas_ok. cbn. rewrite length_app.
  split; [|lia]. by rewrite Nat2Z.id, take_ge by lia.
Qed.

Section sim.
Context {S1 S2 : Type} (R : S1 -> S2 -> Prop) (cb1 : list Z -> cmd S1 Z) (cb2 : list Z -> cmd S2 Z).
Hypothesis Hcb : forall s, sim R (cb1 s) (cb2 s).

Lemma put_sim s : sim R (put cb1 s) (put cb2 s).
Proof. unfold put. repeat sim_step. apply Hcb. Qed.
Lemma put_n_sim n c : sim R (put_n cb1 n c) (put_n cb2 n c).
Proof. induction n as [|n IH]; cbn [put_n]; repeat sim_step; auto using put_sim. Qed.
Lemma digit_count_sim fuel base v n : sim R (digit_count fuel base v n) (digit_count fuel base v n).
Proof. revert v n. induction fuel as [|fuel IH]; intros v n; cbn [digit_count]; repeat sim_step; auto. Qed.
Lemma va_num_sim args : sim R (va_num args) (va_num args).
Proof. unfold va_num. repeat sim_step. Qed.
Lemma va_str_sim args : sim R (va_str args) (va_str args).
Proof. unfold va_str. repeat sim_step. Qed.
Lemma put_int_sim f w p sp v neg : sim R (put_int cb1 f w p sp v neg) (put_int cb2 f w p sp v neg).
Proof.
  unfold put_int. cbv zeta. repeat sim_step; auto using put_sim, put_n_sim, digit_count_sim.
Qed.
Lemma int_value_sim c len args : sim R (int_value c len args) (int_value c len args).
Proof. unfold int_value. repeat sim_step; auto using va_num_sim. Qed.
Lemma convert_sim f w p len c rest args :
  sim R (convert cb1 f w p len c rest args) (convert cb2 f w p len c rest args).
Proof.
  unfold convert. repeat sim_step;
    auto using put_sim, put_int_sim, int_value_sim, va_num_sim, va_str_sim.
Qed.
Lemma directive_sim format args : sim R (directive cb1 format args) (directive cb2 format args).
Proof.
  unfold directive. destruct (parse_flags _ _) as [f f1]. destruct (parse_digits _ _) as [w f2].
  apply sim_bind; [repeat sim_step; apply va_num_sim|]. intros [[w2 f3] a].
  destruct (if decide (cur f3 = 46) then _ else _) as [p f4].
  destruct (parse_length _ _ _ _) as [len k]. apply convert_sim.
Qed.
Lemma vcb_loop_sim fuel format args w bad :
  sim R (vcb_loop cb1 fuel format args w bad) (vcb_loop cb2 fuel format args w bad).
Proof.
  revert format args w bad. induction fuel as [|fuel IH]; intros format args w bad;
    cbn [vcb_loop]; [apply sim_halt|].
  assert (Hn : forall format args bad,
    sim R (let '(b, rest) := normal_block format in
           ok ← put cb1 b;
           if (ok : bool) then vcb_loop cb1 fuel rest args (u64 (w + Z.of_nat (length b))) bad
           else mret (-1))
          (let '(b, rest) := normal_block format in
           ok ← put cb2 b;
           if (ok : bool) then vcb_loop cb2 fuel rest args (u64 (w + Z.of_nat (length b))) bad
           else mret (-1))).
  { intros fmt a b. destruct (normal_block fmt) as [bl r]. apply sim_bind; [apply put_sim|].
    intros []; [apply IH|apply sim_ret]. }
  destruct format as [|c rest]; [apply sim_ret|].
  destruct (decide (c <> 37)); [apply Hn|]. destruct (decide (cur rest = 37)); [apply Hn|].
  destruct bad; [apply Hn|]. apply sim_bind; [apply directive_sim|].
  intros [r k a|a|]; [apply IH|apply Hn|apply sim_ret].
Qed.
End sim.

(** ** printf, vprintf and panic *)

(** What a console promises to its clients: its callback accepts every block and appends it
    to the text shown. *)
Class Console (C : Type) := { con_put : list Z -> cmd C Z }.
#[global] Hint Mode Console ! : typeclass_instances.
Class ConsoleLaws (C : Type) `{!Console C} := {
  con_text : C -> list Z;
  con_put_record block : sim (fun c out => con_text c = out) (con_put block) (record block)
}.
#[global] Hint Mode ConsoleLaws ! - : typeclass_instances.

Definition printf {C} `{!Console C} (format : list Z) (args : list arg) : cmd C Z :=
  vcbprintf (Some con_put) (Some format) args.

(** The console that keeps its text. *)
#[export] Instance log_console : Console (list Z) := {| con_put := record |}.
#[export] Instance log_console_laws : ConsoleLaws (list Z).
Proof. refine {| con_text c := c |}. intros block c out ->. cbn. eauto. Defined.

(** ** Properties *)

Lemma vcbprintf_pieces ps out :
  Forall piece_ok ps -> total ps <= 2147483647 ->
  Z.of_nat (length (concat (show <$> ps))) < 2 ^ 63 ->
  vcbprintf (Some record) (Some (concat (show <$> ps))) (concat (piece_args <$> ps)) out =
    Ok (total ps, out ++ concat (render <$> ps)).
Proof.
  intros Hps Ht Hl. unfold vcbprintf, vcb_run. rewrite <-(Z.add_0_l (total ps)).
  apply (loop_pieces ps _ 0 out); done || lia.
Qed.

(** C26: formatting. For a format made of literal texts, '%%' and conversions (any flags, a
    width, a precision, a length modifier; the conversions d i u o x X p c s) with their
    arguments, within the routine's limits, [vcbprintf] terminates, hands the callback
    exactly the concatenation of the renderings of the pieces, and returns the number of
    characters of the texts and of the digits. *)
Theorem vcbprintf_renders ps out :
  Forall piece_ok ps -> total ps <= 2147483647 ->
  Z.of_nat (length (concat (show <$> ps))) < 2 ^ 63 ->
  vcbprintf (Some record) (Some (concat (show <$> ps))) (concat (piece_args <$> ps)) out =
    Ok (total ps, out ++ concat (render <$> ps)).
Proof. apply vcbprintf_pieces. Qed.

(** "a%%b %#06lx|%-5s" with 255 and "xyz". *)
Definition pieces_example : list piece :=
  [ Lit [97]; Percent; Lit [98; 32];
    Conv [35; 48] [54] None LENGTH_LONG 120 (Num 255); Lit [124];
    Conv [45] [53] None LENGTH_DEFAULT 115 (Str [120; 121; 122]) ].

Lemma pieces_example_ok : Forall piece_ok pieces_example.
Proof.
  unfold pieces_example. rewrite !Forall_cons. unfold piece_ok, is_flag, is_dec, is_int.
  split; [apply (bool_decide_unpack _); vm_compute; done|]. split; [done|].
  split; [apply (bool_decide_unpack _); vm_compute; done|].
  split; [|split; [apply (bool_decide_unpack _); vm_compute; done|split; [|done]]].
  - do 2 (split; [apply (bool_decide_unpack _); vm_compute; done|]). split; [done|].
    split; [done|]. split; [done|]. right.
    split; [apply (bool_decide_unpack _); vm_compute; done|]. split; [by right|].
    vm_compute. split; [lia|done].
  - do 2 (split; [apply (bool_decide_unpack _); vm_compute; done|]). done.
Qed.

Lemma vcbprintf_renders_witness :
  vcbprintf (Some record) (Some [97; 37; 37; 98; 32; 37; 35; 48; 54; 108; 120; 124; 37; 45; 53; 115])
    [Num 255; Str [120; 121; 122]] [] =
  Ok (10, [97; 37; 98; 32; 48; 120; 48; 48; 102; 102; 124; 120; 121; 122]).
Proof.
  apply (vcbprintf_renders pieces_example []); [apply pieces_example_ok|vm_compute; done|vm_compute; done].
Defined.

(** C27: integers. The digits [vcbprintf] prints for a value below 2^64 read back, in the
    base of the conversion, as the value, without a superfluous leading zero; before them
    stand spaces, the prefix and zeros, behind them only spaces. The field is as wide as
    the larger of its content and the width, except that '-' without '0' pads on both
    sides. *)
Theorem put_int_roundtrip f width precision sp v negative out :
  0 <= v < 2 ^ 64 -> 0 <= width < 2 ^ 63 ->
  0 <= precision < 2 ^ 63 \/ precision = NO_PRECISION ->
  (length (int_prefix f negative sp) < 3)%nat -> num_digits (base_of sp) v <= 20 ->
  exists left zeros ds right,
    let prefix := sign_chars f negative ++ base_chars f sp in
    let field := left ++ prefix ++ zeros ++ ds ++ right in
    let n := Z.of_nat (length ds) in
    let digits := if decide (precision = NO_PRECISION) then n else Z.max n precision in
    let content := digits + Z.of_nat (length prefix) in
    put_int record f width precision sp v negative out = Ok (Some n, out ++ field) /\
    of_digits (base_of sp) ds = v /\ (n = 1 \/ base_of sp ^ (n - 1) <= v) /\
    Forall (fun c => c = 48) zeros /\ Forall (fun c => c = 32) (left ++ right) /\
    Z.of_nat (length field) = content +
      (if flag_minus f && negb (flag_zero f) then 2 else 1) * Z.max 0 (width - content).
Proof.
  intros Hv Hw Hp Hpre Hn. destruct (int_digits_spec sp v Hv) as (Hlen & Hval & _).
  pose proof (base_of_range sp) as Hb.
  destruct (digit_count_num (base_of sp) v tt ltac:(lia) Hv) as [_ (_ & _ & Hmin)].
  set (z := if decide (precision = NO_PRECISION) then 0
            else Z.max 0 (precision - Z.of_nat (length (int_digits sp v)))).
  set (pad := Z.to_nat (width - (Z.of_nat (length (int_digits sp v)) + z +
                Z.of_nat (length (int_prefix f negative sp))))).
  exists (if flag_zero f then [] else replicate pad 32),
    ((if flag_zero f && negb (flag_minus f) then replicate pad 48 else []) ++ replicate (Z.to_nat z) 48),
    (int_digits sp v), (if flag_minus f then replicate pad 32 else []).
  cbv zeta. rewrite <-int_prefix_chars, Hlen. split; [|split; [done|split; [done|split; [|split]]]].
  - rewrite put_int_render by done. unfold render_int. rewrite <-int_prefix_chars. fold z. fold pad. by rewrite <-!app_assoc.
  - apply Forall_app. split; [destruct (_ && _); [by apply Forall_replicate|constructor]|].
    by apply Forall_replicate.
  - apply Forall_app. split; [destruct (flag_zero f)|destruct (flag_minus f)];
      by first [apply Forall_replicate|constructor].
  - rewrite !length_app. unfold pad, z in *. rewrite <-Hlen.
    destruct (flag_zero f), (flag_minus f), (decide (precision = NO_PRECISION));
      cbn [andb negb length]; rewrite ?length_replicate; cbn [length]; lia.
Qed.

Lemma put_int_roundtrip_witness : exists left zeros ds right,
  left ++ [43] ++ zeros ++ ds ++ right = [32; 32; 32; 43; 48; 52; 50; 32; 32; 32] /\
  of_digits 10 ds = 42.
Proof.
  destruct (put_int_roundtrip (mkFlags false true true false false) 7 3 100 42 false [])
    as (l & z & ds & r & H1 & H2 & _); [lia|lia|lia|vm_compute; lia|vm_compute; done|].
  cbv zeta in H1. exists l, z, ds, r. split; [|exact H2].
  assert (E : put_int record (mkFlags false true true false false) 7 3 100 42 false [] =
    Ok (Some 2, [32; 32; 32; 43; 48; 52; 50; 32; 32; 32])) by (vm_compute; reflexivity).
  rewrite E in H1. injection H1 as _ H1. symmetry. exact H1.
Defined.

(** The buffers. The local buffers of the integer conversion are too small: a value
    that needs more than twenty digits (octal, from 2^60 on) is written past [buf], and the
    prefix of '%+#x' fills [prefix] so that its terminator is written past the end. *)
Theorem put_int_overflows f width precision sp v negative out :
  0 <= v < 2 ^ 64 ->
  (length (int_prefix f negative sp) = 3)%nat \/
  ((length (int_prefix f negative sp) < 3)%nat /\ sp = 111 /\ 2 ^ 60 <= v) ->
  exists k, put_int record f width precision sp v negative out = Stop (Faulted k).
Proof.
  intros Hv H. unfold put_int. destruct H as [H|(H & -> & Hbig)].
  - rewrite decide_True by lia. eauto.
  - rewrite decide_False by lia. change (base_of 111) with 8.
    destruct (digit_count_num 8 v out ltac:(lia) Hv) as [Hr (H1 & H2 & H3)].
    cbv zeta. erewrite bind_ok by exact Hr. rewrite decide_True; [eexists; done|].
    destruct (decide (21 <= num_digits 8 v)) as [|Hn]; [done|]. exfalso.
    pose proof (Z.pow_le_mono_r 8 (num_digits 8 v) 20 ltac:(lia) ltac:(lia)). lia.
Qed.

Lemma put_int_overflows_witness : exists k1 k2,
  put_int record no_flags 0 NO_PRECISION 111 (2 ^ 60) false [] = Stop (Faulted k1) /\
  put_int record (mkFlags true false true false false) 0 NO_PRECISION 120 1 false [] = Stop (Faulted k2).
Proof.
  destruct (put_int_overflows no_flags 0 NO_PRECISION 111 (2 ^ 60) false []) as [k1 H1];
    [lia|right; vm_compute; split; [lia|done]|].
  destruct (put_int_overflows (mkFlags true false true false false) 0 NO_PRECISION 120 1 false [])
    as [k2 H2]; [lia|left; done|].
  exists k1, k2. split; [exact H1|exact H2].
Defined.

Lemma vasprintf_run format args n out :
  vcbprintf (Some record) (Some format) args [] = Ok (n, out) ->
  vasprintf format args = Ok (n, out ++ [0]).
Proof.
  intros H. unfold vasprintf, vcbprintf, vcb_run in *. cbn [default from_option id] in *.
  destruct (sim_ok vas_ok _ _ (mkVas [] 1024 0) [] n out
    (vcb_loop_sim vas_ok vasprintf_callback record vas_callback_sim (S (length format)) format args 0 false)
    ltac:(by split) H) as (st & Hr & Hb & Hu & Hl).
  cbn -[vcb_loop]. rewrite Hr. rewrite decide_True by done. by rewrite Hb.
Qed.

(** C28: vasprintf. Whatever the format and arguments, when printing them produces the
    bytes [out] and the count [n], [vasprintf] never writes outside its buffer, and returns
    [n] and a buffer that holds exactly [out] and the terminator. *)
Theorem vasprintf_prints format args n out :
  vcbprintf (Some record) (Some format) args [] = Ok (n, out) ->
  vasprintf format args = Ok (n, out ++ [0]).
Proof. apply vasprintf_run. Qed.

Lemma vasprintf_prints_witness : vasprintf [120; 61; 37; 100] [Num (-5)] = Ok (3, [120; 61; 45; 53; 0]).
Proof.
  apply (vasprintf_prints [120; 61; 37; 100] [Num (-5)] 3 [120; 61; 45; 53]).
  vm_compute. reflexivity.
Defined.

(** ** The console and asprintf on formats made of pieces *)

Lemma printf_pieces {C} `{!Console C, !ConsoleLaws C} ps format args (c : C) :
  format = concat (show <$> ps) -> args = concat (piece_args <$> ps) ->
  Forall piece_ok ps -> total ps <= 2147483647 -> Z.of_nat (length format) < 2 ^ 63 ->
  exists c', printf format args c = Ok (total ps, c') /\
    con_text c' = con_text c ++ concat (render <$> ps).
Proof.
  intros -> -> Hps Ht Hl. pose proof (vcbprintf_pieces ps (con_text c) Hps Ht Hl) as H.
  unfold printf, vcbprintf, vcb_run in *. cbn [default from_option id] in *.
  destruct (sim_ok _ _ _ c (con_text c) _ _
    (vcb_loop_sim (fun c out => con_text c = out) con_put record con_put_record
      (S (length (concat (show <$> ps)))) (concat (show <$> ps)) (concat (piece_args <$> ps)) 0 false)
    eq_refl H) as (c' & R & E). eauto.
Qed.

Lemma asprintf_pieces ps format args :
  format = concat (show <$> ps) -> args = concat (piece_args <$> ps) ->
  Forall piece_ok ps -> total ps <= 2147483647 -> Z.of_nat (length format) < 2 ^ 63 ->
  asprintf format args = Ok (total ps, concat (render <$> ps) ++ [0]).
Proof. intros -> -> Hps Ht Hl. by apply vasprintf_run, vcbprintf_pieces. Qed.

(** ** Formats without flags, width or precision *)

Definition plain (len : length_t) (c : Z) (a : arg) : piece := Conv [] [] None len c a.

Lemma num_digits_u64 v : 0 <= v < 2 ^ 64 -> num_digits 10 v <= 20.
Proof.
  intros Hv. destruct (digit_count_num 10 v tt ltac:(lia) Hv) as [_ (H1 & H2 & H3)].
  destruct (decide (num_digits 10 v <= 20)); [done|]. exfalso. destruct H3 as [H3|H3]; [lia|].
  assert (10 ^ 20 <= 10 ^ (num_digits 10 v - 1)) by (apply Z.pow_le_mono_r; lia). lia.
Qed.

Lemma plain_unsigned len v : len <> LENGTH_LONG_DOUBLE -> piece_ok (plain len 117 (Num v)).
Proof.
  intros Hl. split_and!; try done. right. split; [unfold is_int; set_solver|]. split; [by right|].
  assert (E : int_arg 117 len v = (wrap (default 64 (arg_bits len)) v, false, 117)) by done.
  rewrite E. split; [change (flags_of []) with no_flags; cbn; lia|]. apply num_digits_u64.
  assert (0 <= default 64 (arg_bits len) <= 64) as [H0 H1] by (destruct len; cbn; lia).
  destruct (wrap_fits _ v H0) as [? Hw]. split; [done|]. eapply Z.lt_le_trans; [exact Hw|].
  by apply Z.pow_le_mono_r.
Qed.

(** What it prints: the decimal digits alone. *)
Definition decimal (v : Z) : list Z := int_digits 117 v.

Lemma render_unsigned len v : fits (default 64 (arg_bits len)) v -> v < 2 ^ 64 ->
  render (plain len 117 (Num v)) = decimal v.
Proof.
  intros Hv Hm. unfold render, plain. rewrite (decide_False (P := 117 = 99)) by done.
  assert (E : int_arg 117 len v = (wrap (default 64 (arg_bits len)) v, false, 117)) by done.
  rewrite E, wrap_small by done.
  unfold render_int, decimal. change (flags_of []) with no_flags. cbn [flag_zero flag_minus no_flags].
  change (sign_chars no_flags false ++ base_chars no_flags 117) with (@nil Z).
  set (n := Z.of_nat (length (int_digits 117 v))).
  rewrite !(decide_True (P := prec_value None = NO_PRECISION)) by done.
  change (dec_value []) with 0. replace (Z.to_nat (0 - (n + 0 + Z.of_nat (length (@nil Z))))) with 0%nat by lia.
  cbn. by rewrite app_nil_r.
Qed.
