(* ===== verification/Ports.v ===== *)
(** Port I/O (cpu/ports.c) and the drivers that are nothing but port accesses: the
    interrupt controllers at boot (int/pic.c), the interval timer (time/pit.c) and the
    serial port (driver/uart/uart.c).

    The machine behind the ports is a type [S] with an instance of [PortDevice]; what a
    driver relies on is a class of laws on top of it, met by the small devices at the end
    of each part. *)
From S2P Require Import Prelude Printf.

(** What the [in] and [out] instructions do, by operand width (8, 16, 32) and port. *)
Class PortDevice (S : Type) := {
  port_in : Z -> Z -> S -> Z * S;
  port_out : Z -> Z -> Z -> S -> S
}.

Section ports.
Context {S : Type} `{!PortDevice S}.

(** A write to the unused port 0x80 takes about a microsecond. *)
Definition io_wait : cmd S unit := modify (port_out 8 128 0).

Definition port_read (w port : Z) : cmd S Z := fun s =>
  let '(v, s) := port_in w port s in Ok (wrap w v, s).

Definition inb (port : Z) : cmd S Z := v ← port_read 8 port; _ ← io_wait; mret v.
Definition inw (port : Z) : cmd S Z := v ← port_read 16 port; _ ← io_wait; mret v.
Definition inl (port : Z) : cmd S Z := v ← port_read 32 port; _ ← io_wait; mret v.
Definition outb (port v : Z) : cmd S unit := _ ← modify (port_out 8 port (u8 v)); io_wait.
Definition outw (port v : Z) : cmd S unit := _ ← modify (port_out 16 port (u16 v)); io_wait.
Definition outl (port v : Z) : cmd S unit := _ ← modify (port_out 32 port (u32 v)); io_wait.

(** ** int/pic.c *)
Definition pic_init : cmd S unit :=
  (* start initialising the PICs: ICW1_MB1 | ICW1_IC4 *)
  _ ← outb 32 (16 .| 1); _ ← outb 160 (16 .| 1);
  (* the vector offsets *)
  _ ← outb 33 32; _ ← outb 161 40;
  (* the wiring *)
  _ ← outb 33 4; _ ← outb 161 2;
  (* ICW4_8086 | ICW4_M, ICW4_8086 *)
  _ ← outb 33 (1 .| 4); _ ← outb 161 1;
  (* mask every line *)
  _ ← outb 33 255; outb 161 255.

(** ** time/pit.c *)

(** [do { pause; outb(...) } while((inb(PORT_CH0) & STATUS_OUTPUT) == 0)] *)
Fixpoint pit_poll (fuel : nat) : cmd S unit :=
  match fuel with
  | O => halt OutOfFuel
  | Datatypes.S fuel =>
      (* CMD_READBACK | CMD_RB_CH0 | CMD_RB_NO_COUNT_LATCH *)
      _ ← outb 67 (192 .| 2 .| 32);
      v ← inb 64;
      if decide (v .& 128 = 0) then pit_poll fuel else mret tt
  end.

(** One round of the outer loop: a one-shot of [count] ticks. *)
Definition pit_shot (fuel : nat) (count : Z) : cmd S unit :=
  _ ← outb 67 48;
  _ ← outb 64 (count .& 255);
  _ ← outb 64 (count ≫ 8);
  pit_poll fuel.

Fixpoint pit_loop (rounds fuel : nat) (total_count : Z) : cmd S unit :=
  match rounds with
  | O => halt OutOfFuel
  | Datatypes.S rounds =>
      let count := if decide (65535 < total_count) then 65535 else u16 total_count in
      _ ← pit_shot fuel count;
      let total_count := u64 (total_count - count) in
      (* [~0xFFFFU] is computed on 32 bits *)
      if decide (total_count .& bnot 32 65535 <> 0) then pit_loop rounds fuel total_count
      else mret tt
  end.

Definition pit_wait (rounds fuel : nat) (ms : Z) : cmd S unit :=
  pit_loop rounds fuel (u64 (1193 * ms)).

(** ** driver/uart/uart.c *)
Definition UART0 : Z := 1016.

Definition uart_init : cmd S unit :=
  _ ← outb (UART0 + 1) 0;
  (* the divisor, with DLAB set *)
  _ ← outb (UART0 + 3) 128; _ ← outb (UART0 + 0) 1; _ ← outb (UART0 + 1) 0;
  (* 8 bits, no parity, one stop bit *)
  _ ← outb (UART0 + 3) 3;
  (* FIFOs *)
  _ ← outb (UART0 + 2) 199;
  outb (UART0 + 4) 11.

Definition uart_transmit_empty : cmd S bool :=
  v ← inb (UART0 + 5); mret (bool_decide (v .& 32 <> 0)).

Fixpoint uart_wait (fuel : nat) : cmd S unit :=
  match fuel with
  | O => halt OutOfFuel
  | Datatypes.S fuel => e ← uart_transmit_empty; if (e : bool) then mret tt else uart_wait fuel
  end.

Definition uart_putc (fuel : nat) (c : Z) : cmd S unit :=
  _ ← uart_wait fuel; outb (UART0 + 0) c.

(** [callback]: the index where the string or the length ends. *)
Fixpoint uart_send (fuel : nat) (s : list Z) (i : Z) : cmd S Z :=
  match s with
  | [] => mret i
  | c :: s => if decide (c = 0) then mret i else _ ← uart_putc fuel c; uart_send fuel s (i + 1)
  end.
Definition uart_callback (fuel : nat) (s : list Z) : cmd S Z := uart_send fuel s 0.

Definition uart_printf (fuel : nat) (format : list Z) (args : list arg) : cmd S Z :=
  vcbprintf (Some (uart_callback fuel)) (Some format) args.
End ports.

(** ** What the drivers rely on *)

(** A 16550: bit 7 of the line control register (DLAB) selects the divisor behind the first
    two ports; with it clear a byte written to the first port while the transmitter is empty
    is transmitted. The status register reports an empty transmitter after finitely many
    reads. *)
Class UartLaws (S : Type) `{!PortDevice S} := {
  uart_sent : S -> list Z;
  uart_dlab : S -> bool;
  uart_busy : S -> nat;
  uart_max : nat;
  uart_busy_max s : (uart_busy s <= uart_max)%nat;
  uart_lsr s : let '(v, s') := port_in 8 (UART0 + 5) s in
    uart_sent s' = uart_sent s /\ uart_dlab s' = uart_dlab s /\
    match uart_busy s with
    | O => Z.testbit v 5 = true /\ uart_busy s' = O
    | Datatypes.S n => Z.testbit v 5 = false /\ uart_busy s' = n
    end;
  uart_thr s c : fits 8 c -> uart_dlab s = false -> uart_busy s = O ->
    let s' := port_out 8 (UART0 + 0) c s in
    uart_sent s' = uart_sent s ++ [c] /\ uart_dlab s' = false;
  uart_lcr s v : let s' := port_out 8 (UART0 + 3) v s in
    uart_sent s' = uart_sent s /\ uart_dlab s' = Z.testbit v 7;
  uart_divisor s v : uart_dlab s = true ->
    let s' := port_out 8 (UART0 + 0) v s in uart_sent s' = uart_sent s /\ uart_dlab s' = true;
  uart_control s r v : r = 1 \/ r = 2 \/ r = 4 ->
    let s' := port_out 8 (UART0 + r) v s in
    uart_sent s' = uart_sent s /\ uart_dlab s' = uart_dlab s;
  uart_io_wait s : let s' := port_out 8 128 0 s in
    uart_sent s' = uart_sent s /\ uart_dlab s' = uart_dlab s /\ uart_busy s' = uart_busy s
}.

(** A channel loaded in two writes; the output of the shot it starts is low for a number of
    status reads, and high from then on. *)
Class PitLaws (S : Type) `{!PortDevice S} := {
  pit_loaded : S -> list Z;           (* the counts loaded, first to last *)
  pit_left : S -> nat;                (* status reads until the output is high *)
  pit_max : nat;
  pit_load s lo hi : fits 8 lo -> fits 8 hi ->
    let out p v s := port_out 8 128 0 (port_out 8 p v s) in
    let s' := out 64 hi (out 64 lo (out 67 48 s)) in
    pit_loaded s' = pit_loaded s ++ [lo + 256 * hi] /\ (pit_left s' <= pit_max)%nat;
  pit_status s :
    let '(v, s') := port_in 8 64 (port_out 8 128 0 (port_out 8 67 226 s)) in
    let s' := port_out 8 128 0 s' in
    pit_loaded s' = pit_loaded s /\
    match pit_left s with
    | O => Z.testbit v 7 = true /\ pit_left s' = O
    | Datatypes.S n => Z.testbit v 7 = false /\ pit_left s' = n
    end
}.

(** The ticks of a shot: a loaded count of 0 stands for 65536. *)
Definition shot_ticks (count : Z) : Z := if decide (count = 0) then 65536 else count.

(** ** The interval timer *)
Section pit.
Context {S : Type} `{PitLaws S}.

Lemma pit_poll_ok s fuel : (pit_left s < fuel)%nat ->
  exists s', pit_poll fuel s = Ok (tt, s') /\ pit_loaded s' = pit_loaded s.
Proof.
  revert s. induction fuel as [|fuel IH]; intros s Hf; [lia|].
  pose proof (pit_status s) as Hs. cbn [pit_poll]. unfold inb, outb, io_wait, port_read. cmd_unfold.
  change (u8 (192 .| 2 .| 32)) with 226.
  destruct (port_in 8 64 _) as [v s1]. cbn zeta in Hs. destruct Hs as [Hl Hb].
  change 128 with (2 ^ 7). rewrite land_bit, wrap_testbit by lia.
  destruct (pit_left s) as [|n]; destruct Hb as [Hb Hn]; rewrite Hb.
  - rewrite decide_False by lia. by eauto.
  - rewrite decide_True by lia.
    destruct (IH (port_out 8 (2 ^ 7) 0 s1)) as (s' & Hr & Hl'); [change (2 ^ 7) with 128; rewrite Hn; lia|].
    exists s'. split; [exact Hr|]. change (2 ^ 7) with 128 in Hl'. congruence.
Qed.

Lemma pit_shot_ok s fuel count : fits 16 count -> (pit_max < fuel)%nat ->
  exists s', pit_shot fuel count s = Ok (tt, s') /\ pit_loaded s' = pit_loaded s ++ [count].
Proof.
  intros Hc Hf. unfold pit_shot.
  assert (Hlo : count .& 255 = count mod 256) by (apply (land_low count 8); lia).
  assert (Hhi : count ≫ 8 = count / 256) by (apply Z.shiftr_div_pow2; lia).
  rewrite Hlo, Hhi.
  destruct (pit_load s (count mod 256) (count / 256)) as [Hl Hm]; [zlia|zlia|].
  replace (count mod 256 + 256 * (count / 256)) with count in Hl by zlia.
  unfold outb at 1 2 3, io_wait. cmd_unfold.
  rewrite !(wrap_small 8) by zlia.
  match type of Hl with pit_loaded ?x = _ => set (s1 := x) in * end.
  destruct (pit_poll_ok s1 fuel) as (s' & Hr & Hl'); [lia|].
  exists s'. split; [exact Hr|congruence].
Qed.

(** The number of full shots after which fewer than 65536 ticks are left. *)
Lemma pit_loop_ok rounds fuel total s : 0 <= total < 2 ^ 32 -> (pit_max < fuel)%nat ->
  (Z.to_nat (total / 65535) < rounds)%nat ->
  exists s' counts, pit_loop rounds fuel total s = Ok (tt, s') /\
    pit_loaded s' = pit_loaded s ++ counts /\
    counts = (if decide (total <= 65535) then [total]
              else replicate (Z.to_nat ((total - 1) / 65535)) 65535).
Proof.
  revert total s. induction rounds as [|rounds IH]; intros total s Ht Hf Hr; [lia|].
  cbn [pit_loop]. set (count := if decide (65535 < total) then 65535 else u16 total).
  assert (Hc : count = Z.min total 65535).
  { unfold count. case_decide; [lia|]. rewrite wrap_small by zlia. lia. }
  destruct (pit_shot_ok s fuel count) as (s1 & Hs1 & Hl1); [zlia|done|].
  erewrite bind_ok by exact Hs1. cbv beta zeta.
  rewrite (wrap_small 64 (total - count)) by zlia.
  assert (Hmask : (total - count) .& bnot 32 65535 = (total - count) / 65536 * 65536).
  { apply (land_bnot_ones 32 16); [lia|zlia]. }
  rewrite Hmask. destruct (decide (_ <> 0)) as [Hgo|Hstop].
  - destruct (IH (total - count) s1) as (s2 & cs & Hs2 & Hl2 & Hcs); [zlia|done|zlia|].
    exists s2, (count :: cs). split; [exact Hs2|]. split.
    { rewrite Hl2, Hl1, <-app_assoc. done. }
    assert (Hbig : 65535 < total) by zlia. rewrite decide_False by lia.
    rewrite Z.min_r in Hc by lia. rewrite Hc in Hcs |- *.
    replace (Z.to_nat ((total - 1) / 65535)) with (Datatypes.S (Z.to_nat ((total - 65535 - 1) / 65535))) by zlia.
    rewrite Hcs. case_decide; [|done].
    replace (Z.to_nat ((total - 65535 - 1) / 65535)) with O by zlia. f_equal. zlia.
  - exists s1, [count]. split; [done|]. split; [done|].
    case_decide; [by rewrite Hc, Z.min_l by lia|].
    replace (Z.to_nat ((total - 1) / 65535)) with 1%nat by zlia.
    rewrite Hc, Z.min_r by lia. done.
Qed.

Lemma sumZ_replicate n c : sumZ (shot_ticks <$> replicate n c) = Z.of_nat n * shot_ticks c.
Proof. induction n as [|n IH]; [done|]. cbn [replicate fmap list_fmap sumZ foldr]. fold (sumZ (shot_ticks <$> replicate n c)). rewrite IH. lia. Qed.

End pit.

(** ** The serial port *)

(** The bytes of a string up to its terminator, as far as the length goes. *)
Fixpoint until_nul (s : list Z) : list Z :=
  match s with [] => [] | c :: s => if decide (c = 0) then [] else c :: until_nul s end.

(** The reference callback: append what the string holds before its terminator. *)
Definition record_nul (s : list Z) : cmd (list Z) Z := fun out =>
  Ok (Z.of_nat (length (until_nul s)), out ++ (u8 <$> until_nul s)).

Section uart.
Context {S : Type} `{UartLaws S}.

Lemma uart_wait_ok s fuel : (uart_busy s < fuel)%nat ->
  exists s', uart_wait fuel s = Ok (tt, s') /\ uart_busy s' = O /\
    uart_sent s' = uart_sent s /\ uart_dlab s' = uart_dlab s.
Proof.
  revert s. induction fuel as [|fuel IH]; intros s Hf; [lia|].
  pose proof (uart_lsr s) as Hs. cbn [uart_wait].
  unfold uart_transmit_empty, inb, io_wait, port_read. cmd_unfold.
  destruct (port_in 8 (UART0 + 5) s) as [v s1]. destruct Hs as (Hse & Hd & Hb).
  destruct (uart_io_wait s1) as (Hse' & Hd' & Hb').
  change 32 with (2 ^ 5). rewrite land_bit, wrap_testbit by lia.
  destruct (uart_busy s) as [|n]; destruct Hb as [Hb Hn]; rewrite Hb.
  - rewrite bool_decide_eq_true_2 by lia. exists (port_out 8 128 0 s1). repeat split; congruence.
  - rewrite bool_decide_eq_false_2 by lia.
    destruct (IH (port_out 8 128 0 s1)) as (s' & Hr & Hb2 & Hl' & Hd2); [rewrite Hb', Hn; lia|].
    exists s'. split; [exact Hr|]. repeat split; congruence.
Qed.

Lemma uart_putc_ok s fuel c : (uart_max < fuel)%nat -> uart_dlab s = false ->
  exists s', uart_putc fuel c s = Ok (tt, s') /\
    uart_sent s' = uart_sent s ++ [u8 c] /\ uart_dlab s' = false.
Proof.
  intros Hf Hd. destruct (uart_wait_ok s fuel) as (s1 & Hw & Hb & Hse & Hd1).
  { pose proof (uart_busy_max s). lia. }
  unfold uart_putc. erewrite bind_ok by exact Hw. unfold outb, io_wait. cmd_unfold.
  destruct (uart_thr s1 (u8 c)) as [Ht Hd2]; [apply wrap_fits; lia|congruence|done|].
  destruct (uart_io_wait (port_out 8 (UART0 + 0) (u8 c) s1)) as (Hse' & Hd' & _).
  eexists. split; [done|]. split; congruence.
Qed.

Lemma uart_send_ok fuel str i s : (uart_max < fuel)%nat -> uart_dlab s = false ->
  exists s', uart_send fuel str i s = Ok (i + Z.of_nat (length (until_nul str)), s') /\
    uart_sent s' = uart_sent s ++ (u8 <$> until_nul str) /\ uart_dlab s' = false.
Proof.
  intros Hf. revert i s. induction str as [|c str IH]; intros i s Hd; cbn.
  { exists s. rewrite Z.add_0_r, app_nil_r. done. }
  destruct (decide (c = 0)); cbn.
  { exists s. rewrite Z.add_0_r, app_nil_r. done. }
  destruct (uart_putc_ok s fuel c) as (s1 & H1 & Hs1 & Hd1); [done|done|].
  destruct (IH (i + 1) s1 Hd1) as (s2 & H2 & Hs2 & Hd2).
  exists s2. erewrite bind_ok by exact H1. rewrite H2. split; [do 2 f_equal; lia|].
  split; [|done]. by rewrite Hs2, Hs1, <-app_assoc.
Qed.

Lemma uart_callback_sim fuel sent str : (uart_max < fuel)%nat ->
  sim (fun s out => uart_sent s = sent ++ out /\ uart_dlab s = false)
    (uart_callback fuel str) (record_nul str).
Proof.
  intros Hf s out [Hs Hd]. unfold uart_callback, record_nul.
  destruct (uart_send_ok fuel str 0 s Hf Hd) as (s' & -> & Hs' & Hd').
  split; [lia|]. split; [|done]. by rewrite Hs', Hs, app_assoc.
Qed.

(** An [outb] that keeps what was sent. *)
Lemma uart_out_ok s r v d :
  (let s' := port_out 8 (UART0 + r) (u8 v) s in uart_sent s' = uart_sent s /\ uart_dlab s' = d) ->
  exists s', outb (UART0 + r) v s = Ok (tt, s') /\ uart_sent s' = uart_sent s /\ uart_dlab s' = d.
Proof.
  cbv zeta. intros [Hs Hd]. unfold outb, io_wait. cmd_unfold.
  destruct (uart_io_wait (port_out 8 (UART0 + r) (u8 v) s)) as (Hse' & Hd' & _).
  eexists. split; [done|]. split; congruence.
Qed.

(** One step of the initialisation sequence. *)
Lemma uart_out_step s r v d (k : unit -> cmd S unit) (Q : S -> Prop) :
  (let s' := port_out 8 (UART0 + r) (u8 v) s in uart_sent s' = uart_sent s /\ uart_dlab s' = d) ->
  (forall s', uart_sent s' = uart_sent s -> uart_dlab s' = d ->
    exists s'', k tt s' = Ok (tt, s'') /\ Q s'') ->
  exists s'', (outb (UART0 + r) v ≫= k) s = Ok (tt, s'') /\ Q s''.
Proof.
  intros Ho Hk. destruct (uart_out_ok s r v d Ho) as (s1 & H1 & Hs1 & Hd1).
  erewrite bind_ok by exact H1. by apply Hk.
Qed.

Lemma uart_init_ok s :
  exists s', uart_init s = Ok (tt, s') /\ uart_sent s' = uart_sent s /\ uart_dlab s' = false.
Proof.
  unfold uart_init.
  eapply uart_out_step; [apply uart_control; by left|]. intros s1 Hs1 _.
  eapply uart_out_step; [apply uart_lcr|]. intros s2 Hs2 Hd2.
  eapply uart_out_step; [apply uart_divisor; done|]. intros s3 Hs3 Hd3.
  eapply uart_out_step; [apply uart_control; by left|]. intros s4 Hs4 _.
  eapply uart_out_step; [apply uart_lcr|]. intros s5 Hs5 Hd5.
  eapply uart_out_step; [apply uart_control; by right; left|]. intros s6 Hs6 Hd6.
  destruct (uart_out_ok s6 4 11 (uart_dlab s6)) as (s7 & H7 & Hs7 & Hd7).
  { apply uart_control. by do 2 right. }
  exists s7. split; [exact H7|]. split; [congruence|]. by rewrite Hd7, Hd6, Hd5.
Qed.

(** Serial output. After [uart_init], [uart_printf] sends to the line exactly the bytes
    that printing the format hands the reference callback (each string up to its
    terminator), in order, and returns what that printing returns; every byte waits for an
    empty transmitter, for at most the device's latency. *)
Theorem uart_printf_sends fuel format args r out s :
  (uart_max < fuel)%nat ->
  vcbprintf (Some record_nul) (Some format) args [] = Ok (r, out) ->
  exists s1 s2, uart_init s = Ok (tt, s1) /\ uart_printf fuel format args s1 = Ok (r, s2) /\
    uart_sent s2 = uart_sent s ++ out.
Proof.
  intros Hf Hv. destruct (uart_init_ok s) as (s1 & H1 & Hs1 & Hd1).
  destruct (sim_ok (fun s' out => uart_sent s' = uart_sent s ++ out /\ uart_dlab s' = false)
    (uart_printf fuel format args) (vcbprintf (Some record_nul) (Some format) args)
    s1 [] r out) as (s2 & H2 & Hs2 & _).
  - apply vcb_loop_sim. intros str. by apply uart_callback_sim.
  - by rewrite app_nil_r.
  - done.
  - eauto.
Qed.
End uart.

(** ** Two devices *)

(** A 16550 whose transmitter is busy for one status read after each byte. *)
Record uart_dev := mkUart { ud_regs : gmap Z Z; ud_sent : list Z; ud_busy : bool }.

#[export] Instance uart_dev_ports : PortDevice uart_dev := {
  port_in w p d :=
    if decide (p = 1021) then (if ud_busy d then 0 else 32, mkUart (ud_regs d) (ud_sent d) false)
    else (0, d);
  port_out w p v d :=
    if decide (p = 1016) then
      if Z.testbit (default 0 (ud_regs d !! 1019)) 7 then d
      else mkUart (ud_regs d) (ud_sent d ++ [v]) true
    else if decide (1017 <= p < 1024) then mkUart (<[p := v]> (ud_regs d)) (ud_sent d) (ud_busy d)
    else d
}.

#[export] Instance uart_dev_laws : UartLaws uart_dev.
Proof.
  assert (Hf : forall o1 o2 : option Z, o1 = o2 ->
    Z.testbit (default 0 o1) 7 = Z.testbit (default 0 o2) 7) by (by intros o1 o2 ->).
  refine {| uart_sent := ud_sent; uart_max := 1;
    uart_dlab d := Z.testbit (default 0 (ud_regs d !! 1019)) 7;
    uart_busy d := if ud_busy d then 1%nat else 0%nat |}.
  - intros [r o []]; cbn; lia.
  - by intros [r o []].
  - intros [r o b] c Hc Hd Hb. cbn in *. rewrite decide_True by done. rewrite Hd. done.
  - intros [r o b] v. split; [done|]. apply (Hf _ (Some v)), (lookup_insert_eq r 1019).
  - intros [r o b] v Hd. cbn in *. rewrite decide_True by done. rewrite Hd. done.
  - intros [r o b] k v [->|[->| ->]]; (split; [done|]);
      apply (Hf _ (r !! 1019)), (lookup_insert_ne r); done.
  - by intros [r o b].
Defined.

(** Channel 0 of an 8254 whose output is low for one status read of each shot. *)
Record pit_dev := mkPit { pd_low : option Z; pd_counts : list Z; pd_run : bool }.

#[export] Instance pit_dev_ports : PortDevice pit_dev := {
  port_in w p d :=
    if decide (p = 64) then (if pd_run d then 0 else 128, mkPit (pd_low d) (pd_counts d) false)
    else (0, d);
  port_out w p v d :=
    if decide (p = 67) then if decide (v = 48) then mkPit None (pd_counts d) (pd_run d) else d
    else if decide (p = 64) then
      match pd_low d with
      | None => mkPit (Some v) (pd_counts d) (pd_run d)
      | Some lo => mkPit None (pd_counts d ++ [lo + 256 * v]) true
      end
    else d
}.

#[export] Instance pit_dev_laws : PitLaws pit_dev.
Proof.
  refine {| pit_loaded := pd_counts; pit_max := 1;
    pit_left d := if pd_run d then 1%nat else 0%nat |}.
  - intros [l c r] lo hi _ _. split; vm_compute; reflexivity.
  - by intros [l c []].
Defined.


(** "hi %d" *)
Lemma uart_printf_sends_witness :
  exists s1 s2, uart_init (mkUart ∅ [] false) = Ok (tt, s1) /\
    uart_printf 2 [104; 105; 32; 37; 100] [Num 42] s1 = Ok (5, s2) /\
    ud_sent s2 = [104; 105; 32; 52; 50].
Proof.
  destruct (uart_printf_sends 2 [104; 105; 32; 37; 100] [Num 42] 5 [104; 105; 32; 52; 50]
    (mkUart ∅ [] false)) as (s1 & s2 & H1 & H2 & H3).
  - cbn. lia.
  - vm_compute. reflexivity.
  - exists s1, s2. split; [exact H1|]. split; [exact H2|exact H3].
Defined.
