(* ===== verification/Pci.v ===== *)
(** The PCI configuration space and its enumeration: pci/config.c and pci/walk.c.

    Configuration accesses go through the address port 0xCF8 and the data port 0xCFC; what
    a host bridge makes of them is the class [PciLaws]. *)
From S2P Require Import Prelude Ports.

(** [pci_bar_t] *)
Record pci_bar_t := mkBar { bar_addr : Z; bar_size : Z }.

Section config.
Context {S : Type} `{!PortDevice S}.

(** The address of a configuration register, the enable bit set. *)
Definition config_addr (bus slot func offset : Z) : Z :=
  u32 (bus ≪ 16) .| u32 (slot ≪ 11) .| u32 (func ≪ 8) .| 2 ^ 31 .| offset.

(** The [printf] before the assertion is left out. *)
Definition pci_config_read (bus slot func offset : Z) : cmd S Z :=
  let addr := config_addr bus slot func offset in
  _ ← assert_c "!(offset & 3)" (bool_decide (offset .& 3 = 0));
  _ ← outl 0xCF8 addr;
  inl 0xCFC.

Definition pci_config_write (bus slot func offset value : Z) : cmd S unit :=
  let addr := config_addr bus slot func offset in
  _ ← assert_c "!(offset & 3)" (bool_decide (offset .& 3 = 0));
  _ ← outl 0xCF8 addr;
  outl 0xCFC value.

Definition pci_config_header_type (bus slot function : Z) : cmd S Z :=
  v ← pci_config_read bus slot function 0x0C; mret ((v ≫ 16) .& 0xFF).
Definition pci_config_vendor (bus slot function : Z) : cmd S Z :=
  v ← pci_config_read bus slot function 0x00; mret (v .& 0xFFFF).
Definition pci_config_device_id (bus slot function : Z) : cmd S Z :=
  v ← pci_config_read bus slot function 0x00; mret ((v ≫ 16) .& 0xFFFF).
Definition pci_config_class (bus slot function : Z) : cmd S Z :=
  v ← pci_config_read bus slot function 0x08; mret ((v ≫ 16) .& 0xFFFF).
Definition pci_config_interface_id (bus slot function : Z) : cmd S Z :=
  v ← pci_config_read bus slot function 0x08; mret ((v ≫ 8) .& 0xFF).
Definition pci_config_secondary_bus (bus slot function : Z) : cmd S Z :=
  v ← pci_config_read bus slot function 0x18; mret ((v ≫ 8) .& 0xFF).
Definition pci_config_interrupt_pin (bus slot function : Z) : cmd S Z :=
  v ← pci_config_read bus slot function 0x3C; mret ((v ≫ 8) .& 0xFF).

(** [_BAR(x)] *)
Definition BAR (x : Z) : Z := u32 (0x10 + u32 (x ≪ 2)).

Definition LOW4 : Z := 0xFFFFFFFFFFFFFFF0.

Definition pci_config_bar (bus slot function bar : Z) : cmd S pci_bar_t :=
  addr ← pci_config_read bus slot function (BAR bar);
  if decide (addr .& 1 <> 0) then panic "I/O space"
  else if decide (addr .& 4 <> 0) then
    let addr := addr .& LOW4 in
    hi ← pci_config_read bus slot function (BAR (bar + 1));
    let addr := addr .| u64 (hi ≪ 32) in
    _ ← pci_config_write bus slot function (BAR bar) 0xFFFFFFFF;
    _ ← pci_config_write bus slot function (BAR (bar + 1)) 0xFFFFFFFF;
    size ← pci_config_read bus slot function (BAR bar);
    size_hi ← pci_config_read bus slot function (BAR (bar + 1));
    let size := size .| u64 (size_hi ≪ 32) in
    _ ← pci_config_write bus slot function (BAR bar) (addr .& 0xFFFFFFFF);
    _ ← pci_config_write bus slot function (BAR (bar + 1)) (u32 (addr ≫ 32) .& 0xFFFFFFFF);
    mret (mkBar addr (u64 (bnot 64 (size .& LOW4) + 1)))
  else
    _ ← pci_config_write bus slot function (BAR bar) 0xFFFFFFFF;
    size ← pci_config_read bus slot function (BAR bar);
    _ ← pci_config_write bus slot function (BAR bar) (addr .& 0xFFFFFFFF);
    mret (mkBar (addr .& LOW4) (u32 (bnot 32 (size .& 0xFFFFFFF0) + 1) .& 0xFFFFFFFF)).

Definition pci_config_set_busmaster (bus slot function : Z) : cmd S unit :=
  reg ← pci_config_read bus slot function 0x04;
  pci_config_write bus slot function 0x04 (reg .| 4).
End config.

(** ** pci/walk.c *)
Section walk.
Context {S : Type} `{!PortDevice S} (handler : Z -> Z -> Z -> cmd S bool).

(** [for(function = 0; function < 8; function++)]; [walk_bus] is the recursive call. *)
Definition pci_walk_device (walk_bus : Z -> cmd S unit) (bus device : Z) : cmd S unit :=
  for_n 8 0 (fun function =>
    vendor ← pci_config_vendor bus device function;
    if decide (vendor = 0xFFFF) then mret tt else
    _ ← handler bus device function;
    class ← pci_config_class bus device function;
    if decide (class = 0x0604) then
      secondary ← pci_config_secondary_bus bus device function;
      if decide (secondary <> 0) then walk_bus secondary else mret tt
    else mret tt).

(** The devices from [device] on; [n] of them are left. *)
Fixpoint walk_slots (walk_bus : Z -> cmd S unit) (bus : Z) (n : nat) (device : Z) : cmd S unit :=
  match n with
  | O => mret tt
  | Datatypes.S n =>
      let next := walk_slots walk_bus bus n (device + 1) in
      vendor ← pci_config_vendor bus device 0;
      if decide (vendor = 0xFFFF) then next else
      header ← pci_config_header_type bus device 0;
      if decide (header .& 0x80 <> 0) then
        _ ← pci_walk_device walk_bus bus device; next
      else
        class ← pci_config_class bus device 0;
        secondary ← pci_config_secondary_bus bus device 0;
        continue ← handler bus device 0;
        if negb continue then mret tt else
        _ ← (if decide (class = 0x0604) then
               if decide (secondary <> 0) then walk_bus secondary else mret tt
             else mret tt);
        next
  end.

(** [depth] bounds the nesting of buses behind bridges. *)
Fixpoint pci_walk_bus (depth : nat) (bus : Z) : cmd S unit :=
  match depth with
  | O => halt OutOfFuel
  | Datatypes.S depth => walk_slots (pci_walk_bus depth) bus 32 0
  end.

Definition pci_walk_devices (depth : nat) : cmd S unit :=
  header ← pci_config_header_type 0 0 0;
  if decide (header .& 0x80 <> 0) then
    for_n 8 0 (fun function =>
      vendor ← pci_config_vendor 0 0 function;
      if decide (vendor <> 0xFFFF) then mret tt else pci_walk_bus depth function)
  else pci_walk_bus depth 0.
End walk.

(** ** The host bridge *)

(** Configuration mechanism 1: a write to 0xCF8 selects the register that the data port
    reads and writes. A register holds 32 bits, of which [pci_mask] can be written. *)
Class PciLaws (S : Type) `{!PortDevice S} := {
  pci_cfg : S -> Z -> Z;
  pci_sel : S -> Z;
  pci_mask : Z -> Z;
  pci_cfg_fits s a : fits 32 (pci_cfg s a);
  pci_mask_fits a : fits 32 (pci_mask a);
  pci_select s a : fits 32 a ->
    let s' := port_out 32 0xCF8 a s in
    pci_sel s' = a /\ forall b, pci_cfg s' b = pci_cfg s b;
  pci_data_in s : let '(v, s') := port_in 32 0xCFC s in
    v = pci_cfg s (pci_sel s) /\ pci_sel s' = pci_sel s /\ forall b, pci_cfg s' b = pci_cfg s b;
  pci_data_out s v : fits 32 v ->
    let s' := port_out 32 0xCFC v s in
    forall b, pci_cfg s' b =
      if decide (b = pci_sel s) then
        Z.ldiff (pci_cfg s b) (pci_mask b) .| (v .& pci_mask b)
      else pci_cfg s b;
  pci_io_wait s : let s' := port_out 8 128 0 s in
    pci_sel s' = pci_sel s /\ forall b, pci_cfg s' b = pci_cfg s b
}.

(** The arguments that make sense: 8, 5, 3 and 8 bits, the offset of a dword. *)
Definition bdf_ok (bus slot func offset : Z) : Prop :=
  fits 8 bus /\ fits 5 slot /\ fits 3 func /\ fits 8 offset /\ offset mod 4 = 0.

(** ** Registers and their addresses *)

Lemma config_addr_sum bus slot func offset : bdf_ok bus slot func offset ->
  config_addr bus slot func offset = 2 ^ 31 + bus * 2 ^ 16 + slot * 2 ^ 11 + func * 2 ^ 8 + offset.
Proof.
  intros (Hb & Hs & Hf & Ho & _). unfold config_addr.
  rewrite !Z.shiftl_mul_pow2 by lia. rewrite !wrap_small by zlia.
  rewrite <-(Z.lor_comm (2 ^ 31)).
  rewrite (lor_add' 16 (bus * 2 ^ 16) (slot * 2 ^ 11)) by zlia.
  rewrite (lor_add' 11 _ (func * 2 ^ 8)) by zlia.
  rewrite (lor_add' 31 (2 ^ 31)) by zlia.
  rewrite (lor_add' 8) by zlia. lia.
Qed.

Lemma config_addr_fits bus slot func offset : bdf_ok bus slot func offset ->
  fits 32 (config_addr bus slot func offset).
Proof. intros H. rewrite config_addr_sum by done. destruct H as (?&?&?&?&?). zlia. Qed.

Lemma config_addr_inj b d f o b' d' f' o' : bdf_ok b d f o -> bdf_ok b' d' f' o' ->
  config_addr b d f o = config_addr b' d' f' o' -> (b, d, f, o) = (b', d', f', o').
Proof.
  intros H H'. rewrite !config_addr_sum by done.
  destruct H as (?&?&?&?&?), H' as (?&?&?&?&?). intros E. unfold fits in *.
  assert (b = b') by zlia. subst. assert (d = d') by zlia. subst.
  assert (f = f') by zlia. subst. by replace o with o' by lia.
Qed.

Lemma aligned_land o : (o mod 4 = 0) -> o .& 3 = 0.
Proof. intros H. change 3 with (Z.ones 2). by rewrite land_low by lia. Qed.

Section access.
Context {S : Type} `{PciLaws S}.

(** Registers agree. *)
Definition same_cfg (s s' : S) : Prop := forall b, pci_cfg s' b = pci_cfg s b.

Lemma pci_config_read_ok s bus slot func offset : bdf_ok bus slot func offset ->
  exists s', pci_config_read bus slot func offset s =
    Ok (pci_cfg s (config_addr bus slot func offset), s') /\ same_cfg s s'.
Proof.
  intros Hok. unfold pci_config_read. rewrite bool_decide_eq_true_2 by apply aligned_land, Hok.
  pose proof (config_addr_fits _ _ _ _ Hok) as Hf.
  set (a := config_addr bus slot func offset) in *.
  unfold outl, inl, io_wait, port_read. cmd_unfold. rewrite (wrap_small 32 a) by done.
  set (s1 := port_out 8 128 0 (port_out 32 0xCF8 a s)).
  destruct (pci_select s a Hf) as [Hs1 Hc1]. destruct (pci_io_wait (port_out 32 0xCF8 a s)) as [Hs2 Hc2].
  pose proof (pci_data_in s1) as Hd. destruct (port_in 32 0xCFC s1) as [v s2].
  destruct Hd as (Hv & Hs3 & Hc3). destruct (pci_io_wait s2) as [Hs4 Hc4].
  subst v. rewrite (wrap_small 32) by apply pci_cfg_fits.
  fold s1 in Hs2, Hc2. exists (port_out 8 128 0 s2). split; [do 2 f_equal; congruence|].
  intros b. congruence.
Qed.

(** What is stored in register [a] when [v] is written to it. *)
Definition reg_write (s : S) (a v : Z) : Z := Z.ldiff (pci_cfg s a) (pci_mask a) .| (v .& pci_mask a).

Lemma pci_config_write_ok s bus slot func offset v :
  bdf_ok bus slot func offset -> fits 32 v ->
  let a := config_addr bus slot func offset in
  exists s', pci_config_write bus slot func offset v s = Ok (tt, s') /\
    pci_cfg s' a = reg_write s a v /\ forall b, b <> a -> pci_cfg s' b = pci_cfg s b.
Proof.
  intros Hok Hv. unfold pci_config_write. rewrite bool_decide_eq_true_2 by apply aligned_land, Hok.
  pose proof (config_addr_fits _ _ _ _ Hok) as Hf.
  set (a := config_addr bus slot func offset) in *.
  unfold outl, io_wait. cmd_unfold. rewrite !(wrap_small 32) by done.
  set (s1 := port_out 8 128 0 (port_out 32 0xCF8 a s)).
  destruct (pci_select s a Hf) as [Hs1 Hc1]. destruct (pci_io_wait (port_out 32 0xCF8 a s)) as [Hs2 Hc2].
  fold s1 in Hs2, Hc2. pose proof (pci_data_out s1 v Hv) as Hc3.
  destruct (pci_io_wait (port_out 32 0xCFC v s1)) as [Hs4 Hc4].
  eexists. split; [done|]. split.
  - rewrite Hc4, Hc3, decide_True by congruence. unfold reg_write. by rewrite Hc2, Hc1.
  - intros b Hb. rewrite Hc4, Hc3, decide_False by congruence. congruence.
Qed.

(** ** Sizing a base address register *)

(** The mask of a register whose low [k] bits are hard-wired. *)
Definition wired (k : Z) : Z := bnot 32 (Z.ones k).

Lemma reg_write_wired s a v k : 0 <= k <= 32 -> pci_mask a = wired k -> fits 32 v ->
  reg_write s a v = pci_cfg s a mod 2 ^ k + v / 2 ^ k * 2 ^ k.
Proof.
  intros Hk Hm Hv. unfold reg_write. rewrite Hm. pose proof (pci_cfg_fits s a) as Hc.
  unfold wired. rewrite (land_bnot_ones 32 k v) by done.
  assert (Z.ldiff (pci_cfg s a) (bnot 32 (Z.ones k)) = pci_cfg s a mod 2 ^ k) as ->.
  { rewrite <-Z.land_ones by lia. apply Z.bits_inj'. intros i Hi.
    rewrite Z.ldiff_spec, Z.land_spec. destruct (decide (i < 32)).
    - rewrite bnot_testbit by lia. by rewrite negb_involutive.
    - by rewrite (testbit_small _ 32) by (done || lia). }
  rewrite Z.lor_comm, lor_add; [lia|lia|]. split; apply Z.mod_pos_bound; lia.
Qed.

Lemma BAR_offset bar : 0 <= bar <= 5 -> BAR bar = 16 + 4 * bar.
Proof.
  intros Hb. unfold BAR. rewrite Z.shiftl_mul_pow2 by lia. rewrite !wrap_small by zlia. lia.
Qed.

Lemma land_bit0 x : (x .& 1 = 0) <-> Z.testbit x 0 = false.
Proof. change 1 with (2 ^ 0). rewrite land_bit by done. by destruct (Z.testbit x 0). Qed.

Lemma land_bit2 x : (x .& 4 = 0) <-> Z.testbit x 2 = false.
Proof. change 4 with (2 ^ 2). rewrite land_bit by done. by destruct (Z.testbit x 2). Qed.

Lemma land_low4 w x : 4 <= w <= 64 -> fits w x -> x .& (2 ^ w - 16) = x / 16 * 16.
Proof.
  intros Hw Hx. replace (2 ^ w - 16) with (bnot w (Z.ones 4)).
  { rewrite (land_bnot_ones w 4) by (done || lia). done. }
  unfold bnot, wrap. change (Z.lnot (Z.ones 4)) with (-16). 
  rewrite <-(Z.mod_add (-16) 1 (2 ^ w)) by lia.
  replace (-16 + 1 * 2 ^ w) with (2 ^ w - 16) by lia. apply Z.mod_small.
  pose proof (Z.pow_le_mono_r 2 4 w). lia.
Qed.

(** The size a mask of [k] hard-wired bits stands for. *)
Lemma size_of_mask w k : 4 <= k < w -> u64 (bnot w (2 ^ w - 2 ^ k) + 1) = (2 ^ k) mod 2 ^ 64.
Proof.
  intros Hk. unfold bnot, Z.lnot.
  assert (Hw : wrap w (Z.pred (- (2 ^ w - 2 ^ k))) = 2 ^ k - 1).
  { unfold wrap. replace (Z.pred (- (2 ^ w - 2 ^ k))) with (2 ^ k - 1 + (-1) * 2 ^ w) by lia.
    rewrite Z.mod_add by lia. apply Z.mod_small.
    pose proof (Z.pow_lt_mono_r 2 k w). lia. }
  rewrite Hw. unfold wrap. f_equal. lia.
Qed.
(** What a register with [k] hard-wired bits reads after all ones have been written to it. *)
Lemma probe_value k v : 0 <= k <= 32 ->
  let p := v mod 2 ^ k + 0xFFFFFFFF / 2 ^ k * 2 ^ k in
  p = v mod 2 ^ k + (2 ^ 32 - 2 ^ k) /\ p mod 2 ^ k = v mod 2 ^ k /\ fits 32 p.
Proof.
  intros Hk p. assert (E : 2 ^ 32 = 2 ^ (32 - k) * 2 ^ k) by (rewrite <-Z.pow_add_r by lia; f_equal; lia).
  pose proof (Z.pow_pos_nonneg 2 k). pose proof (Z.pow_pos_nonneg 2 (32 - k)).
  assert (D : 0xFFFFFFFF / 2 ^ k = 2 ^ (32 - k) - 1).
  { symmetry. apply (Z.div_unique _ _ _ (2 ^ k - 1)); lia. }
  pose proof (Z.mod_pos_bound v (2 ^ k)).
  unfold p. rewrite D. split; [lia|]. split.
  - rewrite Z.mod_add by lia. apply Z.mod_mod. lia.
  - unfold fits. rewrite E. nia.
Qed.

Lemma low4_pow k v : 4 <= k -> 0 <= v -> v mod 2 ^ k < 16 -> v / 16 * 16 = v / 2 ^ k * 2 ^ k.
Proof.
  intros Hk Hv Hl. assert (E : 2 ^ k = 2 ^ (k - 4) * 16).
  { change 16 with (2 ^ 4). rewrite <-Z.pow_add_r by lia. f_equal. lia. }
  pose proof (Z.pow_pos_nonneg 2 (k - 4)). pose proof (Z.div_mod v (2 ^ k)) as Hdm.
  pose proof (Z.mod_pos_bound v (2 ^ k)) as Hm.
  remember (v / 2 ^ k) as q. remember (v mod 2 ^ k) as m. rewrite E in *.
  assert (v / 16 = q * 2 ^ (k - 4)) as ->; [|ring].
  symmetry. apply (Z.div_unique _ _ _ m); [lia|]. rewrite Hdm by lia. ring.
Qed.

(** The two halves of a 64-bit register behave like one register of 64 bits. *)
Lemma base_mod k lo hi : 4 <= k < 64 -> fits 32 lo -> fits 32 hi ->
  (lo + 2 ^ 32 * hi) mod 2 ^ k =
  lo mod 2 ^ (k `min` 32) + 2 ^ 32 * (hi mod 2 ^ (0 `max` (k - 32))).
Proof.
  intros Hk Hlo Hhi. destruct (decide (k <= 32)).
  - rewrite Z.min_l, Z.max_l by lia. change (2 ^ 0) with 1. rewrite Z.mod_1_r.
    assert (E : 2 ^ 32 = 2 ^ (32 - k) * 2 ^ k) by (rewrite <-Z.pow_add_r by lia; f_equal; lia).
    rewrite E. replace (lo + _ * hi) with (lo + (2 ^ (32 - k) * hi) * 2 ^ k) by ring.
    rewrite Z.mod_add by lia. lia.
  - rewrite Z.min_r, Z.max_r by lia. rewrite (Z.mod_small lo) by done.
    assert (E : 2 ^ k = 2 ^ 32 * 2 ^ (k - 32)) by (rewrite <-Z.pow_add_r by lia; f_equal; lia).
    pose proof (Z.pow_pos_nonneg 2 (k - 32)).
    pose proof (Z.div_mod hi (2 ^ (k - 32))) as D. pose proof (Z.mod_pos_bound hi (2 ^ (k - 32))) as B.
    symmetry. apply (Z.mod_unique _ _ (hi / 2 ^ (k - 32))); [unfold fits in *; rewrite E; nia|].
    rewrite E. remember (hi / 2 ^ (k - 32)) as q. remember (hi mod 2 ^ (k - 32)) as m.
    rewrite D by lia. ring.
Qed.

Lemma probe64 k lo hi : 4 <= k < 64 -> fits 32 lo -> fits 32 hi ->
  let plo := lo mod 2 ^ (k `min` 32) + 0xFFFFFFFF / 2 ^ (k `min` 32) * 2 ^ (k `min` 32) in
  let phi := hi mod 2 ^ (0 `max` (k - 32)) + 0xFFFFFFFF / 2 ^ (0 `max` (k - 32)) * 2 ^ (0 `max` (k - 32)) in
  phi * 2 ^ 32 + plo = (lo + 2 ^ 32 * hi) mod 2 ^ k + (2 ^ 64 - 2 ^ k).
Proof.
  intros Hk Hlo Hhi plo phi. rewrite base_mod by done.
  destruct (probe_value (k `min` 32) lo) as (P1 & _); [lia|].
  destruct (probe_value (0 `max` (k - 32)) hi) as (Q1 & _); [lia|].
  unfold plo, phi. rewrite P1, Q1.
  destruct (decide (k <= 32)).
  - rewrite !Z.min_l, !Z.max_l by lia. change (2 ^ 0) with 1. lia.
  - rewrite !Z.min_r, !Z.max_r by lia.
    assert (E : 2 ^ k = 2 ^ 32 * 2 ^ (k - 32)) by (rewrite <-Z.pow_add_r by lia; f_equal; lia). lia.
Qed.

Lemma shl32_or lo hi : fits 32 lo -> fits 32 hi -> lo .| u64 (hi ≪ 32) = hi * 2 ^ 32 + lo.
Proof.
  intros Hlo Hhi. rewrite Z.shiftl_mul_pow2 by lia. rewrite wrap_small by zlia.
  rewrite Z.lor_comm. by apply lor_add.
Qed.

Lemma size_of_probe w k p b : 4 <= k < w -> w <= 64 -> 0 <= b < 16 -> p = b + (2 ^ w - 2 ^ k) ->
  fits w p /\ u64 (bnot w (p .& (2 ^ w - 16)) + 1) = 2 ^ k.
Proof.
  intros Hk Hw Hb ->. pose proof (Z.pow_lt_mono_r 2 k w). pose proof (Z.pow_le_mono_r 2 4 k).
  pose proof (Z.pow_le_mono_r 2 w 64).
  assert (Hf : fits w (b + (2 ^ w - 2 ^ k))) by (unfold fits; lia). split; [done|].
  rewrite land_low4 by (done || lia).
  assert (E : 2 ^ w - 2 ^ k = (2 ^ (w - k) - 1) * 2 ^ k).
  { rewrite Z.mul_sub_distr_r, <-Z.pow_add_r by lia. f_equal; [f_equal; lia|lia]. }
  assert (Hm : (b + (2 ^ w - 2 ^ k)) mod 2 ^ k = b).
  { rewrite E, Z.mod_add by lia. apply Z.mod_small. lia. }
  rewrite (low4_pow k) by (unfold fits in *; lia).
  pose proof (Z.div_mod (b + (2 ^ w - 2 ^ k)) (2 ^ k)) as D. rewrite Hm in D.
  replace (_ / 2 ^ k * 2 ^ k) with (2 ^ w - 2 ^ k) by lia.
  rewrite size_of_mask by lia. apply Z.mod_small. lia.
Qed.

(** Writing all ones to a register and then its old value back. *)
Lemma write_ones s bus slot func offset k :
  bdf_ok bus slot func offset -> let a := config_addr bus slot func offset in
  0 <= k <= 32 -> pci_mask a = wired k ->
  exists s', pci_config_write bus slot func offset 0xFFFFFFFF s = Ok (tt, s') /\
    pci_cfg s' a = pci_cfg s a mod 2 ^ k + 0xFFFFFFFF / 2 ^ k * 2 ^ k /\
    forall b, b <> a -> pci_cfg s' b = pci_cfg s b.
Proof.
  intros Hok a Hk Hm.
  destruct (pci_config_write_ok s bus slot func offset 0xFFFFFFFF Hok) as (s' & R & W & C); [done|].
  fold a in W, C. rewrite (reg_write_wired s a _ k) in W by done. eauto.
Qed.

Lemma write_back s bus slot func offset k v w :
  bdf_ok bus slot func offset -> let a := config_addr bus slot func offset in
  0 <= k <= 32 -> pci_mask a = wired k -> fits 32 w ->
  pci_cfg s a = v mod 2 ^ k + 0xFFFFFFFF / 2 ^ k * 2 ^ k -> w / 2 ^ k = v / 2 ^ k ->
  exists s', pci_config_write bus slot func offset w s = Ok (tt, s') /\
    pci_cfg s' a = v /\ forall b, b <> a -> pci_cfg s' b = pci_cfg s b.
Proof.
  intros Hok a Hk Hm Hw Hs Hq.
  destruct (pci_config_write_ok s bus slot func offset w Hok) as (s' & R & W & C); [done|].
  fold a in W, C. rewrite (reg_write_wired s a _ k) in W by done.
  exists s'. split; [done|]. split; [|done]. rewrite W, Hs, Hq.
  destruct (probe_value k v) as (_ & -> & _); [done|]. pose proof (Z.div_mod v (2 ^ k)). lia.
Qed.

Lemma div16_div k v : 4 <= k -> v / 16 * 16 / 2 ^ k = v / 2 ^ k.
Proof.
  intros Hk. assert (E : 2 ^ k = 16 * 2 ^ (k - 4)).
  { change 16 with (2 ^ 4). rewrite <-Z.pow_add_r by lia. f_equal. lia. }
  rewrite E, <-!Z.div_div by lia. f_equal. apply Z.div_mul. lia.
Qed.

Lemma bar32_ok s bus slot func bar k :
  bdf_ok bus slot func (BAR bar) ->
  let r := config_addr bus slot func (BAR bar) in
  let v := pci_cfg s r in
  Z.testbit v 0 = false -> Z.testbit v 2 = false -> 4 <= k < 32 -> pci_mask r = wired k ->
  v mod 2 ^ k < 16 ->
  exists s', pci_config_bar bus slot func bar s = Ok (mkBar (v / 16 * 16) (2 ^ k), s') /\ same_cfg s s'.
Proof.
  intros Hok r v H0 H2 Hk Hm Hlow. unfold pci_config_bar.
  pose proof (pci_cfg_fits s r) as Hv. fold v in Hv.
  destruct (pci_config_read_ok s bus slot func _ Hok) as (s1 & R1 & C1). fold r v in R1.
  erewrite bind_ok by exact R1. cbv zeta.
  rewrite (decide_False (P := v .& 1 <> 0)) by (rewrite (proj2 (land_bit0 v) H0); tauto).
  rewrite (decide_False (P := v .& 4 <> 0)) by (rewrite (proj2 (land_bit2 v) H2); tauto).
  destruct (write_ones s1 bus slot func _ k Hok) as (s2 & R2 & W2 & C2); [lia|done|].
  fold r in W2, C2. rewrite C1 in W2. fold v in W2. erewrite bind_ok by exact R2.
  destruct (pci_config_read_ok s2 bus slot func _ Hok) as (s3 & R3 & C3). fold r in R3.
  erewrite bind_ok by exact R3. rewrite W2.
  destruct (probe_value k v) as (P1 & _); [lia|]. rewrite <-C3 in W2.
  rewrite P1. set (p := v mod 2 ^ k + _).
  destruct (size_of_probe 32 k p (v mod 2 ^ k)) as [Pf Ps]; [lia|lia|split; [apply Z.mod_pos_bound|]; lia|done|].
  change 0xFFFFFFFF with (Z.ones 32). change 0xFFFFFFF0 with (2 ^ 32 - 16). rewrite !land_low by lia.
  unfold LOW4. change 0xFFFFFFFFFFFFFFF0 with (2 ^ 64 - 16).
  rewrite (land_low4 64 v); [|lia|apply (fits_mono 32); [lia|done]].
  destruct (write_back s3 bus slot func _ k v (v mod 2 ^ 32) Hok) as (s4 & R4 & W4 & C4);
    [lia|done|zlia|done|by rewrite (Z.mod_small v)|].
  erewrite bind_ok by exact R4. exists s4. split.
  - pose proof (Z.pow_lt_mono_r 2 k 32). pose proof (Z.pow_pos_nonneg 2 k).
    rewrite wrap_small in Ps; [|pose proof (bnot_fits 32 (p .& (2 ^ 32 - 16))); unfold fits in *; lia].
    rewrite Ps, wrap_small, Z.mod_small by (unfold fits; lia). done.
  - intros b. destruct (decide (b = r)) as [->|Hb]; [exact W4|].
    rewrite C4, C3, C2, C1 by done. done.
Qed.

Lemma bar64_ok s bus slot func bar k :
  bdf_ok bus slot func (BAR bar) -> bdf_ok bus slot func (BAR (bar + 1)) ->
  BAR bar <> BAR (bar + 1) ->
  let r := config_addr bus slot func (BAR bar) in
  let r' := config_addr bus slot func (BAR (bar + 1)) in
  let base := pci_cfg s r + 2 ^ 32 * pci_cfg s r' in
  Z.testbit (pci_cfg s r) 0 = false -> Z.testbit (pci_cfg s r) 2 = true -> 4 <= k < 64 ->
  pci_mask r = wired (k `min` 32) -> pci_mask r' = wired (0 `max` (k - 32)) ->
  base mod 2 ^ k < 16 ->
  exists s', pci_config_bar bus slot func bar s = Ok (mkBar (base / 16 * 16) (2 ^ k), s') /\
    same_cfg s s'.
Proof.
  intros Hok Hok' Hne r r' base H0 H2 Hk Hm Hm' Hlow. unfold pci_config_bar.
  assert (Hrr : r <> r').
  { intros E. apply config_addr_inj in E; [|done|done]. congruence. }
  pose proof (pci_cfg_fits s r) as Hlo. pose proof (pci_cfg_fits s r') as Hhi.
  set (lo := pci_cfg s r) in *. set (hi := pci_cfg s r') in *.
  destruct (pci_config_read_ok s bus slot func _ Hok) as (s1 & R1 & C1). fold r lo in R1.
  erewrite bind_ok by exact R1. cbv zeta.
  rewrite (decide_False (P := lo .& 1 <> 0)) by (rewrite (proj2 (land_bit0 lo) H0); tauto).
  rewrite (decide_True (P := lo .& 4 <> 0)) by (rewrite land_bit2, H2; done).
  destruct (pci_config_read_ok s1 bus slot func _ Hok') as (s2 & R2 & C2). fold r' in R2.
  rewrite C1 in R2. fold hi in R2. erewrite bind_ok by exact R2.
  destruct (write_ones s2 bus slot func _ (k `min` 32) Hok ltac:(lia) Hm) as (s3 & R3 & W3 & C3). fold r in W3, C3.
  erewrite bind_ok by exact R3. rewrite C2, C1 in W3. fold lo in W3.
  destruct (write_ones s3 bus slot func _ (0 `max` (k - 32)) Hok' ltac:(lia) Hm') as (s4 & R4 & W4 & C4). fold r' in W4, C4.
  erewrite bind_ok by exact R4. rewrite C3, C2, C1 in W4 by done. fold hi in W4.
  destruct (pci_config_read_ok s4 bus slot func _ Hok) as (s5 & R5 & C5). fold r in R5.
  erewrite bind_ok by exact R5.
  destruct (pci_config_read_ok s5 bus slot func _ Hok') as (s6 & R6 & C6). fold r' in R6.
  erewrite bind_ok by exact R6. rewrite C4, W3, C5, W4 by done.
  unfold LOW4. change 0xFFFFFFFFFFFFFFF0 with (2 ^ 64 - 16).
  destruct (probe_value (k `min` 32) lo) as (_ & _ & Fl); [lia|].
  destruct (probe_value (0 `max` (k - 32)) hi) as (_ & _ & Fh); [lia|].
  rewrite (shl32_or _ _ Fl Fh), (probe64 k lo hi) by done. fold base.
  destruct (size_of_probe 64 k (base mod 2 ^ k + (2 ^ 64 - 2 ^ k)) (base mod 2 ^ k)) as [_ Ps];
    [lia|lia|split; [apply Z.mod_pos_bound|]; lia|done|].
  rewrite Ps. rewrite (land_low4 64 lo); [|lia|apply (fits_mono 32); [lia|done]].
  assert (Flo : fits 32 (lo / 16 * 16)) by (clear -Hlo; zlia). rewrite (shl32_or _ _ Flo Hhi).
  change 0xFFFFFFFF with (Z.ones 32). rewrite !land_low, Z.shiftr_div_pow2 by lia.
  replace ((hi * 2 ^ 32 + lo / 16 * 16) mod 2 ^ 32) with (lo / 16 * 16) by (clear -Hlo Hhi; clearbody lo hi; zlia).
  replace ((hi * 2 ^ 32 + lo / 16 * 16) / 2 ^ 32) with hi by (clear -Hlo Hhi; clearbody lo hi; zlia).
  replace (hi * 2 ^ 32 + lo / 16 * 16) with (base / 16 * 16) by (unfold base; clear -Hlo Hhi; clearbody lo hi; zlia).
  destruct (write_back s6 bus slot func _ (k `min` 32) lo (lo / 16 * 16) Hok) as (s7 & R7 & W7 & C7);
    [lia|done|done|fold r; by rewrite C6, C5, C4 by done|apply div16_div; lia|].
  fold r in W7, C7. erewrite bind_ok by exact R7. rewrite !(wrap_small 32 hi) by done.
  destruct (write_back s7 bus slot func _ (0 `max` (k - 32)) hi (hi mod 2 ^ 32) Hok') as (s8 & R8 & W8 & C8);
    [lia|done|clear -Hhi; zlia|fold r'; by rewrite C7, C6, C5, W4 by done|by rewrite (Z.mod_small hi)|].
  fold r' in W8, C8. erewrite bind_ok by exact R8. eexists. split; [done|].
  intros b. destruct (decide (b = r')) as [->|Hb']; [exact W8|]. rewrite C8 by done.
  destruct (decide (b = r)) as [->|Hb]; [exact W7|].
  rewrite C7, C6, C5, C4, C3, C2, C1 by done. done.
Qed.
End access.

(** ** The topology that configuration space describes *)
Section topology.
Variable cfg : Z -> Z.

Definition vendor_at (b d f : Z) : Z := cfg (config_addr b d f 0x00) .& 0xFFFF.
Definition header_at (b d f : Z) : Z := (cfg (config_addr b d f 0x0C) ≫ 16) .& 0xFF.
Definition class_at (b d f : Z) : Z := (cfg (config_addr b d f 0x08) ≫ 16) .& 0xFFFF.
Definition secondary_at (b d f : Z) : Z := (cfg (config_addr b d f 0x18) ≫ 8) .& 0xFF.

(** A function that answers: of a device whose function 0 answers, function 0 only unless
    the header says there are more. *)
Definition func_on (b d f : Z) : Prop :=
  0 <= d < 32 /\ vendor_at b d 0 <> 0xFFFF /\
  if decide (header_at b d 0 .& 0x80 <> 0)
  then 0 <= f < 8 /\ vendor_at b d f <> 0xFFFF else f = 0.

(** A PCI-to-PCI bridge and the bus behind it. *)
Definition bridge (b d f sec : Z) : Prop :=
  func_on b d f /\ class_at b d f = 0x0604 /\ secondary_at b d f = sec /\ sec <> 0.

(** The functions on a bus and on the buses behind its bridges. *)
Inductive below (b : Z) : Z * Z * Z -> Prop :=
  | below_here d f : func_on b d f -> below b (b, d, f)
  | below_bridge d f sec x : bridge b d f sec -> below sec x -> below b x.
End topology.

Section enumeration.
Context {S : Type} `{PciLaws S}.
Context (handler : Z -> Z -> Z -> cmd S bool) (visited : S -> list (Z * Z * Z)).
Hypothesis visited_in : forall w p s, visited (port_in w p s).2 = visited s.
Hypothesis visited_out : forall w p v s, visited (port_out w p v s) = visited s.
Hypothesis handler_visits : forall b d f s, exists s', handler b d f s = Ok (true, s') /\
  same_cfg s s' /\ visited s' = visited s ++ [(b, d, f)].
Variable cfg : Z -> Z.
(** A bridge's secondary bus has a larger number. *)
Hypothesis numbered : forall b d f sec, fits 8 b -> bridge cfg b d f sec -> b < sec.

(** A command that leaves the registers alone, and the functions it visits. *)
Definition visits {A} (c : cmd S A) (s : S) (a : A) (P : Z * Z * Z -> Prop) : Prop :=
  exists s' vs, c s = Ok (a, s') /\ same_cfg s s' /\ visited s' = visited s ++ vs /\
    forall x, x ∈ vs <-> P x.

Lemma visits_bind {A B} (c : cmd S A) (k : A -> cmd S B) s a b P Q R :
  visits c s a P -> (forall s', same_cfg s s' -> visits (k a) s' b Q) ->
  (forall x, R x <-> P x \/ Q x) -> visits (c ≫= k) s b R.
Proof.
  intros (s1 & v1 & R1 & C1 & V1 & P1) Hk HR. destruct (Hk s1 C1) as (s2 & v2 & R2 & C2 & V2 & P2).
  exists s2, (v1 ++ v2). erewrite bind_ok by exact R1. split; [done|].
  split; [intros r; rewrite C2; apply C1|]. split; [by rewrite V2, V1, app_assoc|].
  intros x. rewrite elem_of_app, P1, P2, HR. done.
Qed.

Lemma visits_ret {A} (a : A) s (P : Z * Z * Z -> Prop) : (forall x, ~ P x) -> visits (mret a) s a P.
Proof.
  intros HP. exists s, []. split; [done|]. split; [done|]. split; [by rewrite app_nil_r|].
  intros x. split; [intros Hx; by apply not_elem_of_nil in Hx|intros Hx; by apply HP in Hx].
Qed.

Lemma visits_iff {A} (c : cmd S A) s a P Q :
  (forall x, P x <-> Q x) -> visits c s a P -> visits c s a Q.
Proof.
  intros HPQ (s' & vs & ? & ? & ? & HP). exists s', vs. repeat (split; [done|]).
  intros x. by rewrite HP.
Qed.

Lemma visited_read s b d f o v s' : pci_config_read b d f o s = Ok (v, s') -> visited s' = visited s.
Proof.
  unfold pci_config_read. intros R. apply bind_inv in R as (? & s1 & A & R).
  apply assert_inv in A as [_ [= _ ->]]. revert R. unfold outl, inl, io_wait, port_read. cmd_unfold.
  match goal with |- context [port_in 32 ?p ?s0] => pose proof (visited_in 32 p s0) as V;
    destruct (port_in 32 p s0) as [y s2] end.
  cbn in V. intros [= _ <-]. by rewrite visited_out, V, !visited_out.
Qed.

(** Reading a register. *)
Lemma read_visits s b d f o :
  bdf_ok b d f o -> (forall r, pci_cfg s r = cfg r) ->
  visits (pci_config_read b d f o) s (cfg (config_addr b d f o)) (fun _ => False).
Proof.
  intros Hok Hc. destruct (pci_config_read_ok s b d f o Hok) as (s' & R & C).
  exists s', []. rewrite <-Hc. split; [done|]. split; [done|].
  rewrite app_nil_r. split; [by eapply visited_read|].
  intros x. split; [intros Hx; by apply not_elem_of_nil in Hx|done].
Qed.

Lemma field_visits (g : Z -> Z) s b d f o :
  bdf_ok b d f o -> (forall r, pci_cfg s r = cfg r) ->
  visits (v ← pci_config_read b d f o; mret (g v)) s (g (cfg (config_addr b d f o))) (fun _ => False).
Proof.
  intros Hok Hc. eapply visits_bind; [by apply read_visits| |].
  - intros s' _. apply (visits_ret _ _ (fun _ => False)). tauto.
  - intros x. tauto.
Qed.

(** One more read in front of a command. *)
Lemma visits_after {A B} (c : cmd S A) (k : A -> cmd S B) s a b P :
  visits c s a (fun _ => False) -> (forall s', same_cfg s s' -> visits (k a) s' b P) ->
  visits (c ≫= k) s b P.
Proof. intros Hc Hk. eapply visits_bind; [done|done|]. intros x. tauto. Qed.

Lemma handler_visit s b d f : visits (handler b d f) s true (fun x => x = (b, d, f)).
Proof.
  destruct (handler_visits b d f s) as (s' & R & C & V). exists s', [(b, d, f)].
  split; [done|]. split; [done|]. split; [done|]. intros x. apply list_elem_of_singleton.
Qed.

Definition reads_cfg (s : S) : Prop := forall r, pci_cfg s r = cfg r.

Lemma reads_same s s' : reads_cfg s -> same_cfg s s' -> reads_cfg s'.
Proof. intros H1 H2 r. by rewrite H2. Qed.

Lemma visits_for n from body s (P : Z -> Z * Z * Z -> Prop) :
  reads_cfg s ->
  (forall i s, from <= i < from + Z.of_nat n -> reads_cfg s -> visits (body i) s tt (P i)) ->
  visits (for_n n from body) s tt (fun x => exists i, from <= i < from + Z.of_nat n /\ P i x).
Proof.
  revert from s. induction n as [|n IH]; intros from s Hs Hb; cbn [for_n].
  { apply visits_ret. intros x (i & ? & _). lia. }
  eapply visits_bind; [apply Hb; [lia|done]| |].
  - intros s' C. apply IH; [by eapply reads_same|]. intros i s1 Hi. apply Hb. lia.
  - intros x. cbn beta. split.
    + intros (i & Hi & HP). destruct (decide (i = from)) as [->|]; [by left|]. right.
      exists i. split; [lia|done].
    + intros [HP|(i & Hi & HP)]; [exists from|exists i]; (split; [lia|done]).
Qed.

(** What walking behind a function visits. *)
Definition behind (b d f : Z) (x : Z * Z * Z) : Prop := exists sec, bridge cfg b d f sec /\ below cfg sec x.

Section one_bus.
Variables (walk_bus : Z -> cmd S unit) (b : Z).
Hypothesis b_fits : fits 8 b.
Hypothesis walk_bus_ok : forall sec s, b < sec -> fits 8 sec -> reads_cfg s ->
  visits (walk_bus sec) s tt (below cfg sec).

Lemma secondary_fits d f : fits 8 (secondary_at cfg b d f).
Proof. unfold secondary_at. change 0xFF with (Z.ones 8). rewrite land_low by lia. by apply wrap_fits. Qed.

Lemma behind_visits s d f : reads_cfg s -> func_on cfg b d f ->
  visits (if decide (class_at cfg b d f = 0x0604) then
            if decide (secondary_at cfg b d f <> 0) then walk_bus (secondary_at cfg b d f) else mret tt
          else mret tt) s tt (behind b d f).
Proof.
  intros Hs Hf. unfold behind. case_decide as Hc.
  - case_decide as Hsec.
    + assert (Hbr : bridge cfg b d f (secondary_at cfg b d f)) by done.
      eapply visits_iff; [|apply walk_bus_ok; [by apply (numbered b d f)|apply secondary_fits|done]].
      intros x. split; [by eauto|]. intros (sec & (_ & _ & <- & _) & ?). done.
    + apply visits_ret. intros x (sec & (_ & _ & E & ?) & _). congruence.
  - apply visits_ret. intros x (sec & (_ & ? & _) & _). done.
Qed.

Lemma bdf_func d f o : 0 <= d < 32 -> 0 <= f < 8 -> o ∈ [0; 8; 12; 24] -> bdf_ok b d f o.
Proof.
  intros Hd Hf Ho. split; [done|]. split; [done|]. split; [done|].
  rewrite !elem_of_cons, elem_of_nil in Ho. destruct Ho as [->|[->|[->|[->|[]]]]]; done.
Qed.
Ltac bdf := apply bdf_func; [lia|lia|set_solver].

Lemma device_visits s d : reads_cfg s -> 0 <= d < 32 -> vendor_at cfg b d 0 <> 0xFFFF ->
  header_at cfg b d 0 .& 0x80 <> 0 ->
  visits (pci_walk_device handler walk_bus b d) s tt
    (fun x => exists f, func_on cfg b d f /\ (x = (b, d, f) \/ behind b d f x)).
Proof.
  intros Hs Hd Hv Hh. unfold pci_walk_device.
  eapply visits_iff; [|apply (visits_for 8 0 _ s (fun f x => vendor_at cfg b d f <> 0xFFFF /\
    (x = (b, d, f) \/ behind b d f x))); [done|]].
  - assert (E : forall f, func_on cfg b d f <-> 0 <= f < 8 /\ vendor_at cfg b d f <> 0xFFFF).
    { intros f. unfold func_on. rewrite decide_True by done. tauto. }
    intros x. split; intros (f & Hx); exists f; rewrite E in *; tauto.
  - intros f s0 Hf Hs0.
    eapply visits_after; [apply (field_visits (fun v => v .& 0xFFFF)); [bdf|done]|].
    intros s1 C1. fold (vendor_at cfg b d f). cbv beta.
    case_decide as Hvf. { apply visits_ret. tauto. }
    assert (Hfo : func_on cfg b d f).
    { unfold func_on. rewrite decide_True by done. done. }
    eapply visits_bind; [apply handler_visit| |].
    + intros s2 C2. eapply visits_after.
      { apply (field_visits (fun v => (v ≫ 16) .& 0xFFFF)); [bdf|].
        by eapply reads_same, C2; eapply reads_same. }
      intros s3 C3. fold (class_at cfg b d f). cbv beta.
      assert (Hs3 : reads_cfg s3).
      { eapply reads_same, C3. eapply reads_same, C2. by eapply reads_same. }
      pose proof (behind_visits s3 d f Hs3 Hfo) as Hb. case_decide; [|exact Hb].
      eapply visits_after; [apply (field_visits (fun v => (v ≫ 8) .& 0xFF)); [bdf|done]|].
      intros s4 C4. fold (secondary_at cfg b d f). cbv beta.
      pose proof (behind_visits s4 d f (reads_same _ _ Hs3 C4) Hfo) as Hb4.
      by rewrite decide_True in Hb4.
    + intros x. cbv beta. tauto.
Qed.

(** What the devices from [d] on visit. *)
Definition from_slot (d : Z) (n : nat) (x : Z * Z * Z) : Prop :=
  exists d' f, d <= d' < d + Z.of_nat n /\ func_on cfg b d' f /\ (x = (b, d', f) \/ behind b d' f x).

Lemma from_slot_S d n x : from_slot d (Datatypes.S n) x <->
  (exists f, func_on cfg b d f /\ (x = (b, d, f) \/ behind b d f x)) \/ from_slot (d + 1) n x.
Proof.
  unfold from_slot. split.
  - intros (d' & f & Hd & H1 & H2). destruct (decide (d' = d)) as [->|]; [left; eauto|].
    right. exists d', f. split; [lia|done].
  - intros [(f & H1 & H2)|(d' & f & Hd & H1 & H2)]; [exists d, f|exists d', f]; (split; [lia|done]).
Qed.

Lemma slots_visits n d s : reads_cfg s -> 0 <= d -> d + Z.of_nat n <= 32 ->
  visits (walk_slots handler walk_bus b n d) s tt (from_slot d n).
Proof.
  revert d s. induction n as [|n IH]; intros d s Hs H0 Hd; cbn [walk_slots].
  { apply visits_ret. intros x (d' & f & ? & _). lia. }
  assert (IH' : forall s', reads_cfg s' -> visits (walk_slots handler walk_bus b n (d + 1)) s' tt
    (from_slot (d + 1) n)) by (intros; apply IH; [done|lia|lia]).
  clear IH. cbv zeta.
  eapply visits_after; [apply (field_visits (fun v => v .& 0xFFFF)); [bdf|done]|].
  intros s1 C1. fold (vendor_at cfg b d 0). cbv beta. pose proof (reads_same _ _ Hs C1) as Hs1.
  case_decide as Hv.
  { eapply visits_iff, IH'; [|done]. intros x. rewrite from_slot_S.
    split; [tauto|]. intros [(f & (_ & Hv' & _) & _)|?]; [done|tauto]. }
  eapply visits_after; [apply (field_visits (fun v => (v ≫ 16) .& 0xFF)); [bdf|done]|].
  intros s2 C2. fold (header_at cfg b d 0). cbv beta. pose proof (reads_same _ _ Hs1 C2) as Hs2.
  case_decide as Hh.
  { eapply visits_bind; [by apply device_visits; [|lia| |]| |apply from_slot_S].
    intros s3 C3. apply IH'. by eapply reads_same. }
  assert (Hfo : func_on cfg b d 0).
  { unfold func_on. rewrite (decide_False (P := header_at cfg b d 0 .& 0x80 <> 0)) by tauto. split; [lia|done]. }
  eapply visits_after; [apply (field_visits (fun v => (v ≫ 16) .& 0xFFFF)); [bdf|done]|].
  intros s3 C3. fold (class_at cfg b d 0). cbv beta. pose proof (reads_same _ _ Hs2 C3) as Hs3.
  eapply visits_after; [apply (field_visits (fun v => (v ≫ 8) .& 0xFF)); [bdf|done]|].
  intros s4 C4. fold (secondary_at cfg b d 0). cbv beta. pose proof (reads_same _ _ Hs3 C4) as Hs4.
  eapply (visits_bind _ _ _ _ _ _ (fun x => behind b d 0 x \/ from_slot (d + 1) n x));
    [apply handler_visit| |].
  - intros s5 C5. cbn [negb]. pose proof (reads_same _ _ Hs4 C5) as Hs5.
    eapply visits_bind; [by apply behind_visits| |].
    + intros s6 C6. apply IH'. by eapply reads_same.
    + intros x. cbv beta. reflexivity.
  - intros x. rewrite from_slot_S. cbv beta.
    assert (Hf : forall f, func_on cfg b d f -> f = 0).
    { intros f (_ & _ & Hf). rewrite decide_False in Hf; tauto. }
    split; [|naive_solver]. intros [(f & Hf' & Hx)|?]; [|tauto].
    rewrite (Hf f Hf') in Hx. tauto.
Qed.
End one_bus.

Lemma bus_visits depth b s : reads_cfg s -> fits 8 b -> 255 - b < Z.of_nat depth ->
  visits (pci_walk_bus handler depth b) s tt (below cfg b).
Proof.
  revert b s. induction depth as [|depth IH]; intros b s Hs Hb Hd; [zlia|]. cbn [pci_walk_bus].
  eapply visits_iff; [|apply (slots_visits (pci_walk_bus handler depth) b); [done| |done|lia|lia]].
  - intros x. unfold from_slot, behind. split.
    + intros (d & f & _ & Hf & [->|(sec & Hbr & Hx)]); [by constructor|by eapply below_bridge].
    + intros Hx. inversion Hx as [d f Hf|d f sec y Hbr Hy]; subst.
      * exists d, f. split; [destruct Hf; lia|]. eauto.
      * exists d, f. pose proof Hbr as [Hf _]. split; [destruct Hf; lia|]. eauto.
  - intros sec s' Hlt Hsec Hs'. apply IH; [done|done|lia].
Qed.
End enumeration.

(** ** A host bridge *)

(** Registers that are not there read as all ones; only base address register 0 of each
    function can be written, down to bit 12. [seen] is the handler's own. *)
Record pci_dev := mkPci { pd_sel : Z; pd_regs : gmap Z Z; seen : list (Z * Z * Z) }.
Definition pd_cfg (d : pci_dev) (a : Z) : Z := u32 (default 0xFFFFFFFF (pd_regs d !! a)).
Definition pd_mask (a : Z) : Z := if decide (a mod 256 = 16) then wired 12 else 0.

#[export] Instance pci_dev_ports : PortDevice pci_dev := {
  port_in w p d := (if decide (p = 0xCFC) then pd_cfg d (pd_sel d) else 0, d);
  port_out w p v d :=
    if decide (p = 0xCF8) then mkPci v (pd_regs d) (seen d)
    else if decide (p = 0xCFC) then
      mkPci (pd_sel d) (<[pd_sel d := Z.ldiff (pd_cfg d (pd_sel d)) (pd_mask (pd_sel d)) .| (v .& pd_mask (pd_sel d))]> (pd_regs d)) (seen d)
    else d
}.

Lemma pd_mask_fits a : fits 32 (pd_mask a).
Proof. unfold pd_mask. case_decide; [apply bnot_fits; lia|done]. Qed.

Lemma ldiff_fits w x y : 0 <= w -> fits w x -> fits w (Z.ldiff x y).
Proof.
  intros Hw Hx. apply fits_bits; [done|]. intros i Hi. rewrite Z.ldiff_spec.
  by rewrite (testbit_small x w).
Qed.

#[export] Instance pci_dev_laws : PciLaws pci_dev.
Proof.
  refine {| pci_cfg := pd_cfg; pci_sel := pd_sel; pci_mask := pd_mask |}.
  - intros s a. apply wrap_fits. lia.
  - apply pd_mask_fits.
  - done.
  - done.
  - intros [sel regs l] v Hv s' b. unfold s', port_out, pci_dev_ports.
    rewrite (decide_False (P := 0xCFC = 0xCF8)), (decide_True (P := 0xCFC = 0xCFC)) by done.
    unfold pd_cfg at 1. cbn [pd_regs pd_sel]. destruct (decide (b = sel)) as [->|Hb].
    + rewrite lookup_insert_eq. cbn [default]. apply wrap_small, lor_fits; [lia| |].
      * apply ldiff_fits; [lia|]. apply wrap_fits. lia.
      * apply land_fits_l; [lia|done].
    + by rewrite lookup_insert_ne.
  - done.
Defined.

(** ** Properties *)

(** C30: base address registers. For a memory register whose low [k] bits are hard-wired,
    32 or 64 bits wide, [pci_config_bar] returns the base address and the size [2^k], and
    leaves every configuration register as it found it, the probed ones included. *)
Theorem pci_config_bar_sizes {S} `{PciLaws S} (s : S) bus slot func bar k :
  fits 8 bus -> fits 5 slot -> fits 3 func -> 0 <= bar <= 5 ->
  let r := config_addr bus slot func (16 + 4 * bar) in
  let r' := config_addr bus slot func (16 + 4 * (bar + 1)) in
  let wide := Z.testbit (pci_cfg s r) 2 in
  let base := if wide then pci_cfg s r + 2 ^ 32 * pci_cfg s r' else pci_cfg s r in
  Z.testbit (pci_cfg s r) 0 = false ->
  4 <= k < (if wide then 64 else 32) -> (wide = true -> bar < 5) ->
  pci_mask r = wired (k `min` 32) ->
  (wide = true -> pci_mask r' = wired (0 `max` (k - 32))) ->
  base mod 2 ^ k < 16 ->
  exists s', pci_config_bar bus slot func bar s = Ok (mkBar (base / 2 ^ k * 2 ^ k) (2 ^ k), s') /\
    forall a, pci_cfg s' a = pci_cfg s a.
Proof.
  intros Hb Hs Hf Hbar r r' wide base H0 Hk Hw Hm Hm' Hlow.
  assert (Hok : forall i, 0 <= i <= 5 -> bdf_ok bus slot func (BAR i)).
  { intros i Hi. rewrite BAR_offset by done. repeat (split; [done|]). split; zlia. }
  assert (Hbase : 0 <= base).
  { pose proof (pci_cfg_fits s r). pose proof (pci_cfg_fits s r'). unfold base, fits in *.
    destruct wide; lia. }
  rewrite <-(low4_pow k) by (done || lia).
  assert (Hr : r = config_addr bus slot func (BAR bar)) by (unfold r; by rewrite BAR_offset).
  destruct wide eqn:E; unfold base in *; unfold wide in E.
  - specialize (Hw eq_refl). specialize (Hm' eq_refl).
    assert (Hr' : r' = config_addr bus slot func (BAR (bar + 1))) by (unfold r'; by rewrite BAR_offset by lia).
    rewrite Hr, Hr' in *. apply bar64_ok; try done; [by apply Hok|apply Hok; lia|].
    rewrite !BAR_offset by lia. lia.
  - rewrite Z.min_l in Hm by lia. rewrite Hr in *. apply bar32_ok; try done. by apply Hok.
Qed.

(** A 4 KiB register at 0xFEB00000 in function 0:0.0. *)
Lemma pci_config_bar_sizes_witness :
  exists s', pci_config_bar 0 0 0 0 (mkPci 0 {[ config_addr 0 0 0 16 := 0xFEB00008 ]} []) =
      Ok (mkBar 0xFEB00000 4096, s') /\
    pd_cfg s' (config_addr 0 0 0 16) = 0xFEB00008.
Proof.
  destruct (pci_config_bar_sizes (mkPci 0 {[ config_addr 0 0 0 16 := 0xFEB00008 ]} []) 0 0 0 0 12)
    as (s' & R & C); try done; try lia.
  exists s'. split; [exact R|]. etransitivity; [apply C|]. vm_compute. reflexivity.
Defined.

Section walk_spec.
Context {S : Type} `{PciLaws S}.
Context (handler : Z -> Z -> Z -> cmd S bool) (visited : S -> list (Z * Z * Z)).

(** C31: enumeration. When bridges number the buses behind them upwards, and the handler
    accepts every function, [pci_walk_devices] terminates within 256 nested buses and leaves
    the registers alone. With one host controller the handler has been called for exactly
    the functions on bus 0 and behind its bridges. With several (function 0:0.0 has the
    multi-function bit), the buses walked are those of the functions of device 0:0 that do
    not answer: the test is inverted, and bus 0 is never walked. *)
Theorem pci_walk_devices_visits cfg depth s :
  (forall w p s, visited (port_in w p s).2 = visited s) ->
  (forall w p v s, visited (port_out w p v s) = visited s) ->
  (forall b d f s, exists s', handler b d f s = Ok (true, s') /\
    (forall a, pci_cfg s' a = pci_cfg s a) /\ visited s' = visited s ++ [(b, d, f)]) ->
  (forall b d f sec, fits 8 b -> bridge cfg b d f sec -> b < sec) ->
  (forall a, pci_cfg s a = cfg a) -> (256 <= depth)%nat ->
  exists s' vs, pci_walk_devices handler depth s = Ok (tt, s') /\
    (forall a, pci_cfg s' a = cfg a) /\ visited s' = visited s ++ vs /\
    forall x, x ∈ vs <->
      if decide (header_at cfg 0 0 0 .& 0x80 <> 0)
      then exists f, 0 <= f < 8 /\ vendor_at cfg 0 0 f = 0xFFFF /\ below cfg f x
      else below cfg 0 x.
Proof.
  intros Vi Vo Hh Hn Hs Hd.
  enough (visits visited (pci_walk_devices handler depth) s tt (fun x =>
      if decide (header_at cfg 0 0 0 .& 0x80 <> 0)
      then exists f, 0 <= f < 8 /\ vendor_at cfg 0 0 f = 0xFFFF /\ below cfg f x
      else below cfg 0 x)) as (s' & vs & R & C & V & P).
  { exists s', vs. split; [done|]. split; [|done]. intros a. by rewrite C. }
  assert (Hok : forall f o, 0 <= f < 8 -> o ∈ [0; 8; 12; 24] -> bdf_ok 0 0 f o).
  { intros f o Hf Ho. by apply (bdf_func 0). }
  unfold pci_walk_devices. eapply (visits_after visited).
  { apply (field_visits visited Vi Vo cfg (fun v => (v ≫ 16) .& 0xFF)); [apply Hok; [lia|set_solver]|done]. }
  intros s1 C1. fold (header_at cfg 0 0 0). cbv beta.
  assert (Hs1 : reads_cfg cfg s1) by (intros a; by rewrite C1).
  destruct (decide (header_at cfg 0 0 0 .& 0x80 <> 0)) as [Hm|Hm].
  - eapply (visits_iff visited); [|apply (visits_for visited cfg 8 0 _ s1
      (fun f x => vendor_at cfg 0 0 f = 0xFFFF /\ below cfg f x)); [done|]].
    + intros x. by split; intros (f & ? & ?); exists f.
    + intros f s2 Hf Hs2. eapply (visits_after visited).
      { apply (field_visits visited Vi Vo cfg (fun v => v .& 0xFFFF)); [apply Hok; [lia|set_solver]|done]. }
      intros s3 C3. fold (vendor_at cfg 0 0 f). cbv beta. case_decide as Hv.
      * apply visits_ret. tauto.
      * eapply (visits_iff visited); [|apply (bus_visits handler visited Vi Vo Hh cfg Hn);
          [by eapply reads_same|zlia|lia]].
        intros x. split; [done|]. tauto.
  - apply (bus_visits handler visited Vi Vo Hh cfg Hn); [done|done|lia].
Qed.
End walk_spec.

(** Function 0:0.0, a bridge 0:1.0 to bus 1, and a two-function device 1:2. *)
Definition tree_regs : gmap Z Z := list_to_map [
  (config_addr 0 0 0 0, 0x12378086); (config_addr 0 0 0 8, 0x06000000); (config_addr 0 0 0 12, 0);
  (config_addr 0 0 0 24, 0);
  (config_addr 0 1 0 0, 0x00011B36); (config_addr 0 1 0 8, 0x06040000); (config_addr 0 1 0 12, 0x00010000);
  (config_addr 0 1 0 24, 0x00010100);
  (config_addr 1 2 0 0, 0x10008086); (config_addr 1 2 0 8, 0x02000000); (config_addr 1 2 0 12, 0x00800000);
  (config_addr 1 2 3 0, 0x10008086); (config_addr 1 2 3 8, 0x01000000); (config_addr 1 2 3 12, 0x00800000)].
Definition tree_dev : pci_dev := mkPci 0 tree_regs [].
Definition log_handler (b d f : Z) : cmd pci_dev bool := fun s =>
  Ok (true, mkPci (pd_sel s) (pd_regs s) (seen s ++ [(b, d, f)])).

(** Whether a bridge at b:d.f numbers its bus downwards. *)
Definition misnumbered (b d f : Z) : bool :=
  bool_decide (class_at (pd_cfg tree_dev) b d f = 0x0604) &&
  bool_decide (secondary_at (pd_cfg tree_dev) b d f <= b).

Lemma forallb_Forall_misnumbered bs ds fs :
  forallb (fun b => forallb (fun d => forallb (fun f => negb (misnumbered b d f)) fs) ds) bs = true ->
  Forall (fun b => Forall (fun d => Forall (fun f => misnumbered b d f = false) fs) ds) bs.
Proof.
  intros H. apply Forall_forall. intros b Hb. apply Forall_forall. intros d Hd.
  apply Forall_forall. intros f Hf.
  rewrite forallb_forall in H. specialize (H b (proj1 (list_elem_of_In _ _) Hb)). rewrite forallb_forall in H.
  specialize (H d (proj1 (list_elem_of_In _ _) Hd)). rewrite forallb_forall in H.
  specialize (H f (proj1 (list_elem_of_In _ _) Hf)). by apply negb_true_iff.
Qed.

Lemma tree_numbered b d f sec : fits 8 b -> bridge (pd_cfg tree_dev) b d f sec -> b < sec.
Proof.
  intros Hb ((Hd & _ & Hf) & Hc & <- & _).
  assert (Hf' : 0 <= f < 8) by (case_decide; lia). clear Hf.
  assert (H : Forall (fun b => Forall (fun d => Forall (fun f => misnumbered b d f = false)
    (seqZ 0 8)) (seqZ 0 32)) (seqZ 0 256)).
  { apply forallb_Forall_misnumbered. vm_compute. reflexivity. }
  rewrite !Forall_forall in H. specialize (H b). rewrite elem_of_seqZ, Forall_forall in H.
  specialize (H ltac:(zlia) d). rewrite elem_of_seqZ, Forall_forall in H.
  specialize (H ltac:(lia) f). rewrite elem_of_seqZ in H. specialize (H ltac:(lia)).
  unfold misnumbered in H. rewrite (bool_decide_eq_true_2 _ Hc) in H.
  apply bool_decide_eq_false in H. lia.
Qed.

Lemma pci_walk_devices_visits_witness :
  exists s' vs, pci_walk_devices log_handler 256 tree_dev = Ok (tt, s') /\ seen s' = vs /\
    (0, 0, 0) ∈ vs /\ (0, 1, 0) ∈ vs /\ (1, 2, 0) ∈ vs /\ (1, 2, 3) ∈ vs.
Proof.
  destruct (pci_walk_devices_visits log_handler seen (pd_cfg tree_dev) 256 tree_dev)
    as (s' & vs & R & C & V & P).
  - done.
  - intros w p v s. unfold port_out, pci_dev_ports. by repeat case_decide.
  - intros b d f s. eexists. split; [reflexivity|]. done.
  - apply tree_numbered.
  - done.
  - lia.
  - exists s', vs. split; [exact R|]. split; [exact V|].
    rewrite !P. rewrite decide_False by (vm_compute; tauto).
    assert (Hb : forall b d f, (0 <=? d) && (d <? 32) && negb (vendor_at (pd_cfg tree_dev) b d 0 =? 0xFFFF) &&
      (if header_at (pd_cfg tree_dev) b d 0 .& 0x80 =? 0 then f =? 0
       else (0 <=? f) && (f <? 8) && negb (vendor_at (pd_cfg tree_dev) b d f =? 0xFFFF)) = true ->
      func_on (pd_cfg tree_dev) b d f).
    { intros b d f E. unfold func_on.
      destruct (Z.eqb_spec (header_at (pd_cfg tree_dev) b d 0 .& 0x80) 0);
        [rewrite decide_False by tauto|rewrite decide_True by done]; lia. }
    assert (Hbr : bridge (pd_cfg tree_dev) 0 1 0 1).
    { split; [apply Hb; vm_compute; reflexivity|].
      split; [vm_compute; reflexivity|]. split; [vm_compute; reflexivity|lia]. }
    split; [apply below_here, Hb; vm_compute; reflexivity|].
    split; [apply below_here, Hb; vm_compute; reflexivity|].
    split; (eapply below_bridge; [exact Hbr|apply below_here, Hb; vm_compute; reflexivity]).
Defined.
