(* ===== verification/Bytes.v ===== *)
(** Byte-addressed memory as a function, with little-endian loads and stores: the memory of
    the components that share it with a device or read tables the firmware left there. *)
From S2P Require Import Prelude.

(** ** Byte-addressed physical memory *)
Abbreviation pmem := (Z -> Z).

(** The little-endian value of [n] bytes at [a]. *)
Fixpoint ldn (n : nat) (m : pmem) (a : Z) : Z :=
  match n with O => 0 | S n => u8 (m a) + 256 * ldn n m (a + 1) end.
Definition stn (n : nat) (m : pmem) (a v : Z) : pmem := fun b =>
  if decide (a <= b < a + Z.of_nat n) then (v ≫ (8 * (b - a))) mod 256 else m b.
(** [n] bytes set to [v]. *)
Definition fill (m : pmem) (a n v : Z) : pmem := fun b => if decide (a <= b < a + n) then v else m b.

(** ** Memory *)

Lemma ldn_S n m a : ldn (S n) m a = u8 (m a) + 256 * ldn n m (a + 1).
Proof. done. Qed.

Lemma ldn_range n m a : 0 <= ldn n m a < 256 ^ Z.of_nat n.
Proof.
  revert a. induction n as [|n IH]; intros a; [done|]. rewrite ldn_S, Nat2Z.inj_succ, Z.pow_succ_r by lia.
  specialize (IH (a + 1)). pose proof (wrap_fits 8 (m a)). unfold fits in *. lia.
Qed.

Lemma ldn_ext n m m' a : (forall i, 0 <= i < Z.of_nat n -> m' (a + i) = m (a + i)) -> ldn n m' a = ldn n m a.
Proof.
  revert a. induction n as [|n IH]; intros a H; [done|]. rewrite !ldn_S. f_equal.
  - specialize (H 0). rewrite Z.add_0_r in H. f_equal. apply H. lia.
  - f_equal. apply IH. intros i Hi. specialize (H (i + 1)).
    replace (a + 1 + i) with (a + (i + 1)) by lia. apply H. lia.
Qed.

Lemma ldn_u8_ext n m m' a a' : (forall j, 0 <= j < Z.of_nat n -> u8 (m (a + j)) = u8 (m' (a' + j))) ->
  ldn n m a = ldn n m' a'.
Proof.
  revert a a'. induction n as [|n IH]; intros a a' H; [done|]. rewrite !ldn_S. f_equal.
  - specialize (H 0). rewrite !Z.add_0_r in H. apply H. lia.
  - f_equal. apply IH. intros j Hj. specialize (H (1 + j)). rewrite !Z.add_assoc in H. apply H. lia.
Qed.

Lemma stn_other n m a v b : ~ (a <= b < a + Z.of_nat n) -> stn n m a v b = m b.
Proof. intros H. unfold stn. by rewrite decide_False. Qed.

Lemma fill_other m a n v b : ~ (a <= b < a + n) -> fill m a n v b = m b.
Proof. intros H. unfold fill. by rewrite decide_False. Qed.

Lemma ldn_stn_at n k m a v j : 0 <= j -> j + Z.of_nat k <= Z.of_nat n ->
  ldn k (stn n m a v) (a + j) = (v / 256 ^ j) mod 256 ^ Z.of_nat k.
Proof.
  revert j. induction k as [|k IH]; intros j Hj Hk; [by rewrite Z.mod_1_r|].
  rewrite ldn_S, Nat2Z.inj_succ, Z.pow_succ_r by lia.
  replace (a + j + 1) with (a + (j + 1)) by lia. rewrite IH by lia.
  unfold stn. rewrite decide_True by lia. replace (a + j - a) with j by lia.
  assert (E : v ≫ (8 * j) = v / 256 ^ j).
  { rewrite Z.shiftr_div_pow2, Z.pow_mul_r by lia. done. }
  rewrite E, (wrap_small 8) by (apply Z.mod_pos_bound; lia).
  rewrite Z.rem_mul_r by lia. f_equal. f_equal.
  by rewrite Z.div_div, Z.pow_add_r by lia.
Qed.

Lemma ldn_stn n m a v : ldn n (stn n m a v) a = v mod 256 ^ Z.of_nat n.
Proof.
  pose proof (ldn_stn_at n n m a v 0) as H. rewrite Z.add_0_r, Z.div_1_r in H. apply H; lia.
Qed.

Lemma ldn_stn_other n k m a v b : b + Z.of_nat k <= a \/ a + Z.of_nat n <= b ->
  ldn k (stn n m a v) b = ldn k m b.
Proof. intros H. apply ldn_ext. intros i Hi. apply stn_other. lia. Qed.

Lemma ldn_fill k m a n b : a <= b -> b + Z.of_nat k <= a + n -> ldn k (fill m a n 0) b = 0.
Proof.
  revert b. induction k as [|k IH]; intros b Hb Hk; [done|]. rewrite ldn_S, IH by lia.
  unfold fill. by rewrite decide_True by lia.
Qed.

Lemma stn1 m a v b : stn 1 m a v b = if decide (b = a) then u8 v else m b.
Proof.
  unfold stn. destruct (decide (b = a)) as [->|Hb].
  - rewrite decide_True by lia. by replace (8 * (a - a)) with 0 by lia.
  - by rewrite decide_False by lia.
Qed.

Lemma ldn1 m a : ldn 1 m a = u8 (m a).
Proof. cbn. lia. Qed.

(** ** Bytes laid out in memory *)

(** [n] little-endian bytes. *)
Fixpoint le (n : nat) (v : Z) : list Z :=
  match n with O => [] | S n => v mod 256 :: le n (v / 256) end.

(** Memory holds the bytes at [a]. *)
Definition holds (m : pmem) (a : Z) (bs : list Z) : Prop :=
  forall i b, bs !! i = Some b -> m (a + Z.of_nat i) = b.

Lemma holds_app m a b1 b2 : holds m a (b1 ++ b2) ->
  holds m a b1 /\ holds m (a + Z.of_nat (length b1)) b2.
Proof.
  intros H. split; intros i b Hi.
  - apply H. by apply lookup_app_l_Some.
  - rewrite <-Z.add_assoc, <-Nat2Z.inj_add. apply H.
    rewrite lookup_app_r by lia. by replace (length b1 + i - length b1)%nat with i by lia.
Qed.

Lemma length_le n v : length (le n v) = n.
Proof. revert v. induction n as [|n IH]; intros v; [done|]. cbn. by rewrite IH. Qed.

Lemma holds_le m a n v : holds m a (le n v) -> 0 <= v < 256 ^ Z.of_nat n -> ldn n m a = v.
Proof.
  revert a v. induction n as [|n IH]; intros a v H Hv; [cbn in *; lia|].
  rewrite Nat2Z.inj_succ, Z.pow_succ_r in Hv by lia.
  rewrite ldn_S. cbn [le] in H. rewrite (IH (a + 1) (v / 256)); [| |zlia].
  - specialize (H 0%nat _ eq_refl). rewrite Z.add_0_r in H. rewrite H, (wrap_small 8) by zlia. zlia.
  - intros i b Hi. specialize (H (S i) b Hi). rewrite <-H. f_equal. lia.
Qed.

(** Memory with bytes at an address. *)
Definition mem_at (a : Z) (bs : list Z) : pmem := fun b =>
  if decide (a <= b) then default 0 (bs !! Z.to_nat (b - a)) else 0.
Lemma holds_mem_at a pre bs b : b = a + Z.of_nat (length pre) -> holds (mem_at a (pre ++ bs)) b bs.
Proof.
  intros -> i x Hi. unfold mem_at. rewrite decide_True by lia.
  replace (Z.to_nat (a + Z.of_nat (length pre) + Z.of_nat i - a)) with (length pre + i)%nat by lia.
  rewrite lookup_app_r by lia. by replace (length pre + i - length pre)%nat with i by lia; rewrite Hi.
Qed.
