(* ===== verification/Kvm.v ===== *)
(** The interface of the virtual memory system to the drivers: its operations, what a driver
    relies on, and memory-mapped device registers behind it. File Memory shows that the
    kernel's own virtual memory system keeps the promise. *)
From S2P Require Import Prelude Bytes.

(** What a driver asks of the virtual memory system (kernel/mm/virtual.c). *)
Class KernelVm (V : Type) := {
  vm_alloc : Z -> cmd V Z;                         (* mm_virtual_alloc *)
  vm_map : Z -> Z -> Z -> Z -> cmd V unit;         (* mm_virtual_map *)
  vm_get_phys : Z -> cmd V Z;                      (* mm_virtual_get_phys *)
  vm_free : Z -> cmd V Z;                          (* mm_virtual_free *)
  vm_tr : V -> Z -> option Z                       (* the translation in force *)
}.

(** The flags drivers map with: present; with write; and not executable. *)
Definition driver_flags (f : Z) : Prop := f = 1 \/ f = 3 \/ f = 0x8000000000000003.

(** [vm_owns v virt n k]: the driver owns the [n] pages from [virt] on, and [k] more pages can
    be mapped there. Allocation gives such a range without mapping anything, with enough for
    every page to be mapped and unmapped; mapping a part of it translates that part, byte by
    byte, and leaves the rest of the range as it is; mapping with no flags succeeds; freeing
    the range reports its size and does not touch the translation. *)
Class KernelVmLaws (V : Type) `{!KernelVm V} := {
  vm_room : V -> Z -> Prop;
  vm_owns : V -> Z -> Z -> Z -> Prop;
  vm_owns_range v virt n k : vm_owns v virt n k ->
    virt mod 4096 = 0 /\ 0 <= virt /\ virt + 4096 * n <= 2 ^ 64;
  vm_alloc_ok v n : vm_room v n -> 0 < n ->
    exists virt v', vm_alloc n v = Ok (virt, v') /\ vm_owns v' virt n (2 * n);
  vm_map_ok v virt n k a j phys flags : vm_owns v virt n k ->
    a mod 4096 = 0 -> virt <= a -> a + 4096 * j <= virt + 4096 * n -> 0 < j <= k -> driver_flags flags ->
    phys mod 4096 = 0 -> 0 <= phys -> phys + 4096 * j <= 2 ^ 52 ->
    exists v', vm_map phys a j flags v = Ok (tt, v') /\ vm_owns v' virt n (k - j) /\
      forall i, 0 <= i < 4096 * n -> vm_tr v' (virt + i) =
        if decide (a <= virt + i < a + 4096 * j) then Some (phys + (virt + i - a)) else vm_tr v (virt + i);
  vm_unmap_ok v virt n k a j phys : vm_owns v virt n k ->
    a mod 4096 = 0 -> virt <= a -> a + 4096 * j <= virt + 4096 * n -> 0 < j <= k ->
    exists v', vm_map phys a j 0 v = Ok (tt, v') /\ vm_owns v' virt n (k - j);
  vm_free_ok v virt n k : vm_owns v virt n k ->
    exists v', vm_free virt v = Ok (4096 * n, v') /\ forall va, vm_tr v' va = vm_tr v va
}.

(** A window: a range allocated and mapped at once. *)
Lemma vm_window `{!KernelVm V, !KernelVmLaws V} v n phys flags : vm_room v n -> 0 < n -> driver_flags flags ->
  phys mod 4096 = 0 -> 0 <= phys -> phys + 4096 * n <= 2 ^ 52 ->
  exists virt v1 v2, vm_alloc n v = Ok (virt, v1) /\ vm_map phys virt n flags v1 = Ok (tt, v2) /\
    vm_owns v2 virt n n /\ forall i, 0 <= i < 4096 * n -> vm_tr v2 (virt + i) = Some (phys + i).
Proof.
  intros Hr Hn Hf Ha H0 Hm. destruct (vm_alloc_ok v n Hr Hn) as (virt & v1 & R1 & O1).
  destruct (vm_owns_range _ _ _ _ O1) as (Hv & _ & _).
  destruct (vm_map_ok v1 virt n (2 * n) virt n phys flags O1) as (v2 & R2 & O2 & T); try (done || lia).
  exists virt, v1, v2. replace (2 * n - n) with n in O2 by lia. repeat split; try done.
  intros i Hi. rewrite T, decide_True by lia. f_equal. lia.
Qed.

(** The little-endian value of the [n] bytes at a virtual address. *)
Fixpoint vload `{!KernelVm V} (n : nat) (v : V) (m : pmem) (va : Z) : option Z :=
  match n with
  | O => Some 0
  | S n => pa ← vm_tr v va; r ← vload n v m (va + 1); Some (u8 (m pa) + 256 * r)
  end.

Lemma vload_window `{!KernelVm V} n (v : V) m va pa :
  (forall i, 0 <= i < Z.of_nat n -> vm_tr v (va + i) = Some (pa + i)) -> vload n v m va = Some (ldn n m pa).
Proof.
  revert va pa. induction n as [|n IH]; intros va pa H; [done|]. cbn [vload].
  specialize (H 0) as H0. rewrite !Z.add_0_r in H0. rewrite H0 by lia. cbn [mbind option_bind].
  rewrite (IH (va + 1) (pa + 1)); [done|]. intros i Hi.
  replace (va + 1 + i) with (va + (i + 1)) by lia. rewrite H by lia. f_equal. lia.
Qed.

(** 32-bit registers of a memory-mapped device, by physical address. *)
Class Mmio (M : Type) := {
  mmio_rd : Z -> M -> Z * M;
  mmio_wr : Z -> Z -> M -> M
}.

(** Identity-mapped address space. *)
#[export] Instance flat_vm : KernelVm unit := {
  vm_alloc n := mret 0x400000; vm_map phys virt n f := mret tt;
  vm_get_phys va := mret va; vm_free va := mret 4096; vm_tr v va := Some va
}.

(** An address space that hands out pages in order and remembers what is mapped. *)
Record page_vm := mkPageVm { next_page : Z; page_tbl : gmap Z Z; page_len : gmap Z Z }.
Definition fresh_vm (p : Z) : page_vm := mkPageVm p ∅ ∅.
#[export] Instance page_vm_ops : KernelVm page_vm := {
  vm_alloc n := fun v => Ok (next_page v * 4096,
    mkPageVm (next_page v + n) (page_tbl v) (<[next_page v := n]> (page_len v)));
  vm_map phys virt n f := modify (fun v => mkPageVm (next_page v)
    (foldl (fun t i => <[virt / 4096 + i := phys / 4096 + i]> t) (page_tbl v) (seqZ 0 n)) (page_len v));
  vm_get_phys va := fun v =>
    Ok (match page_tbl v !! (va / 4096) with Some p => p * 4096 + va mod 4096 | None => 0 end, v);
  vm_free va := fun v => Ok (4096 * default 0 (page_len v !! (va / 4096)), v);
  vm_tr v va := (fun p => p * 4096 + va mod 4096) <$> page_tbl v !! (va / 4096)
}.

Lemma page_map_lookup (t : gmap Z Z) v p l k :
  foldl (fun t i => <[v + i := p + i]> t) t l !! (v + k) = if decide (k ∈ l) then Some (p + k) else t !! (v + k).
Proof.
  induction l as [|x l IH] using rev_ind; [by rewrite decide_False by set_solver|].
  rewrite foldl_app. cbn [foldl]. destruct (decide (x = k)) as [->|Hne].
  - rewrite lookup_insert_eq, decide_True by set_solver. done.
  - rewrite lookup_insert_ne, IH by lia. destruct (decide (k ∈ l)).
    + by rewrite decide_True by set_solver.
    + by rewrite decide_False by set_solver.
Qed.

#[export] Instance page_vm_laws : KernelVmLaws page_vm.
Proof.
  refine {| vm_room v n := 0 <= next_page v /\ next_page v + n <= 2 ^ 52;
    vm_owns v virt n k := virt mod 4096 = 0 /\ 0 <= virt /\ virt + 4096 * n <= 2 ^ 64 /\
      page_len v !! (virt / 4096) = Some n |}.
  - tauto.
  - intros v n [H0 H1] Hn. eexists _, _. split; [reflexivity|]. cbn [page_len].
    rewrite Z.div_mul, lookup_insert_eq by lia. split; [zlia|]. split; [lia|]. split; [lia|done].
  - intros v virt n k a j phys flags (Hv & H0 & H1 & Hl) Ha Hva Hend Hj _ Hp _ _.
    eexists. split; [reflexivity|]. split; [done|]. intros i Hi. cbn [vm_tr page_vm_ops page_tbl].
    replace ((virt + i) / 4096) with (a / 4096 + ((virt + i - a) / 4096)) by zlia.
    rewrite page_map_lookup. destruct (decide (a <= virt + i < a + 4096 * j)).
    + rewrite decide_True by (apply elem_of_seqZ; zlia). cbn [fmap option_fmap option_map]. f_equal. zlia.
    + by rewrite decide_False by (rewrite elem_of_seqZ; zlia).
  - intros v virt n k a j phys O _ _ _ _. eexists. split; [reflexivity|exact O].
  - intros v virt n k (Hv & H0 & H1 & Hl). exists v. split; [|done]. cbn [vm_free page_vm_ops]. by rewrite Hl.
Defined.
