(* ===== verification/Memory.v ===== *)
(** The kernel's virtual memory system as the interface of file Kvm: region list, page tables
    and page allocator together (kernel/mm) keep the promise drivers rely on. *)
From S2P Require Import Prelude DList Paging Pmm Slab Vmm Mman Kvm.
Import MMU.

Section memory.
Context {A P : Type} `{!ObjSource A, !PageSource P}.
(** The bound of the loops over regions and pages. *)
Variable fuel : nat.

#[local] Instance kernel_vm : KernelVm (mman A P) := {
  vm_alloc n := on_regions (mm_virtual_alloc fuel n);
  vm_map phys virt n f := on_space (mm_virtual_map fuel phys virt n f);
  vm_get_phys va := on_space (mm_virtual_get_phys va);
  vm_free va := on_regions (mm_virtual_free fuel va);
  vm_tr s va := walk (ram (space s)) (cr3 (space s)) va
}.

(** Some free region of the list, the first with room for [n] pages, is one the MMU can map,
    and the page allocator has enough pages for the tables. *)
Definition room (s : mman A P) (n : Z) : Prop :=
  exists l rs1 r rs2, is_vmm (regions s) l /\ l.*2 = rs1 ++ r :: rs2 /\ (S (length l) < fuel)%nat /\
    ordered 0 l.*2 /\ Forall (fun r => r_len r <= 2 ^ 64 - 4096) l.*2 /\
    Forall (fun r => fits_request (4096 * n) r = false) rs1 /\ fits_request (4096 * n) r = true /\
    objects (objs (regions s)) <> [] /\ 2 * n < Z.of_nat fuel /\ n < 2 ^ 52 /\
    pt_ok (space s) /\ range_ok (r_start r) n /\ 6 * n <= Z.of_nat (length (avail (pages (space s)))).

(** The range is a used region of the list, the MMU can map it, and the page allocator has
    enough pages for the tables of [k] more pages. *)
Definition owns (s : mman A P) (virt n k : Z) : Prop :=
  range_ok virt n /\ 0 < n /\ pt_ok (space s) /\
  3 * k <= Z.of_nat (length (avail (pages (space s)))) /\ k < Z.of_nat fuel /\
  exists l rs1 r rs2, is_vmm (regions s) l /\ l.*2 = rs1 ++ pieces r (4096 * n) ++ rs2 /\ r_start r = virt /\
    ordered 0 l.*2 /\ Forall (fun r => r_len r <= 2 ^ 64 - 4096) l.*2 /\ (length l < fuel)%nat /\
    Forall (fun r => fits_request (4096 * n) r = false) rs1.

Lemma driver_flags_ok f : driver_flags f -> present f = true /\ base f = 0.
Proof. by intros [->|[->| ->]]. Qed.

(** Every byte of a range the MMU can map has a canonical address outside the recursive slot. *)
Lemma range_bytes virt n i : range_ok virt n -> 0 <= i < 4096 * n ->
  canonical (virt + i) = true /\ idx 3 (virt + i) <> 510.
Proof.
  intros (Ha & Hr & Hi) Hin. split.
  - apply bool_decide_eq_true. unfold HIGHER_HALF in *. lia.
  - specialize (Hi (i / 4096) ltac:(zlia)). rewrite idx_3 in *. intros E. apply Hi. rewrite <-E.
    f_equal. clear -Ha. zlia.
Qed.

Lemma range_sub virt n a j : range_ok virt n -> a mod 4096 = 0 -> virt <= a -> a + 4096 * j <= virt + 4096 * n ->
  range_ok a j.
Proof.
  intros (Ha & Hr & Hi) Hm Hl He. split; [done|]. split; [lia|]. intros k Hk.
  specialize (Hi (k + (a - virt) / 4096) ltac:(zlia)).
  replace (virt + 4096 * (k + (a - virt) / 4096)) with (a + 4096 * k) in Hi by (clear -Ha Hm; zlia). done.
Qed.

Lemma range_bounds virt n : range_ok virt n -> 0 < n -> virt mod 4096 = 0 /\ 0 <= virt /\ virt + 4096 * n <= 2 ^ 64.
Proof. intros (Ha & [?|?] & _) Hn; unfold HIGHER_HALF in *; lia. Qed.

(** Splitting a region does not make any longer. *)
Lemma pieces_len r size : size <= r_len r -> 0 < size -> r_len r <= 2 ^ 64 - 4096 ->
  Forall (fun r => r_len r <= 2 ^ 64 - 4096) (pieces r size).
Proof.
  intros Hs Hp Hl. unfold pieces. constructor; [cbn; lia|]. case_decide; repeat constructor. cbn. lia.
Qed.

Lemma alloc_owns (s : mman A P) n : room s n -> 0 < n ->
  exists virt s', vm_alloc n s = Ok (virt, s') /\ owns s' virt n (2 * n) /\ space s' = space s.
Proof.
  intros (l & rs1 & r & rs2 & H & Hl & Hf & Hord & Hlens & Hno & Hfit & Hobj & Hnf & Hn52 & Hok & Hr & Hav) Hn.
  pose proof (alloc_spec fuel (regions s) l n H ltac:(lia) ltac:(lia) Hobj) as Hal.
  assert (u64 (n ≪ 12) = 4096 * n) as E.
  { rewrite Z.shiftl_mul_pow2 by lia. rewrite wrap_small; [lia|]. unfold fits. lia. }
  rewrite E in Hal. pose proof (alloc_regions_ordered (4096 * n) l.*2 Hord ltac:(lia)) as Hro.
  unfold alloc_regions in Hal, Hro. rewrite Hl, split_first_app in Hal, Hro by done.
  destruct Hro as (x1 & y & x2 & Hx & Hx1 & Hy & Es & Erest & Hord').
  assert (Some (x1, y, x2) = Some (rs1, r, rs2)) as [= -> -> ->].
  { rewrite <-(split_first_app (fits_request (4096 * n)) x1 y x2), <-Hx by done. by apply split_first_app. }
  destruct Hal as (v & l' & R & H' & Hl' & _). rewrite Erest in Hl', Hord'.
  exists (r_start r), (mkMM v (space s)). split; [cbn; unfold on_regions; by rewrite R|]. split; [|done].
  split; [done|]. split; [done|]. split; [done|]. split; [cbn [space]; lia|]. split; [done|].
  assert (Hsize : 4096 * n <= r_len r) by (apply bool_decide_eq_true in Hfit; tauto).
  exists l', rs1, r, rs2. rewrite Hl'. split; [exact H'|]. split; [done|]. split; [done|]. split; [done|].
  split; [|split; [|done]].
  - rewrite Hl in Hlens. apply Forall_app in Hlens as [L1 L2]. apply Forall_cons in L2 as [L2 L3].
    apply Forall_app. split; [done|]. apply Forall_app. split; [|done]. apply pieces_len; [done|lia|done].
  - apply (f_equal length) in Hl, Hl'. rewrite !length_app, !length_fmap in *. cbn [length] in Hl.
    unfold pieces in Hl'. destruct (decide (r_len r = 4096 * n)); cbn [length] in Hl'; lia.
Qed.

Lemma map_owns (s : mman A P) virt n k a j phys flags : owns s virt n k ->
  a mod 4096 = 0 -> virt <= a -> a + 4096 * j <= virt + 4096 * n -> 0 < j <= k -> driver_flags flags ->
  phys mod 4096 = 0 -> 0 <= phys -> phys + 4096 * j <= 2 ^ 52 ->
  exists s', vm_map phys a j flags s = Ok (tt, s') /\ owns s' virt n (k - j) /\
    forall va, canonical va = true -> idx 3 va <> 510 ->
      vm_tr s' va = if decide (a <= va < a + 4096 * j) then Some (phys + (va - a)) else vm_tr s va.
Proof.
  intros (Hr & Hn & Hok & Hav & Hkf & Hreg) Ha Hl He Hj Hfl Hp H0 Hm.
  destruct (driver_flags_ok flags Hfl) as [Hpres Hbase].
  pose proof (range_sub virt n a j Hr Ha Hl He) as Hr'.
  destruct (mm_virtual_map_maps fuel (space s) phys a j flags) as (p & R & Hok' & Hc & Hmaps & Hav'); [done|done|lia|lia|].
  exists (mkMM (regions s) p). split; [cbn; unfold on_space; by rewrite R|]. split.
  - unfold owns. cbn [space regions]. repeat (split; [done || lia|]). done.
  - by apply (maps_walk (space s) p phys a j flags).
Qed.

Lemma unmap_owns (s : mman A P) virt n k a j phys : owns s virt n k ->
  a mod 4096 = 0 -> virt <= a -> a + 4096 * j <= virt + 4096 * n -> 0 < j <= k ->
  exists s', vm_map phys a j 0 s = Ok (tt, s') /\ owns s' virt n (k - j).
Proof.
  intros (Hr & Hn & Hok & Hav & Hkf & Hreg) Ha Hl He Hj.
  destruct (mm_virtual_map_maps fuel (space s) phys a j 0) as (p & R & Hok' & _ & _ & Hav');
    [done|by apply (range_sub virt n)|lia|lia|].
  exists (mkMM (regions s) p). split; [cbn; unfold on_space; by rewrite R|].
  unfold owns. cbn [space regions]. repeat (split; [done || lia|]). done.
Qed.

Lemma free_owns (s : mman A P) virt n k : owns s virt n k ->
  exists s', vm_free virt s = Ok (4096 * n, s') /\ space s' = space s.
Proof.
  intros (Hr & Hn & _ & _ & _ & l & rs1 & r & rs2 & H & Hl & <- & Hord & Hlens & Hf & Hno).
  destruct (free_alloc_regions (4096 * n) rs1 r rs2) as (rs' & E & _); [by rewrite <-Hl|lia|done|].
  pose proof (free_spec fuel (regions s) l (r_start r) H Hf) as Hfree. rewrite Hl, E in Hfree.
  destruct Hfree as (v & l' & R & _).
  - rewrite <-Hl. pose proof (ordered_pos 0 _ Hord) as Hpos. rewrite Forall_forall in *. intros x Hx.
    specialize (Hpos x Hx). specialize (Hlens x Hx). cbn beta in *. lia.
  - exists (mkMM v (space s)). split; [|done]. cbn. unfold on_regions. by rewrite R.
Qed.

#[local] Instance kernel_vm_laws : KernelVmLaws (mman A P).
Proof.
  refine {| vm_room := room; vm_owns := owns |}.
  - intros s virt n k (Hr & Hn & _). by apply range_bounds.
  - intros s n Hroom Hn. destruct (alloc_owns s n Hroom Hn) as (virt & s' & R & O & _). eauto.
  - intros s virt n k a j phys flags O Ha Hl He Hj Hfl Hp H0 Hm.
    destruct (map_owns s virt n k a j phys flags O) as (s' & R & O' & W); try done.
    exists s'. split; [done|]. split; [done|]. intros i Hi.
    destruct O as (Hr & _). destruct (range_bytes virt n i Hr Hi). by apply W.
  - intros s virt n k a j phys O Ha Hl He Hj. by apply unmap_owns.
  - intros s virt n k O. destruct (free_owns s virt n k O) as (s' & R & E).
    exists s'. split; [done|]. intros va. cbn [vm_tr kernel_vm]. by rewrite E.
Defined.
End memory.

(** C38: the kernel's memory keeps the promise drivers rely on. When the region list has room
    for [n] pages and the page allocator enough pages for the tables, [mm_virtual_alloc]
    succeeds; [mm_virtual_map] of any part of the range it returns then succeeds and makes
    the MMU translate every byte of that part to the byte of the physical pages asked for,
    and every other address as before; and [mm_virtual_free] of the range reports its size. *)
Theorem kernel_vm_window {A P} `{!ObjSource A, !PageSource P} fuel (s : mman A P) n :
  room fuel s n -> 0 < n ->
  exists virt s1, on_regions (mm_virtual_alloc fuel n) s = Ok (virt, s1) /\
    range_ok virt n /\ owns fuel s1 virt n (2 * n) /\ space s1 = space s /\
    forall (s2 : mman A P) k a j phys flags, owns fuel s2 virt n k ->
      a mod 4096 = 0 -> virt <= a -> a + 4096 * j <= virt + 4096 * n -> 0 < j <= k -> driver_flags flags ->
      phys mod 4096 = 0 -> 0 <= phys -> phys + 4096 * j <= 2 ^ 52 ->
      exists s3, on_space (mm_virtual_map fuel phys a j flags) s2 = Ok (tt, s3) /\
        owns fuel s3 virt n (k - j) /\
        (forall va, canonical va = true -> idx 3 va <> 510 ->
          walk (ram (space s3)) (cr3 (space s3)) va =
            if decide (a <= va < a + 4096 * j) then Some (phys + (va - a))
            else walk (ram (space s2)) (cr3 (space s2)) va) /\
        exists s4, on_regions (mm_virtual_free fuel virt) s3 = Ok (4096 * n, s4) /\ space s4 = space s3.
Proof.
  intros Hroom Hn. destruct (alloc_owns fuel s n Hroom Hn) as (virt & s1 & R1 & O1 & E1).
  exists virt, s1. split; [exact R1|]. split; [apply O1|]. split; [exact O1|]. split; [exact E1|].
  intros s2 k a j phys flags O2 Ha Hl He Hj Hf Hp H0 Hm.
  destruct (map_owns fuel s2 virt n k a j phys flags O2) as (s3 & R3 & O3 & W); try done.
  exists s3. split; [exact R3|]. split; [exact O3|]. split; [exact W|]. exact (free_owns fuel s3 virt n _ O3).
Qed.

Lemma kernel_vm_window_witness : exists (s s1 s3 : mman (list Z) (list Z)) virt,
  on_regions (mm_virtual_alloc 5 2) s = Ok (virt, s1) /\
  on_space (mm_virtual_map 5 0xFEC00000 (virt + 4096) 1 3) s1 = Ok (tt, s3) /\
  walk (ram (space s3)) (cr3 (space s3)) (virt + 0x1010) = Some 0xFEC00010.
Proof.
  destruct (vmm_one 0x400000 0x5000 VM_FREE) as (v & H & Ho); [done|done|].
  set (s := mkMM v (pt slab_example) : mman (list Z) (list Z)).
  destruct (kernel_vm_window 5 s 2) as (virt & s1 & R1 & Hr & O & _ & W).
  - exists [(8, mkR 0x400000 0x5000 VM_FREE)], [], (mkR 0x400000 0x5000 VM_FREE), [].
    split; [exact H|]. split; [done|]. split; [cbn; lia|]. split; [cbn; lia|]. split; [repeat constructor; done|].
    split; [done|]. split; [done|]. split; [change (objects (objs v) <> []); by rewrite Ho|]. split; [lia|]. split; [lia|].
    split; [apply slab_example_ok|]. split; [apply range_example|vm_compute; done].
  - lia.
  - assert (Hv : (virt + 4096) mod 4096 = 0) by (destruct Hr as (Hv & _); clear -Hv; zlia).
    destruct (W s1 4 (virt + 4096) 1 0xFEC00000 3 O Hv) as (s3 & R3 & _ & T & _); try lia.
    + by right; left.
    + done.
    + exists s, s1, s3, virt. split; [exact R1|]. split; [exact R3|].
      destruct (range_bytes virt 2 0x1010 Hr) as [C I]; [lia|]. rewrite (T _ C I), decide_True by lia. f_equal. lia.
Defined.
