(* ===== verification/Nvme.v ===== *)
(** The NVMe driver: kernel/driver/nvme.

    The controller is a device behind registers and doorbells that reads and writes physical
    memory (the class [NvmeDevice]); the driver reaches memory and the device through the
    address space (the class [KernelVm]), and finds the device on the PCI bus of file Pci. *)
From S2P Require Import Prelude Bytes Kvm Ports Pci.

(** The controller: register reads, register and doorbell writes (by offset from its base),
    and the passing of milliseconds, in which it may write memory. *)
Class NvmeDevice (D : Type) := {
  mmio_read : Z -> D -> Z;
  mmio_write : Z -> Z -> pmem * D -> pmem * D;
  elapse : Z -> pmem * D -> pmem * D
}.

(** ** Data: include/driver/nvme.h *)

(** The two queue pairs of a controller; [nvme_sq_t.cq] points to the queue of its pair. *)
Inductive qid := Admin | Io.
#[export] Instance qid_dec : EqDecision qid.
Proof. solve_decision. Defined.

Record nvme_cq_t := mkCq { cq_doorbell : Z; cq_mask : Z; cq_entry : Z; cq_head : Z; cq_phase : Z }.
Record nvme_sq_t := mkSq {
  sq_doorbell : Z; sq_mask : Z; sq_entry : Z; sq_cq : qid; sq_head : Z; sq_tail : Z }.
Record nvme_ns_t := mkNs { ns_id : Z; lba_count : Z; block_size : Z }.
(** [serial], [model] and [firmware] are the strings copied. *)
Record nvme_t := mkNvme {
  num : Z; nbase : Z; doorbell_stride : Z;
  admin_cq : nvme_cq_t; admin_sq : nvme_sq_t; io_cq : nvme_cq_t; io_sq : nvme_sq_t;
  namespace_list : gmap Z nvme_ns_t; namespaces : Z;
  nid : Z; serial : list Z; model : list Z; firmware : list Z }.

Definition NVME_CAP_DSTRD (x : Z) : Z := (x ≫ 32) .& 0x0F.
Definition NVME_CAP_TO (x : Z) : Z := (x ≫ 24) .& 0xFF.

(** Sizes of the entries; registers and identify fields by offset. *)
Definition CQE : Z := 16.
Definition SQE : Z := 64.
Definition REG_CAP : Z := 0.
Definition REG_INTMS : Z := 12.
Definition REG_CC : Z := 20.
Definition REG_CSTS : Z := 28.
Definition REG_AQA : Z := 36.
Definition REG_ASQ : Z := 40.
Definition REG_ACQ : Z := 48.

(** The driver's world: memory and controller, the ports of the PCI bus, the address space,
    the driver's record, and the addresses [memalign] and [malloc] will answer. *)
Record nst {D B V : Type} := mkNst {
  wd : pmem * D; bus : B; vm : V; ctl : nvme_t; heap : list Z; nvme_last_id : Z }.
Arguments nst D B V : clear implicits.
Arguments mkNst {D B V} _ _ _ _ _ _.

Definition zero_cq : nvme_cq_t := mkCq 0 0 0 0 0.
Definition zero_sq : nvme_sq_t := mkSq 0 0 0 Admin 0 0.
Definition zero_nvme : nvme_t := mkNvme 0 0 0 zero_cq zero_sq zero_cq zero_sq ∅ 0 0 [] [] [].

Section nvme.
Context {D B V : Type} `{!NvmeDevice D, !PortDevice B, !KernelVm V}.
Abbreviation N := (cmd (nst D B V)).

Definition on_bus {A} (c : cmd B A) : N A := fun s =>
  match c (bus s) with
  | Ok (a, b) => Ok (a, mkNst (wd s) b (vm s) (ctl s) (heap s) (nvme_last_id s))
  | Stop w => Stop w
  end.
Definition on_vm {A} (c : cmd V A) : N A := fun s =>
  match c (vm s) with
  | Ok (a, v) => Ok (a, mkNst (wd s) (bus s) v (ctl s) (heap s) (nvme_last_id s))
  | Stop w => Stop w
  end.
Definition set_wd (f : pmem * D -> pmem * D) : N unit := modify (fun s =>
  mkNst (f (wd s)) (bus s) (vm s) (ctl s) (heap s) (nvme_last_id s)).
Definition set_ctl (f : nvme_t -> nvme_t) : N unit := modify (fun s =>
  mkNst (wd s) (bus s) (vm s) (f (ctl s)) (heap s) (nvme_last_id s)).

(** Memory through the address space. *)
Definition vaddr (va : Z) : N Z := fun s =>
  match vm_tr (vm s) va with Some pa => Ok (pa, s) | None => Stop (Faulted va) end.
Definition vld (n : nat) (va : Z) : N Z := pa ← vaddr va; gets (fun s => ldn n (wd s).1 pa).
Definition vst (n : nat) (va v : Z) : N unit :=
  pa ← vaddr va; set_wd (fun w => (stn n w.1 pa v, w.2)).
(** [memset(va, 0, n)] inside one page. *)
Definition vzero (va n : Z) : N unit :=
  pa ← vaddr va; set_wd (fun w => (fill w.1 pa n 0, w.2)).

(** [memalign], [malloc] and [calloc]: the next answer. *)
Definition memalign (align size : Z) : N Z := fun s =>
  match heap s with
  | a :: l => Ok (a, mkNst (wd s) (bus s) (vm s) (ctl s) l (nvme_last_id s))
  | [] => Stop OutOfFuel
  end.
Definition free (p : Z) : N unit := mret tt.

Definition reg_read (off : Z) : N Z := gets (fun s => mmio_read off (wd s).2).
Definition reg_write (off v : Z) : N unit := set_wd (mmio_write off v).
(** A write through a doorbell pointer. *)
Definition ring (doorbell v : Z) : N unit :=
  s ← get_st; reg_write (doorbell - nbase (ctl s)) v.

Definition get_sq (q : qid) : N nvme_sq_t :=
  gets (fun s => match q with Admin => admin_sq (ctl s) | Io => io_sq (ctl s) end).
Definition get_cq (q : qid) : N nvme_cq_t :=
  gets (fun s => match q with Admin => admin_cq (ctl s) | Io => io_cq (ctl s) end).
Definition put_sq (q : qid) (x : nvme_sq_t) : N unit := set_ctl (fun c =>
  match q with
  | Admin => mkNvme (num c) (nbase c) (doorbell_stride c) (admin_cq c) x (io_cq c) (io_sq c)
      (namespace_list c) (namespaces c) (nid c) (serial c) (model c) (firmware c)
  | Io => mkNvme (num c) (nbase c) (doorbell_stride c) (admin_cq c) (admin_sq c) (io_cq c) x
      (namespace_list c) (namespaces c) (nid c) (serial c) (model c) (firmware c)
  end).
Definition put_cq (q : qid) (x : nvme_cq_t) : N unit := set_ctl (fun c =>
  match q with
  | Admin => mkNvme (num c) (nbase c) (doorbell_stride c) x (admin_sq c) (io_cq c) (io_sq c)
      (namespace_list c) (namespaces c) (nid c) (serial c) (model c) (firmware c)
  | Io => mkNvme (num c) (nbase c) (doorbell_stride c) (admin_cq c) (admin_sq c) x (io_sq c)
      (namespace_list c) (namespaces c) (nid c) (serial c) (model c) (firmware c)
  end).

(** ** command.c *)

(** The new entry's address. *)
Definition nvme_command_create (q : qid) (opcode metadata data : Z) : N Z :=
  _ ← assert_c "(data & 0xFFF) == 0" (bool_decide (data .& 0xFFF = 0));
  sq ← get_sq q;
  let sqe := sq_entry sq + SQE * sq_tail sq in
  _ ← vzero sqe SQE;
  _ ← vst 4 sqe (u8 opcode .| u32 (sq_tail sq ≪ 16));
  _ ← vst 8 (sqe + 16) metadata;
  _ ← vst 8 (sqe + 24) data;
  mret sqe.

Definition nvme_command_submit (q : qid) : N unit :=
  sq ← get_sq q;
  let tail := u32 (sq_tail sq + 1) .& sq_mask sq in
  _ ← put_sq q (mkSq (sq_doorbell sq) (sq_mask sq) (sq_entry sq) (sq_cq sq) (sq_head sq) tail);
  ring (sq_doorbell sq) tail.

(** wait.c: whether the entry at the head carries the phase expected. *)
Definition nvme_poll_cq (q : qid) : N bool :=
  cq ← get_cq q;
  dword ← vld 4 (cq_entry cq + CQE * cq_head cq + 12);
  mret (bool_decide ((if decide (dword .& 2 ^ 16 = 0) then 0 else 1) = cq_phase cq)).

Definition nvme_command_cqe (q : qid) : N Z :=
  sq ← get_sq q;
  let p := sq_cq sq in
  ready ← nvme_poll_cq p;
  if negb ready then panic "[NVMe]	no completion queue entry ready" else
  cq ← get_cq p;
  let cqe := cq_entry cq + CQE * cq_head cq in
  let next := u32 (cq_head cq + 1) .& cq_mask cq in
  let phase := if decide (next <> u32 (cq_head cq + 1)) then bnot 8 (cq_phase cq) else cq_phase cq in
  _ ← put_cq p (mkCq (cq_doorbell cq) (cq_mask cq) (cq_entry cq) next phase);
  cqe_sq_head ← vld 2 (cqe + 8);
  _ ← (if decide (cqe_sq_head <> sq_head sq)
       then put_sq q (mkSq (sq_doorbell sq) (sq_mask sq) (sq_entry sq) p cqe_sq_head (sq_tail sq))
       else mret tt);
  _ ← ring (cq_doorbell cq) next;
  mret cqe.

(** [for(i = 0; i < 500; i++) { if(poll) return ...; pit_wait(10); }], [n] rounds left. *)
Fixpoint wait_loop (n : nat) (q : qid) : N Z :=
  match n with
  | O => panic "[NVMe]	timed out waiting for command"
  | S n =>
      sq ← get_sq q;
      ready ← nvme_poll_cq (sq_cq sq);
      if (ready : bool) then nvme_command_cqe q
      else _ ← set_wd (elapse 10); wait_loop n q
  end.
Definition nvme_wait (q : qid) : N Z := wait_loop 500 q.

(** Until CSTS.RDY is [rdy], half a second at a time. *)
Fixpoint csts_loop (n : nat) (rdy : Z) : N unit :=
  match n with
  | O => panic "[NVMe]	CSTS.RDY after timeout"
  | S n =>
      csts ← reg_read REG_CSTS;
      if decide (csts .& 1 = rdy) then mret tt
      else _ ← set_wd (elapse 500); csts_loop n rdy
  end.
Definition nvme_wait_csts_rdy (rdy : Z) : N unit :=
  cap ← reg_read REG_CAP; csts_loop (Z.to_nat (NVME_CAP_TO cap)) rdy.

(** A non-zero status panics. *)
Definition check_status (msg : string) (cqe : Z) : N unit :=
  status ← vld 2 (cqe + 14);
  if decide (status ≫ 1 <> 0) then panic msg else mret tt.

(** ** queues.c *)

Definition doorbell_of (index : Z) : N Z :=
  gets (fun s => u64 (nbase (ctl s) + 0x1000 + u32 (index * doorbell_stride (ctl s)))).

Definition nvme_cq_init (q : qid) (index length : Z) : N unit :=
  _ ← assert_c "(index & 1) == 1" (bool_decide (index .& 1 = 1));
  doorbell ← doorbell_of index;
  entry ← memalign 0x1000 0x1000;
  _ ← put_cq q (mkCq doorbell (u32 (u16 length - 1)) entry 0 1);
  vzero entry 0x1000.

Definition nvme_sq_init (q : qid) (index length : Z) (cq : qid) : N unit :=
  _ ← assert_c "(index & 1) == 0" (bool_decide (index .& 1 = 0));
  doorbell ← doorbell_of index;
  entry ← memalign 0x1000 0x1000;
  _ ← put_sq q (mkSq doorbell (u32 (u16 length - 1)) entry cq 0 0);
  vzero entry 0x1000.

(** Both I/O queues take their length from MQES, capped by the size of a completion entry. *)
Definition io_length (cap : Z) : Z :=
  let length := 1 + (cap .& 0xFFFF) in
  if decide (0x1000 / CQE < length) then 0x1000 / CQE else length.

Definition nvme_io_cq_init (q : qid) (index : Z) : N unit :=
  cap ← reg_read REG_CAP;
  _ ← nvme_cq_init q index (io_length cap);
  cq ← get_cq q;
  phys ← on_vm (vm_get_phys (cq_entry cq));
  cmd ← nvme_command_create Admin 5 0 phys;
  _ ← vst 4 (cmd + 40) (u32 (cq_mask cq ≪ 16) .| (index ≫ 1));
  _ ← vst 4 (cmd + 44) 1;
  _ ← nvme_command_submit Admin;
  cqe ← nvme_wait Admin;
  check_status "[NVMe]	creating I/O cq returned" cqe.

Definition nvme_io_sq_init (q : qid) (index : Z) (cq : qid) : N unit :=
  cap ← reg_read REG_CAP;
  _ ← nvme_sq_init q index (io_length cap) cq;
  sq ← get_sq q;
  phys ← on_vm (vm_get_phys (sq_entry sq));
  cmd ← nvme_command_create Admin 1 0 phys;
  _ ← vst 4 (cmd + 40) (u32 (sq_mask sq ≪ 16) .| (index ≫ 1));
  _ ← vst 4 (cmd + 44) (u32 ((index ≫ 1) ≪ 16) .| 1);
  _ ← nvme_command_submit Admin;
  cqe ← nvme_wait Admin;
  check_status "[NVMe]	creating I/O cq returned" cqe.

(** ** identify.c and ns.c *)
Definition nvme_identify (ns cns : Z) (msg : string) : N Z :=
  id ← memalign 0x1000 0x1000;
  _ ← vzero id 0x1000;
  phys ← on_vm (vm_get_phys id);
  cmd ← nvme_command_create Admin 6 0 phys;
  _ ← (if decide (ns = 0) then mret tt else vst 4 (cmd + 4) ns);
  _ ← vst 4 (cmd + 40) cns;
  _ ← nvme_command_submit Admin;
  cqe ← nvme_wait Admin;
  _ ← check_status msg cqe;
  mret id.

Definition nvme_identify_controller : N Z := nvme_identify 0 1 "[NVMe]	controller id failed".
Definition nvme_identify_ns (ns_id : Z) : N Z := nvme_identify (ns_id + 1) 0 "[NVMe]	ns id failed".

(** [sizeof(nvme_lba_format_t)]: 5 bytes, padded to the alignment of its 16-bit field. *)
Definition LBA_FORMAT : Z := 6.

Definition nvme_ns_probe (id : Z) : N unit :=
  c ← gets ctl;
  if decide (namespaces c <= id) then panic "[NVMe]	invalid namespace id" else
  info ← nvme_identify_ns id;
  formatted ← vld 1 (info + 26);
  lba_data_size ← vld 1 (info + 128 + LBA_FORMAT * (formatted .& 0x0F) + 2);
  if decide (lba_data_size < 9) then panic "[NVMe]	invalid block size given" else
  ns_capacity ← vld 8 (info + 8);
  set_ctl (fun c => mkNvme (num c) (nbase c) (doorbell_stride c) (admin_cq c) (admin_sq c)
    (io_cq c) (io_sq c) (<[id := mkNs id ns_capacity (u32 (1 ≪ (lba_data_size mod 32)))]> (namespace_list c))
    (namespaces c) (nid c) (serial c) (model c) (firmware c)).

(** ** rw.c *)
Definition nvme_rw_read (ns : nvme_ns_t) (lba count buf : Z) : N unit :=
  _ ← assert_c "((uintptr_t) buf & 0xFFF) == 0" (bool_decide (buf .& 0xFFF = 0));
  phys ← on_vm (vm_get_phys buf);
  cmd ← nvme_command_create Io 2 0 phys;
  _ ← vst 4 (cmd + 4) (u32 (ns_id ns + 1));
  _ ← vst 4 (cmd + 40) (lba .& 0xFFFFFFFF);
  _ ← vst 4 (cmd + 44) ((lba ≫ 32) .& 0xFFFFFFFF);
  _ ← vst 4 (cmd + 48) (u32 (count - 1));
  _ ← nvme_command_submit Io;
  cqe ← nvme_wait Io;
  check_status "[NVMe]	I/O read failed" cqe.

(** [memcpy(dst, src, n)], a byte at a time. *)
Definition vcopy (dst src n : Z) : N unit :=
  for_n (Z.to_nat n) 0 (fun i => b ← vld 1 (src + i); vst 1 (dst + i) b).

(** The loop of [nvme_read]; it ends by its condition or its [break]. *)
Fixpoint read_loop (fuel : nat) (ns : nvme_ns_t) (lba blocks buf local i left : Z) : N unit :=
  match fuel with
  | O => halt OutOfFuel
  | S fuel =>
      if decide (i < blocks) then
        _ ← nvme_rw_read ns (u64 (lba + i)) 8 local;
        _ ← vcopy (buf + (i ≪ 9)) local (left `min` 0x1000);
        if decide (0x1000 <= left) then read_loop fuel ns lba blocks buf local (i + 8) (left - 0x1000)
        else mret tt
      else mret tt
  end.

Definition nvme_read (fuel : nat) (ns : nvme_ns_t) (physical length buf : Z) : N unit :=
  _ ← assert_c "ns->block_size == 512" (bool_decide (block_size ns = 512));
  _ ← assert_c "!(length & 0x1FF)" (bool_decide (length .& 0x1FF = 0));
  let lba := physical ≫ 9 in
  let blocks := length ≫ 9 in
  let blocks :=
    if decide (u64 (u64 (lba ≪ 9) + length) ≫ 9 < u64 (physical + length) ≫ 9)
    then blocks + 1 else blocks in
  local ← memalign 0x1000 (u64 (length + 0xFFF) .& bnot 64 0xFFF);
  _ ← read_loop fuel ns lba blocks buf local 0 length;
  free local.

(** ** nvme.c *)

(** The bytes of the string at [va]: [strdup] of it, [fuel] bytes at most. *)
Fixpoint cstring (fuel : nat) (va : Z) : N (list Z) :=
  match fuel with
  | O => halt OutOfFuel
  | S fuel =>
      b ← vld 1 va;
      if decide (b = 0) then mret [] else l ← cstring fuel (va + 1); mret (b :: l)
  end.

Definition nvme_init (fuel : nat) (pbus slot function : Z) : N unit :=
  id ← gets nvme_last_id;
  _ ← modify (fun s => mkNst (wd s) (bus s) (vm s) zero_nvme (heap s) (u64 (id + 1)));
  bar ← on_bus (pci_config_bar pbus slot function 0);
  base ← on_vm (vm_alloc 2);
  _ ← set_ctl (fun c => mkNvme id base 0 zero_cq zero_sq zero_cq zero_sq ∅ 0 0 [] [] []);
  _ ← on_vm (vm_map (bar_addr bar) base 2 3);
  cap ← reg_read REG_CAP;
  _ ← set_ctl (fun c => mkNvme id base (u32 (4 ≪ NVME_CAP_DSTRD cap)) zero_cq zero_sq zero_cq zero_sq ∅ 0 0 [] [] []);
  _ ← on_bus (pci_config_set_busmaster pbus slot function);
  _ ← reg_write REG_CC 0;
  _ ← nvme_wait_csts_rdy 0;
  _ ← nvme_cq_init Admin 1 (0x1000 / CQE);
  _ ← nvme_sq_init Admin 0 (0x1000 / SQE) Admin;
  acq ← get_cq Admin;
  asq ← get_sq Admin;
  _ ← reg_write REG_AQA (u32 (cq_mask acq ≪ 16) .| sq_mask asq);
  asq_phys ← on_vm (vm_get_phys (sq_entry asq));
  _ ← reg_write REG_ASQ asq_phys;
  acq_phys ← on_vm (vm_get_phys (cq_entry acq));
  _ ← reg_write REG_ACQ acq_phys;
  _ ← reg_write REG_INTMS 0xFFFFFFFF;
  _ ← reg_write REG_CC (1 .| (4 ≪ 20) .| (6 ≪ 16));
  _ ← nvme_wait_csts_rdy 1;
  cid ← nvme_identify_controller;
  serial_ ← cstring fuel (cid + 4);
  model_ ← cstring fuel (cid + 24);
  firmware_ ← cstring fuel (cid + 64);
  nn ← vld 4 (cid + 516);
  cntlid ← vld 2 (cid + 78);
  _ ← set_ctl (fun c => mkNvme (num c) (nbase c) (doorbell_stride c) (admin_cq c) (admin_sq c)
    (io_cq c) (io_sq c) (namespace_list c) nn cntlid serial_ model_ firmware_);
  _ ← free cid;
  _ ← nvme_ns_probe 0;
  _ ← nvme_io_cq_init Io 3;
  nvme_io_sq_init Io 2 Io.
End nvme.

(** ** Receiving completions *)
Section wait.
Context {D B V : Type} `{!NvmeDevice D, !PortDevice B, !KernelVm V}.
Implicit Types s : nst D B V.

Definition sq_of s (q : qid) : nvme_sq_t := match q with Admin => admin_sq (ctl s) | Io => io_sq (ctl s) end.
Definition cq_of s (q : qid) : nvme_cq_t := match q with Admin => admin_cq (ctl s) | Io => io_cq (ctl s) end.

(** The phase tag of the entry at the head of a completion queue. *)
Definition tag (m : pmem) (pa : Z) : Z := if decide (ldn 4 m pa .& 2 ^ 16 = 0) then 0 else 1.

Lemma poll_ok s q pa :
  vm_tr (vm s) (cq_entry (cq_of s q) + CQE * cq_head (cq_of s q) + 12) = Some pa ->
  nvme_poll_cq q s = Ok (bool_decide (tag (wd s).1 pa = cq_phase (cq_of s q)), s).
Proof.
  intros H. unfold nvme_poll_cq, get_cq, vld, vaddr. cmd_unfold. fold (cq_of s q). rewrite H. done.
Qed.

(** A phase that is no tag is never seen, whatever is in memory. *)
Lemma poll_dead s q : cq_phase (cq_of s q) <> 0 -> cq_phase (cq_of s q) <> 1 ->
  nvme_poll_cq q s = Ok (false, s) \/ exists w, nvme_poll_cq q s = Stop w.
Proof.
  intros H0 H1. destruct (vm_tr (vm s) (cq_entry (cq_of s q) + CQE * cq_head (cq_of s q) + 12)) as [pa|] eqn:E.
  - left. rewrite (poll_ok _ _ pa) by done. do 2 f_equal. apply bool_decide_eq_false_2.
    unfold tag. case_decide; lia.
  - right. eexists. unfold nvme_poll_cq, get_cq, vld, vaddr. cmd_unfold. fold (cq_of s q). rewrite E. done.
Qed.

Lemma wait_dead n s q : let c := cq_of s (sq_cq (sq_of s q)) in
  cq_phase c <> 0 -> cq_phase c <> 1 -> exists w, wait_loop n q s = Stop w.
Proof.
  cbv zeta. revert s. induction n as [|n IH]; intros s H0 H1; [by eexists|]. cbn [wait_loop].
  erewrite bind_ok by done. cbv beta.
  destruct (poll_dead s (sq_cq (sq_of s q)) H0 H1) as [R|[w R]].
  - erewrite bind_ok by exact R. cbv beta iota. erewrite bind_ok by done. by apply IH.
  - exists w. by apply bind_stop.
Qed.

(** The world after [k] polling intervals. *)
Definition later s (k : nat) : nst D B V :=
  mkNst (Nat.iter k (elapse 10) (wd s)) (bus s) (vm s) (ctl s) (heap s) (nvme_last_id s).

Lemma later_S s k : later (later s 1) k = later s (S k).
Proof. unfold later. cbn. by rewrite Nat.iter_swap. Qed.

(** What [nvme_command_cqe] does to the driver's record and the device. *)
Definition next_head (c : nvme_cq_t) : Z := u32 (cq_head c + 1) .& cq_mask c.
Definition taken s (q : qid) (hd : Z) : nvme_t :=
  let sq := sq_of s q in let p := sq_cq sq in let c := cq_of s p in
  let phase := if decide (next_head c <> u32 (cq_head c + 1)) then bnot 8 (cq_phase c) else cq_phase c in
  let c' := mkCq (cq_doorbell c) (cq_mask c) (cq_entry c) (next_head c) phase in
  let sq' := mkSq (sq_doorbell sq) (sq_mask sq) (sq_entry sq) p hd (sq_tail sq) in
  let k := ctl s in
  mkNvme (num k) (nbase k) (doorbell_stride k)
    (if decide (p = Admin) then c' else admin_cq k) (if decide (q = Admin) then sq' else admin_sq k)
    (if decide (p = Io) then c' else io_cq k) (if decide (q = Io) then sq' else io_sq k)
    (namespace_list k) (namespaces k) (nid k) (serial k) (model k) (firmware k).

Lemma cqe_ok s q pa : let c := cq_of s (sq_cq (sq_of s q)) in
  let cqe := cq_entry c + CQE * cq_head c in
  vm_tr (vm s) (cqe + 12) = Some (pa + 12) -> vm_tr (vm s) (cqe + 8) = Some (pa + 8) ->
  tag (wd s).1 (pa + 12) = cq_phase c ->
  nvme_command_cqe q s = Ok (cqe, mkNst
    (mmio_write (cq_doorbell c - nbase (ctl s)) (next_head c) (wd s))
    (bus s) (vm s) (taken s q (ldn 2 (wd s).1 (pa + 8))) (heap s) (nvme_last_id s)).
Proof.
  cbv zeta. intros H12 H8 Ht. unfold nvme_command_cqe.
  erewrite bind_ok by done. cbv beta zeta. fold (sq_of s q).
  rewrite (bind_ok _ _ s true s).
  2:{ rewrite (poll_ok s _ (pa + 12)) by done. by rewrite bool_decide_eq_true_2. }
  cbn [negb]. erewrite bind_ok by done. cbv beta zeta. fold (cq_of s (sq_cq (sq_of s q))).
  set (p := sq_cq (sq_of s q)) in *. set (c := cq_of s p) in *. fold (next_head c).
  unfold put_cq, set_ctl, vld, vaddr, ring, reg_write, set_wd, put_sq. cmd_unfold. cbn [wd bus vm ctl heap nvme_last_id].
  rewrite H8. cbn [wd bus vm ctl heap nvme_last_id].
  assert (E : forall x : nvme_sq_t, sq_of s q = x -> ldn 2 (wd s).1 (pa + 8) = sq_head x ->
    x = mkSq (sq_doorbell x) (sq_mask x) (sq_entry x) p (ldn 2 (wd s).1 (pa + 8)) (sq_tail x)).
  { intros x <- ->. unfold p. by destruct (sq_of s q). }
  specialize (E _ eq_refl). unfold taken. fold p c.
  destruct (decide (ldn 2 (wd s).1 (pa + 8) <> sq_head (sq_of s q))) as [Hh|Hh].
  - destruct s as [w b v k h i]. destruct q, p; reflexivity.
  - specialize (E (dec_stable Hh)). rewrite <-E. destruct s as [w b v k h i]. destruct k. destruct q, p; reflexivity.
Qed.

(** The polling loop receives the completion posted within its rounds. *)
Lemma wait_ok n k s q pa : let c := cq_of s (sq_cq (sq_of s q)) in
  let cqe := cq_entry c + CQE * cq_head c in
  vm_tr (vm s) (cqe + 12) = Some (pa + 12) -> vm_tr (vm s) (cqe + 8) = Some (pa + 8) ->
  (forall j, (j < k)%nat -> tag (wd (later s j)).1 (pa + 12) <> cq_phase c) ->
  tag (wd (later s k)).1 (pa + 12) = cq_phase c -> (k < n)%nat ->
  wait_loop n q s = nvme_command_cqe q (later s k).
Proof.
  cbv zeta. revert k s. induction n as [|n IH]; intros k s H12 H8 Hno Hyes Hk; [lia|].
  cbn [wait_loop]. erewrite bind_ok by done. cbv beta. fold (sq_of s q).
  rewrite (bind_ok _ _ s (bool_decide (tag (wd s).1 (pa + 12) = cq_phase (cq_of s (sq_cq (sq_of s q))))) s)
    by (by apply poll_ok).
  destruct k as [|k].
  - rewrite bool_decide_eq_true_2 by exact Hyes. by destruct s as [[m d] b v c h i].
  - rewrite bool_decide_eq_false_2 by (apply (Hno O); lia).
    rewrite (bind_ok _ _ s tt (later s 1)) by done.
    rewrite <-(later_S s k). apply (IH k (later s 1)); try done; [| |lia].
    + intros j Hj. rewrite later_S. apply Hno. lia.
    + rewrite later_S. exact Hyes.
Qed.
End wait.

(** ** The I/O queue and a disk behind it *)

(** A mask of [b] bits: ring arithmetic. *)
Lemma ring_next b x : 0 <= b <= 32 -> 0 <= x < 2 ^ 32 - 1 ->
  u32 (x + 1) .& (2 ^ b - 1) = (x + 1) mod 2 ^ b.
Proof.
  intros Hb Hx. rewrite wrap_small by zlia. replace (2 ^ b - 1) with (Z.ones b).
  - apply land_low. lia.
  - rewrite Z.ones_equiv. lia.
Qed.

(** What the driver relies on when it reads from an I/O queue whose pages are at [sqb] and
    [cqb]: told that a read command stands in its submission queue, the device transfers the
    blocks to the page given, leaves all other memory alone, and posts a completion with
    status 0 in its next slot within 500 intervals of 10 ms. [dev_at d h t]: the device has
    consumed [h] commands and posted [t] completions. *)
Class NvmeDisk (D : Type) `{!NvmeDevice D} := {
  disk : Z -> Z;
  sqb : Z;
  cqb : Z;
  db_sq : Z;
  db_cq : Z;
  dev_at : D -> Z -> Z -> Prop;
  disk_read m d h t P lba : let e := sqb + SQE * h in let slot := cqb + CQE * t in
    dev_at d h t -> 0 <= h < 63 -> 0 <= t < 255 ->
    ldn 1 m e = 2 -> ldn 8 m (e + 24) = P -> P mod 4096 = 0 ->
    ldn 4 m (e + 40) + 2 ^ 32 * ldn 4 m (e + 44) = lba -> ldn 4 m (e + 48) = 7 ->
    tag m (slot + 12) = 0 -> (P + 4096 <= cqb \/ cqb + 4096 <= P) ->
    exists k, (k < 500)%nat /\
      let w j := Nat.iter j (elapse 10) (mmio_write db_sq (h + 1) (m, d)) in
      (forall j, (j < k)%nat -> tag (w j).1 (slot + 12) = 0) /\
      dev_at (w k).2 (h + 1) (t + 1) /\
      (forall a, ~ P <= a < P + 4096 -> ~ slot <= a < slot + CQE -> (w k).1 a = m a) /\
      (forall i, 0 <= i < 4096 -> (w k).1 (P + i) = disk (512 * lba + i)) /\
      tag (w k).1 (slot + 12) = 1 /\ ldn 2 (w k).1 (slot + 14) ≫ 1 = 0;
  disk_ack m d h t : dev_at d h t ->
    (mmio_write db_cq t (m, d)).1 = m /\ dev_at (mmio_write db_cq t (m, d)).2 h t
}.
#[global] Hint Mode NvmeDisk ! - : typeclass_instances.

(** *** The read command in memory *)

(** The 64 bytes [nvme_rw_read] writes at the entry [e]. *)
Definition read_entry (m : pmem) (e tail nsid P lba : Z) : pmem :=
  let m := fill m e SQE 0 in
  let m := stn 4 m e (2 .| u32 (tail ≪ 16)) in
  let m := stn 8 m (e + 16) 0 in
  let m := stn 8 m (e + 24) P in
  let m := stn 4 m (e + 4) nsid in
  let m := stn 4 m (e + 40) (lba .& 0xFFFFFFFF) in
  let m := stn 4 m (e + 44) ((lba ≫ 32) .& 0xFFFFFFFF) in
  stn 4 m (e + 48) 7.

Ltac mem_step := first
  [ rewrite ldn_stn | rewrite ldn_stn_other by (unfold SQE in *; lia) ].

Lemma read_entry_words m e tail nsid P lba : let M := read_entry m e tail nsid P lba in
  0 <= tail < 2 ^ 16 -> fits 64 P -> fits 64 lba ->
  ldn 1 M e = 2 /\ ldn 8 M (e + 24) = P /\
  ldn 4 M (e + 40) + 2 ^ 32 * ldn 4 M (e + 44) = lba /\ ldn 4 M (e + 48) = 7.
Proof.
  intros M Ht HP Hl. unfold M, read_entry. split; [|split; [|split]].
  - do 6 mem_step. pose proof (ldn_stn_at 4 1 (fill m e SQE 0) e (2 .| u32 (tail ≪ 16)) 0) as H.
    rewrite Z.add_0_r in H. rewrite H by lia. rewrite Z.shiftl_mul_pow2, wrap_small by zlia.
    rewrite Z.lor_comm, lor_add by zlia. zlia.
  - do 5 mem_step. zlia.
  - do 2 mem_step. rewrite ldn_stn. do 1 mem_step. rewrite ldn_stn. change 0xFFFFFFFF with (Z.ones 32).
    rewrite !land_low, Z.shiftr_div_pow2 by lia. zlia.
  - by mem_step.
Qed.

Lemma read_entry_other m e tail nsid P lba b : ~ e <= b < e + SQE -> read_entry m e tail nsid P lba b = m b.
Proof.
  intros Hb. unfold read_entry, SQE in *. rewrite !stn_other by lia. by rewrite fill_other.
Qed.

Section disk.
Context {D B V : Type} `{!NvmeDevice D, !NvmeDisk D, !PortDevice B, !KernelVm V}.
Implicit Types s : nst D B V.
(** The translation, and a buffer page [P] at [local]. *)
Variables (sqv cqv : Z).

(** [va] to [va + 4095] are the page at [pa]. *)
Definition page_at (v : V) (va pa : Z) : Prop :=
  (forall o, 0 <= o < 4096 -> vm_tr v (va + o) = Some (pa + o)) /\ vm_get_phys va v = Ok (pa, v).

(** The driver and the device agree: [h] commands submitted, [t] completions received. *)
Record io_ready s (h t : Z) : Prop := {
  ir_sq : exists mask_bits hd, 6 <= mask_bits <= 32 /\
    io_sq (ctl s) = mkSq (nbase (ctl s) + db_sq) (2 ^ mask_bits - 1) sqv Io hd h;
  ir_cq : exists mask_bits, 8 <= mask_bits <= 32 /\
    io_cq (ctl s) = mkCq (nbase (ctl s) + db_cq) (2 ^ mask_bits - 1) cqv t 1;
  ir_sqp : page_at (vm s) sqv sqb;
  ir_cqp : page_at (vm s) cqv cqb;
  ir_pages : cqb + 4096 <= sqb \/ sqb + 4096 <= cqb;
  ir_dev : dev_at (wd s).2 h t;
  ir_tags t' : t <= t' < 256 -> tag (wd s).1 (cqb + CQE * t' + 12) = 0
}.

(** The state with other memory. *)
Definition with_mem s (m : pmem) : nst D B V :=
  mkNst (m, (wd s).2) (bus s) (vm s) (ctl s) (heap s) (nvme_last_id s).

Lemma page_addr v va pa o : page_at v va pa -> 0 <= o < 4096 -> vm_tr v (va + o) = Some (pa + o).
Proof. intros [H _]. apply H. Qed.

Lemma vst_page s va pa n o x : page_at (vm s) va pa -> 0 <= o < 4096 ->
  vst n (va + o) x s = Ok (tt, with_mem s (stn n (wd s).1 (pa + o) x)).
Proof.
  intros Hp Ho. unfold vst, vaddr, set_wd. cmd_unfold. by rewrite (page_addr _ _ _ _ Hp Ho).
Qed.

Lemma vzero_page s va pa n o : page_at (vm s) va pa -> 0 <= o < 4096 ->
  vzero (va + o) n s = Ok (tt, with_mem s (fill (wd s).1 (pa + o) n 0)).
Proof.
  intros Hp Ho. unfold vzero, vaddr, set_wd. cmd_unfold. by rewrite (page_addr _ _ _ _ Hp Ho).
Qed.

Lemma vld_page s va pa n o : page_at (vm s) va pa -> 0 <= o < 4096 ->
  vld n (va + o) s = Ok (ldn n (wd s).1 (pa + o), s).
Proof.
  intros Hp Ho. unfold vld, vaddr. cmd_unfold. by rewrite (page_addr _ _ _ _ Hp Ho).
Qed.

(** Submitting the command: the entry is written and the doorbell rung. *)
Definition set_io s (w : pmem * D) (sq : nvme_sq_t) (cq : nvme_cq_t) : nst D B V :=
  let k := ctl s in
  mkNst w (bus s) (vm s) (mkNvme (num k) (nbase k) (doorbell_stride k) (admin_cq k) (admin_sq k) cq sq
    (namespace_list k) (namespaces k) (nid k) (serial k) (model k) (firmware k)) (heap s) (nvme_last_id s).

(** A store at the entry [sqe], [o] bytes in. *)
Lemma vst_entry s h n o x : page_at (vm s) sqv sqb -> 0 <= h < 63 -> 0 <= o < SQE ->
  vst n (sqv + SQE * h + o) x s = Ok (tt, with_mem s (stn n (wd s).1 (sqb + SQE * h + o) x)).
Proof.
  intros Hp Hh Ho. unfold SQE in *. rewrite <-!Z.add_assoc. apply vst_page; [done|lia].
Qed.

Lemma command_create_ok s h mb hd P :
  io_sq (ctl s) = mkSq (nbase (ctl s) + db_sq) (2 ^ mb - 1) sqv Io hd h ->
  page_at (vm s) sqv sqb -> 0 <= h < 63 -> P .& 0xFFF = 0 ->
  nvme_command_create Io 2 0 P s = Ok (sqv + SQE * h, with_mem s
    (let m := fill (wd s).1 (sqb + SQE * h) SQE 0 in
     let m := stn 4 m (sqb + SQE * h) (2 .| u32 (h ≪ 16)) in
     let m := stn 8 m (sqb + SQE * h + 16) 0 in
     stn 8 m (sqb + SQE * h + 24) P)).
Proof.
  intros Hsq Hsqp Hh HP. unfold nvme_command_create. rewrite bool_decide_eq_true_2 by done.
  erewrite bind_ok by done. cbv beta.
  rewrite (bind_ok _ _ s (io_sq (ctl s)) s) by done. rewrite Hsq. cbn [sq_entry sq_tail].
  erewrite bind_ok; [|apply (vzero_page _ _ sqb); [done|unfold SQE; lia]]. cbv beta.
  erewrite bind_ok.
  2:{ rewrite <-(Z.add_0_r (sqv + _)). apply vst_entry; [done|done|unfold SQE; lia]. }
  cbv beta. erewrite bind_ok by (apply vst_entry; [done|done|unfold SQE; lia]).
  cbv beta. erewrite bind_ok by (apply vst_entry; [done|done|unfold SQE; lia]).
  cbv beta. unfold with_mem. cbn [wd fst snd bus vm ctl heap nvme_last_id]. by rewrite !Z.add_0_r.
Qed.

Lemma aligned_mask x : x mod 4096 = 0 -> x .& 0xFFF = 0.
Proof. intros Hx. change 0xFFF with (Z.ones 12). by rewrite land_low. Qed.

Lemma rw_read_submit s h t ns lba local P :
  io_ready s h t -> 0 <= h < 63 -> page_at (vm s) local P -> local mod 4096 = 0 -> P mod 4096 = 0 ->
  let sq := io_sq (ctl s) in
  let m := read_entry (wd s).1 (sqb + SQE * h) h (u32 (ns_id ns + 1)) P lba in
  nvme_rw_read ns lba 8 local s =
  (cqe ← nvme_wait Io; check_status "[NVMe]	I/O read failed" cqe)
    (set_io s (mmio_write db_sq (h + 1) (m, (wd s).2))
       (mkSq (sq_doorbell sq) (sq_mask sq) (sq_entry sq) Io (sq_head sq) (h + 1)) (io_cq (ctl s))).
Proof.
  intros [(mb & hd & Hmb & Hsq) Hcq Hsqp Hcqp Hpg Hdev Htags] Hh Hloc Hl HP sq m.
  unfold nvme_rw_read. rewrite (bool_decide_eq_true_2 _ (aligned_mask _ Hl)).
  erewrite bind_ok by done. cbv beta.
  rewrite (bind_ok _ _ s P s) by (unfold on_vm; rewrite (proj2 Hloc); by destruct s).
  erewrite bind_ok by (eapply command_create_ok; [exact Hsq|done|done|by apply aligned_mask]).
  cbv beta zeta. do 4 (erewrite bind_ok by (apply vst_entry; [done|done|unfold SQE; lia]); cbv beta).
  unfold with_mem. cbn [wd fst snd bus vm ctl heap nvme_last_id].
  match goal with |- (nvme_command_submit Io ≫= _) ?x = _ =>
    replace x with (with_mem s m) by (unfold with_mem, m, read_entry; done) end.
  erewrite (bind_ok (nvme_command_submit Io)); [reflexivity|].
  unfold nvme_command_submit, get_sq, put_sq, set_ctl, ring, reg_write, set_wd. cmd_unfold.
  cbn [with_mem wd fst snd bus vm ctl heap nvme_last_id]. unfold sq. rewrite Hsq.
  cbn [sq_tail sq_mask sq_doorbell sq_entry sq_head sq_cq]. rewrite ring_next by lia.
  rewrite Z.mod_small; [|pose proof (Z.pow_le_mono_r 2 6 mb); lia].
  unfold set_io. cbn. by replace (nbase (ctl s) + db_sq - nbase (ctl s)) with db_sq by lia.
Qed.

Lemma tag_ext m m' a : (forall i, 0 <= i < 4 -> m' (a + i) = m (a + i)) -> tag m' a = tag m a.
Proof. intros H. unfold tag. by rewrite (ldn_ext 4 m m' a). Qed.

(** Away from the buffer page, the entry written and the slot of the completion. *)
Definition apart (P a : Z) : Prop :=
  ~ P <= a < P + 4096 /\ ~ sqb <= a < sqb + 4096 /\ ~ cqb <= a < cqb + 4096.

(** Receiving the completion of a command submitted with the doorbell value [h + 1]. *)
Lemma rw_read_receive s t k : 
  let cq := io_cq (ctl s) in
  (exists mb, 8 <= mb <= 32 /\ cq = mkCq (nbase (ctl s) + db_cq) (2 ^ mb - 1) cqv t 1) ->
  sq_cq (io_sq (ctl s)) = Io -> page_at (vm s) cqv cqb -> 0 <= t < 255 -> (k < 500)%nat ->
  (forall j, (j < k)%nat -> tag (wd (later s j)).1 (cqb + CQE * t + 12) = 0) ->
  tag (wd (later s k)).1 (cqb + CQE * t + 12) = 1 ->
  let w := mmio_write db_cq (t + 1) (wd (later s k)) in
  ldn 2 w.1 (cqb + CQE * t + 14) ≫ 1 = 0 ->
  exists hd, (cqe ← nvme_wait Io; check_status "[NVMe]	I/O read failed" cqe) s =
    Ok (tt, set_io s w
      (mkSq (sq_doorbell (io_sq (ctl s))) (sq_mask (io_sq (ctl s))) (sq_entry (io_sq (ctl s))) Io hd
        (sq_tail (io_sq (ctl s))))
      (mkCq (cq_doorbell cq) (cq_mask cq) cqv (t + 1) 1)).
Proof.
  cbv zeta. intros (mb & Hmb & Hcq) Hpair Hcqp Ht Hk Hno Hyes Hst.
  assert (Hc : cq_of s (sq_cq (sq_of s Io)) = io_cq (ctl s)) by (cbn; by rewrite Hpair).
  assert (Htr : forall o, 0 <= o < 16 -> vm_tr (vm s) (cqv + CQE * t + o) = Some (cqb + CQE * t + o)).
  { intros o Ho. rewrite <-!Z.add_assoc. apply page_addr; [done|unfold CQE; lia]. }
  pose proof (wait_ok 500 k s Io (cqb + CQE * t)) as Hw. cbv zeta in Hw. rewrite Hc, Hcq in Hw.
  cbn [cq_entry cq_head cq_phase] in Hw. rewrite !Htr in Hw by lia.
  specialize (Hw eq_refl eq_refl). rewrite (bind_ok _ _ s (cqv + CQE * t) (mkNst
    (mmio_write db_cq (t + 1) (wd (later s k))) (bus s) (vm s)
    (taken s Io (ldn 2 (wd (later s k)).1 (cqb + CQE * t + 8))) (heap s) (nvme_last_id s))).
  - unfold check_status. erewrite bind_ok.
    2:{ unfold vld, vaddr. cmd_unfold. cbn [vm wd]. rewrite Htr by lia. reflexivity. }
    cbv beta. cbn [wd]. rewrite Hst. cbn [decide]. rewrite decide_False by tauto.
    exists (ldn 2 (wd (later s k)).1 (cqb + CQE * t + 8)).
    unfold set_io, taken, next_head. rewrite Hc. cbn [sq_of]. rewrite Hpair, Hcq.
    cbn [cq_head cq_mask cq_phase cq_doorbell cq_entry]. rewrite ring_next by lia.
    assert (Hsm : (t + 1) mod 2 ^ mb = t + 1).
    { apply Z.mod_small. pose proof (Z.pow_le_mono_r 2 8 mb). lia. }
    rewrite Hsm, (wrap_small 32 (t + 1)) by zlia. rewrite (decide_False (P := t + 1 <> t + 1)) by tauto. reflexivity.
  - unfold nvme_wait. rewrite Hw; [| |done|done].
    + pose proof (cqe_ok (later s k) Io (cqb + CQE * t)) as Hq. cbv zeta in Hq.
      change (cq_of (later s k) (sq_cq (sq_of (later s k) Io))) with (cq_of s (sq_cq (sq_of s Io))) in Hq.
      rewrite Hc, Hcq in Hq. cbn [cq_entry cq_head cq_phase cq_doorbell] in Hq.
      change (vm (later s k)) with (vm s) in Hq. rewrite !Htr in Hq by lia.
      rewrite Hq by done. change (nbase (ctl (later s k))) with (nbase (ctl s)).
      replace (nbase (ctl s) + db_cq - nbase (ctl s)) with db_cq by lia.
      unfold next_head. cbn [cq_head cq_mask]. rewrite ring_next by lia.
      rewrite (Z.mod_small (t + 1)); [reflexivity|]. pose proof (Z.pow_le_mono_r 2 8 mb). lia.
    + intros j Hj. rewrite Hno by done. done.
Qed.

(** A buffer page apart from the queues. *)
Record io_buffer s (local P : Z) : Prop := {
  ib_page : page_at (vm s) local P;
  ib_local : local mod 4096 = 0;
  ib_P : P mod 4096 = 0;
  ib_fits : fits 64 P;
  ib_sq : P + 4096 <= sqb \/ sqb + 4096 <= P;
  ib_cq : P + 4096 <= cqb \/ cqb + 4096 <= P
}.

Lemma rw_read_ok s h t ns lba local P :
  io_ready s h t -> 0 <= h < 63 -> 0 <= t < 255 -> fits 64 lba -> io_buffer s local P ->
  exists s', nvme_rw_read ns lba 8 local s = Ok (tt, s') /\ io_ready s' (h + 1) (t + 1) /\
    vm s' = vm s /\ heap s' = heap s /\
    (forall i, 0 <= i < 4096 -> (wd s').1 (P + i) = disk (512 * lba + i)) /\
    (forall a, apart P a -> (wd s').1 a = (wd s).1 a).
Proof.
  intros Hr Hh Ht Hlba [Hpage Hloc HP HPf HPs HPc].
  rewrite (rw_read_submit s h t ns lba local P) by done.
  destruct Hr as [(mb & hd & Hmb & Hsq) (cb & Hcb & Hcq) Hsqp Hcqp Hpg Hdev Htags].
  set (m := read_entry (wd s).1 (sqb + SQE * h) h (u32 (ns_id ns + 1)) P lba).
  destruct (read_entry_words (wd s).1 (sqb + SQE * h) h (u32 (ns_id ns + 1)) P lba) as (W0 & W24 & W40 & W48);
    [lia|done|done|]. fold m in W0, W24, W40, W48.
  assert (Hm : forall a, ~ sqb <= a < sqb + 4096 -> m a = (wd s).1 a).
  { intros a Ha. apply read_entry_other. unfold SQE. lia. }
  assert (Htag : forall t', t <= t' < 256 -> tag m (cqb + CQE * t' + 12) = 0).
  { intros t' Ht'. rewrite <-(Htags t') by lia. apply tag_ext. intros i Hi. apply Hm. unfold CQE. lia. }
  destruct (disk_read m (wd s).2 h t P lba) as (k & Hk & Hno & Hdev' & Hmem & Hdata & Hyes & Hst);
    [done|lia|lia|done|done|done|done|done|apply Htag; lia|done|]. cbv zeta in Hno, Hdev', Hmem, Hdata, Hyes, Hst.
  set (w0 := mmio_write db_sq (h + 1) (m, (wd s).2)) in *.
  set (wk := Nat.iter k (elapse 10) w0) in *.
  destruct (disk_ack wk.1 wk.2 (h + 1) (t + 1) Hdev') as [Ha1 Ha2].
  rewrite <-surjective_pairing in Ha1, Ha2.
  rewrite Hsq. cbn [sq_doorbell sq_mask sq_entry sq_head].
  set (s1 := set_io s w0 _ _).
  destruct (rw_read_receive s1 t k) as (hd' & R).
  - exists cb. split; [done|]. unfold s1. cbn. by rewrite Hcq.
  - done.
  - done.
  - lia.
  - done.
  - exact Hno.
  - exact Hyes.
  - change (wd (later s1 k)) with wk. by rewrite Ha1.
  - rewrite R. eexists. split; [reflexivity|]. change (wd (later s1 k)) with wk.
    assert (Hout : forall a, apart P a -> wk.1 a = (wd s).1 a).
    { intros a (A1 & A2 & A3). rewrite Hmem; [by apply Hm|done|unfold CQE; lia]. }
    unfold set_io. cbn [wd vm heap]. rewrite Ha1. split; [|done].
    split; cbn; try done.
    + exists mb, hd'. split; [done|]. reflexivity.
    + exists cb. split; [done|]. by rewrite Hcq.
    + intros t' Ht'. change (tag (mmio_write db_cq (t + 1) wk).1 (cqb + CQE * t' + 12) = 0). rewrite Ha1.
      rewrite <-(Htag t') by lia. apply tag_ext. intros i Hi. apply Hmem; unfold CQE; lia.
Qed.

(** Where the caller's buffer lies: [bp i] is the address of its byte [i]. *)
Record dest s (buf len : Z) (bp : Z -> Z) (P : Z) : Prop := {
  ds_tr i : 0 <= i < len -> vm_tr (vm s) (buf + i) = Some (bp i);
  ds_inj i j : 0 <= i < len -> 0 <= j < len -> bp i = bp j -> i = j;
  ds_apart i : 0 <= i < len -> apart P (bp i)
}.

Lemma vcopy_ok s buf len bp local P off n :
  dest s buf len bp P -> page_at (vm s) local P -> 0 <= off -> 0 <= n <= 4096 -> off + n <= len ->
  exists m, vcopy (buf + off) local n s = Ok (tt, with_mem s m) /\
    (forall i, off <= i < off + n -> m (bp i) = u8 ((wd s).1 (P + (i - off)))) /\
    (forall a, (forall i, off <= i < off + n -> a <> bp i) -> m a = (wd s).1 a).
Proof.
  intros [Htr Hinj Hap] Hpage Hoff Hn Hlen. unfold vcopy.
  destruct (for_n_inv (fun k s' => exists m, s' = with_mem s m /\
      (forall i, off <= i < off + k -> m (bp i) = u8 ((wd s).1 (P + (i - off)))) /\
      (forall a, (forall i, off <= i < off + k -> a <> bp i) -> m a = (wd s).1 a)) (Z.to_nat n) 0
    (fun i => b ← vld 1 (local + i); vst 1 (buf + off + i) b) s) as (s' & R & m & -> & H1 & H2).
  - exists (wd s).1. split; [|split; [lia|done]]. unfold with_mem. rewrite <-surjective_pairing. by destruct s.
  - intros k s1 Hk (m & -> & M1 & M2).
    assert (Hbp : forall i, off <= i < off + n -> (forall j, 0 <= j < 4096 -> bp i <> P + j)).
    { intros i Hi j Hj E. destruct (Hap i) as [A _]; [lia|]. lia. }
    erewrite bind_ok by (eapply vld_page; [exact Hpage|lia]). cbv beta.
    rewrite ldn1. cbn [wd with_mem fst].
    assert (Hsrc : m (P + k) = (wd s).1 (P + k)).
    { apply M2. intros i Hi E. symmetry in E. revert E. apply Hbp; lia. }
    rewrite Hsrc. replace (buf + off + k) with (buf + (off + k)) by lia.
    unfold vst, vaddr, set_wd. cmd_unfold. cbn [vm with_mem]. rewrite Htr by lia.
    eexists. split; [reflexivity|]. eexists. split; [reflexivity|]. split.
    + intros i Hi. rewrite stn1. destruct (decide (bp i = bp (off + k))) as [E|E].
      * apply Hinj in E; [|lia|lia]. subst i. rewrite wrap_wrap. do 3 f_equal. lia.
      * apply M1. assert (i <> off + k) by congruence. lia.
    + intros a Ha. rewrite stn1, decide_False by (apply Ha; lia). apply M2. intros i Hi. apply Ha. lia.
  - rewrite Z2Nat.id in * by lia. rewrite Z.add_0_l in *. eauto.
Qed.

Lemma io_ready_mem s h t m : io_ready s h t ->
  (forall a, cqb <= a < cqb + 4096 -> m a = (wd s).1 a) -> 0 <= t -> io_ready (with_mem s m) h t.
Proof.
  intros [Hsq Hcq Hsqp Hcqp Hpg Hdev Htags] Hm Ht. split; try done.
  intros t' Ht'. rewrite <-(Htags t') by done. apply tag_ext. intros i Hi. apply Hm. unfold CQE. lia.
Qed.

Lemma vm_dest s s' buf len bp P : vm s' = vm s -> dest s buf len bp P -> dest s' buf len bp P.
Proof. intros E [Htr ? ?]. split; [|done|done]. by rewrite E. Qed.
Lemma vm_buffer s s' local P : vm s' = vm s -> io_buffer s local P -> io_buffer s' local P.
Proof. intros E [? ? ? ? ? ?]. split; try done. by rewrite E. Qed.

(** Chunks of eight blocks still to be read. *)
Definition chunks (left : Z) : Z := (left + 4095) / 4096.

Lemma read_loop_ok fuel ns lba blocks buf local P bp i left s h t :
  let len := 512 * blocks in
  io_ready s h t -> io_buffer s local P -> dest s buf len bp P ->
  0 <= h -> 0 <= t -> 0 <= i -> (i < blocks -> left = len - 512 * i) -> (blocks <= i -> left = 0) ->
  h + chunks left <= 63 -> t + chunks left <= 255 -> (Z.to_nat (chunks left) < fuel)%nat ->
  0 <= lba -> lba + blocks < 2 ^ 64 ->
  exists s', read_loop fuel ns lba blocks buf local i left s = Ok (tt, s') /\
    io_ready s' (h + chunks left) (t + chunks left) /\ vm s' = vm s /\ heap s' = heap s /\
    (forall j, 512 * i <= j < len -> (wd s').1 (bp j) = u8 (disk (512 * lba + j))) /\
    (forall a, apart P a -> (forall j, 0 <= j < len -> 512 * i <= j -> a <> bp j) -> (wd s').1 a = (wd s).1 a).
Proof.
  cbv zeta. revert i left s h t.
  induction fuel as [|fuel IH]; intros i left s h t Hr Hbuf Hd Hh Ht Hi Hl1 Hl2 Hhc Htc Hf Hlba Hmax; [lia|].
  cbn [read_loop]. destruct (decide (i < blocks)) as [Hlt|Hge].
  2:{ exists s. rewrite Hl2 by lia. change (chunks 0) with 0. rewrite !Z.add_0_r. split_and!; try done. lia. }
  specialize (Hl1 Hlt). assert (Hc : 1 <= chunks left) by (unfold chunks; zlia).
  rewrite wrap_small by zlia.
  destruct (rw_read_ok s h t ns (lba + i) local P) as (s1 & R1 & Hr1 & Hvm1 & Hheap1 & Hdata & Hout);
    [done|lia|lia|zlia|done|].
  erewrite bind_ok by exact R1. cbv beta. rewrite Z.shiftl_mul_pow2 by lia.
  pose proof (vm_buffer s s1 local P Hvm1 Hbuf) as Hbuf1. pose proof (vm_dest s s1 buf _ bp P Hvm1 Hd) as Hd1.
  destruct (vcopy_ok s1 buf (512 * blocks) bp local P (i * 2 ^ 9) (left `min` 4096)) as (m & R2 & M1 & M2);
    [done|apply Hbuf1|lia|lia|lia|].
  erewrite bind_ok by exact R2. cbv beta.
  assert (Hbytes : forall j, 512 * i <= j < 512 * i + left `min` 4096 -> m (bp j) = u8 (disk (512 * lba + j))).
  { intros j Hj. rewrite M1 by lia. rewrite Hdata by lia. do 2 f_equal. lia. }
  assert (Hkeep : forall a, apart P a -> (forall j, 512 * i <= j < 512 * i + left `min` 4096 -> a <> bp j) ->
    m a = (wd s).1 a).
  { intros a Ha Hne. rewrite M2; [by apply Hout|]. intros j Hj. apply Hne. lia. }
  assert (Hr2 : io_ready (with_mem s1 m) (h + 1) (t + 1)).
  { apply io_ready_mem; [done| |lia]. intros a Ha. apply M2. intros j Hj E.
    destruct (ds_apart _ _ _ _ _ Hd1 j) as (_ & _ & A); [lia|]. lia. }
  destruct (decide (4096 <= left)) as [Hmore|Hlast].
  - assert (Hcs : chunks (left - 4096) = chunks left - 1) by (unfold chunks; zlia).
    destruct (IH (i + 8) (left - 4096) (with_mem s1 m) (h + 1) (t + 1)) as (s' & R & Hr' & Hv' & Hh' & B1 & B2);
      try lia; [done|by apply (vm_buffer s1)|by apply (vm_dest s1)|].
    cbn [wd with_mem fst vm heap] in *. rewrite Hcs in Hr'.
    replace (h + 1 + (chunks left - 1)) with (h + chunks left) in Hr' by lia.
    replace (t + 1 + (chunks left - 1)) with (t + chunks left) in Hr' by lia.
    exists s'. split; [exact R|]. split; [done|]. split; [congruence|]. split; [congruence|]. split.
    + intros j Hj. destruct (decide (j < 512 * (i + 8))); [|apply B1; lia].
      rewrite B2; [apply Hbytes; lia|apply Hd; lia|].
      intros j' Hj' Hij' E. apply (ds_inj _ _ _ _ _ Hd) in E; lia.
    + intros a Ha Hne. rewrite B2; [apply Hkeep; [done|]|done|]; intros; apply Hne; lia.
  - assert (Hc1 : chunks left = 1) by (unfold chunks in *; zlia). rewrite Hc1.
    exists (with_mem s1 m). split; [done|]. split; [done|]. split; [done|]. split; [done|]. split.
    + intros j Hj. apply Hbytes. lia.
    + intros a Ha Hne. apply Hkeep; [done|]. intros j Hj. apply Hne; lia.
Qed.

(** A whole read: the bytes, the memory left alone, and the state of the queues after it. *)
Lemma nvme_read_ok fuel ns physical length buf bp local rest P s h t :
  block_size ns = 512 -> 0 <= physical -> 0 <= length -> length mod 512 = 0 ->
  physical + length < 2 ^ 64 ->
  heap s = local :: rest -> io_ready s h t -> io_buffer s local P -> dest s buf length bp P ->
  0 <= h -> 0 <= t -> h + chunks length <= 63 -> t + chunks length <= 255 ->
  (Z.to_nat (chunks length) < fuel)%nat ->
  exists s', nvme_read fuel ns physical length buf s = Ok (tt, s') /\
    io_ready s' (h + chunks length) (t + chunks length) /\ vm s' = vm s /\ heap s' = rest /\
    (forall j, 0 <= j < length -> (wd s').1 (bp j) = u8 (disk (physical - physical mod 512 + j))) /\
    (forall a, apart P a -> (forall j, 0 <= j < length -> a <> bp j) -> (wd s').1 a = (wd s).1 a).
Proof.
  intros Hbs Hphys Hlen Hmod Hmax Hheap Hr Hbuf Hd Hh Ht Hhc Htc Hf.
  unfold nvme_read. rewrite (bool_decide_eq_true_2 (block_size ns = 512)) by done.
  erewrite bind_ok by done. cbv beta.
  assert (Hal : length .& 0x1FF = 0) by (change 0x1FF with (Z.ones 9); by rewrite land_low).
  rewrite bool_decide_eq_true_2 by done. erewrite bind_ok by done. cbv beta zeta.
  rewrite !Z.shiftr_div_pow2, Z.shiftl_mul_pow2 by lia. rewrite !wrap_small by zlia.
  rewrite decide_False by zlia.
  set (s1 := mkNst (wd s) (bus s) (vm s) (ctl s) rest (nvme_last_id s)).
  rewrite (bind_ok (memalign _ _) _ s local s1) by (unfold memalign; by rewrite Hheap).
  assert (Hl : length = 512 * (length / 2 ^ 9)) by zlia.
  destruct (read_loop_ok fuel ns (physical / 2 ^ 9) (length / 2 ^ 9) buf local P bp 0 length s1 h t)
    as (s' & R & Hr' & Hv' & Hh' & B1 & B2); try done; try lia.
  - by destruct Hr.
  - by destruct Hbuf.
  - rewrite <-Hl. by destruct Hd.
  - apply Z.div_pos; lia.
  - zlia.
  - erewrite bind_ok by exact R. exists s'. split_and!; try done.
    + intros j Hj. rewrite B1 by lia. do 2 f_equal. zlia.
    + intros a Ha Hne. rewrite B2; [done|done|]. intros j Hj _. apply Hne. lia.
Qed.
End disk.

(** ** Properties *)


(** C33: completions. When the controller posts the entry at the head within 500 intervals of
    10 ms, [nvme_wait] returns it, takes the submission head from it, advances the head
    round the ring and rings the doorbell with it. But the phase then expected after the
    last slot of the ring is [(uint8_t) ~1], which no tag ever equals: from then on
    [nvme_wait] on the queue never returns, whatever the device does. *)
Theorem nvme_wait_receives {D B V} `{!NvmeDevice D, !PortDevice B, !KernelVm V}
    (s : nst D B V) q pa k b :
  let p := sq_cq (sq_of s q) in let c := cq_of s p in let cqe := cq_entry c + CQE * cq_head c in
  0 <= b < 32 -> cq_mask c = 2 ^ b - 1 -> 0 <= cq_head c <= cq_mask c -> cq_phase c = 1 ->
  vm_tr (vm s) (cqe + 12) = Some (pa + 12) -> vm_tr (vm s) (cqe + 8) = Some (pa + 8) ->
  (k < 500)%nat -> (forall j, (j < k)%nat -> tag (wd (later s j)).1 (pa + 12) = 0) ->
  tag (wd (later s k)).1 (pa + 12) = 1 ->
  exists s', nvme_wait q s = Ok (cqe, s') /\
    wd s' = mmio_write (cq_doorbell c - nbase (ctl s)) ((cq_head c + 1) mod 2 ^ b) (wd (later s k)) /\
    cq_head (cq_of s' p) = (cq_head c + 1) mod 2 ^ b /\
    sq_head (sq_of s' q) = ldn 2 (wd (later s k)).1 (pa + 8) /\
    cq_phase (cq_of s' p) = (if decide (cq_head c = cq_mask c) then 254 else 1) /\
    (cq_head c = cq_mask c -> forall s2 : nst D B V, cq_of s2 p = cq_of s' p -> sq_cq (sq_of s2 q) = p ->
      exists w, nvme_wait q s2 = Stop w).
Proof.
  intros p c cqe Hb Hm Hh Hph H12 H8 Hk Hno Hyes.
  assert (Hlt : 2 ^ b < 2 ^ 32) by (apply Z.pow_lt_mono_r; lia).
  assert (Hn : next_head c = (cq_head c + 1) mod 2 ^ b) by (unfold next_head; rewrite Hm; apply ring_next; lia).
  assert (Hu : u32 (cq_head c + 1) = cq_head c + 1) by zlia.
  assert (Hwrap : next_head c <> u32 (cq_head c + 1) <-> cq_head c = cq_mask c).
  { rewrite Hn, Hu. split; intros E.
    - destruct (decide (cq_head c = cq_mask c)); [done|]. rewrite Z.mod_small in E; lia.
    - rewrite E, Hm. replace (2 ^ b - 1 + 1) with (1 * 2 ^ b) by lia. rewrite Z.mod_mul; lia. }
  pose proof (wait_ok 500 k s q pa) as Hw. cbv zeta in Hw. fold p c cqe in Hw. rewrite Hph in Hw.
  pose proof (cqe_ok (later s k) q pa) as Hc. cbv zeta in Hc.
  change (cq_of (later s k) (sq_cq (sq_of (later s k) q))) with c in Hc. fold cqe in Hc. rewrite Hph in Hc.
  change (vm (later s k)) with (vm s) in Hc. specialize (Hc H12 H8 Hyes).
  assert (Hcq : cq_of (mkNst (mmio_write (cq_doorbell c - nbase (ctl s)) (next_head c) (wd (later s k)))
    (bus s) (vm s) (taken (later s k) q (ldn 2 (wd (later s k)).1 (pa + 8))) (heap s) (nvme_last_id s)) p =
    mkCq (cq_doorbell c) (cq_mask c) (cq_entry c) (next_head c)
      (if decide (next_head c <> u32 (cq_head c + 1)) then bnot 8 (cq_phase c) else cq_phase c)).
  { unfold taken. change (sq_of (later s k) q) with (sq_of s q). fold p.
    change (cq_of (later s k) p) with c. by destruct p. }
  eexists. split; [|split; [|split; [|split; [|split]]]].
  - unfold nvme_wait. rewrite Hw; try done. intros j Hj. by rewrite Hno.
  - cbn [wd]. by rewrite <-Hn.
  - etransitivity; [exact (f_equal cq_head Hcq)|]. exact Hn.
  - unfold taken. by destruct q.
  - etransitivity; [exact (f_equal cq_phase Hcq)|]. cbn [cq_phase]. rewrite Hph.
    destruct (decide (next_head c <> _)) as [E|E]; case_decide; tauto.
  - intros Hlast s2 E2 Ep.
    assert (Hdead : cq_phase (cq_of s2 p) = 254).
    { rewrite E2. etransitivity; [exact (f_equal cq_phase Hcq)|]. cbn [cq_phase]. rewrite Hph.
      rewrite decide_True; [done|]. tauto. }
    apply wait_dead; rewrite Ep, Hdead; lia.
Qed.

(** [n] submissions. *)
Fixpoint submits {D B V} `{!NvmeDevice D, !PortDevice B, !KernelVm V} (n : nat) (q : qid) : cmd (nst D B V) unit :=
  match n with O => mret tt | S n => _ ← nvme_command_submit q; submits n q end.

(** What a submission does to the queue itself. *)
Lemma submit_queue {D B V} `{!NvmeDevice D, !PortDevice B, !KernelVm V} (s : nst D B V) :
  let q := io_sq (ctl s) in
  exists s1, nvme_command_submit Io s = Ok (tt, s1) /\
    io_sq (ctl s1) = mkSq (sq_doorbell q) (sq_mask q) (sq_entry q) (sq_cq q) (sq_head q)
      (u32 (sq_tail q + 1) .& sq_mask q).
Proof.
  cbv zeta. unfold nvme_command_submit, get_sq, put_sq, set_ctl, ring, reg_write, set_wd. cmd_unfold.
  by eexists.
Qed.

Lemma submits_ok {D B V} `{!NvmeDevice D, !PortDevice B, !KernelVm V} n (s : nst D B V) t mask :
  io_sq (ctl s) = mkSq (sq_doorbell (io_sq (ctl s))) mask (sq_entry (io_sq (ctl s))) Io
    (sq_head (io_sq (ctl s))) t -> mask = 255 -> 0 <= t < 256 ->
  exists s', submits n Io s = Ok (tt, s') /\ sq_tail (io_sq (ctl s')) = (t + Z.of_nat n) mod 256 /\
    sq_entry (io_sq (ctl s')) = sq_entry (io_sq (ctl s)).
Proof.
  intros Hsq -> Ht. revert s t Hsq Ht. induction n as [|n IH]; intros s t Hsq Ht.
  { exists s. split; [done|]. rewrite Hsq. cbn. split; [zlia|done]. }
  cbn [submits]. destruct (submit_queue s) as (s1 & R & Q). erewrite bind_ok by exact R. cbv beta.
  rewrite Hsq in Q. cbn [sq_doorbell sq_mask sq_entry sq_cq sq_head sq_tail] in Q.
  pose proof (ring_next 8 t ltac:(lia) ltac:(zlia)) as Hn. change (2 ^ 8 - 1) with 255 in Hn. rewrite Hn in Q.
  destruct (IH s1 ((t + 1) mod 256)) as (s' & R' & T & E).
  - rewrite Q. done.
  - zlia.
  - exists s'. split; [exact R'|]. split; [rewrite T; zlia|]. by rewrite E, Q.
Qed.

(** The I/O submission queue. Its length is capped as if its entries had the 16 bytes of
    a completion: a controller that offers 256 entries or more gets a queue of 256 in the
    4096 bytes allocated. After [n] submissions on the fresh queue the next command is
    built at [64 * (n mod 256)]: from the 65th on that is past the end of the buffer. *)
Theorem nvme_io_sq_overflows {D B V} `{!NvmeDevice D, !PortDevice B, !KernelVm V} cap (s s1 : nst D B V) n :
  255 <= cap .& 0xFFFF -> nvme_sq_init Io 2 (io_length cap) Io s = Ok (tt, s1) ->
  exists s2, submits n Io s1 = Ok (tt, s2) /\
    forall op data sqe s3, nvme_command_create Io op 0 data s2 = Ok (sqe, s3) ->
      sqe = sq_entry (io_sq (ctl s1)) + SQE * (Z.of_nat n mod 256) /\
      (64 <= Z.of_nat n < 256 -> sq_entry (io_sq (ctl s1)) + 4096 <= sqe).
Proof.
  intros Hcap Hi. assert (Hlen : io_length cap = 256).
  { unfold io_length. change (4096 / CQE) with 256. case_decide; [done|lia]. }
  rewrite Hlen in Hi. unfold nvme_sq_init in Hi.
  cmd_inv Hi. apply assert_inv in E as [_ [= _ ->]].
  cmd_inv Hi. unfold doorbell_of in E. cmd_unfold in E. injection E as <- <-.
  cmd_inv Hi. cmd_inv Hi.
  unfold put_sq, set_ctl in E0. cmd_unfold in E0. injection E0 as _ <-.
  unfold vzero, vaddr, set_wd in Hi. cmd_unfold in Hi. cbn [vm] in Hi.
  destruct (vm_tr (vm s0) a0); [|done]. injection Hi as <-. cbn [ctl io_sq].
  match goal with |- exists s2, submits n Io ?x = _ /\ _ => set (sf := x) end.
  destruct (submits_ok n sf 0 255) as (s3 & R & T & Ent); [reflexivity|done|lia|].
  exists s3. split; [exact R|]. intros op data sqe s4 Hc.
  unfold nvme_command_create in Hc. cmd_inv Hc. apply assert_inv in E0 as [_ [= _ ->]].
  cmd_inv Hc. unfold get_sq in E0. cmd_unfold in E0. injection E0 as <- <-.
  cmd_inv Hc. cmd_inv Hc. cmd_inv Hc. cmd_inv Hc. injection Hc as <- _.
  rewrite T, Ent. cbn. split; [f_equal; f_equal; lia|]. unfold SQE. intros Hn.
  rewrite Z.mod_small by lia. lia.
Qed.

(** ** A controller

    It looks at its submission queue when its doorbell is rung, and carries the command out
    in the next interval: the data of a disk whose byte [a] is [a mod 251] is transferred
    and the completion posted. *)
Record toy := mkToy { ty_h : Z; ty_t : Z; ty_pending : bool }.
(** Its disk: a partition table with one partition, which holds a btrfs superblock. *)
Definition toy_table : list Z :=
  [0x45; 0x46; 0x49; 0x20; 0x50; 0x41; 0x52; 0x54] ++ replicate 72 0 ++ le 4 128 ++
  replicate 428 0 ++ replicate 32 7 ++ le 8 2048 ++ le 8 4095.
Definition toy_disk (a : Z) : Z :=
  if decide (512 <= a < 17408) then default 0 (toy_table !! Z.to_nat (a - 512))
  else if decide (0x110040 <= a < 0x110048) then
    default 0 ([0x5F; 0x42; 0x48; 0x52; 0x66; 0x53; 0x5F; 0x4D] !! Z.to_nat (a - 0x110040))
  else a mod 251.
Definition TOY_SQ : Z := 0x10000.
Definition TOY_CQ : Z := 0x20000.

Definition toy_complete (m : pmem) (d : toy) : pmem * toy :=
  let e := TOY_SQ + SQE * ty_h d in
  let slot := TOY_CQ + CQE * ty_t d in
  let P := ldn 8 m (e + 24) in
  let lba := ldn 4 m (e + 40) + 2 ^ 32 * ldn 4 m (e + 44) in
  let m := fun a => if decide (P <= a < P + 4096) then toy_disk (512 * lba + (a - P)) else m a in
  let m := stn 4 m (slot + 8) (ty_h d + 1) in
  (stn 4 m (slot + 12) (2 ^ 16), mkToy (ty_h d + 1) (ty_t d + 1) false).

#[export] Instance toy_device : NvmeDevice toy := {
  mmio_read off d := if decide (off = REG_CAP) then 0xFF else 0;
  mmio_write off v w :=
    if decide (off = 0x1008) then (w.1, mkToy (ty_h w.2) (ty_t w.2) true) else w;
  elapse ms w := if ty_pending w.2 then toy_complete w.1 w.2 else w
}.

#[export] Instance toy_reads : NvmeDisk toy.
Proof.
  refine {| disk := toy_disk; sqb := TOY_SQ; cqb := TOY_CQ; db_sq := 0x1008; db_cq := 0x100C;
    dev_at d h t := ty_h d = h /\ ty_t d = t |}.
  - intros m [dh dt p] h t P lba e slot [Eh Et] Hh Ht H0 H24 HP Hlba H48 Htag Hap.
    cbn in Eh, Et. subst dh dt. exists 1%nat. split; [lia|].
    cbv zeta. set (w1 := mmio_write 0x1008 (h + 1) (m, mkToy h t p)).
    assert (E0 : w1 = (m, mkToy h t true)) by done.
    set (m0 := fun a => if decide (P <= a < P + 4096) then toy_disk (512 * lba + (a - P)) else m a).
    assert (E1 : Nat.iter 1 (elapse 10) w1 =
      (stn 4 (stn 4 m0 (slot + 8) (h + 1)) (slot + 12) (2 ^ 16), mkToy (h + 1) (t + 1) false)).
    { change (Nat.iter 1 (elapse 10) w1) with (elapse 10 w1). rewrite E0.
      unfold elapse, toy_device. cbn [snd fst ty_pending]. unfold toy_complete. cbn [ty_h ty_t].
      fold e slot. rewrite H24, Hlba. reflexivity. }
    cbv beta. rewrite E1. cbn [fst snd ty_h ty_t].
    assert (Hs : TOY_CQ <= slot /\ slot + 16 <= TOY_CQ + 4096) by (unfold slot, CQE; lia).
    split; [intros [|j] Hj; [rewrite E0; exact Htag|lia]|]. split; [done|]. split; [|split; [|split]].
    + intros a Ha1 Ha2. unfold CQE in Ha2. rewrite !stn_other by lia. unfold m0. by rewrite decide_False.
    + intros i Hi. rewrite !stn_other by lia. unfold m0. rewrite decide_True by lia. f_equal. lia.
    + unfold tag. by rewrite ldn_stn.
    + replace (slot + 14) with (slot + 12 + 2) by lia. by rewrite ldn_stn_at by lia.
  - intros m d h t Hd. done.
Defined.

(** Three blocks read into a buffer at 0x80010, through the bounce page 0x30000. *)
Definition toy_state : nst toy pci_dev unit :=
  mkNst (fun _ => 0, mkToy 0 0 false) (mkPci 0 ∅ []) tt
    (mkNvme 0 0 4 zero_cq zero_sq (mkCq 0x100C 255 TOY_CQ 0 1) (mkSq 0x1008 255 TOY_SQ Io 0 0)
       ∅ 1 0 [] [] []) [0x30000] 1.

Lemma toy_ready : io_ready TOY_SQ TOY_CQ toy_state 0 0.
Proof.
  split.
  - exists 8, 0. done.
  - exists 8. done.
  - done.
  - done.
  - right. done.
  - done.
  - intros t' Ht'. unfold tag. by rewrite (ldn_ext 4 (fun _ => 0)).
Qed.


(** A completion posted at the last slot of the ring. *)
Definition last_slot : nst toy pci_dev unit :=
  mkNst (stn 4 (fun _ => 0) (TOY_CQ + CQE * 255 + 12) (2 ^ 16), mkToy 0 0 false) (mkPci 0 ∅ []) tt
    (mkNvme 0 0 4 zero_cq zero_sq (mkCq 0x100C 255 TOY_CQ 255 1) (mkSq 0x1008 255 TOY_SQ Io 0 0)
       ∅ 1 0 [] [] []) [] 1.

Lemma nvme_wait_receives_witness :
  exists a s', nvme_wait Io last_slot = Ok (a, s') /\
    cq_phase (cq_of s' Io) = 254 /\
    forall s2 : nst toy pci_dev unit, cq_of s2 Io = cq_of s' Io -> sq_cq (sq_of s2 Io) = Io -> exists w, nvme_wait Io s2 = Stop w.
Proof.
  destruct (nvme_wait_receives last_slot Io (TOY_CQ + CQE * 255) 0 8) as (s' & R & _ & _ & _ & P & Dead).
  - lia.
  - reflexivity.
  - vm_compute. split; discriminate.
  - reflexivity.
  - reflexivity.
  - reflexivity.
  - lia.
  - intros j Hj. lia.
  - vm_compute. reflexivity.
  - eexists _, s'. split; [exact R|]. split; [exact P|]. apply Dead. reflexivity.
Defined.

(** A fresh queue of a controller with 65536 entries, 64 commands submitted. *)
Definition fresh_sq : nst toy pci_dev unit :=
  match nvme_sq_init Io 2 (io_length 0xFFFF) Io toy_state with Ok (_, s) => s | Stop _ => toy_state end.

Lemma nvme_io_sq_overflows_witness :
  exists s2, submits 64 Io fresh_sq = Ok (tt, s2) /\
    forall sqe s3, nvme_command_create Io 2 0 0 s2 = Ok (sqe, s3) ->
      sq_entry (io_sq (ctl fresh_sq)) + 4096 <= sqe.
Proof.
  assert (H : nvme_sq_init Io 2 (io_length 0xFFFF) Io toy_state = Ok (tt, fresh_sq)) by reflexivity.
  assert (Hcap : 255 <= 0xFFFF .& 0xFFFF) by (vm_compute; discriminate).
  destruct (nvme_io_sq_overflows 0xFFFF toy_state fresh_sq 64 Hcap H) as (s2 & R & C).
  exists s2. split; [exact R|].
  intros sqe s3 Hc. destruct (C 2 0 sqe s3 Hc) as [_ L]. apply L. lia.
Defined.
