(* ===== verification/Interrupts.v ===== *)
(** Descriptor tables and interrupt dispatch: cpu/gdt.c, cpu/cpu.c, int/idt.c, int/isr.c.

    The tables are lists of records with the fields of the source. The assembly entry points
    are the argument [isr_handle]. *)
From S2P Require Import Prelude Printf.

(** ** cpu/gdt.c *)
Definition GDT_ENTRIES : Z := 5.
Record gdt_entry_t := mkGdt {
  limit_low : Z; base_low : Z; base_mid : Z; g_flags : Z; granularity : Z; base_high : Z }.
(** [gdt_gdtr_t] and [idtr_t]. *)
Record table_reg := mkReg { tr_limit : Z; tr_base : Z }.
#[export] Instance gdt_entry_dec : EqDecision gdt_entry_t.
Proof. solve_decision. Defined.

(** [cpu_t]; [lapic_addr] is the field int/apic.c and driver/acpi/tables.c use. *)
Record cpu_t := mkCpu {
  self : Z; gdt : list gdt_entry_t; gdtr : table_reg;
  apic_lint_nmi0 : bool; apic_lint_nmi1 : bool; apic_timer_ticks_per_ms : Z;
  apic_id : Z; acpi_id : Z; lapic_addr : Z }.

Definition zero_gdt : list gdt_entry_t := replicate 5 (mkGdt 0 0 0 0 0 0).
Definition zero_cpu : cpu_t := mkCpu 0 zero_gdt (mkReg 0 0) false false 0 0 0 0.

Definition set_gdt (c : cpu_t) (g : list gdt_entry_t) (r : table_reg) : cpu_t :=
  mkCpu (self c) g r (apic_lint_nmi0 c) (apic_lint_nmi1 c) (apic_timer_ticks_per_ms c)
    (apic_id c) (acpi_id c) (lapic_addr c).

#[export] Instance gdt_inhabited : Inhabited gdt_entry_t := populate (mkGdt 0 0 0 0 0 0).
Definition gdt_set (sel flags gran : Z) (c : cpu_t) : cpu_t :=
  let e := gdt c !!! Z.to_nat sel in
  set_gdt c (<[Z.to_nat sel := mkGdt 0xFFFF (base_low e) (base_mid e) flags
    (u8 (u8 (gran ≪ 4) .| 0x0F)) (base_high e)]> (gdt c)) (gdtr c).

(** [gdt_at] is the address of [cpu->gdt]. *)
Definition gdt_init (gdt_at : Z) (c : cpu_t) : cpu_t :=
  let c := set_gdt c zero_gdt (gdtr c) in
  let c := gdt_set 1 0x98 2 c in
  let c := gdt_set 2 0x92 0 c in
  let c := gdt_set 3 0xF8 0 c in
  let c := gdt_set 4 0xF2 2 c in
  set_gdt c (gdt c) (mkReg (u16 (8 * GDT_ENTRIES - 1)) gdt_at).

(** ** int/idt.c *)
Record idt_entry := mkIdt {
  offset_low : Z; selector : Z; ist : Z; i_flags : Z; offset_mid : Z; offset_high : Z; zero : Z }.
#[export] Instance idt_inhabited : Inhabited idt_entry := populate (mkIdt 0 0 0 0 0 0 0).

Definition idt_set (entry handler flags : Z) (t : list idt_entry) : list idt_entry :=
  let e := t !!! Z.to_nat entry in
  <[Z.to_nat entry := mkIdt (handler .& 0xFFFF) 0x08 (ist e) flags
     ((handler ≫ 16) .& 0xFFFF) (u32 ((handler ≫ 32) .& 0xFFFFFFFF)) (zero e)]> t.

(** The vectors of the sequence of calls: the exceptions, 24 lines, and the local APIC's. *)
Definition vectors : list Z := seqZ 0 56 ++ [0xFD; 0xFE; 0xFF].

Definition idt_init (isr_handle : Z -> Z) (idt_at : Z) : list idt_entry * table_reg :=
  (foldl (fun t v => idt_set v (isr_handle v) 0x8E t) (replicate 256 (mkIdt 0 0 0 0 0 0 0)) vectors,
   mkReg (16 * 256 - 1) idt_at).

(** ** cpu/cpu.c *)
Record boot_cpu := mkBoot { bsp : cpu_t; msrs : gmap Z Z; idt : list idt_entry; idtr : table_reg }.

Definition cpu_bsp_init (bsp_at gdt_at idt_at : Z) (isr_handle : Z -> Z) (s : boot_cpu) : boot_cpu :=
  let c := mkCpu bsp_at (gdt zero_cpu) (gdtr zero_cpu) false false 0 0 0 0 in
  let m := <[MSR_GS_KERNEL_BASE := bsp_at]> (<[MSR_GS_BASE := bsp_at]> (msrs s)) in
  let '(t, r) := idt_init isr_handle idt_at in
  mkBoot (gdt_init gdt_at c) m t r.

(** ** int/isr.c *)

(** [cpu_state_t]: what the dispatcher looks at. *)
Record cpu_state_t := mkState { st_id : Z; st_error : Z; st_rip : Z; st_rsp : Z }.

Definition ascii_of (s : string) : list Z := (fun c => Z.of_N (Ascii.N_of_ascii c)) <$> String.list_ascii_of_string s.

(** [exception_type]: 31 entries, the ones not named [NULL]. *)
Definition exception_type : list (option string) := [
  Some "Divide-by-zero Error"; Some "Debug"; Some "Non-maskable Interrupt"; Some "Breakpoint";
  Some "Overflow"; Some "Bound Range Exceeded"; Some "Invalid Opcode"; Some "Device Not Available";
  Some "Double Fault"; Some "Coprocessor Segment Overrun"; Some "Invalid TSS"; Some "Segment Not Present";
  Some "Stack-Segment Fault"; Some "General Protection Fault"; Some "Page Fault"; None;
  Some "x87 Floating-Point Exception"; Some "Alignment Check"; Some "Machine Check";
  Some "SIMD Floating-Point Exception"; Some "Virtualization Exception"; None; None; None; None;
  None; None; None; None; None; Some "Security Exception"]%string.

(** A line of text: the newline added. *)
Definition line (s : string) : list Z := ascii_of s ++ [10].
Definition exception_format : list Z := line "%s (num = %lu, error = %#010lx) @ %#018lx (%#018lx)".
Definition registers_format : list Z := line "cr0 = %#018lx, cr2 = %#018lx, cr3 = %#018lx, cr4 = %#018lx".

Section isr.
(** [X] is the machine the handlers run on; [printf], [apic_ack], [debug_trace] and the
    control registers are the other components'. *)
Context {X : Type} (printf : list Z -> list arg -> cmd X Z) (apic_ack debug_trace : cmd X unit)
  (cr_read : X -> list Z).

Abbreviation handler := (cpu_state_t -> cmd X unit).
(** The table of handlers next to the machine. *)
Record isr_st := mkIsr { handlers : gmap Z handler; mach : X }.

Definition on_mach {A} (c : cmd X A) : cmd isr_st A := fun s =>
  match c (mach s) with Ok (a, x) => Ok (a, mkIsr (handlers s) x) | Stop w => Stop w end.

Definition isr_register (n : Z) (addr : option handler) : cmd isr_st unit :=
  match addr with
  | Some h => if decide (n < 0x100) then modify (fun s => mkIsr (<[n := h]> (handlers s)) (mach s)) else mret tt
  | None => mret tt
  end.

Definition isr_unregister (n : Z) : cmd isr_st unit :=
  if decide (n < 0x100) then modify (fun s => mkIsr (delete n (handlers s)) (mach s)) else mret tt.

(** The name printed for an exception: entry 31 is past the end of the table, and printing a
    [NULL] entry faults. *)
Definition exception_name (id : Z) : cmd isr_st (list Z) :=
  match exception_type !! Z.to_nat id with
  | Some (Some n) => mret (ascii_of n)
  | Some None => halt (Faulted 0)
  | None => halt (Faulted id)
  end.

Definition isr_dispatch (st : cpu_state_t) : cmd isr_st unit :=
  _ ← (if decide (st_id st < 0x20) then
         name ← exception_name (st_id st);
         _ ← on_mach (printf exception_format
           [Str name; Num (st_id st); Num (st_error st); Num (st_rip st); Num (st_rsp st)]);
         if decide (st_id st = 13 \/ st_id st = 14) then
           cr ← gets (fun s => cr_read (mach s));
           _ ← on_mach (printf registers_format (Num <$> cr)); mret tt
         else mret tt
       else mret tt);
  s ← get_st;
  _ ← (if decide (st_id st < 256) then mret tt else halt (Faulted (st_id st)));
  _ ← match handlers s !! st_id st with
      | Some h => on_mach (h st)
      | None =>
          _ ← on_mach debug_trace;
          _ ← on_mach (printf (line "no handler for interrupt %zu") [Num (st_id st)]);
          halt (Panicked "no handler for interrupt")
      end;
  if decide (0x20 <= st_id st) then on_mach apic_ack else mret tt.
End isr.

(** ** What the processor makes of the tables *)

Definition gate_target (e : idt_entry) : Z := offset_low e + offset_mid e * 2 ^ 16 + offset_high e * 2 ^ 32.
Definition gate_present (e : idt_entry) : bool := Z.testbit (i_flags e) 7.
(** The L bit of a code segment: 64-bit code. *)
Definition long_mode (e : gdt_entry_t) : bool := Z.testbit (granularity e) 5.
Definition seg_dpl (e : gdt_entry_t) : Z := (g_flags e ≫ 5) .& 3.
Definition is_code (e : gdt_entry_t) : bool := Z.testbit (g_flags e) 3.

Definition gate (h : Z) : idt_entry := mkIdt (h .& 0xFFFF) 0x08 0 0x8E
  ((h ≫ 16) .& 0xFFFF) (u32 ((h ≫ 32) .& 0xFFFFFFFF)) 0.

Lemma gate_target_ok h : fits 64 h -> gate_target (gate h) = h.
Proof.
  intros Hh. unfold gate_target, gate. cbn [offset_low offset_mid offset_high].
  change 0xFFFF with (Z.ones 16). change 0xFFFFFFFF with (Z.ones 32).
  rewrite !land_low, !Z.shiftr_div_pow2 by lia. zlia.
Qed.

(** The entries written by a sequence of calls, on a table cleared before. *)
Lemma idt_sets hd l t v :
  (forall w, ist (t !!! w) = 0 /\ zero (t !!! w) = 0) -> length t = 256%nat ->
  Forall (fun x => 0 <= x < 256) l -> 0 <= v < 256 ->
  let t' := foldl (fun t v => idt_set v (hd v) 0x8E t) t l in
  t' !!! Z.to_nat v = if decide (v ∈ l) then gate (hd v) else t !!! Z.to_nat v.
Proof.
  cbv zeta. revert t. induction l as [|x l IH]; intros t Hz Hlen Hl Hv; cbn [foldl]; [done|].
  apply Forall_cons in Hl as [Hx Hl].
  assert (Hset : idt_set x (hd x) 0x8E t = <[Z.to_nat x := gate (hd x)]> t).
  { unfold idt_set, gate. by rewrite (proj1 (Hz _)), (proj2 (Hz _)). }
  rewrite Hset, IH; [| |by rewrite length_insert|done|done].
  - destruct (decide (v ∈ l)) as [Hin|Hin].
    + by rewrite decide_True by set_solver.
    + destruct (decide (v = x)) as [->|Hne].
      * rewrite decide_True by set_solver. apply list_lookup_total_insert_eq. lia.
      * rewrite decide_False by set_solver. apply list_lookup_total_insert_ne. lia.
  - intros w. destruct (decide (w = Z.to_nat x)) as [->|Hne].
    + by rewrite list_lookup_total_insert_eq by lia.
    + by rewrite list_lookup_total_insert_ne by done.
Qed.

(** ** Properties *)

(** The boot processor's tables. After [cpu_bsp_init] each of the 59 vectors the kernel
    handles has a present ring-0 interrupt gate whose target is its entry point, every other
    gate is absent, and the selector of the gates is the present 64-bit ring-0 code segment;
    the registers cover exactly the tables. The user code segment, though, is not 64-bit:
    the bit is set on the user data segment instead. *)
Theorem cpu_bsp_init_tables bsp_at gdt_at idt_at isr_handle s :
  (forall v, fits 64 (isr_handle v)) ->
  let s' := cpu_bsp_init bsp_at gdt_at idt_at isr_handle s in
  (forall v, 0 <= v < 256 -> let e := idt s' !!! Z.to_nat v in
    if decide (v ∈ vectors)
    then gate_present e = true /\ gate_target e = isr_handle v /\ selector e = 8 /\ i_flags e = 0x8E
    else gate_present e = false) /\
  idtr s' = mkReg (16 * 256 - 1) idt_at /\ gdtr (bsp s') = mkReg (8 * 5 - 1) gdt_at /\
  (let seg i := gdt (bsp s') !!! i in
   is_code (seg 1%nat) = true /\ seg_dpl (seg 1%nat) = 0 /\ long_mode (seg 1%nat) = true /\
   is_code (seg 3%nat) = true /\ seg_dpl (seg 3%nat) = 3 /\ long_mode (seg 3%nat) = false /\
   is_code (seg 4%nat) = false /\ long_mode (seg 4%nat) = true) /\
  msrs s' !! MSR_GS_BASE = Some bsp_at.
Proof.
  intros Hh s'. split; [|split; [done|split; [done|split; [done|]]]].
  - intros v Hv e.
    assert (E : e = if decide (v ∈ vectors) then gate (isr_handle v)
                    else (replicate 256 (mkIdt 0 0 0 0 0 0 0)) !!! Z.to_nat v).
    { apply (idt_sets isr_handle); [|done| |done].
      - intros w. destruct (decide (w < 256)%nat).
        + by rewrite lookup_total_replicate_2.
        + by rewrite list_lookup_total_alt, lookup_ge_None_2 by (rewrite length_replicate; lia).
      - apply Forall_app. split; [apply Forall_seqZ; lia|]. repeat constructor; lia. }
    rewrite E. case_decide.
    + split; [done|]. split; [by apply gate_target_ok|]. done.
    + by rewrite lookup_total_replicate_2 by lia.
  - unfold s', cpu_bsp_init. cbn [msrs idt_init]. by rewrite lookup_insert_ne, lookup_insert_eq.
Qed.

Lemma cpu_bsp_init_tables_witness :
  let s' := cpu_bsp_init 0x1000 0x1008 0x2000 (fun v => 0xFFFF800000100000 + 16 * u8 v) (mkBoot zero_cpu ∅ [] (mkReg 0 0)) in
  gate_target (idt s' !!! 14%nat) = 0xFFFF8000001000E0 /\ gate_present (idt s' !!! 60%nat) = false.
Proof.
  destruct (cpu_bsp_init_tables 0x1000 0x1008 0x2000 (fun v => 0xFFFF800000100000 + 16 * u8 v)
    (mkBoot zero_cpu ∅ [] (mkReg 0 0))) as [H _].
  { intros v. pose proof (wrap_fits 8 v). unfold fits in *. lia. }
  split.
  - destruct (H 14 ltac:(lia)) as (_ & T & _). exact T.
  - exact (H 60 ltac:(lia)).
Defined.

Section dispatch.
Context {X : Type} (printf : list Z -> list arg -> cmd X Z) (apic_ack debug_trace : cmd X unit)
  (cr_read : X -> list Z).
Abbreviation dispatch := (isr_dispatch printf apic_ack debug_trace cr_read).

(** C34: dispatch. An interrupt of vector 0x20 or above with a handler runs it and is then
    acknowledged, exactly once; an exception with a name and a handler is reported, runs
    the handler and is not acknowledged; without a handler the dispatcher never returns; and
    for the exceptions whose name is missing (15, 21 to 29, and 31 past the end of the table
    of names) it faults before it looks for a handler. *)
Theorem isr_dispatch_spec (st : cpu_state_t) (s : isr_st (X := X)) :
  (forall h : cpu_state_t -> cmd X unit, 0x20 <= st_id st < 256 -> handlers s !! st_id st = Some h ->
    dispatch st s = match h st (mach s) with
      | Ok (_, x) => match apic_ack x with Ok (_, x) => Ok (tt, mkIsr (handlers s) x) | Stop w => Stop w end
      | Stop w => Stop w end) /\
  (forall (h : cpu_state_t -> cmd X unit) n x1 r, 0 <= st_id st < 0x20 -> st_id st <> 13 -> st_id st <> 14 ->
    handlers s !! st_id st = Some h ->
    exception_type !! Z.to_nat (st_id st) = Some (Some n) ->
    printf exception_format [Str (ascii_of n); Num (st_id st); Num (st_error st); Num (st_rip st); Num (st_rsp st)]
      (mach s) = Ok (r, x1) ->
    dispatch st s = match h st x1 with Ok (_, x) => Ok (tt, mkIsr (handlers s) x) | Stop w => Stop w end) /\
  (handlers s !! st_id st = None -> exists w, dispatch st s = Stop w) /\
  (0 <= st_id st -> st_id st ∈ [15; 21; 22; 23; 24; 25; 26; 27; 28; 29; 31] ->
    exists a, dispatch st s = Stop (Faulted a)).
Proof.
  split; [|split; [|split]].
  - intros h Hid Hh. unfold isr_dispatch. rewrite (decide_False (P := st_id st < 32)) by lia.
    erewrite bind_ok by done. cbv beta. erewrite bind_ok by done. cbv beta.
    rewrite (decide_True (P := st_id st < 256)) by lia. erewrite bind_ok by done. cbv beta.
    rewrite Hh.
    rewrite (decide_True (P := 32 <= st_id st)) by lia. unfold on_mach. cmd_unfold.
    destruct (h st (mach s)) as [[[] x]|w]; [|done]. cbn. by destruct (apic_ack x) as [[[] y]|w].
  - intros h n x1 r Hid H13 H14 Hh Hn Hp. unfold isr_dispatch. rewrite (decide_True (P := st_id st < 32)) by lia.
    rewrite (decide_False (P := st_id st = 13 \/ st_id st = 14)) by lia.
    erewrite bind_ok.
    2:{ unfold exception_name. rewrite Hn. erewrite bind_ok by done. cbv beta.
        erewrite bind_ok by (unfold on_mach; rewrite Hp; reflexivity). reflexivity. }
    cbv beta. erewrite bind_ok by done. cbv beta. rewrite (decide_True (P := st_id st < 256)) by lia.
    erewrite bind_ok by done. cbv beta. cbn [handlers]. rewrite Hh.
    rewrite (decide_False (P := 32 <= st_id st)) by lia.
    unfold on_mach. cmd_unfold. cbn [mach handlers]. by destruct (h st x1) as [[[] x]|w].
  - intros Hh. unfold isr_dispatch.
    match goal with |- exists w, (?c ≫= _) s = _ => destruct (c s) as [[[] s1]|w] eqn:E end;
      [|eexists; by apply bind_stop].
    erewrite bind_ok by exact E. cbv beta. erewrite bind_ok by done. cbv beta.
    assert (Hs1 : handlers s1 = handlers s).
    { revert E. destruct (decide (st_id st < 32)); [|by intros [= <-]].
      intros E. apply bind_inv in E as (nm & s2 & E1 & E).
      assert (s2 = s) as ->.
      { unfold exception_name in E1. destruct (exception_type !! _) as [[]|]; [|done|done]. by injection E1. }
      apply bind_inv in E as (r & s3 & E2 & E). unfold on_mach in E2.
      destruct (printf _ _ (mach s)) as [[a x]|]; [|done]. injection E2 as <- <-.
      destruct (decide _); [|by injection E as <-].
      apply bind_inv in E as (cr & s4 & E3 & E). cbv in E3. injection E3 as <- <-.
      apply bind_inv in E as (r2 & s5 & E4 & E). unfold on_mach in E4. cbn [mach] in E4.
      destruct (printf _ _ x) as [[a2 x2]|]; [|done]. injection E4 as <- <-. by injection E as <-. }
    destruct (decide (st_id st < 256)); [|eexists; by apply bind_stop].
    erewrite bind_ok by done. cbv beta. rewrite Hs1, Hh.
    match goal with |- exists w, (?c ≫= _) s1 = _ => destruct (c s1) as [[[] s2]|w] eqn:E2 end;
      [|eexists; by apply bind_stop].
    exfalso. apply bind_inv in E2 as (? & ? & ? & E2). apply bind_inv in E2 as (? & ? & ? & E2). done.
  - intros Hid Hin. unfold isr_dispatch.
    assert (Hn : st_id st < 32 /\ (exception_type !! Z.to_nat (st_id st) = Some None \/
      exception_type !! Z.to_nat (st_id st) = None)).
    { rewrite !elem_of_cons, elem_of_nil in Hin.
      repeat destruct Hin as [->|Hin]; try done; (split; [lia|]); (by left) || (by right). }
    destruct Hn as [Hlt Hn]. rewrite (decide_True (P := st_id st < 32)) by done.
    destruct Hn as [Hn|Hn]; eexists; apply bind_stop; apply bind_stop; unfold exception_name; by rewrite Hn.
Qed.
End dispatch.

(** A machine that counts what is done to it. *)
Lemma isr_dispatch_spec_witness :
  let h : cpu_state_t -> cmd (list Z) unit := fun st l => Ok (tt, l ++ [st_id st]) in
  isr_dispatch (fun _ _ => mret 0) (modify (fun l => l ++ [-1])) (mret tt) (fun _ => [])
    (mkState 0x21 0 0 0) (mkIsr {[ 0x21 := h ]} []) = Ok (tt, mkIsr {[ 0x21 := h ]} [0x21; -1]).
Proof.
  intros h.
  destruct (isr_dispatch_spec (fun _ _ => mret 0) (modify (fun l => l ++ [-1])) (mret tt) (fun _ => [])
    (mkState 0x21 0 0 0) (mkIsr {[ 0x21 := h ]} [])) as [H _].
  rewrite (H h); [reflexivity|cbn; lia|]. apply lookup_singleton_eq.
Defined.
