(* ===== verification/Apic.v ===== *)
(** The interrupt controllers of int/apic.c and int/ioapic.c, and the table that describes
    them (acpi_parse_madt and acpi_tables_init of driver/acpi/tables.c). *)
From S2P Require Import Prelude Bytes Kvm Ports Printf Interrupts.

Definition LVT_TIMER_INT : Z := 0xFD.
Definition LVT_ERROR_INT : Z := 0xFE.
Definition LVT_MASKED : Z := 0x10000.
Definition LVT_TYPE_NMI : Z := 0x400.
Definition LVT_TIMER_PERIODIC : Z := 0x20000.
Definition MSR_APIC_BASE : Z := 0x1B.
Definition APIC_BASE_BSP : Z := 0x100.
Definition APIC_BASE_ENABLED : Z := 0x800.
Definition APIC_TPR : Z := 0x08.
Definition APIC_EOI : Z := 0x0B.
Definition APIC_SVR : Z := 0x0F.
Definition APIC_ESR : Z := 0x28.
Definition APIC_LVT_TIMER : Z := 0x32.
Definition APIC_LVT_LINT0 : Z := 0x35.
Definition APIC_LVT_LINT1 : Z := 0x36.
Definition APIC_LVT_ERROR : Z := 0x37.
Definition APIC_TIMER_ICR : Z := 0x38.
Definition APIC_TIMER_CCR : Z := 0x39.
Definition APIC_TIMER_DCR : Z := 0x3E.
Definition DCR_16 : Z := 0x3.
Definition DCR_128 : Z := 0xA.
Definition SVR_ENABLED : Z := 0x100.

Definition IOAPIC_REDTBL : Z := 0x10.
Definition REDTBL_TRIGGER_LEVEL : Z := 0x8000.
Definition REDTBL_ACTIVE_HIGH : Z := 0x2000.
Definition REDTBL_DESTMODE_PHYSICAL : Z := 0.
Definition REDTBL_DELMODE_FIXED : Z := 0.

(** [ioapic_t]; the list of them is a sequence, appended to at its end. *)
Record ioapic_t := mkIoapic { io_id : Z; io_reg : Z; io_val : Z; irq_base : Z; irqs : Z }.

Record ast {V M : Type} := mkAst {
  avm : V; hw : M; acpu : cpu_t; amsr : gmap Z Z; ioapic_list : list ioapic_t; apic_mmio : Z }.
Arguments ast V M : clear implicits.
Arguments mkAst {V M} _ _ _ _ _ _.

Section apic.
Context {V M : Type} `{!KernelVm V, !PortDevice M, !Mmio M}.
Abbreviation A := (cmd (ast V M)).

Definition on_avm {B} (c : cmd V B) : A B := fun s =>
  match c (avm s) with
  | Ok (b, v) => Ok (b, mkAst v (hw s) (acpu s) (amsr s) (ioapic_list s) (apic_mmio s))
  | Stop w => Stop w
  end.
Definition on_hw {B} (c : cmd M B) : A B := fun s =>
  match c (hw s) with
  | Ok (b, m) => Ok (b, mkAst (avm s) m (acpu s) (amsr s) (ioapic_list s) (apic_mmio s))
  | Stop w => Stop w
  end.
Definition set_cpu (f : cpu_t -> cpu_t) : A unit := modify (fun s =>
  mkAst (avm s) (hw s) (f (acpu s)) (amsr s) (ioapic_list s) (apic_mmio s)).
Definition msr_read (m : Z) : A Z := gets (fun s => default 0 (amsr s !! m)).
Definition msr_write (m v : Z) : A unit := modify (fun s =>
  mkAst (avm s) (hw s) (acpu s) (<[m := v]> (amsr s)) (ioapic_list s) (apic_mmio s)).

(** A 32-bit register access at a virtual address. *)
Definition reg_addr (va : Z) : A Z := fun s =>
  match vm_tr (avm s) va with Some pa => Ok (pa, s) | None => Stop (Faulted va) end.
Definition rd32 (va : Z) : A Z :=
  pa ← reg_addr va; on_hw (fun m => let '(v, m) := mmio_rd pa m in Ok (u32 v, m)).
Definition wr32 (va v : Z) : A unit := pa ← reg_addr va; on_hw (modify (mmio_wr pa (u32 v))).

(** *** ioapic.c *)
Definition ioapic_read (apic : ioapic_t) (reg : Z) : A Z :=
  _ ← wr32 (io_reg apic) reg; rd32 (io_val apic).
Definition ioapic_write (apic : ioapic_t) (reg v : Z) : A unit :=
  _ ← wr32 (io_reg apic) reg; wr32 (io_val apic) v.

(** [malloc] is assumed to succeed. *)
Definition ioapic_init (id addr irq_base_ : Z) : A unit :=
  mmio_addr ← on_avm (vm_alloc 1);
  _ ← on_avm (vm_map addr mmio_addr 1 (0x01 .| 0x02 .| 0x8000000000000000));
  let reg := u64 (mmio_addr + (addr .& 0xFFF)) in
  let io := mkIoapic id reg (u64 (reg + 16)) irq_base_ 0 in
  v ← ioapic_read io 1;
  modify (fun s => mkAst (avm s) (hw s) (acpu s) (amsr s)
    (ioapic_list s ++ [mkIoapic id reg (u64 (reg + 16)) irq_base_ (((v ≫ 16) .& 0xFF) + 1)]) (apic_mmio s)).

Definition ioapic_route (from flags to : Z) : A unit :=
  s ← get_st;
  match ioapic_list s with
  | [] => halt (Faulted 0)
  | io :: _ =>
      _ ← assert_c "ioapic->irq_base <= from && ioapic->irq_base + ioapic->irqs > from"
            (bool_decide (irq_base io <= from /\ from < u64 (irq_base io + irqs io)));
      let redtbl_entry := (to .& 0xFF) .| flags in
      _ ← ioapic_write io (u32 (IOAPIC_REDTBL + (from ≪ 1) + 1)) ((redtbl_entry ≫ 32) .& 0xFFFFFFFF);
      ioapic_write io (u32 (IOAPIC_REDTBL + (from ≪ 1))) (redtbl_entry .& 0xFFFFFFFF)
  end.

(** *** apic.c *)
Definition apic_read (reg : Z) : A Z := s ← get_st; rd32 (u64 (apic_mmio s + 4 * (reg ≪ 2))).
Definition apic_write (reg v : Z) : A unit := s ← get_st; wr32 (u64 (apic_mmio s + 4 * (reg ≪ 2))) v.
Definition apic_ack : A unit := apic_write APIC_EOI 0.

Definition set_ticks (t : Z) (c : cpu_t) : cpu_t :=
  mkCpu (self c) (gdt c) (gdtr c) (apic_lint_nmi0 c) (apic_lint_nmi1 c) t (apic_id c) (acpi_id c) (lapic_addr c).

(** [rounds] and [fuel] are the bounds of [pit_wait]. *)
Definition apic_enable (rounds fuel : nat) : A unit :=
  mmio ← on_avm (vm_alloc 1);
  _ ← modify (fun s => mkAst (avm s) (hw s) (acpu s) (amsr s) (ioapic_list s) mmio);
  cpu ← gets acpu;
  _ ← on_avm (vm_map (lapic_addr cpu .& bnot 64 0xFFF) mmio 1 (0x01 .| 0x02 .| 0x8000000000000000));
  base ← msr_read MSR_APIC_BASE;
  _ ← msr_write MSR_APIC_BASE ((base .& APIC_BASE_BSP) .| (lapic_addr cpu .& 0xFFFFF000) .| APIC_BASE_ENABLED);
  _ ← apic_write APIC_SVR 0;
  _ ← apic_write APIC_SVR (SVR_ENABLED .| 0xFF);
  _ ← apic_write APIC_ESR 0;
  _ ← apic_write APIC_ESR 0;
  _ ← apic_write APIC_LVT_LINT0 (if apic_lint_nmi0 cpu then LVT_TYPE_NMI else LVT_MASKED);
  _ ← apic_write APIC_LVT_LINT1 (if apic_lint_nmi1 cpu then LVT_TYPE_NMI else LVT_MASKED);
  _ ← apic_write APIC_LVT_TIMER LVT_MASKED;
  _ ← apic_write APIC_LVT_ERROR LVT_ERROR_INT;
  _ ← apic_write APIC_TPR 0;
  _ ← apic_ack;
  _ ← apic_write APIC_LVT_TIMER LVT_MASKED;
  _ ← apic_write APIC_TIMER_ICR 0xFFFFFFFF;
  _ ← apic_write APIC_TIMER_DCR DCR_128;
  _ ← on_hw (pit_wait rounds fuel 10);
  ccr ← apic_read APIC_TIMER_CCR;
  set_cpu (set_ticks (u32 (u32 (0xFFFFFFFF - ccr) * 128) / 10)).

(** [handlers] is the table of file Interrupts. *)
Definition apic_timer_monotonic (ms : Z) (handler : option (cpu_state_t -> A unit)) :
    cmd (isr_st (X := ast V M)) unit :=
  _ ← isr_register LVT_TIMER_INT handler;
  on_mach (
    cpu ← gets acpu;
    _ ← apic_write APIC_LVT_TIMER (LVT_TIMER_PERIODIC .| LVT_TIMER_INT);
    _ ← apic_write APIC_TIMER_ICR (u32 (ms * apic_timer_ticks_per_ms cpu) / 16);
    apic_write APIC_TIMER_DCR DCR_16).

(** *** driver/acpi/tables.c *)

(** The constants and the FADT field that come from ACPICA. *)
Record acpica := mkAcpica {
  PCAT_COMPAT : Z; POLARITY_MASK : Z; POLARITY_CONFORMS : Z; POLARITY_ACTIVE_HIGH : Z;
  TRIGGER_MASK : Z; TRIGGER_LEVEL : Z; sci_interrupt : Z }.

Definition MADT_TYPE_LAPIC : Z := 0.
Definition MADT_TYPE_IOAPIC : Z := 1.
Definition MADT_TYPE_INTR : Z := 2.
Definition MADT_TYPE_NMI : Z := 3.
Definition MADT_TYPE_LNMI : Z := 4.
Definition MADT_TYPE_LAPIC_ADDR : Z := 5.

Definition set_lapic_addr (a : Z) (c : cpu_t) : cpu_t :=
  mkCpu (self c) (gdt c) (gdtr c) (apic_lint_nmi0 c) (apic_lint_nmi1 c) (apic_timer_ticks_per_ms c)
    (apic_id c) (acpi_id c) a.
Definition set_ids (apic id : Z) (c : cpu_t) : cpu_t :=
  mkCpu (self c) (gdt c) (gdtr c) (apic_lint_nmi0 c) (apic_lint_nmi1 c) (apic_timer_ticks_per_ms c)
    apic id (lapic_addr c).
Definition set_lint (lint : Z) (c : cpu_t) : cpu_t :=
  mkCpu (self c) (gdt c) (gdtr c) (if decide (lint = 0) then true else apic_lint_nmi0 c)
    (if decide (lint = 0) then apic_lint_nmi1 c else true) (apic_timer_ticks_per_ms c)
    (apic_id c) (acpi_id c) (lapic_addr c).

Section tables.
(** The tables lie in memory [m], by address; [print] is the console. *)
Variables (k : acpica) (m : pmem) (print : list Z -> list arg -> A unit).

(** One entry in the first pass; whether the boot processor's has been seen. *)
Definition madt_entry1 (ptr : Z) (bsp_apic : bool) : A bool :=
  let type := ldn 1 m ptr in
  if decide (type = MADT_TYPE_LAPIC) then
    if decide (ldn 4 m (ptr + 4) .& 1 <> 0) then
      if bsp_apic then mret true
      else _ ← set_cpu (set_ids (ldn 1 m (ptr + 3)) (ldn 1 m (ptr + 2))); mret true
    else mret bsp_apic
  else if decide (type = MADT_TYPE_IOAPIC) then
    _ ← ioapic_init (ldn 1 m (ptr + 2)) (ldn 4 m (ptr + 4)) (ldn 4 m (ptr + 8)); mret bsp_apic
  else if decide (type = MADT_TYPE_NMI) then _ ← print (line "MADT_TYPE_NMI") []; mret bsp_apic
  else if decide (type = MADT_TYPE_LNMI) then
    let id := ldn 1 m (ptr + 2) in
    _ ← (if decide (id = 0 \/ id = 0xFF) then set_cpu (set_lint (ldn 1 m (ptr + 5))) else mret tt);
    mret bsp_apic
  else if decide (type = MADT_TYPE_LAPIC_ADDR) then
    _ ← set_cpu (set_lapic_addr (ldn 8 m (ptr + 4))); mret bsp_apic
  else if decide (type = MADT_TYPE_INTR) then mret bsp_apic
  else _ ← print (line "[madt]	unknown type %#x") [Num type]; mret bsp_apic.

Fixpoint madt_pass1 (fuel : nat) (ptr end_ : Z) (bsp_apic : bool) : A unit :=
  match fuel with
  | O => halt OutOfFuel
  | S fuel =>
      if decide (ptr < end_) then
        bsp_apic ← madt_entry1 ptr bsp_apic;
        madt_pass1 fuel (ptr + ldn 1 m (ptr + 1)) end_ bsp_apic
      else mret tt
  end.

(** The redirection flags of an interrupt source override. *)
Definition override_flags (gsi flags : Z) : Z :=
  let f := REDTBL_DESTMODE_PHYSICAL .| REDTBL_DELMODE_FIXED in
  let f := if decide (flags .& POLARITY_MASK k = POLARITY_ACTIVE_HIGH k \/
                      flags .& POLARITY_MASK k = POLARITY_CONFORMS k)
           then if decide (gsi <> sci_interrupt k) then f .| REDTBL_ACTIVE_HIGH else f
           else f in
  if decide (flags .& TRIGGER_MASK k = TRIGGER_LEVEL k \/ gsi = sci_interrupt k)
  then f .| REDTBL_TRIGGER_LEVEL else f.

Definition madt_entry2 (ptr : Z) : A unit :=
  if decide (ldn 1 m ptr = MADT_TYPE_INTR) then
    let irq := ldn 1 m (ptr + 3) in
    let gsi := ldn 4 m (ptr + 4) in
    let flags := ldn 2 m (ptr + 8) in
    ioapic_route irq (override_flags gsi flags) (u32 (gsi + 32))
  else mret tt.

Fixpoint madt_pass2 (fuel : nat) (ptr end_ : Z) : A unit :=
  match fuel with
  | O => halt OutOfFuel
  | S fuel =>
      if decide (ptr < end_) then
        let len := ldn 1 m (ptr + 1) in
        if decide (len = 0) then mret tt else
        _ ← madt_entry2 ptr; madt_pass2 fuel (ptr + len) end_
      else mret tt
  end.

Definition acpi_parse_madt (fuel : nat) (madt : Z) : A unit :=
  let end_ := madt + ldn 4 m (madt + 4) in
  _ ← set_cpu (set_lapic_addr (ldn 4 m (madt + 36)));
  let flags := ldn 4 m (madt + 40) in
  let entries := madt + 44 in
  _ ← (if decide (flags .& PCAT_COMPAT k <> 0) then on_hw pic_init else mret tt);
  _ ← madt_pass1 fuel entries end_ false;
  madt_pass2 fuel entries end_.

(** The sum of the [n] bytes at [a], on 8 bits. *)
Fixpoint checksum (n : nat) (a : Z) (sum : Z) : Z :=
  match n with O => sum | S n => checksum n (a + 1) (u8 (sum + ldn 1 m a)) end.

(** "APIC" *)
Definition is_madt (header : Z) : bool := bool_decide (ldn 4 m header = 0x43495041).

Definition acpi_tables_init (fuel : nat) (rsdp : Z) : A unit :=
  let xsdt := ldn 8 m (rsdp + 24) .& 0xFFFFFFFF in
  let xsdt_entries := u64 (ldn 4 m (xsdt + 4) - 36) / 8 in
  for_n (Z.to_nat xsdt_entries) 0 (fun i =>
    let header := ldn 8 m (xsdt + 36 + 8 * i) in
    if is_madt header then
      _ ← assert_c "checksum == 0" (bool_decide (checksum (Z.to_nat (ldn 4 m (header + 4))) header 0 = 0));
      acpi_parse_madt fuel header
    else mret tt).
End tables.
End apic.

(** ** The MADT as a list of records *)
Inductive madt_rec :=
  | RLapic (id apic flags : Z)
  | RIoapic (id addr gsi_base : Z)
  | RIntr (bus irq gsi flags : Z)
  | RNmi (flags gsi : Z)
  | RLnmi (id flags lint : Z)
  | RAddr (addr : Z)
  | ROther (type : Z) (payload : list Z).

Definition record_bytes (r : madt_rec) : list Z :=
  match r with
  | RLapic id apic flags => [0; 8] ++ le 1 id ++ le 1 apic ++ le 4 flags
  | RIoapic id addr base => [1; 12] ++ le 1 id ++ le 1 0 ++ le 4 addr ++ le 4 base
  | RIntr bus irq gsi flags => [2; 10] ++ le 1 bus ++ le 1 irq ++ le 4 gsi ++ le 2 flags
  | RNmi flags gsi => [3; 8] ++ le 2 flags ++ le 4 gsi
  | RLnmi id flags lint => [4; 6] ++ le 1 id ++ le 2 flags ++ le 1 lint
  | RAddr addr => [5; 12] ++ le 2 0 ++ le 8 addr
  | ROther type payload => [type; 2 + Z.of_nat (length payload)] ++ payload
  end.

Definition record_ok (r : madt_rec) : Prop :=
  match r with
  | RLapic id apic flags => fits 8 id /\ fits 8 apic /\ fits 32 flags
  | RIoapic id addr base => fits 8 id /\ fits 32 addr /\ fits 32 base
  | RIntr bus irq gsi flags => fits 8 bus /\ fits 8 irq /\ fits 32 gsi /\ fits 16 flags
  | RNmi flags gsi => fits 16 flags /\ fits 32 gsi
  | RLnmi id flags lint => fits 8 id /\ fits 16 flags /\ fits 8 lint
  | RAddr addr => fits 64 addr
  | ROther type payload => 6 <= type < 256 /\ Z.of_nat (length payload) < 254
  end.

Section decode.
Context {V M : Type} `{!KernelVm V, !PortDevice M, !Mmio M}.
Variables (k : acpica) (m : pmem) (print : list Z -> list arg -> cmd (ast V M) unit).
Abbreviation A := (cmd (ast V M)).

(** What the two passes do with a record. *)
Definition step1 (r : madt_rec) (seen : bool) : A bool :=
  match r with
  | RLapic id apic flags =>
      if decide (flags .& 1 <> 0) then
        if seen then mret true else _ ← set_cpu (set_ids apic id); mret true
      else mret seen
  | RIoapic id addr base => _ ← ioapic_init id addr base; mret seen
  | RIntr _ _ _ _ => mret seen
  | RNmi _ _ => _ ← print (line "MADT_TYPE_NMI") []; mret seen
  | RLnmi id _ lint =>
      _ ← (if decide (id = 0 \/ id = 0xFF) then set_cpu (set_lint lint) else mret tt); mret seen
  | RAddr addr => _ ← set_cpu (set_lapic_addr addr); mret seen
  | ROther type _ => _ ← print (line "[madt]	unknown type %#x") [Num type]; mret seen
  end.
Definition step2 (r : madt_rec) : A unit :=
  match r with
  | RIntr _ irq gsi flags => ioapic_route irq (override_flags k gsi flags) (u32 (gsi + 32))
  | _ => mret tt
  end.

Fixpoint run1 (rs : list madt_rec) (seen : bool) : A unit :=
  match rs with [] => mret tt | r :: rs => seen ← step1 r seen; run1 rs seen end.
Fixpoint run2 (rs : list madt_rec) : A unit :=
  match rs with [] => mret tt | r :: rs => _ ← step2 r; run2 rs end.

Lemma holds_head a t l bs : holds m a ([t; l] ++ bs) -> fits 8 t -> fits 8 l ->
  ldn 1 m a = t /\ ldn 1 m (a + 1) = l /\ holds m (a + 2) bs.
Proof.
  intros H Ht Hl. apply holds_app in H as [H1 H2]. split; [|split; [|done]].
  - rewrite ldn1. specialize (H1 0%nat t eq_refl). rewrite Z.add_0_r in H1. by rewrite H1, wrap_small.
  - rewrite ldn1. specialize (H1 1%nat l eq_refl). change (Z.of_nat 1) with 1 in H1. by rewrite H1, wrap_small.
Qed.

Lemma holds_field b a n v bs : holds m a (le n v ++ bs) -> 0 <= v < 256 ^ Z.of_nat n ->
  b = a + Z.of_nat n -> ldn n m a = v /\ holds m b bs.
Proof.
  intros H Hv ->. apply holds_app in H as [H1 H2]. rewrite length_le in H2. split; [by apply holds_le|done].
Qed.

Lemma record_len r : record_ok r ->
  2 <= Z.of_nat (length (record_bytes r)) < 256.
Proof.
  intros Hr. destruct r; unfold record_bytes; rewrite ?length_app, ?length_le; cbn [length] in *; try lia.
  destruct Hr. lia.
Qed.

(** The type and length bytes of an encoded record. *)
Lemma record_head r a : record_ok r -> holds m a (record_bytes r) ->
  ldn 1 m (a + 1) = Z.of_nat (length (record_bytes r)).
Proof.
  intros Hr H. pose proof (record_len r Hr) as Hlen.
  destruct r; cbn [record_bytes] in *;
    (apply holds_head in H as (_ & -> & _); [|cbn; try zlia|]);
    rewrite ?length_app, ?length_le in *; cbn [length] in *; try done; try lia.
  all: destruct Hr; unfold fits in *; try lia.
Qed.

(** Read the next field of the record; what follows it starts at [b]. *)
Ltac field H E b := apply (holds_field b) in H as [E H]; [|unfold fits in *; lia|lia].
Ltac last_field H E := apply holds_le in H; [rename H into E|unfold fits in *; lia].

Lemma madt_entry1_ok r a seen : record_ok r -> holds m a (record_bytes r) ->
  madt_entry1 m print a seen = step1 r seen.
Proof.
  intros Hr H. unfold madt_entry1.
  destruct r as [id apic flags|id addr base|bus irq gsi flags|flags gsi|id flags lint|addr|type payload];
    cbn [record_bytes] in H.
  - destruct Hr as (H1 & H2 & H3). apply holds_head in H as (-> & _ & H); [|done|done].
    field H F1 (a + 3). field H F2 (a + 4). last_field H F3.
    cbn [step1]. by rewrite decide_True, F1, F2, F3 by done.
  - destruct Hr as (H1 & H2 & H3). apply holds_head in H as (-> & _ & H); [|done|done].
    field H F1 (a + 3). field H F2 (a + 4). field H F3 (a + 8). last_field H F4. by rewrite F1, F3, F4.
  - destruct Hr as (H1 & H2 & H3 & H4). apply holds_head in H as (-> & _ & H); done.
  - destruct Hr as (H1 & H2). apply holds_head in H as (-> & _ & H); done.
  - destruct Hr as (H1 & H2 & H3). apply holds_head in H as (-> & _ & H); [|done|done].
    field H F1 (a + 3). field H F2 (a + 5). last_field H F3. cbn [step1]. by rewrite F1, F3.
  - apply holds_head in H as (-> & _ & H); [|done|done].
    cbn [record_ok] in Hr. field H F1 (a + 4). last_field H F3. cbn [step1]. by rewrite F3.
  - destruct Hr as [H1 H2]. apply holds_head in H as (-> & _ & H); [|zlia|zlia].
    by rewrite !decide_False by (unfold MADT_TYPE_LAPIC, MADT_TYPE_IOAPIC, MADT_TYPE_INTR,
      MADT_TYPE_NMI, MADT_TYPE_LNMI, MADT_TYPE_LAPIC_ADDR; lia).
Qed.

Lemma madt_entry2_ok r a : record_ok r -> holds m a (record_bytes r) -> madt_entry2 k m a = step2 r.
Proof.
  intros Hr H. unfold madt_entry2.
  destruct r as [id apic flags|id addr base|bus irq gsi flags|flags gsi|id flags lint|addr|type payload];
    cbn [record_bytes] in H.
  3: { destruct Hr as (H1 & H2 & H3 & H4). apply holds_head in H as (-> & _ & H); [|done|done].
    field H F1 (a + 3). field H F2 (a + 4). field H F3 (a + 8). last_field H F4.
    cbn [step2]. by rewrite decide_True, F2, F3, F4 by done. }
  all: apply holds_head in H as (-> & _ & H); [|destruct Hr; zlia|cbn in *; destruct Hr; zlia].
  6: { destruct Hr. by rewrite decide_False by (unfold MADT_TYPE_INTR; lia). }
  all: done.
Qed.

Lemma bind_ext {B C} (c : A B) (f g : B -> A C) s : (forall b s', f b s' = g b s') -> (c ≫= f) s = (c ≫= g) s.
Proof. intros H. unfold mbind, cmd_bind. destruct (c s) as [[b s']|]; [apply H|done]. Qed.

(** The bytes of a list of records. *)
Definition table_bytes (rs : list madt_rec) : list Z := concat (record_bytes <$> rs).

Lemma pass1_ok rs fuel a seen s : Forall record_ok rs -> holds m a (table_bytes rs) ->
  (length rs < fuel)%nat ->
  madt_pass1 m print fuel a (a + Z.of_nat (length (table_bytes rs))) seen s = run1 rs seen s.
Proof.
  revert fuel a seen s. induction rs as [|r rs IH]; intros fuel a seen s Hok H Hf;
    (destruct fuel as [|fuel]; [cbn in Hf; lia|]); cbn [madt_pass1].
  { rewrite decide_False by (cbn; lia). done. }
  apply Forall_cons in Hok as [Hr Hok]. change (table_bytes (r :: rs)) with (record_bytes r ++ table_bytes rs) in *.
  apply holds_app in H as [H1 H2]. pose proof (record_len r Hr) as Hl. rewrite length_app.
  rewrite decide_True by lia.
  rewrite (madt_entry1_ok r) by done. cbn [run1]. apply bind_ext. intros seen' s'.
  rewrite (record_head r) by done. rewrite <-(IH fuel (a + Z.of_nat (length (record_bytes r)))) by (done || (cbn in Hf; lia)).
  by rewrite Nat2Z.inj_add, Z.add_assoc.
Qed.

Lemma pass2_ok rs fuel a s : Forall record_ok rs -> holds m a (table_bytes rs) ->
  (length rs < fuel)%nat ->
  madt_pass2 k m fuel a (a + Z.of_nat (length (table_bytes rs))) s = run2 rs s.
Proof.
  revert fuel a s. induction rs as [|r rs IH]; intros fuel a s Hok H Hf;
    (destruct fuel as [|fuel]; [cbn in Hf; lia|]); cbn [madt_pass2].
  { rewrite decide_False by (cbn; lia). done. }
  apply Forall_cons in Hok as [Hr Hok]. change (table_bytes (r :: rs)) with (record_bytes r ++ table_bytes rs) in *.
  apply holds_app in H as [H1 H2]. pose proof (record_len r Hr) as Hl. rewrite length_app.
  rewrite decide_True by lia. cbv zeta. rewrite (record_head r) by done. rewrite decide_False by lia.
  rewrite (madt_entry2_ok r) by done. cbn [run2]. apply bind_ext. intros [] s'.
  rewrite <-(IH fuel (a + Z.of_nat (length (record_bytes r)))) by (done || (cbn in Hf; lia)).
  by rewrite Nat2Z.inj_add, Z.add_assoc.
Qed.

(** The first pass does not get past a record of length 0. *)
Lemma pass1_stuck a end_ seen s fuel : a < end_ -> ldn 1 m a = MADT_TYPE_INTR -> ldn 1 m (a + 1) = 0 ->
  madt_pass1 m print fuel a end_ seen s = Stop OutOfFuel.
Proof.
  intros Ha Ht Hl. revert seen s. induction fuel as [|fuel IH]; intros seen s; [done|].
  cbn [madt_pass1]. rewrite decide_True by done. unfold madt_entry1. rewrite Ht.
  erewrite bind_ok by reflexivity. cbv beta. rewrite Hl, Z.add_0_r. apply IH.
Qed.

(** C35: the MADT. For a table whose entries are the encodings of any records, of the six
    kinds the kernel knows or of others, [acpi_parse_madt] terminates and does exactly this:
    it notes the local APIC's address, sets up the legacy controllers if the flags say they
    exist, runs the first pass over the decoded records in order (boot processor's ids,
    IOAPICs, NMI pins, address override) and then the second (one redirection per source
    override). On a table with a zero-length entry the first pass never ends, although the
    second guards against it. *)
Theorem acpi_parse_madt_decodes rs fuel madt s :
  Forall record_ok rs -> holds m (madt + 44) (table_bytes rs) ->
  ldn 4 m (madt + 4) = 44 + Z.of_nat (length (table_bytes rs)) -> (length rs < fuel)%nat ->
  acpi_parse_madt k m print fuel madt s =
    (_ ← set_cpu (set_lapic_addr (ldn 4 m (madt + 36)));
     _ ← (if decide (ldn 4 m (madt + 40) .& PCAT_COMPAT k <> 0) then on_hw pic_init else mret tt);
     _ ← run1 rs false;
     run2 rs) s /\
  forall a end_ seen s' fuel', a < end_ -> ldn 1 m a = MADT_TYPE_INTR -> ldn 1 m (a + 1) = 0 ->
    madt_pass1 m print fuel' a end_ seen s' = Stop OutOfFuel.
Proof.
  intros Hok H Hlen Hf. split; [|intros; by apply pass1_stuck].
  unfold acpi_parse_madt. cbv zeta. rewrite Hlen. rewrite Z.add_assoc.
  apply bind_ext. intros _ s1. apply bind_ext. intros _ s2.
  unfold mbind at 1, cmd_bind at 1. rewrite pass1_ok by done.
  unfold mbind at 1, cmd_bind at 1. destruct (run1 rs false s2) as [[u s3]|]; [|done]. by apply pass2_ok.
Qed.
End decode.

(** ** Redirections *)

(** An IOAPIC at the physical address [b]: a write to [b] selects the register that a write
    to [b + 16] sets. *)
Class IoapicLaws (M : Type) `{!Mmio M} := {
  is_ioapic : Z -> Prop;
  io_sel : M -> Z -> Z;
  io_regs : M -> Z -> Z -> Z;
  io_select b i x : is_ioapic b -> fits 32 i ->
    io_sel (mmio_wr b i x) b = i /\ forall b' j, io_regs (mmio_wr b i x) b' j = io_regs x b' j;
  io_set b v x : is_ioapic b -> fits 32 v ->
    io_sel (mmio_wr (b + 16) v x) b = io_sel x b /\
    forall b' j, io_regs (mmio_wr (b + 16) v x) b' j =
      if decide (b' = b /\ j = io_sel x b) then v else io_regs x b' j
}.

(** The redirection entry of a line: two registers. *)
Definition redirection `{IoapicLaws M} (x : M) (b line : Z) : Z :=
  io_regs x b (16 + 2 * line + 1) * 2 ^ 32 + io_regs x b (16 + 2 * line).

Section route.
Context {V M : Type} `{!KernelVm V, !PortDevice M, !Mmio M, !IoapicLaws M}.
Implicit Types s : ast V M.

Definition with_hw s (x : M) : ast V M := mkAst (avm s) x (acpu s) (amsr s) (ioapic_list s) (apic_mmio s).

Lemma wr32_ok s va pa v : vm_tr (avm s) va = Some pa -> fits 32 v ->
  wr32 va v s = Ok (tt, with_hw s (mmio_wr pa v (hw s))).
Proof.
  intros H Hv. unfold wr32, reg_addr, on_hw. cmd_unfold. rewrite H. by rewrite wrap_small.
Qed.

Lemma ioapic_write_ok s io b i v : vm_tr (avm s) (io_reg io) = Some b ->
  vm_tr (avm s) (io_val io) = Some (b + 16) -> is_ioapic b -> fits 32 i -> fits 32 v ->
  exists x, ioapic_write io i v s = Ok (tt, with_hw s x) /\
    forall b' j, io_regs x b' j = if decide (b' = b /\ j = i) then v else io_regs (hw s) b' j.
Proof.
  intros Hr Hv Hb Hi Hx. unfold ioapic_write.
  erewrite bind_ok by (apply wr32_ok; done). cbv beta.
  erewrite wr32_ok by done. eexists. split; [reflexivity|]. intros b' j. cbn [hw with_hw].
  destruct (io_select b i (hw s) Hb Hi) as [S1 S2].
  destruct (io_set b v (mmio_wr b i (hw s)) Hb Hx) as [_ S3]. by rewrite S3, S1, S2.
Qed.

(** The entry a route makes: a vector and flags above it. *)
Lemma route_entry s io rest b from flags to :
  ioapic_list s = io :: rest -> vm_tr (avm s) (io_reg io) = Some b ->
  vm_tr (avm s) (io_val io) = Some (b + 16) -> is_ioapic b ->
  irq_base io <= from -> from < irq_base io + irqs io -> irq_base io + irqs io < 2 ^ 64 ->
  0 <= from < 120 -> fits 64 (flags * 256) ->
  exists x, ioapic_route from (flags * 256) to s = Ok (tt, with_hw s x) /\
    redirection x b from = flags * 256 + to mod 256 /\
    forall b' j, b' <> b \/ (j <> 16 + 2 * from /\ j <> 16 + 2 * from + 1) ->
      io_regs x b' j = io_regs (hw s) b' j.
Proof.
  intros Hl Hr Hv Hb Hlo Hhi Hmax Hfrom Hf. unfold ioapic_route.
  erewrite bind_ok by done. cbv beta. rewrite Hl.
  rewrite bool_decide_eq_true_2 by (split; [done|]; zlia).
  erewrite bind_ok by done. cbv beta zeta.
  assert (E : (to .& 0xFF) .| flags * 256 = flags * 256 + to mod 256).
  { change 0xFF with (Z.ones 8). rewrite land_low, Z.lor_comm by lia. apply (lor_add 8); zlia. }
  rewrite E. set (e := flags * 256 + to mod 256). assert (He : fits 64 e) by (unfold e; zlia).
  change 0xFFFFFFFF with (Z.ones 32). rewrite !land_low, Z.shiftr_div_pow2, Z.shiftl_mul_pow2 by lia.
  unfold IOAPIC_REDTBL. rewrite !(wrap_small 32) by zlia.
  destruct (ioapic_write_ok s io b (16 + from * 2 ^ 1 + 1) (e / 2 ^ 32 mod 2 ^ 32)) as (x1 & W1 & R1);
    try done; try zlia.
  erewrite bind_ok by exact W1. cbv beta.
  destruct (ioapic_write_ok (with_hw s x1) io b (16 + from * 2 ^ 1) (e mod 2 ^ 32)) as (x2 & W2 & R2);
    try done; try zlia.
  exists x2. split; [exact W2|]. cbn [hw with_hw] in R2. split.
  - unfold redirection. rewrite !R2, !R1.
    rewrite decide_False by lia. rewrite decide_True by lia. rewrite decide_True by lia.
    clear -He. zlia.
  - intros b' j Hj. rewrite R2, R1. rewrite !decide_False by lia. done.
Qed.

(** Source overrides. An override of ISA line [irq] to the global interrupt [gsi] makes
    the kernel program redirection entry number [irq] of the first IOAPIC, with vector
    [gsi + 32] (the entry of [gsi] itself and every other register are left alone): bit 13
    is set for an active-high or bus-conforming polarity and bit 15 for level triggering,
    except that the system control interrupt always has bit 13 clear and bit 15 set. A line
    outside the first IOAPIC's range fails the assertion. *)
Theorem madt_override_route k bus irq gsi flags s io rest b :
  ioapic_list s = io :: rest -> vm_tr (avm s) (io_reg io) = Some b ->
  vm_tr (avm s) (io_val io) = Some (b + 16) -> is_ioapic b ->
  0 <= irq < 120 -> fits 32 gsi -> 0 <= irq_base io -> 0 <= irqs io ->
  irq_base io + irqs io < 2 ^ 64 ->
  let high := bool_decide (flags .& POLARITY_MASK k = POLARITY_ACTIVE_HIGH k \/
                           flags .& POLARITY_MASK k = POLARITY_CONFORMS k) in
  let level := bool_decide (flags .& TRIGGER_MASK k = TRIGGER_LEVEL k) in
  let sci := bool_decide (gsi = sci_interrupt k) in
  if decide (irq_base io <= irq < irq_base io + irqs io) then
    exists x, step2 k (RIntr bus irq gsi flags) s = Ok (tt, with_hw s x) /\
      redirection x b irq = (gsi + 32) mod 256 + (if high && negb sci then 2 ^ 13 else 0) +
        (if level || sci then 2 ^ 15 else 0) /\
      forall b' j, b' <> b \/ (j <> 16 + 2 * irq /\ j <> 16 + 2 * irq + 1) ->
        io_regs x b' j = io_regs (hw s) b' j
  else exists e, step2 k (RIntr bus irq gsi flags) s = Stop (AssertFailed e).
Proof.
  intros Hl Hr Hv Hb Hirq Hgsi Hb0 Hi0 Hmax high level sci. case_decide as Hin.
  - set (f := (if high && negb sci then 2 ^ 5 else 0) + (if level || sci then 2 ^ 7 else 0)).
    assert (Hfl : override_flags k gsi flags = f * 256).
    { unfold override_flags, f, high, level, sci. unfold REDTBL_DESTMODE_PHYSICAL, REDTBL_DELMODE_FIXED,
        REDTBL_ACTIVE_HIGH, REDTBL_TRIGGER_LEVEL.
      set (P := flags .& POLARITY_MASK k = POLARITY_ACTIVE_HIGH k \/ flags .& POLARITY_MASK k = POLARITY_CONFORMS k).
      set (T := flags .& TRIGGER_MASK k = TRIGGER_LEVEL k). set (Q := gsi = sci_interrupt k).
      destruct (decide P) as [H1|H1], (decide Q) as [H2|H2], (decide T) as [H3|H3];
        rewrite ?(bool_decide_eq_true_2 P), ?(bool_decide_eq_false_2 P), ?(bool_decide_eq_true_2 Q),
          ?(bool_decide_eq_false_2 Q), ?(bool_decide_eq_true_2 T), ?(bool_decide_eq_false_2 T) by done;
        rewrite ?(decide_True (P := gsi <> sci_interrupt k)) by done;
        rewrite ?(decide_False (P := gsi <> sci_interrupt k)) by tauto;
        rewrite ?(decide_True (P := T \/ Q)) by tauto; rewrite ?(decide_False (P := T \/ Q)) by tauto; reflexivity. }
    destruct (route_entry s io rest b irq f (u32 (gsi + 32))) as (x & R & E & O); try done; try lia.
    { unfold f. split; destruct (high && negb sci), (level || sci); lia. }
    exists x. cbn [step2]. rewrite Hfl. split; [exact R|]. split; [|exact O]. rewrite E.
    assert (Hm : u32 (gsi + 32) mod 256 = (gsi + 32) mod 256) by zlia.
    rewrite Hm. unfold f. destruct (high && negb sci), (level || sci); lia.
  - eexists. cbn [step2]. unfold ioapic_route. erewrite bind_ok by done. cbv beta. rewrite Hl.
    rewrite bool_decide_eq_false_2; [apply bind_stop; reflexivity|].
    intros [H1 H2]. rewrite wrap_small in H2 by (unfold fits; lia). lia.
Qed.
End route.

(** ** A machine with one IOAPIC *)
Definition IOAPIC_AT : Z := 0xFEC00000.
Record ioapic_dev := mkIoDev { dev_sel : Z; dev_regs : gmap Z Z; dev_ports : list (Z * Z) }.

#[export] Instance ioapic_dev_mmio : Mmio ioapic_dev := {
  mmio_rd a d := (if decide (a = IOAPIC_AT + 16) then default 0 (dev_regs d !! dev_sel d) else dev_sel d, d);
  mmio_wr a v d :=
    if decide (a = IOAPIC_AT) then mkIoDev v (dev_regs d) (dev_ports d)
    else if decide (a = IOAPIC_AT + 16) then mkIoDev (dev_sel d) (<[dev_sel d := v]> (dev_regs d)) (dev_ports d)
    else d
}.
#[export] Instance ioapic_dev_ports : PortDevice ioapic_dev := {
  port_in w p d := (0, d);
  port_out w p v d := mkIoDev (dev_sel d) (dev_regs d) (dev_ports d ++ [(p, v)])
}.
#[export] Instance ioapic_dev_laws : IoapicLaws ioapic_dev.
Proof.
  refine {| is_ioapic b := b = IOAPIC_AT; io_sel d b := dev_sel d;
    io_regs d b j := if decide (b = IOAPIC_AT) then default 0 (dev_regs d !! j) else 0 |}.
  - intros b i d -> Hi. done.
  - intros b v d -> Hv. unfold mmio_wr, ioapic_dev_mmio.
    rewrite (decide_False (P := IOAPIC_AT + 16 = IOAPIC_AT)) by done. rewrite decide_True by done.
    split; [done|]. intros b' j. cbn [dev_sel dev_regs].
    destruct (decide (b' = IOAPIC_AT)) as [->|Hb]; [|by rewrite decide_False by tauto].
    destruct (decide (j = dev_sel d)) as [->|Hj].
    + by rewrite lookup_insert_eq, decide_True.
    + rewrite lookup_insert_ne by done. rewrite decide_False by tauto. done.
Defined.

Definition pc_acpica : acpica := mkAcpica 1 3 0 1 0xC 0xC 9.
Definition pc_records : list madt_rec :=
  [RLapic 0 4 1; RIoapic 1 IOAPIC_AT 0; RIntr 0 9 9 0xF; RIntr 0 0 2 0; RLnmi 0xFF 0 1].
Definition pc_madt : list Z :=
  le 4 0x43495041 ++ le 4 (44 + Z.of_nat (length (table_bytes pc_records))) ++ repeat 0 28 ++
  le 4 0xFEE00000 ++ le 4 1.
Definition pc_mem : pmem := mem_at 0x2000 (pc_madt ++ table_bytes pc_records).
Definition pc_state : ast page_vm ioapic_dev :=
  mkAst (fresh_vm 0x400) (mkIoDev 0 {[ 1 := 23 * 2 ^ 16 ]} []) zero_cpu ∅ [] 0.

Lemma acpi_parse_madt_decodes_witness :
  exists s, acpi_parse_madt pc_acpica pc_mem (fun _ _ => mret tt) 9 0x2000 pc_state = Ok (tt, s) /\
    (Apic.acpu s).(apic_id) = 4 /\ (Apic.acpu s).(lapic_addr) = 0xFEE00000 /\
    (Apic.acpu s).(apic_lint_nmi1) = true /\ length (dev_ports (hw s)) = 20%nat.
Proof.
  destruct (acpi_parse_madt_decodes pc_acpica pc_mem (fun _ _ => mret tt) pc_records 9 0x2000 pc_state) as [H _].
  - unfold pc_records, IOAPIC_AT. repeat apply Forall_cons_2; try apply Forall_nil_2; cbn; unfold fits; lia.
  - apply holds_mem_at. reflexivity.
  - vm_compute. reflexivity.
  - cbn. lia.
  - rewrite H. eexists. split; [vm_compute; reflexivity|]. vm_compute. repeat split.
Defined.

Lemma madt_override_route_witness :
  let s := mkAst tt (mkIoDev 0 ∅ []) zero_cpu ∅ [mkIoapic 1 IOAPIC_AT (IOAPIC_AT + 16) 0 24] 0 in
  exists x, step2 pc_acpica (RIntr 0 9 9 0xF) s = Ok (tt, with_hw s x) /\
    redirection x IOAPIC_AT 9 = 41 + 2 ^ 15.
Proof.
  intros s.
  destruct (madt_override_route pc_acpica 0 9 9 0xF s (mkIoapic 1 IOAPIC_AT (IOAPIC_AT + 16) 0 24) [] IOAPIC_AT)
    as (x & R & E & _); try reflexivity; try (unfold fits; cbn; lia).
  exists x. split; [exact R|exact E].
Defined.
