(* ===== verification/Ec.v ===== *)
(** The embedded controller of driver/acpi/ec.c: the port protocol, byte and multi-byte
    transfers, and the handler ACPICA calls.

    ACPICA (the resource walk, the registration of the handler) is a parameter; the
    controller behind the two ports is a type with the laws of [EcLaws]. *)
From S2P Require Import Prelude Bytes Ports.

Definition EC_EVENT_OUTPUT_BUFFER_FULL : Z := 0x01.
Definition EC_EVENT_INPUT_BUFFER_EMPTY : Z := 0x02.
Definition EC_COMMAND_READ : Z := 0x80.
Definition EC_COMMAND_WRITE : Z := 0x81.
Definition EC_BURST_ENABLE : Z := 0x82.
Definition EC_BURST_DISABLE : Z := 0x83.
Definition EC_QUERY : Z := 0x84.

(** The status codes of ACPICA the driver tells apart. *)
Inductive acpi_status := AE_OK | AE_ERROR | AE_SUPPORT | AE_NOT_FOUND | AE_BAD_PARAMETER | AE_BAD_ADDRESS | AE_CTRL_TERMINATE
  | AE_NO_HARDWARE_RESPONSE | AE_OTHER (code : Z).
#[export] Instance acpi_status_dec : EqDecision acpi_status.
Proof. solve_decision. Defined.
Definition ACPI_FAILURE (s : acpi_status) : bool := bool_decide (s <> AE_OK).

(** The two static port numbers, the kernel's memory, and the machine behind the ports. *)
Record est {S : Type} := mkEst { data_io : Z; command_io : Z; emem : pmem; edev : S }.
Arguments est : clear implicits.
Arguments mkEst {S} _ _ _ _.
Definition with_dev {S} (e : est S) (s : S) : est S := mkEst (data_io e) (command_io e) (emem e) s.
Definition with_mem {S} (e : est S) (m : pmem) : est S := mkEst (data_io e) (command_io e) m (edev e).

#[export] Instance est_ports {S} `{!PortDevice S} : PortDevice (est S) := {
  port_in w p e := let '(v, s) := port_in w p (edev e) in (v, with_dev e s);
  port_out w p v e := with_dev e (port_out w p v (edev e))
}.

Section ec.
Context {S : Type} `{!PortDevice S}.
Abbreviation E := (cmd (est S)).

(** A resource descriptor: of type [ACPI_RESOURCE_TYPE_IO] with a port, or another. *)
Inductive acpi_resource := IO_RESOURCE (minimum : Z) | OTHER_RESOURCE.

Definition acpi_ec_io_ports (resource : acpi_resource) : E acpi_status :=
  e ← get_st;
  match resource with
  | OTHER_RESOURCE => mret AE_OK
  | IO_RESOURCE minimum =>
      if decide (data_io e = 0) then
        _ ← put_st (mkEst (u16 minimum) (command_io e) (emem e) (edev e)); mret AE_OK
      else if decide (command_io e = 0) then
        _ ← put_st (mkEst (data_io e) (u16 minimum) (emem e) (edev e)); mret AE_OK
      else mret AE_CTRL_TERMINATE
  end.

Definition acpi_ec_read_data : E Z := e ← get_st; inb (data_io e).
Definition acpi_ec_write_data (v : Z) : E unit := e ← get_st; outb (data_io e) v.
Definition acpi_ec_read_command : E Z := e ← get_st; inb (command_io e).
Definition acpi_ec_write_command (v : Z) : E unit := e ← get_st; outb (command_io e) v.

(** [while(status != AE_OK)]; [fuel] bounds the polls. *)
Fixpoint ec_poll_loop (fuel : nat) (event : Z) (status : acpi_status) : E unit :=
  if decide (status = AE_OK) then mret tt else
  match fuel with
  | O => halt OutOfFuel
  | Datatypes.S fuel =>
      res ← acpi_ec_read_command;
      ec_poll_loop fuel event
        (if decide (event = EC_EVENT_INPUT_BUFFER_EMPTY) then
           if decide (res .& 2 = 0) then AE_OK else AE_NO_HARDWARE_RESPONSE
         else if decide (event = EC_EVENT_OUTPUT_BUFFER_FULL) then
           if decide (res .& 1 <> 0) then AE_OK else AE_NO_HARDWARE_RESPONSE
         else status)
  end.
Definition acpi_ec_poll_event (fuel : nat) (event : Z) : E unit :=
  ec_poll_loop fuel event AE_NO_HARDWARE_RESPONSE.

(** The event a command is completed by. *)
Definition command_event (command : Z) : option Z :=
  if decide (command = EC_COMMAND_READ \/ command = EC_COMMAND_WRITE \/ command = EC_BURST_DISABLE)
  then Some EC_EVENT_INPUT_BUFFER_EMPTY
  else if decide (command = EC_BURST_ENABLE \/ command = EC_QUERY)
  then Some EC_EVENT_OUTPUT_BUFFER_FULL
  else None.

Section fuel.
Variable fuel : nat.

Definition acpi_ec_command (command : Z) : E unit :=
  event ← lift_opt (Panicked "EC: invalid command %#x") (command_event command);
  _ ← acpi_ec_poll_event fuel EC_EVENT_INPUT_BUFFER_EMPTY;
  _ ← acpi_ec_write_command command;
  acpi_ec_poll_event fuel event.

Definition acpi_ec_burst_enable : E unit :=
  _ ← acpi_ec_command EC_BURST_ENABLE;
  ret ← acpi_ec_read_data;
  if decide (ret .& 0x10 = 0) then panic "EC: failed to enable burst" else mret tt.
Definition acpi_ec_burst_disable : E unit := acpi_ec_command EC_BURST_DISABLE.

Definition acpi_ec_read_1 (addr : Z) : E Z :=
  _ ← acpi_ec_command EC_COMMAND_READ;
  _ ← acpi_ec_write_data addr;
  _ ← acpi_ec_poll_event fuel EC_EVENT_OUTPUT_BUFFER_FULL;
  acpi_ec_read_data.

Definition acpi_ec_write_1 (addr val : Z) : E unit :=
  _ ← acpi_ec_command EC_COMMAND_WRITE;
  _ ← acpi_ec_write_data addr;
  _ ← acpi_ec_poll_event fuel EC_EVENT_INPUT_BUFFER_EMPTY;
  _ ← acpi_ec_write_data val;
  acpi_ec_poll_event fuel EC_EVENT_INPUT_BUFFER_EMPTY.

Definition acpi_ec_read (addr : Z) (len : nat) (buf : Z) : E unit :=
  _ ← acpi_ec_burst_enable;
  _ ← for_n len 0 (fun reg =>
    v ← acpi_ec_read_1 ((addr + reg) .& 0xFF);
    modify (fun e => with_mem e (stn 1 (emem e) (buf + reg) v)));
  acpi_ec_burst_disable.

Definition acpi_ec_write (addr : Z) (len : nat) (buf : Z) : E unit :=
  _ ← acpi_ec_burst_enable;
  _ ← for_n len 0 (fun reg =>
    e ← get_st; acpi_ec_write_1 ((addr + reg) .& 0xFF) (ldn 1 (emem e) (buf + reg)));
  acpi_ec_burst_disable.

(** ACPICA's codes for the two directions. *)
Variables ACPI_READ ACPI_WRITE : Z.

Definition acpi_ec_handler (function address bits : Z) (value : option Z) : E acpi_status :=
  if decide (function <> ACPI_READ /\ function <> ACPI_WRITE) then mret AE_BAD_PARAMETER else
  if decide (u64 (address + bits ≫ 3) > 0xFF) then mret AE_BAD_ADDRESS else
  match value with
  | None => mret AE_BAD_PARAMETER
  | Some buf =>
      if decide (bits mod 8 <> 0) then mret AE_BAD_PARAMETER else
      let len := Z.to_nat (bits ≫ 3) in
      _ ← (if decide (function = ACPI_READ) then acpi_ec_read (address .& 0xFF) len buf
           else if decide (function = ACPI_WRITE) then acpi_ec_write (address .& 0xFF) len buf
           else mret tt);
      mret AE_OK
  end.

(** ACPICA's part in the setup. *)
Variables (acpi_walk_resources : (acpi_resource -> E acpi_status) -> E acpi_status)
  (acpi_get_devices : E acpi_status -> E acpi_status)
  (acpi_install_address_space_handler : (Z -> Z -> Z -> option Z -> E acpi_status) -> E acpi_status)
  (acpi_terminate : E unit).

Definition acpi_ec_parse : E acpi_status :=
  status ← acpi_walk_resources acpi_ec_io_ports;
  if ACPI_FAILURE status then panic "ACPI failure %u @ acpi_walk_resources" else mret AE_OK.

Definition acpi_ec_init : E unit :=
  _ ← acpi_get_devices acpi_ec_parse;
  status ← acpi_install_address_space_handler acpi_ec_handler;
  if ACPI_FAILURE status
  then _ ← acpi_terminate; panic "ACPI failure %u @ acpi_install_address_space_handler"
  else mret tt.
End fuel.
End ec.

(** ** The controller *)

(** What the controller waits for, or the byte in its output buffer. *)
Inductive ec_phase_t := Idle | GotRead | GotWrite | GotWriteAddr (a : Z) | Out (v : Z).

(** The controller of the ACPI specification behind ports [dio] (data) and [cio] (command
    and status): status bit 1 is set while it has not taken the last byte written, bit 0 once
    it has put a byte out; both take at most [ec_max] status reads. *)
Class EcLaws (S : Type) `{!PortDevice S} (dio cio : Z) := {
  ec_ram : S -> Z -> Z;
  ec_phase : S -> ec_phase_t;
  ec_in : S -> nat;
  ec_out : S -> nat;
  ec_max : nat;
  ec_bounds s : (ec_in s <= ec_max)%nat /\ (ec_out s <= ec_max)%nat;
  ec_byte s a : fits 8 (ec_ram s a);
  ec_wait s : let s' := port_out 8 128 0 s in
    ec_ram s' = ec_ram s /\ ec_phase s' = ec_phase s /\ ec_in s' = ec_in s /\ ec_out s' = ec_out s;
  ec_status s : let '(v, s') := port_in 8 cio s in
    ec_ram s' = ec_ram s /\ ec_phase s' = ec_phase s /\ ec_in s' = pred (ec_in s) /\
    Z.testbit v 1 = bool_decide (ec_in s <> O) /\
    match ec_phase s with
    | Out _ => Z.testbit v 0 = bool_decide (ec_in s = O /\ ec_out s = O) /\
        ec_out s' = match ec_in s with O => pred (ec_out s) | _ => ec_out s end
    | _ => True
    end;
  ec_start s c : ec_phase s = Idle -> ec_in s = O -> c ∈ [EC_COMMAND_READ; EC_COMMAND_WRITE; EC_BURST_DISABLE] ->
    let s' := port_out 8 cio c s in
    ec_ram s' = ec_ram s /\ ec_phase s' =
      (if decide (c = EC_COMMAND_READ) then GotRead else
       if decide (c = EC_COMMAND_WRITE) then GotWrite else Idle);
  ec_burst s : ec_phase s = Idle -> ec_in s = O ->
    let s' := port_out 8 cio EC_BURST_ENABLE s in ec_ram s' = ec_ram s /\ ec_phase s' = Out 0x90;
  ec_addr s a : fits 8 a -> ec_in s = O ->
    let s' := port_out 8 dio a s in
    (ec_phase s = GotRead -> ec_ram s' = ec_ram s /\ ec_phase s' = Out (ec_ram s a)) /\
    (ec_phase s = GotWrite -> ec_ram s' = ec_ram s /\ ec_phase s' = GotWriteAddr a) /\
    (forall b, ec_phase s = GotWriteAddr b ->
      ec_phase s' = Idle /\ forall x, ec_ram s' x = if decide (x = b) then a else ec_ram s x);
  ec_take s v : ec_phase s = Out v -> ec_in s = O -> ec_out s = O ->
    let '(v', s') := port_in 8 dio s in
    v' = v /\ ec_ram s' = ec_ram s /\ ec_phase s' = Idle
}.

Section protocol.
Context {S : Type} `{!PortDevice S} {dio cio : Z} `{!EcLaws S dio cio}.
Variables (fuel : nat) (m : pmem).
Hypothesis Hfuel : (2 * ec_max < fuel)%nat.

Abbreviation at_ := (mkEst dio cio m).
(** Only the counters differ. *)
Definition same (d d' : S) : Prop := ec_ram d' = ec_ram d /\ ec_phase d' = ec_phase d.

Lemma same_trans d1 d2 d3 : same d1 d2 -> same d2 d3 -> same d1 d3.
Proof. unfold same. intros [? ?] [? ?]. split; congruence. Qed.

Lemma inb_cmd d : exists v d', inb cio (at_ d) = Ok (u8 v, at_ d') /\ same d d' /\
  ec_in d' = pred (ec_in d) /\ Z.testbit v 1 = bool_decide (ec_in d <> O) /\
  forall b, ec_phase d = Out b -> Z.testbit v 0 = bool_decide (ec_in d = O /\ ec_out d = O) /\
    ec_out d' = match ec_in d with O => pred (ec_out d) | _ => ec_out d end.
Proof.
  unfold inb, port_read, io_wait. cmd_unfold. cbn [port_in port_out est_ports edev].
  pose proof (ec_status d) as H. destruct (port_in 8 cio d) as [v d1]. destruct H as (H1 & H2 & H3 & H4 & H5).
  destruct (ec_wait d1) as (W1 & W2 & W3 & W4). exists v, (port_out 8 128 0 d1). split; [done|].
  unfold same. rewrite W1, W2, W3, W4. repeat split; try done.
  - by rewrite H in H5; destruct H5.
  - by rewrite H in H5; destruct H5.
Qed.

Lemma poll_empty n d status : status <> AE_OK -> (ec_in d < n)%nat ->
  exists d', ec_poll_loop n EC_EVENT_INPUT_BUFFER_EMPTY status (at_ d) = Ok (tt, at_ d') /\
    same d d' /\ ec_in d' = O.
Proof.
  revert d status. induction n as [|n IH]; intros d status Hs Hn; [lia|].
  cbn [ec_poll_loop]. rewrite decide_False by done.
  destruct (inb_cmd d) as (v & d1 & R & E & I & B & _).
  erewrite bind_ok by exact R. cbv beta. rewrite (decide_True (P := _ = EC_EVENT_INPUT_BUFFER_EMPTY)) by done.
  change 2 with (2 ^ 1). rewrite land_bit, wrap_testbit, B by lia.
  destruct (ec_in d) as [|k] eqn:Hk.
  - rewrite bool_decide_eq_false_2 by lia. rewrite (decide_True (P := 0 = 0)) by done.
    exists d1. destruct n; (split; [reflexivity|]); done.
  - rewrite bool_decide_eq_true_2 by lia. rewrite (decide_False (P := 2 ^ 1 = 0)) by lia.
    destruct (IH d1 AE_NO_HARDWARE_RESPONSE) as (d' & R' & E' & I'); [done|lia|].
    exists d'. split; [exact R'|]. split; [by eapply same_trans|done].
Qed.

Lemma poll_full n d b status : status <> AE_OK -> ec_phase d = Out b ->
  (ec_in d + ec_out d < n)%nat ->
  exists d', ec_poll_loop n EC_EVENT_OUTPUT_BUFFER_FULL status (at_ d) = Ok (tt, at_ d') /\
    same d d' /\ ec_in d' = O /\ ec_out d' = O.
Proof.
  revert d status. induction n as [|n IH]; intros d status Hs Hb Hn; [lia|].
  cbn [ec_poll_loop]. rewrite decide_False by done.
  destruct (inb_cmd d) as (v & d1 & R & E & I & _ & F). destruct (F b Hb) as [B O1].
  erewrite bind_ok by exact R. cbv beta.
  rewrite (decide_False (P := _ = EC_EVENT_INPUT_BUFFER_EMPTY)) by done.
  rewrite (decide_True (P := _ = EC_EVENT_OUTPUT_BUFFER_FULL)) by done.
  change 1 with (2 ^ 0). rewrite land_bit, wrap_testbit, B by lia.
  destruct (decide (ec_in d = O /\ ec_out d = O)) as [[H1 H2]|Hne].
  - rewrite bool_decide_eq_true_2 by done. rewrite (decide_True (P := 2 ^ 0 <> 0)) by lia.
    exists d1. rewrite H1 in O1, I. rewrite H2 in O1. destruct n; (split; [reflexivity|]); done.
  - rewrite bool_decide_eq_false_2 by done. rewrite (decide_False (P := 0 <> 0)) by lia.
    destruct (IH d1 AE_NO_HARDWARE_RESPONSE) as (d' & R' & E' & I'); [done|by destruct E as [_ ->]|destruct (ec_in d); lia|].
    exists d'. split; [exact R'|]. split; [by eapply same_trans|done].
Qed.

Lemma wait_empty d : exists d', acpi_ec_poll_event fuel EC_EVENT_INPUT_BUFFER_EMPTY (at_ d) = Ok (tt, at_ d') /\
  same d d' /\ ec_in d' = O.
Proof. apply poll_empty; [done|]. destruct (ec_bounds d). lia. Qed.

Lemma wait_full d b : ec_phase d = Out b ->
  exists d', acpi_ec_poll_event fuel EC_EVENT_OUTPUT_BUFFER_FULL (at_ d) = Ok (tt, at_ d') /\
    same d d' /\ ec_in d' = O /\ ec_out d' = O.
Proof. intros Hb. eapply poll_full; [done|done|]. destruct (ec_bounds d). lia. Qed.

(** A write to either port, and the wait that follows it. *)
Lemma outb_step port v d : fits 8 v -> outb port v (at_ d) = Ok (tt, at_ (port_out 8 128 0 (port_out 8 port v d))).
Proof. intros Hv. unfold outb, io_wait. cmd_unfold. rewrite wrap_small by done. done. Qed.
Lemma wait_same d : same d (port_out 8 128 0 d).
Proof. by destruct (ec_wait d) as (? & ? & _). Qed.

(** The commands that complete when the controller has taken them. *)
Lemma command_in c d : ec_phase d = Idle -> c ∈ [EC_COMMAND_READ; EC_COMMAND_WRITE; EC_BURST_DISABLE] ->
  exists d', acpi_ec_command fuel c (at_ d) = Ok (tt, at_ d') /\ ec_ram d' = ec_ram d /\ ec_in d' = O /\
    ec_phase d' = (if decide (c = EC_COMMAND_READ) then GotRead else
                   if decide (c = EC_COMMAND_WRITE) then GotWrite else Idle).
Proof.
  intros Hp Hc. unfold acpi_ec_command.
  assert (Hev : command_event c = Some EC_EVENT_INPUT_BUFFER_EMPTY /\ fits 8 c).
  { rewrite !elem_of_cons, elem_of_nil in Hc. by destruct Hc as [->|[->|[->|[]]]]. }
  destruct Hev as [-> Hfit]. erewrite bind_ok by reflexivity. cbv beta.
  destruct (wait_empty d) as (d1 & R1 & [E1 P1] & I1). erewrite bind_ok by exact R1. cbv beta.
  erewrite bind_ok by (apply outb_step; done). cbv beta.
  destruct (ec_start d1 c) as [E2 P2]; [congruence|done|done|].
  match goal with |- context [at_ ?x] => set (d2 := x) end.
  assert (S2 : same (port_out 8 cio c d1) d2) by apply wait_same.
  destruct (wait_empty d2) as (d3 & R3 & S3 & I3). exists d3. split; [exact R3|].
  destruct (same_trans _ _ _ S2 S3) as [-> ->]. split; [congruence|]. done.
Qed.

Lemma take_byte d b : ec_phase d = Out b -> fits 8 b -> ec_in d = O -> ec_out d = O ->
  exists d', acpi_ec_read_data (at_ d) = Ok (b, at_ d') /\ ec_ram d' = ec_ram d /\ ec_phase d' = Idle.
Proof.
  intros Hp Hb Hi Ho. unfold acpi_ec_read_data. erewrite bind_ok by reflexivity. cbv beta. cbn [data_io].
  unfold inb, port_read, io_wait. cmd_unfold. cbn [port_in port_out est_ports edev].
  pose proof (ec_take d b Hp Hi Ho) as H. destruct (port_in 8 dio d) as [v d1]. destruct H as (-> & E & P).
  exists (port_out 8 128 0 d1). rewrite wrap_small by done. split; [done|].
  destruct (wait_same d1) as [-> ->]. done.
Qed.

Lemma burst_enable_ok d : ec_phase d = Idle ->
  exists d', acpi_ec_burst_enable fuel (at_ d) = Ok (tt, at_ d') /\ ec_ram d' = ec_ram d /\ ec_phase d' = Idle.
Proof.
  intros Hp. unfold acpi_ec_burst_enable, acpi_ec_command.
  change (command_event EC_BURST_ENABLE) with (Some EC_EVENT_OUTPUT_BUFFER_FULL).
  destruct (wait_empty d) as (d1 & R1 & [E1 P1] & I1).
  destruct (ec_burst d1) as [E2 P2]; [congruence|done|].
  set (d2 := port_out 8 128 0 (port_out 8 cio EC_BURST_ENABLE d1)).
  assert (S2 : same (port_out 8 cio EC_BURST_ENABLE d1) d2) by apply wait_same.
  destruct (wait_full d2 0x90) as (d3 & R3 & S3 & I3 & O3); [by destruct S2 as [_ ->]|].
  destruct (same_trans _ _ _ S2 S3) as [E3 P3].
  destruct (take_byte d3 0x90) as (d4 & R4 & E4 & P4); [congruence|done|done|done|].
  exists d4. split; [|split; [congruence|done]].
  erewrite bind_ok.
  2:{ erewrite bind_ok by reflexivity. cbv beta. erewrite bind_ok by exact R1. cbv beta.
      erewrite bind_ok by (apply outb_step; done). cbv beta. exact R3. }
  cbv beta. erewrite bind_ok by exact R4. done.
Qed.

(** One byte of the controller's memory is read or written. *)
Lemma read_1_ok d a : ec_phase d = Idle -> fits 8 a ->
  exists d', acpi_ec_read_1 fuel a (at_ d) = Ok (ec_ram d a, at_ d') /\ ec_ram d' = ec_ram d /\ ec_phase d' = Idle.
Proof.
  intros Hp Ha. unfold acpi_ec_read_1.
  destruct (command_in EC_COMMAND_READ d Hp) as (d1 & R1 & E1 & I1 & P1); [by left|].
  erewrite bind_ok by exact R1. cbv beta. erewrite bind_ok by (apply outb_step; done). cbv beta.
  destruct (ec_addr d1 a Ha I1) as (A & _ & _). destruct (A P1) as [E2 P2].
  match goal with |- context [at_ ?x] => set (d2 := x) end.
  assert (S2 : same (port_out 8 dio a d1) d2) by apply wait_same.
  destruct (wait_full d2 (ec_ram d1 a)) as (d3 & R3 & S3 & I3 & O3); [by destruct S2 as [_ ->]|].
  destruct (same_trans _ _ _ S2 S3) as [E3 P3].
  destruct (take_byte d3 (ec_ram d1 a)) as (d4 & R4 & E4 & P4); [congruence|apply ec_byte|done|done|].
  erewrite bind_ok by exact R3. cbv beta. exists d4. rewrite R4. split; [congruence|]. split; congruence.
Qed.

Lemma write_1_ok d a v : ec_phase d = Idle -> fits 8 a -> fits 8 v ->
  exists d', acpi_ec_write_1 fuel a v (at_ d) = Ok (tt, at_ d') /\ ec_phase d' = Idle /\
    forall x, ec_ram d' x = if decide (x = a) then v else ec_ram d x.
Proof.
  intros Hp Ha Hv. unfold acpi_ec_write_1.
  destruct (command_in EC_COMMAND_WRITE d Hp) as (d1 & R1 & E1 & I1 & P1); [by right; left|].
  erewrite bind_ok by exact R1. cbv beta. erewrite bind_ok by (apply outb_step; done). cbv beta.
  destruct (ec_addr d1 a Ha I1) as (_ & A & _). destruct (A P1) as [E2 P2].
  match goal with |- context [at_ ?x] => set (d2 := x) end.
  assert (S2 : same (port_out 8 dio a d1) d2) by apply wait_same.
  destruct (wait_empty d2) as (d3 & R3 & S3 & I3). destruct (same_trans _ _ _ S2 S3) as [E3 P3].
  erewrite bind_ok by exact R3. cbv beta. erewrite bind_ok by (apply outb_step; done). cbv beta.
  destruct (ec_addr d3 v Hv I3) as (_ & _ & B). destruct (B a) as [P4 E4]; [congruence|].
  match goal with |- context [at_ ?x] => set (d4 := x) end.
  assert (S4 : same (port_out 8 dio v d3) d4) by apply wait_same.
  destruct (wait_empty d4) as (d5 & R5 & S5 & I5). destruct (same_trans _ _ _ S4 S5) as [E5 P5].
  exists d5. split; [exact R5|]. split; [congruence|]. intros x. rewrite E5, E4, E3, E2, E1. done.
Qed.
End protocol.

Section handler.
Context {S : Type} `{!PortDevice S} {dio cio : Z} `{!EcLaws S dio cio}.
Variable fuel : nat.
Hypothesis Hfuel : (2 * ec_max < fuel)%nat.

Lemma ec_read_ok m d addr len buf : ec_phase d = Idle -> 0 <= addr ->
  exists d' m', acpi_ec_read fuel addr len buf (mkEst dio cio m d) = Ok (tt, mkEst dio cio m' d') /\
    ec_phase d' = Idle /\ ec_ram d' = ec_ram d /\
    forall b, m' b = if decide (buf <= b < buf + Z.of_nat len) then ec_ram d ((addr + (b - buf)) mod 256) else m b.
Proof.
  intros Hp Ha. unfold acpi_ec_read.
  destruct (burst_enable_ok fuel m Hfuel d Hp) as (d1 & R1 & E1 & P1). erewrite bind_ok by exact R1. cbv beta.
  match goal with |- context [for_n len 0 ?b] => set (body := b) end.
  destruct (for_n_inv (fun i e => exists d' m', e = mkEst dio cio m' d' /\ ec_phase d' = Idle /\
      ec_ram d' = ec_ram d /\
      forall b, m' b = if decide (buf <= b < buf + i) then ec_ram d ((addr + (b - buf)) mod 256) else m b)
    len 0 body (mkEst dio cio m d1)) as (e & R2 & d2 & m2 & -> & P2 & E2 & M2).
  - exists d1, m. repeat split; try done. intros b. by rewrite decide_False by lia.
  - intros i e Hi (d' & m' & -> & P & E & M). unfold body.
    assert (A : (addr + i) .& 255 = (addr + i) mod 256) by (apply (land_low _ 8); lia).
    destruct (read_1_ok fuel m' Hfuel d' ((addr + i) mod 256)) as (d3 & R3 & E3 & P3); [done|zlia|].
    rewrite A. erewrite bind_ok by exact R3. cbv beta. eexists. split; [reflexivity|].
    exists d3, (stn 1 m' (buf + i) (ec_ram d' ((addr + i) mod 256))). split; [done|].
    split; [done|]. split; [congruence|]. intros b. rewrite stn1, M, E.
    destruct (decide (b = buf + i)) as [->|Hb].
    + rewrite decide_True by lia. replace (buf + i - buf) with i by lia. apply wrap_small, ec_byte.
    + destruct (decide (buf <= b < buf + i)); [by rewrite decide_True by lia|by rewrite decide_False by lia].
  - erewrite bind_ok by exact R2. cbv beta.
    destruct (command_in fuel m2 Hfuel EC_BURST_DISABLE d2 P2) as (d4 & R4 & E4 & _ & P4); [by right; right; left|].
    exists d4, m2. split; [exact R4|]. split; [done|]. split; [congruence|]. exact M2.
Qed.

Lemma ec_write_ok m d addr len buf : ec_phase d = Idle -> 0 <= addr -> addr + Z.of_nat len <= 256 ->
  exists d', acpi_ec_write fuel addr len buf (mkEst dio cio m d) = Ok (tt, mkEst dio cio m d') /\
    ec_phase d' = Idle /\
    forall x, ec_ram d' x = if decide (addr <= x < addr + Z.of_nat len) then u8 (m (buf + (x - addr))) else ec_ram d x.
Proof.
  intros Hp Ha Hl. unfold acpi_ec_write.
  destruct (burst_enable_ok fuel m Hfuel d Hp) as (d1 & R1 & E1 & P1). erewrite bind_ok by exact R1. cbv beta.
  match goal with |- context [for_n len 0 ?b] => set (body := b) end.
  destruct (for_n_inv (fun i e => exists d', e = mkEst dio cio m d' /\ ec_phase d' = Idle /\
      forall x, ec_ram d' x = if decide (addr <= x < addr + i) then u8 (m (buf + (x - addr))) else ec_ram d x)
    len 0 body (mkEst dio cio m d1)) as (e & R2 & d2 & -> & P2 & E2).
  - exists d1. repeat split; try done. intros b. rewrite decide_False by lia. by rewrite E1.
  - intros i e Hi (d' & -> & P & E). unfold body.
    assert (A : (addr + i) .& 255 = addr + i) by (rewrite (land_low _ 8) by lia; zlia).
    destruct (write_1_ok fuel m Hfuel d' (addr + i) (u8 (m (buf + i)))) as (d3 & R3 & P3 & E3);
      [done|zlia|by apply wrap_fits|].
    erewrite bind_ok by reflexivity. cbv beta. cbn [emem]. rewrite A, ldn1.
    eexists. split; [exact R3|]. exists d3. split; [done|]. split; [done|]. intros x. rewrite E3, E.
    destruct (decide (x = addr + i)) as [->|Hx].
    + rewrite decide_True by lia. by replace (addr + i - addr) with i by lia.
    + destruct (decide (addr <= x < addr + i)); [by rewrite decide_True by lia|by rewrite decide_False by lia].
  - erewrite bind_ok by exact R2. cbv beta.
    destruct (command_in fuel m Hfuel EC_BURST_DISABLE d2 P2) as (d4 & R4 & E4 & _ & P4); [by right; right; left|].
    exists d4. split; [exact R4|]. split; [done|]. intros x. rewrite E4. apply E2.
Qed.

(** C36: requests to the embedded controller. On an idle controller every request returns.
    A read of [n] bytes that ends below 0xFF fills the caller's buffer with the controller's
    memory and changes nothing else; a write stores the buffer there and leaves the kernel's
    memory alone; both leave the controller idle. Other functions, transfers that are not
    whole bytes, a null buffer and addresses out of range are refused without touching
    anything, and so is the last byte of the controller's memory, 0xFF, which is in range. *)
Theorem acpi_ec_handler_correct (R W function address bits : Z) value m (d : S) :
  R <> W -> ec_phase d = Idle -> 0 <= address -> 0 <= bits -> address + bits / 8 < 2 ^ 64 ->
  let n := bits / 8 in
  let s := mkEst dio cio m d in
  let run := acpi_ec_handler fuel R W function address bits value s in
  if decide (function <> R /\ function <> W) then run = Ok (AE_BAD_PARAMETER, s)
  else if decide (255 < address + n) then run = Ok (AE_BAD_ADDRESS, s)
  else match value with
  | None => run = Ok (AE_BAD_PARAMETER, s)
  | Some buf =>
      if decide (bits mod 8 <> 0) then run = Ok (AE_BAD_PARAMETER, s)
      else exists d' m', run = Ok (AE_OK, mkEst dio cio m' d') /\ ec_phase d' = Idle /\
        if decide (function = R)
        then (forall x, ec_ram d' x = ec_ram d x) /\
          forall b, m' b = if decide (buf <= b < buf + n) then ec_ram d (address + (b - buf)) else m b
        else m' = m /\ forall x, ec_ram d' x =
          if decide (address <= x < address + n) then u8 (m (buf + (x - address))) else ec_ram d x
  end.
Proof.
  intros HRW Hp Ha Hb Hsum n s run. unfold run, acpi_ec_handler.
  assert (Hn : bits ≫ 3 = n) by (apply Z.shiftr_div_pow2; lia).
  assert (Hn0 : 0 <= n) by (unfold n; zlia).
  rewrite Hn, wrap_small by (unfold fits; lia).
  destruct (decide (function <> R /\ function <> W)) as [|Hf]; [done|].
  destruct (decide (255 < address + n)) as [Hout|Hin].
  { rewrite decide_True by lia. done. }
  rewrite decide_False by lia. destruct value as [buf|]; [|done].
  destruct (decide (bits mod 8 <> 0)); [done|]. cbv zeta.
  assert (A : address .& 255 = address) by (rewrite (land_low _ 8) by lia; zlia). rewrite A.
  destruct (decide (function = R)) as [->|Hfr].
  - destruct (ec_read_ok m d address (Z.to_nat n) buf Hp Ha) as (d' & m' & Run & P & E & M).
    exists d', m'. erewrite bind_ok by exact Run. split; [done|]. split; [done|].
    split; [by intros x; rewrite E|]. intros b. rewrite M, Z2Nat.id by done.
    case_decide; [|done]. f_equal. zlia.
  - rewrite decide_True by (destruct (decide (function = W)); tauto).
    destruct (ec_write_ok m d address (Z.to_nat n) buf Hp Ha) as (d' & Run & P & E); [lia|].
    exists d', m. erewrite bind_ok by exact Run. split; [done|]. split; [done|].
    split; [done|]. intros x. by rewrite E, Z2Nat.id by done.
Qed.
End handler.

(** ** A controller that is busy once after every write *)
Record ec_dev := mkEcDev { dev_ram : Z -> Z; dev_phase : ec_phase_t; dev_in : bool }.
Definition ec_dev_take (d : ec_dev) : ec_dev := mkEcDev (dev_ram d) (dev_phase d) false.
#[export] Instance ec_dev_ports : PortDevice ec_dev := {
  port_in w p d :=
    if decide (p = 0x66) then
      ((if dev_in d then 2 else 0) + (match dev_phase d with Out _ => if dev_in d then 0 else 1 | _ => 0 end),
       ec_dev_take d)
    else if decide (p = 0x62) then
      match dev_phase d with Out v => (v, mkEcDev (dev_ram d) Idle (dev_in d)) | _ => (0, d) end
    else (0, d);
  port_out w p v d :=
    if decide (p = 0x66) then
      mkEcDev (dev_ram d)
        (if decide (v = EC_COMMAND_READ) then GotRead else if decide (v = EC_COMMAND_WRITE) then GotWrite
         else if decide (v = EC_BURST_ENABLE) then Out 0x90 else Idle) true
    else if decide (p = 0x62) then
      match dev_phase d with
      | GotRead => mkEcDev (dev_ram d) (Out (u8 (dev_ram d v))) true
      | GotWrite => mkEcDev (dev_ram d) (GotWriteAddr v) true
      | GotWriteAddr a => mkEcDev (fun x => if decide (x = a) then v else dev_ram d x) Idle true
      | _ => d
      end
    else d
}.

#[export] Instance ec_dev_laws : EcLaws ec_dev 0x62 0x66.
Proof.
  refine {| ec_ram d := fun a => u8 (dev_ram d a); ec_phase := dev_phase;
    ec_in d := if dev_in d then 1%nat else O; ec_out d := O; ec_max := 1%nat |}.
  - intros s. destruct (dev_in s); lia.
  - intros s a. by apply wrap_fits.
  - done.
  - intros [r p i]. destruct p, i; done.
  - intros [r p i] c Hp Hi Hc. cbn in *. subst p.
    rewrite !elem_of_cons, elem_of_nil in Hc. by destruct Hc as [->|[->|[->|[]]]].
  - intros [r p i] Hp Hi. done.
  - intros [r p i] a Ha Hi s'. subst s'. split; [|split].
    + intros Hp. cbn in Hp. by subst p.
    + intros Hp. cbn in Hp. by subst p.
    + intros b Hp. cbn in Hp. subst p. split; [done|]. intros x.
      change (u8 (if decide (x = b) then a else r x) = if decide (x = b) then a else u8 (r x)).
      destruct (decide (x = b)); [by apply wrap_small|done].
  - intros [r p i] v Hp Hi Ho. cbn in Hp. by subst p.
Defined.

Lemma acpi_ec_handler_correct_witness :
  let d := mkEcDev (fun a => a) Idle true in
  exists d' m', acpi_ec_handler (S := ec_dev) 3 0 1 0 0x10 16 (Some 0x1000) (mkEst 0x62 0x66 (fun _ => 0) d)
      = Ok (AE_OK, mkEst 0x62 0x66 m' d') /\ m' 0x1000 = 0x10 /\ m' 0x1001 = 0x11 /\ m' 0x1002 = 0.
Proof.
  intros d.
  assert (Hf : (2 * @ec_max ec_dev _ 0x62 0x66 ec_dev_laws < 3)%nat) by (vm_compute; lia).
  destruct (acpi_ec_handler_correct 3 Hf 0 1 0 0x10 16 (Some 0x1000)
    (fun _ => 0) d) as (d' & m' & R & _ & _ & M); try reflexivity; try lia.
  exists d', m'. split; [exact R|]. rewrite !M. repeat split; reflexivity.
Defined.
