(* ===== verification/Graphics.v ===== *)
(** The console: glyphs drawn into the linear framebuffer (driver/graphics/framebuffer.c), the
    terminal on top (driver/graphics/terminal.c), puts and the callback of printf, vprintf and
    panic (lib/stdio, boot/panic.c).

    Memory is by virtual address; strings lie in a memory of their own, [txt], that drawing
    does not change. The font and its index, generated at build time, are parameters. The
    serial port the text is echoed to is the class of file Ports. *)
From S2P Require Import Prelude Bytes Ports Printf.

(** What the firmware says about the display. *)
Record gop_mode := mkGop {
  FrameBufferBase : Z; FrameBufferSize : Z;
  HorizontalResolution : Z; VerticalResolution : Z; PixelsPerScanLine : Z }.

(** The static variables of the two files, the memory and the machine behind the ports. *)
Record term {S : Type} := mkTerm {
  lfb : Z; lfb_size : Z; width : Z; height : Z; pitch : Z; bpp : Z; ready : bool;
  offsets : list Z;                     (* [offset_1] to [offset_7] *)
  terminal_x : Z; terminal_y : Z; terminal_rows : Z; terminal_lines : Z;
  vram : pmem; tdev : S }.
Arguments term : clear implicits.
Arguments mkTerm {S} _ _ _ _ _ _ _ _ _ _ _ _ _ _.

Definition with_cursor {S} (x y : Z) (t : term S) : term S :=
  mkTerm (lfb t) (lfb_size t) (width t) (height t) (pitch t) (bpp t) (ready t) (offsets t)
    x y (terminal_rows t) (terminal_lines t) (vram t) (tdev t).
Definition with_sizes {S} (r l : Z) (t : term S) : term S :=
  mkTerm (lfb t) (lfb_size t) (width t) (height t) (pitch t) (bpp t) (ready t) (offsets t)
    (terminal_x t) (terminal_y t) r l (vram t) (tdev t).
Definition with_vram {S} (m : pmem) (t : term S) : term S :=
  mkTerm (lfb t) (lfb_size t) (width t) (height t) (pitch t) (bpp t) (ready t) (offsets t)
    (terminal_x t) (terminal_y t) (terminal_rows t) (terminal_lines t) m (tdev t).
Definition with_tdev {S} (d : S) (t : term S) : term S :=
  mkTerm (lfb t) (lfb_size t) (width t) (height t) (pitch t) (bpp t) (ready t) (offsets t)
    (terminal_x t) (terminal_y t) (terminal_rows t) (terminal_lines t) (vram t) d.

(** [memcpy] of disjoint regions. *)
Definition copy (m : pmem) (d s n : Z) : pmem := fun b =>
  if decide (d <= b < d + n) then m (s + (b - d)) else m b.

Definition CHAR_WIDTH : Z := 8.
Definition CHAR_HEIGHT : Z := 16.
Definition framebuffer_font_lookup : list Z := [0; 0xFFFFFFFF].
(** [LFB], on a [size_t]. *)
Definition LFB {S} (t : term S) (x y : Z) : Z := u64 (u64 (x * bpp t) + u64 (y * pitch t)).

Section graphics.
Context {S : Type} `{!PortDevice S}.
Variables (font font_index : list Z) (ufuel : nat).
Abbreviation G := (cmd (term S)).

Definition on_tdev {A} (c : cmd S A) : G A := fun t =>
  match c (tdev t) with Ok (a, d) => Ok (a, with_tdev d t) | Stop w => Stop w end.
Definition putc (c : Z) : G unit := on_tdev (uart_putc ufuel c).
Definition store32 (a v : Z) : G unit := modify (fun t => with_vram (stn 4 (vram t) a v) t).

Definition framebuffer_init (g : gop_mode) : G unit := modify (fun t =>
  let bpp := 4 in
  let offset_1 := bpp in let offset_2 := bpp ≪ 1 in let offset_3 := offset_1 + offset_2 in
  let offset_4 := bpp ≪ 2 in
  mkTerm (FrameBufferBase g) (FrameBufferSize g) (HorizontalResolution g) (VerticalResolution g)
    (u32 (PixelsPerScanLine g * bpp)) bpp true
    [offset_1; offset_2; offset_3; offset_4; offset_4 + offset_1; offset_4 + offset_2; offset_4 + offset_3]
    (terminal_x t) (terminal_y t) (terminal_rows t) (terminal_lines t) (vram t) (tdev t)).

(** The offset is counted in pixels here, in bytes in [framebuffer_draw_char]. *)
Definition framebuffer_set (h v color : Z) : G unit :=
  t ← get_st; store32 (u64 (lfb t + 4 * LFB t h v)) (u32 color).

(** The character at [c]: how many bytes it takes, and its code point. *)
Definition decode (txt : pmem) (c : Z) : Z * Z :=
  let at_ i := u8 (txt (c + i)) in
  let c0 := at_ 0 in
  if decide (c0 .& 0x80 = 0) then (1, c0)
  else if decide (c0 .& 0xE0 = 0xC0) then (2, ((c0 .& 0x1F) ≪ 6) .| (at_ 1 .& 0x3F))
  else if decide (c0 .& 0xF0 = 0xE0) then
    (3, (((c0 .& 0x0F) ≪ 12) .| ((at_ 1 .& 0x3F) ≪ 6)) .| (at_ 2 .& 0x3F))
  else if decide (c0 .& 0xF8 = 0xF0) then
    (4, ((((c0 .& 0x07) ≪ 18) .| ((at_ 1 .& 0x3F) ≪ 12)) .| ((at_ 2 .& 0x3F) ≪ 6)) .| (at_ 3 .& 0x3F))
  else (0, 0).

(** The entry of the font index; reading past its end is a fault. *)
Definition glyph_at (index : Z) : G Z :=
  let i := if decide (64256 <= index) then index - 54416 else index in
  g ← lift_opt (Faulted i) (font_index !! Z.to_nat i); mret (g ≪ 4).

(** One row of eight pixels at [addr], the leftmost from the top bit. *)
Definition draw_row (addr row_data : Z) : G unit :=
  t ← get_st;
  let fg := 0xFFFFFFFF in let bg := 0 in
  let pixel a j :=
    let mask := framebuffer_font_lookup !!! Z.to_nat ((row_data ≫ (7 - j)) .& 1) in
    store32 a ((fg .& mask) .| (bg .& bnot 32 mask)) in
  let offset j := offsets t !!! Z.to_nat (j - 1) in
  _ ← pixel addr 0;
  _ ← pixel (addr + offset 1) 1; _ ← pixel (addr + offset 2) 2; _ ← pixel (addr + offset 3) 3;
  _ ← pixel (addr + offset 4) 4; _ ← pixel (addr + offset 5) 5; _ ← pixel (addr + offset 6) 6;
  pixel (addr + offset 7) 7.

Definition framebuffer_draw_char (txt : pmem) (c x y : Z) : G Z :=
  t ← get_st;
  let addr := lfb t + LFB t x y in
  let '(ret, index) := decode txt c in
  _ ← for_n (Z.to_nat ret) 0 (fun i => putc (u8 (txt (c + i))));
  char_data ← glyph_at index;
  _ ← for_n 16 0 (fun row =>
    row_data ← lift_opt (Faulted (char_data + row)) (font !! Z.to_nat (char_data + row));
    draw_row (addr + row * pitch t) row_data);
  mret ret.

(** *** terminal.c *)
Definition terminal_refresh : G unit :=
  _ ← modify (fun t =>
    if decide (terminal_rows t = 0 /\ terminal_lines t = 0)
    then with_sizes (width t / CHAR_WIDTH) (height t / CHAR_HEIGHT) t else t);
  _ ← modify (fun t =>
    if decide (width t <= terminal_x t) then with_cursor 0 (u32 (terminal_y t + CHAR_HEIGHT)) t else t);
  t ← get_st;
  let bytes_per_line := u32 (pitch t * CHAR_HEIGHT) in
  if decide (height t <= u32 (terminal_y t + CHAR_HEIGHT)) then
    let lines := u32 (terminal_lines t - 1) in
    _ ← for_n (Z.to_nat lines) 0 (fun line =>
      let start := lfb t + line * bytes_per_line in
      modify (fun t => with_vram (copy (vram t) start (start + bytes_per_line) bytes_per_line) t));
    _ ← modify (fun t => with_vram (fill (vram t) (lfb t + lines * bytes_per_line) bytes_per_line 0) t);
    modify (fun t => with_cursor (terminal_x t) (u32 (terminal_y t - CHAR_HEIGHT)) t)
  else mret tt.

(** A string literal of one character. *)
Definition literal (c : Z) : pmem := fun a => if decide (a = 0) then c else 0.

Definition terminal_putc (txt : pmem) (c : Z) : G Z :=
  t ← get_st;
  if ready t then
    let c0 := u8 (txt c) in
    let exit : G Z := _ ← terminal_refresh; _ ← putc c0; mret 1 in
    if decide (c0 = 10) then
      _ ← modify (fun t => with_cursor 0 (u32 (terminal_y t + CHAR_HEIGHT)) t); exit
    else if decide (c0 = 9) then
      _ ← modify (fun t => with_cursor
        (u32 (terminal_x t + CHAR_WIDTH ≪ 2) .& bnot 32 (CHAR_WIDTH ≪ 2 - 1)) (terminal_y t) t); exit
    else if decide (c0 = 8) then
      _ ← modify (fun t => with_cursor
        (if decide (terminal_x t <= CHAR_WIDTH) then 0 else terminal_x t - CHAR_WIDTH) (terminal_y t) t);
      t ← get_st;
      _ ← framebuffer_draw_char (literal 32) 0 (terminal_x t) (terminal_y t);
      _ ← putc 0x08; _ ← putc 0x08; _ ← putc 0x20; exit
    else
      _ ← terminal_refresh;
      t ← get_st;
      ret ← framebuffer_draw_char txt c (terminal_x t) (terminal_y t);
      _ ← modify (fun t => with_cursor (u32 (terminal_x t + CHAR_WIDTH)) (terminal_y t) t);
      mret ret
  else mret 0.

(** *** puts, and the callback of printf *)
Fixpoint puts_loop (fuel : nat) (txt : pmem) (str ret : Z) : G Z :=
  if decide (u8 (txt str) = 0) then mret ret else
  match fuel with
  | O => halt OutOfFuel
  | Datatypes.S fuel => n ← terminal_putc txt str; puts_loop fuel txt (str + n) (ret + 1)
  end.
Definition puts (fuel : nat) (txt : pmem) (str : Z) : G Z :=
  ret ← puts_loop fuel txt str 0; _ ← terminal_putc (literal 10) 0; mret ret.

(** [length] counts the iterations. *)
Fixpoint callback_loop (length : nat) (txt : pmem) (string : Z) : G unit :=
  match length with
  | O => mret tt
  | Datatypes.S length =>
      if decide (u8 (txt string) = 0) then mret tt else
      n ← terminal_putc txt string; callback_loop length txt (string + n)
  end.
Definition callback (txt : pmem) (string length : Z) : G Z :=
  _ ← callback_loop (Z.to_nat length) txt string; mret length.
End graphics.

(** ** The screen

    Pixels as a function of column and row, and a cursor; what the terminal's operations do
    to it. *)
Record screen := mkScreen { sx : Z; sy : Z; pix : Z -> Z -> Z }.

(** A pixel of a row of a glyph. *)
Definition ink (row_data j : Z) : Z := if Z.testbit row_data (7 - j) then 0xFFFFFFFF else 0.

Definition scr_refresh (w h : Z) (s : screen) : screen :=
  let s := if decide (w <= sx s) then mkScreen 0 (sy s + 16) (pix s) else s in
  if decide (h <= sy s + 16) then
    let last := 16 * (h / 16 - 1) in
    mkScreen (sx s) (sy s - 16) (fun px py =>
      if decide (py < last) then pix s px (py + 16)
      else if decide (py < last + 16) then 0 else pix s px py)
  else s.

Definition scr_draw (g : Z -> Z) (s : screen) : screen :=
  mkScreen (sx s) (sy s) (fun px py =>
    if decide (sx s <= px < sx s + 8 /\ sy s <= py < sy s + 16)
    then ink (g (py - sy s)) (px - sx s) else pix s px py).

Definition scr_putc (w h c0 : Z) (g blank : Z -> Z) (s : screen) : screen :=
  if decide (c0 = 10) then scr_refresh w h (mkScreen 0 (sy s + 16) (pix s))
  else if decide (c0 = 9) then scr_refresh w h (mkScreen ((sx s + 32) / 32 * 32) (sy s) (pix s))
  else if decide (c0 = 8) then
    scr_refresh w h (scr_draw blank (mkScreen (Z.max 0 (sx s - 8)) (sy s) (pix s)))
  else let s := scr_draw g (scr_refresh w h s) in mkScreen (sx s + 8) (sy s) (pix s).

(** A display the terminal works on: whole character columns, more than one line, and a
    cursor on the grid. *)
Record term_ok {S} (t : term S) : Prop := {
  ok_ready : ready t = true;
  ok_bpp : bpp t = 4;
  ok_offsets : offsets t = [4; 8; 12; 16; 20; 24; 28];
  ok_width : 0 < width t < 2 ^ 31;
  ok_cols : width t mod 8 = 0;
  ok_pitch : 4 * width t <= pitch t < 2 ^ 28;
  ok_height : 16 < height t < 2 ^ 31;
  ok_x : 0 <= terminal_x t <= width t;
  ok_xcol : terminal_x t mod 8 = 0;
  ok_y : 0 <= terminal_y t /\ terminal_y t + 16 < height t;
  ok_sizes : terminal_rows t = 0 /\ terminal_lines t = 0 \/
             terminal_lines t = height t / 16 /\ terminal_rows t = width t / 8
}.

(** The byte at column [c] (in bytes) of pixel row [r], and the pixels. *)
Definition px_addr {S} (t : term S) (r c : Z) : Z := lfb t + c + pitch t * r.
Definition pixel {S} (t : term S) (px py : Z) : Z := ldn 4 (vram t) (px_addr t py (4 * px)).
Definition shows {S} (t : term S) (s : screen) : Prop :=
  terminal_x t = sx s /\ terminal_y t = sy s /\
  forall px py, 0 <= px < width t -> 0 <= py < height t -> pixel t px py = pix s px py.
(** The fields the terminal never changes. *)
Definition geometry {S} (t : term S) := (lfb t, width t, height t, pitch t, bpp t, ready t, offsets t).
(** Memory outside the framebuffer is as it was. *)
Definition frames {S} (t t' : term S) : Prop :=
  geometry t' = geometry t /\
  forall b, ~ (lfb t <= b < lfb t + pitch t * height t) -> vram t' b = vram t b.

Lemma frames_refl {S} (t : term S) : frames t t.
Proof. done. Qed.
Lemma frames_trans {S} (t1 t2 t3 : term S) : frames t1 t2 -> frames t2 t3 -> frames t1 t3.
Proof.
  intros [G1 M1] [G2 M2]. split; [congruence|]. intros b Hb. unfold geometry in *. simplify_eq.
  rewrite M2; [by apply M1|]. congruence.
Qed.

(** Rows and columns of an address are unique. *)
Lemma coords_inj p r c r' c' : 0 <= c < p -> 0 <= c' < p -> c + p * r = c' + p * r' -> r = r' /\ c = c'.
Proof.
  intros Hc Hc' E. assert (r = r'); [|subst; lia].
  apply (Z.div_mod_unique p r r' c c'); lia.
Qed.

Lemma row_range p r c r0 c0 n : 0 <= c < p -> 0 <= c0 -> c0 + n <= p ->
  (c0 + p * r0 <= c + p * r < c0 + p * r0 + n) <-> (r = r0 /\ c0 <= c < c0 + n).
Proof.
  intros Hc H0 Hn. split; [|intros [-> ?]; lia]. intros Hb.
  destruct (coords_inj p r c r0 (c + p * r - p * r0)) as [-> E]; lia.
Qed.

(** *** One row of a glyph *)
Definition ink_byte (row_data j : Z) : Z := if Z.testbit row_data (7 - j) then 255 else 0.

Lemma stn_ink m a rd j b : stn 4 m a (ink rd j) b = if decide (a <= b < a + 4) then ink_byte rd j else m b.
Proof.
  unfold stn, ink, ink_byte. change (Z.of_nat 4) with 4. case_decide as Hb; [|done].
  destruct (Z.testbit rd (7 - j)); [|by rewrite Z.shiftr_0_l].
  assert (b - a = 0 \/ b - a = 1 \/ b - a = 2 \/ b - a = 3) as Ho by lia.
  by destruct Ho as [->|[->|[->| ->]]].
Qed.

Lemma ldn_const m a v : fits 8 v -> (forall k, 0 <= k < 4 -> m (a + k) = v) ->
  ldn 4 m a = v * 0x1010101.
Proof.
  intros Hv H. rewrite !ldn_S. cbn [ldn].
  pose proof (H 0 ltac:(lia)) as H0. rewrite Z.add_0_r in H0.
  rewrite H0, (H 1), <-!Z.add_assoc, (H (1 + 1)), (H (1 + (1 + 1))) by lia. rewrite wrap_small by done. lia.
Qed.

Section draw.
Context {S : Type} `{!PortDevice S}.
Implicit Types t : term S.

Lemma draw_row_ok t addr rd : offsets t = [4; 8; 12; 16; 20; 24; 28] ->
  exists m, draw_row addr rd t = Ok (tt, with_vram m t) /\
    forall b, m b = if decide (addr <= b < addr + 32) then ink_byte rd ((b - addr) / 4) else vram t b.
Proof.
  intros Ho. unfold draw_row, store32. erewrite bind_ok by reflexivity. cbv beta zeta. rewrite Ho.
  assert (Hp : forall j, 0 <= j < 8 ->
    (0xFFFFFFFF .& (framebuffer_font_lookup !!! Z.to_nat ((rd ≫ (7 - j)) .& 1))) .|
    (0 .& bnot 32 (framebuffer_font_lookup !!! Z.to_nat ((rd ≫ (7 - j)) .& 1))) = ink rd j).
  { intros j Hj. rewrite Z.land_0_l, Z.lor_0_r. unfold ink.
    change ((rd ≫ (7 - j)) .& 1) with ((rd ≫ (7 - j)) .& 2 ^ 0). rewrite land_bit by done.
    rewrite Z.shiftr_spec by done. rewrite Z.add_0_l. by destruct (Z.testbit rd (7 - j)). }
  rewrite !Hp by lia.
  assert (Hoff : forall j, 1 <= j < 8 -> [4; 8; 12; 16; 20; 24; 28] !!! Z.to_nat (j - 1) = 4 * j).
  { intros j Hj. assert (j = 1 \/ j = 2 \/ j = 3 \/ j = 4 \/ j = 5 \/ j = 6 \/ j = 7) as H by lia.
    by destruct H as [->|[->|[->|[->|[->|[->| ->]]]]]]. }
  rewrite !Hoff by lia. cmd_unfold. eexists. split; [reflexivity|].
  intros b. cbn [vram with_vram]. rewrite !stn_ink.
  destruct (decide (addr <= b < addr + 32)) as [Hb|Hb].
  - assert (Hd : exists j, (b - addr) / 4 = j /\ 0 <= j < 8 /\ addr + 4 * j <= b < addr + 4 * j + 4)
      by (exists ((b - addr) / 4); zlia).
    destruct Hd as (j & -> & Hj & Hbj). clear Hp Hb Ho Hoff.
    repeat (case_decide; [f_equal; lia|]). lia.
  - repeat (case_decide; [lia|]). done.
Qed.
End draw.

(** *** Glyphs *)

(** The rows of the glyph of a code point, if the font has it. *)
Definition glyph (font font_index : list Z) (index : Z) : option (Z -> Z) :=
  g ← font_index !! Z.to_nat (if decide (64256 <= index) then index - 54416 else index);
  if decide (0 <= g /\ 16 * g + 16 <= Z.of_nat (length font))
  then Some (fun row => font !!! Z.to_nat (16 * g + row)) else None.

(** The bytes of the character at [c]. *)
Definition char_bytes (txt : pmem) (c : Z) : list Z :=
  (fun i => u8 (txt (c + i))) <$> seqZ 0 (fst (decode txt c)).

Lemma decode_range txt c : 0 <= fst (decode txt c) <= 4 /\ 0 <= snd (decode txt c).
Proof.
  unfold decode. cbv zeta. repeat case_decide; cbn [fst snd]; (split; [lia|]); rewrite ?Z.lor_nonneg, ?Z.shiftl_nonneg;
    rewrite ?Z.land_nonneg; pose proof (wrap_fits 8 (txt (c + 0))); unfold fits in *; intuition lia.
Qed.

Section glyphs.
Context {S : Type} `{!PortDevice S, !UartLaws S}.
Variables (font font_index : list Z) (ufuel : nat).
Hypothesis Hufuel : (uart_max < ufuel)%nat.
Implicit Types t : term S.
Abbreviation draw_char := (framebuffer_draw_char font font_index ufuel).

Lemma draw_rows_ok t x y cd (g : Z -> Z) : offsets t = [4; 8; 12; 16; 20; 24; 28] ->
  0 <= x -> 4 * x + 32 <= pitch t ->
  (forall row, 0 <= row < 16 -> font !! Z.to_nat (cd + row) = Some (g row)) ->
  exists m, for_n 16 0 (fun row =>
      row_data ← lift_opt (Faulted (cd + row)) (font !! Z.to_nat (cd + row));
      draw_row (px_addr t y (4 * x) + row * pitch t) row_data) t = Ok (tt, with_vram m t) /\
    (forall r c, 0 <= c < pitch t -> m (px_addr t r c) =
      if decide (y <= r < y + 16 /\ 4 * x <= c < 4 * x + 32)
      then ink_byte (g (r - y)) ((c - 4 * x) / 4) else vram t (px_addr t r c)) /\
    (forall b, ~ (px_addr t y 0 <= b < px_addr t (y + 16) 0) -> m b = vram t b).
Proof.
  intros Ho Hx Hp Hg.
  match goal with |- context [for_n 16 0 ?b] => set (body := b) end.
  destruct (for_n_inv (fun i t' => exists m, t' = with_vram m t /\
    (forall r c, 0 <= c < pitch t -> m (px_addr t r c) =
      if decide (y <= r < y + i /\ 4 * x <= c < 4 * x + 32)
      then ink_byte (g (r - y)) ((c - 4 * x) / 4) else vram t (px_addr t r c)) /\
    (forall b, ~ (px_addr t y 0 <= b < px_addr t (y + i) 0) -> m b = vram t b)) 16 0 body t)
    as (t' & R & m & -> & M & O).
  - exists (vram t). split; [by destruct t|]. split; [|done]. intros r c Hc. by rewrite decide_False by lia.
  - intros i t' Hi (m & -> & M & O). unfold body. rewrite (Hg i) by lia.
    erewrite bind_ok by reflexivity. cbv beta.
    destruct (draw_row_ok (with_vram m t) (px_addr t y (4 * x) + i * pitch t) (g i) Ho) as (m' & R & M').
    eexists. split; [exact R|]. exists m'. split; [done|]. cbn [vram with_vram] in M'. split.
    + intros r c Hc. rewrite M', M by done. clear R M O M' Hg body Ho. unfold px_addr in *.
      pose proof (row_range (pitch t) r c (y + i) (4 * x) 32 Hc) as Hrow.
      destruct (decide (r = y + i /\ 4 * x <= c < 4 * x + 32)) as [[-> Hin]|Hout].
      * rewrite decide_True by lia. rewrite decide_True by lia. f_equal; [f_equal; lia|]. f_equal. lia.
      * rewrite decide_False by lia.
        destruct (decide (y <= r < y + i /\ 4 * x <= c < 4 * x + 32)); [by rewrite decide_True by lia|].
        by rewrite decide_False by lia.
    + intros b Hb. unfold px_addr in *. rewrite M', decide_False, O by nia. done.
  - exists m. split; [exact R|]. split; [exact M|exact O].
Qed.

Lemma glyph_at_ok t index g : Forall (fits 16) font_index -> 0 <= index -> glyph font font_index index = Some g ->
  exists cd, glyph_at font_index index t = Ok (cd, t) /\
    forall row, 0 <= row < 16 -> font !! Z.to_nat (cd + row) = Some (g row).
Proof.
  intros Hfi Hi Hg. unfold glyph in Hg. unfold glyph_at.
  destruct (font_index !! _) as [k|] eqn:Hk; [|done]. cbn in Hg.
  case_decide as Hb; [|done]. injection Hg as <-. exists (k ≪ 4). split; [done|].
  intros row Hrow. rewrite Z.shiftl_mul_pow2 by lia. replace (k * 2 ^ 4 + row) with (16 * k + row) by lia.
  apply list_lookup_lookup_total_lt. lia.
Qed.

Lemma bytes_sent t bs i txt c : uart_dlab (tdev t) = false -> bs = (fun i => u8 (txt (c + i))) <$> seqZ i (Z.of_nat (length bs)) ->
  exists d, for_n (length bs) i (fun i => putc ufuel (u8 (txt (c + i)))) t = Ok (tt, with_tdev d t) /\
    uart_dlab d = false /\ uart_sent d = uart_sent (tdev t) ++ bs.
Proof.
  intros Hd. revert t i Hd. induction bs as [|b bs IH]; intros t i Hd Hbs.
  { exists (tdev t). split; [by destruct t|]. by rewrite app_nil_r. }
  cbn [length] in *. rewrite Nat2Z.inj_succ, seqZ_cons in Hbs by lia. cbn [fmap list_fmap] in Hbs.
  rewrite Z.pred_succ in Hbs. injection Hbs as Hb Hbs.
  cbn [for_n]. destruct (uart_putc_ok (tdev t) ufuel (u8 (txt (c + i)))) as (d & R & Hs & Hd'); [done|done|].
  erewrite bind_ok by (unfold putc, on_tdev; rewrite R; reflexivity). cbv beta.
  destruct (IH (with_tdev d t) (i + 1)) as (d' & R' & Hd2 & Hs'); [done|by rewrite Z.add_1_r|].
  exists d'. split; [exact R'|]. split; [done|]. cbn [tdev with_tdev] in Hs'.
  rewrite Hs', Hs, <-app_assoc, wrap_wrap, <-Hb. done.
Qed.

Lemma draw_char_ok t s txt c g : term_ok t -> shows t s -> uart_dlab (tdev t) = false ->
  sx s + 8 <= width t -> Forall (fits 16) font_index ->
  glyph font font_index (snd (decode txt c)) = Some g ->
  exists t', draw_char txt c (terminal_x t) (terminal_y t) t = Ok (fst (decode txt c), t') /\
    term_ok t' /\ shows t' (scr_draw g s) /\ frames t t' /\ uart_dlab (tdev t') = false /\
    uart_sent (tdev t') = uart_sent (tdev t) ++ char_bytes txt c.
Proof.
  intros Hok (Hsx & Hsy & Hpix) Hd Hw Hfi Hg. destruct (decode_range txt c) as [Hn Hidx].
  unfold framebuffer_draw_char. erewrite bind_ok by reflexivity. cbv beta zeta.
  destruct (decode txt c) as [n idx] eqn:Hdec. cbn [fst snd] in *.
  assert (Hlen : length (char_bytes txt c) = Z.to_nat n).
  { unfold char_bytes. by rewrite length_fmap, length_seqZ, Hdec. }
  destruct (bytes_sent t (char_bytes txt c) 0 txt c) as (d & R1 & Hd1 & Hs1); [done| |].
  { rewrite Hlen, Z2Nat.id by lia. unfold char_bytes. by rewrite Hdec. }
  rewrite Hlen in R1. erewrite bind_ok by exact R1. cbv beta.
  destruct (glyph_at_ok (with_tdev d t) idx g) as (cd & R2 & Hfont); [done|done|done|].
  erewrite bind_ok by exact R2. cbv beta.
  assert (Hx0 : 0 <= terminal_x t) by apply Hok. assert (Hy0 : 0 <= terminal_y t /\ terminal_y t + 16 < height t) by apply Hok.
  assert (Hp : 4 * width t <= pitch t < 2 ^ 28) by apply Hok. assert (Hh : 16 < height t < 2 ^ 31) by apply Hok.
  assert (Haddr : lfb t + LFB t (terminal_x t) (terminal_y t) = px_addr t (terminal_y t) (4 * terminal_x t)).
  { assert (Hyp : 0 <= terminal_y t * pitch t < 2 ^ 31 * 2 ^ 28)
      by (split; [apply Z.mul_nonneg_nonneg; lia|apply Z.mul_lt_mono_nonneg; lia]).
    unfold LFB, px_addr. rewrite (ok_bpp t) by done.
    rewrite (wrap_small 64 (terminal_x t * 4)), (wrap_small 64 (terminal_y t * pitch t)) by (unfold fits; lia).
    rewrite wrap_small by (unfold fits; lia). lia. }
  rewrite Haddr.
  destruct (draw_rows_ok (with_tdev d t) (terminal_x t) (terminal_y t) cd g) as (m & R3 & M & O);
    [apply Hok|done|cbn [pitch with_tdev]; lia|done|].
  exists (with_vram m (with_tdev d t)). split.
  { erewrite bind_ok by exact R3. done. }
  split; [destruct Hok; by constructor|]. split.
  - split; [done|]. split; [done|]. intros px py Hpx Hpy. cbn [width height with_tdev with_vram] in Hpx, Hpy.
    unfold scr_draw. cbn [pix sx sy]. rewrite <-Hsx, <-Hsy, <-(Hpix px py) by done.
    unfold pixel. cbn [vram with_vram].
    assert (A : forall k, px_addr t py (4 * px) + k = px_addr t py (4 * px + k)) by (unfold px_addr; lia).
    change (px_addr (with_vram m (with_tdev d t))) with (px_addr t).
    change (px_addr (with_tdev d t)) with (px_addr t) in M. cbn [pitch vram with_tdev] in M.
    case_decide as Hin.
    + transitivity (ink_byte (g (py - terminal_y t)) (px - terminal_x t) * 0x1010101).
      * apply ldn_const; [unfold ink_byte; destruct (Z.testbit _ _); done|]. intros k Hk.
        rewrite A, M, decide_True by lia. f_equal. replace (4 * px + k - 4 * terminal_x t) with (k + (px - terminal_x t) * 4) by lia.
        rewrite Z.div_add, Z.div_small by lia. lia.
      * unfold ink_byte, ink. by destruct (Z.testbit _ _).
    + apply ldn_ext. intros k Hk. change (Z.of_nat 4) with 4 in Hk. rewrite A, M by lia. by rewrite decide_False by lia.
  - split; [|done]. split; [done|]. intros b Hb. apply O. unfold px_addr. cbn [lfb pitch with_tdev]. nia.
Qed.
End glyphs.

(** *** Scrolling *)
Section scroll.
Context {S : Type}.
Implicit Types t : term S.

(** The lines are copied upwards one after the other: together they move up by one. *)
Lemma scroll_lines t n bpl : 0 < bpl ->
  exists m, for_n n 0 (fun line =>
      let start := lfb t + line * bpl in
      modify (fun t => with_vram (copy (vram t) start (start + bpl) bpl) t)) t = Ok (tt, with_vram m t) /\
    forall b, m b = if decide (lfb t <= b < lfb t + Z.of_nat n * bpl) then vram t (b + bpl) else vram t b.
Proof.
  intros Hb. match goal with |- context [for_n n 0 ?x] => set (body := x) end.
  destruct (for_n_inv (fun i t' => exists m, t' = with_vram m t /\ forall b,
    m b = if decide (lfb t <= b < lfb t + i * bpl) then vram t (b + bpl) else vram t b) n 0 body t)
    as (t' & R & m & -> & M).
  - exists (vram t). split; [by destruct t|]. intros b. by rewrite decide_False by lia.
  - intros i t' Hi (m & -> & M). eexists. split; [reflexivity|]. eexists. split; [reflexivity|].
    intros b. cbn [vram with_vram]. unfold copy. rewrite !M.
    destruct (decide (lfb t + i * bpl <= b < lfb t + i * bpl + bpl)) as [Hin|Hout].
    + rewrite decide_False by lia. rewrite decide_True by lia. f_equal. lia.
    + destruct (decide (lfb t <= b < lfb t + i * bpl)); [by rewrite decide_True by lia|].
      by rewrite decide_False by lia.
  - exists m. split; [exact R|exact M].
Qed.

Lemma refresh_ok t x y P : term_ok t -> shows t (mkScreen (terminal_x t) (terminal_y t) P) ->
  0 <= x < 2 ^ 32 -> x mod 8 = 0 -> 0 <= y < height t -> y + 16 < height t \/ 16 <= y ->
  (width t <= x -> y + 16 < height t) ->
  exists t', terminal_refresh (with_cursor x y t) = Ok (tt, t') /\ term_ok t' /\ terminal_x t' < width t /\
    shows t' (scr_refresh (width t) (height t) (mkScreen x y P)) /\ frames t t' /\ tdev t' = tdev t.
Proof.
  intros Hok (_ & _ & Hpix) Hx Hxc Hy Hy16 Hxy. cbn [pix] in Hpix.
  assert (Hw : 0 < width t < 2 ^ 31) by apply Hok. assert (Hp : 4 * width t <= pitch t < 2 ^ 28) by apply Hok.
  assert (Hh : 16 < height t < 2 ^ 31) by apply Hok.
  unfold terminal_refresh. erewrite bind_ok by reflexivity. cbv beta.
  set (r := width t / 8). set (l := height t / 16).
  assert (Hr : (if decide (terminal_rows (with_cursor x y t) = 0 /\ terminal_lines (with_cursor x y t) = 0)
    then with_sizes (width (with_cursor x y t) / CHAR_WIDTH) (height (with_cursor x y t) / CHAR_HEIGHT) (with_cursor x y t)
    else with_cursor x y t) = with_sizes r l (with_cursor x y t)).
  { case_decide as Hd; [done|]. destruct (ok_sizes t Hok) as [?|[E1 E2]]; [by destruct Hd|].
    unfold with_sizes. cbn [terminal_rows terminal_lines with_cursor]. unfold r, l. rewrite <-E1, <-E2. by destruct t. }
  rewrite Hr. clear Hr. erewrite bind_ok by reflexivity. cbv beta. unfold CHAR_HEIGHT.
  set (s1 := if decide (width t <= x) then mkScreen 0 (y + 16) P else mkScreen x y P).
  assert (Hs1 : (if decide (width (with_sizes r l (with_cursor x y t)) <= terminal_x (with_sizes r l (with_cursor x y t)))
    then with_cursor 0 (u32 (terminal_y (with_sizes r l (with_cursor x y t)) + 16)) (with_sizes r l (with_cursor x y t))
    else with_sizes r l (with_cursor x y t)) = with_sizes r l (with_cursor (sx s1) (sy s1) t)).
  { unfold s1. cbn [width terminal_x terminal_y with_sizes with_cursor]. case_decide; [|done].
    rewrite wrap_small by (unfold fits; lia). done. }
  rewrite Hs1. clear Hs1.
  assert (H1 : 0 <= sx s1 < width t /\ sx s1 mod 8 = 0 /\ 0 <= sy s1 < height t /\
      (sy s1 + 16 < height t \/ 16 <= sy s1) /\ pix s1 = P)
    by (unfold s1; case_decide; cbn [sx sy pix]; intuition (lia || done)).
  assert (Hsc : scr_refresh (width t) (height t) (mkScreen x y P) =
    if decide (height t <= sy s1 + 16) then mkScreen (sx s1) (sy s1 - 16) (fun px py =>
      if decide (py < 16 * (l - 1)) then P px (py + 16) else if decide (py < 16 * (l - 1) + 16) then 0 else P px py)
    else s1).
  { unfold scr_refresh. cbn [sx sy pix]. fold s1. destruct H1 as (_ & _ & _ & _ & ->). done. }
  rewrite Hsc. clear Hsc. destruct H1 as (Hx1 & Hxc1 & Hy1 & Hy2 & HP). clearbody s1. destruct s1 as [x1 y1 P1]. cbn [sx sy pix] in *.
  subst P1. erewrite bind_ok by reflexivity. cbv beta zeta. cbn [width height pitch terminal_x terminal_y terminal_lines lfb with_sizes with_cursor].
  assert (Hl : 1 <= l) by (unfold l; zlia).
  assert (Hl16 : 16 * l <= height t) by (unfold l; zlia).
  rewrite (wrap_small 32 (pitch t * 16)), (wrap_small 32 (y1 + 16)), (wrap_small 32 (l - 1)) by (unfold fits; lia).
  case_decide as Hscroll.
  - destruct (scroll_lines (with_sizes r l (with_cursor x1 y1 t)) (Z.to_nat (l - 1)) (pitch t * 16)) as (m & R & M); [lia|].
    cbn [lfb vram with_sizes with_cursor] in R, M. rewrite Z2Nat.id in M by lia.
    erewrite bind_ok by exact R. cbv beta. erewrite bind_ok by reflexivity. cbv beta.
    eexists. split; [reflexivity|]. cbn [terminal_x terminal_y lfb vram with_sizes with_cursor with_vram].
    rewrite (wrap_small 32 (y1 - 16)) by (unfold fits; lia).
    set (m' := fill m (lfb t + (l - 1) * (pitch t * 16)) (pitch t * 16) 0).
    split.
    { destruct Hok. constructor; try done; cbn; lia. }
    split; [cbn; lia|]. split; [|split; [|done]].
    + split; [done|]. split; [done|]. intros px py Hpx Hpy. cbn [pix].
      change (pixel (with_cursor x1 (y1 - 16) (with_vram m' (with_vram m (with_sizes r l (with_cursor x1 y1 t))))) px py)
        with (ldn 4 m' (px_addr t py (4 * px))).
      change (0 <= px < width t) in Hpx. change (0 <= py < height t) in Hpy. clearbody r l.
      assert (Hrow : forall q, py < q -> 4 * px + 4 + pitch t * py <= pitch t * q) by (intros q Hq; pose proof (Z.mul_le_mono_nonneg_l (py + 1) q (pitch t) ltac:(lia) ltac:(lia)); lia).
      assert (Hrow' : forall q, q <= py -> pitch t * q <= pitch t * py) by (intros q Hq; apply Z.mul_le_mono_nonneg_l; lia).
      destruct (decide (py < 16 * (l - 1))) as [H1|H1]; [|destruct (decide (py < 16 * (l - 1) + 16)) as [H2|H2]].
      * rewrite <-Hpix by lia. unfold pixel.
        transitivity (ldn 4 (fun b => vram t (b + pitch t * 16)) (px_addr t py (4 * px))).
        { apply ldn_ext. intros k Hk. change (Z.of_nat 4) with 4 in Hk. unfold m', fill, px_addr.
          specialize (Hrow _ H1). rewrite decide_False by lia. rewrite M, decide_True by (pose proof (Hrow' 0 ltac:(lia)); lia). done. }
        rewrite !ldn_S. unfold px_addr. cbn [ldn]. do 3 (f_equal; [do 2 f_equal; lia|]; f_equal).
        f_equal. do 2 f_equal. lia.
      * apply ldn_fill; unfold px_addr; change (Z.of_nat 4) with 4; [pose proof (Hrow' (16 * (l - 1)) ltac:(lia)); lia|].
        specialize (Hrow (16 * (l - 1) + 16)). lia.
      * rewrite <-Hpix by lia. apply ldn_ext. intros k Hk. change (Z.of_nat 4) with 4 in Hk. unfold m', fill, px_addr.
        pose proof (Hrow' (16 * (l - 1) + 16) ltac:(lia)). rewrite decide_False by lia. rewrite M, decide_False by lia. done.
    + split; [done|]. intros b Hb. cbn. unfold m', fill.
      assert (pitch t * (16 * l) <= pitch t * height t) by (apply Z.mul_le_mono_nonneg_l; lia).
      rewrite decide_False by nia. rewrite M, decide_False by nia. done.
  - eexists. split; [reflexivity|]. split.
    { destruct Hok. constructor; try done; cbn; lia. }
    split; [cbn; lia|]. split; [|done]. split; [done|]. split; [done|]. exact Hpix.
Qed.
End scroll.

(** ** The terminal *)

(** What is sent to the serial port for the character at [c]. *)
Definition echo (txt : pmem) (c : Z) : list Z :=
  let c0 := u8 (txt c) in
  if decide (c0 = 10 \/ c0 = 9) then [c0]
  else if decide (c0 = 8) then [32; 8; 8; 32; 8] else char_bytes txt c.

Section terminal.
Context {S : Type} `{!PortDevice S, !UartLaws S}.
Variables (font font_index : list Z) (ufuel : nat) (blank : Z -> Z).
Hypothesis Hufuel : (uart_max < ufuel)%nat.
Hypothesis Hindex : Forall (fits 16) font_index.
Hypothesis Hblank : glyph font font_index 32 = Some blank.
Implicit Types t : term S.
Abbreviation putc_ := (terminal_putc font font_index ufuel).

Lemma putc_sent t c : uart_dlab (tdev t) = false -> fits 8 c ->
  exists d, putc ufuel c t = Ok (tt, with_tdev d t) /\ uart_dlab d = false /\
    uart_sent d = uart_sent (tdev t) ++ [c].
Proof.
  intros Hd Hc. destruct (uart_putc_ok (tdev t) ufuel c) as (d & R & Hs & Hd'); [done|done|].
  exists d. unfold putc, on_tdev. rewrite R. rewrite (wrap_small 8) in Hs by done. done.
Qed.

(** Only the machine behind the ports changes. *)
Lemma with_tdev_ok t d s : term_ok t -> shows t s -> term_ok (with_tdev d t) /\ shows (with_tdev d t) s /\ frames t (with_tdev d t).
Proof. intros Hok Hs. split; [destruct Hok; by constructor|]. done. Qed.

(** The end of a control character: refresh and echo. *)
Lemma control_ok t x y P c : term_ok t -> shows t (mkScreen (terminal_x t) (terminal_y t) P) ->
  uart_dlab (tdev t) = false -> fits 8 c ->
  0 <= x < 2 ^ 32 -> x mod 8 = 0 -> 0 <= y < height t -> y + 16 < height t \/ 16 <= y ->
  (width t <= x -> y + 16 < height t) ->
  exists t', (_ ← terminal_refresh; _ ← putc ufuel c; mret 1) (with_cursor x y t) = Ok (1, t') /\ term_ok t' /\
    shows t' (scr_refresh (width t) (height t) (mkScreen x y P)) /\ frames t t' /\
    uart_dlab (tdev t') = false /\ uart_sent (tdev t') = uart_sent (tdev t) ++ [c].
Proof.
  intros Hok Hs Hd Hc Hx Hxc Hy Hy16 Hxy.
  destruct (refresh_ok t x y P) as (t1 & R1 & Hok1 & _ & Hs1 & Hf1 & Hd1); try done.
  erewrite bind_ok by exact R1. cbv beta.
  destruct (putc_sent t1 c) as (d & R2 & Hd2 & Hsent); [by rewrite Hd1|done|].
  erewrite bind_ok by exact R2. destruct (with_tdev_ok t1 d _ Hok1 Hs1) as (H1 & H2 & H3).
  eexists. split; [reflexivity|]. split; [done|]. split; [done|]. split; [by eapply frames_trans|].
  split; [done|]. cbn [tdev with_tdev]. by rewrite Hsent, Hd1.
Qed.

Lemma with_cursor_ok t x : term_ok t -> 0 <= x <= width t -> x mod 8 = 0 ->
  term_ok (with_cursor x (terminal_y t) t) /\
  forall P, shows t (mkScreen (terminal_x t) (terminal_y t) P) ->
    shows (with_cursor x (terminal_y t) t) (mkScreen x (terminal_y t) P).
Proof. intros Hok Hx Hxc. split; [destruct Hok; by constructor|]. intros P (_ & _ & H). done. Qed.

Lemma backspace_ok t P : term_ok t -> shows t (mkScreen (terminal_x t) (terminal_y t) P) ->
  uart_dlab (tdev t) = false ->
  let x := Z.max 0 (terminal_x t - 8) in
  let t1 := with_cursor x (terminal_y t) t in
  exists t', (_ ← framebuffer_draw_char font font_index ufuel (literal 32) 0 (terminal_x t1) (terminal_y t1);
      _ ← putc ufuel 8; _ ← putc ufuel 8; _ ← putc ufuel 32;
      _ ← terminal_refresh; _ ← putc ufuel 8; mret 1) t1 = Ok (1, t') /\ term_ok t' /\
    shows t' (scr_refresh (width t) (height t) (scr_draw blank (mkScreen x (terminal_y t) P))) /\ frames t t' /\
    uart_dlab (tdev t') = false /\ uart_sent (tdev t') = uart_sent (tdev t) ++ [32; 8; 8; 32; 8].
Proof.
  intros Hok Hs Hd x t0. subst t0.
  pose proof (ok_width t Hok) as Hw. pose proof (ok_height t Hok) as Hh. pose proof (ok_x t Hok) as Hx.
  pose proof (ok_xcol t Hok) as Hxc. pose proof (ok_y t Hok) as Hy. pose proof (ok_cols t Hok) as Hwc.
  assert (Hx' : 0 <= x < width t /\ x mod 8 = 0 /\ x + 8 <= width t) by (unfold x; zlia).
  destruct (with_cursor_ok t x Hok) as [Hok1 Hs1]; [lia|lia|]. specialize (Hs1 P Hs).
  destruct (draw_char_ok font font_index ufuel Hufuel (with_cursor x (terminal_y t) t) (mkScreen x (terminal_y t) P)
    (literal 32) 0 blank) as (t2 & R2 & Hok2 & Hs2 & Hf2 & Hd2 & Hsent2);
    [done|done|done|cbn; lia|done|done|].
  erewrite bind_ok by exact R2. cbv beta.
  destruct (putc_sent t2 8) as (d3 & R3 & Hd3 & Hsent3); [done|done|]. erewrite bind_ok by exact R3. cbv beta.
  destruct (putc_sent (with_tdev d3 t2) 8) as (d4 & R4 & Hd4 & Hsent4); [done|done|]. erewrite bind_ok by exact R4. cbv beta.
  destruct (putc_sent (with_tdev d4 (with_tdev d3 t2)) 32) as (d5 & R5 & Hd5 & Hsent5); [done|done|]. erewrite bind_ok by exact R5. cbv beta.
  set (t5 := with_tdev d5 _) in *.
  assert (E5 : t5 = with_tdev d5 t2) by done.
  destruct (with_tdev_ok t2 d5 _ Hok2 Hs2) as (Hok5 & Hs5 & Hf5). rewrite <-E5 in *.
  assert (Hxy5 : terminal_x t5 = x /\ terminal_y t5 = terminal_y t) by (destruct Hs5 as (-> & -> & _); done).
  destruct Hxy5 as [Ex5 Ey5].
  assert (Hgeo : geometry t5 = geometry t).
  { destruct Hf5 as [-> _]. destruct Hf2 as [-> _]. done. }
  unfold geometry in Hgeo. injection Hgeo as _ Egw Egh _ _ _ _.
  change (width t5 = width t) in Egw. change (height t5 = height t) in Egh.
  assert (Et5 : with_cursor x (terminal_y t) t5 = t5) by (rewrite <-Ex5, <-Ey5; by destruct t5).
  destruct (control_ok t5 x (terminal_y t) (pix (scr_draw blank (mkScreen x (terminal_y t) P))) 8)
    as (t6 & R6 & Hok6 & Hs6 & Hf6 & Hd6 & Hsent6); rewrite ?Egw, ?Egh; try (done || lia).
  { rewrite Ex5, Ey5. exact Hs5. }
  rewrite Et5 in R6. exists t6. split; [exact R6|]. split; [done|]. rewrite Egw, Egh in Hs6. split; [exact Hs6|].
  split; [eapply frames_trans; [|eapply frames_trans; [exact Hf5|done]]; exact Hf2|]. split; [done|].
  rewrite Hsent6. cbn [tdev with_tdev t5] in *. rewrite Hsent5, Hsent4, Hsent3, Hsent2.
  change (char_bytes (literal 32) 0) with [32]. cbn [tdev with_cursor]. rewrite <-!app_assoc. done.
Qed.

(** Any other character: it is drawn after a refresh. *)
Lemma visible_ok t P txt c g : term_ok t -> shows t (mkScreen (terminal_x t) (terminal_y t) P) ->
  uart_dlab (tdev t) = false -> glyph font font_index (snd (decode txt c)) = Some g ->
  exists t', (_ ← terminal_refresh; t ← get_st;
      ret ← framebuffer_draw_char font font_index ufuel txt c (terminal_x t) (terminal_y t);
      _ ← modify (fun t => with_cursor (u32 (terminal_x t + CHAR_WIDTH)) (terminal_y t) t); mret ret) t =
      Ok (fst (decode txt c), t') /\ term_ok t' /\
    shows t' (let s := scr_draw g (scr_refresh (width t) (height t) (mkScreen (terminal_x t) (terminal_y t) P)) in
      mkScreen (sx s + 8) (sy s) (pix s)) /\ frames t t' /\
    uart_dlab (tdev t') = false /\ uart_sent (tdev t') = uart_sent (tdev t) ++ char_bytes txt c.
Proof.
  intros Hok Hs Hd Hg.
  pose proof (ok_width t Hok) as Hw. pose proof (ok_height t Hok) as Hh. pose proof (ok_x t Hok) as Hx.
  pose proof (ok_xcol t Hok) as Hxc. pose proof (ok_y t Hok) as Hy. pose proof (ok_cols t Hok) as Hwc.
  assert (Ht : with_cursor (terminal_x t) (terminal_y t) t = t) by (by destruct t).
  destruct (refresh_ok t (terminal_x t) (terminal_y t) P) as (t1 & R1 & Hok1 & Hx1 & Hs1 & Hf1 & Hd1); try (done || lia).
  rewrite Ht in R1. erewrite bind_ok by exact R1. cbv beta. erewrite bind_ok by reflexivity. cbv beta.
  set (s1 := scr_refresh _ _ _) in *.
  assert (Hg1 := proj1 Hf1). unfold geometry in Hg1. injection Hg1 as _ Egw Egh _ _ _ _.
  assert (Hxc1 : terminal_x t1 mod 8 = 0) by apply Hok1. assert (Hx1' : 0 <= terminal_x t1) by apply Hok1.
  assert (Ex1 : terminal_x t1 = sx s1 /\ terminal_y t1 = sy s1) by (split; apply Hs1). destruct Ex1 as [Ex1 Ey1].
  destruct (draw_char_ok font font_index ufuel Hufuel t1 s1 txt c g) as (t2 & R2 & Hok2 & Hs2 & Hf2 & Hd2 & Hsent2);
    [done|done|by rewrite Hd1|zlia|done|done|].
  erewrite bind_ok by exact R2. cbv beta. erewrite bind_ok by reflexivity. cbv beta.
  assert (Ex2 : terminal_x t2 = sx s1 /\ terminal_y t2 = sy s1) by (split; apply Hs2). destruct Ex2 as [Ex2 Ey2].
  assert (Hg2 := proj1 Hf2). unfold geometry in Hg2. injection Hg2 as _ Egw2 _ _ _ _ _.
  unfold CHAR_WIDTH. rewrite wrap_small by (unfold fits; lia).
  destruct (with_cursor_ok t2 (terminal_x t2 + 8) Hok2) as [Hok3 _]; [zlia|zlia|].
  eexists. split; [reflexivity|]. split; [exact Hok3|]. split.
  { split; [cbn; lia|]. split; [cbn; lia|]. apply Hs2. }
  split; [eapply frames_trans; [exact Hf1|]; exact Hf2|]. split; [done|]. cbn [tdev with_cursor]. by rewrite Hsent2, Hd1.
Qed.
Lemma putc_refines t s txt c g : term_ok t -> shows t s -> uart_dlab (tdev t) = false ->
  glyph font font_index (snd (decode txt c)) = Some g ->
  exists t', putc_ txt c t = Ok (fst (decode txt c), t') /\ term_ok t' /\
    shows t' (scr_putc (width t) (height t) (u8 (txt c)) g blank s) /\ frames t t' /\
    uart_dlab (tdev t') = false /\ uart_sent (tdev t') = uart_sent (tdev t) ++ echo txt c.
Proof.
  intros Hok Hs Hd Hg.
  assert (Hw : 0 < width t < 2 ^ 31) by apply Hok. assert (Hh : 16 < height t < 2 ^ 31) by apply Hok.
  assert (Hx : 0 <= terminal_x t <= width t) by apply Hok. assert (Hxc : terminal_x t mod 8 = 0) by apply Hok.
  assert (Hy : 0 <= terminal_y t /\ terminal_y t + 16 < height t) by apply Hok.
  assert (Hwc : width t mod 8 = 0) by apply Hok.
  assert (Ht : with_cursor (terminal_x t) (terminal_y t) t = t) by (by destruct t).
  destruct s as [x y P]. assert (Hs' := Hs). destruct Hs' as (Ex & Ey & HP). cbn [sx sy pix] in Ex, Ey, HP.
  rewrite <-Ex, <-Ey in *. clear x y Ex Ey.
  unfold terminal_putc. erewrite bind_ok by reflexivity. cbv beta zeta. rewrite (ok_ready t) by done.
  unfold scr_putc, echo. cbv zeta. cbn [sx sy pix].
  assert (Hdec : u8 (txt c) .& 128 = 0 -> fst (decode txt c) = 1).
  { intros E. unfold decode. cbv zeta. rewrite Z.add_0_r, decide_True by done. done. }
  destruct (decide (u8 (txt c) = 10)) as [E10|N10].
  { erewrite bind_ok by reflexivity. rewrite (decide_True (P := _ \/ _)) by tauto. rewrite (Hdec ltac:(by rewrite E10)).
    rewrite E10. unfold CHAR_HEIGHT. rewrite wrap_small by (unfold fits; lia).
    apply (control_ok t 0 (terminal_y t + 16) P); (done || lia). }
  destruct (decide (u8 (txt c) = 9)) as [E9|N9].
  { erewrite bind_ok by reflexivity. rewrite (decide_True (P := _ \/ _)) by tauto. rewrite (Hdec ltac:(by rewrite E9)).
    rewrite E9.
    assert (Htab : u32 (terminal_x t + CHAR_WIDTH ≪ 2) .& bnot 32 (CHAR_WIDTH ≪ 2 - 1) = (terminal_x t + 32) / 32 * 32).
    { change (CHAR_WIDTH ≪ 2) with 32. rewrite wrap_small by (unfold fits; lia). apply (land_bnot_ones 32 5); unfold fits; lia. }
    rewrite Htab. apply (control_ok t _ (terminal_y t) P); try (done || lia).
    - zlia.
    - zlia. }
  destruct (decide (u8 (txt c) = 8)) as [E8|N8].
  { rewrite (decide_False (P := _ \/ _)) by tauto. rewrite (Hdec ltac:(by rewrite E8)), E8.
    unfold CHAR_WIDTH. erewrite bind_ok by reflexivity. cbv beta. erewrite bind_ok by reflexivity. cbv beta.
    assert (Hbs : (if decide (terminal_x t <= 8) then 0 else terminal_x t - 8) = Z.max 0 (terminal_x t - 8))
      by (case_decide; lia).
    rewrite Hbs. by apply backspace_ok. }
  rewrite (decide_False (P := _ \/ _)) by tauto. by apply visible_ok.
Qed.

(** A code point past the end of the font's index. *)
Lemma missing_glyph t P txt c : term_ok t -> shows t (mkScreen (terminal_x t) (terminal_y t) P) ->
  uart_dlab (tdev t) = false -> Z.of_nat (length font_index) = 11120 -> 11120 <= snd (decode txt c) < 64256 ->
  exists a, putc_ txt c t = Stop (Faulted a).
Proof.
  intros Hok Hs Hd Hlen Hidx. unfold terminal_putc. erewrite bind_ok by reflexivity. cbv beta zeta.
  rewrite (ok_ready t) by done.
  assert (Hc0 : forall v, u8 (txt c) = v -> v < 128 -> False).
  { intros v Hv Hlt. unfold decode in Hidx. cbv zeta in Hidx. rewrite Z.add_0_r in Hidx.
    assert (H0 : u8 (txt c) .& 128 = 0).
    { pose proof (wrap_fits 8 (txt c) ltac:(lia)). change 128 with (2 ^ 7). rewrite land_bit by done.
      rewrite (testbit_small _ 7); [done| |lia]. unfold fits in *. lia. }
    rewrite decide_True in Hidx by done. cbn in Hidx. lia. }
  rewrite !decide_False by (intros E; eapply Hc0; [exact E|done]).
  assert (Ht : with_cursor (terminal_x t) (terminal_y t) t = t) by (by destruct t).
  pose proof (ok_width t Hok) as Hw. pose proof (ok_height t Hok). pose proof (ok_x t Hok). pose proof (ok_y t Hok).
  destruct (refresh_ok t (terminal_x t) (terminal_y t) P) as (t1 & R1 & Hok1 & _ & _ & _ & Hd1);
    try (done || lia || apply Hok).
  rewrite Ht in R1. erewrite bind_ok by exact R1. cbv beta. erewrite bind_ok by reflexivity. cbv beta.
  exists (snd (decode txt c)). apply bind_stop. unfold framebuffer_draw_char. erewrite bind_ok by reflexivity. cbv beta zeta.
  destruct (bytes_sent ufuel Hufuel t1 (char_bytes txt c) 0 txt c) as (d & R & _ & _).
  { by rewrite Hd1. }
  { unfold char_bytes at 2. rewrite length_fmap, length_seqZ. destruct (decode_range txt c). rewrite Z2Nat.id by lia. done. }
  unfold char_bytes in R. rewrite length_fmap, length_seqZ in R.
  destruct (decode txt c) as [n idx]. cbn [fst snd] in *. erewrite bind_ok by exact R. cbv beta.
  apply bind_stop. unfold glyph_at. rewrite decide_False by lia. rewrite lookup_ge_None_2 by lia. by apply bind_stop.
Qed.

(** C37: the terminal refines a text screen. On a display of whole character columns and more
    than one line, [terminal_putc] of a character the font has does to the pixels and the
    cursor exactly what [scr_putc] says: the glyph is drawn at the cursor, after a move to the
    next line and a scroll where they are due; newline, tab and destructive backspace move
    the cursor. It returns the length of the UTF-8 sequence, echoes it to the serial port,
    keeps the cursor on the grid and writes nothing outside the framebuffer. A code point
    between the two ranges of the font's index is read past the end of the index; before the
    framebuffer is set up nothing happens and 0 is returned. *)
Theorem terminal_putc_refines t s txt c :
  (term_ok t -> shows t s -> uart_dlab (tdev t) = false ->
   (forall g, glyph font font_index (snd (decode txt c)) = Some g ->
    exists t', putc_ txt c t = Ok (fst (decode txt c), t') /\ term_ok t' /\
      shows t' (scr_putc (width t) (height t) (u8 (txt c)) g blank s) /\ frames t t' /\
      uart_dlab (tdev t') = false /\ uart_sent (tdev t') = uart_sent (tdev t) ++ echo txt c) /\
   (Z.of_nat (length font_index) = 11120 -> 11120 <= snd (decode txt c) < 64256 ->
    exists a, putc_ txt c t = Stop (Faulted a))) /\
  (ready t = false -> putc_ txt c t = Ok (0, t)).
Proof.
  split; [intros Hok Hs Hd; split|].
  - intros g Hg. by apply putc_refines.
  - intros Hlen Hidx. apply (missing_glyph t (pix s)); try done.
    destruct Hs as (Ex & Ey & H). done.
  - intros Hr. unfold terminal_putc. erewrite bind_ok by reflexivity. cbv beta zeta. by rewrite Hr.
Qed.

(** ** Strings *)

(** The characters of the string at [c]: their addresses and glyphs. *)
Inductive text (txt : pmem) : Z -> list (Z * (Z -> Z)) -> Prop :=
  | text_nil c : u8 (txt c) = 0 -> text txt c []
  | text_cons c g l : u8 (txt c) <> 0 -> fst (decode txt c) <> 0 ->
      glyph font font_index (snd (decode txt c)) = Some g ->
      text txt (c + fst (decode txt c)) l -> text txt c ((c, g) :: l).

Definition scr_puts (w h : Z) (txt : pmem) (l : list (Z * (Z -> Z))) (s : screen) : screen :=
  foldl (fun s '(c, g) => scr_putc w h (u8 (txt c)) g blank s) s l.
Definition echoes (txt : pmem) (l : list (Z * (Z -> Z))) : list Z := concat (echo txt <$> (fst <$> l)).

Lemma puts_loop_ok fuel txt c l ret t s : text txt c l -> (length l <= fuel)%nat ->
  term_ok t -> shows t s -> uart_dlab (tdev t) = false ->
  exists t', puts_loop font font_index ufuel fuel txt c ret t = Ok (ret + Z.of_nat (length l), t') /\ term_ok t' /\
    shows t' (scr_puts (width t) (height t) txt l s) /\ frames t t' /\
    uart_dlab (tdev t') = false /\ uart_sent (tdev t') = uart_sent (tdev t) ++ echoes txt l.
Proof.
  intros Htext. revert fuel ret t s. induction Htext as [c E|c g l E Hn Hg Htext IH]; intros fuel ret t s Hf Hok Hs Hd.
  - exists t. destruct fuel; cbn [puts_loop]; rewrite decide_True by done; (split; [by rewrite Z.add_0_r|]);
      by rewrite app_nil_r.
  - destruct fuel as [|fuel]; [cbn in Hf; lia|]. cbn [puts_loop]. rewrite decide_False by done.
    destruct (putc_refines t s txt c g) as (t1 & R1 & Hok1 & Hs1 & Hf1 & Hd1 & Hsent1); try done.
    erewrite bind_ok by exact R1. cbv beta.
    destruct (IH fuel (ret + 1) t1 _ ltac:(cbn in Hf; lia) Hok1 Hs1 Hd1) as (t2 & R2 & Hok2 & Hs2 & Hf2 & Hd2 & Hsent2).
    assert (Hg1 := proj1 Hf1). unfold geometry in Hg1. injection Hg1 as _ Egw Egh _ _ _ _. rewrite Egw, Egh in Hs2.
    exists t2. split.
    { cbn [length]. rewrite R2. by replace (ret + 1 + Z.of_nat (length l)) with (ret + Z.of_nat (Datatypes.S (length l))) by lia. } split; [done|]. split; [exact Hs2|].
    split; [by eapply frames_trans|]. split; [done|]. rewrite Hsent2, Hsent1, <-app_assoc. done.
Qed.

(** A byte the terminal does not move past. *)
Lemma puts_stuck fuel txt c ret t s : u8 (txt c) .& 0xC0 = 0x80 -> term_ok t -> shows t s ->
  uart_dlab (tdev t) = false -> is_Some (glyph font font_index 0) ->
  puts_loop font font_index ufuel fuel txt c ret t = Stop OutOfFuel.
Proof.
  intros Hc Hok Hs Hd [g0 Hg0]. revert ret t s Hok Hs Hd.
  assert (Hb : Z.testbit (u8 (txt c)) 7 = true /\ Z.testbit (u8 (txt c)) 6 = false).
  { split; [apply (f_equal (fun x => Z.testbit x 7)) in Hc|apply (f_equal (fun x => Z.testbit x 6)) in Hc];
      rewrite Z.land_spec, andb_true_r in Hc; exact Hc. }
  assert (Hmask : forall m v, Z.testbit m 6 = true -> Z.testbit v 6 = true -> u8 (txt c) .& m <> v).
  { intros m v Hm Hv E. apply (f_equal (fun x => Z.testbit x 6)) in E.
    rewrite Z.land_spec, Hm, (proj2 Hb), Hv in E. done. }
  assert (H80 : u8 (txt c) .& 128 <> 0).
  { change 128 with (2 ^ 7). rewrite land_bit, (proj1 Hb) by done. done. }
  assert (Hdec : decode txt c = (0, 0)).
  { unfold decode. cbv zeta. rewrite Z.add_0_r. rewrite decide_False by done. rewrite !decide_False by (by apply Hmask). done. }
  assert (H0 : u8 (txt c) <> 0) by (intros E; by rewrite E in H80).
  induction fuel as [|fuel IH]; intros ret t s Hok Hs Hd; cbn [puts_loop]; rewrite decide_False by done; [done|].
  destruct (putc_refines t s txt c g0) as (t1 & R1 & Hok1 & Hs1 & _ & Hd1 & _); try done.
  { by rewrite Hdec. }
  rewrite Hdec in R1. cbn [fst] in R1. erewrite bind_ok by exact R1. cbv beta. rewrite Z.add_0_r. by eapply IH.
Qed.

(** Puts. For a string of characters the font has, [puts] terminates, shows the string
    and a newline on the screen, echoes them, and returns the number of characters. It never
    returns on a non-empty string before the framebuffer is set up, or on a string that
    begins with a UTF-8 continuation byte: the terminal reports 0 bytes consumed and the
    loop makes no progress. *)
Theorem puts_terminates fuel txt c t :
  (forall l s newline, text txt c l -> (length l <= fuel)%nat -> glyph font font_index 10 = Some newline ->
    term_ok t -> shows t s -> uart_dlab (tdev t) = false ->
    exists t', puts font font_index ufuel fuel txt c t = Ok (Z.of_nat (length l), t') /\ term_ok t' /\
      shows t' (scr_putc (width t) (height t) 10 newline blank (scr_puts (width t) (height t) txt l s)) /\
      frames t t' /\ uart_sent (tdev t') = uart_sent (tdev t) ++ echoes txt l ++ [10]) /\
  (u8 (txt c) <> 0 -> ready t = false -> puts font font_index ufuel fuel txt c t = Stop OutOfFuel) /\
  (forall s, u8 (txt c) .& 0xC0 = 0x80 -> term_ok t -> shows t s -> uart_dlab (tdev t) = false ->
    is_Some (glyph font font_index 0) -> puts font font_index ufuel fuel txt c t = Stop OutOfFuel).
Proof.
  split; [|split].
  - intros l s nl Htext Hf Hnl Hok Hs Hd.
    destruct (puts_loop_ok fuel txt c l 0 t s) as (t1 & R1 & Hok1 & Hs1 & Hf1 & Hd1 & Hsent1); try done.
    destruct (putc_refines t1 _ (literal 10) 0 nl Hok1 Hs1 Hd1 Hnl) as (t2 & R2 & Hok2 & Hs2 & Hf2 & Hd2 & Hsent2).
    assert (Hg1 := proj1 Hf1). unfold geometry in Hg1. injection Hg1 as _ Egw Egh _ _ _ _. rewrite Egw, Egh in Hs2.
    exists t2. unfold puts. split; [|split; [done|split; [exact Hs2|split; [by eapply frames_trans|]]]].
    + erewrite bind_ok by exact R1. cbv beta. erewrite bind_ok by exact R2. done.
    + rewrite Hsent2, Hsent1, <-app_assoc. done.
  - intros Hc Hr. unfold puts. apply bind_stop. generalize 0 as ret. induction fuel as [|fuel' IH]; intros ret;
      cbn [puts_loop]; rewrite decide_False by done; [done|].
    assert (R : putc_ txt c t = Ok (0, t)).
    { unfold terminal_putc. erewrite bind_ok by reflexivity. cbv beta zeta. by rewrite Hr. }
    erewrite bind_ok by exact R. cbv beta. rewrite Z.add_0_r. apply IH.
  - intros s Hc Hok Hs Hd Hg. unfold puts. apply bind_stop. by eapply puts_stuck.
Qed.
End terminal.

(** ** A small display: two columns, two lines, and a font of one glyph *)
Definition one_font : list Z := replicate 16 0x81.
Definition one_index : list Z := replicate 128 0.
Definition one_glyph : Z -> Z := fun row => one_font !!! Z.to_nat (16 * 0 + row).
Definition small_term (r : bool) : term uart_dev :=
  mkTerm 0xB8000 4096 16 40 64 4 r [4; 8; 12; 16; 20; 24; 28] 0 0 0 0 (fun _ => 0) (mkUart ∅ [] false).

Lemma small_term_ok : term_ok (small_term true).
Proof. constructor; cbn; lia || done || (by left). Qed.
Lemma one_index_ok : Forall (fits 16) one_index.
Proof. apply Forall_replicate. unfold fits. lia. Qed.
Lemma uart_dev_fuel : (@uart_max uart_dev _ uart_dev_laws < 2)%nat.
Proof. vm_compute. lia. Qed.
(** The one-character string at 100. *)
Definition one_char (c : Z) : pmem := fun a => if decide (a = 100) then c else 0.

Lemma terminal_putc_refines_witness :
  exists t', terminal_putc one_font one_index 2 (one_char 65) 100 (small_term true) = Ok (1, t') /\
    terminal_x t' = 8 /\ uart_sent (tdev t') = [65] /\ pixel t' 0 5 = 0xFFFFFFFF /\ pixel t' 1 5 = 0.
Proof.
  destruct (terminal_putc_refines one_font one_index 2 one_glyph uart_dev_fuel one_index_ok eq_refl
    (small_term true) (mkScreen 0 0 (pixel (small_term true))) (one_char 65) 100) as [H _].
  destruct H as [H _]; [exact small_term_ok|done|vm_compute; reflexivity|].
  destruct (H one_glyph) as (t' & R & _ & (Ex & _ & Hp) & [Hg _] & _ & Hs); [reflexivity|].
  unfold geometry in Hg. injection Hg as _ Ew Eh _ _ _ _.
  exists t'. split; [exact R|]. split; [exact Ex|]. split; [exact Hs|].
  split; rewrite Hp; (reflexivity || (rewrite ?Ew, ?Eh; cbn; lia)).
Defined.

Lemma puts_terminates_witness :
  exists t', puts one_font one_index 2 3 (one_char 65) 100 (small_term true) = Ok (1, t') /\
    uart_sent (tdev t') = [65; 10].
Proof.
  destruct (puts_terminates one_font one_index 2 one_glyph uart_dev_fuel one_index_ok eq_refl 3 (one_char 65) 100
    (small_term true)) as [H _].
  destruct (H [(100, one_glyph)] (mkScreen 0 0 (pixel (small_term true))) one_glyph) as (t' & R & _ & _ & _ & Hs).
  - apply text_cons; [done|done|reflexivity|]. by apply text_nil.
  - cbn. lia.
  - reflexivity.
  - exact small_term_ok.
  - done.
  - vm_compute. reflexivity.
  - exists t'. split; [exact R|]. exact Hs.
Defined.
