(* ===== verification/Trace.v ===== *)
(** Symbols for stack traces: debug/trace.c and the ELF structures of debug/elf64.h.

    The kernel's ELF image lies in physical memory; [debug_init] maps it and finds the symbol
    and string tables, [debug_trace_get_symbol] looks an address up, [debug_trace] walks the
    frames. The virtual memory system is the class of file Kvm; memory is read through the
    translation in force, byte by byte. *)
From S2P Require Import Prelude Bytes Kvm Paging Interrupts.

Record dbg {V : Type} := mkDbg {
  dvm : V; dmem : pmem; symtab : Z; symtab_size : Z; strtab : Z; strtab_size : Z }.
Arguments dbg : clear implicits.
Arguments mkDbg {V} _ _ _ _ _ _.

Definition STT_FUNC : Z := 2.
Definition ELF64_ST_TYPE (i : Z) : Z := i .& 0xF.
Definition KERNEL_START : Z := 0xFFFFFFFF80000000.

Section trace.
Context {V : Type} `{!KernelVm V}.
Abbreviation D := (cmd (dbg V)).

(** A load of [n] bytes. *)
Definition load (n : nat) (va : Z) : D Z := fun s =>
  match vload n (dvm s) (dmem s) va with Some x => Ok (x, s) | None => Stop (Faulted va) end.
Definition on_dvm {B} (c : cmd V B) : D B := fun s =>
  match c (dvm s) with
  | Ok (b, v) => Ok (b, mkDbg v (dmem s) (symtab s) (symtab_size s) (strtab s) (strtab_size s))
  | Stop w => Stop w
  end.

(** The fields of [elf64_ehdr_t], [elf64_shdr_t] and [elf64_sym_t] that are used. *)
Definition e_shoff (h : Z) : D Z := load 8 (h + 40).
Definition e_shnum (h : Z) : D Z := load 2 (h + 60).
Definition e_shstrndx (h : Z) : D Z := load 2 (h + 62).
Definition sh_name (s : Z) : D Z := load 4 s.
Definition sh_type (s : Z) : D Z := load 4 (s + 4).
Definition sh_offset (s : Z) : D Z := load 8 (s + 24).
Definition sh_size (s : Z) : D Z := load 8 (s + 32).
Definition st_name (s : Z) : D Z := load 4 s.
Definition st_info (s : Z) : D Z := load 1 (s + 4).
Definition st_value (s : Z) : D Z := load 8 (s + 8).
Definition st_size (s : Z) : D Z := load 8 (s + 16).

(** [!strncmp(lit, p, strlen(lit))] *)
Fixpoint prefix (lit : list Z) (p : Z) : D bool :=
  match lit with
  | [] => mret true
  | c :: lit => b ← load 1 p; if decide (b = c) then prefix lit (p + 1) else mret false
  end.

(** One section header at [section]. *)
Definition debug_section (header section_str_tab section : Z) : D unit :=
  type ← sh_type section;
  if decide (type = 0) then mret tt else
  n ← sh_name section;
  let name := u64 (section_str_tab + n) in
  is_sym ← prefix (ascii_of ".symtab") name;
  if (is_sym : bool) then
    o ← sh_offset section; sz ← sh_size section;
    modify (fun s => mkDbg (dvm s) (dmem s) (u64 (header + o)) sz (strtab s) (strtab_size s))
  else
    is_str ← prefix (ascii_of ".strtab") name;
    if (is_str : bool) then
      o ← sh_offset section; sz ← sh_size section;
      modify (fun s => mkDbg (dvm s) (dmem s) (symtab s) (symtab_size s) (u64 (header + o)) sz)
    else mret tt.

Definition debug_init (copy size : Z) : D unit :=
  let size := PAGE_UP size in
  virt ← on_dvm (vm_alloc (size ≫ 12));
  _ ← on_dvm (vm_map (copy .& bnot 32 0xFFF) virt (size ≫ 12) PAGE_PRESENT);
  let header := virt + (copy .& 0xFFF) in
  shoff ← e_shoff header;
  let section := u64 (header + shoff) in
  ndx ← e_shstrndx header;
  o ← sh_offset (section + 64 * ndx);
  let section_str_tab := u64 (header + o) in
  shnum ← e_shnum header;
  for_n (Z.to_nat shnum) 0 (fun i => debug_section header section_str_tab (section + 64 * i)).

(** The loop over the [n] symbols from [sym] on. *)
Fixpoint find_symbol (n : nat) (addr sym : Z) : D (option Z) :=
  match n with
  | O => mret None
  | S n =>
      info ← st_info sym;
      if decide (ELF64_ST_TYPE info <> STT_FUNC) then find_symbol n addr (sym + 24) else
      offset ← st_value sym;
      sz ← st_size sym;
      if decide (offset <= addr /\ addr < u64 (offset + sz)) then
        s ← get_st; name ← st_name sym; mret (Some (u64 (strtab s + name)))
      else find_symbol n addr (sym + 24)
  end.

(** The address of the name; [None] stands for "<unknown>". *)
Definition debug_trace_get_symbol (addr : Z) : D (option Z) :=
  s ← get_st;
  if decide (strtab s <> 0 /\ symtab s <> 0)
  then find_symbol (Z.to_nat (symtab_size s / 24)) addr (symtab s) else mret None.

(** The walk over the frames from [rbp]; [printf] prints one line. *)
Fixpoint debug_trace (fuel : nat) (printf : Z -> option Z -> D unit) (rbp : Z) : D unit :=
  if decide (rbp = 0) then mret tt else
  match fuel with
  | O => halt OutOfFuel
  | S fuel =>
      rip ← load 8 (rbp + 8);
      name ← debug_trace_get_symbol rip;
      _ ← printf rip name;
      if decide (rip .& KERNEL_START <> KERNEL_START) then mret tt else
      stop ← match name with
             | None => mret false
             | Some p =>
                 m ← prefix (ascii_of "main") p;
                 if (m : bool) then mret true else prefix (ascii_of "isr_dispatch") p
             end;
      if (stop : bool) then mret tt else
      rbp ← load 8 rbp;
      debug_trace fuel printf rbp
  end.
End trace.

(** ** The image as data *)
Section image.
(** The image is at physical address [base]. *)
Variables (m : pmem) (base : Z).
Definition img_shnum : Z := ldn 2 m (base + 60).
(** Offsets in the image. *)
Definition img_section (i : Z) : Z := ldn 8 m (base + 40) + 64 * i.
Definition img_type (i : Z) : Z := ldn 4 m (base + img_section i + 4).
Definition img_offset (i : Z) : Z := ldn 8 m (base + img_section i + 24).
Definition img_size (i : Z) : Z := ldn 8 m (base + img_section i + 32).
Definition img_name (i : Z) : Z := img_offset (ldn 2 m (base + 62)) + ldn 4 m (base + img_section i).

Fixpoint bytes_are (lit : list Z) (o : Z) : bool :=
  match lit with [] => true | c :: lit => bool_decide (u8 (m (base + o)) = c) && bytes_are lit (o + 1) end.

(** Whether section [i] counts, by the beginning of its name; the last one does. *)
Definition named (lit : string) (i : Z) : bool :=
  bool_decide (img_type i <> 0) && bytes_are (ascii_of lit) (img_name i).
Definition last_named (lit : string) (n : nat) : option Z :=
  foldl (fun acc i => if named lit i then Some i else acc) None (seqZ 0 (Z.of_nat n)).

(** The first of [n] symbols from offset [o] on that is a function around [addr]: the offset of
    its name in the string table. *)
Fixpoint first_symbol (n : nat) (addr o : Z) : option Z :=
  match n with
  | O => None
  | S n =>
      let value := ldn 8 m (base + o + 8) in
      if decide (ldn 1 m (base + o + 4) .& 0xF = STT_FUNC /\
                 value <= addr < u64 (value + ldn 8 m (base + o + 16)))
      then Some (ldn 4 m (base + o)) else first_symbol n addr (o + 24)
  end.

(** The offset of the name of the function around [addr]. *)
Definition symbolize (addr : Z) : option Z :=
  let n := Z.to_nat img_shnum in
  match last_named ".symtab" n, last_named ".strtab" n with
  | Some i, Some j =>
      (fun name => img_offset j + name) <$> first_symbol (Z.to_nat (img_size i / 24)) addr (img_offset i)
  | _, _ => None
  end.

(** An image of [len] bytes whose tables lie inside. *)
Record image_ok (len : Z) : Prop := {
  io_header : 64 <= len;
  io_sections : 0 <= img_section 0 /\ img_section img_shnum <= len;
  io_index : ldn 2 m (base + 62) < img_shnum;
  io_names i : 0 <= i < img_shnum -> img_type i <> 0 -> img_name i + 7 <= len;
  io_tables i lit : 0 <= i < img_shnum -> lit = ".symtab"%string \/ lit = ".strtab"%string ->
    named lit i = true -> 0 < img_offset i < len /\ img_offset i + img_size i <= len
}.
End image.

Section spec.
Context {V : Type} `{!KernelVm V}.
Variables (v : V) (m : pmem) (base header len : Z).
(** The image, mapped. *)
Hypothesis Hmap : forall i, 0 <= i < len -> vm_tr v (header + i) = Some (base + i).
Hypothesis Hlen : 0 <= header /\ header + len <= 2 ^ 64.
Hypothesis Himg : image_ok m base len.

Definition in_image (s : dbg V) : Prop := dvm s = v /\ dmem s = m.

Lemma vload_ok n o : 0 <= o -> o + Z.of_nat n <= len -> vload n v m (header + o) = Some (ldn n m (base + o)).
Proof. intros Ho Hn. apply vload_window. intros i Hi. rewrite <-!Z.add_assoc. apply Hmap. lia. Qed.

Lemma load_ok n a o s : in_image s -> a = header + o -> 0 <= o -> o + Z.of_nat n <= len ->
  load n a s = Ok (ldn n m (base + o), s).
Proof. intros [Hv Hm] -> Ho Hn. unfold load. by rewrite Hv, Hm, vload_ok. Qed.

Lemma prefix_ok lit o s : in_image s -> 0 <= o -> o + Z.of_nat (length lit) <= len ->
  prefix lit (header + o) s = Ok (bytes_are m base lit o, s).
Proof.
  intros Hs. revert o. induction lit as [|c lit IH]; intros o Ho Hl; [done|]. cbn [prefix bytes_are length] in *.
  erewrite bind_ok by (apply (load_ok 1 _ o); [done|done|done|lia]). cbv beta. rewrite ldn1.
  case_decide as Hc; [|by rewrite bool_decide_eq_false_2].
  rewrite bool_decide_eq_true_2 by done. rewrite <-Z.add_assoc. apply IH; lia.
Qed.

(** What the static variables hold after a prefix of the sections. *)
Definition table_of (o : option Z) : Z * Z :=
  match o with Some i => (header + img_offset m base i, img_size m base i) | None => (0, 0) end.
Definition found (n : nat) : dbg V :=
  let '(a, b) := table_of (last_named m base ".symtab" n) in
  let '(c, d) := table_of (last_named m base ".strtab" n) in mkDbg v m a b c d.

Lemma last_named_snoc lit (k : nat) : last_named m base lit (S k) =
  if named m base lit (Z.of_nat k) then Some (Z.of_nat k) else last_named m base lit k.
Proof.
  unfold last_named. rewrite Nat2Z.inj_succ, <-Z.add_1_r, seqZ_app, foldl_app by lia.
  rewrite Z.add_0_l. done.
Qed.

(** The two prefixes exclude each other. *)
Lemma symtab_not_strtab o : bytes_are m base (ascii_of ".symtab") o = true ->
  bytes_are m base (ascii_of ".strtab") o = false.
Proof.
  cbn. rewrite !andb_true_iff, !bool_decide_eq_true. intros (_ & _ & Hc & _).
  rewrite (bool_decide_eq_false_2 (_ = 116)) by lia. by rewrite !andb_false_r.
Qed.

Lemma section_range i : 0 <= i < img_shnum m base -> 0 <= img_section m base i /\ img_section m base i + 64 <= len.
Proof. intros Hi. destruct (io_sections _ _ _ Himg) as [H1 H2]. unfold img_section in *. lia. Qed.

Lemma section_ok (k : nat) : Z.of_nat k < img_shnum m base ->
  debug_section header (u64 (header + img_offset m base (ldn 2 m (base + 62)))) (header + img_section m base (Z.of_nat k))
    (found k) = Ok (tt, found (S k)).
Proof.
  intros Hk. set (i := Z.of_nat k) in *. destruct (section_range i) as [Hs0 Hs1]; [lia|].
  assert (Hin : in_image (found k)) by (unfold found; by destruct (table_of _), (table_of _)).
  assert (Hnext : found (S k) =
    let s := found k in
    if named m base ".symtab" i then mkDbg v m (header + img_offset m base i) (img_size m base i) (strtab s) (strtab_size s)
    else if named m base ".strtab" i then mkDbg v m (symtab s) (symtab_size s) (header + img_offset m base i) (img_size m base i)
    else s).
  { unfold found. rewrite !last_named_snoc. fold i. cbv zeta.
    destruct (table_of (last_named m base ".symtab" k)) as [a b] eqn:E1, (table_of (last_named m base ".strtab" k)) as [c d] eqn:E2.
    unfold named. destruct (bool_decide _); cbn [andb]; [|by rewrite E1, E2].
    destruct (bytes_are m base (ascii_of ".symtab") _) eqn:H1.
    - rewrite symtab_not_strtab by done. cbn [table_of]. by rewrite E2.
    - destruct (bytes_are m base (ascii_of ".strtab") _); cbn [table_of]; by rewrite ?E1, ?E2. }
  unfold debug_section, sh_type, sh_name, sh_offset, sh_size.
  erewrite bind_ok by (apply (load_ok 4 _ (img_section m base i + 4)); [done|lia|lia|lia]). cbv beta.
  replace (base + (img_section m base i + 4)) with (base + img_section m base i + 4) by lia. fold (img_type m base i).
  unfold named in Hnext. destruct (decide (img_type m base i = 0)) as [Ht|Ht].
  { rewrite Hnext. rewrite !bool_decide_eq_false_2 by tauto. done. }
  rewrite bool_decide_eq_true_2 in Hnext by done. cbn [andb] in Hnext.
  erewrite bind_ok by (apply (load_ok 4 _ (img_section m base i)); [done|lia|lia|lia]). cbv beta zeta.
  pose proof (io_names _ _ _ Himg i ltac:(lia) Ht) as Hname.
  assert (Hname0 : 0 <= img_name m base i).
  { unfold img_name, img_offset. pose proof (ldn_range 8 m (base + img_section m base (ldn 2 m (base + 62)) + 24)).
    pose proof (ldn_range 4 m (base + img_section m base i)). lia. }
  assert (Hu : u64 (u64 (header + img_offset m base (ldn 2 m (base + 62))) + ldn 4 m (base + img_section m base i)) = header + img_name m base i).
  { rewrite wrap_add_l. unfold img_name in *. rewrite wrap_small; [lia|]. unfold fits. lia. }
  rewrite Hu. assert (L7 : forall lit, lit = ".symtab"%string \/ lit = ".strtab"%string -> Z.of_nat (length (ascii_of lit)) = 7)
    by (by intros lit [->| ->]).
  assert (Hput : forall lit, lit = ".symtab"%string \/ lit = ".strtab"%string -> bytes_are m base (ascii_of lit) (img_name m base i) = true ->
    fits 64 (header + img_offset m base i)).
  { intros lit Hl Hb. destruct (io_tables _ _ _ Himg i lit) as [T1 T2]; [lia|done| |].
    - unfold named. rewrite bool_decide_eq_true_2 by done. done.
    - unfold fits. lia. }
  erewrite bind_ok by (apply prefix_ok; [done|done|rewrite L7 by tauto; lia]). cbv beta.
  destruct (bytes_are m base (ascii_of ".symtab") _) eqn:Hsym; [|erewrite bind_ok by (apply prefix_ok; [done|done|rewrite L7 by tauto; lia]); cbv beta;
    destruct (bytes_are m base (ascii_of ".strtab") _) eqn:Hstr; [|by rewrite Hnext]].
  all: erewrite bind_ok by (apply (load_ok 8 _ (img_section m base i + 24)); [done|lia|lia|lia]); cbv beta;
    erewrite bind_ok by (apply (load_ok 8 _ (img_section m base i + 32)); [done|lia|lia|lia]); cbv beta;
    replace (base + (img_section m base i + 24)) with (base + img_section m base i + 24) by lia;
    replace (base + (img_section m base i + 32)) with (base + img_section m base i + 32) by lia;
    fold (img_offset m base i) (img_size m base i).
  - rewrite Hnext, wrap_small by (by apply (Hput ".symtab"%string); [left|]). destruct Hin as [<- <-]. done.
  - rewrite Hnext, wrap_small by (by apply (Hput ".strtab"%string); [right|]). destruct Hin as [<- <-]. done.
Qed.

Lemma find_symbol_ok n addr o s : in_image s -> 0 <= o -> o + 24 * Z.of_nat n <= len ->
  find_symbol n addr (header + o) s = Ok ((fun name => u64 (strtab s + name)) <$> first_symbol m base n addr o, s).
Proof.
  intros Hs. revert o. induction n as [|n IH]; intros o Ho Hn; [done|]. cbn [find_symbol first_symbol].
  unfold st_info, st_value, st_size, st_name.
  erewrite bind_ok by (apply (load_ok 1 _ (o + 4)); [done|lia|lia|lia]). cbv beta.
  replace (base + (o + 4)) with (base + o + 4) by lia.
  assert (Hnext : find_symbol n addr (header + o + 24) s =
    Ok ((fun name => u64 (strtab s + name)) <$> first_symbol m base n addr (o + 24), s)).
  { rewrite <-Z.add_assoc. apply IH; lia. }
  unfold ELF64_ST_TYPE. destruct (decide (ldn 1 m (base + o + 4) .& 15 = STT_FUNC)) as [Ht|Ht].
  - rewrite (decide_False (P := _ <> STT_FUNC)) by tauto.
    erewrite bind_ok by (apply (load_ok 8 _ (o + 8)); [done|lia|lia|lia]). cbv beta.
    erewrite bind_ok by (apply (load_ok 8 _ (o + 16)); [done|lia|lia|lia]). cbv beta.
    replace (base + (o + 8)) with (base + o + 8) by lia. replace (base + (o + 16)) with (base + o + 16) by lia.
    case_decide as Hin.
    + rewrite decide_True by tauto. erewrite bind_ok by reflexivity. cbv beta.
      erewrite bind_ok by (apply (load_ok 4 _ o); [done|lia|lia|lia]). done.
    + rewrite decide_False by tauto. exact Hnext.
  - rewrite (decide_True (P := _ <> STT_FUNC)) by done. rewrite decide_False by tauto. exact Hnext.
Qed.

Lemma last_named_range lit n i : last_named m base lit n = Some i -> 0 <= i < Z.of_nat n /\ named m base lit i = true.
Proof.
  induction n as [|n IH]; [done|]. rewrite last_named_snoc. destruct (named m base lit (Z.of_nat n)) eqn:E.
  - intros [= <-]. split; [lia|done].
  - intros H. destruct (IH H). split; [lia|done].
Qed.

Lemma first_symbol_nonneg n addr o name : first_symbol m base n addr o = Some name -> 0 <= name.
Proof.
  revert o. induction n as [|n IH]; intros o; cbn [first_symbol]; [done|]. case_decide; [|apply IH].
  intros E. injection E as E. rewrite <-E. apply (ldn_range 4).
Qed.

(** A lookup once the tables are found. *)
Lemma get_symbol_ok addr : let s := found (Z.to_nat (img_shnum m base)) in
  exists r, debug_trace_get_symbol addr s = Ok (r, s) /\
    match symbolize m base addr with
    | Some o => exists p, r = Some p /\ (o < len -> vm_tr (dvm s) p = Some (base + o))
    | None => r = None
    end.
Proof.
  cbv zeta. set (n := Z.to_nat (img_shnum m base)). unfold debug_trace_get_symbol, symbolize. fold n.
  erewrite bind_ok by reflexivity. cbv beta.
  assert (Ef : symtab (found n) = fst (table_of (last_named m base ".symtab" n)) /\
    symtab_size (found n) = snd (table_of (last_named m base ".symtab" n)) /\
    strtab (found n) = fst (table_of (last_named m base ".strtab" n)) /\ dvm (found n) = v /\ in_image (found n))
    by (unfold found; by destruct (table_of _), (table_of _)).
  destruct Ef as (E1 & E2 & E3 & E4 & Hin).
  pose proof (ldn_range 2 m (base + 60)) as Hsh. fold (img_shnum m base) in Hsh.
  destruct (last_named m base ".symtab" n) as [i|] eqn:Ei; cbn [table_of fst snd] in E1, E2.
  2:{ exists None. rewrite decide_False by tauto. done. }
  destruct (last_named m base ".strtab" n) as [j|] eqn:Ej; cbn [table_of fst snd] in E3.
  2:{ exists None. rewrite decide_False by tauto. done. }
  destruct (last_named_range _ _ _ Ei) as [Hi Hni]. destruct (last_named_range _ _ _ Ej) as [Hj Hnj].
  destruct (io_tables _ _ _ Himg i ".symtab") as [Ti1 Ti2]; [lia|by left|done|].
  destruct (io_tables _ _ _ Himg j ".strtab") as [Tj1 Tj2]; [lia|by right|done|].
  rewrite decide_True by lia. rewrite E1, E2.
  assert (Hsz : 0 <= img_size m base i) by apply ldn_range.
  rewrite find_symbol_ok.
  - eexists. split; [reflexivity|]. destruct (first_symbol _ _ _ _ _) as [name|] eqn:Ename; [|done]. cbn [fmap option_fmap option_map].
    eexists. split; [reflexivity|]. intros Ho.
    assert (Hname : 0 <= name). { by eapply first_symbol_nonneg. }
    rewrite E3, E4, wrap_small by (unfold fits; lia). rewrite <-Z.add_assoc, Hmap by lia. done.
  - done.
  - lia.
  - rewrite Z2Nat.id by zlia. zlia.
Qed.
End spec.

(** ** Properties *)

Lemma copy_page copy : 0 <= copy < 2 ^ 32 -> copy .& bnot 32 0xFFF = copy - copy mod 4096.
Proof. intros Hc. change 0xFFF with (Z.ones 12). rewrite (land_bnot_ones 32 12) by (lia || (unfold fits; lia)). zlia. Qed.

Lemma copy_low copy : copy .& bnot 32 0xFFF = (copy mod 2 ^ 32) .& bnot 32 0xFFF /\ copy .& 0xFFF = (copy mod 2 ^ 32) .& 0xFFF.
Proof.
  rewrite <-land_low, <-!Z.land_assoc by lia. split; reflexivity.
Qed.

(** C39: symbolization. For a kernel image below 4 GiB whose tables lie inside it,
    [debug_init] maps it and terminates, and from then on every lookup returns: the name it
    points to is the one the image's own tables give for the first function around the
    address, read through the new mapping, and "<unknown>" exactly when there is none. For
    an image above 4 GiB it maps the wrong page: the address is cut to 32 bits. *)
Theorem debug_trace_symbolizes {V} `{!KernelVm V, !KernelVmLaws V} (vm0 : V) m copy size :
  let n := PAGE_UP size / 4096 in
  let len := 4096 * n - copy mod 4096 in
  let s := mkDbg vm0 m 0 0 0 0 in
  (vm_room vm0 n -> 0 < n <= 2 ^ 30 -> 0 <= copy < 2 ^ 32 -> image_ok m copy len ->
   exists s', debug_init copy size s = Ok (tt, s') /\
     forall addr, exists r, debug_trace_get_symbol addr s' = Ok (r, s') /\
       match symbolize m copy addr with
       | Some o => exists p, r = Some p /\ (o < len -> vm_tr (dvm s') p = Some (copy + o))
       | None => r = None
       end) /\
  debug_init copy size s = debug_init (copy mod 2 ^ 32) size s.
Proof.
  intros n len s. split.
  2:{ unfold debug_init. cbv zeta. destruct (copy_low copy) as [-> ->]. done. }
  intros Hroom Hn Hc Himg. unfold debug_init. cbv zeta.
  assert (Hsh : PAGE_UP size ≫ 12 = n) by (apply Z.shiftr_div_pow2; lia). rewrite Hsh.
  clearbody n. assert (Hcm : 0 <= copy mod 4096 < 4096 /\ 0 <= copy - copy mod 4096 /\ (copy - copy mod 4096) mod 4096 = 0)
    by (clear -Hc; zlia).
  destruct (vm_window vm0 n (copy - copy mod 4096) PAGE_PRESENT) as (virt & v1 & v2 & R1 & R2 & Hown & Htr);
    [done|lia|by left|apply Hcm|apply Hcm|lia|].
  destruct (vm_owns_range _ _ _ _ Hown) as (Ha & H0 & Hmax).
  erewrite bind_ok by (unfold on_dvm; cbn [dvm s]; rewrite R1; reflexivity). cbv beta.
  rewrite copy_page by done.
  erewrite bind_ok by (unfold on_dvm; cbn [dvm s]; rewrite R2; reflexivity). cbv beta.
  assert (Hlow : copy .& 0xFFF = copy mod 4096) by (apply (land_low copy 12); lia). rewrite Hlow.
  set (header := virt + copy mod 4096).
  assert (Hmap : forall i, 0 <= i < len -> vm_tr v2 (header + i) = Some (copy + i)).
  { intros i Hi. unfold header, len in *. rewrite <-Z.add_assoc, Htr by lia. f_equal. lia. }
  assert (Hlen : 0 <= header /\ header + len <= 2 ^ 64) by (unfold header, len; lia).
  set (s2 := mkDbg v2 m 0 0 0 0). fold s2. assert (Hin : in_image v2 m s2) by done.
  destruct (io_sections _ _ _ Himg) as [S0 S1]. pose proof (io_header _ _ _ Himg) as Hh. pose proof (io_index _ _ _ Himg) as Hx.
  pose proof (ldn_range 2 m (copy + 60)) as Hnum. pose proof (ldn_range 2 m (copy + 62)) as Hndx.
  fold (img_shnum m copy) in Hnum. pose proof (ldn_range 8 m (copy + 40)) as Hoff.
  erewrite bind_ok by (apply (load_ok v2 m copy header len Hmap 8 _ 40); [done|done|lia|lia]). cbv beta.
  erewrite bind_ok by (apply (load_ok v2 m copy header len Hmap 2 _ 62); [done|done|lia|lia]). cbv beta.
  assert (Hsec : u64 (header + ldn 8 m (copy + 40)) = header + img_section m copy 0).
  { unfold img_section in *. rewrite wrap_small by (unfold fits; lia). lia. }
  rewrite Hsec.
  assert (Hat : forall i, header + img_section m copy 0 + 64 * i = header + img_section m copy i)
    by (intros i; unfold img_section; lia).
  rewrite Hat.
  destruct (section_range m copy len Himg (ldn 2 m (copy + 62))) as [X0 X1]; [lia|].
  erewrite bind_ok by (apply (load_ok v2 m copy header len Hmap 8 _ (img_section m copy (ldn 2 m (copy + 62)) + 24));
    [done|lia|lia|lia]). cbv beta zeta.
  replace (copy + (img_section m copy (ldn 2 m (copy + 62)) + 24)) with (copy + img_section m copy (ldn 2 m (copy + 62)) + 24) by lia.
  fold (img_offset m copy (ldn 2 m (copy + 62))).
  erewrite bind_ok by (apply (load_ok v2 m copy header len Hmap 2 _ 60); [done|done|lia|lia]). cbv beta.
  fold (img_shnum m copy).
  set (n0 := Z.to_nat (img_shnum m copy)).
  match goal with |- context [for_n n0 0 ?b] => set (body := b) end.
  destruct (for_n_inv (fun i s => s = found v2 m copy header (Z.to_nat i)) n0 0 body s2) as (s' & R & ->).
  { done. }
  { intros i s' Hi ->. eexists. split; [|reflexivity]. unfold body. rewrite Hat.
    replace (Z.to_nat (i + 1)) with (S (Z.to_nat i)) by lia.
    rewrite <-(Z2Nat.id i) at 1 by lia.
    apply (section_ok v2 m copy header len Hmap Hlen Himg (Z.to_nat i)). lia. }
  replace (Z.to_nat (0 + Z.of_nat n0)) with n0 in R by lia.
  eexists. split; [exact R|]. intros addr.
  exact (get_symbol_ok v2 m copy header len Hmap Hlen Himg addr).
Qed.

(** ** A small image: one function, [main], of 16 bytes at 0x1000 *)
Definition section_header (name type offset size : Z) : list Z :=
  le 4 name ++ le 4 type ++ le 8 0 ++ le 8 0 ++ le 8 offset ++ le 8 size ++ le 8 0 ++ le 8 0 ++ le 8 0.
Definition tiny_elf : list Z :=
  repeat 0 40 ++ le 8 64 ++ repeat 0 12 ++ le 2 3 ++ le 2 0 ++
  section_header 16 3 256 26 ++ section_header 0 2 288 24 ++ section_header 8 3 282 6 ++
  ascii_of ".symtab" ++ [0] ++ ascii_of ".strtab" ++ [0] ++ ascii_of ".shstrtab" ++ [0] ++
  [0] ++ ascii_of "main" ++ [0] ++
  le 4 1 ++ [2; 0] ++ le 2 0 ++ le 8 0x1000 ++ le 8 16.
Definition tiny_mem : pmem := mem_at 0x100000 tiny_elf.

Lemma tiny_elf_ok : image_ok tiny_mem 0x100000 4096.
Proof.
  assert (Hi : forall i, 0 <= i < img_shnum tiny_mem 0x100000 -> i = 0 \/ i = 1 \/ i = 2).
  { intros i Hi. change (img_shnum tiny_mem 0x100000) with 3 in Hi. lia. }
  constructor.
  - lia.
  - split; vm_compute; discriminate.
  - vm_compute. reflexivity.
  - intros i H _. destruct (Hi i H) as [->|[->| ->]]; vm_compute; discriminate.
  - intros i lit H [->| ->] _; destruct (Hi i H) as [->|[->| ->]]; repeat split; vm_compute; (reflexivity || discriminate).
Qed.

Lemma debug_trace_symbolizes_witness :
  exists s' p, debug_init 0x100000 312 (mkDbg (fresh_vm 0x400) tiny_mem 0 0 0 0) = Ok (tt, s') /\
    debug_trace_get_symbol 0x1004 s' = Ok (Some p, s') /\ vm_tr (dvm s') p = Some (0x100000 + 283).
Proof.
  destruct (debug_trace_symbolizes (fresh_vm 0x400) tiny_mem 0x100000 312) as [H _].
  destruct H as (s' & R & L).
  - split; vm_compute; discriminate.
  - split; [reflexivity|vm_compute; discriminate].
  - lia.
  - exact tiny_elf_ok.
  - destruct (L 0x1004) as (r & Rr & S).
    assert (E : symbolize tiny_mem 0x100000 0x1004 = Some 283) by (vm_compute; reflexivity).
    rewrite E in S. destruct S as (p & -> & T).
    exists s', p. split; [exact R|]. split; [exact Rr|]. apply T. vm_compute. reflexivity.
Defined.
