(* ===== verification/Osl.v ===== *)
(** What the kernel does for ACPICA (driver/acpi/osl): memory windows, ports, PCI configuration
    space and delays. *)
From S2P Require Import Prelude Bytes Kvm Ports Pci Ec.

(** [ALIGN_UP(addr, 0x1000)] on a 64-bit value: the mask is computed on 32 bits. *)
Definition ALIGN_UP (addr : Z) : Z := u64 (addr + (0x1000 - 1)) .& bnot 32 (0x1000 - 1).

(** ** osl/mm.c *)
Section mm.
Context {V : Type} `{!KernelVm V}.
(** [PAGE_PRESENT | PAGE_WRITE | PAGE_NX] *)
Definition OS_FLAGS : Z := (1 .| 2) .| 0x8000000000000000.

Definition acpi_os_map_memory (PhysicalAddress length : Z) : cmd V Z :=
  let overhang := PhysicalAddress .& 0xFFF in
  let length := ALIGN_UP (u64 (length + overhang)) in
  virt ← vm_alloc (length ≫ 12);
  let phys := PhysicalAddress - overhang in
  _ ← for_n (Z.to_nat (length ≫ 12)) 0 (fun i =>
    vm_map (u64 (phys + 0x1000 * i)) (u64 (virt + 0x1000 * i)) 1 OS_FLAGS);
  mret (u64 (virt + overhang)).

Definition acpi_os_unmap_memory (where_ length : Z) : cmd V unit :=
  let addr := where_ .& bnot 64 0xFFF in
  let overhang := where_ .& 0xFFF in
  let len := ALIGN_UP (u64 (length + overhang)) in
  ret ← vm_free addr;
  assert_c "len == mm_virtual_free(addr)" (bool_decide (len = ret)).

Definition acpi_os_get_physical_address (LogicalAddress : Z) : cmd V (acpi_status * Z) :=
  p ← vm_get_phys LogicalAddress; mret (AE_OK, p).
End mm.

(** ** osl/port.c, osl/pci.c and osl/scheduling.c *)
Section ports.
Context {S : Type} `{!PortDevice S}.
Abbreviation P := (cmd S).

(** The value read, when there is one, next to the status. *)
Definition acpi_os_read_port (addr width : Z) : P (acpi_status * option Z) :=
  let a := u16 addr in
  if decide (width = 8) then v ← inb a; mret (AE_OK, Some v)
  else if decide (width = 16) then v ← inw a; mret (AE_OK, Some v)
  else if decide (width = 32) then v ← inl a; mret (AE_OK, Some v)
  else mret (AE_BAD_PARAMETER, None).

Definition acpi_os_write_port (addr value width : Z) : P acpi_status :=
  let a := u16 addr in
  if decide (width = 8) then _ ← outb a (u8 value); mret AE_OK
  else if decide (width = 16) then _ ← outw a (u16 value); mret AE_OK
  else if decide (width = 32) then _ ← outl a value; mret AE_OK
  else mret AE_BAD_PARAMETER.

(** The address the two PCI routines write to 0xCF8. *)
Definition os_config_addr (bus device function reg : Z) : Z :=
  u32 (u32 (bus ≪ 16) .| u32 (device ≪ 11) .| u32 (function ≪ 8) .| 2 ^ 31 .| reg).

(** The bytes copied out of the 32-bit local must lie inside it. *)
Definition acpi_os_read_pci_configuration (bus device function reg width : Z) : P (acpi_status * Z) :=
  let reg_aligned := reg .& bnot 32 0x03 in
  let offset := reg .& 0x03 in
  _ ← outl 0xCF8 (os_config_addr bus device function reg_aligned);
  ret ← inl 0xCFC;
  let count := width ≫ 3 in
  if decide (4 < offset + count) then halt (Faulted (offset + count)) else
  mret (AE_OK, (ret ≫ (8 * offset)) mod 2 ^ (8 * count)).

Definition acpi_os_write_pci_configuration (bus device function reg val width : Z) : P acpi_status :=
  _ ← outl 0xCF8 (os_config_addr bus device function reg);
  _ ← (if decide (width = 8) then outb 0xCFC (val .& 0xFF)
       else if decide (width = 16) then outw 0xCFC (val .& 0xFFFF)
       else if decide (width = 32) then outl 0xCFC (val .& 0xFFFFFFFF)
       else panic "acpi_os_write_pci_configuration with invalid width %u");
  mret AE_OK.

(** [rounds] and [fuel] are the bounds of [pit_wait]. *)
Definition acpi_os_sleep (rounds fuel : nat) (ms : Z) : P unit := pit_wait rounds fuel ms.
Definition acpi_os_stall (rounds fuel : nat) (us : Z) : P unit :=
  if decide (1000 < us) then pit_wait rounds fuel (us / 1000)
  else panic "%s(%u us) unimplemented".
End ports.

(** ** Properties *)

Lemma align_up_small x : 0 <= x -> x + 0xFFF < 2 ^ 32 -> ALIGN_UP x = (x + 0xFFF) / 4096 * 4096.
Proof.
  intros H0 H1. unfold ALIGN_UP. change (0x1000 - 1) with (Z.ones 12).
  rewrite (wrap_small 64) by (unfold fits; change (Z.ones 12) with 4095; lia).
  rewrite (land_bnot_ones 32 12); [done|lia|]. unfold fits. change (Z.ones 12) with 4095. lia.
Qed.

(** The pages of a window. *)
Definition window_pages (phys length : Z) : Z := (length + phys mod 4096 + 0xFFF) / 4096.

Section window.
Context {V : Type} `{!KernelVm V, !KernelVmLaws V}.

Lemma low12 x : x .& 0xFFF = x mod 4096.
Proof. apply (land_low x 12). lia. Qed.

(** The loop of [acpi_os_map_memory]: page by page over a range the caller owns. *)
Lemma map_pages_ok v virt n phys : vm_owns v virt n (2 * n) -> 0 < n ->
  phys mod 4096 = 0 -> 0 <= phys -> phys + 4096 * n <= 2 ^ 52 ->
  exists v', for_n (Z.to_nat n) 0 (fun i =>
      vm_map (u64 (phys + 0x1000 * i)) (u64 (virt + 0x1000 * i)) 1 OS_FLAGS) v = Ok (tt, v') /\
    vm_owns v' virt n n /\ forall i, 0 <= i < 4096 * n -> vm_tr v' (virt + i) = Some (phys + i).
Proof.
  intros Hown Hn Ha H0 Hm. destruct (vm_owns_range _ _ _ _ Hown) as (Hv & Hv0 & Hv1).
  match goal with |- context [for_n _ 0 ?b] => set (body := b) end.
  destruct (for_n_inv (fun k v' => vm_owns v' virt n (2 * n - k) /\
    forall i, 0 <= i < 4096 * k -> vm_tr v' (virt + i) = Some (phys + i)) (Z.to_nat n) 0 body v) as (v' & R & O & T).
  - rewrite Z.sub_0_r. split; [done|]. intros i Hi. lia.
  - intros k v1 Hk [O1 T1]. unfold body. rewrite !(wrap_small 64) by (unfold fits; lia).
    destruct (vm_map_ok v1 virt n (2 * n - k) (virt + 0x1000 * k) 1 (phys + 0x1000 * k) OS_FLAGS O1) as (v2 & R2 & O2 & T2);
      [zlia|lia|lia|lia|by right; right|zlia|lia|lia|].
    exists v2. split; [exact R2|]. split; [by replace (2 * n - (k + 1)) with (2 * n - k - 1) by lia|].
    intros i Hi. rewrite T2 by lia. case_decide; [f_equal; lia|]. apply T1. lia.
  - rewrite Z2Nat.id, Z.add_0_l in * by lia. exists v'. split; [exact R|].
    replace (2 * n - n) with n in O by lia. split; [exact O|exact T].
Qed.

Lemma map_memory_ok v phys length : 0 < length -> length + 0x2000 < 2 ^ 32 -> 0 <= phys ->
  phys + length + 4096 <= 2 ^ 52 -> vm_room v (window_pages phys length) ->
  exists virt v', acpi_os_map_memory phys length v = Ok (virt + phys mod 4096, v') /\
    vm_owns v' virt (window_pages phys length) (window_pages phys length) /\ virt + phys mod 4096 + length <= 2 ^ 64 /\
    forall i, 0 <= i < length -> vm_tr v' (virt + phys mod 4096 + i) = Some (phys + i).
Proof.
  intros Hl Hmax H0 Hm Hroom. set (n := window_pages phys length) in *.
  assert (Hov : 0 <= phys mod 4096 < 4096) by (apply Z.mod_pos_bound; lia).
  assert (Hn : 0 < n /\ length + phys mod 4096 <= 4096 * n < length + phys mod 4096 + 4096)
    by (unfold n, window_pages; clear -Hl Hov; zlia).
  unfold acpi_os_map_memory. rewrite low12. cbv zeta.
  rewrite (wrap_small 64 (length + phys mod 4096)) by (unfold fits; lia). rewrite align_up_small by lia.
  fold (window_pages phys length). fold n.
  assert (Hsh : (n * 4096) ≫ 12 = n) by (rewrite Z.shiftr_div_pow2 by lia; apply (Z.div_mul n 4096); lia). rewrite Hsh.
  destruct (vm_alloc_ok v n Hroom) as (virt & v1 & R1 & O1); [lia|].
  destruct (vm_owns_range _ _ _ _ O1) as (Hv & Hv0 & Hv1).
  assert (Hph : (phys - phys mod 4096) mod 4096 = 0 /\ 0 <= phys - phys mod 4096) by (clear -H0; zlia).
  destruct (map_pages_ok v1 virt n (phys - phys mod 4096) O1) as (v2 & R2 & O2 & T2); [lia|apply Hph|apply Hph|lia|].
  exists virt, v2. split.
  - erewrite bind_ok by exact R1. cbv beta. erewrite bind_ok by exact R2. rewrite wrap_small by (unfold fits; lia). done.
  - split; [done|]. split; [lia|]. intros i Hi. rewrite <-Z.add_assoc, T2 by lia. f_equal. lia.
Qed.

End window.


(** *** Ports and configuration space *)

(** A read of a field inside one register is that field of [pci_config_read]. *)
Lemma os_read_pci_field {S} `{!PortDevice S} bus device function reg width (s : S) :
  0 <= reg < 2 ^ 32 -> width = 8 \/ width = 16 \/ width = 32 -> 8 * (reg mod 4) + width <= 32 ->
  acpi_os_read_pci_configuration bus device function reg width s =
    (v ← pci_config_read bus device function (reg - reg mod 4);
     mret (AE_OK, (v / 2 ^ (8 * (reg mod 4))) mod 2 ^ width)) s.
Proof.
  intros Hr Hw Hin. unfold acpi_os_read_pci_configuration, pci_config_read. cbv zeta.
  assert (Hoff : reg .& 3 = reg mod 4) by (apply (land_low reg 2); lia).
  assert (Hal : reg .& bnot 32 3 = reg - reg mod 4).
  { change 3 with (Z.ones 2). rewrite (land_bnot_ones 32 2) by (done || lia). clear. zlia. }
  assert (Hz : (reg - reg mod 4) .& 3 = 0) by (rewrite (land_low _ 2) by lia; clear; zlia).
  rewrite Hoff, Hal, Hz, bool_decide_eq_true_2 by done.
  unfold os_config_addr, config_addr, outl, modify. rewrite (wrap_wrap 32). cmd_unfold.
  match goal with |- context [io_wait ?x] => destruct (io_wait x) as [[[] s1]|w]; [|done] end.
  destruct (inl 0xCFC s1) as [[v s2]|w]; [|done].
  assert (Hc : width ≫ 3 = width / 8) by (apply Z.shiftr_div_pow2; lia). rewrite Hc.
  pose proof (Z.mod_pos_bound reg 4 ltac:(lia)).
  assert (8 * (width / 8) = width) as E by (destruct Hw as [->|[->| ->]]; done).
  rewrite decide_False by lia. rewrite E, Z.shiftr_div_pow2 by lia. done.
Qed.
