(* ===== verification/Express.v ===== *)
(** PCI Express configuration space: pci/express/init.c.

    The segments come from the MCFG table, which ACPICA locates; the configuration space of a
    function is a page of physical memory, mapped for each access. *)
From S2P Require Import Prelude Bytes Kvm Ec.

(** [pcie_segment_t]; the list of them is a sequence, appended to at its end. *)
Record pcie_segment_t := mkSegment { seg : Z; bus_start : Z; bus_end : Z; seg_phys : Z }.

Record xst {V : Type} := mkX { xvm : V; xmem : pmem; pcie_segments : list pcie_segment_t }.
Arguments xst : clear implicits.
Arguments mkX {V} _ _ _.

Section express.
Context {V : Type} `{!KernelVm V}.
Abbreviation X := (cmd (xst V)).

Definition on_xvm {B} (c : cmd V B) : X B := fun s =>
  match c (xvm s) with Ok (b, v) => Ok (b, mkX v (xmem s) (pcie_segments s)) | Stop w => Stop w end.

(** One [pcie_config_t] of the table at [p], in the memory [tab] of the firmware's tables. *)
Definition pcie_config (tab : pmem) (p : Z) : pcie_segment_t :=
  mkSegment (ldn 2 tab (p + 8)) (ldn 1 tab (p + 10)) (ldn 1 tab (p + 11)) (ldn 8 tab p).

(** [acpi_get_table] answers with a status and the table, null for none. *)
Definition pci_express_init (tab : pmem) (acpi_get_table : X (acpi_status * Z)) : X unit :=
  '(status, mcfg) ← acpi_get_table;
  _ ← assert_c "status == AE_OK && mcfg" (bool_decide (status = AE_OK /\ mcfg <> 0));
  let entries := mcfg + 44 in
  for_n (Z.to_nat (u32 (ldn 4 tab (mcfg + 4) - 44) ≫ 4)) 0 (fun i =>
    modify (fun s => mkX (xvm s) (xmem s) (pcie_segments s ++ [pcie_config tab (entries + 16 * i)]))).

(** The first segment with the number. *)
Fixpoint find_segment (segment : Z) (l : list pcie_segment_t) : option pcie_segment_t :=
  match l with
  | [] => None
  | c :: l => if decide (seg c = segment) then Some c else find_segment segment l
  end.

Definition pci_express_read (segment bus slot function offset : Z) : X Z :=
  s ← get_st;
  config ← lift_opt (Panicked "[PCIe]	segment %hu not found") (find_segment segment (pcie_segments s));
  let page := u64 (seg_phys config + ((bus ≪ 20 .| slot ≪ 15) .| function ≪ 12)) in
  virt ← on_xvm (vm_alloc 1);
  _ ← on_xvm (vm_map page virt 1 (1 .| 2));
  _ ← assert_c "offset <= (0x1000 - 8)" (bool_decide (offset <= 0x1000 - 8));
  s ← get_st;
  data ← lift_opt (Faulted (virt + offset)) (vload 8 (xvm s) (xmem s) (virt + offset));
  _ ← on_xvm (vm_map page virt 1 0);
  _ ← on_xvm (vm_free virt);
  mret data.
End express.

(** ** Properties *)

(** The MCFG table as a list of segments. *)
Definition mcfg_segments (tab : pmem) (mcfg : Z) : list pcie_segment_t :=
  (fun i => pcie_config tab (mcfg + 44 + 16 * i)) <$> seqZ 0 (u32 (ldn 4 tab (mcfg + 4) - 44) / 16).

Section spec.
Context {V : Type} `{!KernelVm V, !KernelVmLaws V}.
Implicit Types s : xst V.

Lemma pci_express_init_ok tab (get : cmd (xst V) (acpi_status * Z)) s mcfg s' :
  get s = Ok ((AE_OK, mcfg), s') -> mcfg <> 0 ->
  pci_express_init tab get s = Ok (tt, mkX (xvm s') (xmem s') (pcie_segments s' ++ mcfg_segments tab mcfg)).
Proof.
  intros Hget Hm. unfold pci_express_init. erewrite bind_ok by exact Hget. cbv beta iota.
  rewrite bool_decide_eq_true_2 by done. erewrite bind_ok by reflexivity. cbv beta zeta.
  set (n := u32 (ldn 4 tab (mcfg + 4) - 44) / 16).
  assert (Hn : u32 (ldn 4 tab (mcfg + 4) - 44) ≫ 4 = n) by (apply Z.shiftr_div_pow2; lia). rewrite Hn.
  unfold mcfg_segments. fold n.
  assert (Hn0 : 0 <= n) by (apply Z.div_pos; [apply wrap_fits|]; lia).
  match goal with |- context [for_n _ 0 ?b] => set (body := b) end.
  destruct (for_n_inv (fun i x => x = mkX (xvm s') (xmem s') (pcie_segments s' ++
    ((fun i => pcie_config tab (mcfg + 44 + 16 * i)) <$> seqZ 0 i))) (Z.to_nat n) 0 body s') as (x & R & ->).
  - cbn. rewrite app_nil_r. by destruct s'.
  - intros i x Hi ->. eexists. split; [reflexivity|]. cbn [xvm xmem pcie_segments].
    rewrite seqZ_app, fmap_app by lia. cbn. by rewrite <-app_assoc.
  - rewrite Z2Nat.id, Z.add_0_l in R by lia. exact R.
Qed.

(** The fields of the address do not overlap. *)
Lemma ecam_address bus slot function : fits 8 bus -> 0 <= slot < 32 -> 0 <= function < 8 ->
  (bus ≪ 20 .| slot ≪ 15) .| function ≪ 12 = bus * 2 ^ 20 + slot * 2 ^ 15 + function * 2 ^ 12.
Proof.
  intros Hb Hs Hf. rewrite !Z.shiftl_mul_pow2 by lia.
  rewrite (lor_add 20) by (unfold fits in *; lia).
  replace (bus * 2 ^ 20 + slot * 2 ^ 15) with ((bus * 2 ^ 5 + slot) * 2 ^ 15) by lia.
  apply (lor_add 15); unfold fits in *; lia.
Qed.

Lemma pci_express_read_ok s segment bus slot function offset :
  match find_segment segment (pcie_segments s) with
  | None => exists msg, pci_express_read segment bus slot function offset s = Stop (Panicked msg)
  | Some c =>
      seg_phys c mod 4096 = 0 -> 0 <= seg_phys c -> seg_phys c + 2 ^ 28 <= 2 ^ 52 ->
      fits 8 bus -> 0 <= slot < 32 -> 0 <= function < 8 -> 0 <= offset -> vm_room (xvm s) 1 ->
      if decide (offset <= 0xFF8) then
        exists v', pci_express_read segment bus slot function offset s =
          Ok (ldn 8 (xmem s) (seg_phys c + bus * 2 ^ 20 + slot * 2 ^ 15 + function * 2 ^ 12 + offset),
              mkX v' (xmem s) (pcie_segments s))
      else exists e, pci_express_read segment bus slot function offset s = Stop (AssertFailed e)
  end.
Proof.
  destruct (find_segment segment (pcie_segments s)) as [c|] eqn:Hfind.
  2:{ eexists. unfold pci_express_read. erewrite bind_ok by reflexivity. cbv beta. rewrite Hfind. by apply bind_stop. }
  intros Ha H0 Hm Hb Hs Hf Ho Hroom. unfold pci_express_read. erewrite bind_ok by reflexivity. cbv beta.
  rewrite Hfind. erewrite bind_ok by reflexivity. cbv beta zeta. rewrite ecam_address by done.
  set (page := seg_phys c + (bus * 2 ^ 20 + slot * 2 ^ 15 + function * 2 ^ 12)).
  assert (Hpage : 0 <= page /\ page + 4096 <= 2 ^ 52 /\ page mod 4096 = 0).
  { unfold page, fits in *. split; [lia|]. split; [lia|]. clear -Ha. zlia. }
  rewrite (wrap_small 64) by (unfold fits; lia).
  destruct (vm_window (xvm s) 1 page (1 .| 2)) as (virt & v1 & v2 & R1 & R2 & O2 & T2); try (done || lia).
  { by right; left. }
  erewrite bind_ok by (unfold on_xvm; rewrite R1; reflexivity). cbv beta.
  erewrite bind_ok by (unfold on_xvm; cbn [xvm]; rewrite R2; reflexivity). cbv beta.
  change (0x1000 - 8) with 0xFF8. case_decide as Hin.
  2:{ eexists. rewrite bool_decide_eq_false_2 by done. by apply bind_stop. }
  rewrite bool_decide_eq_true_2 by done. erewrite bind_ok by reflexivity. cbv beta.
  erewrite bind_ok by reflexivity. cbv beta. cbn [xvm xmem].
  rewrite (vload_window 8 v2 (xmem s) (virt + offset) (page + offset)).
  2:{ intros i Hi. rewrite <-!Z.add_assoc. apply T2. lia. }
  erewrite bind_ok by reflexivity. cbv beta.
  destruct (vm_owns_range _ _ _ _ O2) as (Hv & _ & _).
  destruct (vm_unmap_ok v2 virt 1 1 virt 1 page O2) as (v3 & R3 & O3); [done|lia|lia|lia|].
  destruct (vm_free_ok _ _ _ _ O3) as (v4 & R4 & _).
  erewrite bind_ok by (unfold on_xvm; cbn [xvm]; rewrite R3; reflexivity). cbv beta.
  erewrite bind_ok by (unfold on_xvm; cbn [xvm]; rewrite R4; reflexivity).
  exists v4. cbn [xmem pcie_segments]. unfold page. by rewrite !Z.add_assoc.
Qed.
(** Configuration reads. A read of a function of a segment found in the table returns the
    eight bytes at its offset in the function's page of the enhanced configuration space,
    through a window that is mapped, unmapped and given back, and leaves memory alone.
    An unknown segment panics; an offset whose eight bytes leave the page fails the
    assertion. *)
Theorem pci_express_read_correct s segment bus slot function offset :
  match find_segment segment (pcie_segments s) with
  | None => exists msg, pci_express_read segment bus slot function offset s = Stop (Panicked msg)
  | Some c =>
      seg_phys c mod 4096 = 0 -> 0 <= seg_phys c -> seg_phys c + 2 ^ 28 <= 2 ^ 52 ->
      fits 8 bus -> 0 <= slot < 32 -> 0 <= function < 8 -> 0 <= offset -> vm_room (xvm s) 1 ->
      if decide (offset <= 0xFF8) then
        exists v', pci_express_read segment bus slot function offset s =
          Ok (ldn 8 (xmem s) (seg_phys c + bus * 2 ^ 20 + slot * 2 ^ 15 + function * 2 ^ 12 + offset),
              mkX v' (xmem s) (pcie_segments s))
      else exists e, pci_express_read segment bus slot function offset s = Stop (AssertFailed e)
  end.
Proof. apply pci_express_read_ok. Qed.
End spec.

Lemma pci_express_read_correct_witness :
  let m : pmem := fun a => if decide (a = 0xE0000000 + 3 * 2 ^ 15 + 0x0A) then 0x08 else 1 in
  let s := mkX (fresh_vm 0x400) m [mkSegment 1 0 0 0; mkSegment 0 0 255 0xE0000000] in
  exists v', pci_express_read 0 0 3 0 0x0A s = Ok (0x0101010101010108, mkX v' m (pcie_segments s)).
Proof.
  intros m s. pose proof (pci_express_read_correct s 0 0 3 0 0x0A) as H.
  change (find_segment 0 (pcie_segments s)) with (Some (mkSegment 0 0 255 0xE0000000)) in H.
  cbv beta iota in H. destruct (decide (0x0A <= 0xFF8)); [|lia].
  destruct H as (v' & R); [done|cbn; lia|cbn; lia|unfold fits; lia|lia|lia|lia|split; [vm_compute; discriminate|vm_compute; discriminate]|].
  exists v'. rewrite R. f_equal.
Defined.
