(* ===== verification/Acpi.v ===== *)
(** ACPI bring-up, PCI interrupt routing and shutdown: driver/acpi/init.c, irq.c and
    shutdown.c, and the parts of driver/acpi/osl that keep state or answer constants.

    ACPICA is a parameter: each request is an operation that returns a status, device walks
    call back into the kernel. The entry points of other components are parameters too. *)
From S2P Require Import Prelude Ec Interrupts.

(** The requests made during bring-up and shutdown. *)
Inductive acpica :=
  | AcpiInitializeSubsystem
  | AcpiInitializeTables (count : Z) (resizable : bool)
  | AcpiLoadTables
  | AcpiEnableSubsystem
  | AcpiInstallGlobalEventHandler
  | AcpiInitializeObjects
  | AcpiEvaluatePic (mode : Z)
  | AcpiEnablePowerButton
  | AcpiEnterSleepStatePrep (state : Z)
  | AcpiDisableAllGpes
  | AcpiEnterSleepState (state : Z).
#[export] Instance acpica_dec : EqDecision acpica.
Proof. solve_decision. Defined.

(** An entry of the routing table: the source is a link device's path, or empty. *)
Record prt_entry := mkPrt { prt_address : Z; prt_pin : Z; prt_source : list Z; prt_index : Z }.
(** The resources before the end tag. *)
Inductive acpi_irq_resource :=
  | RES_IRQ (interrupts : list Z)
  | RES_EXTENDED_IRQ (interrupts : list Z)
  | RES_OTHER.

Record acpi_st {W : Type} := mkAcpi { hw : W; pci_root_handle : Z }.
Arguments acpi_st : clear implicits.
Arguments mkAcpi {W} _ _.

Section acpi.
Context {W : Type}.
Abbreviation A := (cmd (acpi_st W)).

(** ** ACPICA and the other components *)
Variable acpi_do : acpica -> A acpi_status.
Variable acpi_terminate : A unit.
Variable acpi_get_devices : option string -> (Z -> A acpi_status) -> A acpi_status.
Variable acpi_get_object_info : Z -> A acpi_status.
Variable acpi_get_parent : Z -> A (acpi_status * Z).
(** [*(acpi_handle * ) p] *)
Variable handle_at : Z -> A Z.
Variable acpi_get_irq_routing_table : Z -> A (acpi_status * list prt_entry).
Variable acpi_get_handle : Z -> list Z -> A (acpi_status * Z).
Variable acpi_get_current_resources : Z -> A (acpi_status * list acpi_irq_resource).
Variables acpi_tables_init acpi_ec_init apic_enable cli sti : A unit.

(** A failed request ends ACPICA and panics. *)
Definition require (request : acpica) (msg : string) : A unit :=
  status ← acpi_do request;
  if ACPI_FAILURE status then _ ← acpi_terminate; panic msg else mret tt.

(** ** shutdown.c *)
Definition ACPI_STATE_S5 : Z := 5.
Definition acpi_shutdown : A unit :=
  _ ← require (AcpiEnterSleepStatePrep ACPI_STATE_S5) "ACPI failure %u @ AcpiEnterSleepStatePrep";
  _ ← require AcpiDisableAllGpes "ACPI failure %u @ AcpiDisableAllGpes";
  _ ← cli;
  require (AcpiEnterSleepState ACPI_STATE_S5) "ACPI failure %u @ AcpiEnterSleepState".

(** ** irq.c *)

(** The interrupt of the first interrupt resource; [~0UL] when there is none. *)
Fixpoint find_irq (index : Z) (res : list acpi_irq_resource) : A Z :=
  match res with
  | [] => mret (2 ^ 64 - 1)
  | RES_IRQ interrupts :: _ | RES_EXTENDED_IRQ interrupts :: _ =>
      lift_opt (Faulted index) (interrupts !! Z.to_nat index)
  | RES_OTHER :: res => find_irq index res
  end.

Definition irq_entry (object : Z) (e : prt_entry) : A unit :=
  match prt_source e with
  | [] => mret tt
  | _ :: _ =>
      '(status, link_object) ← acpi_get_handle object (prt_source e);
      if ACPI_FAILURE status then panic "ACPI failure %u @ acpi_get_handle" else
      '(status, resources) ← acpi_get_current_resources link_object;
      if ACPI_FAILURE status then panic "ACPI failure %u @ acpi_get_current_resources" else
      dev_irq ← find_irq (prt_index e) resources;
      if decide (dev_irq = 2 ^ 64 - 1) then panic "no IRQ for device %d from '%s'" else mret tt
  end.

Fixpoint irq_entries (object : Z) (table : list prt_entry) : A unit :=
  match table with
  | [] => mret tt
  | e :: table => _ ← irq_entry object e; irq_entries object table
  end.

Definition acpi_irq_process (object : Z) : A unit :=
  '(status, table) ← acpi_get_irq_routing_table object;
  if decide (status = AE_NOT_FOUND) then mret tt
  else if ACPI_FAILURE status then panic "ACPI failure %u @ acpi_get_irq_routing_table"
  else irq_entries object table.

(** ** init.c *)
Definition ACPI_EVENT_TYPE_FIXED : Z := 1.
Definition ACPI_EVENT_POWER_BUTTON : Z := 2.
Definition acpi_global_event_handler (type number : Z) : A unit :=
  if decide (type = ACPI_EVENT_TYPE_FIXED /\ number = ACPI_EVENT_POWER_BUTTON) then acpi_shutdown else mret tt.

Definition acpi_pic_set : A unit :=
  status ← acpi_do (AcpiEvaluatePic 1);
  if ACPI_FAILURE status && bool_decide (status <> AE_NOT_FOUND)
  then _ ← acpi_terminate; panic "ACPI failure %u @ AcpiEvaluateObject(_PIC)" else mret tt.

(** [fuel] bounds the nesting of the walks; [context] is the address of a handle. *)
Fixpoint acpi_bridges (fuel : nat) (context object : Z) : A acpi_status :=
  match fuel with
  | O => halt OutOfFuel
  | S fuel =>
      status ← acpi_get_object_info object;
      if ACPI_FAILURE status then panic "ACPI failure %u @ acpi_get_object_info" else
      root ← gets pci_root_handle;
      if decide (object = root) then mret AE_OK else
      '(status, parent) ← acpi_get_parent object;
      if ACPI_FAILURE status then panic "ACPI failure %u @ acpi_get_parent" else
      expected ← handle_at context;
      if decide (parent <> expected) then mret AE_OK else
      _ ← acpi_get_devices None (acpi_bridges fuel object);
      mret AE_OK
  end.

(** [object_at] is the address of the parameter [object]. *)
Definition acpi_walk_devices (fuel : nat) (object_at object : Z) : A acpi_status :=
  status ← acpi_get_object_info object;
  if ACPI_FAILURE status then panic "ACPI failure %u @ acpi_get_object_info" else
  _ ← acpi_irq_process object;
  _ ← modify (fun s => mkAcpi (hw s) object);
  status ← acpi_get_devices None (acpi_bridges fuel object_at);
  if ACPI_FAILURE status then panic "ACPI failure %u @ acpi_get_devices" else mret AE_OK.

Definition acpi_init (fuel : nat) (object_at : Z) : A unit :=
  _ ← acpi_tables_init;
  _ ← require AcpiInitializeSubsystem "ACPI failure %u @ AcpiInitializeSubsystem";
  _ ← require (AcpiInitializeTables 32 true) "ACPI failure %u @ AcpiInitializeTables";
  _ ← require AcpiLoadTables "ACPI failure %u @ AcpiLoadTables";
  _ ← cli;
  _ ← require AcpiEnableSubsystem "ACPI failure %u @ AcpiEnableSubsystem";
  _ ← acpi_ec_init;
  _ ← require AcpiInstallGlobalEventHandler "ACPI failure %u @ AcpiInstallGlobalEventHandler";
  _ ← require AcpiInitializeObjects "ACPI failure %u @ AcpiInitializeObjects";
  _ ← acpi_pic_set;
  _ ← apic_enable;
  _ ← require AcpiEnablePowerButton "ACPI failure %u @ AcpiEnableEvent";
  _ ← sti;
  status ← acpi_get_devices (Some "PNP0A03") (acpi_walk_devices fuel object_at);
  if ACPI_FAILURE status then _ ← acpi_terminate; panic "ACPI failure %u @ AcpiGetDevices" else mret tt.
End acpi.

(** ** osl/interrupt.c *)

(** The two static variables next to the machine the interrupt handlers run on. *)
Record osl_st {X : Type} := mkOsl { osl_handler : option (Z -> cmd X unit); osl_context : Z; osl_mach : X }.
Arguments osl_st : clear implicits.
Arguments mkOsl {X} _ _ _.

Section interrupt.
Context {X : Type}.

(** A call through the null pointer faults. *)
Definition acpi_handler (frame : cpu_state_t) : cmd (osl_st X) unit := fun s =>
  match osl_handler s with
  | None => Stop (Faulted 0)
  | Some h =>
      match h (osl_context s) (osl_mach s) with
      | Ok (_, x) => Ok (tt, mkOsl (osl_handler s) (osl_context s) x)
      | Stop w => Stop w
      end
  end.

Definition acpi_os_install_interrupt_handler (interrupt : Z) (hand : Z -> cmd X unit) (ctx : Z)
    : cmd (@isr_st (osl_st X)) acpi_status :=
  _ ← isr_register (u32 (interrupt + 32)) (Some acpi_handler);
  _ ← on_mach (modify (fun s => mkOsl (Some hand) ctx (osl_mach s)));
  mret AE_OK.
Definition acpi_os_remove_interrupt_handler (interrupt : Z) : cmd (@isr_st (osl_st X)) acpi_status :=
  _ ← isr_unregister (u32 (interrupt + 32)); mret AE_OK.
End interrupt.

(** ** osl/general.c, memory.c, misc.c, mm.c, output.c, synchronization.c, table.c and scheduling.c: answers
    that do not depend on a state, and requests that are not implemented *)
Section stubs.
Context {S : Type}.
Definition unimplemented {A} (name : string) : cmd S A := panic (String.append name " unimplemented").

Definition acpi_os_initialize : acpi_status := AE_OK.
Definition acpi_os_terminate : acpi_status := AE_OK.
Definition acpi_os_get_root_pointer (info_rsdp : Z) : Z := info_rsdp.
(** The replacement is the null string. *)
Definition acpi_os_predefined_override (object new_value : Z) : acpi_status * option Z :=
  if decide (object = 0 \/ new_value = 0) then (AE_BAD_PARAMETER, None) else (AE_OK, Some 0).
Definition acpi_os_table_override : acpi_status * Z := (AE_OK, 0).
Definition acpi_os_physical_table_override : acpi_status * Z := (AE_OK, 0).
Definition AcpiDbSingleStep : cmd S acpi_status := unimplemented "AcpiDbSingleStep".
Definition AcpiDbSignalBreakPoint : cmd S unit := unimplemented "AcpiDbSignalBreakPoint".
Definition AcpiDbDumpMethodInfo : cmd S unit := unimplemented "AcpiDbDumpMethodInfo".
Definition AcpiDbDisplayArgumentObject : cmd S unit := unimplemented "AcpiDbDisplayArgumentObject".
Definition AcpiDbDisplayResultObject : cmd S unit := unimplemented "AcpiDbDisplayResultObject".

Definition acpi_os_read_memory : cmd S acpi_status := unimplemented "acpi_os_read_memory".
Definition acpi_os_write_memory : cmd S acpi_status := unimplemented "acpi_os_write_memory".

Definition acpi_os_get_timer : Z := 0.
(** [ACPI_SIGNAL_FATAL] is 0 and [ACPI_SIGNAL_BREAKPOINT] 1; [printf] is the console's. *)
Definition acpi_os_signal (printf : list Z -> cmd S Z) (function : Z) : cmd S acpi_status :=
  if decide (function = 0) then panic "[acpi]	AML fatal opcode"
  else if decide (function = 1) then _ ← printf (ascii_of "[acpi]	AML breakpoint"); mret AE_OK
  else mret AE_BAD_PARAMETER.
Definition acpi_os_get_line : cmd S acpi_status := unimplemented "acpi_os_get_line".
Definition acpi_os_enter_sleep : acpi_status := AE_OK.

Definition acpi_os_create_mutex : acpi_status := AE_OK.
Definition acpi_os_acquire_mutex : acpi_status := AE_OK.
Definition acpi_os_create_semaphore : acpi_status * Z := (AE_OK, 1).
Definition acpi_os_delete_semaphore : acpi_status := AE_OK.
Definition acpi_os_wait_semaphore : cmd S acpi_status := unimplemented "acpi_os_wait_semaphore".
Definition acpi_os_signal_semaphore : acpi_status := AE_OK.
Definition acpi_os_create_lock : acpi_status := AE_OK.
Definition acpi_os_acquire_lock : acpi_status := AE_OK.
Definition acpi_os_delete_mutex : cmd S unit := mret tt.
Definition acpi_os_release_mutex : cmd S unit := mret tt.
Definition acpi_os_delete_lock : cmd S unit := mret tt.
Definition acpi_os_release_lock : cmd S unit := mret tt.

(** Without [CONFIG_ACPI_DEBUG] nothing is printed. *)
Definition acpi_os_printf : cmd S unit := mret tt.
Definition acpi_os_vprintf : cmd S unit := mret tt.
Definition acpi_os_redirect_output : cmd S unit := unimplemented "acpi_os_redirect_output".
Definition acpi_os_readable : cmd S Z := unimplemented "acpi_os_readable".
Definition acpi_os_writable : cmd S Z := unimplemented "acpi_os_writable".

Definition acpi_os_get_table_by_address : acpi_status := AE_SUPPORT.
Definition acpi_os_get_table_by_index : acpi_status := AE_SUPPORT.
Definition acpi_os_get_table_by_name : acpi_status := AE_SUPPORT.

Definition acpi_os_get_thread_id : Z := 1.
Definition acpi_os_execute : cmd S acpi_status := unimplemented "acpi_os_execute".
End stubs.

(** ** Properties *)

(** A request that succeeds. *)
Tactic Notation "ok_by" tactic3(tac) := erewrite bind_ok by tac; cbv beta iota; change (ACPI_FAILURE AE_OK) with false; cbv iota.

(** *** Routing *)
Section routing.
Context {W : Type}.
Variable acpi_get_irq_routing_table : Z -> cmd (acpi_st W) (acpi_status * list prt_entry).
Variable acpi_get_handle : Z -> list Z -> cmd (acpi_st W) (acpi_status * Z).
Variable acpi_get_current_resources : Z -> cmd (acpi_st W) (acpi_status * list acpi_irq_resource).

(** The link of an entry exists and its first interrupt resource has the entry's index. *)
Definition routed (s : acpi_st W) (object : Z) (e : prt_entry) : Prop :=
  prt_source e = [] \/ exists link res irq,
    acpi_get_handle object (prt_source e) s = Ok ((AE_OK, link), s) /\
    acpi_get_current_resources link s = Ok ((AE_OK, res), s) /\
    find_irq (prt_index e) res s = Ok (irq, s) /\ irq < 2 ^ 32.

Lemma find_irq_first index others interrupts rest irq (s : acpi_st W) :
  Forall (fun r => r = RES_OTHER) others -> interrupts !! Z.to_nat index = Some irq ->
  find_irq index (others ++ RES_IRQ interrupts :: rest) s = Ok (irq, s) /\
  find_irq index (others ++ RES_EXTENDED_IRQ interrupts :: rest) s = Ok (irq, s).
Proof. intros H Hi. induction H as [|r others -> _ IH]; cbn; [by rewrite Hi|done]. Qed.

Lemma acpi_irq_process_ok s object table :
  acpi_get_irq_routing_table object s = Ok ((AE_OK, table), s) -> Forall (routed s object) table ->
  acpi_irq_process acpi_get_irq_routing_table acpi_get_handle acpi_get_current_resources object s = Ok (tt, s).
Proof.
  intros Ht Hr. unfold acpi_irq_process. ok_by (exact Ht). rewrite decide_False by done. clear Ht.
  induction Hr as [|e table He _ IH]; [done|]. cbn [irq_entries]. rewrite (bind_ok _ _ s tt s); [exact IH|].
  unfold irq_entry. destruct (prt_source e) as [|c l] eqn:E; [done|].
  destruct He as [He|(link & res & irq & R1 & R2 & R3 & Hirq)]; [congruence|]. rewrite E in R1.
  ok_by (exact R1). ok_by (exact R2). ok_by (exact R3).
  by rewrite decide_False by lia.
Qed.

(** No interrupt resource: the routine panics. *)
Lemma irq_entry_missing s object e link res : prt_source e <> [] ->
  acpi_get_handle object (prt_source e) s = Ok ((AE_OK, link), s) ->
  acpi_get_current_resources link s = Ok ((AE_OK, res), s) -> Forall (fun r => r = RES_OTHER) res ->
  exists msg, irq_entry acpi_get_handle acpi_get_current_resources object e s = Stop (Panicked msg).
Proof.
  intros Hs R1 R2 Hres. unfold irq_entry. destruct (prt_source e) as [|c l]; [done|].
  ok_by (exact R1). ok_by (exact R2).
  assert (Hf : find_irq (prt_index e) res s = Ok (2 ^ 64 - 1, s)) by (clear -Hres; induction Hres as [|r res -> _ IH]; done).
  ok_by (exact Hf). rewrite decide_True by done. eauto.
Qed.
End routing.

(** *** The walk over the bridges *)
Section bridges.
Context {W : Type}.
(** The namespace: the devices in the order of the walk, their parents, and memory words. *)
Variables (devices : list Z) (parent : Z -> Z) (word : Z -> Z).
Variable acpi_get_devices : option string -> (Z -> cmd (acpi_st W) acpi_status) -> cmd (acpi_st W) acpi_status.
Variable acpi_get_object_info : Z -> cmd (acpi_st W) acpi_status.
Variable acpi_get_parent : Z -> cmd (acpi_st W) (acpi_status * Z).
Variable handle_at : Z -> cmd (acpi_st W) Z.
Variable acpi_get_irq_routing_table : Z -> cmd (acpi_st W) (acpi_status * list prt_entry).
Variable acpi_get_handle : Z -> list Z -> cmd (acpi_st W) (acpi_status * Z).
Variable acpi_get_current_resources : Z -> cmd (acpi_st W) (acpi_status * list acpi_irq_resource).
Hypothesis get_info : forall o s, acpi_get_object_info o s = Ok (AE_OK, s).
Hypothesis get_parent : forall o s, acpi_get_parent o s = Ok ((AE_OK, parent o), s).
Hypothesis load : forall a s, handle_at a s = Ok (word a, s).
(** A walk calls back for every device and goes on as long as the answer is [AE_OK]. *)
Hypothesis get_devices : forall hid cb s,
  (forall d, d ∈ devices -> cb d s = Ok (AE_OK, s)) -> acpi_get_devices hid cb s = Ok (AE_OK, s).

Abbreviation bridges := (acpi_bridges acpi_get_devices acpi_get_object_info acpi_get_parent handle_at).
Abbreviation irq_process := (acpi_irq_process acpi_get_irq_routing_table acpi_get_handle acpi_get_current_resources).

(** Below a handle whose first word is the parent of no device, a walk finds nothing to enter. *)
Lemma bridges_flat fuel context s : (forall d, d ∈ devices -> parent d <> word context) ->
  forall d, d ∈ devices -> bridges (S fuel) context d s = Ok (AE_OK, s).
Proof.
  intros Hc d Hd. cbn [acpi_bridges]. ok_by (apply get_info).
  ok_by reflexivity. case_decide; [done|].
  ok_by (apply get_parent). ok_by (apply load).
  by rewrite decide_True by (by apply Hc).
Qed.

(** Walking the bridges. With routed interrupts and a namespace that answers,
    [acpi_walk_devices] of a PCI root terminates: two levels of nested walks are enough,
    however deep the tree is, and it leaves the root as the current one. The nested walks
    compare each parent with the word stored at the device handle instead of the handle
    itself, so below the devices under the root nothing is entered. *)
Theorem acpi_walk_devices_terminates s object object_at fuel table :
  word object_at = object -> (2 <= fuel)%nat ->
  (forall d d', d ∈ devices -> d' ∈ devices -> parent d' <> word d) ->
  acpi_get_irq_routing_table object s = Ok ((AE_OK, table), s) ->
  Forall (routed acpi_get_handle acpi_get_current_resources s object) table ->
  acpi_walk_devices acpi_get_devices acpi_get_object_info acpi_get_parent handle_at
    acpi_get_irq_routing_table acpi_get_handle acpi_get_current_resources fuel object_at object s =
  Ok (AE_OK, mkAcpi (hw s) object).
Proof.
  intros Hobj Hf Hword Ht Hr. unfold acpi_walk_devices.
  ok_by (apply get_info).
  ok_by (eapply acpi_irq_process_ok; done).
  ok_by reflexivity. rewrite (bind_ok _ _ _ AE_OK (mkAcpi (hw s) object)); [done|]. apply get_devices.
  intros d Hd. destruct fuel as [|[|fuel]]; [lia|lia|]. cbn [acpi_bridges].
  ok_by (apply get_info). ok_by reflexivity. case_decide; [done|].
  ok_by (apply get_parent). ok_by (apply load).
  case_decide; [done|]. rewrite (bind_ok _ _ _ AE_OK (mkAcpi (hw s) object)); [done|].
  apply get_devices. intros d' Hd'.
  apply (bridges_flat fuel d _ (fun x Hx => Hword d x Hd Hx) d' Hd').
Qed.
End bridges.

(** A root at 100 with a bridge 200 under it and a device 300 behind the bridge; entry 0 of the
    routing table is routed through a link. *)
Fixpoint walk_list {W} (l : list Z) (cb : Z -> cmd (acpi_st W) acpi_status) : cmd (acpi_st W) acpi_status :=
  match l with
  | [] => mret AE_OK
  | d :: l => status ← cb d; if ACPI_FAILURE status then mret status else walk_list l cb
  end.

Lemma walk_list_ok {W} l (cb : Z -> cmd (acpi_st W) acpi_status) s :
  (forall d, d ∈ l -> cb d s = Ok (AE_OK, s)) -> walk_list l cb s = Ok (AE_OK, s).
Proof.
  induction l as [|d l IH]; intros H; [done|]. cbn [walk_list]. ok_by (apply H; set_solver).
  apply IH. intros d' Hd'. apply H. set_solver.
Qed.

Definition tree_devices : list Z := [100; 200; 300].
Definition tree_parent (d : Z) : Z := if decide (d = 300) then 200 else if decide (d = 200) then 100 else 1.
Definition tree_word (a : Z) : Z := if decide (a = 50) then 100 else 0.
Definition tree_table : list prt_entry := [mkPrt 0x10000 0 (ascii_of "LNKA") 0; mkPrt 0x20000 1 [] 11].

Lemma acpi_walk_devices_terminates_witness :
  acpi_walk_devices (W := unit) (fun _ => walk_list tree_devices) (fun _ => mret AE_OK)
    (fun o => mret (AE_OK, tree_parent o)) (fun a => mret (tree_word a)) (fun _ => mret (AE_OK, tree_table))
    (fun _ _ => mret (AE_OK, 7)) (fun _ => mret (AE_OK, [RES_OTHER; RES_IRQ [10]])) 2 50 100 (mkAcpi tt 0) =
  Ok (AE_OK, mkAcpi tt 100).
Proof.
  apply (acpi_walk_devices_terminates tree_devices tree_parent tree_word) with (table := tree_table).
  - done.
  - done.
  - done.
  - intros hid cb s. apply walk_list_ok.
  - done.
  - lia.
  - intros d d' Hd Hd'. unfold tree_devices in *. rewrite !elem_of_cons in Hd, Hd'.
    destruct Hd as [->|[->|[->|Hd]]]; [..|set_solver]; destruct Hd' as [->|[->|[->|Hd']]]; first [set_solver|vm_compute; discriminate].
  - done.
  - constructor; [|constructor; [by left|done]]. right. exists 7, [RES_OTHER; RES_IRQ [10]], 10. split_and!; done.
Defined.

(** *** The order of bring-up *)

(** A machine that records what is asked of it, with a status for each request. *)
Inductive event := Asked (r : acpica) | Terminated | TablesRead | EcStarted | ApicEnabled | InterruptsOff | InterruptsOn | Walked.
Section bring_up.
Variable answer : acpica -> acpi_status.
Abbreviation T := (acpi_st (list event)).
Definition log_event (e : event) : cmd T unit := modify (fun s => mkAcpi (hw s ++ [e]) (pci_root_handle s)).
Definition log_do (r : acpica) : cmd T acpi_status := _ ← log_event (Asked r); mret (answer r).

Definition log_init (walk : acpi_status) : cmd T unit :=
  acpi_init log_do (log_event Terminated) (fun _ _ => _ ← log_event Walked; mret walk) (fun _ => mret AE_OK)
    (fun _ => mret (AE_OK, 0)) (fun _ => mret 0) (fun _ => mret (AE_NOT_FOUND, []))
    (fun _ _ => mret (AE_OK, 0)) (fun _ => mret (AE_OK, []))
    (log_event TablesRead) (log_event EcStarted) (log_event ApicEnabled) (log_event InterruptsOff) (log_event InterruptsOn) 0 0.

(** The requests that must succeed, in their order; a missing [_PIC] method is no failure. *)
Definition init_requests : list acpica :=
  [AcpiInitializeSubsystem; AcpiInitializeTables 32 true; AcpiLoadTables; AcpiEnableSubsystem;
   AcpiInstallGlobalEventHandler; AcpiInitializeObjects; AcpiEvaluatePic 1; AcpiEnablePowerButton].
Definition fails (r : acpica) : bool :=
  ACPI_FAILURE (answer r) && negb (bool_decide (r = AcpiEvaluatePic 1 /\ answer r = AE_NOT_FOUND)).
Definition init_events : list event :=
  [TablesRead; Asked AcpiInitializeSubsystem; Asked (AcpiInitializeTables 32 true); Asked AcpiLoadTables; InterruptsOff;
   Asked AcpiEnableSubsystem; EcStarted; Asked AcpiInstallGlobalEventHandler; Asked AcpiInitializeObjects;
   Asked (AcpiEvaluatePic 1); ApicEnabled; Asked AcpiEnablePowerButton; InterruptsOn; Walked].

Lemma require_log r msg s : r <> AcpiEvaluatePic 1 -> require log_do (log_event Terminated) r msg s =
  if fails r then Stop (Panicked msg) else Ok (tt, mkAcpi (hw s ++ [Asked r]) (pci_root_handle s)).
Proof.
  intros Hr. unfold require, log_do, log_event, fails. cmd_unfold.
  rewrite (bool_decide_eq_false_2 (r = _ /\ _)) by tauto. rewrite andb_true_r. by destruct (ACPI_FAILURE (answer r)).
Qed.

Lemma pic_log s : acpi_pic_set log_do (log_event Terminated) s =
  if fails (AcpiEvaluatePic 1) then Stop (Panicked "ACPI failure %u @ AcpiEvaluateObject(_PIC)")
  else Ok (tt, mkAcpi (hw s ++ [Asked (AcpiEvaluatePic 1)]) (pci_root_handle s)).
Proof.
  unfold acpi_pic_set, log_do, log_event, fails. cmd_unfold.
  destruct (decide (answer (AcpiEvaluatePic 1) = AE_NOT_FOUND)) as [E|E].
  - rewrite bool_decide_eq_false_2, bool_decide_eq_true_2 by tauto. by rewrite !andb_false_r.
  - rewrite bool_decide_eq_true_2, bool_decide_eq_false_2 by tauto. rewrite !andb_true_r.
    by destruct (ACPI_FAILURE _).
Qed.

Ltac step_log := erewrite bind_ok by reflexivity; cbv beta.
Ltac step_if tac := match goal with |- context [fails ?r || _] => destruct (fails r) eqn:?; cbn [orb];
  [eexists; apply bind_stop; tac; match goal with H : fails r = true |- _ => rewrite H end; reflexivity
  |erewrite bind_ok by (tac; match goal with H : fails r = false |- _ => rewrite H end; reflexivity); cbv beta] end.

(** Bring-up: the first request that fails panics; when none does, the steps are made in this
    order, so that interrupts are on only after the handlers, the embedded controller and the
    local APIC are set up. *)
Lemma acpi_init_sequence walk s :
  if existsb fails init_requests || ACPI_FAILURE walk then exists msg, log_init walk s = Stop (Panicked msg)
  else log_init walk s = Ok (tt, mkAcpi (hw s ++ init_events) (pci_root_handle s)).
Proof.
  unfold log_init, acpi_init. cbn [existsb init_requests]. rewrite <-!orb_assoc. cbn [orb].
  step_log. do 3 step_if ltac:(rewrite require_log by done). step_log.
  step_if ltac:(rewrite require_log by done). step_log.
  do 2 step_if ltac:(rewrite require_log by done). step_if ltac:(rewrite pic_log). step_log.
  step_if ltac:(rewrite require_log by done). step_log. step_log.
  destruct (ACPI_FAILURE walk).
  - eexists. step_log. reflexivity.
  - unfold mret, cmd_ret, init_events. cbn [hw pci_root_handle]. by rewrite <-!app_assoc.
Qed.
End bring_up.

(** *** The system control interrupt *)

(** Once ACPICA has installed its handler, dispatching the interrupt runs it with its context
    and acknowledges the interrupt; removed, dispatching it does not return. *)
Lemma install_dispatch {X} printf ack trace cr interrupt (hand : Z -> cmd X unit) ctx (s : @isr_st (osl_st X)) st :
  0 <= interrupt < 0xE0 -> st_id st = interrupt + 32 ->
  exists s', acpi_os_install_interrupt_handler interrupt hand ctx s = Ok (AE_OK, s') /\
    (forall x, hand ctx (osl_mach (mach s)) = Ok (tt, x) ->
      isr_dispatch printf ack trace cr st s' =
        on_mach ack (mkIsr (handlers s') (mkOsl (Some hand) ctx x))) /\
    exists s2, acpi_os_remove_interrupt_handler interrupt s' = Ok (AE_OK, s2) /\
      handlers s2 !! st_id st = None.
Proof.
  intros Hi Hst. unfold acpi_os_install_interrupt_handler, acpi_os_remove_interrupt_handler, isr_register, isr_unregister.
  rewrite wrap_small by (unfold fits; lia). rewrite decide_True by lia.
  eexists. split; [reflexivity|]. split.
  - intros x Hx. unfold isr_dispatch. rewrite Hst. rewrite (decide_False (P := interrupt + 32 < 32)) by lia.
    cmd_unfold. rewrite (decide_True (P := interrupt + 32 < 256)) by lia. cbn [handlers mach osl_handler osl_context osl_mach on_mach].
    rewrite lookup_insert_eq. unfold on_mach at 1. cbn [handlers mach]. unfold acpi_handler.
    cbn [osl_handler osl_context osl_mach]. rewrite Hx. by rewrite (decide_True (P := 32 <= interrupt + 32)) by lia.
  - cmd_unfold. rewrite (decide_True (P := interrupt + 32 < 256)) by lia.
    eexists. split; [reflexivity|]. cbn [handlers]. rewrite Hst. apply lookup_delete_eq.
Qed.
