(* ===== verification/Block.v ===== *)
(** Block devices as the file systems see them: the interface [BlockReader], and the NVMe
    driver of file Nvme as an implementation of it. *)
From S2P Require Import Prelude Bytes Kvm Ports Pci Nvme.

(** Allocation ([malloc], [memalign]), [free], reading [length] bytes of the disk at a byte
    offset into memory, and loads from memory. *)
Class BlockReader (W : Type) := {
  bd_alloc : Z -> Z -> cmd W Z;
  bd_free : Z -> cmd W unit;
  bd_read : Z -> Z -> Z -> cmd W unit;
  bd_ld : nat -> Z -> cmd W Z
}.
#[global] Hint Mode BlockReader ! : typeclass_instances.

(** A live allocation: its address, its size, and its bytes. *)
Record buf := mkBuf { b_at : Z; b_len : Z; b_byte : pmem }.

(** The largest allocation the laws speak of. *)
Definition ALLOC_MAX : Z := 0x5000.

(** [bd_bufs w l k c]: the live buffers are [l], and there is room for [k] more allocations (a
    read makes one for its bounce buffer) and for [c] more requests to the device. *)
Class BlockReaderLaws (W : Type) `{!BlockReader W} := {
  bd_disk : pmem;
  bd_bufs : W -> list buf -> Z -> Z -> Prop;
  bd_bufs_le w l k c k' c' : bd_bufs w l k c -> k' <= k -> c' <= c -> bd_bufs w l k' c';
  bd_alloc_ok w l k c align size : bd_bufs w l k c -> 1 <= k -> 0 < size <= ALLOC_MAX ->
    exists p f w', bd_alloc align size w = Ok (p, w') /\ 0 < p /\ p mod 4096 = 0 /\
      bd_bufs w' (mkBuf p size f :: l) (k - 1) c;
  bd_free_ok w l k c b : bd_bufs w (b :: l) k c ->
    exists w', bd_free (b_at b) w = Ok (tt, w') /\ bd_bufs w' l k c;
  bd_read_ok w l k c b physical : bd_bufs w (b :: l) k c -> 1 <= k -> chunks (b_len b) <= c ->
    0 <= physical -> physical mod 512 = 0 -> 0 <= b_len b -> b_len b mod 512 = 0 -> physical + b_len b < 2 ^ 64 ->
    exists w', bd_read physical (b_len b) (b_at b) w = Ok (tt, w') /\
      bd_bufs w' (mkBuf (b_at b) (b_len b) (fun j => bd_disk (physical + j)) :: l) (k - 1) (c - chunks (b_len b));
  bd_ld_ok w l k c b n o : bd_bufs w l k c -> b ∈ l -> 0 <= o -> o + Z.of_nat n <= b_len b ->
    (0 < n)%nat -> (b_at b + o) mod 4096 + Z.of_nat n <= 4096 ->
    bd_ld n (b_at b + o) w = Ok (ldn n (b_byte b) o, w)
}.
#[global] Hint Mode BlockReaderLaws ! - : typeclass_instances.

(** ** The NVMe driver as a block device *)

(** A range of virtual addresses with the physical address of each byte. *)
Record region := mkRegion { r_va : Z; r_len : Z; r_pa : Z -> Z }.
Definition addrs (r : region) : list Z := r_pa r <$> seqZ 0 (r_len r).

(** The addresses of several ranges. *)
Definition spans (rs : list region) : list Z := rs ≫= addrs.

Lemma elem_addrs r j : 0 <= j < r_len r -> r_pa r j ∈ addrs r.
Proof. intros Hj. apply list_elem_of_fmap_2, elem_of_seqZ. lia. Qed.

Lemma addrs_shrink r n : 0 <= n <= r_len r -> exists l, addrs r = addrs (mkRegion (r_va r) n (r_pa r)) ++ l.
Proof.
  intros Hn. exists (r_pa r <$> seqZ n (r_len r - n)). unfold addrs. cbn [r_pa r_len].
  rewrite <-fmap_app. f_equal. replace (seqZ 0 (r_len r)) with (seqZ 0 (n + (r_len r - n))) by (f_equal; lia).
  by rewrite seqZ_app by lia.
Qed.

Section nvme_block.
Context {D B V : Type} `{!NvmeDevice D, !NvmeDisk D, !PortDevice B, !KernelVm V}.
(** The namespace read, and the addresses of the queue pages. *)
Variables (ns : nvme_ns_t) (sqv cqv : Z).
Hypothesis ns_blocks : block_size ns = 512.
Implicit Types s : nst D B V.

Instance nvme_reader : BlockReader (nst D B V) := {|
  bd_alloc := memalign;
  bd_free := free;
  bd_read physical length buf := nvme_read (S (Z.to_nat length)) ns physical length buf;
  bd_ld := vld
|}.

(** The bytes of a range translate to its physical addresses, none of them in a queue, page
    by page. *)
Definition region_ok (v : V) (r : region) : Prop :=
  (forall j, 0 <= j < r_len r -> vm_tr v (r_va r + j) = Some (r_pa r j) /\
    ~ sqb <= r_pa r j < sqb + 4096 /\ ~ cqb <= r_pa r j < cqb + 4096) /\
  (forall j n i, 0 <= j -> j + n <= r_len r -> (r_va r + j) mod 4096 + n <= 4096 -> 0 <= i < n ->
    r_pa r (j + i) = r_pa r j + i).
(** A range the allocator may hand out: it starts on a page. *)
Definition cell_ok (v : V) (r : region) : Prop :=
  r_len r = ALLOC_MAX /\ 0 < r_va r /\ r_va r mod 4096 = 0 /\ vm_get_phys (r_va r) v = Ok (r_pa r 0, v) /\
  r_pa r 0 mod 4096 = 0 /\ fits 64 (r_pa r 0).
(** The live ranges and those the allocator still has: no byte belongs to two. *)
Record pool (v : V) (regs cells : list region) : Prop := {
  pl_regions : Forall (region_ok v) (regs ++ cells);
  pl_cells : Forall (cell_ok v) cells;
  pl_nodup : NoDup (spans (regs ++ cells))
}.
Definition shows (m : pmem) (b : buf) (r : region) : Prop :=
  r_va r = b_at b /\ r_len r = b_len b /\ forall j, 0 <= j < b_len b -> u8 (m (r_pa r j)) = u8 (b_byte b j).

Definition nvme_bufs s (l : list buf) (k c : Z) : Prop :=
  exists (h t : Z) (regs cells : list region),
    (io_ready sqv cqv s h t /\ 0 <= h /\ 0 <= t /\ h + c <= 63 /\ t + c <= 255) /\
    (heap s = r_va <$> cells /\ k <= Z.of_nat (length cells)) /\
    Forall2 (shows (wd s).1) l regs /\ pool (vm s) regs cells.

(** What the proofs use of disjointness. *)
Lemma bind_middle (regs cells : list region) c :
  spans (regs ++ c :: cells) ≡ₚ addrs c ++ spans (regs ++ cells).
Proof. unfold spans. by rewrite <-Permutation_middle. Qed.

(** Taking the first range of the allocator, dropping it, and giving a live range up. *)
Lemma pool_take v regs cell cells n : 0 <= n <= r_len cell -> pool v regs (cell :: cells) ->
  pool v (mkRegion (r_va cell) n (r_pa cell) :: regs) cells.
Proof.
  intros Hn [Hregs Hcells Hnd]. apply Forall_app in Hregs as [H1 H2]. apply Forall_cons in H2 as [[Htr Hc] H3]. split.
  - cbn [app]. constructor; [|by apply Forall_app]. split.
    + intros j Hj. cbn in *. apply Htr. lia.
    + intros j n' i Hj Hl Hp Hi. cbn in *. apply (Hc j n' i); lia.
  - by apply Forall_cons in Hcells as [_ ?].
  - rewrite bind_middle in Hnd. destruct (addrs_shrink cell n Hn) as [l E]. rewrite E in Hnd.
    cbn [spans mbind list_bind app]. rewrite !NoDup_app in *. destruct Hnd as ((? & _ & _) & Hd & ?).
    split; [done|]. split; [|done]. intros x Hx. apply Hd. set_solver.
Qed.
Lemma pool_drop v regs cell cells : pool v regs (cell :: cells) -> pool v regs cells.
Proof.
  intros [Hregs Hcells Hnd]. apply Forall_app in Hregs as [H1 H2]. apply Forall_cons in H2 as [_ H3]. split.
  - by apply Forall_app.
  - by apply Forall_cons in Hcells as [_ ?].
  - rewrite bind_middle, NoDup_app in Hnd. tauto.
Qed.
Lemma pool_release v r regs cells : pool v (r :: regs) cells -> pool v regs cells.
Proof.
  intros [Hregs Hcells Hnd]. split; [by apply Forall_cons in Hregs as [_ ?]|done|].
  cbn [spans app mbind list_bind] in Hnd. apply NoDup_app in Hnd. tauto.
Qed.

Lemma addrs_inj r i j : NoDup (addrs r) -> 0 <= i < r_len r -> 0 <= j < r_len r -> r_pa r i = r_pa r j -> i = j.
Proof.
  unfold addrs. intros Hn Hi Hj E.
  assert (Hl : forall k, 0 <= k < r_len r -> (r_pa r <$> seqZ 0 (r_len r)) !! Z.to_nat k = Some (r_pa r k)).
  { intros k Hk. rewrite list_lookup_fmap, lookup_seqZ_lt by lia. cbn. do 2 f_equal. lia. }
  pose proof (Hl i Hi) as H1. pose proof (Hl j Hj) as H2. rewrite E in H1.
  pose proof (NoDup_lookup _ _ _ _ Hn H1 H2). lia.
Qed.

Section first_cell.
Variables (v : V) (regs cells : list region) (cell : region).
Hypothesis Hpool : pool v regs (cell :: cells).

Lemma pool_region r : r ∈ regs -> region_ok v r.
Proof. intros Hr. destruct Hpool as [H _ _]. apply Forall_app in H as [H _]. rewrite Forall_forall in H. by apply H. Qed.
Lemma cell_region : region_ok v cell /\ cell_ok v cell.
Proof.
  destruct Hpool as [H1 H2 _]. apply Forall_app in H1 as [_ H1]. split; by eapply Forall_inv.
Qed.
Lemma cell_page o : 0 <= o < 4096 -> r_pa cell o = r_pa cell 0 + o.
Proof.
  destruct cell_region as [[_ Hc] (Hlen & _ & Hal & _)]. intros Ho.
  apply (Hc 0 4096); rewrite ?Z.add_0_r; unfold ALLOC_MAX in *; lia.
Qed.

(** The bytes of live ranges lie apart from the page at the front of the next one. *)
Lemma pool_apart r j : r ∈ regs -> 0 <= j < r_len r -> apart (r_pa cell 0) (r_pa r j).
Proof.
  intros Hr Hj. destruct cell_region as [_ (Hlen & _)]. split; [|by apply pool_region].
  intros Hin. destruct Hpool as [_ _ Hnd]. rewrite bind_middle, NoDup_app in Hnd. destruct Hnd as (_ & Hd & _).
  apply (Hd (r_pa r j)).
  - replace (r_pa r j) with (r_pa cell (r_pa r j - r_pa cell 0)) by (rewrite cell_page by lia; lia).
    apply elem_addrs. unfold ALLOC_MAX in *. lia.
  - apply list_elem_of_bind. exists r. split; [by apply elem_addrs|]. set_solver.
Qed.

Lemma pool_io_buffer s : vm s = v -> io_buffer s (r_va cell) (r_pa cell 0).
Proof.
  intros Hv. destruct cell_region as [[Htr _] (Hlen & Hpos & Hal & Hget & HP & HPf)]. unfold ALLOC_MAX in Hlen.
  destruct (Htr 0) as (_ & A & A'); [lia|]. destruct (Htr 4095) as (_ & C & C'); [lia|].
  rewrite (cell_page 4095) in C, C' by lia. split; rewrite ?Hv; try done.
  - split; [|done]. intros o Ho. rewrite <-cell_page by done. apply Htr. lia.
  - lia.
  - lia.
Qed.

Lemma pool_dest s r l1 l2 : vm s = v -> regs = l1 ++ r :: l2 -> dest s (r_va r) (r_len r) (r_pa r) (r_pa cell 0).
Proof.
  intros Hv Hr. assert (Hin : r ∈ regs) by set_solver. split.
  - intros i Hi. rewrite Hv. by apply pool_region.
  - intros i j Hi Hj E. apply (addrs_inj r); [|done|done|done].
    destruct Hpool as [_ _ Hnd]. rewrite Hr, <-app_assoc in Hnd. cbn [app] in Hnd.
    rewrite bind_middle, NoDup_app in Hnd. tauto.
  - intros i Hi. by apply pool_apart.
Qed.

(** Two live ranges share no byte. *)
Lemma pool_differ r r' l i j : regs = r :: l -> r' ∈ l -> 0 <= i < r_len r' -> 0 <= j < r_len r -> r_pa r' i <> r_pa r j.
Proof.
  intros Hr Hin Hi Hj E. destruct Hpool as [_ _ Hnd]. rewrite Hr in Hnd.
  cbn [spans app mbind list_bind] in Hnd. apply NoDup_app in Hnd as (_ & Hd & _).
  apply (Hd (r_pa r j)); [by apply elem_addrs|]. apply list_elem_of_bind. exists r'. rewrite <-E.
  split; [by apply elem_addrs|]. set_solver.
Qed.
End first_cell.

(** *** The laws *)

Lemma nvme_alloc_ok s l k c align size : nvme_bufs s l k c -> 1 <= k -> 0 < size <= ALLOC_MAX ->
  exists p f s', bd_alloc align size s = Ok (p, s') /\ 0 < p /\ p mod 4096 = 0 /\
    nvme_bufs s' (mkBuf p size f :: l) (k - 1) c.
Proof.
  intros (h & t & regs & cells & [Hr Hio] & [Hheap Hk] & Hl & Hp) H1 Hsize.
  destruct cells as [|cell cells]; [cbn in Hk; lia|].
  destruct (cell_region _ _ _ _ Hp) as [_ (Hlen & Hpos & Hal & _)].
  cbn [bd_alloc nvme_reader]. unfold memalign. rewrite Hheap. cbn [fmap list_fmap].
  exists (r_va cell), (fun j => (wd s).1 (r_pa cell j)). eexists. split; [reflexivity|]. split; [done|]. split; [done|].
  exists h, t, (mkRegion (r_va cell) size (r_pa cell) :: regs), cells. split; [split; [by destruct Hr|done]|].
  cbn [heap wd vm]. split; [split; [done|cbn in Hk; lia]|]. split; [by constructor|]. apply pool_take; [lia|done].
Qed.

Lemma nvme_free_ok s l k c b : nvme_bufs s (b :: l) k c ->
  exists s', bd_free (b_at b) s = Ok (tt, s') /\ nvme_bufs s' l k c.
Proof.
  intros (h & t & regs & cells & Hio & Hheap & Hl & Hp). exists s. split; [done|].
  apply Forall2_cons_inv_l in Hl as (r & regs' & _ & Hl & ->). exists h, t, regs', cells.
  by apply pool_release in Hp.
Qed.

Lemma nvme_ld_ok s l k c b n o : nvme_bufs s l k c -> b ∈ l -> 0 <= o -> o + Z.of_nat n <= b_len b ->
  (0 < n)%nat -> (b_at b + o) mod 4096 + Z.of_nat n <= 4096 ->
  bd_ld n (b_at b + o) s = Ok (ldn n (b_byte b) o, s).
Proof.
  intros (h & t & regs & cells & _ & _ & Hl & [Hregs _ _]) Hb H0 Hlen Hn Hpage.
  apply list_elem_of_lookup_1 in Hb as [i Hi].
  destruct (Forall2_lookup_l _ _ _ _ _ Hl Hi) as (r & Hr & Ea & El & Hsh).
  apply Forall_app in Hregs as [Hregs _]. destruct (Forall_lookup_1 _ _ _ _ Hregs Hr) as [Htr Hc].
  cbn [bd_ld nvme_reader]. unfold vld, vaddr. cmd_unfold. rewrite <-Ea. destruct (Htr o) as [-> _]; [lia|].
  do 2 f_equal. apply ldn_u8_ext. intros j Hj. rewrite <-Hsh by lia. do 2 f_equal. symmetry.
  apply (Hc o (Z.of_nat n)); rewrite ?Ea; lia.
Qed.

Lemma nvme_rd_ok s l k c b physical : nvme_bufs s (b :: l) k c -> 1 <= k -> chunks (b_len b) <= c ->
  0 <= physical -> physical mod 512 = 0 -> 0 <= b_len b -> b_len b mod 512 = 0 -> physical + b_len b < 2 ^ 64 ->
  exists s', bd_read physical (b_len b) (b_at b) s = Ok (tt, s') /\
    nvme_bufs s' (mkBuf (b_at b) (b_len b) (fun j => disk (physical + j)) :: l) (k - 1) (c - chunks (b_len b)).
Proof.
  intros (h & t & regs & cells & (Hr & Hh & Ht & Hhc & Htc) & [Hheap Hk] & Hl & Hp) H1 Hc H0 Hmod Hlen0 Hlen Hmax.
  apply Forall2_cons_inv_l in Hl as (r & regs' & (Ea & El & _) & Hl & ->). rename regs' into regs.
  destruct cells as [|cell cells]; [cbn in Hk; lia|].
  pose proof (pool_dest _ _ _ _ Hp s r [] regs eq_refl eq_refl) as Hd. rewrite Ea, El in Hd.
  assert (Hc0 : 0 <= chunks (b_len b) /\ (Z.to_nat (chunks (b_len b)) < S (Z.to_nat (b_len b)))%nat) by (unfold chunks; zlia).
  destruct (nvme_read_ok sqv cqv (S (Z.to_nat (b_len b))) ns physical (b_len b) (b_at b) (r_pa r) (r_va cell)
    (r_va <$> cells) (r_pa cell 0) s h t) as (s' & R & Hr' & Hvm & Hheap' & Hbytes & Hkeep); try done; try lia.
  { by eapply pool_io_buffer. }
  exists s'. split; [exact R|]. exists (h + chunks (b_len b)), (t + chunks (b_len b)), (r :: regs), cells.
  split; [split; [done|lia]|]. split; [split; [done|cbn in Hk; lia]|]. rewrite Hvm.
  split; [|by apply pool_drop in Hp]. constructor.
  - split; [done|]. split; [done|]. intros j Hj. cbn [b_byte b_len] in *. rewrite Hbytes by done.
    rewrite wrap_wrap. do 2 f_equal. lia.
  - apply Forall2_same_length_lookup_2; [by eapply Forall2_length|]. intros i b' r' Hb' Hr2.
    destruct (Forall2_lookup_lr _ _ _ _ _ _ Hl Hb' Hr2) as (Ea' & El' & Hsh). apply list_elem_of_lookup_2 in Hr2.
    split; [done|]. split; [done|]. intros j Hj. rewrite <-Hsh by done. f_equal. apply Hkeep.
    + eapply (pool_apart _ _ _ _ Hp); [set_solver|lia].
    + intros j' Hj'. eapply (pool_differ _ _ _ _ Hp); [done|done|lia|lia].
Qed.

#[refine] Instance nvme_reader_laws : BlockReaderLaws (nst D B V) := {|
  bd_disk := disk; bd_bufs := nvme_bufs |}.
Proof.
  - intros s l k c k' c' (h & t & regs & cells & Hio & Hheap & Hrest) Hk Hc. exists h, t, regs, cells.
    split; [|split; [|done]].
    + destruct Hio as (? & ? & ? & ? & ?). split_and!; done || lia.
    + split; [by destruct Hheap|]. destruct Hheap. lia.
  - intros. by apply nvme_alloc_ok.
  - intros. by apply nvme_free_ok.
  - intros. by apply nvme_rd_ok.
  - intros. by eapply nvme_ld_ok.
Defined.
End nvme_block.
