(* ===== verification/Fs.v ===== *)
(** Partitions and file systems: fs/gpt, fs/btrfs, fs/fat32 and fs/block.c.

    They read the disk through the interface of file Block and print through the console of
    file Printf. *)
From S2P Require Import Prelude Bytes CString Printf Kvm Ports Pci Interrupts Nvme Block.

(** The disk, the console, and [block_list]: the name of each block device, as the bytes
    [asprintf] stored. *)
Record fs_st {W C : Type} := mkFs { disk_of : W; console : C; block_list : list (list Z) }.
Arguments fs_st : clear implicits.
Arguments mkFs {W C} _ _ _.

Definition newline : string := String (Ascii.ascii_of_nat 10) EmptyString.

Section fs.
Context {W C : Type} `{!BlockReader W, !Console C}.
Abbreviation F := (cmd (fs_st W C)).

Definition on_disk {A} (c : cmd W A) : F A := fun s =>
  match c (disk_of s) with Ok (a, w) => Ok (a, mkFs w (console s) (block_list s)) | Stop e => Stop e end.
Definition on_con {A} (c : cmd C A) : F A := fun s =>
  match c (console s) with Ok (a, w) => Ok (a, mkFs (disk_of s) w (block_list s)) | Stop e => Stop e end.
Definition print (format : string) (args : list arg) : F unit := _ ← on_con (printf (ascii_of format) args); mret tt.
Definition fmt_name (format : string) (args : list arg) : F (list Z) := fun s =>
  match asprintf (ascii_of format) args with Ok (_, name) => Ok (name, s) | Stop e => Stop e end.

(** [!strncmp(p, lit, strlen(lit))] *)
Fixpoint same (lit : list Z) (p : Z) : F bool :=
  match lit with
  | [] => mret true
  | c :: lit => b ← on_disk (bd_ld 1 p); if decide (b = c) then same lit (p + 1) else mret false
  end.

Definition block_add (name : list Z) : F unit :=
  modify (fun s => mkFs (disk_of s) (console s) (block_list s ++ [name])).

(** The buffer is freed when it goes out of scope. *)
Definition btrfs_check_partition (start len : Z) : F bool :=
  superblock ← on_disk (bd_alloc 1 0x1000);
  if decide (superblock = 0) then mret false else
  _ ← on_disk (bd_read (u64 (start + 64 * 1024)) 0x1000 superblock);
  ok ← same (ascii_of "_BHRfS_M") (superblock + 0x40);
  _ ← on_disk (bd_free superblock);
  mret ok.

Definition fat32_check_partition (start len : Z) : F bool :=
  sector ← on_disk (bd_alloc 1 512);
  if decide (sector = 0) then mret false else
  _ ← on_disk (bd_read (u64 (start + 512)) 512 sector);
  lead ← same (ascii_of "RRaA") sector;
  ok ← (if (lead : bool) then same (ascii_of "rrAa") (sector + 0x1E4) else mret false);
  _ ← on_disk (bd_free sector);
  mret ok.

Definition print_file_system (start len : Z) : F unit :=
  b ← btrfs_check_partition start len;
  if (b : bool) then print ", btrfs" [] else
  f ← fat32_check_partition start len;
  if (f : bool) then print ", fat32" [] else mret tt.

(** The layout of [gpt_header_t] and [gpt_partition_t]. *)
Definition GPT_HEADER_SIZE : Z := 512 + 128 * 128.
Definition partition_entries_count (header : Z) : F Z := on_disk (bd_ld 4 (header + 80)).
Definition start_lba (header i : Z) : F Z := on_disk (bd_ld 8 (header + 512 + 128 * i + 32)).
Definition end_lba (header i : Z) : F Z := on_disk (bd_ld 8 (header + 512 + 128 * i + 40)).

(** [num] and [id] are those of the controller and its namespace. *)
Section gpt.
Variables (num id : Z).

(** What the loop does with a partition. *)
Definition gpt_partition (i first last : Z) : F unit :=
  let start := u64 (first ≪ 9) in
  let end_ := u64 (u64 (last + 1) ≪ 9) in
  _ ← print "partition %lu, %lu MiB, start %lu, end %lu"
        [Num (u64 (i + 1)); Num (u64 (end_ - start) ≫ 20); Num first; Num last];
  _ ← print_file_system start (u64 (end_ - start));
  name ← fmt_name "nvme%zun%up%zu" [Num num; Num id; Num i];
  _ ← block_add name;
  print newline [].

(** [fuel] bounds the number of partitions. *)
Fixpoint gpt_loop (fuel : nat) (header i : Z) : F unit :=
  match fuel with
  | O => halt OutOfFuel
  | S fuel =>
      count ← partition_entries_count header;
      if decide (i < count) then
        first ← start_lba header i;
        last ← end_lba header i;
        if decide (u64 (first ≪ 9) <> 0) then
          _ ← gpt_partition i first last;
          gpt_loop fuel header (i + 1)
        else mret tt
      else mret tt
  end.

Definition gpt_init (fuel : nat) : F unit :=
  header ← on_disk (bd_alloc 0x1000 GPT_HEADER_SIZE);
  _ ← on_disk (bd_read 512 GPT_HEADER_SIZE header);
  ok ← same (ascii_of "EFI PART") header;
  if negb ok then
    _ ← on_disk (bd_free header);
    panic "[GPT]	no header found"
  else
    _ ← gpt_loop fuel header 0;
    on_disk (bd_free header).
End gpt.
End fs.

(** ** What the disk holds *)
Section on_disk.
Variable dk : pmem.

(** The disk shows the text at [a]. *)
Definition disk_is (lit : string) (a : Z) : bool :=
  bool_decide ((fun j => u8 (dk (a + j))) <$> seqZ 0 (Z.of_nat (length (ascii_of lit))) = ascii_of lit).

(** Entry [i] of the table that follows the header at byte 512. *)
Definition part_first (i : Z) : Z := ldn 8 dk (1024 + 128 * i + 32).
Definition part_last (i : Z) : Z := ldn 8 dk (1024 + 128 * i + 40).
Definition part_count : Z := ldn 4 dk (512 + 80).
Definition part_start (i : Z) : Z := u64 (512 * part_first i).
Definition part_size (i : Z) : Z := u64 (512 * (part_last i + 1) - 512 * part_first i).

Definition file_system (start : Z) : list Z :=
  if disk_is "_BHRfS_M" (start + 0x10040) then ascii_of ", btrfs"
  else if disk_is "RRaA" (start + 512) && disk_is "rrAa" (start + 512 + 0x1E4) then ascii_of ", fat32" else [].
Definition partition_text (i : Z) : list Z :=
  ascii_of "partition " ++ decimal (i + 1) ++ ascii_of ", " ++ decimal (part_size i / 2 ^ 20) ++
  ascii_of " MiB, start " ++ decimal (part_first i) ++ ascii_of ", end " ++ decimal (part_last i) ++
  file_system (part_start i) ++ ascii_of newline.
Definition block_name (num id i : Z) : list Z :=
  ascii_of "nvme" ++ decimal num ++ ascii_of "n" ++ decimal id ++ ascii_of "p" ++ decimal i ++ [0].

End on_disk.

Section spec.
Context {W C : Type} `{!BlockReader W, !BlockReaderLaws W, !Console C, !ConsoleLaws C}.
Implicit Types s : fs_st W C.
Abbreviation dk := (bd_disk (W := W)).

(** *** Printing *)
Lemma plain_count len v : len <> LENGTH_LONG_DOUBLE -> 0 <= count (plain len 117 (Num v)) <= 20.
Proof.
  intros Hl. pose proof (plain_unsigned len v Hl) as (_ & _ & _ & _ & _ & [|(_ & _ & H)]); [done|].
  assert (E : int_arg 117 len v = (wrap (default 64 (arg_bits len)) v, false, 117)) by done.
  unfold count, plain. rewrite decide_False by done. rewrite E in *. destruct H as [_ H]. split; [|exact H].
  pose proof (int_digits_spec 117 (wrap (default 64 (arg_bits len)) v)) as [<- _]; [|lia].
  assert (0 <= default 64 (arg_bits len) <= 64) as [H0 H1] by (destruct len; cbn; lia).
  destruct (wrap_fits _ v H0) as [? Hw]. split; [done|]. eapply Z.lt_le_trans; [exact Hw|].
  by apply Z.pow_le_mono_r.
Qed.

Lemma print_pieces ps format args s :
  ascii_of format = concat (show <$> ps) -> args = concat (piece_args <$> ps) ->
  Forall piece_ok ps -> total ps <= 2147483647 -> Z.of_nat (length (ascii_of format)) < 2 ^ 63 ->
  exists c, print format args s = Ok (tt, mkFs (disk_of s) c (block_list s)) /\
    con_text c = con_text (console s) ++ concat (render <$> ps).
Proof.
  intros H1 H2 H3 H4 H5. destruct (printf_pieces ps (ascii_of format) args (console s)) as (c & R & E); try done.
  exists c. split; [|done]. unfold print. erewrite bind_ok; [reflexivity|]. unfold on_con. by rewrite R.
Qed.

Lemma print_text text s : Forall (fun c => c <> 37) (ascii_of text) -> Z.of_nat (length (ascii_of text)) <= 2147483647 ->
  exists c, print text [] s = Ok (tt, mkFs (disk_of s) c (block_list s)) /\
    con_text c = con_text (console s) ++ ascii_of text.
Proof.
  intros Ht Hl. destruct (print_pieces [Lit (ascii_of text)] text [] s) as (c & R & E).
  - cbn. by rewrite app_nil_r.
  - done.
  - by constructor.
  - unfold total, sumZ, count. cbn. lia.
  - lia.
  - exists c. split; [done|]. rewrite E. cbn. by rewrite app_nil_r.
Qed.

(** *** Reading *)
Lemma same_ok lit s l k c b o : bd_bufs (disk_of s) l k c -> b ∈ l -> 0 <= o ->
  o + Z.of_nat (length lit) <= b_len b ->
  same lit (b_at b + o) s =
    Ok (bool_decide ((fun j => u8 (b_byte b (o + j))) <$> seqZ 0 (Z.of_nat (length lit)) = lit), s).
Proof.
  intros Hb Hin. revert o. induction lit as [|x lit IH]; intros o Ho Hl; [done|]. cbn [same].
  erewrite bind_ok.
  2:{ unfold on_disk. erewrite bd_ld_ok; [|exact Hb|exact Hin|done|cbn in *; lia|lia|].
    - destruct s. reflexivity.
    - pose proof (Z.mod_pos_bound (b_at b + o) 4096 ltac:(lia)). lia. }
  cbv beta. rewrite ldn1. cbn [length]. rewrite Nat2Z.inj_succ, seqZ_cons by lia. cbn [fmap list_fmap].
  rewrite Z.add_0_r, Z.pred_succ.
  assert (E : (fun j => u8 (b_byte b (o + j))) <$> seqZ (Z.succ 0) (Z.of_nat (length lit)) =
    (fun j => u8 (b_byte b (o + 1 + j))) <$> seqZ 0 (Z.of_nat (length lit))).
  { change (Z.succ 0) with (1 + 0). rewrite <-(fmap_add_seqZ 1 0), <-list_fmap_compose. apply list_fmap_ext. intros i j _. cbn. do 2 f_equal. lia. }
  rewrite E. destruct (decide (u8 (b_byte b o) = x)) as [->|Hne].
  - rewrite <-Z.add_assoc, IH by (cbn in *; lia). do 2 f_equal. apply bool_decide_ext. split; [congruence|by intros [= ?]].
  - rewrite bool_decide_eq_false_2 by congruence. done.
Qed.

(** A buffer filled from the disk. *)
Definition filled (p size off : Z) : buf := mkBuf p size (fun j => dk (off + j)).

Lemma same_filled text s l k c p size off o : bd_bufs (disk_of s) l k c -> filled p size off ∈ l -> 0 <= o ->
  o + Z.of_nat (length (ascii_of text)) <= size -> same (ascii_of text) (p + o) s = Ok (disk_is dk text (off + o), s).
Proof.
  intros Hb Hin Ho Hl. rewrite (same_ok _ s l k c (filled p size off)) by done. unfold disk_is.
  rewrite (list_fmap_ext _ (fun j => u8 (dk (off + o + j))) (seqZ 0 (Z.of_nat (length (ascii_of text))))); [done|].
  intros i j _. cbn. do 2 f_equal. lia.
Qed.

Lemma read_fresh align size off s l k c : bd_bufs (disk_of s) l k c -> 2 <= k -> 0 < size <= ALLOC_MAX ->
  chunks size <= c -> 0 <= off -> off mod 512 = 0 -> size mod 512 = 0 -> off + size < 2 ^ 64 ->
  exists p w1 w2, on_disk (bd_alloc align size) s = Ok (p, mkFs w1 (console s) (block_list s)) /\ 0 < p /\ p mod 4096 = 0 /\
    on_disk (bd_read off size p) (mkFs w1 (console s) (block_list s)) = Ok (tt, mkFs w2 (console s) (block_list s)) /\
    bd_bufs w2 (filled p size off :: l) (k - 2) (c - chunks size).
Proof.
  intros Hb Hk Hs Hc H0 Ha Hsa Hm.
  destruct (bd_alloc_ok _ l k c align size Hb) as (p & f & w1 & R1 & Hp & Hal & B1); [lia|done|].
  destruct (bd_read_ok _ l (k - 1) c _ off B1) as (w2 & R2 & B2); cbn [b_len b_at] in *; try done; try lia.
  exists p, w1, w2. unfold on_disk. cbn [disk_of]. rewrite R1, R2. split_and!; try done.
  replace (k - 2) with (k - 1 - 1) by lia. done.
Qed.

Lemma free_top s l k c b : bd_bufs (disk_of s) (b :: l) k c ->
  exists w, on_disk (bd_free (b_at b)) s = Ok (tt, mkFs w (console s) (block_list s)) /\ bd_bufs w l k c.
Proof.
  intros Hb. destruct (bd_free_ok _ _ _ _ _ Hb) as (w & R & B). exists w. unfold on_disk. by rewrite R.
Qed.

Lemma btrfs_ok s l k c start len : bd_bufs (disk_of s) l k c -> 2 <= k -> 1 <= c ->
  0 <= start -> start mod 512 = 0 -> start + 0x11000 < 2 ^ 64 ->
  exists w, btrfs_check_partition start len s =
      Ok (disk_is dk "_BHRfS_M" (start + 0x10040), mkFs w (console s) (block_list s)) /\ bd_bufs w l (k - 2) (c - 1).
Proof.
  intros Hb Hk Hc H0 Ha Hm. unfold btrfs_check_partition. rewrite (wrap_small 64) by (unfold fits; lia).
  destruct (read_fresh 1 0x1000 (start + 64 * 1024) s l k c) as (p & w1 & w2 & R1 & Hp & _ & R2 & B2);
    try done; [lia|zlia|lia|]. change (chunks 0x1000) with 1 in B2.
  erewrite bind_ok by exact R1. cbv beta. rewrite decide_False by lia. erewrite bind_ok by exact R2. cbv beta.
  erewrite bind_ok by (eapply same_filled; [exact B2|apply list_elem_of_here|lia|cbn; lia]). cbv beta.
  destruct (free_top (mkFs w2 (console s) (block_list s)) _ _ _ _ B2) as (w3 & R3 & B3).
  erewrite bind_ok by exact R3. exists w3. split; [|done]. unfold mret, cmd_ret. do 3 f_equal. lia.
Qed.

Lemma fat32_ok s l k c start len : bd_bufs (disk_of s) l k c -> 2 <= k -> 1 <= c ->
  0 <= start -> start mod 512 = 0 -> start + 0x11000 < 2 ^ 64 ->
  exists w, fat32_check_partition start len s =
      Ok (disk_is dk "RRaA" (start + 512) && disk_is dk "rrAa" (start + 512 + 0x1E4), mkFs w (console s) (block_list s)) /\
    bd_bufs w l (k - 2) (c - 1).
Proof.
  intros Hb Hk Hc H0 Ha Hm. unfold fat32_check_partition. rewrite (wrap_small 64) by (unfold fits; lia).
  destruct (read_fresh 1 512 (start + 512) s l k c) as (p & w1 & w2 & R1 & Hp & _ & R2 & B2);
    try done; [lia|zlia|lia|]. change (chunks 512) with 1 in B2.
  erewrite bind_ok by exact R1. cbv beta. rewrite decide_False by lia. erewrite bind_ok by exact R2. cbv beta.
  erewrite bind_ok.
  2:{ rewrite <-(Z.add_0_r p). eapply same_filled; [exact B2|apply list_elem_of_here|lia|cbn; lia]. }
  cbv beta. rewrite Z.add_0_r.
  rewrite (bind_ok _ _ _ (disk_is dk "RRaA" (start + 512) && disk_is dk "rrAa" (start + 512 + 0x1E4)) (mkFs w2 (console s) (block_list s))).
  - destruct (free_top (mkFs w2 (console s) (block_list s)) _ _ _ _ B2) as (w3 & R3 & B3).
    erewrite bind_ok by exact R3. by exists w3.
  - destruct (disk_is dk "RRaA" (start + 512)); [|done].
    eapply same_filled; [exact B2|apply list_elem_of_here|lia|cbn; lia].
Qed.
(** *** One partition *)

Lemma total_le ps : Forall (fun p => 0 <= count p <= 64) ps -> (length ps <= 1000)%nat -> total ps <= 2147483647.
Proof.
  intros H Hl. assert (total ps <= 64 * Z.of_nat (length ps)); [|lia]. clear Hl. unfold total.
  induction H as [|p ps Hp _ IH]; [done|]. cbn [fmap list_fmap sumZ foldr length]. fold (sumZ (count <$> ps)). lia.
Qed.

Ltac pieces_ok := repeat (constructor; [first [apply plain_unsigned; discriminate | apply (bool_decide_unpack _); vm_compute; done]|]); constructor.
Ltac counts_ok := repeat (constructor; [first [pose proof plain_count as Hpc; match goal with |- 0 <= count (plain ?l _ (Num ?v)) <= _ => specialize (Hpc l v ltac:(discriminate)); lia end | cbn; lia]|]); constructor.

Lemma print_partition s i size first last : fits 64 (i + 1) -> fits 64 size -> fits 64 first -> fits 64 last ->
  exists c, print "partition %lu, %lu MiB, start %lu, end %lu" [Num (i + 1); Num size; Num first; Num last] s =
      Ok (tt, mkFs (disk_of s) c (block_list s)) /\
    con_text c = con_text (console s) ++ ascii_of "partition " ++ decimal (i + 1) ++ ascii_of ", " ++ decimal size ++
      ascii_of " MiB, start " ++ decimal first ++ ascii_of ", end " ++ decimal last.
Proof.
  intros H1 H2 H3 H4.
  destruct (print_pieces [Lit (ascii_of "partition "); plain LENGTH_LONG 117 (Num (i + 1)); Lit (ascii_of ", ");
    plain LENGTH_LONG 117 (Num size); Lit (ascii_of " MiB, start "); plain LENGTH_LONG 117 (Num first);
    Lit (ascii_of ", end "); plain LENGTH_LONG 117 (Num last)]
    "partition %lu, %lu MiB, start %lu, end %lu" [Num (i + 1); Num size; Num first; Num last] s) as (c & R & E).
  - reflexivity.
  - reflexivity.
  - pieces_ok.
  - apply total_le; [counts_ok|cbn; lia].
  - cbn. lia.
  - exists c. split; [exact R|]. rewrite E. f_equal. cbn [fmap list_fmap concat].
    rewrite !render_unsigned by (cbn; unfold fits in *; lia). cbn [render]. by rewrite app_nil_r.
Qed.

Lemma name_ok s num id i : fits 64 num -> fits 32 id -> fits 64 i ->
  fmt_name "nvme%zun%up%zu" [Num num; Num id; Num i] s = Ok (block_name num id i, s).
Proof.
  intros H1 H2 H3. unfold fmt_name.
  rewrite (asprintf_pieces [Lit (ascii_of "nvme"); plain LENGTH_SIZE_T 117 (Num num); Lit (ascii_of "n");
    plain LENGTH_DEFAULT 117 (Num id); Lit (ascii_of "p"); plain LENGTH_SIZE_T 117 (Num i)]).
  - cbn [fmap list_fmap concat]. rewrite !render_unsigned by (cbn; unfold fits in *; lia). cbn [render].
    unfold block_name. by rewrite app_nil_r, <-!app_assoc.
  - reflexivity.
  - reflexivity.
  - pieces_ok.
  - apply total_le; [counts_ok|cbn; lia].
  - cbn. lia.
Qed.

Lemma file_system_ok s l k c start len : bd_bufs (disk_of s) l k c -> 4 <= k -> 2 <= c ->
  0 <= start -> start mod 512 = 0 -> start + 0x11000 < 2 ^ 64 ->
  exists w con,
    print_file_system start len s = Ok (tt, mkFs w con (block_list s)) /\
    bd_bufs w l (k - 4) (c - 2) /\ con_text con = con_text (console s) ++ file_system dk start.
Proof.
  intros Hb Hk Hc H0 Ha Hm. unfold file_system, print_file_system.
  destruct (btrfs_ok s l k c start len Hb) as (w1 & R1 & B1); [lia|lia|done..|].
  erewrite bind_ok by exact R1. cbv beta. destruct (disk_is dk "_BHRfS_M" _).
  - destruct (print_text ", btrfs" (mkFs w1 (console s) (block_list s))) as (con & R2 & E);
      [apply (bool_decide_unpack _); vm_compute; done|cbn; lia|].
    exists w1, con. split; [exact R2|]. split; [eapply bd_bufs_le; [exact B1|lia|lia]|exact E].
  - destruct (fat32_ok (mkFs w1 (console s) (block_list s)) l (k - 2) (c - 1) start len B1) as (w2 & R2 & B2); [lia|lia|done..|].
    erewrite bind_ok by exact R2. cbv beta. replace (k - 4) with (k - 2 - 2) by lia. replace (c - 2) with (c - 1 - 1) by lia.
    destruct (_ && _).
    + destruct (print_text ", fat32" (mkFs w2 (console s) (block_list s))) as (con & R3 & E);
        [apply (bool_decide_unpack _); vm_compute; done|cbn; lia|]. by exists w2, con.
    + exists w2, (console s). by rewrite app_nil_r.
Qed.

Lemma shl9 x : x ≪ 9 = 512 * x.
Proof. rewrite Z.shiftl_mul_pow2 by lia. lia. Qed.

Lemma partition_size first last : u64 (u64 (u64 (last + 1) ≪ 9) - u64 (first ≪ 9)) = u64 (512 * (last + 1) - 512 * first).
Proof.
  rewrite !shl9. unfold wrap. rewrite Zminus_mod_idemp_r, Zminus_mod_idemp_l.
  rewrite <-Zminus_mod_idemp_l, Zmult_mod_idemp_r, Zminus_mod_idemp_l. done.
Qed.

Lemma gpt_partition_ok num id s l k c i : bd_bufs (disk_of s) l k c -> 4 <= k -> 2 <= c ->
  fits 64 num -> fits 32 id -> 0 <= i < 128 -> 512 * part_first dk i + 0x11000 < 2 ^ 64 ->
  exists w con, gpt_partition num id i (part_first dk i) (part_last dk i) s =
      Ok (tt, mkFs w con (block_list s ++ [block_name num id i])) /\
    bd_bufs w l (k - 4) (c - 2) /\ con_text con = con_text (console s) ++ partition_text dk i.
Proof.
  intros Hb Hk Hc Hnum Hid Hi Hm. pose proof (ldn_range 8 dk (1024 + 128 * i + 32)) as Hf.
  pose proof (ldn_range 8 dk (1024 + 128 * i + 40)) as Hla. fold (part_first dk i) in Hf. fold (part_last dk i) in Hla.
  unfold gpt_partition. rewrite partition_size. fold (part_size dk i). cbv zeta.
  rewrite (wrap_small 64 (i + 1)) by (unfold fits; lia).
  assert (Hst : u64 (part_first dk i ≪ 9) = part_start dk i) by (by rewrite shl9). rewrite Hst.
  assert (Hst' : part_start dk i = 512 * part_first dk i) by (apply wrap_small; unfold fits; lia).
  assert (Hsz : fits 64 (part_size dk i ≫ 20)).
  { pose proof (wrap_fits 64 (512 * (part_last dk i + 1) - 512 * part_first dk i) ltac:(lia)) as Hw.
    fold (part_size dk i) in Hw. rewrite Z.shiftr_div_pow2 by lia. unfold fits in *. split; [apply Z.div_pos; lia|].
    eapply Z.le_lt_trans; [apply Z.div_le_upper_bound; [lia|]|apply Hw]. lia. }
  destruct (print_partition s i (part_size dk i ≫ 20) (part_first dk i) (part_last dk i)) as (c1 & R1 & E1);
    [unfold fits; lia|done|unfold fits; lia|unfold fits; lia|].
  erewrite bind_ok by exact R1. cbv beta.
  destruct (file_system_ok (mkFs (disk_of s) c1 (block_list s)) l k c (part_start dk i) (part_size dk i))
    as (w2 & c2 & R2 & B2 & E2); [done|done|done|lia|rewrite Hst'; zlia|lia|].
  erewrite bind_ok by exact R2. cbv beta.
  erewrite bind_ok by (apply name_ok; [done|done|unfold fits; lia]). cbv beta.
  erewrite bind_ok by reflexivity. cbv beta. cbn [disk_of console block_list].
  destruct (print_text newline (mkFs w2 c2 (block_list s ++ [block_name num id i]))) as (c3 & R3 & E3);
    [apply (bool_decide_unpack _); vm_compute; done|cbn; lia|].
  exists w2, c3. split; [exact R3|]. split; [exact B2|]. rewrite E3. cbn [console]. rewrite E2. cbn [console]. rewrite E1.
  unfold partition_text. rewrite Z.shiftr_div_pow2 by lia. by rewrite <-!app_assoc.
Qed.
(** *** The table *)

Lemma header_field s p k c n o : bd_bufs (disk_of s) [filled p GPT_HEADER_SIZE 512] k c -> p mod 4096 = 0 ->
  (n = 4 \/ n = 8)%nat -> 0 <= o -> o mod 8 = 0 -> o + 8 <= GPT_HEADER_SIZE ->
  on_disk (bd_ld n (p + o)) s = Ok (ldn n dk (512 + o), s).
Proof.
  intros Hb Hp Hn Ho Ha Hl. unfold on_disk.
  change (p + o) with (b_at (filled p GPT_HEADER_SIZE 512) + o).
  rewrite (bd_ld_ok _ _ _ _ (filled p GPT_HEADER_SIZE 512) n o Hb); [|apply list_elem_of_here|done|cbn|lia|cbn].
  - rewrite (ldn_u8_ext n (b_byte (filled p GPT_HEADER_SIZE 512)) dk o (512 + o)); [by destruct s|].
    intros j Hj. cbn. do 2 f_equal. lia.
  - destruct Hn; subst n; lia.
  - destruct Hn; subst n; zlia.
Qed.

(** The table holds [n] partitions: their entries are in use, and the table ends after them. *)
Definition table_of (n : Z) : Prop :=
  0 <= n <= 128 /\
  (forall i, 0 <= i < n -> part_start dk i <> 0 /\ 512 * part_first dk i + 0x11000 < 2 ^ 64) /\
  (n = part_count dk \/ n < part_count dk /\ n < 128 /\ part_start dk n = 0).

Lemma gpt_loop_ok num id p n fuel m i s k c : table_of n -> fits 64 num -> fits 32 id -> p mod 4096 = 0 ->
  bd_bufs (disk_of s) [filled p GPT_HEADER_SIZE 512] k c -> 0 <= m -> 4 * m <= k -> 2 * m <= c ->
  0 <= i -> i + m = n -> m < Z.of_nat fuel ->
  exists w con, gpt_loop num id fuel p i s =
      Ok (tt, mkFs w con (block_list s ++ (block_name num id <$> seqZ i m))) /\
    bd_bufs w [filled p GPT_HEADER_SIZE 512] (k - 4 * m) (c - 2 * m) /\
    con_text con = con_text (console s) ++ concat (partition_text dk <$> seqZ i m).
Proof.
  intros (Hn & Hparts & Hend) Hnum Hid Hp. revert m i s k c.
  induction fuel as [|fuel IH]; intros m i s k c Hb Hm Hk Hc Hi Him Hf; [lia|]. cbn [gpt_loop].
  erewrite bind_ok by (eapply header_field; [exact Hb|done|by left|lia|done|done]). cbv beta. fold (part_count dk).
  assert (E32 : p + 512 + 128 * i + 32 = p + (512 + 128 * i + 32)) by lia.
  assert (E40 : p + 512 + 128 * i + 40 = p + (512 + 128 * i + 40)) by lia.
  assert (Hfields : i < 128 -> start_lba p i s = Ok (part_first dk i, s) /\ end_lba p i s = Ok (part_last dk i, s)).
  { intros Hi'. unfold start_lba, end_lba. rewrite E32, E40. split.
    - erewrite header_field; [|exact Hb|done|by right|lia|zlia|unfold GPT_HEADER_SIZE; lia].
      unfold part_first. do 3 f_equal. lia.
    - erewrite header_field; [|exact Hb|done|by right|lia|zlia|unfold GPT_HEADER_SIZE; lia].
      unfold part_last. do 3 f_equal. lia. }
  destruct (decide (m = 0)) as [->|Hm0].
  - exists (disk_of s), (console s). rewrite !Z.sub_0_r. cbn [fmap list_fmap seqZ]. rewrite !app_nil_r.
    split; [|done]. destruct Hend as [He|(He & Hn' & Hz)].
    + rewrite decide_False by lia. by destruct s.
    + rewrite decide_True by lia. destruct Hfields as [E1 E2]; [lia|].
      erewrite bind_ok by exact E1. cbv beta. erewrite bind_ok by exact E2. cbv beta. rewrite shl9. fold (part_start dk i). replace i with n by lia. rewrite Hz, decide_False by tauto. by destruct s.
  - rewrite decide_True by lia. destruct Hfields as [E1 E2]; [lia|].
    destruct (Hparts i) as [Hst Hmax]; [lia|].
    erewrite bind_ok by exact E1. cbv beta. erewrite bind_ok by exact E2. cbv beta.
    rewrite shl9. fold (part_start dk i). rewrite decide_True by done.
    destruct (gpt_partition_ok num id s _ k c i Hb) as (w1 & c1 & R1 & B1 & T1); [lia|lia|done|done|lia|done|].
    erewrite bind_ok by exact R1. cbv beta.
    destruct (IH (m - 1) (i + 1) (mkFs w1 c1 (block_list s ++ [block_name num id i])) (k - 4) (c - 2) B1)
      as (w2 & c2 & R2 & B2 & T2); [lia..|].
    exists w2, c2. rewrite (seqZ_cons i m) by lia. cbn [fmap list_fmap concat].
    replace (Z.succ i) with (i + 1) by lia. replace (Z.pred m) with (m - 1) by lia.
    split; [rewrite R2; cbn [block_list]; by rewrite <-app_assoc|]. split; [eapply bd_bufs_le; [exact B2|lia|lia]|].
    rewrite T2. cbn [console]. rewrite T1. by rewrite <-app_assoc.
Qed.

(** C40: the partition table. On a disk whose header carries the signature, [gpt_init] reads
    the table, and adds to the list of block devices exactly the partitions of the table, in
    order, named after the controller, the namespace and the number of the entry from 0;
    prints for each its number from 1, its size and bounds and the file system whose
    superblock the partition holds; and frees its buffers. Without the signature it panics.
    (The device must have room for the requests: five for the table and at most two for
    each partition.) *)
Theorem gpt_init_registers num id fuel n s k c :
  bd_bufs (disk_of s) [] k c -> table_of n -> 2 + 4 * n <= k -> 5 + 2 * n <= c ->
  fits 64 num -> fits 32 id -> n < Z.of_nat fuel ->
  if disk_is dk "EFI PART" 512 then
    exists w con, gpt_init num id fuel s =
        Ok (tt, mkFs w con (block_list s ++ (block_name num id <$> seqZ 0 n))) /\
      con_text con = con_text (console s) ++ concat (partition_text dk <$> seqZ 0 n) /\
      bd_bufs w [] (k - 2 - 4 * n) (c - 5 - 2 * n)
  else exists msg, gpt_init num id fuel s = Stop (Panicked msg).
Proof.
  intros Hb Ht Hk Hc Hnum Hid Hf. pose proof Ht as (Hn & _).
  destruct (read_fresh 0x1000 GPT_HEADER_SIZE 512 s [] k c Hb) as (p & w1 & w2 & R1 & Hp & Hal & R2 & B2);
    try done; try (unfold GPT_HEADER_SIZE, ALLOC_MAX; lia); [change (chunks GPT_HEADER_SIZE) with 5; lia|].
  change (chunks GPT_HEADER_SIZE) with 5 in B2. unfold gpt_init.
  assert (Hsame : same (ascii_of "EFI PART") p (mkFs w2 (console s) (block_list s)) =
    Ok (disk_is dk "EFI PART" 512, mkFs w2 (console s) (block_list s))).
  { replace p with (p + 0) at 1 by lia. change (disk_is dk "EFI PART" 512) with (disk_is dk "EFI PART" (512 + 0)).
    eapply same_filled; [exact B2|apply list_elem_of_here|lia|cbn; unfold GPT_HEADER_SIZE; lia]. }
  destruct (disk_is dk "EFI PART" 512).
  - destruct (gpt_loop_ok num id p n fuel n 0 (mkFs w2 (console s) (block_list s)) (k - 2) (c - 5))
      as (w3 & c3 & R3 & B3 & T3); try done; try lia.
    destruct (free_top (mkFs w3 c3 (block_list s ++ (block_name num id <$> seqZ 0 n))) [] _ _ _ B3) as (w4 & R4 & B4).
    exists w4, c3. split; [|split; [exact T3|exact B4]].
    do 2 (erewrite bind_ok by eassumption; cbv beta). erewrite bind_ok by exact Hsame. cbn [negb].
    erewrite bind_ok by exact R3. exact R4.
  - eexists. do 2 (erewrite bind_ok by eassumption; cbv beta). erewrite bind_ok by exact Hsame. cbn [negb].
    destruct (free_top (mkFs w2 (console s) (block_list s)) [] _ _ _ B2) as (w4 & R4 & _).
    erewrite bind_ok by exact R4. reflexivity.
Qed.
End spec.

(** ** The whole stack on one disk: the toy controller of file Nvme, its disk with one btrfs
    partition, memory for six allocations, and a console that keeps its text. *)
Definition toy_ns : nvme_ns_t := mkNs 0 1000 512.
Definition toy_cell (i : Z) : region := mkRegion (0x30000 + 0x5000 * i) 0x5000 (fun j => 0x30000 + 0x5000 * i + j).
Definition toy_cells : list region := toy_cell <$> seqZ 0 6.
Definition toy_io : nst toy pci_dev unit :=
  mkNst (wd toy_state) (bus toy_state) tt (ctl toy_state) (r_va <$> toy_cells) 1.
#[local] Existing Instance log_console.
#[local] Instance toy_reader : BlockReader (nst toy pci_dev unit) := nvme_reader toy_ns.
#[local] Instance toy_reader_laws : BlockReaderLaws (nst toy pci_dev unit) :=
  nvme_reader_laws toy_ns TOY_SQ TOY_CQ eq_refl.

Lemma toy_cells_span n : spans (toy_cell <$> seqZ 0 (Z.of_nat n)) = seqZ 0x30000 (0x5000 * Z.of_nat n).
Proof.
  induction n as [|n IH]; [done|].
  rewrite Nat2Z.inj_succ, <-Z.add_1_r, seqZ_app, fmap_app by lia. unfold spans in *. rewrite bind_app, IH.
  replace (0x5000 * (Z.of_nat n + 1)) with (0x5000 * Z.of_nat n + 0x5000) by lia. rewrite seqZ_app by lia.
  apply (f_equal (app _)). rewrite Z.add_0_l. change (seqZ (Z.of_nat n) 1) with [0 + Z.of_nat n].
  cbn [fmap list_fmap mbind list_bind]. rewrite app_nil_r. unfold addrs, toy_cell. cbn [r_pa r_len].
  rewrite !Z.add_0_l. change (fun j => 0x30000 + 0x5000 * Z.of_nat n + j) with (Z.add (0x30000 + 0x5000 * Z.of_nat n)).
  rewrite fmap_add_seqZ. f_equal. lia.
Qed.

Lemma toy_bufs : bd_bufs toy_io [] 6 7.
Proof.
  exists 0, 0, [], toy_cells. split; [split; [destruct toy_ready; by split|lia]|]. split; [done|]. split; [done|].
  split; cbn [app].
  - apply Forall_fmap, Forall_forall. intros i Hi%elem_of_seqZ. unfold region_ok. cbn. unfold TOY_SQ, TOY_CQ. split.
    + intros j Hj. split; [done|]. lia.
    + intros. lia.
  - apply Forall_fmap, Forall_forall. intros i Hi%elem_of_seqZ. unfold cell_ok, ALLOC_MAX, fits. cbn.
    split_and!; try done; try lia; [zlia|by rewrite Z.add_0_r|zlia].
  - unfold toy_cells. change (seqZ 0 6) with (seqZ 0 (Z.of_nat 6)). rewrite toy_cells_span. apply NoDup_seqZ.
Qed.

Lemma gpt_init_registers_witness :
  exists w, gpt_init 0 1 3 (mkFs toy_io [] []) =
    Ok (tt, mkFs w (ascii_of "partition 1, 1 MiB, start 2048, end 4095, btrfs" ++ [10]) [ascii_of "nvme0n1p0" ++ [0]]).
Proof.
  destruct (gpt_init_registers 0 1 3 1 (mkFs toy_io [] []) 6 7) as (w & con & R & T & _).
  - apply toy_bufs.
  - split; [lia|]. split.
    + intros i Hi. assert (i = 0) as -> by lia. split; vm_compute; done.
    + right. split; [|split]; vm_compute; done.
  - lia.
  - lia.
  - vm_compute. split; [discriminate|done].
  - vm_compute. split; [discriminate|done].
  - lia.
  - exists w. rewrite R. cbn [con_text log_console_laws] in T. rewrite T. vm_compute. reflexivity.
Defined.
