(* ===== verification/Boot.v ===== *)
(** The boot sequence and the reporting of fatal errors: boot/kernel.c, boot/efi.c,
    boot/panic.c, misc/ubsan.c, lib/assert/assert.c and vy.c.

    The state of the devices found at boot is put together from those of the components: the
    address space, memory and the NVMe controller behind it, the ports of the PCI bus, the
    PCI Express segments, the allocator, the console and the block devices. *)
From S2P Require Import Prelude Bytes Kvm Printf Ports Pci Interrupts Nvme Block Fs Ec Express.

Record kernel {V D B C : Type} := mkKernel {
  k_vm : V; k_wd : pmem * D; k_bus : B; k_segments : list pcie_segment_t;
  k_ctl : nvme_t; k_heap : list Z; k_last_id : Z; k_con : C; k_blocks : list (list Z) }.
Arguments kernel : clear implicits.
Arguments mkKernel {V D B C} _ _ _ _ _ _ _ _ _.

Section boot.
Context {V D B C : Type} `{!KernelVm V, !NvmeDevice D, !PortDevice B, !Console C}.
Abbreviation K := (cmd (kernel V D B C)).

(** *** The components' states inside the kernel's *)
Definition on_express {A} (c : cmd (xst V) A) : K A := fun k =>
  match c (mkX (k_vm k) (k_wd k).1 (k_segments k)) with
  | Ok (a, x) => Ok (a, mkKernel (xvm x) (xmem x, (k_wd k).2) (k_bus k) (pcie_segments x)
      (k_ctl k) (k_heap k) (k_last_id k) (k_con k) (k_blocks k))
  | Stop w => Stop w
  end.
Definition nvme_of (k : kernel V D B C) : nst D B V :=
  mkNst (k_wd k) (k_bus k) (k_vm k) (k_ctl k) (k_heap k) (k_last_id k).
Definition with_nvme (k : kernel V D B C) (n : nst D B V) : kernel V D B C :=
  mkKernel (vm n) (wd n) (bus n) (k_segments k) (ctl n) (heap n) (nvme_last_id n) (k_con k) (k_blocks k).
Definition on_nvme {A} (c : cmd (nst D B V) A) : K A := fun k =>
  match c (nvme_of k) with Ok (a, n) => Ok (a, with_nvme k n) | Stop w => Stop w end.
Definition on_fs {A} (c : cmd (fs_st (nst D B V) C) A) : K A := fun k =>
  match c (mkFs (nvme_of k) (k_con k) (k_blocks k)) with
  | Ok (a, f) => let k' := with_nvme k (disk_of f) in
      Ok (a, mkKernel (k_vm k') (k_wd k') (k_bus k') (k_segments k') (k_ctl k') (k_heap k') (k_last_id k')
        (console f) (block_list f))
  | Stop w => Stop w
  end.
#[export] Instance kernel_ports : PortDevice (kernel V D B C) := {
  port_in w p k := let '(v, b) := port_in w p (k_bus k) in
    (v, mkKernel (k_vm k) (k_wd k) b (k_segments k) (k_ctl k) (k_heap k) (k_last_id k) (k_con k) (k_blocks k));
  port_out w p v k :=
    mkKernel (k_vm k) (k_wd k) (port_out w p v (k_bus k)) (k_segments k) (k_ctl k) (k_heap k) (k_last_id k)
      (k_con k) (k_blocks k)
}.

(** ** boot/kernel.c *)

(** [callback]: the class and subclass of the function, and the driver for it. [fuel] bounds
    the strings of the controller and the partitions. *)
Definition device_callback (fuel : nat) (pbus slot function : Z) : K bool :=
  data ← on_express (pci_express_read 0 pbus slot function 0x0A);
  let classes := data .& 0xFFFF in
  if decide (classes = 0x0108) then
    _ ← on_nvme (nvme_init fuel pbus slot function);
    k ← get_st;
    ns ← lift_opt (Faulted 0) (namespace_list (k_ctl k) !! 0);
    _ ← on_fs (gpt_init (BlockReader0 := nvme_reader ns) (num (k_ctl k)) (ns_id ns) fuel);
    mret true
  else mret true.

(** The devices part of [main]: what comes before is the initialisation of the components. *)
Definition main (efi_init cpu_bsp_init mm_physical_init mm_virtual_init debug_init acpi_init : K unit)
    (tab : pmem) (acpi_get_table : cmd (xst V) (acpi_status * Z)) (depth fuel : nat) : K unit :=
  _ ← efi_init;
  _ ← cpu_bsp_init;
  _ ← mm_physical_init;
  _ ← mm_virtual_init;
  _ ← debug_init;
  _ ← acpi_init;
  _ ← on_express (pci_express_init tab acpi_get_table);
  _ ← pci_walk_devices (device_callback fuel) depth;
  on_fs (print (String.append "vineyard" newline) []).
End boot.

(** ** boot/panic.c and lib/assert/assert.c *)
Section fatal.
Context {C : Type} `{!Console C}.
Variables (cli : cmd C unit) (puts : list Z -> cmd C Z) (debug_trace : cmd C unit).

(** It does not return: after the stack trace the processor is halted. The state is that in
    which it is. *)
Definition panic_report (format : list Z) (args : list arg) : cmd C unit :=
  _ ← cli;
  _ ← printf format args;
  _ ← puts [];
  debug_trace.

Definition assert_fail (assertion file : list Z) (line_ : Z) (function : option (list Z)) : cmd C unit :=
  match function with
  | Some function => _ ← printf (line "%s:%u: %s: %s") [Str file; Num line_; Str function; Str assertion]; mret tt
  | None => _ ← printf (line "%s:%u: %s") [Str file; Num line_; Str assertion]; mret tt
  end.

(** ** misc/ubsan.c *)
Record source_location := mkLoc { l_file : list Z; l_line : Z; l_column : Z }.
Record type_mismatch_v1 := mkMismatch { tm_location : source_location; tm_type : list Z; tm_alignment : Z; tm_kind : Z }.

Definition type_check_kinds : list string := [
  "load of"; "store to"; "reference binding to"; "member access within"; "member call on"; "constructor call on";
  "downcast of"; "downcast of"; "upcast of"; "cast to virtual base of"; "_Nonnull binding to"; "dynamic operation on"]%string.
Definition ubsan_type_check_kind (index : Z) : cmd C (list Z) :=
  if decide (index < 12) then
    kind ← lift_opt (Faulted index) (type_check_kinds !! Z.to_nat index); mret (ascii_of kind)
  else mret (ascii_of "(unknown)").

Definition ubsan_location (l : source_location) : cmd C unit :=
  _ ← printf (ascii_of "[ubsan] %s:%u:%u: ") [Str (l_file l); Num (l_line l); Num (l_column l)]; mret tt.

(** The handlers that name the operation only. *)
Inductive ubsan_check :=
  | add_overflow | sub_overflow | pointer_overflow | mul_overflow | divrem_overflow | negate_overflow
  | shift_out_of_bounds | out_of_bounds | invalid_builtin | load_invalid_value | builtin_unreachable | nonnull_arg.
Definition ubsan_message (c : ubsan_check) : string :=
  match c with
  | add_overflow => "add overflow" | sub_overflow => "sub overflow" | pointer_overflow => "pointer overflow"
  | mul_overflow => "mul overflow" | divrem_overflow => "divrem overflow" | negate_overflow => "negate overflow"
  | shift_out_of_bounds => "shift out of bounds" | out_of_bounds => "out of bounds" | invalid_builtin => "invalid builtin"
  | load_invalid_value => "load invalid value" | builtin_unreachable => "builtin unreachable" | nonnull_arg => "nonnull arg"
  end.
Definition ubsan_handle (c : ubsan_check) (l : source_location) : cmd C unit :=
  _ ← ubsan_location l; panic_report (line (ubsan_message c)) [].

Definition ubsan_handle_type_mismatch_v1 (data : type_mismatch_v1) (ptr : Z) : cmd C unit :=
  _ ← ubsan_location (tm_location data);
  if decide (ptr = 0) then
    kind ← ubsan_type_check_kind (tm_kind data);
    panic_report (line "%s null pointer of type %s") [Str kind; Str (tm_type data)]
  else if decide (tm_alignment data <> 0 /\ ptr .& u32 (tm_alignment data - 1) <> 0) then
    panic_report (line "unaligned access to %#lx (of type %s), which requires 2^%hhu-byte alignment")
      [Num ptr; Str (tm_type data); Num (tm_alignment data)]
  else
    kind ← ubsan_type_check_kind (tm_kind data);
    panic_report (line "%s %#lx (of type %s)") [Str kind; Num ptr; Str (tm_type data)].
End fatal.

(** ** vy.c *)
Definition min (a b : Z) : Z := if decide (b < a) then b else a.

(** ** Properties *)

Lemma type_check_kind_total {C} `{!Console C} index (c : C) : 0 <= index ->
  exists kind, ubsan_type_check_kind index c = Ok (kind, c) /\
    (index < 12 -> exists name, type_check_kinds !! Z.to_nat index = Some name /\ kind = ascii_of name) /\
    (12 <= index -> kind = ascii_of "(unknown)").
Proof.
  intros Hi. unfold ubsan_type_check_kind. case_decide.
  - destruct (lookup_lt_is_Some_2 type_check_kinds (Z.to_nat index)) as [name E]; [cbn; lia|].
    exists (ascii_of name). rewrite E. split; [done|]. split; [by exists name|lia].
  - eexists. split; [done|]. split; [lia|done].
Qed.

Section callback.
Context {V D B C : Type} `{!KernelVm V, !KernelVmLaws V, !NvmeDevice D, !PortDevice B, !Console C}.
Implicit Types k : kernel V D B C.

(** Configuration space of a function, in the segment [c]. *)
Definition function_page (c : pcie_segment_t) (pbus slot function : Z) : Z :=
  seg_phys c + pbus * 2 ^ 20 + slot * 2 ^ 15 + function * 2 ^ 12.
Definition class_of k (c : pcie_segment_t) (pbus slot function : Z) : Z :=
  ldn 2 (k_wd k).1 (function_page c pbus slot function + 0x0A).
Definition with_vm k v : kernel V D B C :=
  mkKernel v (k_wd k) (k_bus k) (k_segments k) (k_ctl k) (k_heap k) (k_last_id k) (k_con k) (k_blocks k).

Lemma ldn_low n j m a : ldn (n + j) m a mod 256 ^ Z.of_nat n = ldn n m a.
Proof.
  revert a. induction n as [|n IH]; intros a; [by rewrite Z.mod_1_r|].
  cbn [Nat.add]. rewrite !ldn_S, Nat2Z.inj_succ, Z.pow_succ_r by lia. rewrite <-(IH (a + 1)).
  pose proof (wrap_fits 8 (m a) ltac:(lia)) as H. unfold fits in H.
  assert (0 < 256 ^ Z.of_nat n) by (apply Z.pow_pos_nonneg; lia). rewrite Z.rem_mul_r by lia. rewrite (Z.mul_comm 256 (ldn _ _ _)), Z.mod_add, Z.div_add by lia.
  rewrite (Z.mod_small (u8 (m a)) 256), (Z.div_small (u8 (m a)) 256) by lia. by rewrite Z.add_0_l.
Qed.

(** The device callback at a function of segment 0: it reads the class through a window that
    it gives back, and only class 1, subclass 8 starts the NVMe driver and the partitions. *)
Lemma device_callback_dispatch fuel k c pbus slot function :
  find_segment 0 (k_segments k) = Some c -> seg_phys c mod 4096 = 0 -> 0 <= seg_phys c -> seg_phys c + 2 ^ 28 <= 2 ^ 52 ->
  fits 8 pbus -> 0 <= slot < 32 -> 0 <= function < 8 -> vm_room (k_vm k) 1 ->
  exists v, device_callback fuel pbus slot function k =
    if decide (class_of k c pbus slot function = 0x0108) then
      (_ ← on_nvme (nvme_init fuel pbus slot function);
       k ← get_st;
       ns ← lift_opt (Faulted 0) (namespace_list (k_ctl k) !! 0);
       _ ← on_fs (gpt_init (BlockReader0 := nvme_reader ns) (num (k_ctl k)) (ns_id ns) fuel);
       mret true) (with_vm k v)
    else Ok (true, with_vm k v).
Proof.
  intros Hc Ha H0 Hm Hb Hs Hf Hroom.
  pose proof (pci_express_read_ok (mkX (k_vm k) (k_wd k).1 (k_segments k)) 0 pbus slot function 0x0A) as H.
  cbn [pcie_segments xvm xmem] in H. rewrite Hc in H.
  destruct (decide (0x0A <= 0xFF8)); [|lia]. destruct H as (v & R); try done. exists v.
  unfold device_callback. erewrite bind_ok.
  2:{ unfold on_express. rewrite R. cbn [xvm xmem pcie_segments]. rewrite <-surjective_pairing. reflexivity. }
  cbv beta zeta. change 0xFFFF with (Z.ones 16). rewrite land_low by lia.
  change (2 ^ 16) with (256 ^ Z.of_nat 2). rewrite (ldn_low 2 6). fold (function_page c pbus slot function).
  fold (class_of k c pbus slot function). by case_decide.
Qed.
End callback.
