(* ===== verification/DlBins.v ===== *)
(** Sizes, bins and bin maps of the C library's allocator (lib/stdlib/dlmalloc.c): the padding of
    requests, the bin of a size, and the bit operations that find the next bin in use. *)
From S2P Require Import Prelude.

Definition SIZE_T_SIZE : Z := 8.
Definition SIZE_T_BITSIZE : Z := 64.
Definition MALLOC_ALIGNMENT : Z := 16.
Definition CHUNK_ALIGN_MASK : Z := MALLOC_ALIGNMENT - 1.
Definition CHUNK_OVERHEAD : Z := SIZE_T_SIZE.
Definition MCHUNK_SIZE : Z := 32.
Definition MIN_CHUNK_SIZE : Z := u64 (MCHUNK_SIZE + CHUNK_ALIGN_MASK) .& bnot 64 CHUNK_ALIGN_MASK.
Definition MAX_REQUEST : Z := u64 (u64 (- MIN_CHUNK_SIZE) ≪ 2).
Definition MIN_REQUEST : Z := MIN_CHUNK_SIZE - CHUNK_OVERHEAD - 1.
Definition MAX_SIZE_T : Z := 2 ^ 64 - 1.

Definition align_offset (a : Z) : Z :=
  if decide (a .& CHUNK_ALIGN_MASK = 0) then 0
  else (MALLOC_ALIGNMENT - (a .& CHUNK_ALIGN_MASK)) .& CHUNK_ALIGN_MASK.
Definition chunk2mem (p : Z) : Z := u64 (p + 16).
Definition mem2chunk (mem : Z) : Z := u64 (mem - 16).

Definition pad_request (req : Z) : Z := u64 (req + CHUNK_OVERHEAD + CHUNK_ALIGN_MASK) .& bnot 64 CHUNK_ALIGN_MASK.
Definition request2size (req : Z) : Z := if decide (req < MIN_REQUEST) then MIN_CHUNK_SIZE else pad_request req.

(** ** Bins *)
Definition NSMALLBINS : Z := 32.
Definition NTREEBINS : Z := 32.
Definition SMALLBIN_SHIFT : Z := 3.
Definition TREEBIN_SHIFT : Z := 8.
Definition MIN_LARGE_SIZE : Z := 1 ≪ TREEBIN_SHIFT.
Definition MAX_SMALL_SIZE : Z := MIN_LARGE_SIZE - 1.
Definition MAX_SMALL_REQUEST : Z := MAX_SMALL_SIZE - CHUNK_ALIGN_MASK - CHUNK_OVERHEAD.

Definition is_small (s : Z) : bool := bool_decide (s ≫ SMALLBIN_SHIFT < NSMALLBINS).
Definition small_index (s : Z) : Z := u32 (s ≫ SMALLBIN_SHIFT).
Definition small_index2size (i : Z) : Z := u32 (i ≪ SMALLBIN_SHIFT).

(** [__builtin_clz] and [__builtin_ctz] of a 32-bit value that is not zero. *)
Definition clz32 (x : Z) : Z := 31 - Z.log2 x.
Fixpoint ctz_from (fuel : nat) (x : Z) : Z :=
  match fuel with O => 0 | S fuel => if Z.odd x then 0 else 1 + ctz_from fuel (x / 2) end.
Definition ctz32 (x : Z) : Z := ctz_from 32 x.

Definition compute_tree_index (s : Z) : Z :=
  let x := u32 (s ≫ TREEBIN_SHIFT) in
  if decide (x = 0) then 0
  else if decide (0xFFFF < x) then NTREEBINS - 1
  else let k := 4 * 8 - 1 - clz32 x in
       u32 (u32 (k ≪ 1) + ((s ≫ (k + (TREEBIN_SHIFT - 1))) .& 1)).

Definition leftshift_for_tree_index (i : Z) : Z :=
  if decide (i = NTREEBINS - 1) then 0 else (SIZE_T_BITSIZE - 1) - ((i ≫ 1) + TREEBIN_SHIFT - 2).
Definition minsize_for_tree_index (i : Z) : Z :=
  (1 ≪ ((i ≫ 1) + TREEBIN_SHIFT)) .| ((i .& 1) ≪ ((i ≫ 1) + TREEBIN_SHIFT - 1)).

(** ** Bin maps *)
Definition idx2bit (i : Z) : Z := u32 (1 ≪ i).
Definition mark_map (m i : Z) : Z := m .| idx2bit i.
Definition clear_map (m i : Z) : Z := m .& bnot 32 (idx2bit i).
Definition map_is_marked (m i : Z) : Z := m .& idx2bit i.
Definition least_bit (x : Z) : Z := x .& u32 (- x).
Definition left_bits (x : Z) : Z := u32 (x ≪ 1) .| u32 (- u32 (x ≪ 1)).
Definition same_or_left_bits (x : Z) : Z := x .| u32 (- x).
Definition compute_bit2idx (x : Z) : Z := ctz32 x.

(** ** Sizes of requests *)

Lemma mask_align x : fits 64 x -> x .& bnot 64 CHUNK_ALIGN_MASK = x / 16 * 16.
Proof. intros Hx. change CHUNK_ALIGN_MASK with (Z.ones 4). rewrite (land_bnot_ones 64 4); [done|lia|done]. Qed.

Lemma min_chunk_size : MIN_CHUNK_SIZE = 32.
Proof. reflexivity. Qed.

Lemma pad_request_spec req : 0 <= req < MAX_REQUEST -> pad_request req = (req + 23) / 16 * 16.
Proof.
  intros Hr. change MAX_REQUEST with (2 ^ 64 - 128) in Hr. unfold pad_request, CHUNK_OVERHEAD, SIZE_T_SIZE.
  rewrite wrap_small by (unfold fits, CHUNK_ALIGN_MASK, MALLOC_ALIGNMENT; lia).
  rewrite mask_align by (unfold fits, CHUNK_ALIGN_MASK, MALLOC_ALIGNMENT; lia).
  unfold CHUNK_ALIGN_MASK, MALLOC_ALIGNMENT. do 2 f_equal. lia.
Qed.

(** The chunk for a request is the least multiple of the alignment that holds it with its
    header, and at least the smallest chunk. *)
Lemma request2size_least req : 0 <= req < MAX_REQUEST ->
  let nb := request2size req in
  nb mod 16 = 0 /\ MIN_CHUNK_SIZE <= nb /\ req + CHUNK_OVERHEAD <= nb /\ nb < 2 ^ 64 - 64 /\
  forall n, n mod 16 = 0 -> MIN_CHUNK_SIZE <= n -> req + CHUNK_OVERHEAD <= n -> nb <= n.
Proof.
  cbv zeta. intros Hr. unfold request2size. change MIN_REQUEST with 23. rewrite min_chunk_size. unfold CHUNK_OVERHEAD, SIZE_T_SIZE.
  case_decide.
  - split; [done|]. split; [lia|]. split; [lia|]. split; [lia|]. intros. lia.
  - rewrite pad_request_spec by done. change MAX_REQUEST with (2 ^ 64 - 128) in Hr.
    split; [zlia|]. split; [zlia|]. split; [zlia|]. split; [zlia|]. intros n Hn _ Hn2. zlia.
Qed.

(** A request is small exactly when its chunk is. *)
Lemma small_request req : 0 <= req < MAX_REQUEST ->
  (req <= MAX_SMALL_REQUEST <-> request2size req < MIN_LARGE_SIZE).
Proof.
  intros Hr. unfold request2size. change MIN_REQUEST with 23. change MAX_SMALL_REQUEST with 232.
  change MIN_LARGE_SIZE with 256. rewrite min_chunk_size. case_decide; [lia|].
  rewrite pad_request_spec by done. clear. zlia.
Qed.

Lemma chunk_mem_roundtrip p : fits 64 p -> mem2chunk (chunk2mem p) = p.
Proof. intros Hp. unfold mem2chunk, chunk2mem. rewrite wrap_sub_l. replace (p + 16 - 16) with p by lia. by apply wrap_small. Qed.

(** ** The bin of a size *)

Lemma small_index_exact s : s mod 16 = 0 -> 0 <= s < MIN_LARGE_SIZE ->
  is_small s = true /\ 0 <= small_index s < NSMALLBINS /\ small_index2size (small_index s) = s.
Proof.
  intros Hs Hr. change MIN_LARGE_SIZE with 256 in Hr. unfold is_small, small_index, small_index2size, SMALLBIN_SHIFT, NSMALLBINS.
  rewrite Z.shiftr_div_pow2 by lia. rewrite (wrap_small 32 (s / 2 ^ 3)) by zlia.
  rewrite Z.shiftl_mul_pow2, wrap_small by zlia. rewrite bool_decide_eq_true_2 by zlia. split; [done|]. zlia.
Qed.

Lemma log2_cases x : 1 <= x < 2 ^ 16 -> 0 <= Z.log2 x <= 15 /\ 2 ^ Z.log2 x <= x < 2 ^ (Z.log2 x + 1).
Proof.
  intros Hx. pose proof (Z.log2_spec x ltac:(lia)) as H. rewrite <-Z.add_1_r in H. pose proof (Z.log2_nonneg x).
  split; [|done]. split; [done|]. apply Z.lt_succ_r. apply Z.log2_lt_pow2; lia.
Qed.

(** The least size of tree bin [2 k + b]: bit [k + 8], and bit [k + 7] when [b] is set. *)
Lemma minsize_bits k b : 0 <= k -> b = 0 \/ b = 1 ->
  minsize_for_tree_index (2 * k + b) = 2 ^ (k + 8) + b * 2 ^ (k + 7).
Proof.
  intros Hk Hb. unfold minsize_for_tree_index, TREEBIN_SHIFT.
  rewrite (land_low _ 1), Z.shiftr_div_pow2 by lia. replace ((2 * k + b) / 2 ^ 1) with k by zlia.
  replace ((2 * k + b) mod 2 ^ 1) with b by zlia. rewrite !Z.shiftl_mul_pow2 by lia.
  replace (k + 8 - 1) with (k + 7) by lia. rewrite Z.mul_1_l. apply (lor_add' (k + 8)); [lia| |].
  - apply Z.mod_same. pose proof (Z.pow_pos_nonneg 2 (k + 8)). lia.
  - rewrite (Z.pow_add_r 2 k 7) by lia. unfold fits. rewrite (Z.pow_add_r 2 k 8) by lia.
    pose proof (Z.pow_pos_nonneg 2 k). destruct Hb as [->| ->]; lia.
Qed.

(** The two leading bits of a size tell its bin. *)
Lemma two_leading_bits s k b : 0 <= k -> 2 ^ (k + 8) <= s < 2 ^ (k + 9) -> b = s / 2 ^ (k + 7) mod 2 ^ 1 ->
  (b = 0 \/ b = 1) /\ 2 ^ (k + 8) + b * 2 ^ (k + 7) <= s < 2 ^ (k + 8) + (b + 1) * 2 ^ (k + 7).
Proof.
  intros Hk Hs Eb. rewrite (Z.pow_add_r 2 k 7), (Z.pow_add_r 2 k 8), (Z.pow_add_r 2 k 9) in * by lia.
  pose proof (Z.pow_pos_nonneg 2 k ltac:(lia) ltac:(lia)). set (p := 2 ^ k) in *.
  pose proof (Z.div_mod s (p * 2 ^ 7) ltac:(lia)). pose proof (Z.mod_pos_bound s (p * 2 ^ 7) ltac:(lia)).
  set (d := s / (p * 2 ^ 7)) in *. assert (2 <= d < 4) by nia. assert (d = 2 \/ d = 3) as [Ed|Ed] by lia; rewrite Ed in *.
  - assert (b = 0) by (rewrite Eb; reflexivity). lia.
  - assert (b = 1) by (rewrite Eb; reflexivity). lia.
Qed.

(** A tree bin holds the sizes from its least size up to that of the next: for every size
    below 1 TiB the index is that of the bin whose range holds it. *)
Lemma tree_index_brackets s : MIN_LARGE_SIZE <= s < 2 ^ 40 ->
  let i := compute_tree_index s in
  0 <= i < NTREEBINS /\ minsize_for_tree_index i <= s /\ (i < NTREEBINS - 1 -> s < minsize_for_tree_index (i + 1)).
Proof.
  intros Hs. change MIN_LARGE_SIZE with 256 in Hs. cbv zeta. unfold compute_tree_index, NTREEBINS, TREEBIN_SHIFT.
  rewrite (Z.shiftr_div_pow2 s 8) by lia. rewrite (wrap_small 32) by zlia.
  rewrite (decide_False (P := s / 2 ^ 8 = 0)) by zlia.
  destruct (decide (0xFFFF < s / 2 ^ 8)) as [Hbig|Hbig].
  { split; [lia|]. split; [|lia]. change (minsize_for_tree_index (32 - 1)) with (2 ^ 23 + 2 ^ 22). zlia. }
  destruct (log2_cases (s / 2 ^ 8)) as [Hk Hp]; [zlia|]. unfold clz32. set (k := Z.log2 (s / 2 ^ 8)) in *.
  replace (4 * 8 - 1 - (31 - k)) with k by lia. replace (k + (8 - 1)) with (k + 7) by lia.
  rewrite (land_low _ 1), Z.shiftr_div_pow2, Z.shiftl_mul_pow2 by lia.
  clearbody k. assert (Hks : 2 ^ (k + 8) <= s < 2 ^ (k + 9)).
  { rewrite (Z.pow_add_r 2 k 8), (Z.pow_add_r 2 k 9) by lia. rewrite (Z.pow_add_r 2 k 1) in Hp by lia. zlia. }
  destruct (two_leading_bits s k _ ltac:(lia) Hks eq_refl) as [Hb Hs7]. set (b := s / 2 ^ (k + 7) mod 2 ^ 1) in *.
  assert (Hi : u32 (u32 (k * 2 ^ 1) + b) = 2 * k + b)
    by (rewrite !wrap_small by (unfold fits; try rewrite wrap_small; unfold fits; lia); lia).
  rewrite Hi. split; [lia|]. rewrite minsize_bits by (done || lia). split; [lia|]. intros Hlast.
  destruct Hb as [Hb|Hb]; rewrite Hb in *.
  - replace (2 * k + 0 + 1) with (2 * k + 1) by lia. rewrite minsize_bits by lia. lia.
  - replace (2 * k + 1 + 1) with (2 * (k + 1) + 0) by lia. rewrite minsize_bits by lia.
    replace (k + 1 + 8) with (k + 9) by lia. lia.
Qed.

(** ** The bits of a map *)

Lemma odd_split x : 0 < x -> exists n m, 0 <= n /\ 0 <= m /\ x = 2 ^ n * (2 * m + 1).
Proof.
  intros Hx. assert (H0 : 0 <= x) by lia. revert Hx. pattern x. revert x H0. apply (Zlt_0_ind). intros x IH _ Hx.
  destruct (Z.Even_or_Odd x) as [[y Hy]|[y Hy]].
  - destruct (IH y) as (n & m & Hn & Hm & E); [lia|lia|]. exists (n + 1), m. rewrite Z.pow_add_r by lia. lia.
  - exists 0, y. lia.
Qed.

Lemma testbit_odd_split n m i : 0 <= n -> 0 <= i ->
  Z.testbit (2 ^ n * (2 * m + 1)) i = if decide (i < n) then false else if decide (i = n) then true else Z.testbit m (i - n - 1).
Proof.
  intros Hn Hi. rewrite Z.mul_comm, <-Z.shiftl_mul_pow2, Z.shiftl_spec by lia.
  destruct (decide (i < n)); [by rewrite Z.testbit_neg_r by lia|]. case_decide as E.
  - replace (i - n) with 0 by lia. by rewrite Z.testbit_odd_0.
  - replace (i - n) with (Z.succ (i - n - 1)) by lia. rewrite Z.testbit_odd_succ by lia. f_equal; lia.
Qed.

(** [least_bit] keeps the lowest bit set. *)
Lemma least_bit_spec x : fits 32 x -> x <> 0 ->
  exists n, 0 <= n < 32 /\ least_bit x = 2 ^ n /\ Z.testbit x n = true /\ forall j, 0 <= j < n -> Z.testbit x j = false.
Proof.
  intros Hx Hx0. destruct (odd_split x) as (n & m & Hn & Hm & E); [unfold fits in Hx; lia|].
  assert (Hb : forall i, 0 <= i -> Z.testbit x i = if decide (i < n) then false else if decide (i = n) then true else Z.testbit m (i - n - 1))
    by (intros; subst x; by apply testbit_odd_split).
  assert (Hxn : Z.testbit x n = true) by (rewrite Hb, decide_False, decide_True by lia; done).
  assert (Hn32 : n < 32) by (destruct (decide (n < 32)); [done|rewrite (testbit_small x 32) in Hxn by (done || lia); done]).
  exists n. split; [lia|]. split; [|split; [done|intros j Hj; by rewrite Hb, decide_True by lia]].
  unfold least_bit. apply Z.bits_inj'. intros i Hi. rewrite Z.land_spec, Z.pow2_bits_eqb by lia.
  destruct (decide (32 <= i)); [rewrite (testbit_small x 32), (proj2 (Z.eqb_neq n i)) by (done || lia); done|].
  rewrite wrap_testbit by lia. replace (- x) with (2 ^ n * (2 * (- m - 1) + 1)) by lia.
  rewrite testbit_odd_split, Hb by lia.
  destruct (decide (i < n)); [rewrite (proj2 (Z.eqb_neq n i)) by lia; done|].
  destruct (decide (i = n)) as [->|]; [by rewrite Z.eqb_refl|].
  rewrite (proj2 (Z.eqb_neq n i)) by lia. replace (- m - 1) with (Z.lnot m) by (unfold Z.lnot; lia).
  rewrite Z.lnot_spec by lia. apply andb_negb_r.
Qed.

Lemma ctz32_pow2 n : 0 <= n < 32 -> compute_bit2idx (2 ^ n) = n.
Proof.
  intros Hn. unfold compute_bit2idx, ctz32. 
  assert (H : forall fuel n, 0 <= n < Z.of_nat fuel -> ctz_from fuel (2 ^ n) = n); [|apply (H 32%nat); lia].
  clear. intros fuel. induction fuel as [|fuel IH]; [lia|]. intros n Hn. cbn [ctz_from].
  destruct (decide (n = 0)) as [->|]; [done|]. replace n with (n - 1 + 1) by lia.
  rewrite Z.pow_add_r, Z.pow_1_r by lia. rewrite Z.odd_mul, andb_false_r. rewrite Z.div_mul by lia. rewrite IH by lia. lia.
Qed.

Lemma left_bits_spec i j : 0 <= i < 32 -> 0 <= j ->
  Z.testbit (left_bits (idx2bit i)) j = bool_decide (i < j < 32).
Proof.
  intros Hi Hj. assert (E : left_bits (idx2bit i) = Z.ones (31 - i) ≪ (i + 1)).
  { assert (Hcase : forallb (fun i => bool_decide (left_bits (idx2bit i) = Z.ones (31 - i) ≪ (i + 1))) (seqZ 0 32) = true)
      by (vm_compute; reflexivity).
    rewrite forallb_forall in Hcase. specialize (Hcase i). rewrite <-list_elem_of_In, elem_of_seqZ in Hcase.
    specialize (Hcase ltac:(lia)). by apply bool_decide_eq_true_1 in Hcase. }
  rewrite E, Z.shiftl_spec by lia. destruct (decide (i < j)).
  - rewrite Z.testbit_ones by lia. destruct (decide (j < 32)).
    + rewrite bool_decide_eq_true_2 by lia. apply andb_true_iff. split; [apply Z.leb_le|apply Z.ltb_lt]; lia.
    + rewrite bool_decide_eq_false_2 by lia. apply andb_false_iff. right. apply Z.ltb_ge. lia.
  - rewrite bool_decide_eq_false_2 by lia. apply Z.testbit_neg_r. lia.
Qed.

(** The least bin with bit [j] set among those a selection keeps. *)
Lemma least_index x : fits 32 x ->
  (x = 0 -> forall j, 0 <= j -> Z.testbit x j = false) /\
  (x <> 0 -> let j := compute_bit2idx (least_bit x) in
    0 <= j < 32 /\ Z.testbit x j = true /\ forall k, 0 <= k < j -> Z.testbit x k = false).
Proof.
  intros Hx. split; [intros ->; intros; apply Z.bits_0|]. intros Hx0. destruct (least_bit_spec x Hx Hx0) as (n & Hn & E & H1 & H2).
  cbv zeta. rewrite E, ctz32_pow2 by done. done.
Qed.

Definition is_marked (m j : Z) : bool := Z.testbit m j.

Lemma idx2bit_pow i : 0 <= i < 32 -> idx2bit i = 2 ^ i /\ fits 32 (2 ^ i).
Proof.
  intros Hi. assert (Hf : fits 32 (2 ^ i)) by (split; [apply Z.pow_nonneg; lia|apply Z.pow_lt_mono_r; lia]).
  unfold idx2bit. rewrite Z.shiftl_1_l, wrap_small by done. done.
Qed.

Lemma mark_map_bits m i j : fits 32 m -> 0 <= i < 32 -> 0 <= j ->
  is_marked (mark_map m i) j = is_marked m j || bool_decide (i = j).
Proof.
  intros Hm Hi Hj. unfold is_marked, mark_map. destruct (idx2bit_pow i Hi) as [-> _].
  rewrite Z.lor_spec, Z.pow2_bits_eqb by lia. f_equal.
  destruct (Z.eqb_spec i j); [by rewrite bool_decide_eq_true_2|by rewrite bool_decide_eq_false_2].
Qed.

Lemma clear_map_bits m i j : fits 32 m -> 0 <= i < 32 -> 0 <= j ->
  is_marked (clear_map m i) j = is_marked m j && bool_decide (i <> j).
Proof.
  intros Hm Hi Hj. unfold is_marked, clear_map. destruct (idx2bit_pow i Hi) as [-> _].
  rewrite Z.land_spec. destruct (decide (j < 32)).
  - rewrite bnot_testbit, Z.pow2_bits_eqb by lia. f_equal.
    destruct (Z.eqb_spec i j); [by rewrite bool_decide_eq_false_2 by lia|by rewrite bool_decide_eq_true_2].
  - by rewrite (testbit_small m 32) by (done || lia).
Qed.

Lemma map_is_marked_spec m i : 0 <= i < 32 -> (map_is_marked m i = 0 <-> is_marked m i = false).
Proof.
  intros Hi. unfold is_marked, map_is_marked. destruct (idx2bit_pow i Hi) as [-> _]. rewrite land_bit by lia.
  destruct (Z.testbit m i); [|done]. pose proof (Z.pow_pos_nonneg 2 i). split; [lia|done].
Qed.

Lemma mark_map_fits m i : fits 32 m -> 0 <= i < 32 -> fits 32 (mark_map m i).
Proof. intros Hm Hi. unfold mark_map. destruct (idx2bit_pow i Hi) as [-> H]. by apply lor_fits. Qed.

Lemma clear_map_fits m i : fits 32 m -> fits 32 (clear_map m i).
Proof. intros Hm. by apply land_fits_l. Qed.

(** The search of the bins after [i] in a map of 32 bits: nothing is left when none is marked,
    and otherwise the index is that of the first marked bin after [i]. *)
Lemma next_bin m i : fits 32 m -> 0 <= i < 32 ->
  let b := left_bits (idx2bit i) .& m in
  (b = 0 -> forall j, i < j < 32 -> is_marked m j = false) /\
  (b <> 0 -> let j := compute_bit2idx (least_bit b) in
     i < j < 32 /\ is_marked m j = true /\ forall k, i < k < j -> is_marked m k = false).
Proof.
  intros Hm Hi b. assert (Hbits : forall j, 0 <= j -> Z.testbit b j = bool_decide (i < j < 32) && Z.testbit m j)
    by (intros j Hj; unfold b; rewrite Z.land_spec, left_bits_spec by lia; done).
  assert (Hb : fits 32 b) by (unfold b; rewrite Z.land_comm; by apply land_fits_l).
  destruct (least_index b Hb) as [H0 H1]. unfold is_marked. split.
  - intros E j Hj. specialize (H0 E j ltac:(lia)). rewrite Hbits, bool_decide_eq_true_2 in H0 by lia. done.
  - intros E. specialize (H1 E). cbv zeta in *. set (j := compute_bit2idx (least_bit b)) in *.
    destruct H1 as (Hj & Hjb & Hlow). rewrite Hbits in Hjb by lia. apply andb_true_iff in Hjb as [Hr Hmj].
    apply bool_decide_eq_true_1 in Hr. split; [done|]. split; [done|]. intros k Hk.
    specialize (Hlow k ltac:(lia)). rewrite Hbits, bool_decide_eq_true_2 in Hlow by lia. done.
Qed.

(** ** Properties *)

(** C19: the bin of a size. [compute_tree_index] gives the bin whose bounds bracket the size, for sizes below 2^40; from there
    on its 32-bit intermediate drops the high bits, and a chunk of 2^40 bytes is filed in the bin of the smallest sizes. *)
Theorem tree_index_bounds s : MIN_LARGE_SIZE <= s ->
  (s < 2 ^ 40 -> 0 <= compute_tree_index s < NTREEBINS /\ minsize_for_tree_index (compute_tree_index s) <= s /\
    (compute_tree_index s < NTREEBINS - 1 -> s < minsize_for_tree_index (compute_tree_index s + 1))) /\
  compute_tree_index (2 ^ 40) = 0 /\ minsize_for_tree_index 1 < 2 ^ 40.
Proof. intros Hs. split; [intros Hlt; by apply tree_index_brackets|]. split; [reflexivity|vm_compute; reflexivity]. Qed.

Lemma tree_index_bounds_witness : 0 <= compute_tree_index 3000 < NTREEBINS /\ minsize_for_tree_index (compute_tree_index 3000) <= 3000 /\
  (compute_tree_index 3000 < NTREEBINS - 1 -> 3000 < minsize_for_tree_index (compute_tree_index 3000 + 1)).
Proof. apply (tree_index_bounds 3000); [vm_compute; discriminate|lia]. Defined.
