(* ===== verification/DlHeap.v ===== *)
(** The memory and the state of the C library's allocator (lib/stdlib/dlmalloc.c): chunk
    headers, [struct malloc_state], the macros on head fields, and the small bins.

    A chunk is a record of the fields its header can hold, found by the address of the chunk:
    [struct malloc_chunk] is the first part of [struct malloc_tree_chunk], and the bytes of a
    header that is in no list are the user's. Headers of different chunks do not overlap; the
    headers of the small bins, which the code repositions into the array [smallbins], are used
    for their links only and stand in the same memory. An access through a null pointer
    faults. *)
From S2P Require Import Prelude DlBins.

Record chunk := Chunk {
  prev_foot : Z; head : Z; fd : Z; bk : Z; child0 : Z; child1 : Z; parent : Z; index : Z }.

Definition blank : chunk := Chunk 0 0 0 0 0 0 0 0.
Definition set_prev_foot v c := Chunk v (head c) (fd c) (bk c) (child0 c) (child1 c) (parent c) (index c).
Definition set_head v c := Chunk (prev_foot c) v (fd c) (bk c) (child0 c) (child1 c) (parent c) (index c).
Definition set_fd v c := Chunk (prev_foot c) (head c) v (bk c) (child0 c) (child1 c) (parent c) (index c).
Definition set_bk v c := Chunk (prev_foot c) (head c) (fd c) v (child0 c) (child1 c) (parent c) (index c).
Definition set_child (d : bool) v c :=
  if d then Chunk (prev_foot c) (head c) (fd c) (bk c) (child0 c) v (parent c) (index c)
  else Chunk (prev_foot c) (head c) (fd c) (bk c) v (child1 c) (parent c) (index c).
Definition set_parent v c := Chunk (prev_foot c) (head c) (fd c) (bk c) (child0 c) (child1 c) v (index c).
Definition set_index v c := Chunk (prev_foot c) (head c) (fd c) (bk c) (child0 c) (child1 c) (parent c) v.
Definition child (d : bool) (c : chunk) : Z := if d then child1 c else child0 c.

Record msegment := mkSegment { base : Z; size : Z; next : Z; sflags : Z }.

Record malloc_state := MState {
  smallmap : Z; treemap : Z; dvsize : Z; topsize : Z; least_addr : Z; dv : Z; top : Z;
  trim_check : Z; release_checks : Z; magic : Z; treebins : list Z;
  footprint : Z; max_footprint : Z; footprint_limit : Z; mflags : Z; seg : msegment }.

(** Everything but the bins and the two chunks kept out of them is untouched by the setters. *)
Definition set_smallmap v m := MState v (treemap m) (dvsize m) (topsize m) (least_addr m) (dv m) (top m)
  (trim_check m) (release_checks m) (magic m) (treebins m) (footprint m) (max_footprint m) (footprint_limit m) (mflags m) (seg m).
Definition set_treemap v m := MState (smallmap m) v (dvsize m) (topsize m) (least_addr m) (dv m) (top m)
  (trim_check m) (release_checks m) (magic m) (treebins m) (footprint m) (max_footprint m) (footprint_limit m) (mflags m) (seg m).
Definition set_treebin i v m := MState (smallmap m) (treemap m) (dvsize m) (topsize m) (least_addr m) (dv m) (top m)
  (trim_check m) (release_checks m) (magic m) (<[Z.to_nat i := v]> (treebins m)) (footprint m) (max_footprint m) (footprint_limit m) (mflags m) (seg m).
Definition set_dv p sz m := MState (smallmap m) (treemap m) sz (topsize m) (least_addr m) p (top m)
  (trim_check m) (release_checks m) (magic m) (treebins m) (footprint m) (max_footprint m) (footprint_limit m) (mflags m) (seg m).
Definition set_top p sz m := MState (smallmap m) (treemap m) (dvsize m) sz (least_addr m) (dv m) p
  (trim_check m) (release_checks m) (magic m) (treebins m) (footprint m) (max_footprint m) (footprint_limit m) (mflags m) (seg m).

Abbreviation heap := (gmap Z chunk).
Record dl_st := mkDl { gm : malloc_state; mem : heap }.
Definition set_gm (f : malloc_state -> malloc_state) (s : dl_st) : dl_st := mkDl (f (gm s)) (mem s).
Definition set_mem (h : heap) (s : dl_st) : dl_st := mkDl (gm s) h.

Definition get (h : heap) (a : Z) : chunk := default blank (h !! a).
Definition upd (a : Z) (g : chunk -> chunk) (h : heap) : heap := <[a := g (get h a)]> h.

(** ** Head fields *)
Definition PINUSE_BIT : Z := 1.
Definition CINUSE_BIT : Z := 2.
Definition FLAG4_BIT : Z := 4.
Definition INUSE_BITS : Z := PINUSE_BIT .| CINUSE_BIT.
Definition FLAG_BITS : Z := PINUSE_BIT .| CINUSE_BIT .| FLAG4_BIT.
Definition FENCEPOST_HEAD : Z := INUSE_BITS .| SIZE_T_SIZE.

Definition cinuse (c : chunk) : Z := head c .& CINUSE_BIT.
Definition pinuse (c : chunk) : Z := head c .& PINUSE_BIT.
Definition is_inuse (c : chunk) : bool := bool_decide (head c .& INUSE_BITS <> PINUSE_BIT).
Definition is_mmapped (c : chunk) : bool := bool_decide (head c .& INUSE_BITS = 0).
Definition chunksize (c : chunk) : Z := head c .& bnot 64 FLAG_BITS.

Section macros.
(** The address of the static [_gm_], and the function a macro is expanded in. *)
Context (gm_addr : Z) (func : string).

Abbreviation D := (cmd dl_st).

Definition smallbin_at (i : Z) : Z := gm_addr + 72 + 8 * (i ≪ 1).
(** The address of the slot [treebins[i]]: it stands as the parent of a tree's root. *)
Definition treebin_slot (i : Z) : Z := gm_addr + 600 + 8 * i.

Definition rd (f : chunk -> Z) (a : Z) : D Z :=
  if decide (a = 0) then halt (Faulted a) else fun s => Ok (f (get (mem s) a), s).
Definition wr (g : chunk -> chunk) (a : Z) : D unit :=
  if decide (a = 0) then halt (Faulted a) else fun s => Ok (tt, set_mem (upd a g (mem s)) s).
Definition treebin_at (i : Z) : D Z :=
  s ← get_st; lift_opt (Faulted (treebin_slot i)) (treebins (gm s) !! Z.to_nat i).

Definition chunk_plus_offset (p s : Z) : Z := u64 (p + s).
Definition set_foot (p s : Z) : D unit := wr (set_prev_foot s) (chunk_plus_offset p s).
Definition set_size_and_pinuse_of_free_chunk (p s : Z) : D unit :=
  _ ← wr (set_head (s .| PINUSE_BIT)) p; set_foot p s.
Definition set_inuse_and_pinuse (p s : Z) : D unit :=
  _ ← wr (set_head (s .| PINUSE_BIT .| CINUSE_BIT)) p;
  let n := chunk_plus_offset p s in
  h ← rd head n;
  wr (set_head (h .| PINUSE_BIT)) n.
Definition set_size_and_pinuse_of_inuse_chunk (p s : Z) : D unit := wr (set_head (s .| PINUSE_BIT .| CINUSE_BIT)) p.

Definition ok_address (a : Z) : D bool := gets (fun s => bool_decide (least_addr (gm s) <= a)).
Definition ok_next (p n : Z) : bool := bool_decide (p < n).
(** [CORRUPTION_ERROR_ACTION], with [ABORT] as kernel/include/mm/malloc.h defines it. *)
Definition ABORT {A} : D A := panic ("dlmalloc:" ++ func ++ " called abort()").
Definition rtcheck (c : D bool) : D unit := ok ← c; if ok : bool then mret tt else ABORT.

(** ** Operations on small bins *)
Definition insert_small_chunk (P S : Z) : D unit :=
  let I := small_index S in
  let B := smallbin_at I in
  m ← gets (fun s => smallmap (gm s));
  F ← (if decide (map_is_marked m I = 0) then _ ← modify (set_gm (set_smallmap (mark_map m I))); mret B
       else f ← rd fd B; _ ← rtcheck (ok_address f); rd fd B);
  _ ← wr (set_fd P) B;
  _ ← wr (set_bk P) F;
  _ ← wr (set_fd F) P;
  wr (set_bk B) P.

Definition clear_smallmap (I : Z) : D unit := modify (set_gm (fun m => set_smallmap (clear_map (smallmap m) I) m)).
Definition relink (F B : Z) : D unit := _ ← wr (set_bk B) F; wr (set_fd F) B.

Definition unlink_small_chunk (P S : Z) : D unit :=
  F ← rd fd P;
  B ← rd bk P;
  let I := small_index S in
  _ ← rtcheck (if decide (F = smallbin_at I) then mret true
               else ok ← ok_address F; if ok : bool then b ← rd bk F; mret (bool_decide (b = P)) else mret false);
  if decide (B = F) then clear_smallmap I
  else
    _ ← rtcheck (if decide (B = smallbin_at I) then mret true
                 else ok ← ok_address B; if ok : bool then f ← rd fd B; mret (bool_decide (f = P)) else mret false);
    relink F B.

Definition unlink_first_small_chunk (B P I : Z) : D unit :=
  F ← rd fd P;
  if decide (B = F) then clear_smallmap I
  else
    _ ← rtcheck (ok ← ok_address F; if ok : bool then b ← rd bk F; mret (bool_decide (b = P)) else mret false);
    relink F B.

Definition replace_dv (P S : Z) : D unit :=
  DVS ← gets (fun s => dvsize (gm s));
  _ ← (if decide (DVS = 0) then mret tt else DV ← gets (fun s => dv (gm s)); insert_small_chunk DV DVS);
  modify (set_gm (set_dv P S)).
End macros.

(** ** Stepping through commands *)

Lemma rd_bind {A} f a (k : Z -> cmd dl_st A) s : a <> 0 -> (rd f a ≫= k) s = k (f (get (mem s) a)) s.
Proof. intros H. unfold rd. by rewrite decide_False by done. Qed.
Lemma rd_ok f a s : a <> 0 -> rd f a s = Ok (f (get (mem s) a), s).
Proof. intros H. unfold rd. by rewrite decide_False by done. Qed.
Lemma wr_bind {A} g a (k : unit -> cmd dl_st A) s : a <> 0 -> (wr g a ≫= k) s = k tt (set_mem (upd a g (mem s)) s).
Proof. intros H. unfold wr. by rewrite decide_False by done. Qed.
Lemma wr_ok g a s : a <> 0 -> wr g a s = Ok (tt, set_mem (upd a g (mem s)) s).
Proof. intros H. unfold wr. by rewrite decide_False by done. Qed.
Lemma gets_bind {S A B} (f : S -> A) (k : A -> cmd S B) s : (gets f ≫= k) s = k (f s) s.
Proof. done. Qed.
Lemma ret_bind {S A B} (a : A) (k : A -> cmd S B) s : ((mret a : cmd S A) ≫= k) s = k a s.
Proof. done. Qed.
Lemma modify_bind {S A} f (k : unit -> cmd S A) s : (modify f ≫= k) s = k tt (f s).
Proof. done. Qed.
Lemma bind_assoc {S A B C} (m : cmd S A) (f : A -> cmd S B) (g : B -> cmd S C) s :
  ((m ≫= f) ≫= g) s = (m ≫= (fun x => f x ≫= g)) s.
Proof. unfold mbind, cmd_bind. by destruct (m s) as [[??]|]. Qed.
Lemma rtcheck_bind {A} func c (k : unit -> cmd dl_st A) s : c s = Ok (true, s) -> (rtcheck func c ≫= k) s = k tt s.
Proof. intros H. unfold rtcheck. rewrite bind_assoc. by rewrite (bind_ok _ _ _ true s H). Qed.
Lemma ok_address_true a s : least_addr (gm s) <= a -> ok_address a s = Ok (true, s).
Proof. intros H. unfold ok_address, gets. by rewrite bool_decide_eq_true_2. Qed.

(** ** Memory *)

Lemma get_upd h a b g : get (upd a g h) b = if decide (a = b) then g (get h a) else get h b.
Proof. unfold get, upd. case_decide; subst; [by rewrite lookup_insert_eq|by rewrite lookup_insert_ne]. Qed.
Lemma get_upd_eq h a g : get (upd a g h) a = g (get h a).
Proof. rewrite get_upd. by rewrite decide_True. Qed.
Lemma get_upd_ne h a b g : a <> b -> get (upd a g h) b = get h b.
Proof. intros. rewrite get_upd. by rewrite decide_False. Qed.
(** A store to one field is not seen through another. *)
Lemma get_upd_field {A} (f : chunk -> A) h a b g : (forall c, f (g c) = f c) -> f (get (upd a g h) b) = f (get h b).
Proof. intros Hf. rewrite get_upd. case_decide; subst; [apply Hf|done]. Qed.

(** The ends of a ring are in it, or are its header. *)
Lemma hd_or_in (d : Z) l : hd_or d l ∈ d :: l.
Proof. destruct l; simpl; [left|right; left]. Qed.
Lemma last_or_in (d : Z) l : last_or d l ∈ d :: l.
Proof. destruct l as [|x l _] using rev_ind; [left|rewrite last_or_snoc]. right. apply elem_of_app. right. left. Qed.
