(* ===== verification/DlTree.v ===== *)
(** The trees of large free chunks of the C library's allocator (lib/stdlib/dlmalloc.c):
    [insert_large_chunk] and [unlink_large_chunk] on the bitwise tries that hold the chunks of a
    bin by size, with chunks of one size in a ring. *)
From S2P Require Import Prelude DlBins DlHeap.

(** More than the deepest trie: one level for each bit of a size. *)
Definition TREE_FUEL : nat := 65.

Section ops.
Context (gm_addr : Z) (func : string).
Abbreviation D := (cmd dl_st).
Abbreviation rtcheck := (rtcheck func).
Abbreviation ABORT := (ABORT func).

(** The address of [T->child[d]]. *)
Definition child_slot (T : Z) (d : bool) : Z := T + (if d then 40 else 32).
Definition leftmost_child (t : Z) : D Z := c ← rd child0 t; if decide (c <> 0) then rd child0 t else rd child1 t.
Definition csize (T : Z) : D Z := rd chunksize T.

(** The loop of [insert_large_chunk]: [T] is a node on the path of the new chunk, the sign bit of
    [K] the side to go on. *)
Fixpoint insert_walk (fuel : nat) (T K X S : Z) : D unit :=
  match fuel with
  | O => halt OutOfFuel
  | Datatypes.S fuel =>
    sz ← csize T;
    if decide (sz <> S) then
      let d := bool_decide ((K ≫ (SIZE_T_BITSIZE - 1)) .& 1 <> 0) in
      let K := u64 (K ≪ 1) in
      c ← rd (child d) T;
      if decide (c <> 0) then insert_walk fuel c K X S
      else
        _ ← rtcheck (ok_address (child_slot T d));
        _ ← wr (set_child d X) T;
        _ ← wr (set_parent T) X;
        _ ← wr (set_bk X) X;
        wr (set_fd X) X
    else
      F ← rd fd T;
      _ ← rtcheck (ok ← ok_address T; if ok : bool then ok_address F else mret false);
      _ ← wr (set_bk X) F;
      _ ← wr (set_fd X) T;
      _ ← wr (set_fd F) X;
      _ ← wr (set_bk T) X;
      wr (set_parent 0) X
  end.

Definition insert_large_chunk (X S : Z) : D unit :=
  let I := compute_tree_index S in
  _ ← wr (set_index I) X;
  _ ← wr (set_child true 0) X;
  _ ← wr (set_child false 0) X;
  m ← gets (fun s => treemap (gm s));
  if decide (map_is_marked m I = 0) then
    _ ← modify (set_gm (set_treemap (mark_map m I)));
    _ ← modify (set_gm (set_treebin I X));
    _ ← wr (set_parent (treebin_slot gm_addr I)) X;
    _ ← wr (set_bk X) X;
    wr (set_fd X) X
  else
    T ← treebin_at gm_addr I;
    insert_walk TREE_FUEL T (u64 (S ≪ leftshift_for_tree_index I)) X S.

(** The [while] of [unlink_large_chunk]: the rightmost leaf below [R], with the slot [RP] that
    holds it. *)
Fixpoint descend (fuel : nat) (R : Z) (RP : Z * bool) : D (Z * (Z * bool)) :=
  match fuel with
  | O => halt OutOfFuel
  | S fuel =>
    c1 ← rd child1 R;
    if decide (c1 <> 0) then descend fuel c1 (R, true)
    else c0 ← rd child0 R;
      if decide (c0 <> 0) then descend fuel c0 (R, false) else mret (R, RP)
  end.

(** A leaf below [X] to put in its place, taken out of the tree; 0 when there is none. *)
Definition take_leaf (X : Z) : D Z :=
  let go R RP :=
    '(R, (o, d)) ← descend TREE_FUEL R RP;
    _ ← rtcheck (ok_address (child_slot o d));
    _ ← wr (set_child d 0) o; mret R in
  c1 ← rd child1 X;
  if decide (c1 <> 0) then go c1 (X, true)
  else c0 ← rd child0 X; if decide (c0 <> 0) then go c0 (X, false) else mret 0.

(** [X]'s child on side [d] becomes [R]'s. *)
Definition adopt (X R : Z) (d : bool) : D unit :=
  C ← rd (child d) X;
  if decide (C <> 0) then
    _ ← rtcheck (ok_address C);
    _ ← wr (set_child d C) R;
    wr (set_parent R) C
  else mret tt.

(** [X], not alone in its ring, is taken out of it; the chunk before it may take its place. *)
Definition unchain (X : Z) : D Z :=
  F ← rd fd X;
  R ← rd bk X;
  _ ← rtcheck (ok ← ok_address F;
       if ok : bool then
         fb ← rd bk F;
         if decide (fb = X) then rf ← rd fd R; mret (bool_decide (rf = X)) else mret false
       else mret false);
  _ ← wr (set_bk R) F;
  _ ← wr (set_fd F) R;
  mret R.

(** Where [X] hung, [R] does now: in the bin's slot or below [XP]. *)
Definition relink_parent (X XP R : Z) : D unit :=
  I ← rd index X;
  H ← treebin_at gm_addr I;
  if decide (X = H) then
    _ ← modify (set_gm (set_treebin I R));
    if decide (R = 0) then modify (set_gm (fun m => set_treemap (clear_map (treemap m) I) m)) else mret tt
  else
    _ ← rtcheck (ok_address XP);
    c0 ← rd child0 XP;
    if decide (c0 = X) then wr (set_child false R) XP else wr (set_child true R) XP.

Definition relink_children (X XP R : Z) : D unit :=
  _ ← rtcheck (ok_address R);
  _ ← wr (set_parent XP) R;
  _ ← adopt X R false;
  adopt X R true.

Definition unlink_large_chunk (X : Z) : D unit :=
  XP ← rd parent X;
  b ← rd bk X;
  R ← (if decide (b <> X) then unchain X else take_leaf X);
  if decide (XP <> 0) then
    _ ← relink_parent X XP R;
    if decide (R <> 0) then relink_children X XP R else mret tt
  else mret tt.
End ops.

(** ** Tries

    [Node a s ring l r]: the chunk at [a] of size [s], the other chunks of that size in the order
    of their [fd] links, and the two subtrees. *)
Inductive tree := Leaf | Node (a s : Z) (ring : list Z) (l r : tree).

#[global] Instance tree_eq_dec : EqDecision tree.
Proof. solve_decision. Defined.

Fixpoint chunks (t : tree) : list (Z * Z) :=
  match t with Leaf => [] | Node a s ring l r => ((., s) <$> a :: ring) ++ chunks l ++ chunks r end.
Definition addrs (t : tree) : list Z := (chunks t).*1.
Fixpoint height (t : tree) : nat := match t with Leaf => 0 | Node _ _ _ l r => S (height l `max` height r) end.
Definition root (t : tree) : Z := match t with Leaf => 0 | Node a _ _ _ _ => a end.

(** A trie over the low [n] bits of sizes whose other bits are [hi]: a node may hold any size of
    the range, its subtrees the two halves. *)
Fixpoint trie (n : nat) (hi : Z) (t : tree) {struct t} : Prop :=
  match t with
  | Leaf => True
  | Node _ s _ l r =>
    s ≫ Z.of_nat n = hi /\
    match n with
    | O => l = Leaf /\ r = Leaf
    | S n => trie n (2 * hi) l /\ trie n (2 * hi + 1) r
    end
  end.

Fixpoint tinsert (n : nat) (x s : Z) (t : tree) : tree :=
  match t with
  | Leaf => Node x s [] Leaf Leaf
  | Node a s' ring l r =>
    if decide (s' = s) then Node a s' (x :: ring) l r
    else if Z.testbit s (Z.of_nat n - 1) then Node a s' ring l (tinsert (n - 1) x s r)
    else Node a s' ring (tinsert (n - 1) x s l) r
  end.

(** The rightmost leaf and the tree without it. *)
Fixpoint pull (t : tree) : option ((Z * Z * list Z) * tree) :=
  match t with
  | Leaf => None
  | Node a s ring l r =>
    match pull r with
    | Some (x, r) => Some (x, Node a s ring l r)
    | None => match pull l with
              | Some (x, l) => Some (x, Node a s ring l r)
              | None => Some ((a, s, ring), Leaf)
              end
    end
  end.

(** ** Trees in memory *)

(** The nodes [l] are linked from [x] to [y] in both directions. *)
Fixpoint seg (h : heap) (x : Z) (l : list Z) (y : Z) : Prop :=
  match l with
  | [] => fd (get h x) = y /\ bk (get h y) = x
  | z :: l => fd (get h x) = z /\ bk (get h z) = x /\ seg h z l y
  end.

Fixpoint shape (h : heap) (p par : Z) (t : tree) : Prop :=
  match t with
  | Leaf => p = 0
  | Node a s ring l r =>
    p = a /\ parent (get h a) = par /\ seg h a ring a /\
    (forall x, x ∈ ring -> parent (get h x) = 0 /\ child0 (get h x) = 0 /\ child1 (get h x) = 0) /\
    shape h (child0 (get h a)) a l /\ shape h (child1 (get h a)) a r
  end.

(** What the operations on trees leave alone: the headers outside [l], and the sizes, flags and
    bins of all. *)
Definition frame (l : list Z) (h h' : heap) : Prop := forall x, x ∉ l -> get h' x = get h x.
Definition same_info (h h' : heap) : Prop := forall x,
  head (get h' x) = head (get h x) /\ index (get h' x) = index (get h x) /\ prev_foot (get h' x) = prev_foot (get h x).

#[global] Instance same_info_preorder : PreOrder same_info.
Proof.
  split; [done|]. intros h1 h2 h3 H1 H2 x. destruct (H1 x) as (?&?&?), (H2 x) as (?&?&?).
  split; [congruence|]. split; congruence.
Qed.

Lemma frame_refl l h : frame l h h.
Proof. done. Qed.
Lemma frame_trans l h1 h2 h3 : frame l h1 h2 -> frame l h2 h3 -> frame l h1 h3.
Proof. intros H1 H2 x Hx. by rewrite H2, H1. Qed.
Lemma frame_mono l l' h h' : (forall x, x ∈ l -> x ∈ l') -> frame l h h' -> frame l' h h'.
Proof. intros Hl H x Hx. apply H. intros Hin. by apply Hx, Hl. Qed.
Lemma frame_upd l h h' a g : a ∈ l -> frame l h h' -> frame l h (upd a g h').
Proof. intros Ha H x Hx. rewrite get_upd_ne by (intros ->; done). by apply H. Qed.
Lemma same_info_upd h h' a g :
  (forall c, head (g c) = head c /\ index (g c) = index c /\ prev_foot (g c) = prev_foot c) ->
  same_info h h' -> same_info h (upd a g h').
Proof. intros Hg H x. rewrite get_upd. case_decide as E; [subst|apply H]. destruct (Hg (get h' x)) as (->&->&->). apply H. Qed.

Lemma info_size h h' : same_info h h' -> forall x, chunksize (get h' x) = chunksize (get h x).
Proof. intros H x. unfold chunksize. destruct (H x) as (-> & _). done. Qed.

Create HintDb dl.
#[export] Hint Resolve frame_refl frame_upd same_info_upd : dl.

(** *** Segments *)

Lemma ring_ext h h' x l y : (forall z, z ∈ x :: l -> fd (get h' z) = fd (get h z)) ->
  (forall z, z ∈ y :: l -> bk (get h' z) = bk (get h z)) -> seg h x l y -> seg h' x l y.
Proof.
  revert x. induction l as [|z l IH]; intros x Hf Hb; simpl; [rewrite Hf, Hb by left; done|].
  intros (H1 & H2 & H3). rewrite Hf by left. rewrite Hb by (right; left). split; [done|]. split; [done|].
  apply IH; [intros w Hw; apply Hf; by right| |done]. intros w Hw. apply Hb.
  apply elem_of_cons in Hw as [->|Hw]; [by left|]. right. by right.
Qed.

Lemma ring_app h x l z m y : seg h x (l ++ z :: m) y <-> seg h x l z /\ seg h z m y.
Proof. revert x. induction l as [|w l IH]; intros x; simpl; [tauto|]. rewrite IH. tauto. Qed.

Lemma seg_first h x l y : seg h x l y -> fd (get h x) = hd_or y l.
Proof. destruct l; simpl; tauto. Qed.

Lemma seg_last h x l y : seg h x l y -> bk (get h y) = last_or x l.
Proof. revert x. induction l as [|z l IH]; intros x; simpl; [tauto|]. rewrite last_or_cons. intros (_&_&H). by apply IH. Qed.

(** *** Trees *)

Lemma addrs_node a s ring l r : addrs (Node a s ring l r) = a :: ring ++ addrs l ++ addrs r.
Proof.
  unfold addrs. simpl. rewrite !fmap_app. f_equal. f_equal. rewrite <-list_fmap_compose. by rewrite list_fmap_id.
Qed.

Lemma shape_frame h h' p par t : (forall x, x ∈ addrs t -> get h' x = get h x) -> shape h p par t -> shape h' p par t.
Proof.
  revert p par. induction t as [|a s ring l IHl r IHr]; intros p par H; [done|]. rewrite addrs_node in H. simpl.
  intros (-> & Hp & Hs & Hr & Hl & Hrr). rewrite (H a) by left. split; [done|]. split; [done|]. split.
  { apply (ring_ext h); [| |done]; intros z Hz; (rewrite H; [done|]); apply elem_of_cons in Hz as [->|Hz]; set_solver. }
  split; [intros x Hx; rewrite H by set_solver; by apply Hr|].
  split; [apply IHl|apply IHr]; try done; intros x Hx; apply H; set_solver.
Qed.

Lemma shape_root h p par t : shape h p par t -> p = root t.
Proof. destruct t; simpl; [done|]. tauto. Qed.

Lemma trie_height n hi t : trie n hi t -> (height t <= S n)%nat.
Proof.
  revert hi t. induction n as [|n IH]; intros hi [|a s ring l r]; simpl; [lia| |lia|].
  - intros (_ & -> & ->). simpl. lia.
  - intros (_ & Hl & Hr). apply IH in Hl, Hr. lia.
Qed.

(** The sizes in a trie share its prefix. *)
Lemma trie_prefix n hi t a s : trie n hi t -> (a, s) ∈ chunks t -> s ≫ Z.of_nat n = hi.
Proof.
  revert hi t. induction n as [|n IH]; intros hi [|b s' ring l r]; simpl; try (by intros _ ?%elem_of_nil).
  - intros (Hs & -> & ->) Hin. simpl in Hin. rewrite app_nil_r in Hin.
    assert (s = s') as ->; [|done]. apply elem_of_cons in Hin as [[= _ ->]|Hin]; [done|].
    apply list_elem_of_fmap in Hin as (x & [= _ ->] & _). done.
  - intros (Hs & Hl & Hr) Hin. rewrite app_comm_cons, !elem_of_app in Hin. destruct Hin as [Hin|[Hin|Hin]].
    + assert (s = s') as ->; [|done]. apply elem_of_cons in Hin as [[= _ ->]|Hin]; [done|].
      apply list_elem_of_fmap in Hin as (x & [= _ ->] & _). done.
    + apply (IH _ _ Hl) in Hin.
      replace (Z.of_nat (S n)) with (Z.of_nat n + 1) by lia. rewrite <-Z.shiftr_shiftr by lia. rewrite Hin, Z.shiftr_div_pow2 by lia. zlia.
    + apply (IH _ _ Hr) in Hin.
      replace (Z.of_nat (S n)) with (Z.of_nat n + 1) by lia. rewrite <-Z.shiftr_shiftr by lia. rewrite Hin, Z.shiftr_div_pow2 by lia. zlia.
Qed.

Lemma tinsert_chunks n x s t : chunks (tinsert n x s t) ≡ₚ (x, s) :: chunks t.
Proof.
  revert n. induction t as [|a s' ring l IHl r IHr]; intros n; simpl; [done|].
  case_decide as E; [subst; simpl; apply perm_swap|].
  destruct (Z.testbit s _); simpl; rewrite ?IHl, ?IHr; solve_Permutation.
Qed.

(** The next bit of a size tells the half it belongs to. *)
Lemma shiftr_next s n : s ≫ Z.of_nat n = 2 * (s ≫ Z.of_nat (S n)) + Z.b2z (Z.testbit s (Z.of_nat n)).
Proof.
  replace (Z.of_nat (S n)) with (Z.of_nat n + 1) by lia. rewrite <-Z.shiftr_shiftr by lia.
  replace (Z.testbit s (Z.of_nat n)) with (Z.testbit (s ≫ Z.of_nat n) 0) by (rewrite Z.shiftr_spec by lia; done).
  rewrite Z.bit0_mod, (Z.shiftr_div_pow2 _ 1) by lia. zlia.
Qed.

Lemma tinsert_trie n hi x s t : trie n hi t -> s ≫ Z.of_nat n = hi -> trie n hi (tinsert n x s t).
Proof.
  revert hi t. induction n as [|n IH]; intros hi [|a s' ring l r] Ht Hs; simpl in *; [by split| |by split|].
  - destruct Ht as (Hs' & -> & ->). rewrite decide_True by (rewrite Z.shiftr_0_r in *; congruence). done.
  - destruct Ht as (Hs' & Hl & Hr). case_decide; [done|]. rewrite Nat.sub_0_r.
    pose proof (shiftr_next s n) as Hb. rewrite Hs in Hb.
    replace (Z.of_nat (S n) - 1) with (Z.of_nat n) by lia.
    destruct (Z.testbit s (Z.of_nat n)); simpl in *; (split; [done|]).
    + split; [done|]. apply IH; [done|lia].
    + split; [|done]. apply IH; [done|lia].
Qed.

(** The key of the walk at a node that [n] bits tell apart: its sign bit is the next bit of the size. *)
Definition walk_key (S : Z) (n : nat) : Z := u64 (S ≪ (64 - Z.of_nat n)).

Lemma walk_key_next S n : (0 < n <= 64)%nat -> u64 (walk_key S n ≪ 1) = walk_key S (n - 1).
Proof.
  intros Hn. unfold walk_key, wrap. rewrite !Z.shiftl_mul_pow2 by lia.
  replace (64 - Z.of_nat (n - 1)) with (64 - Z.of_nat n + 1) by lia. rewrite Z.pow_add_r by lia.
  rewrite Z.mul_assoc. rewrite Zmult_mod_idemp_l. done.
Qed.

Lemma walk_key_bit S n : (0 < n <= 64)%nat ->
  bool_decide ((walk_key S n ≫ (SIZE_T_BITSIZE - 1)) .& 1 <> 0) = Z.testbit S (Z.of_nat n - 1).
Proof.
  intros Hn. unfold walk_key, SIZE_T_BITSIZE. rewrite (land_low _ 1) by lia.
  replace (2 ^ 1) with 2 by done. rewrite <-Z.bit0_mod, Z.shiftr_spec by lia.
  rewrite wrap_testbit, Z.shiftl_spec by lia. replace (0 + (64 - 1) - (64 - Z.of_nat n)) with (Z.of_nat n - 1) by lia.
  by destruct (Z.testbit S _).
Qed.

Definition usable (s : dl_st) (a : Z) : Prop := 0 < a /\ least_addr (gm s) <= a.
Definition sized (h : heap) (l : list (Z * Z)) : Prop := forall a sz, (a, sz) ∈ l -> chunksize (get h a) = sz.

Lemma sized_info h h' l : same_info h h' -> sized h l -> sized h' l.
Proof. intros Hi H a sz Hin. rewrite (info_size h) by done. by apply H. Qed.

Lemma tree_elem_addrs a s t : (a, s) ∈ chunks t -> a ∈ addrs t.
Proof. intros H. apply list_elem_of_fmap. by exists (a, s). Qed.

Definition side (d : bool) (l r : tree) : tree := if d then r else l.
Definition node_with (d : bool) (a s : Z) (ring : list Z) (l r t' : tree) : tree :=
  if d then Node a s ring l t' else Node a s ring t' r.

Lemma elem_side d l r x : x ∈ addrs (side d l r) -> x ∈ addrs l ++ addrs r.
Proof. destruct d; simpl; rewrite elem_of_app; tauto. Qed.

(** Membership in a list from the hypotheses about its parts. *)
Ltac inl := rewrite ?elem_of_cons, ?elem_of_app, ?elem_of_cons in *; first [tauto | intuition auto].

(** A node whose child on one side is another tree. *)
Lemma shape_swap h h' a par s ring l r d t' :
  shape h a par (Node a s ring l r) ->
  (forall x, x ∈ ring ++ addrs (side (negb d) l r) -> get h' x = get h x) ->
  parent (get h' a) = parent (get h a) -> fd (get h' a) = fd (get h a) -> bk (get h' a) = bk (get h a) ->
  child (negb d) (get h' a) = child (negb d) (get h a) ->
  shape h' (child d (get h' a)) a t' ->
  shape h' a par (node_with d a s ring l r t').
Proof.
  simpl. intros (_ & Hp & Hs & Hr & Hl & Hrr) Hfr Ep Ef Eb Ec Ht'.
  assert (Hs' : seg h' a ring a).
  { apply (ring_ext h); [| |done]; intros z [->|Hz]%elem_of_cons; try done; by rewrite Hfr by set_solver. }
  assert (Hr' : forall x, x ∈ ring -> parent (get h' x) = 0 /\ child0 (get h' x) = 0 /\ child1 (get h' x) = 0)
    by (intros x Hx; rewrite Hfr by set_solver; by apply Hr).
  destruct d; simpl in *; (split; [done|]); (split; [congruence|]); (split; [done|]); (split; [done|]); (split; [|]); try done.
  - rewrite Ec. apply (shape_frame h); [|done]. intros x Hx. apply Hfr. set_solver.
  - rewrite Ec. apply (shape_frame h); [|done]. intros x Hx. apply Hfr. set_solver.
Qed.

(** Fields after a chain of stores: case by case on the addresses. *)
Ltac upds := rewrite ?get_upd; repeat (case_decide; try subst; simpl; try done); simpl; try done; try congruence.

(** [X] is linked in after the node of its size. *)
Lemma ring_insert h h' a X ring :
  (forall x, fd (get h' x) = if decide (x = X) then hd_or a ring else if decide (x = a) then X else fd (get h x)) ->
  (forall x, bk (get h' x) = if decide (x = X) then a else if decide (x = hd_or a ring) then X else bk (get h x)) ->
  NoDup (X :: a :: ring) -> seg h a ring a -> seg h' a (X :: ring) a.
Proof.
  intros Hf Hb Hnd Hs. apply NoDup_cons in Hnd as [HX Hnd]. apply NoDup_cons in Hnd as [Ha Hnd].
  assert (HXa : X <> a) by set_solver. simpl. split; [by rewrite Hf, decide_False, decide_True by done|].
  split; [by rewrite Hb, decide_True by done|]. destruct ring as [|r ring]; simpl in *.
  - rewrite Hf, Hb. rewrite (decide_True (P := X = X)) by done. by rewrite decide_False, decide_True by done.
  - rewrite Hf, Hb. rewrite (decide_True (P := X = X)) by done. rewrite decide_False, decide_True by set_solver.
    split; [done|]. split; [done|]. destruct Hs as (_ & _ & Hs). apply (ring_ext h); [| |done].
    + intros z Hz. rewrite Hf, !decide_False by set_solver. done.
    + intros z Hz. rewrite Hb, !decide_False; [done|apply NoDup_cons in Hnd as [? _]; set_solver|set_solver].
Qed.

Lemma insert_ring h a par S ring l r X :
  shape h a par (Node a S ring l r) -> NoDup (X :: a :: ring ++ addrs l ++ addrs r) -> a <> 0 ->
  child0 (get h X) = 0 -> child1 (get h X) = 0 ->
  forall F, F = hd_or a ring ->
  shape (upd X (set_parent 0) (upd X (set_bk a) (upd X (set_fd F) (upd a (set_fd X) (upd F (set_bk X) h)))))
    a par (Node a S (X :: ring) l r).
Proof.
  intros (_ & Hp & Hseg & Hring & Hl & Hr) Hnd Ha Hc0 Hc1 F EF. set (h' := upd X _ _).
  assert (HF : F ∈ a :: ring) by (rewrite EF; unfold hd_or; destruct ring; simpl; set_solver).
  assert (HXn : X ∉ a :: ring ++ addrs l ++ addrs r) by (by apply NoDup_cons in Hnd as [? _]).
  assert (HXa : X <> a) by set_solver. assert (HXF : X <> F) by set_solver.
  assert (Hch : forall x d, child d (get h' x) = child d (get h x)) by (intros x []; unfold h'; upds).
  assert (Hpar : forall x, parent (get h' x) = if decide (x = X) then 0 else parent (get h x)) by (intros x; unfold h'; upds).
  assert (Hsub : forall t q, (forall x, x ∈ addrs t -> x ∈ addrs l ++ addrs r) -> shape h q a t -> shape h' q a t).
  { intros t q Ht. apply shape_frame. intros x Hx. apply Ht in Hx. apply NoDup_cons in Hnd as [_ Hnd].
    change (a :: ring ++ addrs l ++ addrs r) with ((a :: ring) ++ addrs l ++ addrs r) in Hnd.
    apply NoDup_app in Hnd as (_ & Hd & _). assert (x ∉ a :: ring) by (intros Hin; by apply (Hd x)).
    assert (X <> x) by (intros ->; inl). assert (F <> x) by congruence. assert (a <> x) by (intros ->; inl).
    unfold h'. by rewrite !get_upd_ne by done. }
  split; [done|]. split; [by rewrite Hpar, decide_False by done|]. split.
  { apply (ring_insert h); rewrite <-?EF; [intros x; unfold h'; upds|intros x; unfold h'; upds| |done].
    change (X :: a :: ring ++ addrs l ++ addrs r) with ((X :: a :: ring) ++ addrs l ++ addrs r) in Hnd. by apply NoDup_app in Hnd as [? _]. }
  split; [|split].
  - intros x Hx. rewrite (Hch x false : child0 _ = _), (Hch x true : child1 _ = _), Hpar.
    case_decide; [by subst|]. apply Hring. set_solver.
  - rewrite (Hch a false : child0 _ = _). apply Hsub; [set_solver|done].
  - rewrite (Hch a true : child1 _ = _). apply Hsub; [set_solver|done].
Qed.

(** [X] becomes a leaf below [a]. *)
Lemma insert_leaf h a par s' ring l r d X S :
  shape h a par (Node a s' ring l r) -> X ∉ a :: ring ++ addrs l ++ addrs r -> a ∉ addrs l ++ addrs r -> a ∉ ring ->
  child0 (get h X) = 0 -> child1 (get h X) = 0 ->
  shape (upd X (set_fd X) (upd X (set_bk X) (upd X (set_parent a) (upd a (set_child d X) h))))
    a par (node_with d a s' ring l r (Node X S [] Leaf Leaf)).
Proof.
  intros Hsh HX Ha Har Hc0 Hc1. set (h' := upd X _ _). assert (HXa : X <> a) by set_solver.
  apply (shape_swap h); [done| |unfold h'; destruct d; upds..|].
  - intros x Hx. assert (Hx' : x ∈ ring ++ addrs l ++ addrs r) by (apply elem_of_app in Hx as [Hx|Hx%elem_side]; inl).
    assert (X <> x) by (intros ->; inl). assert (a <> x) by (intros ->; inl).
    unfold h'. by rewrite !get_upd_ne by done.
  - replace (child d (get h' a)) with X by (unfold h'; destruct d; upds).
    assert (Hc : forall e, child e (get h' X) = child e (get h X)) by (intros []; unfold h'; destruct d; upds).
    simpl. split; [done|]. split; [unfold h'; upds|]. split; [split; unfold h'; upds|]. split; [set_solver|].
    by rewrite (Hc false : child0 _ = _), (Hc true : child1 _ = _).
Qed.

(** The parts of a node are apart. *)
Lemma node_apart X a ring l r d : NoDup (X :: a :: ring ++ addrs l ++ addrs r) ->
  NoDup (X :: addrs (side d l r)) /\
  forall x, x ∈ a :: ring ++ addrs (side (negb d) l r) -> x ∉ X :: addrs (side d l r).
Proof.
  intros [HX Hnd]%NoDup_cons. apply NoDup_cons in Hnd as [Ha Hnd]. apply NoDup_app in Hnd as (Hr & Hd & Hnd).
  apply NoDup_app in Hnd as (Hl & Hdd & Hrr). split; [apply NoDup_cons; destruct d; set_solver|].
  intros x Hx [->|Hin]%elem_of_cons.
  - apply HX. destruct d; set_solver.
  - apply elem_of_cons in Hx as [->|Hx]; [apply Ha; destruct d; set_solver|].
    apply elem_of_app in Hx as [Hx|Hx]; [apply (Hd x Hx); destruct d; set_solver|].
    destruct d; simpl in *; by apply (Hdd x).
Qed.

(** The walk of an insertion. *)
Lemma insert_walk_ok func fuel n t par X S s : (height t <= fuel)%nat -> (n <= 64)%nat -> t <> Leaf ->
  shape (mem s) (root t) par t -> sized (mem s) (chunks t) -> trie n (S ≫ Z.of_nat n) t ->
  NoDup (X :: addrs t) -> (forall x, x ∈ X :: addrs t -> usable s x) ->
  child0 (get (mem s) X) = 0 -> child1 (get (mem s) X) = 0 ->
  exists h', insert_walk func fuel (root t) (walk_key S n) X S s = Ok (tt, set_mem h' s) /\
    shape h' (root t) par (tinsert n X S t) /\ frame (X :: addrs t) (mem s) h' /\ same_info (mem s) h'.
Proof.
  revert n t par. induction fuel as [|fuel IH]; intros n [|a s' ring l r] par; try done; simpl height; [lia|].
  intros Hfuel Hn _ Hsh Hsz Htrie Hnd Hu Hc0 Hc1. rewrite addrs_node in Hnd, Hu.
  assert (Hnz : forall x, x ∈ X :: a :: ring ++ addrs l ++ addrs r -> x <> 0) by (intros x Hx; destruct (Hu x Hx); lia).
  assert (Ha : a <> 0) by (apply Hnz; inl). assert (HX : X <> 0) by (apply Hnz; inl).
  assert (HXn : X ∉ a :: ring ++ addrs l ++ addrs r) by (by apply NoDup_cons in Hnd as [? _]).
  assert (Han : a ∉ ring ++ addrs l ++ addrs r) by (apply NoDup_cons in Hnd as [_ Hnd]; by apply NoDup_cons in Hnd as [? _]).
  cbn [insert_walk root tinsert]. unfold csize. rewrite rd_bind by done. rewrite (Hsz a s') by (simpl; set_solver).
  case_decide as Es.
  - rewrite (decide_False (P := s' = S)) by done. assert (Hn0 : (0 < n)%nat).
    { destruct n; [|lia]. destruct Htrie as (E & _). simpl in E. rewrite !Z.shiftr_0_r in E. done. }
    rewrite walk_key_bit, walk_key_next by lia. set (d := Z.testbit S (Z.of_nat n - 1)).
    rewrite rd_bind by done. assert (Hc : child d (get (mem s) a) = root (side d l r)).
    { destruct Hsh as (_ & _ & _ & _ & Hl & Hr). destruct d; simpl; by eapply shape_root. }
    rewrite Hc. replace (if d then Node a s' ring l (tinsert (n - 1) X S r) else Node a s' ring (tinsert (n - 1) X S l) r)
      with (node_with d a s' ring l r (tinsert (n - 1) X S (side d l r))) by (by destruct d).
    pose proof (elem_side d l r) as Hsub.
    case_decide as Hroot.
    + destruct (IH (n - 1)%nat (side d l r) a) as (h' & Hrun & Hsh' & Hfr & Hinf); clear IH; try done.
      * destruct d; simpl; lia.
      * lia.
      * destruct d; simpl in *; by intros ->.
      * destruct Hsh as (_ & _ & _ & _ & Hl & Hr). rewrite <-Hc. by destruct d.
      * intros x sz Hx. apply Hsz. simpl. clear -Hx; destruct d; set_solver.
      * destruct n as [|n]; [lia|]. destruct Htrie as (_ & Hl & Hr). rewrite Nat.sub_succ, Nat.sub_0_r, (shiftr_next S n).
        assert (Ed : d = Z.testbit S (Z.of_nat n)) by (unfold d; f_equal; lia). rewrite <-Ed. clearbody d.
        destruct d; simpl; [done|]. by rewrite Z.add_0_r.
      * by apply (node_apart X a ring l r d).
      * intros x Hx. apply Hu. apply elem_of_cons in Hx as [->|Hx%Hsub]; inl.
      * exists h'. split; [done|]. destruct (node_apart X a ring l r d Hnd) as [_ Hap].
        assert (Ea : get h' a = get (mem s) a) by (apply Hfr, Hap; left).
        split; [|split; [|done]].
        -- apply (shape_swap (mem s)); rewrite ?Ea; try done.
           ++ intros x Hx. apply Hfr, Hap. by right.
           ++ by rewrite Hc.
        -- eapply frame_mono; [|exact Hfr]. rewrite addrs_node. intros x [->|Hx%Hsub]%elem_of_cons; inl.
    + rewrite rtcheck_bind by (apply ok_address_true; destruct (Hu a); [inl|]; unfold child_slot; destruct d; lia).
      rewrite !wr_bind, wr_ok by done. eexists. split; [reflexivity|]. cbn [mem set_mem].
      assert (Hleaf : side d l r = Leaf).
      { destruct (side d l r) as [|b ? ? ? ?]; [done|]. simpl in Hroot. exfalso. apply (Hnz b); [specialize (Hsub b); rewrite addrs_node in Hsub; specialize (Hsub ltac:(left)); inl|lia]. }
      rewrite Hleaf. split; [|split; [|destruct d; repeat apply same_info_upd; done]].
      * simpl. apply insert_leaf; try done; inl.
      * rewrite addrs_node. repeat apply frame_upd; done || inl.
  - assert (s' = S) as -> by (destruct (decide (s' = S)); tauto). rewrite decide_True by done.
    assert (HF : fd (get (mem s) a) = hd_or a ring) by (apply seg_first; by destruct Hsh as (_ & _ & Hseg & _)).
    assert (HFin : hd_or a ring ∈ a :: ring) by (destruct ring; simpl; set_solver).
    rewrite rd_bind, HF by done. rewrite rtcheck_bind.
    2: { rewrite (bind_ok _ _ _ true s) by (apply ok_address_true, Hu; inl). apply ok_address_true, Hu. inl. }
    rewrite !wr_bind, wr_ok by (done || (apply Hnz; inl)). eexists. split; [reflexivity|]. cbn [mem set_mem].
    split; [by apply insert_ring|]. rewrite addrs_node. split; [|by repeat apply same_info_upd].
    repeat apply frame_upd; done || inl.
Qed.
