(* ===== verification/DlUnlink.v ===== *)
(** Taking a large free chunk out of the trees of the C library's allocator: the loops and cases of
    [unlink_large_chunk] on trees in memory. *)
From S2P Require Import Prelude DlBins DlHeap DlTree.

(** ** Taking a chunk out *)

Lemma pull_none t : pull t = None <-> t = Leaf.
Proof.
  destruct t as [|a s ring l r]; simpl; [done|]. split; [|done].
  destruct (pull r) as [[??]|]; [done|]. by destruct (pull l) as [[??]|].
Qed.

Lemma pull_chunks t a s g t' : pull t = Some (a, s, g, t') -> chunks t ≡ₚ ((., s) <$> a :: g) ++ chunks t'.
Proof.
  revert t'. induction t as [|b s' ring l IHl r IHr]; intros t'; cbn [pull]; [done|].
  destruct (pull r) as [[[[b1 s1] g1] r']|] eqn:Er.
  - intros [= -> -> -> <-]. cbn [chunks]. rewrite (IHr r') by done. solve_Permutation.
  - apply pull_none in Er as ->. destruct (pull l) as [[[[b1 s1] g1] l']|] eqn:El.
    + intros [= -> -> -> <-]. cbn [chunks]. rewrite (IHl l') by done. solve_Permutation.
    + apply pull_none in El as ->. intros [= -> -> -> <-]. done.
Qed.

Lemma pull_trie n hi t x t' : trie n hi t -> pull t = Some (x, t') -> trie n hi t'.
Proof.
  revert n hi t'. induction t as [|b s' ring l IHl r IHr]; intros n hi t'; simpl; [done|]. intros [Hs Ht].
  destruct (pull r) as [[x1 r']|] eqn:Er.
  - intros [= -> <-]. simpl. split; [done|]. destruct n; [by destruct Ht as (-> & ->)|]. destruct Ht. eauto.
  - apply pull_none in Er as ->. destruct (pull l) as [[x1 l']|] eqn:El.
    + intros [= -> <-]. simpl. split; [done|]. destruct n; [by destruct Ht as [-> _]|]. destruct Ht. eauto.
    + by intros [= <- <-].
Qed.

Lemma pull_addrs t a s g t' x : pull t = Some (a, s, g, t') -> (x ∈ addrs t <-> x ∈ a :: g ++ addrs t').
Proof.
  intros H%pull_chunks. unfold addrs. rewrite H, fmap_app.
  rewrite <-list_fmap_compose, (list_fmap_id (a :: g) : (fst ∘ (., s)) <$> a :: g = _). done.
Qed.

(** The node [b] after the leaf that [descend] found on side [e] is cut from its slot. *)
Lemma shape_cut h b par s g l r e o' d' t' :
  shape h b par (Node b s g l r) -> NoDup (b :: g ++ addrs l ++ addrs r) ->
  o' ∈ b :: addrs (side e l r) -> (o' = b -> d' = e) ->
  let h1 := upd o' (set_child d' 0) h in
  shape h1 (child e (get h1 b)) b t' -> shape h1 b par (node_with e b s g l r t').
Proof.
  intros Hsh Hnd Ho Hd h1 Ht'. apply (shape_swap h); try done.
  - intros x Hx. unfold h1. apply get_upd_ne. intros ->. apply NoDup_cons in Hnd as [Hb Hnd].
    apply elem_of_cons in Ho as [->|Ho]; [apply Hb; apply elem_of_app in Hx as [Hx|Hx%elem_side]; inl|].
    apply NoDup_app in Hnd as (_ & Hg & Hnd). apply NoDup_app in Hnd as (_ & Hlr & _).
    apply elem_of_app in Hx as [Hx|Hx]; [apply (Hg x Hx); by apply elem_side in Ho|].
    destruct e; simpl in *; by apply (Hlr x).
  - unfold h1. destruct d'; upds.
  - unfold h1. destruct d'; upds.
  - unfold h1. destruct d'; upds.
  - unfold h1. rewrite get_upd. case_decide as E; [|done]. rewrite (Hd E), E. by destruct e.
Qed.

(** A leaf of the trees, alone. *)
Definition leaf_node (h : heap) (a s : Z) (g : list Z) : Prop := exists q, shape h a q (Node a s g Leaf Leaf).

Lemma descend_ok fuel t o d R s a sz g t' :
  (height t <= fuel)%nat -> NoDup (o :: addrs t) -> (forall x, x ∈ addrs t -> x <> 0) ->
  child d (get (mem s) o) = R -> shape (mem s) R o t -> pull t = Some (a, sz, g, t') ->
  exists o' d', descend fuel R (o, d) s = Ok ((a, (o', d')), s) /\ o' ∈ o :: addrs t /\ o' <> a /\ (o' = o -> d' = d) /\
    leaf_node (mem s) a sz g /\ let h1 := upd o' (set_child d' 0) (mem s) in shape h1 (child d (get h1 o)) o t'.
Proof.
  revert t o d R t'. induction fuel as [|fuel IH]; intros [|b s' ring l r] o d R t'; try done; simpl height; [lia|].
  rewrite addrs_node. intros Hf Hnd Hnz Hc Hsh Hp. cbn [descend].
  assert (R = b) as -> by (by destruct Hsh). assert (Hb : b <> 0) by (apply Hnz; left).
  assert (Hob : o <> b) by (apply NoDup_cons in Hnd; set_solver).
  pose proof Hsh as (_ & Hpar & Hseg & Hring & Hl & Hr).
  (* going down on side [e] *)
  assert (Hgo : forall e u, pull (side e l r) = Some (a, sz, g, u) -> t' = node_with e b s' ring l r u ->
    child e (get (mem s) b) <> 0 /\
    exists o' d', descend fuel (child e (get (mem s) b)) (b, e) s = Ok ((a, (o', d')), s) /\
      o' ∈ o :: b :: ring ++ addrs l ++ addrs r /\ o' <> a /\ (o' = o -> d' = d) /\
      leaf_node (mem s) a sz g /\ let h1 := upd o' (set_child d' 0) (mem s) in shape h1 (child d (get h1 o)) o t').
  { intros e u He ->. destruct (node_apart o b ring l r e Hnd) as [Hnde Hap].
    pose proof (elem_side e l r) as Hsub.
    destruct (IH (side e l r) b e (child e (get (mem s) b)) u) as (o' & d' & Hrun & Ho' & Hoa & Hod & Hleaf & Hsh'); try done.
    - destruct e; simpl; lia.
    - apply NoDup_cons in Hnde as [_ ?]. apply NoDup_cons. split; [|done]. intros Hin. apply (Hap b); [left|by right].
    - intros x Hx%Hsub. apply Hnz. inl.
    - by destruct e.
    - assert (Hoo : o' <> o).
      { intros ->. apply elem_of_cons in Ho' as [->|Ho']; [done|]. apply NoDup_cons in Hnde. tauto. }
      split.
      { assert (side e l r <> Leaf) by (intros E; rewrite E in He; done).
        assert (Hs : shape (mem s) (child e (get (mem s) b)) b (side e l r)) by (by destruct e).
        rewrite (shape_root _ _ _ _ Hs). destruct (side e l r) as [|c ? ? ? ?] eqn:Ee; [done|]. apply Hnz. assert (c ∈ addrs l ++ addrs r) by (apply Hsub; rewrite addrs_node; left). inl. }
      exists o', d'. split; [done|]. split; [apply elem_of_cons in Ho' as [->|Ho'%Hsub]; inl|]. split; [done|]. split; [done|]. split; [done|].
      intros h1. assert (child d (get h1 o) = b) as -> by (unfold h1; rewrite get_upd_ne; done).
      apply shape_cut; try done. by apply NoDup_cons in Hnd as [_ ?]. }
  simpl in Hp. destruct (pull r) as [[[[a1 s1] g1] r']|] eqn:Er.
  { injection Hp as -> -> -> <-. destruct (Hgo true r' Er eq_refl) as (Hc1 & Hrest). cbn [child node_with] in Hc1, Hrest.
    rewrite rd_bind, decide_True by done. done. }
  apply pull_none in Er as ->. assert (Hc1 : child1 (get (mem s) b) = 0) by done.
  rewrite rd_bind, decide_False by (done || tauto).
  destruct (pull l) as [[[[a1 s1] g1] l']|] eqn:El.
  { injection Hp as -> -> -> <-. destruct (Hgo false l' El eq_refl) as (Hc0 & Hrest). cbn [child node_with] in Hc0, Hrest.
    rewrite rd_bind, decide_True by done. done. }
  apply pull_none in El as ->. injection Hp as -> -> -> <-. assert (Hc0 : child0 (get (mem s) a) = 0) by done.
  rewrite rd_bind, decide_False by (done || tauto). exists o, d. split; [done|]. split; [by left|]. split; [done|]. split; [done|].
  split; [by exists o|]. rewrite get_upd_eq. by destruct d.
Qed.

(** The leaf to put in place of a node with the subtrees [l] and [r], and what is left of them. *)
Definition promote (l r : tree) : option ((Z * Z * list Z) * tree * tree) :=
  match pull r with
  | Some (x, r') => Some (x, l, r')
  | None => match pull l with Some (x, l') => Some (x, l', Leaf) | None => None end
  end.

Lemma take_leaf_ok func X s sX par l r a sz g l' r' :
  shape (mem s) X par (Node X sX [] l r) -> promote l r = Some (a, sz, g, l', r') ->
  NoDup (X :: addrs l ++ addrs r) -> (forall x, x ∈ X :: addrs l ++ addrs r -> usable s x) ->
  (height l <= TREE_FUEL)%nat -> (height r <= TREE_FUEL)%nat ->
  exists o d, take_leaf func X s = Ok (a, set_mem (upd o (set_child d 0) (mem s)) s) /\
    o ∈ X :: addrs l ++ addrs r /\ o <> a /\ leaf_node (mem s) a sz g /\
    shape (upd o (set_child d 0) (mem s)) X par (Node X sX [] l' r').
Proof.
  intros Hsh Hp Hnd Hu Hhl Hhr. pose proof Hsh as (_ & Hpar & Hseg & _ & Hl & Hr).
  assert (Hnz : forall x, x ∈ X :: addrs l ++ addrs r -> x <> 0) by (intros x Hx; destruct (Hu x Hx); lia).
  assert (HX : X <> 0) by (apply Hnz; left).
  (* below side [e] *)
  assert (Hgo : forall e u, pull (side e l r) = Some (a, sz, g, u) ->
    child e (get (mem s) X) <> 0 /\
    exists o d, ('(R, (o, d)) ← descend TREE_FUEL (child e (get (mem s) X)) (X, e);
      _ ← rtcheck func (ok_address (child_slot o d)); _ ← wr (set_child d 0) o; mret R) s =
      Ok (a, set_mem (upd o (set_child d 0) (mem s)) s) /\
      o ∈ X :: addrs l ++ addrs r /\ o <> a /\ leaf_node (mem s) a sz g /\
      shape (upd o (set_child d 0) (mem s)) X par (node_with e X sX [] l r u)).
  { intros e u He. destruct (node_apart 0 X [] l r e) as [Hnde Hap].
    { apply NoDup_cons. split; [|done]. intros H0. by apply (Hnz 0). }
    assert (Hs : shape (mem s) (child e (get (mem s) X)) X (side e l r)) by (by destruct e).
    split.
    { rewrite (shape_root _ _ _ _ Hs). destruct (side e l r) as [|c ? ? ? ?] eqn:Ee; [done|]. apply Hnz. right.
      apply (elem_side e). rewrite Ee, addrs_node. left. }
    apply NoDup_cons in Hnde as [_ Hnde].
    destruct (descend_ok TREE_FUEL (side e l r) X e (child e (get (mem s) X)) s a sz g u) as (o & d & Hrun & Ho & Hoa & Hod & Hleaf & Hsh'); try done.
    - by destruct e.
    - apply NoDup_cons. split; [|done]. intros Hin. apply (Hap X); [left|by right].
    - intros x Hx%elem_side. apply Hnz. by right.
    - assert (Ho' : o ∈ X :: addrs l ++ addrs r) by (apply elem_of_cons in Ho as [->|Ho%elem_side]; [left|by right]).
      exists o, d. rewrite (bind_ok _ _ _ _ _ Hrun).
      rewrite rtcheck_bind by (apply ok_address_true; destruct (Hu o Ho'); unfold child_slot; destruct d; lia).
      rewrite wr_bind by (by apply Hnz). split; [done|]. split; [done|]. split; [done|]. split; [done|].
      by apply shape_cut. }
  unfold take_leaf, promote in *. destruct (pull r) as [[[[a1 s1] g1] r1]|] eqn:Er.
  { injection Hp as -> -> -> <- <-. destruct (Hgo true r1 Er) as (Hc1 & Hrest). cbn [child node_with] in Hc1, Hrest.
    rewrite rd_bind, decide_True by done. done. }
  apply pull_none in Er as ->. assert (Hc1 : child1 (get (mem s) X) = 0) by done.
  rewrite rd_bind, decide_False by (done || tauto).
  destruct (pull l) as [[[[a1 s1] g1] l1]|] eqn:El; [|done].
  injection Hp as -> -> -> <- <-. destruct (Hgo false l1 El) as (Hc0 & Hrest). cbn [child node_with] in Hc0, Hrest.
  rewrite rd_bind, decide_True by done. done.
Qed.

Lemma take_leaf_none func X s sX par l r :
  shape (mem s) X par (Node X sX [] l r) -> promote l r = None -> X <> 0 -> take_leaf func X s = Ok (0, s) /\ l = Leaf /\ r = Leaf.
Proof.
  intros (_ & _ & _ & _ & Hl & Hr) Hp HX. unfold promote in Hp.
  destruct (pull r) as [[??]|] eqn:Er; [done|]. destruct (pull l) as [[??]|] eqn:El; [done|].
  apply pull_none in Er as ->, El as ->. simpl in *. unfold take_leaf.
  rewrite rd_bind, decide_False by (done || tauto). rewrite rd_bind, decide_False by (done || tauto). done.
Qed.

(** A tree under another parent. *)
Lemma shape_reparent h p q q' t : shape h p q t -> NoDup (addrs t) -> t <> Leaf -> shape (upd p (set_parent q') h) p q' t.
Proof.
  destruct t as [|a s ring l r]; [done|]. rewrite addrs_node. intros (-> & Hp & Hseg & Hring & Hl & Hr) [Ha Hnd]%NoDup_cons _. simpl.
  split; [done|]. split; [by rewrite get_upd_eq|]. split; [|split; [|split]].
  - apply (ring_ext h); [| |done]; intros; upds.
  - intros x Hx. rewrite get_upd_ne by (intros ->; inl). by apply Hring.
  - replace (child0 (get (upd a (set_parent q') h) a)) with (child0 (get h a)) by upds.
    apply (shape_frame h); [|done]. intros x Hx. apply get_upd_ne. intros ->. inl.
  - replace (child1 (get (upd a (set_parent q') h) a)) with (child1 (get h a)) by upds.
    apply (shape_frame h); [|done]. intros x Hx. apply get_upd_ne. intros ->. inl.
Qed.

Lemma adopt_ok func X R d t s :
  shape (mem s) (child d (get (mem s) X)) X t -> NoDup (X :: R :: addrs t) -> (forall x, x ∈ X :: R :: addrs t -> usable s x) ->
  child d (get (mem s) R) = 0 ->
  exists h', adopt func X R d s = Ok (tt, set_mem h' s) /\ shape h' (child d (get h' R)) R t /\
    frame (R :: addrs t) (mem s) h' /\ same_info (mem s) h' /\
    parent (get h' R) = parent (get (mem s) R) /\ fd (get h' R) = fd (get (mem s) R) /\ bk (get h' R) = bk (get (mem s) R) /\
    child (negb d) (get h' R) = child (negb d) (get (mem s) R).
Proof.
  intros Hsh Hnd Hu HR. assert (Hnz : forall x, x ∈ X :: R :: addrs t -> x <> 0) by (intros x Hx; destruct (Hu x Hx); lia).
  unfold adopt. rewrite rd_bind by (apply Hnz; left). destruct t as [|C sC ring l r].
  - simpl in Hsh. rewrite Hsh. exists (mem s). rewrite decide_False by tauto. split; [by destruct s|]. split; [done|]. repeat split.
  - assert (EC : child d (get (mem s) X) = C) by (by destruct Hsh). rewrite EC in *.
    assert (HC : C ∈ addrs (Node C sC ring l r)) by (rewrite addrs_node; left).
    assert (HRC : R <> C) by (intros ->; apply NoDup_cons in Hnd as [_ Hnd]; by apply NoDup_cons in Hnd as [? _]).
    rewrite decide_True by (apply Hnz; inl). rewrite rtcheck_bind by (apply ok_address_true, Hu; inl).
    rewrite wr_bind, wr_ok by (apply Hnz; inl). eexists. split; [reflexivity|]. cbn [mem set_mem].
    set (h1 := upd R (set_child d C) (mem s)). split; [|split; [|split]].
    + replace (child d (get (upd C (set_parent R) h1) R)) with C by (unfold h1; destruct d; upds).
      apply (shape_reparent _ _ X); [|by apply NoDup_cons in Hnd as [_ [_ ?]%NoDup_cons]|done].
      apply (shape_frame (mem s)); [|done]. intros x Hx. unfold h1. apply get_upd_ne. intros ->.
      apply NoDup_cons in Hnd as [_ [? _]%NoDup_cons]. done.
    + repeat apply frame_upd; done || inl.
    + unfold h1. destruct d; by repeat apply same_info_upd.
    + rewrite get_upd_ne by done. unfold h1. rewrite get_upd_eq. by destruct d.
Qed.

(** A chunk leaves its ring or list. *)
Lemma seg_remove h h' x l1 X l2 y F R :
  (forall z, fd (get h' z) = if decide (z = R) then F else fd (get h z)) ->
  (forall z, bk (get h' z) = if decide (z = F) then R else bk (get h z)) ->
  F = hd_or y l2 -> R = last_or x l1 -> NoDup (l1 ++ X :: l2) -> x ∉ l1 ++ X :: l2 -> y ∉ l1 ++ X :: l2 ->
  seg h x (l1 ++ X :: l2) y -> seg h' x (l1 ++ l2) y.
Proof.
  intros Hf Hb EF. revert x. induction l1 as [|z l1 IH]; intros x ER Hnd Hx Hy; simpl in *.
  - subst R. intros (H1 & H2 & H3). apply NoDup_cons in Hnd as [HXl Hnd]. destruct l2 as [|f l2]; simpl in *; subst F.
    + rewrite Hf, Hb, !decide_True by done. done.
    + rewrite Hf, Hb, !decide_True by done. split; [done|]. split; [done|]. destruct H3 as (_ & _ & H3).
      apply NoDup_cons in Hnd as [Hfl Hnd]. apply (ring_ext h); [| |done].
      * intros w Hw. rewrite Hf, decide_False; [done|intros ->; inl].
      * intros w Hw. rewrite Hb, decide_False; [done|intros ->; inl].
  - intros (H1 & H2 & H3). apply NoDup_cons in Hnd as [Hz Hnd]. rewrite last_or_cons in ER.
    assert (HR : R ∈ z :: l1) by (rewrite ER; destruct l1 using rev_ind; [by left|rewrite last_or_snoc; inl]).
    assert (HF : F ∈ y :: l2) by (rewrite EF; destruct l2; simpl; [by left|inl]).
    rewrite Hf, decide_False by (intros ->; inl). rewrite Hb, decide_False by (intros ->; inl).
    split; [done|]. split; [done|]. apply IH; try done; inl.
Qed.

(** The effect of [unchain] on memory. *)
Definition unchained (F R : Z) (h : heap) : heap := upd R (set_fd F) (upd F (set_bk R) h).

Lemma unchained_fd F R h z : fd (get (unchained F R h) z) = if decide (z = R) then F else fd (get h z).
Proof. unfold unchained. upds. Qed.
Lemma unchained_bk F R h z : bk (get (unchained F R h) z) = if decide (z = F) then R else bk (get h z).
Proof. unfold unchained. upds. Qed.
Lemma unchained_links F R h z :
  parent (get (unchained F R h) z) = parent (get h z) /\ (forall d, child d (get (unchained F R h) z) = child d (get h z)).
Proof. unfold unchained. split; [upds|intros []; upds]. Qed.
Lemma unchained_frame F R h l : F ∈ l -> R ∈ l -> frame l h (unchained F R h).
Proof. intros HF HR. unfold unchained. repeat apply frame_upd; done. Qed.
Lemma unchained_info F R h : same_info h (unchained F R h).
Proof. unfold unchained. by repeat apply same_info_upd. Qed.

(** In a ring through [b], the chunk [X] between [l1] and [l2]. *)
Lemma unchain_ok func X s b l1 l2 :
  seg (mem s) b (l1 ++ X :: l2) b -> (forall x, x ∈ b :: l1 ++ X :: l2 -> usable s x) ->
  let F := hd_or b l2 in let R := last_or b l1 in
  unchain func X s = Ok (R, set_mem (unchained F R (mem s)) s).
Proof.
  intros Hseg Hu F R. apply ring_app in Hseg as [H1 H2].
  assert (HF : fd (get (mem s) X) = F) by (by apply seg_first).
  assert (HR : bk (get (mem s) X) = R) by (by apply seg_last in H1).
  assert (HFin : F ∈ b :: l1 ++ X :: l2) by (unfold F; destruct l2; simpl; inl).
  assert (HRin : R ∈ b :: l1 ++ X :: l2) by (unfold R; destruct l1 using rev_ind; [left|rewrite last_or_snoc; inl]).
  assert (HbF : bk (get (mem s) F) = X).
  { unfold F. destruct l2; simpl in *; tauto. }
  assert (HfR : fd (get (mem s) R) = X).
  { unfold R. destruct l1 as [|z l1 _] using rev_ind; [by apply seg_first in H1|]. rewrite last_or_snoc.
    apply ring_app in H1 as [_ H1]. by apply seg_first in H1. }
  assert (Hnz : forall x, x ∈ b :: l1 ++ X :: l2 -> x <> 0) by (intros x Hx; destruct (Hu x Hx); lia).
  unfold unchain. rewrite !rd_bind by (apply Hnz; inl). rewrite HF, HR. rewrite rtcheck_bind.
  - rewrite !wr_bind by (by apply Hnz). done.
  - rewrite (bind_ok _ _ _ true s) by (by apply ok_address_true, Hu).
    rewrite rd_bind, HbF, decide_True by (done || by apply Hnz).
    rewrite rd_bind, HfR, bool_decide_eq_true_2 by (done || by apply Hnz). done.
Qed.

Lemma leaf_frame h h' a s g : (forall x, x ∈ a :: g -> get h' x = get h x) -> leaf_node h a s g -> leaf_node h' a s g.
Proof.
  intros H [q Hq]. exists q. apply (shape_frame h); [|done]. intros x Hx. apply H. rewrite addrs_node in Hx. simpl in Hx. by rewrite app_nil_r in Hx.
Qed.

(** [R], a leaf by itself, takes the subtrees of [X]. *)
Lemma relink_children_ok func X XP R sR g l r s :
  leaf_node (mem s) R sR g ->
  shape (mem s) (child0 (get (mem s) X)) X l -> shape (mem s) (child1 (get (mem s) X)) X r ->
  NoDup (X :: R :: g ++ addrs l ++ addrs r) -> (forall x, x ∈ X :: R :: g ++ addrs l ++ addrs r -> usable s x) ->
  exists h', relink_children func X XP R s = Ok (tt, set_mem h' s) /\
    shape h' R XP (Node R sR g l r) /\ frame (R :: addrs l ++ addrs r) (mem s) h' /\ same_info (mem s) h'.
Proof.
  intros [q Hleaf] Hl Hr Hnd Hu. destruct Hleaf as (_ & _ & Hseg & Hring & Hc0 & Hc1). simpl in Hc0, Hc1.
  pose proof Hnd as [HX Hnd1]%NoDup_cons. apply NoDup_cons in Hnd1 as [HR Hnd1]. apply NoDup_app in Hnd1 as (Hg & Hgd & Hnd1).
  apply NoDup_app in Hnd1 as (Hndl & Hlr & Hndr). assert (HXR : X <> R) by (intros ->; inl).
  unfold relink_children. rewrite rtcheck_bind by (apply ok_address_true, Hu; inl).
  assert (HR0 : R <> 0) by (destruct (Hu R); [inl|lia]). rewrite wr_bind by done. set (h0 := upd R (set_parent XP) (mem s)).
  assert (Hs0 : forall q t, (forall x, x ∈ addrs t -> x <> R) -> shape (mem s) q X t -> shape h0 q X t)
    by (intros q' t Ht; apply shape_frame; intros x Hx; apply get_upd_ne; intros ->; by apply (Ht x)).
  assert (E0 : get h0 X = get (mem s) X) by (by apply get_upd_ne).
  destruct (adopt_ok func X R false l (set_mem h0 s)) as (h1 & Hrun1 & Hsh1 & Hfr1 & Hinf1 & Hp1 & Hf1 & Hb1 & Hc1').
  { cbn [mem set_mem child]. rewrite E0. apply Hs0; [intros x Hx ->; inl|done]. }
  { apply NoDup_cons. split; [inl|]. apply NoDup_cons. split; [inl|done]. }
  { intros x Hx. apply (Hu x). inl. }
  { cbn [mem set_mem child]. unfold h0. upds. }
  rewrite (bind_ok _ _ _ _ _ Hrun1). cbn [mem set_mem child negb] in Hsh1, Hfr1, Hinf1, Hp1, Hf1, Hb1, Hc1'.
  assert (E1 : get h1 X = get (mem s) X) by (rewrite Hfr1, E0 by inl; done).
  destruct (adopt_ok func X R true r (set_mem h1 s)) as (h2 & Hrun2 & Hsh2 & Hfr2 & Hinf2 & Hp2 & Hf2 & Hb2 & Hc2).
  { cbn [mem set_mem child]. rewrite E1. apply (shape_frame h0); [|apply Hs0; [intros x Hx ->; inl|done]].
    intros x Hx. apply Hfr1. intros [->|Hx']%elem_of_cons; [inl|by apply (Hlr x)]. }
  { apply NoDup_cons. split; [inl|]. apply NoDup_cons. split; [inl|done]. }
  { intros x Hx. apply (Hu x). inl. }
  { cbn [mem set_mem child]. rewrite Hc1'. unfold h0. upds. }
  cbn [mem set_mem child negb] in Hsh2, Hfr2, Hinf2, Hp2, Hf2, Hb2, Hc2. exists h2. split; [done|].
  assert (Hgx : forall x, x ∈ g -> get h2 x = get (mem s) x).
  { intros x Hx. assert (x <> R) by (intros ->; inl). assert (x ∉ addrs l ++ addrs r) by (intros ?; by apply (Hgd x)).
    rewrite Hfr2, Hfr1 by inl. by apply get_upd_ne. }
  split; [|split].
  - simpl. split; [done|]. split; [rewrite Hp2, Hp1; unfold h0; by rewrite get_upd_eq|]. split; [|split; [|split]].
    + apply (ring_ext (mem s)); [| |done]; intros z [->|Hz]%elem_of_cons; try (by rewrite Hgx);
        rewrite ?Hf2, ?Hf1, ?Hb2, ?Hb1; unfold h0; by rewrite get_upd_eq.
    + intros x Hx. rewrite Hgx by done. by apply Hring.
    + rewrite Hc2. apply (shape_frame h1); [|done]. intros x Hx. apply Hfr2. intros [->|Hx']%elem_of_cons; [inl|by apply (Hlr x)].
    + done.
  - apply (frame_trans _ _ h1); [apply (frame_trans _ _ h0)|]; [apply frame_upd; [left|done]|..].
    + eapply frame_mono; [|exact Hfr1]. intros x Hx. inl.
    + eapply frame_mono; [|exact Hfr2]. intros x Hx. inl.
  - transitivity h1; [transitivity h0|]; [by apply same_info_upd|done|done].
Qed.

(** ** The node that holds a chunk, and the tree around it

    [b] is the node of the tree whose ring [X] is in, [ctx] the tree around it and [rest] the
    chunks of that. In memory, [b] hangs below [q] on side [d], or is the root; a change below
    that leaves the rest of the tree alone gives the tree with the new subtree. *)
Record focused (X : Z) (t : tree) (b s : Z) (ring : list Z) (l r : tree) (ctx : tree -> tree) (rest : list (Z * Z)) : Prop := {
  foc_in : X ∈ b :: ring;
  foc_plug : ctx (Node b s ring l r) = t;
  foc_chunks u : chunks (ctx u) ≡ₚ chunks u ++ rest;
  foc_trie n hi : trie n hi t -> exists m hi', trie m hi' (Node b s ring l r) /\ forall u, trie m hi' u -> trie n hi (ctx u);
  foc_height : (height (Node b s ring l r) <= height t)%nat;
  foc_root u : root (ctx u) = if decide (root t = b) then root u else root t;
  foc_shape h par : (forall x, x ∈ addrs t -> x <> 0) -> shape h (root t) par t ->
    exists q d, shape h b q (Node b s ring l r) /\
      (root t = b /\ q = par \/
       root t <> b /\ q ∈ rest.*1 /\ child d (get h q) = b /\ child (negb d) (get h q) <> b) /\
      forall h' u, shape h' (root u) q u ->
        (forall x, x ∈ rest.*1 -> root t = b \/ x <> q -> get h' x = get h x) ->
        (root t <> b -> get h' q = set_child d (root u) (get h q)) ->
        shape h' (root (ctx u)) par (ctx u) }.

Lemma chunks_node_with e a s ring l r u : chunks (node_with e a s ring l r u) ≡ₚ chunks u ++ ((., s) <$> a :: ring) ++ chunks (side (negb e) l r).
Proof. destruct e; cbn [node_with chunks side negb]; solve_Permutation. Qed.

Lemma focused_below X e a s0 ring0 l0 r0 b s ring l r ctx rest :
  NoDup (addrs (Node a s0 ring0 l0 r0)) -> focused X (side e l0 r0) b s ring l r ctx rest ->
  focused X (Node a s0 ring0 l0 r0) b s ring l r (fun u => node_with e a s0 ring0 l0 r0 (ctx u))
    (rest ++ ((., s0) <$> a :: ring0) ++ chunks (side (negb e) l0 r0)).
Proof.
  rewrite addrs_node. intros Hnd HF. pose proof (foc_plug _ _ _ _ _ _ _ _ _ HF) as Hplug.
  set (sub := Node b s ring l r) in *.
  assert (Hap : forall x, x ∈ a :: ring0 ++ addrs (side (negb e) l0 r0) -> x ∉ addrs (side e l0 r0)).
  { apply NoDup_cons in Hnd as [Ha Hnd]. apply NoDup_app in Hnd as (_ & Hg & Hnd). apply NoDup_app in Hnd as (_ & Hlr & _).
    intros x Hx Hin. apply elem_of_cons in Hx as [->|Hx]; [apply elem_side in Hin; inl|].
    apply elem_of_app in Hx as [Hx|Hx]; [apply elem_side in Hin; by apply (Hg x)|]. destruct e; simpl in *; by apply (Hlr x). }
  assert (Hrest : forall x, x ∈ rest.*1 -> x ∈ addrs (side e l0 r0)).
  { intros x Hx. unfold addrs. rewrite <-Hplug, (foc_chunks _ _ _ _ _ _ _ _ _ HF sub), fmap_app. inl. }
  assert (Hb : b ∈ addrs (side e l0 r0)).
  { unfold addrs. rewrite <-Hplug, (foc_chunks _ _ _ _ _ _ _ _ _ HF sub), fmap_app. simpl. left. }
  assert (Hab : a <> b) by (intros ->; by apply (Hap b); [left|]).
  split.
  - apply (foc_in _ _ _ _ _ _ _ _ _ HF).
  - cbv beta. fold sub. rewrite Hplug. by destruct e.
  - intros u. rewrite chunks_node_with, (foc_chunks _ _ _ _ _ _ _ _ _ HF u). by rewrite <-app_assoc.
  - intros n hi [Hs Ht]. destruct n as [|n].
    { exfalso. destruct Ht as [-> ->]. destruct e; by apply elem_of_nil in Hb. }
    destruct Ht as [Hl Hr]. destruct (foc_trie _ _ _ _ _ _ _ _ _ HF n (if e then 2 * hi + 1 else 2 * hi)) as (m & hi' & Hm & Hm'); [by destruct e|].
    exists m, hi'. split; [done|]. intros u Hu. apply Hm' in Hu. destruct e; by repeat split.
  - pose proof (foc_height _ _ _ _ _ _ _ _ _ HF). simpl height at 2. destruct e; simpl in *; lia.
  - intros u. rewrite (decide_False (P := root _ = b)) by done. by destruct e.
  - intros h par Hnz Hsh. rewrite addrs_node in Hnz. pose proof Hsh as (_ & Hp & Hseg & Hring & Hl & Hr).
    assert (Hse : shape h (child e (get h a)) a (side e l0 r0)) by (by destruct e).
    assert (Hso : shape h (child (negb e) (get h a)) a (side (negb e) l0 r0)) by (by destruct e).
    pose proof (shape_root _ _ _ _ Hse) as Ee. pose proof (shape_root _ _ _ _ Hso) as Eo. rewrite Ee in Hse.
    destruct (foc_shape _ _ _ _ _ _ _ _ _ HF h a) as (q & d & Hsub & Hq & Hwand); [intros x Hx%elem_side; apply Hnz; inl|done|].
    assert (Hob : child (negb e) (get h a) <> b).
    { rewrite Eo. intros E. destruct (side (negb e) l0 r0) as [|c sc rc lc rr] eqn:Es; simpl in E.
      - apply (Hnz b); [apply elem_side in Hb; inl|done].
      - subst c. apply (Hap b); [|done]. rewrite addrs_node. inl. }
    assert (Hcases : root (side e l0 r0) = b /\ q = a \/ root (side e l0 r0) <> b /\ q ∈ rest.*1 /\ q <> a).
    { destruct Hq as [[? ->]|(H1 & H2 & _)]; [by left|]. right. split; [done|]. split; [done|]. intros ->. apply (Hap a); [left|by apply Hrest]. }
    exists q, (if decide (root (side e l0 r0) = b) then e else d). split; [done|]. split.
    + right. split; [done|]. rewrite fmap_app. case_decide as E.
      * destruct Hcases as [[_ ->]|[? _]]; [|done]. split; [cbn; inl|]. by rewrite Ee.
      * destruct Hq as [[? _]|(_ & H2 & H3 & H4)]; [done|]. split; [inl|done].
    + intros h' u Hu Hout Hqch. specialize (Hqch Hab).
      assert (Hsub' : shape h' (root (ctx u)) a (ctx u)).
      { apply Hwand; [done| |].
        - intros x Hx Hx'. apply Hout; [rewrite fmap_app; inl|right]. destruct Hcases as [[_ ->]|(? & _ & _)]; [|tauto].
          intros ->. apply (Hap a); [left|by apply Hrest].
        - intros Hne. by rewrite decide_False in Hqch. }
      assert (Hrest' : forall x, x ∈ a :: ring0 ++ addrs (side (negb e) l0 r0) -> x <> q -> get h' x = get h x).
      { intros x Hx Hxq. apply Hout; [|by right]. rewrite !fmap_app. rewrite <-list_fmap_compose, (list_fmap_id (a :: ring0) : (fst ∘ (., s0)) <$> a :: ring0 = _).
        unfold addrs in Hx. inl. }
      replace (root (node_with e a s0 ring0 l0 r0 (ctx u))) with a by (by destruct e).
      assert (Hc : child e (get h' a) = root (ctx u)).
      { rewrite (foc_root _ _ _ _ _ _ _ _ _ HF u). case_decide as E.
        - destruct Hcases as [[_ ->]|[? _]]; [|done]. rewrite Hqch. by destruct e.
        - destruct Hcases as [[? _]|(_ & _ & Hqa)]; [done|]. rewrite Hrest' by (done || left). done. }
      apply (shape_swap h); try done.
      1: { intros x Hx. apply Hrest'; [by right|]. intros ->. destruct Hcases as [[_ ->]|(_ & Hin & _)].
           - apply NoDup_cons in Hnd as [Ha _]. apply elem_of_app in Hx as [Hx|Hx%elem_side]; inl.
           - apply (Hap q); [by right|by apply Hrest]. }
      5: { by rewrite Hc. }
      all: destruct Hcases as [[E ->]|(E & _ & Hqa)];
        [rewrite Hqch, decide_True by done; by destruct e|by rewrite Hrest' by (done || left)].
Qed.

Lemma focus X t : NoDup (addrs t) -> X ∈ addrs t -> exists b s ring l r ctx rest, focused X t b s ring l r ctx rest.
Proof.
  induction t as [|a s0 ring0 l0 IHl r0 IHr]; intros Hnd Hin; [by apply elem_of_nil in Hin|].
  destruct (decide (X ∈ a :: ring0)) as [Hhere|Hbelow].
  - exists a, s0, ring0, l0, r0, id, []. split; try done.
    + intros u. by rewrite app_nil_r.
    + intros n hi Ht. by exists n, hi.
    + intros u. by rewrite decide_True.
    + intros h par _ Hsh. exists par, false. split; [done|]. split; [by left|]. intros h' u Hu _ _. done.
  - pose proof Hnd as Hnd'. rewrite addrs_node in Hin, Hnd'. apply NoDup_cons in Hnd' as [_ Hnd']. apply NoDup_app in Hnd' as (_ & _ & Hnd').
    apply NoDup_app in Hnd' as (Hl & _ & Hr). assert (X ∈ addrs l0 \/ X ∈ addrs r0) as [Hx|Hx] by inl.
    + destruct (IHl Hl Hx) as (b & s & ring & l & r & ctx & rest & HF). do 7 eexists. by apply (focused_below X false).
    + destruct (IHr Hr Hx) as (b & s & ring & l & r & ctx & rest & HF). do 7 eexists. by apply (focused_below X true).
Qed.

(** ** Unlinking from the tree of a bin *)
Definition set_tree (i p m : Z) (g : malloc_state) : malloc_state := set_treemap m (set_treebin i p g).
Definition empty_tree (t : tree) : bool := match t with Leaf => true | _ => false end.

Lemma set_tree_same i g p : treebins g !! Z.to_nat i = Some p -> set_tree i p (treemap g) g = g.
Proof. intros H. unfold set_tree, set_treemap, set_treebin. cbn. rewrite list_insert_id by done. by destruct g. Qed.

Record tree_at (gm_addr : Z) (s : dl_st) (i : Z) (t : tree) : Prop := {
  ta_bin : 0 <= i;
  ta_slot : treebins (gm s) !! Z.to_nat i = Some (root t);
  ta_shape : shape (mem s) (root t) (treebin_slot gm_addr i) t;
  ta_nodup : NoDup (addrs t);
  ta_usable x : x ∈ addrs t -> usable s x;
  ta_index x : x ∈ addrs t -> index (get (mem s) x) = i;
  ta_height : (height t <= TREE_FUEL)%nat }.

(** What may stand for [X]: a chunk by itself that takes the trees below [X]. *)
Definition replacement (h : heap) (X : Z) (u : tree) : Prop :=
  match u with
  | Leaf => True
  | Node R sR g l r => leaf_node h R sR g /\ shape h (child0 (get h X)) X l /\ shape h (child1 (get h X)) X r
  end.

Lemma replacement_frame h h' X u : (forall x, x ∈ X :: addrs u -> get h' x = get h x) -> replacement h X u -> replacement h' X u.
Proof.
  intros H. destruct u as [|R sR g l r]; [done|]. rewrite addrs_node in H. intros (H1 & H2 & H3). simpl.
  rewrite (H X) by left. split; [|split].
  - apply (leaf_frame h); [|done]. intros x Hx. apply H. inl.
  - apply (shape_frame h); [|done]. intros x Hx. apply H. inl.
  - apply (shape_frame h); [|done]. intros x Hx. apply H. inl.
Qed.

Section unlink.
Context (gm_addr : Z) (func : string) (Hgm : 0 < gm_addr).

(** The part of [unlink_large_chunk] after [R] is chosen. *)
Definition relink (X XP R : Z) : cmd dl_st unit :=
  if decide (XP <> 0) then
    _ ← relink_parent gm_addr func X XP R;
    if decide (R <> 0) then relink_children func X XP R else mret tt
  else mret tt.

Lemma relink_parent_ok X R s i t q d :
  treebins (gm s) !! Z.to_nat i = Some (root t) -> index (get (mem s) X) = i -> X <> 0 ->
  root t = X \/ root t <> X /\ usable s q /\ child d (get (mem s) q) = X /\ child (negb d) (get (mem s) q) <> X ->
  relink_parent gm_addr func X q R s =
    Ok (tt, if decide (root t = X)
            then mkDl (set_tree i R (if decide (R = 0) then clear_map (treemap (gm s)) i else treemap (gm s)) (gm s)) (mem s)
            else set_mem (upd q (set_child d R) (mem s)) s).
Proof.
  intros Hs Hi HX Hc. unfold relink_parent. rewrite rd_bind, Hi by done.
  unfold treebin_at. rewrite bind_assoc. change (get_st ≫= ?k) with (fun s => k s s). cbv beta.
  unfold lift_opt at 1. rewrite Hs. rewrite ret_bind. destruct Hc as [Hr|(Hr & [Hq Hle] & Hd & Hd')].
  - rewrite (decide_True (P := X = root t)), (decide_True (P := root t = X)) by done. rewrite modify_bind.
    case_decide; [unfold modify|unfold mret, cmd_ret]; do 2 f_equal; destruct (gm s); done.
  - rewrite (decide_False (P := X = root t)), (decide_False (P := root t = X)) by congruence.
    rewrite rtcheck_bind by (by apply ok_address_true). rewrite rd_bind by lia.
    destruct d; cbn [child negb] in Hd, Hd'; [rewrite decide_False by done|rewrite decide_True by done]; by apply wr_ok; lia.
Qed.

(** A replacement takes its place under [q]. *)
Lemma replace_ok X q u s : replacement (mem s) X u -> u <> Leaf -> NoDup (X :: addrs u) -> (forall x, x ∈ X :: addrs u -> usable s x) ->
  exists h', relink_children func X q (root u) s = Ok (tt, set_mem h' s) /\
    shape h' (root u) q u /\ frame (addrs u) (mem s) h' /\ same_info (mem s) h'.
Proof.
  destruct u as [|R sR g l r]; [done|]. rewrite addrs_node. intros (Hleaf & Hl & Hr) _ Hnd Hu.
  destruct (relink_children_ok func X q R sR g l r s Hleaf Hl Hr Hnd Hu) as (h' & Hrun & Hsh & Hfr & Hinf).
  exists h'. split; [done|]. split; [done|]. split; [|done]. eapply frame_mono; [|exact Hfr]. intros x Hx. inl.
Qed.

Lemma root_leaf t : (forall x, x ∈ addrs t -> x <> 0) -> (root t = 0 <-> t = Leaf).
Proof.
  destruct t as [|a s ring l r]; [done|]. rewrite addrs_node. intros H. simpl. split; [|done]. intros ->. by destruct (H 0); [left|].
Qed.

Lemma relink_ok X s i t sX ring l r ctx rest h1 u :
  tree_at gm_addr s i t -> focused X t X sX ring l r ctx rest ->
  frame (X :: ring ++ addrs l ++ addrs r) (mem s) h1 -> same_info (mem s) h1 ->
  replacement h1 X u -> NoDup (X :: addrs u) -> (forall x, x ∈ addrs u -> x ∈ ring ++ addrs l ++ addrs r) ->
  exists h', relink X (parent (get (mem s) X)) (root u) (set_mem h1 s) =
      Ok (tt, mkDl (set_tree i (root (ctx u)) (if empty_tree (ctx u) then clear_map (treemap (gm s)) i else treemap (gm s)) (gm s)) h') /\
    shape h' (root (ctx u)) (treebin_slot gm_addr i) (ctx u) /\ frame (addrs t) (mem s) h' /\ same_info (mem s) h'.
Proof.
  intros [Hi Hslot Hshape Hnd Hu Hidx Hheight] HF Hfr1 Hinf1 Hrep Hndu Hsubu.
  assert (Hnz : forall x, x ∈ addrs t -> x <> 0) by (intros x Hx; destruct (Hu x Hx); lia).
  assert (Eaddrs : forall v x, x ∈ addrs (ctx v) <-> x ∈ addrs v \/ x ∈ rest.*1).
  { intros v x. unfold addrs. rewrite (foc_chunks _ _ _ _ _ _ _ _ _ HF v), fmap_app. apply elem_of_app. }
  pose proof (foc_plug _ _ _ _ _ _ _ _ _ HF) as Hplug. set (sub := Node X sX ring l r) in *.
  assert (Hsub : forall x, x ∈ addrs sub <-> x ∈ X :: ring ++ addrs l ++ addrs r) by (intros x; unfold sub; by rewrite addrs_node).
  assert (Hint : forall x, x ∈ addrs sub -> x ∈ addrs t) by (intros x Hx; rewrite <-Hplug, Eaddrs; by left).
  assert (Hrest : forall x, x ∈ rest.*1 -> x ∈ addrs t /\ x ∉ addrs sub).
  { intros x Hx. split; [rewrite <-Hplug, Eaddrs; by right|]. intros Hin.
    assert (Hnd2 : NoDup (addrs sub ++ rest.*1)).
    { unfold addrs. rewrite <-fmap_app, <-(foc_chunks _ _ _ _ _ _ _ _ _ HF sub), Hplug. done. }
    apply NoDup_app in Hnd2 as (_ & Hd & _). by apply (Hd x). }
  assert (HX : X ∈ addrs sub) by (apply Hsub; left).
  destruct (foc_shape _ _ _ _ _ _ _ _ _ HF (mem s) _ Hnz Hshape) as (q & d & Hshq & Hq & Hwand).
  assert (Hpar : parent (get (mem s) X) = q) by (by destruct Hshq as (_ & ? & _)). rewrite Hpar.
  assert (Hqd : root t = X /\ q = treebin_slot gm_addr i \/ root t <> X /\ usable s q /\ child d (get h1 q) = X /\ child (negb d) (get h1 q) <> X).
  { destruct Hq as [?|(H1 & H2%Hrest & H3 & H4)]; [by left|]. right. split; [done|]. split; [apply Hu; tauto|].
    rewrite Hfr1; [done|]. rewrite <-Hsub. tauto. }
  assert (Hq0 : q <> 0) by (destruct Hqd as [[_ ->]|(_ & [? _] & _)]; [unfold treebin_slot|]; lia).
  assert (Hnzc : forall x, x ∈ addrs (ctx u) -> x <> 0).
  { intros x [Hx|Hx]%Eaddrs; apply Hnz; [apply Hint, Hsub; right; by apply Hsubu|by apply Hrest]. }
  assert (Hroot0 : root u = 0 <-> u = Leaf).
  { apply root_leaf. intros x Hx. apply Hnzc, Eaddrs. by left. }
  pose proof (foc_root _ _ _ _ _ _ _ _ _ HF u) as Hctx.
  unfold relink. rewrite decide_True by done.
  rewrite (bind_ok _ _ _ _ _ (relink_parent_ok X (root u) (set_mem h1 s) i t q d Hslot
    ltac:(destruct (Hinf1 X) as (_ & E & _); cbn [mem set_mem]; rewrite E; by apply Hidx, Hint) (Hnz X (Hint X HX))
    ltac:(cbn [mem set_mem]; destruct Hqd as [[? _]|?]; [by left|by right]))).
  set (s2 := if decide (root t = X) then _ else _).
  assert (Hs2 : exists h2, s2 = mkDl (set_tree i (root (ctx u)) (if empty_tree (ctx u) then clear_map (treemap (gm s)) i else treemap (gm s)) (gm s)) h2 /\
    (forall x, x ∉ addrs sub -> root t = X \/ x <> q -> get h2 x = get (mem s) x) /\
    (root t <> X -> get h2 q = set_child d (root u) (get (mem s) q)) /\
    replacement h2 X u /\ same_info (mem s) h2 /\ frame (addrs t) (mem s) h2).
  { assert (Hfrt : frame (addrs t) (mem s) h1).
    { eapply frame_mono; [|exact Hfr1]. intros x Hx%Hsub. by apply Hint. }
    assert (Hemp : empty_tree (ctx u) = bool_decide (root (ctx u) = 0)).
    { pose proof (root_leaf (ctx u) Hnzc) as Hl. destruct (ctx u); simpl in *; [done|]. rewrite bool_decide_eq_false_2; [done|]. intros ?%Hl. done. }
    unfold s2. destruct (decide (root t = X)) as [Er|Er].
    - exists h1. split; [|split; [|split; [done|split; [done|by split]]]].
      + cbn [mem set_mem gm]. f_equal. rewrite Hemp, Hctx. by destruct (decide (root u = 0)); [rewrite bool_decide_eq_true_2|rewrite bool_decide_eq_false_2].
      + intros x Hx _. apply Hfr1. by rewrite <-Hsub.
    - destruct Hq as [[? _]|(_ & Hqr%Hrest & _ & _)]; [done|]. exists (upd q (set_child d (root u)) h1).
      assert (Eq : get h1 q = get (mem s) q) by (apply Hfr1; rewrite <-Hsub; tauto).
      split; [|split; [|split; [|split; [|split]]]].
      + unfold set_mem. cbn [gm mem]. f_equal. rewrite Hemp, Hctx, bool_decide_eq_false_2; [by rewrite set_tree_same|].
        apply Hnz. destruct t as [|a ? ? ? ?]; [by apply elem_of_nil in Hqr as [? _] || (destruct Hqr as [?%elem_of_nil _])|]. simpl. rewrite addrs_node. left.
      + intros x Hx [?|Hxq]; [done|]. rewrite get_upd_ne by done. apply Hfr1. by rewrite <-Hsub.
      + intros _. by rewrite get_upd_eq, Eq.
      + apply (replacement_frame h1); [|done]. intros x Hx. apply get_upd_ne. intros ->. apply (proj2 Hqr), Hsub.
        apply elem_of_cons in Hx as [->|Hx]; [left|right; by apply Hsubu].
      + apply same_info_upd; [destruct d; done|done].
      + apply frame_upd; tauto. }
  destruct Hs2 as (h2 & -> & Hout & Hqch & Hrep2 & Hinf2 & Hfr2).
  assert (Hfin : forall h', shape h' (root u) q u -> frame (addrs u) h2 h' -> shape h' (root (ctx u)) (treebin_slot gm_addr i) (ctx u)).
  { intros h' Hsh Hfr. assert (Hrx : forall x, x ∈ rest.*1 -> x ∉ addrs u).
    { intros x Hx Hin. apply (proj2 (Hrest x Hx)), Hsub. right. by apply Hsubu. }
    apply Hwand; [done| |].
    - intros x Hx Hxq. rewrite Hfr by (by apply Hrx). apply Hout; [by apply Hrest|done].
    - intros Hne. rewrite Hfr; [by apply Hqch|]. destruct Hq as [[? _]|(_ & ? & _)]; [done|by apply Hrx]. }
  destruct (decide (root u <> 0)) as [HR|HR].
  - set (s2 := mkDl _ h2). destruct (replace_ok X q u s2) as (h' & Hrun & Hsh & Hfr & Hinf); try done.
    + intros ->. by apply HR.
    + intros x Hx. apply (Hu x), Hint, Hsub. apply elem_of_cons in Hx as [->|Hx]; [left|right; by apply Hsubu].
    + exists h'. rewrite Hrun. split; [done|]. split; [by apply Hfin|]. split.
      * apply (frame_trans _ _ h2); [done|]. eapply frame_mono; [|exact Hfr]. intros x Hx. apply Hint, Hsub. right. by apply Hsubu.
      * by transitivity h2.
  - exists h2. split; [done|]. split; [|done]. apply Hfin; [|done]. assert (u = Leaf) as -> by (apply Hroot0; destruct (decide (root u = 0)); tauto). done.
Qed.

(** What an unlinking establishes: the tree [t'] without [X]. *)
Definition unlinked (X : Z) (s : dl_st) (i : Z) (t : tree) (r : res (unit * dl_st)) : Prop :=
  exists t' h', r = Ok (tt, mkDl (set_tree i (root t') (if empty_tree t' then clear_map (treemap (gm s)) i else treemap (gm s)) (gm s)) h') /\
    shape h' (root t') (treebin_slot gm_addr i) t' /\ (exists sX, chunks t ≡ₚ (X, sX) :: chunks t') /\
    (forall n hi, trie n hi t -> trie n hi t') /\ frame (addrs t) (mem s) h' /\ same_info (mem s) h'.

Lemma promote_chunks l r a sz g l' r' : promote l r = Some (a, sz, g, l', r') ->
  chunks l ++ chunks r ≡ₚ ((., sz) <$> a :: g) ++ chunks l' ++ chunks r'.
Proof.
  unfold promote. destruct (pull r) as [[[[a1 s1] g1] r1]|] eqn:Er.
  - intros [= -> -> -> <- <-]. rewrite (pull_chunks _ _ _ _ _ Er). solve_Permutation.
  - apply pull_none in Er as ->. destruct (pull l) as [[[[a1 s1] g1] l1]|] eqn:El; [|done].
    intros [= -> -> -> <- <-]. rewrite (pull_chunks _ _ _ _ _ El). simpl. by rewrite !app_nil_r.
Qed.

Lemma promote_trie n hi X sX ring l r a sz g l' r' : trie n hi (Node X sX ring l r) -> promote l r = Some (a, sz, g, l', r') ->
  trie n hi (Node a sz g l' r').
Proof.
  intros Ht Hp. assert (Hin : (a, sz) ∈ chunks (Node X sX ring l r)).
  { cbn [chunks]. rewrite (promote_chunks _ _ _ _ _ _ _ Hp). simpl. inl. }
  split; [by eapply trie_prefix|]. destruct Ht as [_ Ht]. unfold promote in Hp.
  destruct (pull r) as [[[[a1 s1] g1] r1]|] eqn:Er.
  - injection Hp as -> -> -> <- <-. destruct n as [|n]; [by destruct Ht as [_ ->]|]. destruct Ht. split; [done|]. by eapply pull_trie.
  - destruct (pull l) as [[[[a1 s1] g1] l1]|] eqn:El; [|done].
    injection Hp as -> -> -> <- <-. destruct n as [|n]; [by destruct Ht as [-> _]|]. destruct Ht. split; [by eapply pull_trie|done].
Qed.

(** Once [R] and the memory are chosen: the base case of all the ways out of a tree. *)
Lemma unlinked_base X s i t sX ring l r ctx rest h1 u :
  tree_at gm_addr s i t -> focused X t X sX ring l r ctx rest ->
  (if decide (bk (get (mem s) X) <> X) then unchain func X else take_leaf func X) s = Ok (root u, set_mem h1 s) ->
  frame (X :: ring ++ addrs l ++ addrs r) (mem s) h1 -> same_info (mem s) h1 -> replacement h1 X u ->
  (chunks (Node X sX ring l r) ≡ₚ (X, sX) :: chunks u) ->
  (forall n hi, trie n hi (Node X sX ring l r) -> trie n hi u) ->
  unlinked X s i t (unlink_large_chunk gm_addr func X s).
Proof.
  intros Hat HF Hrun Hfr Hinf Hrep Hperm Htrie. set (sub := Node X sX ring l r) in *.
  pose proof (foc_plug _ _ _ _ _ _ _ _ _ HF) as Hplug. fold sub in Hplug.
  assert (Hin : X ∈ addrs t).
  { unfold addrs. rewrite <-Hplug, (foc_chunks _ _ _ _ _ _ _ _ _ HF sub), fmap_app. simpl. left. }
  assert (HX : X <> 0) by (destruct (ta_usable _ _ _ _ Hat X Hin); lia).
  assert (Haddrs : addrs sub ≡ₚ X :: addrs u) by (unfold addrs; by rewrite Hperm).
  assert (Hndu : NoDup (X :: addrs u)).
  { rewrite <-Haddrs. pose proof (ta_nodup _ _ _ _ Hat) as Hnd. unfold addrs in Hnd.
    rewrite <-Hplug, (foc_chunks _ _ _ _ _ _ _ _ _ HF sub), fmap_app in Hnd. by apply NoDup_app in Hnd as [? _]. }
  destruct (relink_ok X s i t sX ring l r ctx rest h1 u) as (h' & Hrel & Hsh & Hfr' & Hinf'); try done.
  { intros x Hx. assert (Hx' : x ∈ addrs sub) by (rewrite Haddrs; by right). unfold sub in Hx'. rewrite addrs_node in Hx'.
    apply elem_of_cons in Hx' as [->|?]; [|done]. by apply NoDup_cons in Hndu as [? _]. }
  exists (ctx u), h'. split.
  - unfold unlink_large_chunk. rewrite !rd_bind by done. rewrite (bind_ok _ _ _ _ _ Hrun). exact Hrel.
  - split; [done|]. split; [|split; [|done]].
    + exists sX. rewrite <-Hplug, (foc_chunks _ _ _ _ _ _ _ _ _ HF sub), Hperm, (foc_chunks _ _ _ _ _ _ _ _ _ HF u). done.
    + intros n hi Ht. destruct (foc_trie _ _ _ _ _ _ _ _ _ HF n hi Ht) as (m & hi' & Hm & Hm'). by apply Hm', Htrie.
Qed.

Section cases.
Context (X : Z) (s : dl_st) (i : Z) (t : tree) (b sb : Z) (ring : list Z) (l r : tree).
Context (ctx : tree -> tree) (rest : list (Z * Z)) (Hat : tree_at gm_addr s i t) (HF : focused X t b sb ring l r ctx rest).

Lemma focused_addrs x : x ∈ b :: ring ++ addrs l ++ addrs r -> x ∈ addrs t.
Proof.
  intros Hx. unfold addrs. rewrite <-(foc_plug _ _ _ _ _ _ _ _ _ HF), (foc_chunks _ _ _ _ _ _ _ _ _ HF _), fmap_app.
  apply elem_of_app. left. by rewrite <-addrs_node with (s := sb) in Hx.
Qed.

Lemma focused_nodup : NoDup (b :: ring ++ addrs l ++ addrs r) /\ forall x, x ∈ rest.*1 -> x ∈ addrs t /\ x ∉ b :: ring ++ addrs l ++ addrs r.
Proof.
  pose proof (ta_nodup _ _ _ _ Hat) as Hnd. unfold addrs in Hnd.
  rewrite <-(foc_plug _ _ _ _ _ _ _ _ _ HF), (foc_chunks _ _ _ _ _ _ _ _ _ HF _), fmap_app in Hnd.
  fold (addrs (Node b sb ring l r)) in Hnd. rewrite addrs_node in Hnd.
  apply NoDup_app in Hnd as (H1 & H2 & _). split; [done|]. intros x Hx. split; [|intros Hin; by apply (H2 x)].
  unfold addrs. rewrite <-(foc_plug _ _ _ _ _ _ _ _ _ HF), (foc_chunks _ _ _ _ _ _ _ _ _ HF _), fmap_app. inl.
Qed.

Lemma focused_shape : exists q, shape (mem s) b q (Node b sb ring l r).
Proof.
  destruct (foc_shape _ _ _ _ _ _ _ _ _ HF (mem s) (treebin_slot gm_addr i)) as (q & d & H & _); [|by destruct Hat|by exists q].
  intros x Hx. destruct (ta_usable _ _ _ _ Hat x Hx). lia.
Qed.

(** [X] hangs in the ring of another chunk. *)
Lemma unlinked_ring : X <> b -> unlinked X s i t (unlink_large_chunk gm_addr func X s).
Proof.
  intros HXb. assert (Hring : X ∈ ring) by (pose proof (foc_in _ _ _ _ _ _ _ _ _ HF); inl).
  apply list_elem_of_split in Hring as (l1 & l2 & Er). destruct focused_nodup as [Hnd Hrest].
  assert (Hnz : forall x, x ∈ addrs t -> x <> 0) by (intros x Hx; destruct (ta_usable _ _ _ _ Hat x Hx); lia).
  destruct (foc_shape _ _ _ _ _ _ _ _ _ HF (mem s) _ Hnz (ta_shape _ _ _ _ Hat)) as (q & d & Hsub & Hq & Hwand).
  pose proof Hsub as (_ & Hpar & Hseg & Hringp & Hl & Hr). rewrite Er in Hseg.
  assert (HX : X <> 0) by (apply Hnz, focused_addrs; rewrite Er; inl).
  assert (HpX : parent (get (mem s) X) = 0) by (apply Hringp; rewrite Er; inl).
  assert (Hndr : NoDup (b :: l1 ++ X :: l2)).
  { change (b :: ring ++ addrs l ++ addrs r) with ((b :: ring) ++ addrs l ++ addrs r) in Hnd. rewrite Er in Hnd. by apply NoDup_app in Hnd as [? _]. }
  assert (Hb : b ∉ l1 ++ X :: l2) by (by apply NoDup_cons in Hndr as [? _]).
  pose proof (unchain_ok func X s b l1 l2 Hseg) as Hrun. cbv zeta in Hrun. set (F := hd_or b l2) in *. set (R := last_or b l1) in *.
  assert (HFin : F ∈ b :: ring) by (rewrite Er; unfold F; destruct l2; simpl; inl).
  assert (HRin : R ∈ b :: ring) by (rewrite Er; unfold R; destruct l1 using rev_ind; [left|rewrite last_or_snoc; inl]).
  assert (HRX : R <> X).
  { unfold R. destruct l1 as [|z l1 _] using rev_ind; [done|]. rewrite last_or_snoc. intros ->.
    apply NoDup_cons in Hndr as [_ Hndr]. apply NoDup_app in Hndr as (_ & Hd & _). apply (Hd X); inl. }
  assert (HbX : bk (get (mem s) X) = R).
  { apply ring_app in Hseg as [H1 _]. by apply seg_last in H1. }
  set (h1 := unchained F R (mem s)) in *. set (u := Node b sb (l1 ++ l2) l r).
  assert (Hout : forall x, x ∉ b :: ring -> get h1 x = get (mem s) x) by (by apply unchained_frame).
  assert (Happ : forall x, x ∈ addrs l ++ addrs r -> x ∉ b :: ring).
  { change (b :: ring ++ addrs l ++ addrs r) with ((b :: ring) ++ addrs l ++ addrs r) in Hnd. apply NoDup_app in Hnd as (_ & Hd & _).
    intros x Hx Hin. by apply (Hd x). }
  assert (Hshu : shape h1 b q u).
  { assert (Hlinks : forall x, parent (get h1 x) = parent (get (mem s) x) /\ (forall e, child e (get h1 x) = child e (get (mem s) x))) by (intros; apply unchained_links).
    split; [done|]. split; [destruct (Hlinks b) as [-> _]; done|]. split; [|split; [|split]].
    - apply (seg_remove (mem s) h1 b l1 X l2 b F R); try done; [apply unchained_fd|apply unchained_bk|by apply NoDup_cons in Hndr as [_ ?]].
    - intros x Hx. destruct (Hlinks x) as [-> Hc]. rewrite (Hc false : child0 _ = _), (Hc true : child1 _ = _). apply Hringp. rewrite Er. inl.
    - rewrite (proj2 (Hlinks b) false : child0 _ = _). apply (shape_frame (mem s)); [|done]. intros x Hx. apply Hout, Happ. inl.
    - rewrite (proj2 (Hlinks b) true : child1 _ = _). apply (shape_frame (mem s)); [|done]. intros x Hx. apply Hout, Happ. inl. }
  assert (Hroot : root (ctx u) = root t).
  { rewrite (foc_root _ _ _ _ _ _ _ _ _ HF u). case_decide; done. }
  assert (Hne : ctx u <> Leaf).
  { intros E. rewrite E in Hroot. symmetry in Hroot. apply (root_leaf t Hnz) in Hroot.
    assert (Hbt : b ∈ addrs t) by (apply focused_addrs; left). rewrite Hroot in Hbt. by apply elem_of_nil in Hbt. }
  assert (Hgetq : root t <> b -> get h1 q = get (mem s) q).
  { destruct Hq as [[? _]|(_ & Hin%Hrest & _)]; [done|]. intros _. apply Hout. intros Hx. apply Hin. inl. }
  exists (ctx u), h1. split; [|split; [|split; [|split; [|split]]]].
  - unfold unlink_large_chunk. rewrite !rd_bind, HbX, decide_True by done.
    rewrite (bind_ok _ _ _ R (set_mem h1 s)); [|apply Hrun; intros x Hx; apply (ta_usable _ _ _ _ Hat), focused_addrs; rewrite Er; inl].
    rewrite HpX, decide_False by tauto. rewrite Hroot. replace (empty_tree (ctx u)) with false by (by destruct (ctx u)).
    rewrite set_tree_same by apply (ta_slot _ _ _ _ Hat). done.
  - apply Hwand; [done| |].
    + intros x Hx _. apply Hout. apply Hrest in Hx. intros ?. apply (proj2 Hx). inl.
    + intros Hnb. rewrite Hgetq by done. destruct Hq as [[? _]|(_ & _ & Hd & _)]; [done|]. simpl root. rewrite <-Hd.
      destruct (get (mem s) q), d; done.
  - exists sb. rewrite <-(foc_plug _ _ _ _ _ _ _ _ _ HF), (foc_chunks _ _ _ _ _ _ _ _ _ HF u), (foc_chunks _ _ _ _ _ _ _ _ _ HF (Node b sb ring l r)).
    cbn [chunks u]. rewrite Er, !fmap_cons, !fmap_app, fmap_cons. solve_Permutation.
  - intros n hi Ht. destruct (foc_trie _ _ _ _ _ _ _ _ _ HF n hi Ht) as (m & hi' & Hm & Hm'). by apply Hm'.
  - unfold h1. apply unchained_frame; apply focused_addrs; inl.
  - apply unchained_info.
Qed.

End cases.

(** [X] is a node; the chunk before it in its ring takes its place. *)
Lemma unlinked_chain X s i t sX last init l r ctx rest :
  tree_at gm_addr s i t -> focused X t X sX (init ++ [last]) l r ctx rest ->
  unlinked X s i t (unlink_large_chunk gm_addr func X s).
Proof.
  intros Hat HF. pose proof (focused_nodup X s i t X sX (init ++ [last]) l r ctx rest Hat HF) as [Hnd _].
  destruct (focused_shape X s i t X sX (init ++ [last]) l r ctx rest Hat HF) as (q & Hsub).
  pose proof Hsub as (_ & _ & Hseg & Hring & Hl & Hr).
  assert (Hu : forall x, x ∈ X :: (init ++ [last]) ++ addrs l ++ addrs r -> usable s x).
  { intros x Hx. by eapply ta_usable, focused_addrs. }
  assert (Hseg' : seg (mem s) last ([] ++ X :: init) last).
  { apply ring_app in Hseg as [H1 H2]. simpl in H2. apply (ring_app _ last [] X init last). split; [exact H2|exact H1]. }
  pose proof Hnd as [HXn Hnd1]%NoDup_cons. apply NoDup_app in Hnd1 as (Hndr & Happ & _).
  assert (Hlast : last ∉ init /\ NoDup init) by (apply NoDup_app in Hndr as (? & Hd & _); split; [intros ?; apply (Hd last); [done|left]|done]).
  assert (HlX : last <> X) by (intros ->; inl).
  pose proof (unchain_ok func X s last [] init Hseg') as Hrun. cbv zeta in Hrun. simpl last_or in Hrun.
  set (F := hd_or last init) in *. set (h1 := unchained F last (mem s)) in *.
  assert (HF' : F ∈ init ++ [last]) by (unfold F; destruct init; simpl; inl).
  assert (Hout : forall x, x ∉ init ++ [last] -> get h1 x = get (mem s) x) by (apply unchained_frame; [done|inl]).
  assert (HbX : bk (get (mem s) X) = last) by (simpl in Hseg'; tauto).
  apply (unlinked_base X s i t sX (init ++ [last]) l r ctx rest h1 (Node last sX init l r)); try done.
  - rewrite HbX, decide_True by done. apply Hrun. intros x Hx. apply Hu. simpl in Hx. inl.
  - apply unchained_frame; inl.
  - apply unchained_info.
  - assert (EX : get h1 X = get (mem s) X) by (apply Hout; inl).
    split; [|split].
    + exists 0. assert (Hlinks : forall x, parent (get h1 x) = parent (get (mem s) x) /\ (forall e, child e (get h1 x) = child e (get (mem s) x))) by (intros; apply unchained_links).
      assert (Hz : forall x, x ∈ init ++ [last] -> parent (get h1 x) = 0 /\ child0 (get h1 x) = 0 /\ child1 (get h1 x) = 0).
      { intros x Hx. destruct (Hlinks x) as [-> Hc]. rewrite (Hc false : child0 _ = _), (Hc true : child1 _ = _). by apply Hring. }
      destruct (Hz last) as (? & ? & ?); [inl|]. split; [done|]. split; [done|]. split; [|split; [intros x Hx; apply Hz; inl|done]].
      apply (seg_remove (mem s) h1 last [] X init last F last); try done; [apply unchained_fd|apply unchained_bk| | |].
      * apply NoDup_cons. split; [intros ?; inl|tauto].
      * simpl. inl.
      * simpl. inl.
    + rewrite EX. apply (shape_frame (mem s)); [|done]. intros x Hx. apply Hout. intros Hin. apply (Happ x Hin). inl.
    + rewrite EX. apply (shape_frame (mem s)); [|done]. intros x Hx. apply Hout. intros Hin. apply (Happ x Hin). inl.
  - cbn [chunks]. rewrite !fmap_cons, !fmap_app. simpl. solve_Permutation.
Qed.

(** [X] is alone of its size: a leaf below it takes its place, if there is one. *)
Lemma unlinked_alone X s i t sX l r ctx rest :
  tree_at gm_addr s i t -> focused X t X sX [] l r ctx rest ->
  unlinked X s i t (unlink_large_chunk gm_addr func X s).
Proof.
  intros Hat HF. pose proof (focused_nodup X s i t X sX [] l r ctx rest Hat HF) as [Hnd _]. simpl in Hnd.
  destruct (focused_shape X s i t X sX [] l r ctx rest Hat HF) as (q & Hsub).
  assert (Hu : forall x, x ∈ X :: addrs l ++ addrs r -> usable s x) by (intros x Hx; by eapply ta_usable, focused_addrs).
  assert (HX : X <> 0) by (destruct (Hu X); [left|lia]).
  assert (HbX : bk (get (mem s) X) = X) by (destruct Hsub as (_ & _ & Hseg & _); simpl in Hseg; tauto).
  pose proof (foc_height _ _ _ _ _ _ _ _ _ HF) as Hh. pose proof (ta_height _ _ _ _ Hat) as Hh'. simpl height at 1 in Hh.
  destruct (promote l r) as [[[[[a sz] g] l'] r']|] eqn:Ep.
  - destruct (take_leaf_ok func X s sX q l r a sz g l' r') as (o & d & Hrun & Ho & Hoa & Hleaf & Hsh); try done; [lia|lia|].
    assert (HaX : a <> X /\ forall x, x ∈ a :: g ++ addrs l' ++ addrs r' <-> x ∈ addrs l ++ addrs r).
    { assert (Hx : forall x, x ∈ a :: g ++ addrs l' ++ addrs r' <-> x ∈ addrs l ++ addrs r).
      { intros x. rewrite <-addrs_node with (s := sz). unfold addrs at 1. cbn [chunks]. rewrite <-(promote_chunks _ _ _ _ _ _ _ Ep), fmap_app. done. }
      split; [|done]. intros ->. apply NoDup_cons in Hnd as [HXn _]. apply HXn, Hx. left. }
    set (h1 := upd o (set_child d 0) (mem s)) in *.
    apply (unlinked_base X s i t sX [] l r ctx rest h1 (Node a sz g l' r')); try done.
    + by rewrite HbX, decide_False by tauto.
    + by apply frame_upd.
    + apply same_info_upd; [by destruct d|done].
    + destruct Hsh as (_ & _ & _ & _ & H1 & H2). split; [|done]. destruct Hleaf as [q' Hleaf]. exists q'.
      destruct Hleaf as (_ & Hp & Hs & Hg & Hc0 & Hc1).
      assert (Hch : forall x, child0 (get (mem s) x) = 0 -> child1 (get (mem s) x) = 0 -> child0 (get h1 x) = 0 /\ child1 (get h1 x) = 0)
        by (intros x ? ?; unfold h1; destruct d; split; upds).
      split; [done|]. split; [unfold h1; destruct d; rewrite (get_upd_field parent) by done; done|]. split.
      { apply (ring_ext (mem s)); [| |done]; intros; unfold h1; destruct d; [by rewrite (get_upd_field fd)..|by rewrite (get_upd_field bk)|by rewrite (get_upd_field bk)]. }
      split; [|by apply Hch]. intros x Hx. destruct (Hg x Hx) as (? & ? & ?). split; [|by apply Hch].
      unfold h1; destruct d; by rewrite (get_upd_field parent).
    + cbn [chunks]. rewrite (promote_chunks _ _ _ _ _ _ _ Ep). done.
    + intros n hi Ht. by eapply promote_trie.
  - destruct (take_leaf_none func X s sX q l r Hsub Ep HX) as (Hrun & -> & ->).
    apply (unlinked_base X s i t sX [] Leaf Leaf ctx rest (mem s) Leaf); try done.
    rewrite HbX, decide_False by tauto. rewrite Hrun. by destruct s.
Qed.

Lemma unlink_tree_ok X s i t : tree_at gm_addr s i t -> X ∈ addrs t ->
  unlinked X s i t (unlink_large_chunk gm_addr func X s).
Proof.
  intros Hat HX. destruct (focus X t (ta_nodup _ _ _ _ Hat) HX) as (b & sb & ring & l & r & ctx & rest & HF).
  destruct (decide (X = b)) as [<-|Hne]; [|by eapply unlinked_ring].
  destruct ring as [|last init _] using rev_ind; [by eapply unlinked_alone|by eapply unlinked_chain].
Qed.
End unlink.
