(* ===== verification/DlLarge.v ===== *)
(** The tree bins of the C library's allocator: the large free chunks as a set.

    [large_inv s cs] says that the 32 trees in memory hold exactly the chunks [cs], each in the bin
    of its size and in its place in a trie over its size, and that [treemap] marks the trees that
    are not empty. [insert_large_chunk] and [unlink_large_chunk] add and remove one chunk. *)
From S2P Require Import Prelude DlBins DlHeap DlTree DlUnlink.

(** Sizes the trees can hold: from 1 TiB on [compute_tree_index] computes with the low bits of the size. *)
Definition MAX_TREE_SIZE : Z := 2 ^ 40.
Definition large (sz : Z) : Prop := MIN_LARGE_SIZE <= sz < MAX_TREE_SIZE.

(** The low bits that tell the sizes of bin [i] apart, and the bits above. *)
Definition bin_bits (i : Z) : nat := if decide (i = 31) then 64 else Z.to_nat (i / 2 + 7).
Definition bin_prefix (i : Z) : Z := if decide (i = 31) then 0 else 2 + i mod 2.

Lemma tree_index_range s : large s -> 0 <= compute_tree_index s < 32.
Proof. intros Hs. destruct (tree_index_brackets s Hs) as (H & _). exact H. Qed.

Lemma minsize_at i : 0 <= i -> minsize_for_tree_index i = (2 + i mod 2) * 2 ^ (i / 2 + 7).
Proof.
  intros Hi. replace i with (2 * (i / 2) + i mod 2) at 1 by zlia.
  rewrite minsize_bits by zlia. replace (i / 2 + 8) with (i / 2 + 7 + 1) by lia.
  rewrite (Z.pow_add_r 2 _ 1) by zlia. lia.
Qed.

Lemma bin_prefix_spec s : large s -> s ≫ Z.of_nat (bin_bits (compute_tree_index s)) = bin_prefix (compute_tree_index s).
Proof.
  intros Hs. destruct (tree_index_brackets s Hs) as (Hr & Hlo & Hhi). set (i := compute_tree_index s) in *. clearbody i.
  change NTREEBINS with 32 in *. unfold large, MAX_TREE_SIZE in Hs. change MIN_LARGE_SIZE with 256 in Hs.
  unfold bin_bits, bin_prefix. rewrite Z.shiftr_div_pow2 by lia. case_decide as Ei.
  - apply Z.div_small. change (Z.of_nat 64) with 64. lia.
  - specialize (Hhi ltac:(lia)). rewrite Z2Nat.id by zlia. rewrite !minsize_at in * by lia.
    assert (Hp : 0 < 2 ^ (i / 2 + 7)) by (apply Z.pow_pos_nonneg; zlia).
    symmetry. apply Z.div_unique with (r := s - (2 + i mod 2) * 2 ^ (i / 2 + 7)); [left|lia]. split; [lia|].
    destruct (decide (i mod 2 = 0)) as [E|E].
    + replace ((i + 1) mod 2) with 1 in Hhi by zlia. replace ((i + 1) / 2) with (i / 2) in Hhi by zlia. lia.
    + assert (i mod 2 = 1) as E1 by zlia. replace ((i + 1) mod 2) with 0 in Hhi by zlia.
      replace ((i + 1) / 2 + 7) with (i / 2 + 7 + 1) in Hhi by zlia. rewrite Z.pow_add_r in Hhi by zlia. lia.
Qed.

Lemma bin_bits_max i : 0 <= i < 32 -> (bin_bits i <= 64)%nat.
Proof. intros Hi. unfold bin_bits. case_decide; [lia|]. zlia. Qed.

Lemma leftshift_spec S i : 0 <= i < 32 -> u64 (S ≪ leftshift_for_tree_index i) = walk_key S (bin_bits i).
Proof.
  intros Hi. unfold walk_key, bin_bits, leftshift_for_tree_index, NTREEBINS, SIZE_T_BITSIZE, TREEBIN_SHIFT. do 2 f_equal.
  change (32 - 1) with 31. case_decide; [lia|]. rewrite Z.shiftr_div_pow2 by lia. zlia.
Qed.

(** The size of a chunk in a lower bin is smaller. *)
Lemma tree_index_mono s s' : large s -> large s' -> compute_tree_index s < compute_tree_index s' -> s < s'.
Proof.
  intros Hs Hs' Hlt. destruct (tree_index_brackets s Hs) as (Hr & _ & Hhi). destruct (tree_index_brackets s' Hs') as (Hr' & Hlo' & _).
  change NTREEBINS with 32 in *. specialize (Hhi ltac:(lia)). apply Z.lt_le_trans with (1 := Hhi). etrans; [|exact Hlo'].
  assert (Hm : forallb (fun i => forallb (fun j => bool_decide (i <= j -> minsize_for_tree_index i <= minsize_for_tree_index j)) (seqZ 0 32)) (seqZ 0 32) = true)
    by (vm_compute; reflexivity).
  rewrite forallb_forall in Hm. specialize (Hm (compute_tree_index s + 1)). rewrite <-list_elem_of_In, elem_of_seqZ in Hm.
  specialize (Hm ltac:(lia)). rewrite forallb_forall in Hm. specialize (Hm (compute_tree_index s')).
  rewrite <-list_elem_of_In, elem_of_seqZ in Hm. specialize (Hm ltac:(lia)). apply bool_decide_eq_true_1 in Hm. apply Hm. lia.
Qed.

(** What the bins see of a header: its links, its bin and its size, not its flags. *)
Definition seen (c : chunk) : Z * Z * Z * Z * Z * Z * Z := (fd c, bk c, child0 c, child1 c, parent c, index c, chunksize c).
Definition agree (l : list Z) (h h' : heap) : Prop := forall x, x ∈ l -> seen (get h' x) = seen (get h x).

Lemma shape_agree h h' p par t : agree (addrs t) h h' -> shape h p par t -> shape h' p par t.
Proof.
  unfold agree. revert p par. induction t as [|a s ring l IHl r IHr]; intros p par H; [done|]. rewrite addrs_node in H. simpl.
  intros (-> & Hp & Hs & Hr & Hl & Hrr). pose proof (H a ltac:(left)) as [= E1 E2 E3 E4 E5 E6 E7]. rewrite E3, E4, E5.
  split; [done|]. split; [done|]. split.
  { apply (ring_ext h); [| |done]; intros z [->|Hz]%elem_of_cons; try done; pose proof (H z ltac:(inl)) as [= F1 F2 _ _ _ _ _]; done. }
  split.
  { intros x Hx. pose proof (H x ltac:(inl)) as [= F1 F2 F3 F4 F5 _ _]. rewrite F3, F4, F5. by apply Hr. }
  split; [apply IHl|apply IHr]; try done; intros x Hx; apply H; inl.
Qed.

(** ** The bins *)
Definition with_trees (m : Z) (tb : list Z) (g : malloc_state) : malloc_state :=
  MState (smallmap g) m (dvsize g) (topsize g) (least_addr g) (dv g) (top g) (trim_check g) (release_checks g) (magic g) tb
    (footprint g) (max_footprint g) (footprint_limit g) (mflags g) (DlHeap.seg g).
(** Only the tree bins and their map differ. *)
Definition trees_only (g g' : malloc_state) : Prop := g' = with_trees (treemap g') (treebins g') g.
(** Heads and footers are untouched. *)
Definition same_heads (h h' : heap) : Prop := forall x, head (get h' x) = head (get h x) /\ prev_foot (get h' x) = prev_foot (get h x).

Lemma info_heads h h' : same_info h h' -> same_heads h h'.
Proof. intros H x. by destruct (H x) as (? & _ & ?). Qed.

#[global] Instance same_heads_preorder : PreOrder same_heads.
Proof. split; [done|]. intros h1 h2 h3 H1 H2 x. destruct (H1 x), (H2 x). split; congruence. Qed.

Section bins.
Context (gm_addr : Z).

(** Bin [i] holds the tree [t]. *)
Record bin_ok (s : dl_st) (i : Z) (t : tree) : Prop := {
  bin_slot : treebins (gm s) !! Z.to_nat i = Some (root t);
  bin_mark : is_marked (treemap (gm s)) i = negb (empty_tree t);
  bin_shape : shape (mem s) (root t) (treebin_slot gm_addr i) t;
  bin_trie : trie (bin_bits i) (bin_prefix i) t;
  bin_sizes a sz : (a, sz) ∈ chunks t -> chunksize (get (mem s) a) = sz /\ index (get (mem s) a) = i /\ large sz /\ compute_tree_index sz = i }.

Record bins_ok (s : dl_st) (ts : list tree) (cs : list (Z * Z)) : Prop := {
  bins_len : length ts = 32%nat;
  bins_slots : length (treebins (gm s)) = 32%nat;
  bins_map : fits 32 (treemap (gm s));
  bins_each i t : ts !! i = Some t -> bin_ok s (Z.of_nat i) t;
  bins_chunks : cs ≡ₚ concat (chunks <$> ts);
  bins_nodup : NoDup cs.*1;
  bins_usable a : a ∈ cs.*1 -> usable s a }.

Definition large_inv (s : dl_st) (cs : list (Z * Z)) : Prop := exists ts, bins_ok s ts cs.

Lemma concat_split {A} (ls : list (list A)) i l : ls !! i = Some l -> exists rest,
  concat ls ≡ₚ l ++ rest /\ (forall l', concat (<[i := l']> ls) ≡ₚ l' ++ rest) /\
  (forall j l', j <> i -> ls !! j = Some l' -> forall x, x ∈ l' -> x ∈ rest).
Proof.
  revert i. induction ls as [|l0 ls IH]; intros [|i] Hi; simpl in Hi; try done.
  - injection Hi as ->. exists (concat ls). split; [done|]. split; [done|]. intros [|j] l' Hj Hl x Hx; [done|].
    apply list_elem_of_In, in_concat. exists l'. split; apply list_elem_of_In; [|done]. by apply (list_elem_of_lookup_2 _ j).
  - destruct (IH i Hi) as (rest & H1 & H2 & H3). exists (l0 ++ rest). split; [simpl; rewrite H1; solve_Permutation|].
    split; [intros l'; simpl; rewrite H2; solve_Permutation|]. intros [|j] l' Hj Hl x Hx; simpl in Hl; [injection Hl as ->; inl|].
    assert (x ∈ rest) by (eapply (H3 j); [lia|done..]). inl.
Qed.

Lemma key_unique (cs : list (Z * Z)) a s1 s2 : NoDup cs.*1 -> (a, s1) ∈ cs -> (a, s2) ∈ cs -> s1 = s2.
Proof.
  intros Hnd (l1 & l2 & ->)%list_elem_of_split H2. rewrite fmap_app, fmap_cons in Hnd.
  apply NoDup_app in Hnd as (_ & Hd & [Hn _]%NoDup_cons). apply elem_of_app in H2 as [H2|[[= <-]|H2]%elem_of_cons]; [|done|].
  - destruct (Hd a); [by apply (list_elem_of_fmap_2 fst) in H2|left].
  - destruct Hn. by apply (list_elem_of_fmap_2 fst) in H2.
Qed.

(** Replacing the tree of one bin. *)
Lemma bins_update s s' ts cs i t t' :
  bins_ok s ts cs -> ts !! i = Some t ->
  treebins (gm s') = <[i := root t']> (treebins (gm s)) -> fits 32 (treemap (gm s')) -> least_addr (gm s') = least_addr (gm s) ->
  (forall j, 0 <= j < 32 -> is_marked (treemap (gm s')) j = if decide (j = Z.of_nat i) then negb (empty_tree t') else is_marked (treemap (gm s)) j) ->
  (forall x, x ∈ cs.*1 -> x ∉ addrs t -> get (mem s') x = get (mem s) x) ->
  shape (mem s') (root t') (treebin_slot gm_addr (Z.of_nat i)) t' -> trie (bin_bits (Z.of_nat i)) (bin_prefix (Z.of_nat i)) t' ->
  (forall a sz, (a, sz) ∈ chunks t' -> chunksize (get (mem s') a) = sz /\ index (get (mem s') a) = Z.of_nat i /\ large sz /\ compute_tree_index sz = Z.of_nat i) ->
  exists rest, cs ≡ₚ chunks t ++ rest /\
    forall cs', cs' ≡ₚ chunks t' ++ rest -> NoDup cs'.*1 -> (forall a, a ∈ cs'.*1 -> usable s' a) -> bins_ok s' (<[i := t']> ts) cs'.
Proof.
  intros [Hlen Hslots Hmap Heach Hcs Hnd Hus] Hi Hbins Hmap' Hla Hmark Hmem Hsh Htrie Hsz.
  assert (Hi32 : (i < 32)%nat) by (apply lookup_lt_Some in Hi; lia).
  destruct (concat_split (chunks <$> ts) i (chunks t)) as (rest & H1 & H2 & H3); [by rewrite list_lookup_fmap, Hi|].
  exists rest. split; [by rewrite Hcs, H1|]. intros cs' Hcs' Hnd' Hus'. split; try done.
  - by rewrite length_insert.
  - by rewrite Hbins, length_insert.
  - intros j tj Hj. destruct (decide (j = i)) as [->|Hji].
    + rewrite list_lookup_insert_eq in Hj by lia. injection Hj as <-. split; try done.
      * rewrite Nat2Z.id, Hbins. by rewrite list_lookup_insert_eq by lia.
      * rewrite Hmark by lia. by rewrite decide_True.
    + rewrite list_lookup_insert_ne in Hj by done. destruct (Heach j tj Hj) as [B1 B2 B3 B4 B5].
      assert (Hj32 : (j < 32)%nat) by (apply lookup_lt_Some in Hj; lia).
      assert (Hsame : forall x, x ∈ addrs tj -> get (mem s') x = get (mem s) x).
      { assert (Hr : forall y, y ∈ chunks tj -> y ∈ rest).
        { intros y Hy. apply (H3 j (chunks tj)); [done|by rewrite list_lookup_fmap, Hj|done]. }
        assert (Hnd2 : NoDup ((chunks t).*1 ++ rest.*1)) by (rewrite <-fmap_app, <-H1, <-Hcs; done).
        intros x Hx. unfold addrs in Hx. apply list_elem_of_fmap in Hx as ([x' z] & -> & Hx). apply Hr in Hx.
        apply (list_elem_of_fmap_2 fst) in Hx. apply Hmem; [rewrite Hcs, H1, fmap_app; inl|].
        apply NoDup_app in Hnd2 as (_ & Hd & _). intros Hin. by apply (Hd (fst (x', z))). }
      split; try done.
      * rewrite Nat2Z.id, Hbins, list_lookup_insert_ne by done. by rewrite Nat2Z.id in B1.
      * rewrite Hmark, decide_False by lia. done.
      * apply (shape_frame (mem s)); [done|]. done.
      * intros a sz Ha. rewrite Hsame by (by eapply tree_elem_addrs). by apply B5.
  - rewrite Hcs', list_fmap_insert. by rewrite H2.
Qed.

Lemma bin_tree_at s ts cs i t : bins_ok s ts cs -> ts !! i = Some t -> tree_at gm_addr s (Z.of_nat i) t.
Proof.
  intros Hb Hi. destruct (bins_each _ _ _ Hb i t Hi) as [B1 B2 B3 B4 B5].
  destruct (concat_split (chunks <$> ts) i (chunks t)) as (rest & H1 & _ & _); [by rewrite list_lookup_fmap, Hi|].
  assert (Hi32 : (i < 32)%nat) by (apply lookup_lt_Some in Hi; rewrite (bins_len _ _ _ Hb) in Hi; done).
  split; try done.
  - lia.
  - pose proof (bins_nodup _ _ _ Hb) as Hnd. rewrite (bins_chunks _ _ _ Hb), H1, fmap_app in Hnd. by apply NoDup_app in Hnd as [? _].
  - intros x Hx. apply (bins_usable _ _ _ Hb). rewrite (bins_chunks _ _ _ Hb), H1, fmap_app. unfold addrs in Hx. inl.
  - intros x Hx. apply list_elem_of_fmap in Hx as ([a sz] & -> & Hx). by apply B5 in Hx as (_ & ? & _).
  - apply trie_height in B4. pose proof (bin_bits_max (Z.of_nat i)). unfold TREE_FUEL. lia.
Qed.

Lemma bins_agree s s' ts cs : bins_ok s ts cs -> agree cs.*1 (mem s) (mem s') ->
  treemap (gm s') = treemap (gm s) -> treebins (gm s') = treebins (gm s) -> least_addr (gm s') = least_addr (gm s) -> bins_ok s' ts cs.
Proof.
  intros [Hlen Hslots Hmap Heach Hcs Hnd Hus] Hag Em Et El. split; rewrite ?Em, ?Et; try done.
  - intros i t Hi. destruct (Heach i t Hi) as [B1 B2 B3 B4 B5].
    assert (Hag' : agree (addrs t) (mem s) (mem s')).
    { intros x Hx. apply Hag. destruct (concat_split (chunks <$> ts) i (chunks t)) as (rest & H1 & _ & _); [by rewrite list_lookup_fmap, Hi|].
      rewrite Hcs, H1, fmap_app. unfold addrs in Hx. inl. }
    split; rewrite ?Em, ?Et; try done; [by apply (shape_agree (mem s))|].
    intros a sz Ha. pose proof (Hag' a ltac:(by eapply tree_elem_addrs)) as [= _ _ _ _ _ E6 E7]. rewrite E6, E7. by apply B5.
  - intros a Ha. destruct (Hus a Ha). unfold usable. by rewrite El.
Qed.

Context (func : string) (Hgm : 0 < gm_addr).

Lemma insert_large_ok X S s cs : large_inv s cs -> large S -> usable s X -> X ∉ cs.*1 -> chunksize (get (mem s) X) = S ->
  exists s', insert_large_chunk gm_addr func X S s = Ok (tt, s') /\ large_inv s' ((X, S) :: cs) /\
    frame (X :: cs.*1) (mem s) (mem s') /\ same_heads (mem s) (mem s') /\ trees_only (gm s) (gm s').
Proof.
  intros [ts Hb] HS HuX HX HSz. assert (HX0 : X <> 0) by (destruct HuX; lia).
  pose proof (tree_index_range S HS) as HI. unfold insert_large_chunk. set (I := compute_tree_index S) in *.
  rewrite !wr_bind by done. set (h1 := upd X (set_child false 0) _). set (s1 := set_mem h1 (set_mem _ (set_mem _ s))).
  assert (Hfr1 : frame [X] (mem s) h1) by (unfold h1; cbn [mem set_mem]; repeat apply frame_upd; done || left).
  assert (Hhd1 : same_heads (mem s) h1) by (intros x; unfold h1; cbn [mem set_mem]; split; upds).
  assert (HI1 : index (get h1 X) = I) by (unfold h1; cbn [mem set_mem]; upds).
  assert (Hc01 : child0 (get h1 X) = 0 /\ child1 (get h1 X) = 0) by (unfold h1; cbn [mem set_mem]; split; upds).
  assert (HSz1 : chunksize (get h1 X) = S) by (unfold chunksize; rewrite (proj1 (Hhd1 X)); done).
  clearbody h1. replace s1 with (set_mem h1 s) by done. clear s1.
  assert (Hb1 : bins_ok (set_mem h1 s) ts cs).
  { apply (bins_agree s); try done. intros x Hx. rewrite Hfr1; [done|]. intros ->%list_elem_of_singleton. done. }
  rewrite gets_bind. cbn [gm set_mem].
  destruct (lookup_lt_is_Some_2 ts (Z.to_nat I)) as [t Ht]; [rewrite (bins_len _ _ _ Hb); lia|].
  pose proof (bins_each _ _ _ Hb1 _ _ Ht) as [B1 B2 B3 B4 B5]. rewrite Z2Nat.id in B1, B2, B3, B4, B5 by lia.
  cbn [gm mem set_mem] in B1, B2, B3, B5.
  pose proof (bin_tree_at _ _ _ _ _ Hb1 Ht) as Hta. rewrite Z2Nat.id in Hta by lia.
  assert (Htcs : forall x, x ∈ addrs t -> x ∈ cs.*1).
  { intros x Hx. destruct (concat_split (chunks <$> ts) (Z.to_nat I) (chunks t)) as (rest & H1 & _ & _); [by rewrite list_lookup_fmap, Ht|].
    rewrite (bins_chunks _ _ _ Hb), H1, fmap_app. unfold addrs in Hx. inl. }
  assert (Hpre : S ≫ Z.of_nat (bin_bits I) = bin_prefix I) by (by apply bin_prefix_spec).
  set (t' := tinsert (bin_bits I) X S t).
  assert (Hchunks : chunks t' ≡ₚ (X, S) :: chunks t) by apply tinsert_chunks.
  assert (Hne : empty_tree t' = false) by (unfold t'; destruct t; simpl; [done|]; case_decide; [done|]; by destruct (Z.testbit _ _)).
  (* the result, whichever way the chunk went in *)
  assert (Hfin : forall h' m', shape h' (root t') (treebin_slot gm_addr I) t' -> frame (X :: addrs t) h1 h' -> same_info h1 h' ->
    fits 32 m' -> (forall j, 0 <= j < 32 -> is_marked m' j = if decide (j = I) then true else is_marked (treemap (gm s)) j) ->
    let s' := mkDl (set_tree I (root t') m' (gm s)) h' in
    large_inv s' ((X, S) :: cs) /\ frame (X :: cs.*1) (mem s) (mem s') /\ same_heads (mem s) (mem s') /\ trees_only (gm s) (gm s')).
  { intros h' m' Hsh Hfr Hinf Hm' Hmark s'. split; [|split; [|split; [|done]]].
    - destruct (bins_update (set_mem h1 s) s' ts cs (Z.to_nat I) t t' Hb1 Ht) as (rest & Hcs & Hnew); rewrite ?Z2Nat.id by lia; try done.
      + intros j Hj. rewrite Hmark by done. by rewrite Hne.
      + intros x Hx Hxt. cbn [mem]. apply Hfr. intros [->|?]%elem_of_cons; done.
      + by apply tinsert_trie.
      + intros a sz Ha. rewrite Hchunks in Ha. cbn [mem s']. rewrite (info_size h1 h') by done. destruct (Hinf a) as (_ & -> & _).
        apply elem_of_cons in Ha as [[= -> ->]|Ha]; [done|]. by apply B5.
      + exists (<[Z.to_nat I := t']> ts). apply Hnew.
        * rewrite Hchunks, Hcs. done.
        * simpl. apply NoDup_cons. split; [done|apply (bins_nodup _ _ _ Hb)].
        * intros a [->|Ha]%elem_of_cons; [done|]. by apply (bins_usable _ _ _ Hb).
    - cbn [mem s']. apply (frame_trans _ _ h1); (eapply frame_mono; [|eassumption]); intros x Hx; [apply list_elem_of_singleton in Hx as ->; left|].
      apply elem_of_cons in Hx as [->|Hx]; [left|right; by apply Htcs].
    - cbn [mem s']. transitivity h1; [done|by apply info_heads]. }
  case_decide as Em.
  - apply map_is_marked_spec in Em; [|done]. rewrite B2 in Em. assert (t = Leaf) as -> by (by destruct t).
    rewrite !modify_bind, !wr_bind, wr_ok by done. eexists. split; [reflexivity|]. cbn [mem set_mem set_gm gm].
    set (h' := upd X (set_fd X) _). apply (Hfin h' (mark_map (treemap (gm s)) I)).
    + simpl. assert (Hc : forall d, child d (get h' X) = child d (get h1 X)) by (intros []; unfold h'; upds).
      split; [done|]. split; [unfold h'; upds|]. split; [split; unfold h'; upds|]. split; [intros x Hx; by apply elem_of_nil in Hx|].
      rewrite (Hc false : child0 _ = _), (Hc true : child1 _ = _). done.
    + unfold h'. repeat apply frame_upd; done || left.
    + unfold h'. by repeat apply same_info_upd.
    + apply mark_map_fits; [apply (bins_map _ _ _ Hb)|done].
    + intros j Hj. rewrite mark_map_bits by (apply (bins_map _ _ _ Hb) || lia).
      case_decide as E; [subst; rewrite bool_decide_eq_true_2 by done; apply orb_true_r|rewrite bool_decide_eq_false_2 by congruence; apply orb_false_r].
  - rewrite map_is_marked_spec in Em by done. rewrite B2 in Em. assert (Hnl : t <> Leaf) by (intros ->; done).
    unfold treebin_at. rewrite bind_assoc. change (get_st ≫= ?k) with (fun s => k s s). cbv beta.
    unfold lift_opt at 1. cbn [gm set_mem]. rewrite B1, ret_bind, leftshift_spec by done.
    destruct (insert_walk_ok func TREE_FUEL (bin_bits I) t (treebin_slot gm_addr I) X S (set_mem h1 s)) as (h' & Hrun & Hsh & Hfr & Hinf); try done.
    + by destruct Hta.
    + by apply bin_bits_max.
    + intros a sz Ha. by apply B5 in Ha as [? _].
    + by rewrite Hpre.
    + apply NoDup_cons. split; [intros Hin; by apply HX, Htcs|by destruct Hta].
    + intros x [->|Hx]%elem_of_cons; [done|]. by apply Hta.
    + by destruct Hc01.
    + by destruct Hc01.
    + assert (Er : root t' = root t) by (unfold t'; destruct t; simpl; [done|]; case_decide; [done|]; by destruct (Z.testbit _ _)).
      rewrite Hrun. rewrite <-Er in Hsh. unshelve epose proof (Hfin h' (treemap (gm s)) Hsh Hfr Hinf _ _) as Hf; [apply (bins_map _ _ _ Hb)| |].
      * intros j Hj. case_decide as E; [subst; rewrite B2; by destruct t|done].
      * rewrite Er in Hf. rewrite set_tree_same in Hf by done. exists (set_mem h' s). split; [done|]. exact Hf.
Qed.

Lemma unlink_large_ok X S s cs : large_inv s ((X, S) :: cs) ->
  exists s', unlink_large_chunk gm_addr func X s = Ok (tt, s') /\ large_inv s' cs /\
    frame (X :: cs.*1) (mem s) (mem s') /\ same_info (mem s) (mem s') /\ trees_only (gm s) (gm s').
Proof.
  intros [ts Hb]. assert (Hin : (X, S) ∈ concat (chunks <$> ts)) by (rewrite <-(bins_chunks _ _ _ Hb); left).
  apply list_elem_of_In, in_concat in Hin as (l & Hl & HXl). apply list_elem_of_In in Hl, HXl.
  apply list_elem_of_lookup in Hl as [i Hi]. rewrite list_lookup_fmap in Hi. apply fmap_Some in Hi as (t & Ht & ->).
  assert (Hi32 : (i < 32)%nat) by (apply lookup_lt_Some in Ht; by rewrite (bins_len _ _ _ Hb) in Ht).
  pose proof (bins_each _ _ _ Hb _ _ Ht) as [B1 B2 B3 B4 B5]. pose proof (bin_tree_at _ _ _ _ _ Hb Ht) as Hta.
  destruct (unlink_tree_ok gm_addr func Hgm X s (Z.of_nat i) t Hta) as (t' & h' & Hrun & Hsh & [sX Hperm] & Htrie & Hfr & Hinf); [by eapply tree_elem_addrs|].
  set (m' := if empty_tree t' then _ else _) in *. set (s' := mkDl _ h') in *. exists s'. split; [done|].
  assert (Hsub : forall x, x ∈ addrs t' -> x ∈ addrs t) by (intros x Hx; unfold addrs; rewrite Hperm; by right).
  assert (Htcs : forall x, x ∈ addrs t -> x ∈ X :: cs.*1).
  { intros x Hx. destruct (concat_split (chunks <$> ts) i (chunks t)) as (rest & H1 & _ & _); [by rewrite list_lookup_fmap, Ht|].
    change (X :: cs.*1) with ((X, S) :: cs).*1. rewrite (bins_chunks _ _ _ Hb), H1, fmap_app. unfold addrs in Hx. inl. }
  pose proof (bins_nodup _ _ _ Hb) as Hnd. simpl in Hnd. pose proof Hnd as [HX Hndcs]%NoDup_cons.
  split; [|split; [|split; [done|done]]].
  2: { eapply frame_mono; [|exact Hfr]. done. }
  destruct (bins_update s s' ts ((X, S) :: cs) i t t' Hb Ht) as (rest & Hcs & Hnew); try done.
  - cbn. by rewrite Nat2Z.id.
  - cbn. unfold m'. pose proof (bins_map _ _ _ Hb). destruct (empty_tree t'); [by apply clear_map_fits|done].
  - intros j Hj. cbn. unfold m'. pose proof (bins_map _ _ _ Hb) as Hm. destruct (empty_tree t') eqn:E.
    + rewrite clear_map_bits by (done || lia). case_decide as Ej; [subst; rewrite bool_decide_eq_false_2 by (intros ?; done); apply andb_false_r|].
      rewrite bool_decide_eq_true_2 by congruence. apply andb_true_r.
    + case_decide as Ej; [|done]. subst j. rewrite B2. destruct t; [|done]. apply Permutation_nil_cons in Hperm as [].
  - intros x _ Hx. by apply Hfr.
  - by apply Htrie.
  - intros a sz Ha. cbn [mem s']. rewrite (info_size (mem s) h') by done. destruct (Hinf a) as (_ & -> & _). apply B5.
    rewrite Hperm. by right.
  - exists (<[i := t']> ts). rewrite Hperm in Hcs. assert (S = sX) as <-.
    { apply (key_unique ((X, S) :: cs) X); [done|left|]. rewrite Hcs. left. }
    apply Permutation_cons_inv in Hcs. apply Hnew; [done|done|]. intros a Ha. apply (bins_usable _ _ _ Hb a). by right.
Qed.
End bins.
