(* ===== verification/DlFit.v ===== *)
(** Best fit in the tree bins of the C library's allocator: the searches of [tmalloc_large] and
    [tmalloc_small] (lib/stdlib/dlmalloc.c) find a smallest chunk that is large enough. *)
From S2P Require Import Prelude DlBins DlHeap DlTree DlUnlink DlLarge.

Section search.
Context (gm_addr : Z).
Abbreviation D := (cmd dl_st).

(** The walk of [tmalloc_large] down the tree of the request's bin: the best chunk so far in [v], by
    how much it is too large in [rsize], and in [rst] the deepest right subtree not taken. The first
    component answered is where the search for the smallest goes on. *)
Fixpoint fit_walk (fuel : nat) (nb t sizebits v rsize rst : Z) : D (Z * Z * Z) :=
  match fuel with
  | O => halt OutOfFuel
  | S fuel =>
    sz ← csize t;
    let trem := u64 (sz - nb) in
    let better := bool_decide (trem < rsize) in
    if better && bool_decide (trem = 0) then mret (t, t, trem)
    else
      let '(v, rsize) := if better then (t, trem) else (v, rsize) in
      rt ← rd child1 t;
      t ← rd (child (bool_decide ((sizebits ≫ (SIZE_T_BITSIZE - 1)) .& 1 <> 0))) t;
      let rst := if decide (rt <> 0 /\ rt <> t) then rt else rst in
      if decide (t = 0) then mret (rst, v, rsize) else fit_walk fuel nb t (u64 (sizebits ≪ 1)) v rsize rst
  end.

(** The search for the smallest of a tree. *)
Fixpoint smallest (fuel : nat) (nb t v rsize : Z) : D (Z * Z) :=
  if decide (t = 0) then mret (v, rsize)
  else match fuel with
  | O => halt OutOfFuel
  | S fuel =>
    sz ← csize t;
    let trem := u64 (sz - nb) in
    let '(v, rsize) := if decide (trem < rsize) then (t, trem) else (v, rsize) in
    t ← leftmost_child t;
    smallest fuel nb t v rsize
  end.

(** The first half of [tmalloc_large]. *)
Definition fit_large (nb : Z) : D (Z * Z) :=
  let rsize := u64 (- nb) in
  let idx := compute_tree_index nb in
  t ← treebin_at gm_addr idx;
  '(t, v, rsize) ← (if decide (t <> 0) then fit_walk TREE_FUEL nb t (u64 (nb ≪ leftshift_for_tree_index idx)) 0 rsize 0
                     else mret (t, 0, rsize));
  t ← (if decide (t = 0 /\ v = 0) then
         m ← gets (fun s => treemap (gm s));
         let leftbits := left_bits (idx2bit idx) .& m in
         if decide (leftbits <> 0) then treebin_at gm_addr (compute_bit2idx (least_bit leftbits)) else mret t
       else mret t);
  smallest TREE_FUEL nb t v rsize.

(** The first half of [tmalloc_small]. *)
Definition fit_small (nb : Z) : D (Z * Z) :=
  m ← gets (fun s => treemap (gm s));
  t ← treebin_at gm_addr (compute_bit2idx (least_bit m));
  sz ← csize t;
  let rsize := u64 (sz - nb) in
  c ← leftmost_child t;
  smallest (TREE_FUEL - 1) nb c t rsize.
End search.

(** ** Candidates *)

(** [v] is a chunk of [cs] larger than [nb] by [rsize], or there is none yet. *)
Definition cand (nb : Z) (cs : list (Z * Z)) (v rsize : Z) : Prop :=
  v = 0 /\ rsize = 2 ^ 64 - nb \/ v <> 0 /\ 0 <= rsize /\ (v, nb + rsize) ∈ cs.
(** No chunk of [cs] that is large enough is smaller. *)
Definition best (nb rsize : Z) (cs : list (Z * Z)) : Prop := forall a sz, (a, sz) ∈ cs -> nb <= sz -> rsize <= sz - nb.

Lemma cand_mono nb cs cs' v rsize : (forall c, c ∈ cs -> c ∈ cs') -> cand nb cs v rsize -> cand nb cs' v rsize.
Proof. intros H [?|(? & ? & ?)]; [by left|right; auto]. Qed.

(** One candidate is looked at. *)
Lemma cand_step nb cs v rsize a sz : 0 < nb < 2 ^ 64 -> 0 <= sz < 2 ^ 64 -> a <> 0 -> (a, sz) ∈ cs ->
  (forall c, c ∈ cs -> c.2 < 2 ^ 64) -> cand nb cs v rsize ->
  let trem := u64 (sz - nb) in
  let '(v', rsize') := if decide (trem < rsize) then (a, trem) else (v, rsize) in
  cand nb cs v' rsize' /\ rsize' <= rsize /\ (nb <= sz -> rsize' <= sz - nb) /\ (trem = 0 <-> sz = nb).
Proof.
  intros Hnb Hsz Ha Hin Hlt Hc. cbv zeta.
  assert (Hr : rsize <= 2 ^ 64 - nb) by (destruct Hc as [[_ ->]|(_ & _ & Hv)]; [lia|apply Hlt in Hv; simpl in Hv; lia]).
  assert (Htrem : nb <= sz /\ u64 (sz - nb) = sz - nb \/ sz < nb /\ u64 (sz - nb) = 2 ^ 64 + (sz - nb)).
  { destruct (decide (nb <= sz)); [left|right]; (split; [lia|]); unfold wrap; zlia. }
  case_decide as Ht.
  - destruct Htrem as [[H1 E]|[H1 E]]; [|lia]. rewrite E in *. split; [right; split; [done|split; [lia|]]|lia].
    by replace (nb + (sz - nb)) with sz by lia.
  - split; [done|]. split; [lia|]. split; [intros; lia|lia].
Qed.

(** ** The smallest of a tree *)

Lemma trie_lt n hi1 hi2 t1 t2 a1 s1 a2 s2 : trie n hi1 t1 -> trie n hi2 t2 -> hi1 < hi2 ->
  (a1, s1) ∈ chunks t1 -> (a2, s2) ∈ chunks t2 -> s1 < s2.
Proof.
  intros H1 H2 Hlt Ha1 Ha2. apply (trie_prefix _ _ _ _ _ H1) in Ha1. apply (trie_prefix _ _ _ _ _ H2) in Ha2.
  rewrite Z.shiftr_div_pow2 in Ha1, Ha2 by lia. destruct (Z.lt_ge_cases s1 s2) as [|Hge]; [done|exfalso].
  assert (s2 / 2 ^ Z.of_nat n <= s1 / 2 ^ Z.of_nat n) by (apply Z.div_le_mono; [apply Z.pow_pos_nonneg; lia|lia]). lia.
Qed.

Lemma elem_node a s ring l r x sz : (x, sz) ∈ chunks (Node a s ring l r) ->
  sz = s \/ (x, sz) ∈ chunks l \/ (x, sz) ∈ chunks r.
Proof.
  cbn [chunks]. rewrite !elem_of_app. intros [H|H]; [left|right; done].
  apply list_elem_of_fmap in H as (y & [= _ ->] & _). done.
Qed.

Section proofs.
Context (s : dl_st) (nb : Z) (cs : list (Z * Z)).
Hypothesis nb_range : 0 < nb < 2 ^ 64.
Hypothesis cs_range : forall c, c ∈ cs -> 0 <= c.2 < 2 ^ 64.
Hypothesis cs_sized : sized (mem s) cs.
Hypothesis cs_nonzero : forall x, x ∈ cs.*1 -> x <> 0.

(** A tree whose chunks are among [cs]. *)
Record subtree (t : tree) (n : nat) (hi : Z) : Prop := {
  sub_shape : exists q, shape (mem s) (root t) q t;
  sub_in c : c ∈ chunks t -> c ∈ cs;
  sub_trie : trie n hi t }.

Lemma subtree_node a s0 ring l r n hi : subtree (Node a s0 ring l r) n hi ->
  a <> 0 /\ chunksize (get (mem s) a) = s0 /\ 0 <= s0 < 2 ^ 64 /\ (a, s0) ∈ cs /\
  child0 (get (mem s) a) = root l /\ child1 (get (mem s) a) = root r /\
  (n = 0%nat -> l = Leaf /\ r = Leaf) /\
  (forall m, n = S m -> subtree l m (2 * hi) /\ subtree r m (2 * hi + 1)).
Proof.
  intros [[q Hsh] Hin Htr]. assert (Ha : (a, s0) ∈ cs) by (apply Hin; left).
  destruct Hsh as (_ & _ & _ & _ & Hl & Hr). pose proof (shape_root _ _ _ _ Hl) as El. pose proof (shape_root _ _ _ _ Hr) as Er.
  split; [apply cs_nonzero; by apply (list_elem_of_fmap_2 fst) in Ha|]. split; [by apply cs_sized|]. split; [by apply (cs_range _ Ha)|].
  split; [done|]. split; [done|]. split; [done|]. destruct Htr as [Hs Htr]. split; [by intros ->|].
  intros m ->. destruct Htr as [Hl' Hr']. rewrite El in Hl. rewrite Er in Hr.
  split; (split; [by exists a| |done]); intros c Hc; apply Hin; cbn [chunks]; inl.
Qed.

Lemma subtree_root t n hi : subtree t n hi -> (root t = 0 <-> t = Leaf).
Proof.
  destruct t as [|a s0 ring l r]; [done|]. intros H. apply subtree_node in H as (Ha & _). simpl. split; [done|]. done.
Qed.

Lemma smallest_ok fuel t n hi v rsize : subtree t n hi -> (height t <= fuel)%nat -> cand nb cs v rsize ->
  (rsize = 0 \/ forall a sz, (a, sz) ∈ chunks t -> nb <= sz) ->
  exists v' rsize', smallest fuel nb (root t) v rsize s = Ok ((v', rsize'), s) /\
    cand nb cs v' rsize' /\ rsize' <= rsize /\ best nb rsize' (chunks t).
Proof.
  revert t n hi v rsize. induction fuel as [|fuel IH]; intros t n hi v rsize Hsub Hh Hc Hge.
  { destruct t; simpl in Hh; [|lia]. exists v, rsize. split; [done|]. split; [done|]. split; [lia|]. intros a sz Ha. by apply elem_of_nil in Ha. }
  destruct t as [|a s0 ring l r].
  { exists v, rsize. split; [done|]. split; [done|]. split; [lia|]. intros x sz Ha. by apply elem_of_nil in Ha. }
  pose proof (subtree_node _ _ _ _ _ _ _ Hsub) as (Ha & Hsz & Hs0 & Hin & E0 & E1 & Hz & Hsucc).
  cbn [smallest root]. rewrite decide_False by done. unfold csize, leftmost_child. rewrite rd_bind, Hsz by done.
  pose proof (cand_step nb cs v rsize a s0 nb_range Hs0 Ha Hin (fun c Hc => proj2 (cs_range c Hc)) Hc) as Hstep. cbv zeta in Hstep.
  destruct (if decide _ then _ else _) as [v1 r1]. destruct Hstep as (Hc1 & Hle1 & Hb1 & _).
  rewrite bind_assoc, rd_bind, E0 by done.
  assert (Hr0 : 0 <= r1) by (destruct Hc1 as [[_ ->]|(_ & ? & _)]; lia).
  assert (Hge1 : r1 = 0 \/ forall a sz, (a, sz) ∈ chunks l ++ chunks r -> nb <= sz).
  { destruct Hge as [->|Hge]; [left; lia|right]. intros x sz Hx. apply (Hge x). cbn [chunks]. inl. }
  destruct n as [|n].
  { destruct (Hz eq_refl) as [-> ->]. simpl root. rewrite decide_False by tauto. rewrite rd_bind, E1 by done. simpl root.
    exists v1, r1. split; [by destruct fuel|]. split; [done|]. split; [done|]. intros x sz Hx Hn.
    apply elem_node in Hx as [->|[Hx|Hx]]; [by apply Hb1|by apply elem_of_nil in Hx..]. }
  destruct (Hsucc n eq_refl) as [Hl Hr]. simpl in Hh.
  destruct (decide (l = Leaf)) as [->|Hnl].
  - simpl root. rewrite decide_False by tauto. rewrite rd_bind, E1 by done.
    destruct (IH r n (2 * hi + 1) v1 r1) as (v' & r' & Hrun & Hc' & Hle' & Hb'); [done|lia|done| |].
    { destruct Hge1 as [?|Hg]; [by left|right]. intros x sz Hx. apply (Hg x). inl. }
    exists v', r'. split; [done|]. split; [done|]. split; [lia|]. intros x sz Hx Hn.
    apply elem_node in Hx as [->|[Hx|Hx]]; [specialize (Hb1 Hn); lia|by apply elem_of_nil in Hx|by apply (Hb' x)].
  - assert (Hnz : root l <> 0) by (intros E; apply Hnl; by apply (subtree_root _ _ _ Hl)).
    rewrite decide_True by done. rewrite rd_bind, E0 by done.
    destruct (IH l n (2 * hi) v1 r1) as (v' & r' & Hrun & Hc' & Hle' & Hb'); [done|lia|done| |].
    { destruct Hge1 as [?|Hg]; [by left|right]. intros x sz Hx. apply (Hg x). inl. }
    exists v', r'. split; [done|]. split; [done|]. split; [lia|]. intros x sz Hx Hn.
    apply elem_node in Hx as [->|[Hx|Hx]]; [specialize (Hb1 Hn); lia|by apply (Hb' x)|].
    destruct Hge1 as [E|Hg]; [destruct Hc' as [[_ ->]|(_ & ? & _)]; lia|].
    destruct l as [|b sb rb lb rrb]; [done|]. assert (Hbl : (b, sb) ∈ chunks (Node b sb rb lb rrb)) by left.
    assert (sb < sz) by (eapply (trie_lt n); [apply Hl|apply Hr|lia|done|done]).
    assert (r' <= sb - nb) by (apply (Hb' b); [done|]; apply (Hg b); inl). lia.
Qed.

(** ** The walk down the bin of the request *)

(** Sizes on the two sides of the next bit of the request. *)
Lemma side_prefix n d : d = Z.testbit nb (Z.of_nat n) ->
  nb ≫ Z.of_nat n = 2 * (nb ≫ Z.of_nat (S n)) + Z.b2z d.
Proof. intros ->. apply shiftr_next. Qed.

Lemma shiftr_lt_mono m n x y : (m <= n)%nat -> y ≫ Z.of_nat n < x ≫ Z.of_nat n -> y ≫ Z.of_nat m < x ≫ Z.of_nat m.
Proof using.
  intros Hmn H. replace (Z.of_nat n) with (Z.of_nat m + (Z.of_nat n - Z.of_nat m)) in H by lia.
  rewrite <-!Z.shiftr_shiftr in H by lia. rewrite !(Z.shiftr_div_pow2 _ (Z.of_nat n - Z.of_nat m)) in H by lia.
  destruct (Z.lt_ge_cases (y ≫ Z.of_nat m) (x ≫ Z.of_nat m)) as [|Hge]; [done|exfalso].
  pose proof (Z.div_le_mono _ _ (2 ^ (Z.of_nat n - Z.of_nat m)) ltac:(apply Z.pow_pos_nonneg; lia) Hge). lia.
Qed.

Lemma shiftr_lt n x y : y ≫ Z.of_nat n < x ≫ Z.of_nat n -> y < x.
Proof using. intros H. apply (shiftr_lt_mono 0 n) in H; [|lia]. change (Z.of_nat 0) with 0 in H. by rewrite !Z.shiftr_0_r in H. Qed.

(** No chunk of the tree, which has some, is larger than [sz]. *)
Definition above (t : tree) (sz : Z) : Prop := t <> Leaf /\ forall a sz', (a, sz') ∈ chunks t -> sz' <= sz.

(** What the walk leaves to do: every chunk that is large enough is no better than the one found,
    is in the tree to go on with, or is no better than any of that tree. *)
Definition left_to_do (rsize : Z) (t1 t2 : tree) : Prop := forall a sz, (a, sz) ∈ cs -> nb <= sz ->
  rsize <= sz - nb \/ (a, sz) ∈ chunks t1 \/ (a, sz) ∈ chunks t2 \/ above t2 sz.

Lemma fit_walk_ok fuel t n v rsize t2 n2 hi2 :
  (height t <= fuel)%nat -> (n <= 64)%nat -> t <> Leaf -> subtree t n (nb ≫ Z.of_nat n) -> subtree t2 n2 hi2 -> NoDup (addrs t) ->
  (forall a sz, (a, sz) ∈ chunks t2 -> nb ≫ Z.of_nat n < sz ≫ Z.of_nat n) ->
  cand nb cs v rsize -> 0 < rsize -> left_to_do rsize t t2 ->
  exists t' v' rsize' n' hi', fit_walk fuel nb (root t) (walk_key nb n) v rsize (root t2) s = Ok ((root t', v', rsize'), s) /\
    subtree t' n' hi' /\ ((height t' <= height t)%nat \/ t' = t2) /\ cand nb cs v' rsize' /\
    (rsize' = 0 \/ forall a sz, (a, sz) ∈ chunks t' -> nb <= sz) /\ left_to_do rsize' Leaf t'.
Proof.
  revert t n v rsize t2 n2 hi2. induction fuel as [|fuel IH]; intros t n v rsize t2 n2 hi2 Hh Hn Hnl Hsub Hsub2 Hnd Hgt Hc Hpos Htodo.
  { destruct t; [done|]. simpl in Hh. lia. }
  destruct t as [|a s0 ring l r]; [done|]. clear Hnl.
  pose proof (subtree_node _ _ _ _ _ _ _ Hsub) as (Ha & Hsz & Hs0 & Hin & E0 & E1 & Hz & Hsucc).
  (* going on below, with the better of the two *)
  assert (Hcont : forall v1 r1, cand nb cs v1 r1 -> 0 < r1 -> r1 <= rsize -> (nb <= s0 -> r1 <= s0 - nb) -> s0 <> nb ->
    exists t' v' rsize' n' hi', (rt ← rd child1 a;
        t ← rd (child (bool_decide ((walk_key nb n ≫ (SIZE_T_BITSIZE - 1)) .& 1 <> 0))) a;
        let rst := if decide (rt <> 0 /\ rt <> t) then rt else root t2 in
        if decide (t = 0) then mret (rst, v1, r1) else fit_walk fuel nb t (u64 (walk_key nb n ≪ 1)) v1 r1 rst) s = Ok ((root t', v', rsize'), s) /\
      subtree t' n' hi' /\ ((height t' <= S (height l `max` height r))%nat \/ t' = t2) /\ cand nb cs v' rsize' /\
      (rsize' = 0 \/ forall a sz, (a, sz) ∈ chunks t' -> nb <= sz) /\ left_to_do rsize' Leaf t').
  { intros v1 r1 Hc1 Hp1 Hle1 Hb1 Hne. destruct n as [|n].
    { exfalso. destruct Hsub as [_ _ [Hs _]]. change (Z.of_nat 0) with 0 in Hs. rewrite !Z.shiftr_0_r in Hs. done. }
    destruct (Hsucc n eq_refl) as [Hl Hr]. rewrite walk_key_bit, walk_key_next by lia. rewrite Nat.sub_succ, Nat.sub_0_r.
    replace (Z.of_nat (S n) - 1) with (Z.of_nat n) by lia. set (d := Z.testbit nb (Z.of_nat n)).
    pose proof (side_prefix n d eq_refl) as Hpre. clearbody d.
    rewrite !rd_bind, E1 by done. replace (child d (get (mem s) a)) with (root (side d l r)) by (by destruct d).
    rewrite addrs_node in Hnd. cbv zeta. set (rt := if decide (root r <> 0 /\ _) then _ else _).
    assert (Hrt : exists t3 n3 hi3, rt = root t3 /\ subtree t3 n3 hi3 /\ ((height t3 <= S (height l `max` height r))%nat \/ t3 = t2) /\
      (forall x sz, (x, sz) ∈ chunks t3 -> nb ≫ Z.of_nat n < sz ≫ Z.of_nat n) /\ left_to_do r1 (side d l r) t3).
    { assert (Hold : (d = true \/ r = Leaf) -> forall x sz, (x, sz) ∈ chunks r -> nb <= sz -> (x, sz) ∈ chunks (side d l r)).
      { intros [->| ->] x sz Hx _; [done|by apply elem_of_nil in Hx]. }
      destruct (decide (d = true \/ r = Leaf)) as [Hd|Hd].
      - exists t2, n2, hi2. split; [|split; [done|split; [by right|split]]].
        + unfold rt. destruct Hd as [->| ->]; [by rewrite decide_False by (simpl; tauto)|by rewrite decide_False by (simpl; tauto)].
        + intros x sz Hx. apply (shiftr_lt_mono n (S n)); [lia|by apply (Hgt x)].
        + intros x sz Hx Hn'. destruct (Htodo x sz Hx Hn') as [?|[Hx'|[?|?]]]; [left; lia| |tauto|tauto].
          apply elem_node in Hx' as [->|[Hx'|Hx']]; [left; auto| |right; left; by apply (Hold Hd)].
          destruct d; [|by right; left]. exfalso. apply (sub_trie _ _ _) in Hl. apply (trie_prefix _ _ _ _ _ Hl) in Hx'.
          simpl Z.b2z in Hpre. assert (sz < nb) by (apply (shiftr_lt n); lia). lia.
      - assert (d = false) as -> by (destruct d; tauto). assert (Hrl : r <> Leaf) by tauto.
        assert (Hrr : root r <> 0) by (intros E; apply Hrl; by apply (subtree_root _ _ _ Hr)).
        assert (Hne' : root r <> root l).
        { destruct l as [|b ? ? ? ?]; [done|]. destruct r as [|c ? ? ? ?]; [done|]. simpl. intros ->.
          apply NoDup_cons in Hnd as [_ Hnd]. apply NoDup_app in Hnd as (_ & _ & Hnd). apply NoDup_app in Hnd as (_ & Hd2 & _).
          apply (Hd2 b); rewrite addrs_node; left. }
        exists r, n, (2 * (nb ≫ Z.of_nat (S n)) + 1). split; [|split; [done|split; [left; lia|split]]].
        + unfold rt. by rewrite decide_True.
        + intros x sz Hx. apply (trie_prefix _ _ _ _ _ (sub_trie _ _ _ Hr)) in Hx. simpl Z.b2z in Hpre. lia.
        + assert (Hlow : forall x sz y sz', (x, sz) ∈ chunks r -> (y, sz') ∈ chunks t2 -> sz < sz').
          { intros x sz y sz' Hx Hy. apply Hgt in Hy. apply (shiftr_lt (S n)).
            rewrite (trie_prefix _ _ (Node a s0 ring l r) x sz (sub_trie _ _ _ Hsub)); [done|]. cbn [chunks]. inl. }
          intros x sz Hx Hn'. destruct (Htodo x sz Hx Hn') as [?|[Hx'|[Hx'|[Hne2 Hab]]]]; [left; lia| | |].
          * apply elem_node in Hx' as [->|[Hx'|Hx']]; [left; auto|tauto|tauto].
          * right; right; right. split; [done|]. intros y sz' Hy. apply Z.lt_le_incl. by apply (Hlow y sz' x sz).
          * right; right; right. split; [done|]. intros y sz' Hy. destruct t2 as [|e se re le rre]; [done|].
            specialize (Hlow y sz' e se Hy ltac:(left)). specialize (Hab e se ltac:(left)). lia. }
    destruct Hrt as (t3 & n3 & hi3 & -> & Hsub3 & Hh3 & Hgt3 & Htodo3).
    assert (Hside : subtree (side d l r) n (nb ≫ Z.of_nat n)).
    { rewrite Hpre. destruct d; simpl; [done|]. by rewrite Z.add_0_r. }
    cbv zeta. destruct (decide (root (side d l r) = 0)) as [Er|Er].
    - apply (subtree_root _ _ _ Hside) in Er. rewrite Er in Htodo3. exists t3, v1, r1, n3, hi3. split; [done|]. split; [done|].
      split; [done|]. split; [done|]. split; [right|done]. intros x sz Hx. apply Hgt3 in Hx. apply shiftr_lt in Hx. lia.
    - destruct (IH (side d l r) n v1 r1 t3 n3 hi3) as (t' & v' & r' & n' & hi' & Hrun & Hs' & Hh' & Hrest); try done.
      + simpl in Hh. destruct d; simpl; lia.
      + lia.
      + intros E. apply Er. by rewrite E.
      + apply NoDup_cons in Hnd as [_ Hnd]. apply NoDup_app in Hnd as (_ & _ & Hnd). apply NoDup_app in Hnd as (? & _ & ?). by destruct d.
      + exists t', v', r', n', hi'. split; [done|]. split; [done|]. split; [|done].
        destruct Hh' as [?| ->]; [left; destruct d; simpl in *; lia|done]. }
  cbn [fit_walk root]. unfold csize. rewrite rd_bind, Hsz by done.
  pose proof (cand_step nb cs v rsize a s0 nb_range Hs0 Ha Hin (fun c Hc => proj2 (cs_range c Hc)) Hc) as Hstep. cbv zeta in Hstep.
  cbv zeta. destruct (decide (u64 (s0 - nb) < rsize)) as [Hb|Hb].
  - rewrite bool_decide_eq_true_2 by done. destruct Hstep as (Hc1 & Hle1 & Hb1 & Hz1). cbn [andb].
    destruct (decide (u64 (s0 - nb) = 0)) as [Ez|Ez].
    + rewrite (bool_decide_eq_true_2 (u64 (s0 - nb) = 0)) by done.
      exists (Node a s0 ring l r), a, (u64 (s0 - nb)), n, (nb ≫ Z.of_nat n). split; [done|]. split; [done|]. split; [by left|].
      split; [done|]. split; [by left|]. intros x sz Hx Hsz'. left. rewrite Ez. lia.
    + rewrite (bool_decide_eq_false_2 (u64 (s0 - nb) = 0)) by done. apply Hcont; try done; [|tauto].
      destruct Hc1 as [[_ ->]|(_ & ? & _)]; lia.
  - rewrite bool_decide_eq_false_2 by done. destruct Hstep as (_ & _ & Hb1 & Hz1). cbn [andb]. apply Hcont; try done. intros E. lia.
Qed.
End proofs.

(** ** Best fit over all bins *)
Section fit.
Context (gm_addr : Z).

Lemma elem_bins s ts cs c : bins_ok gm_addr s ts cs -> (c ∈ cs <-> exists i t, ts !! i = Some t /\ c ∈ chunks t).
Proof.
  intros Hb. rewrite (bins_chunks _ _ _ _ Hb), list_elem_of_In, in_concat. split.
  - intros (l & Hl & Hc). apply list_elem_of_In, list_elem_of_lookup in Hl as [i Hi]. rewrite list_lookup_fmap in Hi.
    apply fmap_Some in Hi as (t & Ht & ->). exists i, t. split; [done|]. by apply list_elem_of_In.
  - intros (i & t & Ht & Hc). exists (chunks t). rewrite <-!list_elem_of_In. split; [|done].
    apply (list_elem_of_lookup_2 _ i). by rewrite list_lookup_fmap, Ht.
Qed.

Lemma bins_large s ts cs a sz : bins_ok gm_addr s ts cs -> (a, sz) ∈ cs -> large sz.
Proof. intros Hb H. apply (elem_bins _ _ _ _ Hb) in H as (i & t & Ht & Hc). by apply (bins_each _ _ _ _ Hb _ _ Ht) in Hc as (_ & _ & ? & _). Qed.

Lemma large_range sz : large sz -> 0 <= sz < 2 ^ 64.
Proof. unfold large, MAX_TREE_SIZE. change MIN_LARGE_SIZE with 256. lia. Qed.

(** The tree of a bin meets what the searches ask of a tree. *)
Lemma bin_search s ts cs i t : bins_ok gm_addr s ts cs -> ts !! i = Some t ->
  (i < 32)%nat /\ treebins (gm s) !! i = Some (root t) /\ is_marked (treemap (gm s)) (Z.of_nat i) = negb (empty_tree t) /\
  subtree s (chunks t) t (bin_bits (Z.of_nat i)) (bin_prefix (Z.of_nat i)) /\ NoDup (addrs t) /\ (height t <= TREE_FUEL)%nat /\
  (forall c, c ∈ chunks t -> 0 <= c.2 < 2 ^ 64) /\ sized (mem s) (chunks t) /\ (forall x, x ∈ (chunks t).*1 -> x <> 0) /\
  (forall a sz, (a, sz) ∈ chunks t -> large sz /\ compute_tree_index sz = Z.of_nat i).
Proof.
  intros Hb Ht. destruct (bin_tree_at _ _ _ _ _ _ Hb Ht) as [_ _ T3 T4 T5 _ T7]. destruct (bins_each _ _ _ _ Hb _ _ Ht) as [B1 B2 B3 B4 B5].
  rewrite Nat2Z.id in B1. split; [apply lookup_lt_Some in Ht; by rewrite (bins_len _ _ _ _ Hb) in Ht|].
  split; [done|]. split; [done|]. split; [split; [by eexists|done|done]|]. split; [done|]. split; [done|]. split.
  - intros [a sz] Hc. apply B5 in Hc as (_ & _ & Hc & _). by apply large_range.
  - split; [intros a sz Hc; by apply B5 in Hc as [? _]|]. split; [intros x Hx; destruct (T5 x Hx); lia|].
    intros a sz Hc. by apply B5 in Hc as (_ & _ & ? & ?).
Qed.

Lemma nonempty_elem t : empty_tree t = false -> exists a sz, (a, sz) ∈ chunks t.
Proof. destruct t as [|a sz ring l r]; [done|]. intros _. exists a, sz. left. Qed.

Lemma treebin_at_bind {A} i (k : Z -> cmd dl_st A) s p :
  treebins (gm s) !! Z.to_nat i = Some p -> (treebin_at gm_addr i ≫= k) s = k p s.
Proof.
  intros H. unfold treebin_at. rewrite bind_assoc. change (get_st ≫= ?k) with (fun s => k s s). cbv beta.
  unfold lift_opt at 1. by rewrite H, ret_bind.
Qed.

(** A chunk of a higher bin is larger. *)
Lemma bins_mono s ts cs i j t t' a sz a' sz' : bins_ok gm_addr s ts cs -> ts !! i = Some t -> ts !! j = Some t' ->
  (i < j)%nat -> (a, sz) ∈ chunks t -> (a', sz') ∈ chunks t' -> sz < sz'.
Proof.
  intros Hb Ht Ht' Hij Ha Ha'. destruct (bin_search _ _ _ _ _ Hb Ht) as (_ & _ & _ & _ & _ & _ & _ & _ & _ & H1).
  destruct (bin_search _ _ _ _ _ Hb Ht') as (_ & _ & _ & _ & _ & _ & _ & _ & _ & H2).
  apply H1 in Ha as [L1 I1]. apply H2 in Ha' as [L2 I2]. apply tree_index_mono; [done|done|lia].
Qed.

(** The smallest of a whole bin is the best of all bins from there on. *)
Lemma smallest_bin s ts cs i t nb : bins_ok gm_addr s ts cs -> ts !! i = Some t -> empty_tree t = false -> 0 < nb < 2 ^ 64 ->
  (forall a sz, (a, sz) ∈ chunks t -> nb <= sz) ->
  exists v r, smallest TREE_FUEL nb (root t) 0 (2 ^ 64 - nb) s = Ok ((v, r), s) /\ v <> 0 /\ cand nb cs v r /\
    forall j t' a sz, (i <= j)%nat -> ts !! j = Some t' -> (a, sz) ∈ chunks t' -> r <= sz - nb.
Proof.
  intros Hb Ht Hne Hnb Hge. destruct (bin_search _ _ _ _ _ Hb Ht) as (_ & _ & _ & S1 & _ & S3 & S4 & S5 & S6 & S7).
  destruct (smallest_ok s nb (chunks t) Hnb S4 S5 S6 TREE_FUEL t _ _ 0 (2 ^ 64 - nb) S1 S3) as (v & r & Hrun & Hc & _ & Hbest); [by left|by right|].
  destruct (nonempty_elem t Hne) as (e & se & He). pose proof (Hbest e se He (Hge e se He)) as Hr.
  exists v, r. split; [done|]. split; [|split].
  - destruct Hc as [[-> ->]|[? _]]; [|done]. apply S4 in He. simpl in He. lia.
  - eapply cand_mono; [|exact Hc]. intros c Hin. apply (elem_bins _ _ _ _ Hb). eauto.
  - intros j t' a sz Hij Ht' Ha. destruct (decide (i = j)) as [<-|].
    + rewrite Ht in Ht'. injection Ht' as <-. apply (Hbest a); [done|]. by apply (Hge a).
    + assert (se < sz) by (apply (bins_mono s ts cs i j t t' e se a sz); try done; lia). lia.
Qed.

(** [tmalloc_large] finds a smallest chunk of at least [nb] bytes, and none only if there is none. *)
Lemma fit_large_ok s cs nb : large_inv gm_addr s cs -> large nb ->
  exists v r, fit_large gm_addr nb s = Ok ((v, r), s) /\ cand nb cs v r /\ best nb r cs.
Proof.
  intros [ts Hb] Hnb. pose proof (large_range nb Hnb) as Hr64. assert (Hpos : 0 < nb < 2 ^ 64) by (unfold large in Hnb; change MIN_LARGE_SIZE with 256 in Hnb; lia).
  pose proof (tree_index_range nb Hnb) as Hidx. unfold fit_large. cbv zeta. set (idx := compute_tree_index nb) in *.
  assert (Hneg : u64 (- nb) = 2 ^ 64 - nb) by (unfold wrap; zlia).
  destruct (lookup_lt_is_Some_2 ts (Z.to_nat idx)) as [t Ht]; [rewrite (bins_len _ _ _ _ Hb); lia|].
  destruct (bin_search _ _ _ _ _ Hb Ht) as (_ & S0 & _ & S1 & S2 & S3 & S4 & S5 & S6 & S7). rewrite Z2Nat.id in S1, S7 by lia.
  rewrite (treebin_at_bind _ _ _ _ S0), Hneg, leftshift_spec by done.
  assert (Hincs : forall c, c ∈ chunks t -> c ∈ cs) by (intros c Hc; apply (elem_bins _ _ _ _ Hb); eauto).
  (* after the walk *)
  assert (Hwalk : exists t' v r n' hi', (if decide (root t <> 0) then fit_walk TREE_FUEL nb (root t) (walk_key nb (bin_bits idx)) 0 (2 ^ 64 - nb) 0
        else mret (root t, 0, 2 ^ 64 - nb)) s = Ok ((root t', v, r), s) /\
      subtree s (chunks t) t' n' hi' /\ (height t' <= TREE_FUEL)%nat /\ cand nb (chunks t) v r /\
      (r = 0 \/ forall a sz, (a, sz) ∈ chunks t' -> nb <= sz) /\ left_to_do nb (chunks t) r Leaf t').
  { destruct (decide (root t <> 0)) as [Hne|He].
    - assert (Hleaf : subtree s (chunks t) Leaf 0 0) by (split; [by exists 0|by intros c Hc%elem_of_nil|done]).
      destruct (fit_walk_ok s nb (chunks t) Hpos S4 S5 S6 TREE_FUEL t (bin_bits idx) 0 (2 ^ 64 - nb) Leaf 0 0)
        as (t' & v & r & n' & hi' & Hrun & Hs & Hh & Hrest); try done.
      + by apply bin_bits_max.
      + by intros ->.
      + by rewrite bin_prefix_spec.
      + intros a sz Ha. by apply elem_of_nil in Ha.
      + by left.
      + lia.
      + intros a sz Ha _. right. by left.
      + exists t', v, r, n', hi'. split; [done|]. split; [done|]. split; [|done]. destruct Hh as [?| ->]; [lia|]. simpl. lia.
    - assert (root t = 0) as Er by (destruct (decide (root t = 0)); tauto). apply (subtree_root _ _ _ Hpos S4 S5 S6 _ _ _ S1) in Er. subst t.
      exists Leaf, 0, (2 ^ 64 - nb), (bin_bits idx), (bin_prefix idx). split; [done|]. split; [done|]. split; [done|]. split; [by left|].
      split; [right; intros a sz Ha; by apply elem_of_nil in Ha|]. intros a sz Ha. by apply elem_of_nil in Ha. }
  destruct Hwalk as (t' & v & r & n' & hi' & Hrun & Hsub' & Hh' & Hc & Hge & Htodo). rewrite (bind_ok _ _ _ _ _ Hrun). cbv beta iota.
  (* chunks of the lower bins are too small *)
  assert (Hlow : forall j tj a sz, (j < Z.to_nat idx)%nat -> ts !! j = Some tj -> (a, sz) ∈ chunks tj -> nb <= sz -> False).
  { intros j tj a sz Hj Htj Ha Hn. destruct (bin_search _ _ _ _ _ Hb Htj) as (_ & _ & _ & _ & _ & _ & _ & _ & _ & H1). apply H1 in Ha as [L I].
    assert (sz < nb) by (apply tree_index_mono; [done|done|fold idx; lia]). lia. }
  pose proof (subtree_root _ _ _ Hpos S4 S5 S6 _ _ _ Hsub') as Hroot'.
  destruct (decide (root t' = 0 /\ v = 0)) as [[E1 E2]|Hsome].
  - apply Hroot' in E1. subst t' v. assert (r = 2 ^ 64 - nb) as -> by (destruct Hc as [[_ ?]|[? _]]; done).
    assert (Hnone : forall a sz, (a, sz) ∈ chunks t -> nb <= sz -> False).
    { intros a sz Ha Hn. destruct (Htodo a sz Ha Hn) as [H|[H|[H|[H _]]]]; [|by apply elem_of_nil in H..|done]. apply S4 in Ha. simpl in Ha. lia. }
    rewrite bind_assoc, gets_bind. cbv zeta. destruct (next_bin (treemap (gm s)) idx (bins_map _ _ _ _ Hb) Hidx) as [N0 N1].
    set (lb := left_bits (idx2bit idx) .& treemap (gm s)) in *. destruct (decide (lb <> 0)) as [Hlb|Hlb].
    + destruct (N1 Hlb) as (Hj & Hmark & Hbetween). set (j := compute_bit2idx (least_bit lb)) in *.
      destruct (lookup_lt_is_Some_2 ts (Z.to_nat j)) as [tj Htj]; [rewrite (bins_len _ _ _ _ Hb); lia|].
      destruct (bin_search _ _ _ _ _ Hb Htj) as (_ & Q0 & Q1 & _ & _ & _ & _ & _ & _ & Q7). rewrite Z2Nat.id in Q1, Q7 by lia.
      rewrite (treebin_at_bind _ _ _ _ Q0). rewrite Hmark in Q1. assert (Hne : empty_tree tj = false) by (by destruct (empty_tree tj)).
      destruct (smallest_bin s ts cs (Z.to_nat j) tj nb Hb Htj Hne Hpos) as (v & r & Hrun' & Hv & Hc' & Hbest).
      { intros a sz Ha. apply Q7 in Ha as [L I]. apply Z.lt_le_incl, tree_index_mono; [done|done|fold idx; lia]. }
      exists v, r. split; [done|]. split; [done|]. intros a sz Ha Hn. apply (elem_bins _ _ _ _ Hb) in Ha as (k & tk & Htk & Ha).
      destruct (decide (k < Z.to_nat idx)%nat) as [?|Hk1]; [by destruct (Hlow k tk a sz)|].
      destruct (decide (k = Z.to_nat idx)) as [->|Hk2]; [rewrite Ht in Htk; injection Htk as <-; by destruct (Hnone a sz)|].
      destruct (decide (Z.to_nat j <= k)%nat) as [?|Hk3]; [by apply (Hbest k tk a)|]. exfalso.
      destruct (bin_search _ _ _ _ _ Hb Htk) as (_ & _ & R1 & _). rewrite Hbetween in R1 by lia. destruct tk; [by apply elem_of_nil in Ha|done].
    + rewrite ret_bind. exists 0, (2 ^ 64 - nb). split; [done|]. split; [by left|]. assert (lb = 0) as Hz by (destruct (decide (lb = 0)); tauto).
      intros a sz Ha Hn. exfalso. apply (elem_bins _ _ _ _ Hb) in Ha as (k & tk & Htk & Ha).
      destruct (decide (k < Z.to_nat idx)%nat) as [?|Hk1]; [by destruct (Hlow k tk a sz)|].
      destruct (decide (k = Z.to_nat idx)) as [->|Hk2]; [rewrite Ht in Htk; injection Htk as <-; by destruct (Hnone a sz)|].
      destruct (bin_search _ _ _ _ _ Hb Htk) as (Hk32 & _ & R1 & _). rewrite (N0 Hz) in R1 by lia. destruct tk; [by apply elem_of_nil in Ha|done].
  - rewrite ret_bind. destruct (smallest_ok s nb (chunks t) Hpos S4 S5 S6 TREE_FUEL t' _ _ v r Hsub' Hh' Hc Hge) as (v' & r' & Hrun' & Hc' & Hle' & Hbest').
    exists v', r'. split; [done|]. split; [by eapply cand_mono|].
    (* a chunk of this bin that the result is no worse than *)
    assert (Hex : exists a sz, (a, sz) ∈ chunks t /\ nb <= sz /\ r' <= sz - nb).
    { destruct Hc' as [[-> ->]|(Hv & Hp & Hin)]; [|exists v', (nb + r'); split; [done|lia]]. exfalso.
      destruct Hc as [[-> ->]|(Hv & Hp & Hin)].
      - assert (Hnr : root t' <> 0) by tauto. destruct t' as [|e se re le rre]; [done|].
        destruct Hge as [?|Hge]; [lia|]. pose proof (Hge e se ltac:(left)) as Hn. pose proof (Hbest' e se ltac:(left) Hn).
        pose proof (sub_in _ _ _ _ _ Hsub' (e, se) ltac:(left)) as Hin. apply S4 in Hin. simpl in Hin. lia.
      - apply S4 in Hin. simpl in Hin. lia. }
    destruct Hex as (e & se & He & Hne & Hre). intros a sz Ha Hn. apply (elem_bins _ _ _ _ Hb) in Ha as (k & tk & Htk & Ha).
    destruct (decide (k < Z.to_nat idx)%nat) as [?|Hk1]; [by destruct (Hlow k tk a sz)|].
    destruct (decide (k = Z.to_nat idx)) as [->|Hk2].
    + rewrite Ht in Htk. injection Htk as <-. destruct (Htodo a sz Ha Hn) as [?|[H|[H|[Hnl H]]]]; [lia|by apply elem_of_nil in H|by apply (Hbest' a)|].
      destruct t' as [|e1 se1 re le rre]; [done|]. specialize (H e1 se1 ltac:(left)). destruct Hge as [Hr0|Hge]; [destruct Hc' as [[_ ->]|(_ & ? & _)]; lia|].
      specialize (Hbest' e1 se1 ltac:(left) (Hge e1 se1 ltac:(left))). lia.
    + assert (se < sz) by (apply (bins_mono s ts cs (Z.to_nat idx) k t tk e se a sz); try done; lia). lia.
Qed.

(** [tmalloc_small] finds a smallest chunk, when there is one at all. *)
Lemma fit_small_ok s cs nb : large_inv gm_addr s cs -> treemap (gm s) <> 0 -> 0 < nb < MIN_LARGE_SIZE ->
  exists v r, fit_small gm_addr nb s = Ok ((v, r), s) /\ v <> 0 /\ cand nb cs v r /\ best nb r cs.
Proof.
  intros [ts Hb] Hm Hnb. change MIN_LARGE_SIZE with 256 in Hnb. pose proof (bins_map _ _ _ _ Hb) as Hmf.
  destruct (least_index (treemap (gm s)) Hmf) as [_ Hidx]. specialize (Hidx Hm). cbv zeta in Hidx.
  unfold fit_small. rewrite gets_bind. set (i := compute_bit2idx (least_bit (treemap (gm s)))) in *. destruct Hidx as (Hi & Hmark & Hbelow).
  destruct (lookup_lt_is_Some_2 ts (Z.to_nat i)) as [t Ht]; [rewrite (bins_len _ _ _ _ Hb); lia|].
  destruct (bin_search _ _ _ _ _ Hb Ht) as (_ & S0 & Smark & _ & _ & _ & _ & S5 & S6 & S7). rewrite Z2Nat.id in Smark, S7 by lia.
  assert (Hne : empty_tree t = false) by (unfold is_marked in Smark; rewrite Hmark in Smark; by destruct (empty_tree t)).
  assert (Hge : forall a sz, (a, sz) ∈ chunks t -> nb <= sz).
  { intros a sz Ha. apply S7 in Ha as [L _]. unfold large in L. change MIN_LARGE_SIZE with 256 in L. lia. }
  destruct (smallest_bin s ts cs (Z.to_nat i) t nb Hb Ht Hne ltac:(lia) Hge) as (v & r & Hrun & Hv & Hc & Hbest).
  exists v, r. split; [|split; [done|split; [done|]]].
  - rewrite (treebin_at_bind _ _ _ _ S0). destruct t as [|a s0 ring l rr]; [done|]. clear Hne.
    assert (Ha : a <> 0) by (apply S6; left). pose proof (S5 a s0 ltac:(left)) as Hs0. pose proof (Hge a s0 ltac:(left)) as Hn.
    pose proof (S7 a s0 ltac:(left)) as [L _]. unfold large, MAX_TREE_SIZE in L.
    assert (Eu : u64 (s0 - nb) = s0 - nb) by (unfold wrap; zlia).
    change TREE_FUEL with (S (TREE_FUEL - 1)) in Hrun. cbn [smallest root] in Hrun. rewrite decide_False in Hrun by done.
    unfold csize in *. rewrite rd_bind, Hs0, Eu in Hrun by done. cbv zeta in Hrun.
    rewrite (decide_True (P := s0 - nb < 2 ^ 64 - nb)) in Hrun by lia. simpl root.
    rewrite rd_bind, Hs0, Eu by done. exact Hrun.
  - intros a sz Ha Hn. apply (elem_bins _ _ _ _ Hb) in Ha as (k & tk & Htk & Ha).
    destruct (decide (Z.to_nat i <= k)%nat) as [?|Hk]; [by apply (Hbest k tk a)|]. exfalso.
    destruct (bin_search _ _ _ _ _ Hb Htk) as (_ & _ & R1 & _). unfold is_marked in R1. rewrite Hbelow in R1 by lia.
    destruct tk; [by apply elem_of_nil in Ha|done].
Qed.
End fit.
