(* ===== verification/DlSmall.v ===== *)
(** The small bins of the C library's allocator: the small free chunks as a set.

    [small_inv s cs] says that the 32 rings in memory hold exactly the chunks [cs], each in the ring of
    its size, and that [smallmap] marks the rings that are not empty. The header of an empty ring is
    not relied on: [unlink_small_chunk] leaves it stale. *)
From S2P Require Import Prelude DlBins DlHeap DlTree DlUnlink DlLarge.

Definition small (sz : Z) : Prop := MIN_CHUNK_SIZE <= sz < MIN_LARGE_SIZE /\ sz mod 8 = 0.
Definition with_smallmap (g g' : malloc_state) : Prop := g' = set_smallmap (smallmap g') g.

Lemma small_index_eq sz : small sz -> small_index sz = sz / 8 /\ 4 <= sz / 8 < 32 /\ sz = 8 * (sz / 8).
Proof.
  unfold small. rewrite min_chunk_size. change MIN_LARGE_SIZE with 256. intros [Hr Hm]. unfold small_index, SMALLBIN_SHIFT.
  rewrite Z.shiftr_div_pow2 by lia. split; [apply wrap_small; zlia|zlia].
Qed.

Section small.
Context (gm_addr : Z).
Abbreviation hdr := (smallbin_at gm_addr).

Definition header (a : Z) : Prop := exists i, 0 <= i < 32 /\ a = hdr i.

Lemma hdr_inj i j : hdr i = hdr j -> i = j.
Proof. unfold smallbin_at. rewrite !Z.shiftl_mul_pow2 by lia. lia. Qed.

Definition empty {A} (l : list A) : bool := match l with [] => true | _ => false end.

Record sbin_ok (s : dl_st) (i : Z) (l : list (Z * Z)) : Prop := {
  sbin_mark : is_marked (smallmap (gm s)) i = negb (empty l);
  sbin_ring : l <> [] -> seg (mem s) (hdr i) l.*1 (hdr i);
  sbin_sizes a sz : (a, sz) ∈ l -> sz = 8 * i /\ chunksize (get (mem s) a) = sz }.

Record sbins_ok (s : dl_st) (ls : list (list (Z * Z))) (cs : list (Z * Z)) : Prop := {
  sbins_len : length ls = 32%nat;
  sbins_map : fits 32 (smallmap (gm s));
  sbins_each i l : ls !! i = Some l -> sbin_ok s (Z.of_nat i) l;
  sbins_chunks : cs ≡ₚ concat ls;
  sbins_nodup : NoDup cs.*1;
  sbins_usable a : a ∈ cs.*1 -> usable s a /\ ~ header a }.

Definition small_inv (s : dl_st) (cs : list (Z * Z)) : Prop := exists ls, sbins_ok s ls cs.

Lemma sbin_in s ls cs i l c : sbins_ok s ls cs -> ls !! i = Some l -> c ∈ l -> c ∈ cs.
Proof.
  intros Hb Hi Hc. rewrite (sbins_chunks _ _ _ Hb). apply list_elem_of_In, in_concat. exists l.
  rewrite <-!list_elem_of_In. split; [by apply (list_elem_of_lookup_2 _ i)|done].
Qed.

(** A change to one ring. *)
Lemma sbins_update s s' ls cs i l l' :
  sbins_ok s ls cs -> ls !! i = Some l ->
  fits 32 (smallmap (gm s')) -> least_addr (gm s') = least_addr (gm s) ->
  (forall j, 0 <= j < 32 -> is_marked (smallmap (gm s')) j = if decide (j = Z.of_nat i) then negb (empty l') else is_marked (smallmap (gm s)) j) ->
  (forall x, (x ∈ cs.*1 /\ x ∉ l.*1 \/ header x /\ x <> hdr (Z.of_nat i)) -> fd (get (mem s') x) = fd (get (mem s) x) /\ bk (get (mem s') x) = bk (get (mem s) x)) ->
  (forall x, chunksize (get (mem s') x) = chunksize (get (mem s) x)) ->
  sbin_ok s' (Z.of_nat i) l' ->
  exists rest, cs ≡ₚ l ++ rest /\
    forall cs', cs' ≡ₚ l' ++ rest -> NoDup cs'.*1 -> (forall a, a ∈ cs'.*1 -> usable s' a /\ ~ header a) -> sbins_ok s' (<[i := l']> ls) cs'.
Proof.
  intros Hb Hi Hmap Hla Hmark Hmem Hsz Hok. pose proof Hb as [Hlen _ Heach Hcs Hnd Hus].
  assert (Hi32 : (i < 32)%nat) by (apply lookup_lt_Some in Hi; lia).
  destruct (concat_split ls i l Hi) as (rest & H1 & H2 & H3). exists rest. split; [by rewrite Hcs|].
  intros cs' Hcs' Hnd' Hus'. split; try done.
  - by rewrite length_insert.
  - intros j lj Hj. destruct (decide (j = i)) as [->|Hji]; [rewrite list_lookup_insert_eq in Hj by lia; by injection Hj as <-|].
    rewrite list_lookup_insert_ne in Hj by done. destruct (Heach j lj Hj) as [B1 B2 B3].
    assert (Hj32 : (j < 32)%nat) by (apply lookup_lt_Some in Hj; lia).
    assert (Hsame : forall x, x ∈ hdr (Z.of_nat j) :: lj.*1 -> fd (get (mem s') x) = fd (get (mem s) x) /\ bk (get (mem s') x) = bk (get (mem s) x)).
    { intros x [->|Hx]%elem_of_cons; apply Hmem; [right; split; [exists (Z.of_nat j); split; [lia|done]|intros E%hdr_inj; lia]|left].
      apply list_elem_of_fmap in Hx as ([a sz] & -> & Hx). pose proof (H3 j lj Hji Hj _ Hx) as Hr.
      split; [apply (list_elem_of_fmap_2 fst); by eapply sbin_in|].
      intros Hin. assert (Hnd2 : NoDup (l.*1 ++ rest.*1)) by (rewrite <-fmap_app, <-H1, <-Hcs; done).
      apply NoDup_app in Hnd2 as (_ & Hd & _). apply (Hd _ Hin). by apply (list_elem_of_fmap_2 fst) in Hr. }
    split.
    + rewrite Hmark, decide_False by lia. done.
    + intros Hne. apply (ring_ext (mem s)); [intros z Hz; by apply Hsame|intros z Hz; by apply Hsame|by apply B2].
    + intros a sz Ha. rewrite Hsz. by apply B3.
  - by rewrite Hcs', H2.
Qed.

Context (func : string) (Hgm : 0 < gm_addr).

Lemma hdr_pos i : 0 <= i -> 0 < hdr i.
Proof. intros Hi. unfold smallbin_at. rewrite Z.shiftl_mul_pow2 by lia. lia. Qed.

(** The ring of an index. *)
Lemma sbin_lookup s ls cs i : sbins_ok s ls cs -> 0 <= i < 32 -> exists l, ls !! Z.to_nat i = Some l /\ sbin_ok s i l /\
  NoDup l.*1 /\ (forall c, c ∈ l -> c ∈ cs) /\ forall x, x ∈ l.*1 -> x ∈ cs.*1 /\ usable s x /\ ~ header x /\ x <> hdr i.
Proof.
  intros Hb Hi. destruct (lookup_lt_is_Some_2 ls (Z.to_nat i)) as [l Hl]; [rewrite (sbins_len _ _ _ Hb); lia|].
  assert (Hin : forall c, c ∈ l -> c ∈ cs) by (intros c Hc; by eapply sbin_in).
  exists l. split; [done|]. split; [rewrite <-(Z2Nat.id i) by lia; by apply (sbins_each _ _ _ Hb)|]. split; [|split; [done|]].
  - destruct (concat_split ls (Z.to_nat i) l Hl) as (rest & H1 & _ & _). pose proof (sbins_nodup _ _ _ Hb) as Hnd.
    rewrite (sbins_chunks _ _ _ Hb), H1, fmap_app in Hnd. by apply NoDup_app in Hnd as [? _].
  - intros x Hx. apply list_elem_of_fmap in Hx as ([a sz] & -> & Hx). apply Hin in Hx. apply (list_elem_of_fmap_2 fst) in Hx.
    destruct (sbins_usable _ _ _ Hb _ Hx) as [? Hh]. split; [done|]. split; [done|]. split; [done|]. intros E. apply Hh. by exists i.
Qed.

Lemma insert_small_ok P S s cs : small_inv s cs -> small S -> usable s P -> ~ header P -> P ∉ cs.*1 -> chunksize (get (mem s) P) = S ->
  exists s', insert_small_chunk gm_addr func P S s = Ok (tt, s') /\ small_inv s' ((P, S) :: cs) /\
    frame (P :: hdr (small_index S) :: cs.*1) (mem s) (mem s') /\ same_info (mem s) (mem s') /\ with_smallmap (gm s) (gm s').
Proof.
  intros [ls Hb] HS HuP HhP HP HSz. destruct (small_index_eq S HS) as (EI & HI & ES). unfold insert_small_chunk. rewrite EI.
  set (I := S / 8) in *. assert (HIr : 0 <= I < 32) by lia. cbv zeta. pose proof (hdr_pos I ltac:(lia)) as HB0. set (B := hdr I) in *.
  destruct (sbin_lookup s ls cs I Hb HIr) as (l & Hl & [B1 B2 B3] & Hndl & Hlcs & Hlx). fold B in Hlx.
  assert (HPB : P <> B) by (intros ->; apply HhP; by exists I). assert (HP0 : P <> 0) by (destruct HuP; lia).
  set (F := hd_or B l.*1). assert (HFin : F ∈ B :: l.*1) by (unfold F; destruct l; simpl; [left|right; left]).
  assert (HFP : F <> P) by (intros E; rewrite E in HFin; apply elem_of_cons in HFin as [?|Hx]; [done|apply Hlx in Hx; tauto]).
  assert (HF0 : F <> 0) by (apply elem_of_cons in HFin as [->|Hx]; [lia|destruct (Hlx _ Hx) as (_ & [? _] & _); lia]).
  set (m' := mark_map (smallmap (gm s)) I). pose proof (sbins_map _ _ _ Hb) as Hmf.
  assert (Hmark : forall j, 0 <= j < 32 -> is_marked m' j = if decide (j = I) then true else is_marked (smallmap (gm s)) j).
  { intros j Hj. unfold m'. rewrite mark_map_bits by (done || lia). case_decide as E.
    - subst. rewrite bool_decide_eq_true_2 by done. apply orb_true_r.
    - rewrite bool_decide_eq_false_2 by congruence. apply orb_false_r. }
  set (h' := upd P (set_bk B) (upd P (set_fd F) (upd F (set_bk P) (upd B (set_fd P) (mem s))))).
  (* the map is right and the header's first chunk is [F], whichever way it was found *)
  assert (Hrun : exists m1, insert_small_chunk gm_addr func P S s = Ok (tt, mkDl (set_smallmap m1 (gm s)) h') /\ fits 32 m1 /\
    forall j, 0 <= j < 32 -> is_marked m1 j = if decide (j = I) then true else is_marked (smallmap (gm s)) j).
  { unfold insert_small_chunk. rewrite EI. fold B. cbv zeta. rewrite gets_bind. destruct (decide (map_is_marked (smallmap (gm s)) I = 0)) as [Em|Em].
    - apply map_is_marked_spec in Em; [|done]. rewrite B1 in Em. assert (l = []) as -> by (by destruct l). exists m'.
      rewrite bind_assoc, modify_bind, ret_bind. rewrite !wr_bind, wr_ok by (done || lia). split; [done|]. split; [by apply mark_map_fits|done].
    - rewrite map_is_marked_spec in Em by done. rewrite B1 in Em. assert (Hne : l <> []) by (intros ->; done). exists (smallmap (gm s)).
      pose proof (seg_first _ _ _ _ (B2 Hne)) as HF. fold B F in HF. rewrite bind_assoc, rd_bind, HF by lia. rewrite bind_assoc.
      rewrite rtcheck_bind by (apply ok_address_true; destruct l as [|[x z] l]; [done|]; unfold F; simpl; by apply (Hlx x); left).
      rewrite rd_bind, HF by lia. rewrite !wr_bind, wr_ok by (done || lia).
      split; [unfold set_mem; cbn [gm mem]; do 3 f_equal; by destruct (gm s)|]. split; [done|]. intros j Hj. case_decide; [subst j|done].
      rewrite B1. by destruct l. }
  destruct Hrun as (m1 & Hrun & Hm1 & Hmark1). eexists. split; [fold I B; cbv zeta; rewrite <-Hrun; unfold insert_small_chunk; by rewrite EI|].
  set (s' := mkDl _ h'). assert (Hinf : same_info (mem s) h') by (unfold h'; by repeat apply same_info_upd).
  split; [|split; [|split; [done|done]]].
  - destruct (sbins_update s s' ls cs (Z.to_nat I) l ((P, S) :: l) Hb Hl) as (rest & Hcs & Hnew); rewrite ?Z2Nat.id by lia; try done.
    + intros x Hx. fold B in Hx. assert (x <> P) by (intros ->; destruct Hx as [[? _]|[? _]]; done).
      assert (x <> B /\ x <> F).
      { destruct Hx as [[Hx Hxl]|[Hx HxB]].
        - assert (x <> B) by (intros ->; destruct (sbins_usable _ _ _ Hb _ Hx) as [_ Hh]; apply Hh; by exists I). split; [done|].
          intros ->. apply elem_of_cons in HFin as [?|?]; done.
        - split; [done|]. intros ->. apply elem_of_cons in HFin as [?|HF]; [done|]. apply Hlx in HF. tauto. }
      unfold s', h'. cbn [mem]. rewrite !get_upd_ne by (try done; tauto || (intros ->; tauto)). done.
    + intros x. by apply info_size.
    + split.
      * cbn. rewrite Hmark1 by done. by rewrite decide_True.
      * intros _. cbn [mem s']. fold B. simpl. split; [unfold h'; upds|]. split; [unfold h'; upds|].
        destruct l as [|[x z] l]; simpl in F.
        -- simpl. split; unfold h'; subst F; upds.
        -- assert (Hne : (x, z) :: l <> []) by done. specialize (B2 Hne). simpl in B2. fold B in B2. destruct B2 as (_ & _ & B2).
           assert (HxB : x <> B) by (apply Hlx; left). simpl.
           split; [unfold h'; upds|]. split; [unfold h'; subst F; upds|]. simpl in Hndl. apply NoDup_cons in Hndl as [Hxl Hndl].
           apply (ring_ext (mem s)); [| |done].
           ++ intros y Hy. assert (y <> P /\ y <> B).
              { assert (Hyl : y ∈ x :: l.*1) by done. apply (Hlx y) in Hyl as (Hy1 & _ & _ & ?). split; [by intros ->|done]. }
              unfold h'. upds; tauto.
           ++ intros y Hy. assert (y <> P /\ y <> x).
              { apply elem_of_cons in Hy as [->|Hy]; [by split; [|congruence]|]. split; [|by intros ->].
                intros ->. apply HP. apply (Hlx P). by right. }
              unfold h'. subst F. upds; tauto.
      * intros a sz [[= -> ->]|Ha]%elem_of_cons; cbn [mem s']; rewrite (info_size _ _ Hinf); [by split|]. by apply B3.
    + exists (<[Z.to_nat I := (P, S) :: l]> ls). apply Hnew.
      * rewrite Hcs. done.
      * simpl. apply NoDup_cons. split; [done|apply (sbins_nodup _ _ _ Hb)].
      * intros a [->|Ha]%elem_of_cons; [done|]. by apply (sbins_usable _ _ _ Hb).
  - cbn [mem s']. unfold h'. assert (F ∈ P :: B :: cs.*1) by (apply elem_of_cons in HFin as [->|Hx]; [right; left|right; right; by apply Hlx]).
    repeat apply frame_upd; try done; [by left|by left|by right; left].
Qed.

(** The state after [P] is taken out between [F] and [B]: the bin's mark is cleared when nothing is left. *)
Definition small_out (I F B : Z) (s : dl_st) : dl_st :=
  if decide (B = F) then set_gm (fun m => set_smallmap (clear_map (smallmap m) I) m) s else set_mem (unchained F B (mem s)) s.

Lemma small_out_ok s ls cs P S l1 l2 I :
  sbins_ok s ls ((P, S) :: cs) -> 0 <= I < 32 -> ls !! Z.to_nat I = Some (l1 ++ (P, S) :: l2) ->
  let s' := small_out I (hd_or (hdr I) l2.*1) (last_or (hdr I) l1.*1) s in
  small_inv s' cs /\ frame (P :: hdr I :: cs.*1) (mem s) (mem s') /\ same_info (mem s) (mem s') /\ with_smallmap (gm s) (gm s').
Proof.
  intros Hb HI Hl. destruct (sbin_lookup s ls _ I Hb HI) as (l & Hl' & [B1 B2 B3] & Hndl & Hlcs & Hlx).
  rewrite Hl in Hl'. injection Hl' as <-. pose proof (sbins_map _ _ _ Hb) as Hmf. pose proof (sbins_nodup _ _ _ Hb) as Hnd.
  set (H := hdr I) in *. set (F := hd_or H l2.*1). set (R := last_or H l1.*1). rewrite fmap_app, fmap_cons in B2, Hndl, Hlx. simpl in Hndl, B2, Hlx.
  assert (HHl : H ∉ l1.*1 ++ P :: l2.*1) by (intros Hin; apply Hlx in Hin; tauto).
  assert (HF : F ∈ H :: l2.*1) by apply hd_or_in.
  assert (HR : R ∈ H :: l1.*1) by apply last_or_in.
  assert (HcsP : forall x, x ∈ l1.*1 ++ P :: l2.*1 -> x <> P -> x ∈ cs.*1).
  { intros x Hx Hne. apply Hlx in Hx as (Hx & _). simpl in Hx. apply elem_of_cons in Hx as [?|?]; done. }
  assert (HPl : P ∉ l1.*1 ++ l2.*1).
  { apply NoDup_app in Hndl as (_ & Hd & [Hn _]%NoDup_cons). intros [Hx|Hx]%elem_of_app; [apply (Hd P Hx); left|done]. }
  assert (Hcase : R = F /\ l1 = [] /\ l2 = [] \/ R <> F /\ l1 ++ l2 <> []).
  { destruct l1 as [|c1 l1' _] using rev_ind.
    - destruct l2 as [|c2 l2']; [left; done|right]. split; [|done]. unfold R, F. simpl. intros E. change (last_or H []) with H in E. apply HHl. rewrite E. simpl. inl.
    - right. split; [|by destruct l1']. unfold R, F. rewrite fmap_app. simpl. rewrite last_or_snoc. rewrite fmap_app in HHl, Hndl. simpl in HHl, Hndl. intros E.
      destruct l2 as [|c2 l2']; simpl in E; [change (hd_or H []) with H in E; apply HHl; rewrite <-E; inl|].
      rewrite E in Hndl. apply NoDup_app in Hndl as (_ & Hd & _). apply (Hd c2.1); simpl; inl. }
  cbv zeta. set (s' := small_out I F R s).
  assert (Hnew : sbin_ok s' I (l1 ++ l2)).
  { unfold s', small_out. destruct Hcase as [(E & -> & ->)|[Hne Hnl]].
    - rewrite decide_True by done. split; [|done|intros a sz Ha; by apply elem_of_nil in Ha].
      cbn. rewrite clear_map_bits by (done || lia). rewrite bool_decide_eq_false_2 by tauto. apply andb_false_r.
    - rewrite decide_False by done. split; cbn [gm mem set_mem].
      + rewrite B1. by destruct l1, l2.
      + intros _. fold H. rewrite fmap_app. apply (seg_remove (mem s) _ H l1.*1 P l2.*1 H F R); try done; [apply unchained_fd|apply unchained_bk|apply B2; by destruct l1].
      + intros a sz Ha. rewrite (info_size (mem s)) by apply unchained_info. apply B3. apply elem_of_app in Ha as [?|?]; rewrite elem_of_app, elem_of_cons; tauto. }
  assert (Hmem : forall x, x <> H -> x ∉ l1.*1 ++ l2.*1 -> get (mem s') x = get (mem s) x).
  { intros x Hx1 Hx2. unfold s', small_out. destruct (decide (R = F)); [done|]. cbn [mem set_mem].
    apply (unchained_frame F R (mem s) (H :: l1.*1 ++ l2.*1)); [inl|inl|inl]. }
  assert (Hinf : same_info (mem s) (mem s')).
  { unfold s', small_out. destruct (decide (R = F)); [done|]. apply unchained_info. }
  split; [|split; [|split; [done|]]].
  - destruct (sbins_update s s' ls ((P, S) :: cs) (Z.to_nat I) (l1 ++ (P, S) :: l2) (l1 ++ l2) Hb Hl) as (rest & Hcs & Hfin); rewrite ?Z2Nat.id by lia; try done.
    + unfold s', small_out. destruct (decide (R = F)); [by apply clear_map_fits|done].
    + unfold s', small_out. by destruct (decide (R = F)).
    + intros j Hj. unfold s', small_out. destruct Hcase as [(E & -> & ->)|[Hne Hnl]].
      * rewrite decide_True by done. cbn. rewrite clear_map_bits by (done || lia). case_decide as Ej.
        -- subst. rewrite bool_decide_eq_false_2 by tauto. apply andb_false_r.
        -- rewrite bool_decide_eq_true_2 by congruence. apply andb_true_r.
      * rewrite decide_False by done. cbn. case_decide; [subst; rewrite B1|done]. by destruct l1, l2.
    + intros x Hx. rewrite fmap_app in Hx. simpl in Hx. rewrite Hmem; [done| |].
      * intros ->. destruct Hx as [[Hx _]|[_ ?]]; [|done]. destruct (sbins_usable _ _ _ Hb _ Hx) as [_ Hh]. apply Hh. by exists I.
      * intros Hin. destruct Hx as [[_ Hx]|[Hx _]]; [inl|].
        assert (Hx' : x ∈ l1.*1 ++ P :: l2.*1) by inl. apply Hlx in Hx'. tauto.
    + intros x. by apply info_size.
    + exists (<[Z.to_nat I := l1 ++ l2]> ls). apply Hfin.
      * apply (Permutation_cons_inv (a := (P, S))). rewrite Hcs. solve_Permutation.
      * simpl in Hnd. by apply NoDup_cons in Hnd as [_ ?].
      * intros a Ha. unfold usable in *. replace (least_addr (gm s')) with (least_addr (gm s)) by (unfold s', small_out; by destruct (decide (R = F))).
        apply (sbins_usable _ _ _ Hb). by right.
  - intros x Hx. apply Hmem; [intros ->; inl|]. intros Hin. apply Hx. right; right. apply HcsP; [inl|]. intros ->. done.
  - unfold s', small_out. destruct (decide (R = F)); [done|]. unfold with_smallmap. cbn. by destruct (gm s).
Qed.

(** The chunk's neighbours in its ring are what the code checks for. *)
Lemma ring_neighbours s (P S : Z) (l1 l2 : list (Z * Z)) I :
  seg (mem s) (hdr I) (l1 ++ (P, S) :: l2).*1 (hdr I) ->
  let F := hd_or (hdr I) l2.*1 in let B := last_or (hdr I) l1.*1 in
  fd (get (mem s) P) = F /\ bk (get (mem s) P) = B /\ bk (get (mem s) F) = P /\ fd (get (mem s) B) = P.
Proof.
  rewrite fmap_app. simpl. intros [H1 H2]%ring_app. cbv zeta.
  split; [by apply seg_first in H2|]. split; [by apply seg_last in H1|]. split.
  - destruct l2; simpl in *; tauto.
  - destruct l1 as [|c l1 _] using rev_ind; simpl in *; [by destruct H1|]. rewrite fmap_app in *. simpl in *. rewrite last_or_snoc. apply ring_app in H1 as [_ H1].
    by destruct H1.
Qed.

Lemma small_find s ls P S cs : sbins_ok s ls ((P, S) :: cs) -> small S ->
  exists l1 l2, ls !! Z.to_nat (S / 8) = Some (l1 ++ (P, S) :: l2) /\ seg (mem s) (hdr (S / 8)) (l1 ++ (P, S) :: l2).*1 (hdr (S / 8)).
Proof.
  intros Hb HS. destruct (small_index_eq S HS) as (_ & HI & ES).
  assert (Hin : (P, S) ∈ concat ls) by (rewrite <-(sbins_chunks _ _ _ Hb); left).
  apply list_elem_of_In, in_concat in Hin as (l & Hl & HP). apply list_elem_of_In in Hl, HP. apply list_elem_of_lookup in Hl as [i Hi].
  destruct (sbins_each _ _ _ Hb i l Hi) as [_ B2 B3]. pose proof (B3 _ _ HP) as [E _].
  assert (Z.to_nat (S / 8) = i) as -> by zlia. replace (S / 8) with (Z.of_nat i) by zlia.
  apply list_elem_of_split in HP as (l1 & l2 & ->). exists l1, l2. split; [done|]. apply B2. by destruct l1.
Qed.

(** One check of a neighbour. *)
Lemma check_neighbour s f (x P : Z) b :
  b = true -> (f : chunk -> Z) (get (mem s) x) = P -> x <> 0 -> (b = true -> least_addr (gm s) <= x) ->
  (ok ← ok_address x; if ok : bool then q ← rd f x; mret (bool_decide (q = P)) else mret false) s = Ok (true, s).
Proof.
  intros -> Hf Hx Hle. rewrite (bind_ok _ _ _ true s) by (apply ok_address_true; auto). rewrite rd_bind, Hf by done. by rewrite bool_decide_eq_true_2.
Qed.

Lemma unlink_small_ok P S s cs : small_inv s ((P, S) :: cs) -> small S ->
  exists s', unlink_small_chunk gm_addr func P S s = Ok (tt, s') /\ small_inv s' cs /\
    frame (P :: hdr (small_index S) :: cs.*1) (mem s) (mem s') /\ same_info (mem s) (mem s') /\ with_smallmap (gm s) (gm s').
Proof.
  intros [ls Hb] HS. destruct (small_index_eq S HS) as (EI & HI & ES). destruct (small_find s ls P S cs Hb HS) as (l1 & l2 & Hl & Hseg).
  set (I := S / 8) in *. destruct (ring_neighbours s P S l1 l2 I Hseg) as (E1 & E2 & E3 & E4). cbv zeta in E1, E2, E3, E4.
  set (H := hdr I) in *. pose proof (small_out_ok s ls cs P S l1 l2 I Hb ltac:(lia) Hl) as Hout. cbv zeta in Hout. fold H in Hout.
  destruct (sbin_lookup s ls _ I Hb ltac:(lia)) as (l & Hl' & _ & _ & _ & Hlx). rewrite Hl in Hl'. injection Hl' as <-.
  rewrite fmap_app, fmap_cons in Hlx. simpl in Hlx. set (F := hd_or H l2.*1) in *. set (B := last_or H l1.*1) in *.
  assert (Hat : forall x, x ∈ H :: l1.*1 ++ P :: l2.*1 -> x <> 0 /\ (x <> H -> least_addr (gm s) <= x)).
  { intros x [->|Hx]%elem_of_cons; [pose proof (hdr_pos I); split; [unfold H; lia|tauto]|]. apply Hlx in Hx as (_ & [? ?] & _). split; [lia|done]. }
  assert (HF : F ∈ H :: l1.*1 ++ P :: l2.*1) by (pose proof (hd_or_in H l2.*1); fold F in H0; inl).
  assert (HB : B ∈ H :: l1.*1 ++ P :: l2.*1) by (pose proof (last_or_in H l1.*1); fold B in H0; inl).
  assert (HP : P <> 0) by (apply Hat; inl). eexists. split; [|rewrite EI; exact Hout].
  unfold unlink_small_chunk. rewrite !rd_bind, E1, E2, EI by done. cbv zeta. fold H.
  assert (Hchk : forall x f, x ∈ H :: l1.*1 ++ P :: l2.*1 -> f (get (mem s) x) = P ->
    (if decide (x = H) then mret true else ok ← ok_address x; if ok : bool then q ← rd f x; mret (bool_decide (q = P)) else mret false) s = Ok (true, s)).
  { intros x f Hx Hf. case_decide; [done|]. destruct (Hat x Hx) as [? ?]. apply (check_neighbour s f x P true); auto. }
  rewrite rtcheck_bind by (by apply Hchk). unfold small_out. destruct (decide (B = F)) as [E|E]; [done|].
  rewrite rtcheck_bind by (by apply Hchk). unfold DlHeap.relink. rewrite wr_bind, wr_ok by (by apply Hat). done.
Qed.

Lemma unlink_first_small_ok i P s cs : small_inv s cs -> 0 <= i < 32 -> is_marked (smallmap (gm s)) i = true -> fd (get (mem s) (hdr i)) = P ->
  exists cs' s', cs ≡ₚ (P, 8 * i) :: cs' /\ unlink_first_small_chunk func (hdr i) P i s = Ok (tt, s') /\ small_inv s' cs' /\
    frame (P :: hdr i :: cs'.*1) (mem s) (mem s') /\ same_info (mem s) (mem s') /\ with_smallmap (gm s) (gm s').
Proof.
  intros [ls Hb] Hi Hmark HP. destruct (sbin_lookup s ls _ i Hb Hi) as (l & Hl & [B1 B2 B3] & Hndl & Hlcs & Hlx).
  rewrite B1 in Hmark. destruct l as [|[x sz] l2]; [done|]. specialize (B2 ltac:(done)). destruct (B3 x sz ltac:(left)) as [-> _].
  assert (x = P) as -> by (rewrite <-HP; by apply seg_first in B2).
  destruct (list_elem_of_split cs (P, 8 * i)) as (c1 & c2 & Hcs); [apply Hlcs; left|].
  assert (Hperm : cs ≡ₚ (P, 8 * i) :: (c1 ++ c2)) by (rewrite Hcs; solve_Permutation). exists (c1 ++ c2).
  assert (Hb' : sbins_ok s ls ((P, 8 * i) :: (c1 ++ c2))).
  { destruct Hb as [K1 K2 K3 K4 K5 K6]. split; try done; [by rewrite <-Hperm|by rewrite <-Hperm|]. intros a Ha. apply K6. by rewrite Hperm. }
  destruct (ring_neighbours s P (8 * i) [] l2 i B2) as (E1 & E2 & E3 & E4). cbv zeta in E1, E2, E3, E4. set (H := hdr i) in *.
  pose proof (small_out_ok s ls _ P (8 * i) [] l2 i Hb' Hi Hl) as Hout. cbv zeta in Hout. fold H in Hout.
  change (last_or H [].*1) with H in *. set (F := hd_or H l2.*1) in *.
  eexists. split; [done|]. split; [|exact Hout].
  assert (HP0 : P <> 0) by (destruct (Hlx P) as (_ & [? _] & _); [left|lia]). unfold unlink_first_small_chunk. rewrite rd_bind, E1 by done.
  unfold small_out. destruct (decide (H = F)) as [E|E]; [done|].
  assert (HF : F ∈ l2.*1) by (pose proof (hd_or_in H l2.*1) as HF; fold F in HF; apply elem_of_cons in HF as [?|?]; [by destruct E|done]).
  destruct (Hlx F) as (_ & [? ?] & _); [by right|].
  rewrite rtcheck_bind by (apply (check_neighbour s bk F P true); auto; lia).
  unfold DlHeap.relink. rewrite wr_bind, wr_ok by (pose proof (hdr_pos i); unfold H; lia). done.
Qed.
End small.
