(* ===== verification/DlFree.v ===== *)
(** All binned free chunks of the C library's allocator as one set: [insert_chunk] and
    [unlink_chunk] (lib/stdlib/dlmalloc.c) relay to the small bins and the trees by size, and neither kind of
    bin disturbs the other. *)
From S2P Require Import Prelude DlBins DlHeap DlTree DlUnlink DlLarge DlSmall.

Section ops.
Context (gm_addr : Z) (func : string).
Definition insert_chunk (P S : Z) : cmd dl_st unit :=
  if is_small S then insert_small_chunk gm_addr func P S else insert_large_chunk gm_addr func P S.
Definition unlink_chunk (P S : Z) : cmd dl_st unit :=
  if is_small S then unlink_small_chunk gm_addr func P S else unlink_large_chunk gm_addr func P.
End ops.

(** Only the bins and their maps differ. *)
Definition with_bins (sm tm : Z) (tb : list Z) (g : malloc_state) : malloc_state :=
  MState sm tm (dvsize g) (topsize g) (least_addr g) (dv g) (top g) (trim_check g) (release_checks g) (magic g) tb
    (footprint g) (max_footprint g) (footprint_limit g) (mflags g) (DlHeap.seg g).
Definition bins_only (g g' : malloc_state) : Prop := g' = with_bins (smallmap g') (treemap g') (treebins g') g.

Lemma trees_only_bins g g' : trees_only g g' -> bins_only g g'.
Proof. intros H. unfold trees_only in H. rewrite H. done. Qed.
Lemma smallmap_bins g g' : with_smallmap g g' -> bins_only g g'.
Proof. intros H. unfold with_smallmap in H. rewrite H. done. Qed.

(** Sizes the bins hold. *)
Definition binnable (sz : Z) : Prop := MIN_CHUNK_SIZE <= sz < MAX_TREE_SIZE /\ sz mod 8 = 0.

Lemma binnable_split sz : binnable sz -> is_small sz = true /\ small sz \/ is_small sz = false /\ large sz.
Proof.
  unfold binnable, small, large, is_small, SMALLBIN_SHIFT, NSMALLBINS. rewrite min_chunk_size. change MIN_LARGE_SIZE with 256. intros [Hr Hm].
  rewrite Z.shiftr_div_pow2 by lia. destruct (decide (sz < 256)).
  - left. rewrite bool_decide_eq_true_2 by zlia. lia.
  - right. rewrite bool_decide_eq_false_2 by zlia. lia.
Qed.

Section free.
Context (gm_addr : Z) (func : string) (Hgm : 0 < gm_addr).
Abbreviation header := (header gm_addr).

(** The binned free chunks of a state. *)
Record free_split (s : dl_st) (ss ls fs : list (Z * Z)) : Prop := {
  free_small : small_inv gm_addr s ss;
  free_large : large_inv gm_addr s ls;
  free_perm : fs ≡ₚ ss ++ ls;
  free_nodup : NoDup fs.*1;
  free_nohdr a : a ∈ fs.*1 -> ~ header a }.
Definition free_inv (s : dl_st) (fs : list (Z * Z)) : Prop := exists ss ls, free_split s ss ls fs.

Lemma small_agree s s' ss : small_inv gm_addr s ss -> smallmap (gm s') = smallmap (gm s) -> least_addr (gm s') = least_addr (gm s) ->
  (forall x, x ∈ ss.*1 \/ header x -> fd (get (mem s') x) = fd (get (mem s) x) /\ bk (get (mem s') x) = bk (get (mem s) x)) ->
  (forall x, x ∈ ss.*1 -> chunksize (get (mem s') x) = chunksize (get (mem s) x)) -> small_inv gm_addr s' ss.
Proof.
  intros [ls Hb] Em El Hlinks Hsz. exists ls. pose proof Hb as [H1 H2 H3 H4 H5 H6]. split; rewrite ?Em; try done.
  - intros i l Hi. destruct (H3 i l Hi) as [B1 B2 B3]. assert (Hin : forall c, c ∈ l -> c ∈ ss) by (intros c Hc; by eapply sbin_in).
    assert (Hi32 : (i < 32)%nat) by (apply lookup_lt_Some in Hi; lia).
    assert (Hall : forall z, z ∈ smallbin_at gm_addr (Z.of_nat i) :: l.*1 -> z ∈ ss.*1 \/ header z).
    { intros z [->|Hz]%elem_of_cons; [right; exists (Z.of_nat i); split; [lia|done]|left].
      apply list_elem_of_fmap in Hz as (c & -> & Hc). by apply list_elem_of_fmap_2, Hin. }
    split; rewrite ?Em; [done| |].
    + intros Hne. apply (ring_ext (mem s)); [intros z Hz; by apply Hlinks, Hall|intros z Hz; by apply Hlinks, Hall|by apply B2].
    + intros a sz Ha. rewrite Hsz; [by apply B3|]. by apply (list_elem_of_fmap_2 fst _ (a, sz)), Hin.
  - intros a Ha. unfold usable. rewrite El. by apply H6.
Qed.

Lemma large_agree s s' ls : large_inv gm_addr s ls -> agree ls.*1 (mem s) (mem s') ->
  treemap (gm s') = treemap (gm s) -> treebins (gm s') = treebins (gm s) -> least_addr (gm s') = least_addr (gm s) -> large_inv gm_addr s' ls.
Proof. intros [ts Hb] Hag E1 E2 E3. exists ts. by apply (bins_agree gm_addr s). Qed.

(** What an operation on the bins leaves alone. *)
Record bins_frame (s s' : dl_st) (l : list Z) : Prop := {
  bf_frame x : x ∉ l -> ~ header x -> get (mem s') x = get (mem s) x;
  bf_heads : same_heads (mem s) (mem s');
  bf_gm : bins_only (gm s) (gm s') }.

Lemma usable_bins s s' a : bins_only (gm s) (gm s') -> usable s a -> usable s' a.
Proof. intros H. unfold usable. rewrite H. done. Qed.

Lemma insert_chunk_ok P S s fs : free_inv s fs -> binnable S -> usable s P -> ~ header P -> P ∉ fs.*1 -> chunksize (get (mem s) P) = S ->
  exists s', insert_chunk gm_addr func P S s = Ok (tt, s') /\ free_inv s' ((P, S) :: fs) /\ bins_frame s s' (P :: fs.*1).
Proof.
  intros (ss & ls & [Hs Hl Hperm Hnd Hnh]) HS HuP HhP HP HSz.
  assert (Hin : forall x, x ∈ fs.*1 <-> x ∈ ss.*1 \/ x ∈ ls.*1) by (intros x; rewrite Hperm, fmap_app; apply elem_of_app).
  assert (Hdisj : forall x, x ∈ ss.*1 -> x ∈ ls.*1 -> False).
  { rewrite Hperm, fmap_app in Hnd. apply NoDup_app in Hnd as (_ & Hd & _). exact Hd. }
  assert (Hnd' : NoDup ((P, S) :: fs).*1) by (simpl; by apply NoDup_cons).
  assert (Hnh' : forall a, a ∈ ((P, S) :: fs).*1 -> ~ header a) by (intros a [->|Ha]%elem_of_cons; [done|by apply Hnh]).
  unfold insert_chunk. destruct (binnable_split S HS) as [[-> Hsm]|[-> Hlg]].
  - destruct (insert_small_ok gm_addr func Hgm P S s ss) as (s' & Hrun & Hs' & Hfr & Hinf & Hgm'); try done; [rewrite Hin in HP; tauto|].
    destruct (small_index_eq S Hsm) as (EI & HI & _).
    assert (Hh : header (smallbin_at gm_addr (small_index S))) by (exists (small_index S); rewrite EI; split; [lia|done]).
    exists s'. split; [done|]. split.
    + exists ((P, S) :: ss), ls. split; try done; [|by rewrite Hperm].
      apply (large_agree s); try done; try (by rewrite Hgm').
      intros x Hx. rewrite Hfr; [done|]. rewrite !elem_of_cons. intros [->|[->|Hx']]; [apply HP; rewrite Hin; tauto| |by apply (Hdisj x)].
      apply (Hnh (smallbin_at gm_addr (small_index S))); [rewrite Hin; tauto|done].
    + split; [|by apply info_heads|by apply smallmap_bins]. intros x Hx Hh'. apply Hfr. rewrite !elem_of_cons in *.
      intros [->|[->|Hx']]; [tauto|done|]. apply Hx. right. rewrite Hin. tauto.
  - destruct (insert_large_ok gm_addr func P S s ls) as (s' & Hrun & Hl' & Hfr & Hhd & Hgm'); try done; [rewrite Hin in HP; tauto|].
    exists s'. split; [done|]. split.
    + exists ss, ((P, S) :: ls). split; try done; [|rewrite Hperm; solve_Permutation].
      apply (small_agree s); try done; try (by rewrite Hgm').
      * intros x Hx. rewrite Hfr; [done|]. rewrite elem_of_cons. intros [->|Hx']; [destruct Hx as [Hx|Hx]; [apply HP; rewrite Hin; tauto|done]|].
        destruct Hx as [Hx|Hx]; [by apply (Hdisj x)|]. apply (Hnh x); [rewrite Hin; tauto|done].
      * intros x Hx. unfold chunksize. by rewrite (proj1 (Hhd x)).
    + split; [|done|by apply trees_only_bins]. intros x Hx Hh'. apply Hfr. rewrite elem_of_cons in *. rewrite Hin in Hx. tauto.
Qed.

(** What the bins hold, and that the maps mark them. *)
Lemma free_small_range s ss a sz : small_inv gm_addr s ss -> (a, sz) ∈ ss -> sz < MIN_LARGE_SIZE /\ is_marked (smallmap (gm s)) (sz / 8) = true.
Proof.
  intros (lls & Hb) Hc. rewrite (sbins_chunks _ _ _ _ Hb), list_elem_of_In, in_concat in Hc. destruct Hc as (l & Hl' & Hc).
  apply list_elem_of_In in Hl', Hc. apply list_elem_of_lookup in Hl' as [i Hi].
  pose proof (lookup_lt_Some _ _ _ Hi) as Hlt. rewrite (sbins_len _ _ _ _ Hb) in Hlt.
  destruct (sbins_each _ _ _ _ Hb _ _ Hi) as [B1 _ B3]. apply B3 in Hc as E. destruct E as [-> _]. change MIN_LARGE_SIZE with 256. split; [lia|].
  replace (8 * Z.of_nat i / 8) with (Z.of_nat i) by zlia. rewrite B1. by destruct l; [apply elem_of_nil in Hc|].
Qed.

Lemma free_large_range s ls a sz : large_inv gm_addr s ls -> (a, sz) ∈ ls -> large sz /\ treemap (gm s) <> 0.
Proof.
  intros (ts & Hb) Hc. rewrite (bins_chunks _ _ _ _ Hb), list_elem_of_In, in_concat in Hc. destruct Hc as (l & Hl' & Hc).
  apply list_elem_of_In in Hl', Hc. apply list_elem_of_lookup in Hl' as [i Hi]. rewrite list_lookup_fmap in Hi. apply fmap_Some in Hi as (t & Ht & ->).
  destruct (bins_each _ _ _ _ Hb _ _ Ht) as [_ B2 _ _ B5]. split; [by apply B5 in Hc as (_ & _ & ? & _)|]. intros E. rewrite E in B2.
  unfold is_marked in B2. rewrite Z.bits_0 in B2. destruct t; [by apply elem_of_nil in Hc|done].
Qed.

(** A small chunk leaves the bins. *)
Lemma small_out_free P S s s' ss ls cs' fs I : free_split s ss ls ((P, S) :: fs) -> ss ≡ₚ (P, S) :: cs' -> 0 <= I < 32 -> small_inv gm_addr s' cs' ->
  frame (P :: smallbin_at gm_addr I :: cs'.*1) (mem s) (mem s') -> same_info (mem s) (mem s') -> with_smallmap (gm s) (gm s') ->
  free_inv s' fs /\ bins_frame s s' (P :: fs.*1).
Proof.
  intros [Hs Hl Hperm Hnd Hnh] Hpss HI Hs' Hfr Hinf Hgm'.
  assert (Hin : forall x, x ∈ P :: fs.*1 <-> x ∈ ss.*1 \/ x ∈ ls.*1).
  { intros x. change (P :: fs.*1) with ((P, S) :: fs).*1. rewrite Hperm, fmap_app. apply elem_of_app. }
  assert (Hdisj : forall x, x ∈ ss.*1 -> x ∈ ls.*1 -> False).
  { rewrite Hperm, fmap_app in Hnd. apply NoDup_app in Hnd as (_ & Hd & _). exact Hd. }
  assert (Hh : header (smallbin_at gm_addr I)) by (by exists I). split.
  - exists cs', ls. split; try done.
    + apply (large_agree s); try done; try (by rewrite Hgm').
      intros x Hx. rewrite Hfr; [done|]. intros Hx'. apply (Hdisj x); [|done]. rewrite Hpss. simpl. rewrite !elem_of_cons in *.
      destruct Hx' as [->|[->|Hx']]; [by left| |by right]. exfalso. apply (Hnh (smallbin_at gm_addr I)); [|done]. simpl. rewrite Hin. tauto.
    + apply (Permutation_cons_inv (a := (P, S))). by rewrite Hperm, Hpss.
    + simpl in Hnd. by apply NoDup_cons in Hnd as [_ ?].
    + intros a Ha. apply Hnh. by right.
  - split; [|by apply info_heads|by apply smallmap_bins]. intros x Hx Hh'. apply Hfr. intros Hx'. apply Hx. rewrite Hin, Hpss. left. simpl.
    rewrite !elem_of_cons in *. destruct Hx' as [->|[->|Hx']]; [by left|done|by right].
Qed.

Lemma unlink_chunk_ok P S s fs : free_inv s ((P, S) :: fs) -> binnable S ->
  exists s', unlink_chunk gm_addr func P S s = Ok (tt, s') /\ free_inv s' fs /\ bins_frame s s' (P :: fs.*1).
Proof.
  intros (ss & ls & [Hs Hl Hperm Hnd Hnh]) HS.
  assert (Hin : forall x, x ∈ P :: fs.*1 <-> x ∈ ss.*1 \/ x ∈ ls.*1).
  { intros x. change (P :: fs.*1) with ((P, S) :: fs).*1. rewrite Hperm, fmap_app. apply elem_of_app. }
  assert (Hdisj : forall x, x ∈ ss.*1 -> x ∈ ls.*1 -> False).
  { rewrite Hperm, fmap_app in Hnd. apply NoDup_app in Hnd as (_ & Hd & _). exact Hd. }
  assert (HPin : (P, S) ∈ ss \/ (P, S) ∈ ls) by (rewrite <-elem_of_app, <-Hperm; left).
  assert (Hnd' : NoDup fs.*1) by (simpl in Hnd; by apply NoDup_cons in Hnd as [_ ?]).
  assert (Hnh' : forall a, a ∈ fs.*1 -> ~ header a) by (intros a Ha; apply Hnh; by right).
  pose proof (fun a sz => free_small_range s ss a sz Hs) as Hsmall. pose proof (fun a sz => free_large_range s ls a sz Hl) as Hlarge.
  unfold unlink_chunk. destruct (binnable_split S HS) as [[-> Hsm]|[-> Hlg]].
  - destruct HPin as [HPin|HPin]; [|apply Hlarge in HPin as (HPin & _); unfold small, large in *; lia].
    destruct (list_elem_of_split _ _ HPin) as (c1 & c2 & Ess). assert (Hpss : ss ≡ₚ (P, S) :: (c1 ++ c2)) by (rewrite Ess; solve_Permutation).
    assert (Hs2 : small_inv gm_addr s ((P, S) :: (c1 ++ c2))).
    { destruct Hs as (lls & [K1 K2 K3 K4 K5 K6]). exists lls. split; try done; [by rewrite <-Hpss|by rewrite <-Hpss|]. intros a Ha. apply K6. by rewrite Hpss. }
    destruct (unlink_small_ok gm_addr func Hgm P S s _ Hs2 Hsm) as (s' & Hrun & Hs' & Hfr & Hinf & Hgm').
    destruct (small_index_eq S Hsm) as (EI & HI & _). exists s'. split; [done|].
    apply (small_out_free P S s s' ss ls (c1 ++ c2) fs (small_index S)); try done. rewrite EI. lia.
  - destruct HPin as [HPin|HPin]; [apply Hsmall in HPin as (HPin & _); unfold small, large in *; lia|].
    destruct (list_elem_of_split _ _ HPin) as (c1 & c2 & Els). assert (Hpls : ls ≡ₚ (P, S) :: (c1 ++ c2)) by (rewrite Els; solve_Permutation).
    assert (Hl2 : large_inv gm_addr s ((P, S) :: (c1 ++ c2))).
    { destruct Hl as (lts & [K1 K2 K3 K4 K5 K6 K7]). exists lts. split; try done; [by rewrite <-Hpls|by rewrite <-Hpls|]. intros a Ha. apply K7. by rewrite Hpls. }
    destruct (unlink_large_ok gm_addr func Hgm P S s _ Hl2) as (s' & Hrun & Hl' & Hfr & Hinf & Hgm').
    exists s'. split; [done|]. split.
    + exists ss, (c1 ++ c2). split; try done; [|apply (Permutation_cons_inv (a := (P, S))); rewrite Hperm, Hpls; solve_Permutation].
      apply (small_agree s); try done; try (by rewrite Hgm').
      * intros x Hx. rewrite Hfr; [done|]. intros Hx'. assert (Hxl : x ∈ ls.*1) by (rewrite Hpls; done).
        destruct Hx as [Hx|Hx]; [by apply (Hdisj x)|]. apply (Hnh x); [simpl; rewrite Hin; tauto|done].
      * intros x Hx. by apply info_size.
    + split; [|by apply info_heads|by apply trees_only_bins]. intros x Hx Hh'. apply Hfr. intros Hx'. apply Hx. rewrite Hin, Hpls. right. done.
Qed.

(** The first chunk of a small bin is unlinked. *)
Lemma unlink_first_free i s fs : free_inv s fs -> 0 <= i < 32 -> is_marked (smallmap (gm s)) i = true ->
  let P := fd (get (mem s) (smallbin_at gm_addr i)) in
  exists fs' s', fs ≡ₚ (P, 8 * i) :: fs' /\ unlink_first_small_chunk func (smallbin_at gm_addr i) P i s = Ok (tt, s') /\
    free_inv s' fs' /\ bins_frame s s' (P :: fs'.*1).
Proof.
  intros (ss & ls & Hf) Hi Hm P. destruct (unlink_first_small_ok gm_addr func Hgm i P s ss (free_small _ _ _ _ Hf) Hi Hm eq_refl) as
    (cs' & s' & Hp & Hrun & Hs' & Hfr & Hinf & Hgm'). assert (Efs : fs ≡ₚ (P, 8 * i) :: cs' ++ ls) by (by rewrite (free_perm _ _ _ _ Hf), Hp).
  exists (cs' ++ ls), s'. split; [done|]. split; [done|]. apply (small_out_free P (8 * i) s s' ss ls cs' _ i); try done.
  destruct Hf as [H1 H2 H3 H4 H5]. split; try done; [by rewrite <-Efs|by rewrite <-Efs|]. intros a Ha. apply H5. by rewrite Efs.
Qed.
End free.
