(* ===== verification/DlMalloc.v ===== *)
(** [dlmalloc] and [dlfree] of the C library's allocator (lib/stdlib/dlmalloc.c), up to the calls that get
    memory from the system or give it back.

    [malloc_fast] answers the address found, or the size to ask [sys_alloc] for; [free_fast] answers what
    is left to do once the chunk is in its place. The kernel is built without locks, footers and
    debugging checks (kernel/include/mm/malloc.h), with [PROCEED_ON_ERROR] and [INSECURE] off: a failed
    check panics. *)
From S2P Require Import Prelude DlBins DlHeap DlTree DlFit DlFree.

Definition MMAP_FOOT_PAD : Z := 32.

Definition set_footprint v m := MState (smallmap m) (treemap m) (dvsize m) (topsize m) (least_addr m) (dv m) (top m)
  (trim_check m) (release_checks m) (magic m) (treebins m) v (max_footprint m) (footprint_limit m) (mflags m) (DlHeap.seg m).
Definition set_release_checks v m := MState (smallmap m) (treemap m) (dvsize m) (topsize m) (least_addr m) (dv m) (top m)
  (trim_check m) v (magic m) (treebins m) (footprint m) (max_footprint m) (footprint_limit m) (mflags m) (DlHeap.seg m).

Section malloc.
Context (gm_addr : Z).
Abbreviation D := (cmd dl_st).

(** Where the result of a search is used: [v] leaves its tree, and what it has too much goes to [keep]. *)
Definition split_chunk (func : string) (keep : Z -> Z -> D unit) (v nb rsize : Z) : D Z :=
  _ ← rtcheck func (ok_address v);
  let r := chunk_plus_offset v nb in
  if ok_next v r then
    _ ← unlink_large_chunk gm_addr func v;
    _ ← (if decide (rsize < MIN_CHUNK_SIZE) then set_inuse_and_pinuse v (u64 (rsize + nb))
         else
           _ ← set_size_and_pinuse_of_inuse_chunk v nb;
           _ ← set_size_and_pinuse_of_free_chunk r rsize;
           keep r rsize);
    mret (chunk2mem v)
  else ABORT func.

Definition tmalloc_large (nb : Z) : D Z :=
  '(v, rsize) ← fit_large gm_addr nb;
  dvs ← gets (fun s => dvsize (gm s));
  if decide (v <> 0 /\ rsize < u64 (dvs - nb)) then
    split_chunk "tmalloc_large" (insert_chunk gm_addr "tmalloc_large") v nb rsize
  else mret 0.

Definition tmalloc_small (nb : Z) : D Z :=
  '(v, rsize) ← fit_small gm_addr nb;
  split_chunk "tmalloc_small" (replace_dv gm_addr "tmalloc_small") v nb rsize.

(** The last two places of [dlmalloc]: the chunk kept aside, and the top of the heap. *)
Definition use_dv_or_top (nb : Z) : D (Z + Z) :=
  dvs ← gets (fun s => dvsize (gm s));
  tops ← gets (fun s => topsize (gm s));
  if decide (nb <= dvs) then
    let rsize := u64 (dvs - nb) in
    p ← gets (fun s => dv (gm s));
    _ ← (if decide (MIN_CHUNK_SIZE <= rsize) then
           let r := chunk_plus_offset p nb in
           _ ← modify (set_gm (set_dv r rsize));
           _ ← set_size_and_pinuse_of_free_chunk r rsize;
           set_size_and_pinuse_of_inuse_chunk p nb
         else
           _ ← modify (set_gm (set_dv 0 0));
           set_inuse_and_pinuse p dvs);
    mret (inl (chunk2mem p))
  else if decide (nb < tops) then
    let rsize := u64 (tops - nb) in
    p ← gets (fun s => top (gm s));
    let r := chunk_plus_offset p nb in
    _ ← modify (set_gm (set_top r rsize));
    _ ← wr (set_head (rsize .| PINUSE_BIT)) r;
    _ ← set_size_and_pinuse_of_inuse_chunk p nb;
    mret (inl (chunk2mem p))
  else mret (inr nb).

(** A small request: the exact bin or the next, the chunk kept aside when it is large enough, the
    next bin in use, the trees. *)
Definition malloc_small (nb : Z) : D (Z + Z) :=
  let idx := small_index nb in
  m ← gets (fun s => smallmap (gm s));
  let smallbits := m ≫ idx in
  dvs ← gets (fun s => dvsize (gm s));
  if decide (smallbits .& 3 <> 0) then
    let idx := u32 (idx + (bnot 32 smallbits .& 1)) in
    let b := smallbin_at gm_addr idx in
    p ← rd fd b;
    _ ← unlink_first_small_chunk "dlmalloc" b p idx;
    _ ← set_inuse_and_pinuse p (small_index2size idx);
    mret (inl (chunk2mem p))
  else if decide (dvs < nb) then
    if decide (smallbits <> 0) then
      let leftbits := u32 (smallbits ≪ idx) .& left_bits (idx2bit idx) in
      let i := compute_bit2idx (least_bit leftbits) in
      let b := smallbin_at gm_addr i in
      p ← rd fd b;
      _ ← unlink_first_small_chunk "dlmalloc" b p i;
      let rsize := u64 (small_index2size i - nb) in
      _ ← (if decide (rsize < MIN_CHUNK_SIZE) then set_inuse_and_pinuse p (small_index2size i)
           else
             _ ← set_size_and_pinuse_of_inuse_chunk p nb;
             let r := chunk_plus_offset p nb in
             _ ← set_size_and_pinuse_of_free_chunk r rsize;
             replace_dv gm_addr "dlmalloc" r rsize);
      mret (inl (chunk2mem p))
    else
      tm ← gets (fun s => treemap (gm s));
      if decide (tm <> 0) then
        mem ← tmalloc_small nb;
        if decide (mem <> 0) then mret (inl mem) else use_dv_or_top nb
      else use_dv_or_top nb
  else use_dv_or_top nb.

Definition malloc_fast (bytes : Z) : D (Z + Z) :=
  if decide (bytes <= MAX_SMALL_REQUEST) then
    malloc_small (if decide (bytes < MIN_REQUEST) then MIN_CHUNK_SIZE else pad_request bytes)
  else if decide (MAX_REQUEST <= bytes) then use_dv_or_top MAX_SIZE_T
  else
    let nb := pad_request bytes in
    tm ← gets (fun s => treemap (gm s));
    if decide (tm <> 0) then
      mem ← tmalloc_large nb;
      if decide (mem <> 0) then mret (inl mem) else use_dv_or_top nb
    else use_dv_or_top nb.

(** ** Freeing *)
Definition chunk_minus_offset (p s : Z) : Z := u64 (p - s).
Definition clear_pinuse (p : Z) : D unit := h ← rd head p; wr (set_head (h .& bnot 64 PINUSE_BIT)) p.
Definition set_free_with_pinuse (p s n : Z) : D unit := _ ← clear_pinuse n; set_size_and_pinuse_of_free_chunk p s.

(** What is left to do after a chunk is freed: nothing, [sys_trim], [release_unused_segments], or to
    unmap a region that was mapped for one request. *)
Inductive after_free := Done | Trim | Release | Unmap (base len : Z).

Definition free_bin (p psize : Z) : D after_free :=
  if is_small psize then _ ← insert_small_chunk gm_addr "dlfree" p psize; mret Done
  else
    _ ← insert_large_chunk gm_addr "dlfree" p psize;
    _ ← modify (set_gm (fun m => set_release_checks (u64 (release_checks m - 1)) m));
    n ← gets (fun s => release_checks (gm s));
    mret (if decide (n = 0) then Release else Done).

(** Consolidation with the chunk that follows. *)
Definition free_forward (p psize next : Z) : D after_free :=
  _ ← rtcheck "dlfree" (if ok_next p next then c ← rd pinuse next; mret (bool_decide (c <> 0)) else mret false);
  c ← rd cinuse next;
  if decide (c = 0) then
    t ← gets (fun s => top (gm s));
    d ← gets (fun s => dv (gm s));
    if decide (next = t) then
      tops ← gets (fun s => topsize (gm s));
      let tsize := u64 (tops + psize) in
      _ ← modify (set_gm (set_top p tsize));
      _ ← wr (set_head (tsize .| PINUSE_BIT)) p;
      _ ← (if decide (p = d) then modify (set_gm (set_dv 0 0)) else mret tt);
      tc ← gets (fun s => trim_check (gm s));
      mret (if decide (tc < tsize) then Trim else Done)
    else if decide (next = d) then
      dvs ← gets (fun s => dvsize (gm s));
      let dsize := u64 (dvs + psize) in
      _ ← modify (set_gm (set_dv p dsize));
      _ ← set_size_and_pinuse_of_free_chunk p dsize;
      mret Done
    else
      nsize ← rd chunksize next;
      let psize := u64 (psize + nsize) in
      _ ← unlink_chunk gm_addr "dlfree" next nsize;
      _ ← set_size_and_pinuse_of_free_chunk p psize;
      if decide (p = d) then _ ← modify (set_gm (set_dv d psize)); mret Done
      else free_bin p psize
  else
    _ ← set_free_with_pinuse p psize next;
    free_bin p psize.

Definition free_fast (mem : Z) : D after_free :=
  if decide (mem = 0) then mret Done
  else
    let p := mem2chunk mem in
    _ ← rtcheck "dlfree" (ok ← ok_address p; if ok : bool then h ← rd head p; mret (bool_decide (h .& INUSE_BITS <> PINUSE_BIT)) else mret false);
    psize ← rd chunksize p;
    let next := chunk_plus_offset p psize in
    pi ← rd pinuse p;
    if decide (pi = 0) then
      prevsize ← rd prev_foot p;
      h ← rd head p;
      if decide (h .& INUSE_BITS = 0) then mret (Unmap (u64 (p - prevsize)) (u64 (psize + prevsize + MMAP_FOOT_PAD)))
      else
        let prev := chunk_minus_offset p prevsize in
        let psize := u64 (psize + prevsize) in
        _ ← rtcheck "dlfree" (ok_address prev);
        d ← gets (fun s => dv (gm s));
        if decide (prev <> d) then
          _ ← unlink_chunk gm_addr "dlfree" prev prevsize;
          free_forward prev psize next
        else
          hn ← rd head next;
          if decide (hn .& INUSE_BITS = INUSE_BITS) then
            _ ← modify (set_gm (set_dv d psize));
            _ ← set_free_with_pinuse prev psize next;
            mret Done
          else free_forward prev psize next
    else free_forward p psize next.
End malloc.
