(* ===== verification/DlLayout.v ===== *)
(** The heap of the C library's allocator as a row of blocks.

    A segment is tiled by chunks, each in use, free in a bin, kept aside ([dv]) or the top. [layout] ties
    the row to the boundary tags in memory: a head holds the size of its chunk, whether it is in use
    and whether the chunk before it is; the chunk after a free one holds its size as [prev_foot], and is
    in use: no two free chunks are neighbours. *)
From S2P Require Import Prelude DlBins DlHeap DlLarge.

Inductive kind := InUse | Binned | Dv | Top.
#[global] Instance kind_eq_dec : EqDecision kind.
Proof. solve_decision. Defined.
Definition in_use (k : kind) : bool := match k with InUse => true | _ => false end.

Definition mkhead (sz : Z) (pin cin : bool) : Z := sz + Z.b2z pin + 2 * Z.b2z cin.
Definition is_none {A} (o : option A) : bool := match o with None => true | Some _ => false end.

Abbreviation blocks := (list (Z * kind)).

(** The size of the free block a block follows, if it does. *)
Definition after (b : Z * kind) : option Z := if in_use b.2 then None else Some b.1.
Fixpoint after_all (pf : option Z) (bs : blocks) : option Z := match bs with [] => pf | b :: bs => after_all (after b) bs end.
Fixpoint total (bs : blocks) : Z := match bs with [] => 0 | b :: bs => b.1 + total bs end.
Definition block_ok (b : Z * kind) : Prop := b.1 mod 16 = 0 /\ 0 < b.1 /\ (b.2 <> Top -> MIN_CHUNK_SIZE <= b.1).

Fixpoint layout (h : heap) (a : Z) (pf : option Z) (bs : blocks) : Prop :=
  match bs with
  | [] => True
  | b :: bs =>
    head (get h a) = mkhead b.1 (is_none pf) (in_use b.2) /\
    (forall p, pf = Some p -> prev_foot (get h a) = p /\ b.2 = InUse) /\
    block_ok b /\ layout h (a + b.1) (after b) bs
  end.

(** The blocks of a kind, with their addresses. *)
Fixpoint of_kind (k : kind) (a : Z) (bs : blocks) : list (Z * Z) :=
  match bs with
  | [] => []
  | b :: bs => (if decide (b.2 = k) then [(a, b.1)] else []) ++ of_kind k (a + b.1) bs
  end.

(** ** Rows *)

Lemma total_app l1 l2 : total (l1 ++ l2) = total l1 + total l2.
Proof. induction l1 as [|b l1 IH]; simpl; lia. Qed.

Lemma of_kind_app k a l1 l2 : of_kind k a (l1 ++ l2) = of_kind k a l1 ++ of_kind k (a + total l1) l2.
Proof.
  revert a. induction l1 as [|b l1 IH]; intros a; simpl; [by rewrite Z.add_0_r|]. rewrite IH, <-app_assoc. by rewrite Z.add_assoc.
Qed.

Lemma after_all_app pf l1 l2 : after_all pf (l1 ++ l2) = after_all (after_all pf l1) l2.
Proof. revert pf. induction l1 as [|b l1 IH]; intros pf; simpl; [done|apply IH]. Qed.

Lemma layout_app h a pf l1 l2 : layout h a pf (l1 ++ l2) <-> layout h a pf l1 /\ layout h (a + total l1) (after_all pf l1) l2.
Proof.
  revert a pf. induction l1 as [|b l1 IH]; intros a pf; simpl; [rewrite Z.add_0_r; tauto|]. rewrite IH, Z.add_assoc. tauto.
Qed.

Lemma layout_ok h a pf bs : layout h a pf bs -> Forall block_ok bs.
Proof. revert a pf. induction bs as [|b bs IH]; intros a pf; simpl; [constructor|]. intros (_ & _ & ? & H). constructor; eauto. Qed.

Lemma row_nonneg bs : Forall block_ok bs -> 0 <= total bs.
Proof. induction 1 as [|b bs [_ [? _]] _ IH]; simpl; lia. Qed.

Lemma total_mod16 bs : Forall block_ok bs -> total bs mod 16 = 0.
Proof. induction 1 as [|b bs (Hm & _) _ IH]; simpl; [done|]. zlia. Qed.

(** Only heads and footers inside the row matter. *)
Lemma layout_frame h h' a pf bs : (forall x, a <= x < a + total bs -> head (get h' x) = head (get h x) /\ prev_foot (get h' x) = prev_foot (get h x)) ->
  layout h a pf bs -> layout h' a pf bs.
Proof.
  revert a pf. induction bs as [|b bs IH]; intros a pf Hx; simpl; [done|]. intros (H1 & H2 & H3 & H4).
  pose proof (row_nonneg bs (layout_ok _ _ _ _ H4)). pose proof H3 as (_ & Hp & _). simpl in Hx.
  destruct (Hx a ltac:(lia)) as [E1 E2]. rewrite E1, E2. split; [done|]. split; [done|]. split; [done|]. apply IH; [|done].
  intros x Hr. apply Hx. lia.
Qed.

(** The first block may follow another kind of block when its tag says so. *)
Lemma layout_retag h h' a pf pf' b bs : layout h a pf (b :: bs) ->
  head (get h' a) = mkhead b.1 (is_none pf') (in_use b.2) -> (forall p, pf' = Some p -> prev_foot (get h' a) = p /\ b.2 = InUse) ->
  (forall x, a < x < a + total (b :: bs) -> head (get h' x) = head (get h x) /\ prev_foot (get h' x) = prev_foot (get h x)) ->
  layout h' a pf' (b :: bs).
Proof.
  simpl. intros (_ & _ & H3 & H4) Hh Hp Hx. split; [done|]. split; [done|]. split; [done|]. pose proof H3 as (_ & ? & _).
  apply (layout_frame h); [|done]. intros x Hr. apply Hx. lia.
Qed.

(** Where a block of a kind is in the row. *)
Lemma of_kind_split k a bs x sz : (x, sz) ∈ of_kind k a bs -> exists l r, bs = l ++ (sz, k) :: r /\ x = a + total l.
Proof.
  revert a. induction bs as [|b bs IH]; intros a; simpl; [by intros ?%elem_of_nil|]. intros [H|H]%elem_of_app.
  - destruct (decide (b.2 = k)) as [<-|]; [|by apply elem_of_nil in H]. apply list_elem_of_singleton in H as [= -> ->].
    exists [], bs. destruct b. simpl. split; [done|lia].
  - destruct (IH _ H) as (l & r & -> & ->). exists (b :: l), r. simpl. split; [done|lia].
Qed.

Lemma of_kind_range k a bs x sz : Forall block_ok bs -> (x, sz) ∈ of_kind k a bs -> a <= x /\ 0 < sz /\ x + sz <= a + total bs /\ block_ok (sz, k).
Proof.
  intros Hok (l & r & -> & ->)%of_kind_split. apply Forall_app in Hok as [Hl Hr]. apply Forall_cons in Hr as [Hb Hr].
  rewrite total_app. simpl. pose proof (row_nonneg _ Hl). pose proof (row_nonneg _ Hr). pose proof Hb as (_ & ? & _). simpl in *. split; [lia|]. split; [lia|]. split; [lia|done].
Qed.

(** Different blocks of a row are apart. *)
Lemma of_kind_nodup k a bs : Forall block_ok bs -> NoDup (of_kind k a bs).*1.
Proof.
  intros Hok. revert a. induction Hok as [|b bs Hb Hok IH]; intros a; simpl; [constructor|].
  rewrite fmap_app. apply NoDup_app. split; [case_decide; simpl; repeat constructor; set_solver|]. split; [|apply IH].
  intros x Hx Hin. case_decide; [|by apply elem_of_nil in Hx]. apply list_elem_of_singleton in Hx as ->.
  apply list_elem_of_fmap in Hin as ([y sz] & E & Hy). simpl in E. apply (of_kind_range _ _ _ _ _ Hok) in Hy as (? & _).
  destruct Hb as (_ & ? & _). lia.
Qed.

(** ** Head words *)

Lemma chunksize_mkhead c sz p q : head c = mkhead sz p q -> sz mod 16 = 0 -> 0 <= sz < 2 ^ 60 -> chunksize c = sz.
Proof.
  intros E Hm Hr. unfold chunksize. rewrite E. change FLAG_BITS with (Z.ones 3). unfold mkhead.
  rewrite (land_bnot_ones 64 3) by (unfold fits; destruct p, q; simpl; lia). change (2 ^ 3) with 8. destruct p, q; simpl; zlia.
Qed.

Lemma pinuse_mkhead c sz p q : head c = mkhead sz p q -> sz mod 16 = 0 -> pinuse c = Z.b2z p.
Proof.
  intros E Hm. unfold pinuse. rewrite E. change PINUSE_BIT with (Z.ones 1). rewrite land_low by lia. unfold mkhead. destruct p, q; simpl; zlia.
Qed.

Lemma cinuse_mkhead c sz p q : head c = mkhead sz p q -> sz mod 16 = 0 -> cinuse c = 2 * Z.b2z q.
Proof.
  intros E Hm. unfold cinuse. rewrite E. change CINUSE_BIT with (2 ^ 1). rewrite land_bit by lia.
  replace (Z.testbit (mkhead sz p q) 1) with q; [by destruct q|].
  rewrite Z.testbit_eqb by lia. unfold mkhead. destruct p, q; simpl; symmetry; [apply Z.eqb_eq|apply Z.eqb_neq|apply Z.eqb_eq|apply Z.eqb_neq]; zlia.
Qed.

Lemma inuse_bits_mkhead sz p q : sz mod 16 = 0 -> mkhead sz p q .& INUSE_BITS = Z.b2z p + 2 * Z.b2z q.
Proof. intros Hm. change INUSE_BITS with (Z.ones 2). rewrite land_low by lia. unfold mkhead. destruct p, q; simpl; zlia. Qed.

Lemma head_free sz : sz mod 16 = 0 -> sz .| PINUSE_BIT = mkhead sz true false.
Proof.
  intros Hm. unfold mkhead. simpl. rewrite (lor_add' 4); [unfold PINUSE_BIT; lia|lia|done|unfold fits, PINUSE_BIT; lia].
Qed.

Lemma head_used sz : sz mod 16 = 0 -> sz .| PINUSE_BIT .| CINUSE_BIT = mkhead sz true true.
Proof.
  intros Hm. rewrite <-Z.lor_assoc. change (PINUSE_BIT .| CINUSE_BIT) with 3. unfold mkhead. simpl.
  rewrite (lor_add' 4); [lia|lia|done|unfold fits; lia].
Qed.

Lemma head_set_pinuse sz p q : sz mod 16 = 0 -> mkhead sz p q .| PINUSE_BIT = mkhead sz true q.
Proof.
  intros Hm. assert (E : mkhead sz false q .| PINUSE_BIT = mkhead sz true q).
  { unfold mkhead. simpl. rewrite (lor_add' 1); [unfold PINUSE_BIT; destruct q; simpl; lia|lia|destruct q; simpl; zlia|unfold fits, PINUSE_BIT; lia]. }
  destruct p; [|done]. rewrite <-E, <-Z.lor_assoc. by rewrite Z.lor_diag, E.
Qed.

Lemma head_clear_pinuse sz p q : sz mod 16 = 0 -> 0 <= sz < 2 ^ 60 -> mkhead sz p q .& bnot 64 PINUSE_BIT = mkhead sz false q.
Proof.
  intros Hm Hr. change PINUSE_BIT with (Z.ones 1). rewrite (land_bnot_ones 64 1) by (unfold fits, mkhead; destruct p, q; simpl; lia).
  change (2 ^ 1) with 2. unfold mkhead. destruct p, q; simpl; zlia.
Qed.

(** Which free blocks are binned and which is kept aside does not show in the tags. *)
Definition undv_kind (k : kind) : kind := match k with Dv => Binned | _ => k end.
Fixpoint undv (bs : blocks) : blocks := match bs with [] => [] | (sz, k) :: bs => (sz, undv_kind k) :: undv bs end.

Lemma undv_app l1 l2 : undv (l1 ++ l2) = undv l1 ++ undv l2.
Proof. induction l1 as [|[sz k] l1 IH]; simpl; [done|by rewrite IH]. Qed.
Lemma undv_total bs : total (undv bs) = total bs.
Proof. induction bs as [|[sz k] bs IH]; simpl; [done|by rewrite IH]. Qed.
Lemma undv_layout h a pf bs : layout h a pf bs -> layout h a pf (undv bs).
Proof.
  revert a pf. induction bs as [|[sz k] bs IH]; intros a pf; simpl; [done|]. intros (H1 & H2 & (H3 & H4 & H5) & H6). apply IH in H6.
  destruct k; simpl in *; try done. split; [done|]. split; [intros p Hp; by destruct (H2 p Hp)|]. split; [|done].
  split; [done|]. split; [done|]. intros _. by apply H5.
Qed.
Lemma undv_binned a bs : of_kind Binned a (undv bs) ≡ₚ of_kind Dv a bs ++ of_kind Binned a bs.
Proof.
  revert a. induction bs as [|[sz k] bs IH]; intros a; simpl; [done|]. destruct k; simpl; rewrite IH; solve_Permutation.
Qed.
Lemma undv_other k a bs : k <> Binned -> k <> Dv -> of_kind k a (undv bs) = of_kind k a bs.
Proof.
  intros H1 H2. revert a. induction bs as [|[sz k'] bs IH]; intros a; simpl; [done|]. rewrite IH. f_equal.
  destruct k'; simpl; try done. by rewrite !decide_False by congruence.
Qed.
Lemma undv_dv a bs : of_kind Dv a (undv bs) = [].
Proof. revert a. induction bs as [|[sz k] bs IH]; intros a; simpl; [done|]. by destruct k; simpl. Qed.
