(* ===== verification/DlCore.v ===== *)
(** The heap invariant of the C library's allocator.

    [heap_core s a0 bs] ties the state to a row of blocks [bs] at [a0]: the boundary tags, the top and the
    bounds. [heap_inv] adds that the bins hold exactly the binned blocks and [dv] the one kept aside. The
    lemmas say which stores turn one row into another: a block taken, split, or merged with its
    neighbours. *)
From S2P Require Import Prelude DlBins DlHeap DlTree DlLarge DlSmall DlFree DlLayout.

Section core.
Context (gm_addr : Z).

(** The top is the last block, and the only one of its kind. *)
Definition top_ok (g : malloc_state) (a0 : Z) (bs : blocks) : Prop :=
  exists l, bs = l ++ [(topsize g, Top)] /\ top g = a0 + total l /\ of_kind Top a0 l = [].

Record heap_core (s : dl_st) (a0 : Z) (bs : blocks) : Prop := {
  hc_layout : layout (mem s) a0 None bs;
  hc_top : top_ok (gm s) a0 bs;
  hc_base : 0 < a0 /\ a0 mod 16 = 0 /\ least_addr (gm s) <= a0;
  hc_size : total bs < MAX_TREE_SIZE /\ a0 + total bs < 2 ^ 63;
  hc_headers x : header gm_addr x -> ~ (a0 <= x < a0 + total bs) }.

(** The chunk kept aside, if any. *)
Definition dv_ok (g : malloc_state) (dvs : list (Z * Z)) : Prop :=
  dvsize g = 0 /\ dv g = 0 /\ dvs = [] \/ 0 < dvsize g /\ dvs = [(dv g, dvsize g)].

Record heap_inv (s : dl_st) (a0 : Z) (bs : blocks) : Prop := {
  hi_core : heap_core s a0 bs;
  hi_free : free_inv gm_addr s (of_kind Binned a0 bs);
  hi_dv : dv_ok (gm s) (of_kind Dv a0 bs) }.

Lemma core_ok s a0 bs : heap_core s a0 bs -> Forall block_ok bs.
Proof. intros H. eapply layout_ok, hc_layout. done. Qed.

(** ** What the bins depend on *)
Definition links (c : chunk) : Z * Z * Z * Z * Z * Z := (fd c, bk c, child0 c, child1 c, parent c, index c).

Record same_bins (s s' : dl_st) : Prop := {
  sb_links y : links (get (mem s') y) = links (get (mem s) y);
  sb_smallmap : smallmap (gm s') = smallmap (gm s);
  sb_treemap : treemap (gm s') = treemap (gm s);
  sb_treebins : treebins (gm s') = treebins (gm s);
  sb_least : least_addr (gm s') = least_addr (gm s) }.

#[global] Instance same_bins_preorder : PreOrder same_bins.
Proof. split; [by split|]. intros s1 s2 s3 [] []. split; try congruence. Qed.

Lemma same_bins_head s a v : same_bins s (set_mem (upd a (set_head v) (mem s)) s).
Proof. split; try done. intros y. simpl. by apply (get_upd_field links). Qed.
Lemma same_bins_foot s a v : same_bins s (set_mem (upd a (set_prev_foot v) (mem s)) s).
Proof. split; try done. intros y. simpl. by apply (get_upd_field links). Qed.

Lemma free_heads s s' fs : free_inv gm_addr s fs -> same_bins s s' ->
  (forall y, y ∈ fs.*1 -> chunksize (get (mem s') y) = chunksize (get (mem s) y)) -> free_inv gm_addr s' fs.
Proof.
  intros (ss & ls & [H1 H2 H3 H4 H5]) [Hl E1 E2 E3 E4] Hs. exists ss, ls. split; try done.
  - apply (small_agree gm_addr s); try done.
    + intros x _. specialize (Hl x). unfold links in Hl. by simplify_eq.
    + intros x Hx. apply Hs. rewrite H3, fmap_app. apply elem_of_app. by left.
  - apply (large_agree gm_addr s); try done. intros x Hx. unfold seen. specialize (Hl x). unfold links in Hl. simplify_eq.
    rewrite Hs by (rewrite H3, fmap_app; apply elem_of_app; by right). congruence.
Qed.

Lemma free_inv_perm s fs fs' : fs ≡ₚ fs' -> free_inv gm_addr s fs -> free_inv gm_addr s fs'.
Proof.
  intros Hp (ss & ls & [H1 H2 H3 H4 H5]). exists ss, ls. split; try done; [by rewrite <-Hp|by rewrite <-Hp|]. intros a Ha. apply H5. by rewrite Hp.
Qed.

(** A head in the row holds the size of its block. *)
Lemma core_size s a0 bs K x sz : heap_core s a0 bs -> (x, sz) ∈ of_kind K a0 bs -> chunksize (get (mem s) x) = sz.
Proof.
  intros H Hin. pose proof (of_kind_range _ _ _ _ _ (core_ok _ _ _ H) Hin) as (_ & Hp & Hr & (Hm & _)). simpl in Hm.
  destruct H as [Hlay _ [? _] [Hs _] _]. change MAX_TREE_SIZE with (2 ^ 40) in Hs.
  apply of_kind_split in Hin as (l & r & -> & ->). apply layout_app in Hlay as (Hl & Hh & _).
  pose proof (layout_ok _ _ _ _ Hl) as Hokl. pose proof (row_nonneg _ Hokl). eapply chunksize_mkhead; [done|done|]. lia.
Qed.

(** Stores to heads and footers leave the bins as they are while their chunks stay blocks. *)
Lemma free_core s s' a0 bs bs' fs : heap_core s a0 bs -> heap_core s' a0 bs' -> same_bins s s' ->
  (forall c, c ∈ fs -> c ∈ of_kind Binned a0 bs /\ c ∈ of_kind Binned a0 bs') -> free_inv gm_addr s fs -> free_inv gm_addr s' fs.
Proof.
  intros H H' Hb Hin Hf. apply (free_heads s); [done|done|]. intros y ([x sz] & -> & Hy)%list_elem_of_fmap. destruct (Hin _ Hy) as [H1 H2].
  simpl. by rewrite (core_size _ _ _ _ _ _ H H1), (core_size _ _ _ _ _ _ H' H2).
Qed.

(** The bins change and the tags do not. *)
Lemma core_frame s s' a0 bs : heap_core s a0 bs -> same_heads (mem s) (mem s') -> top (gm s') = top (gm s) -> topsize (gm s') = topsize (gm s) ->
  least_addr (gm s') = least_addr (gm s) -> heap_core s' a0 bs.
Proof.
  intros [H1 (l & T1 & T2 & T3) H3 H4 H5] Hh E1 E2 E3. split; rewrite ?E3; try done; [|exists l; by rewrite E1, E2].
  apply (layout_frame (mem s)); [|done]. intros x _. apply Hh.
Qed.

(** ** Blocks *)

(** What is known of a block of the row and its two sides. *)
Record block_at (s : dl_st) (a0 : Z) (l : blocks) (sz : Z) (k : kind) (r : blocks) (x : Z) : Prop := {
  ba_addr : x = a0 + total l;
  ba_ok : block_ok (sz, k);
  ba_left : layout (mem s) a0 None l;
  ba_head : head (get (mem s) x) = mkhead sz (is_none (after_all None l)) (in_use k);
  ba_foot p : after_all None l = Some p -> prev_foot (get (mem s) x) = p /\ k = InUse;
  ba_right : layout (mem s) (x + sz) (after (sz, k)) r;
  ba_range : 0 < x /\ a0 <= x /\ 0 <= total r /\ x + sz + total r = a0 + total (l ++ (sz, k) :: r) /\ x mod 16 = 0 /\
    x + sz + total r < 2 ^ 63 /\ sz + total r < MAX_TREE_SIZE;
  ba_usable : usable s x;
  ba_free : k <> InUse -> after_all None l = None;
  ba_more : k <> Top -> r <> [];
  ba_next : k <> InUse -> k <> Top -> exists sz1 r1, r = (sz1, InUse) :: r1;
  ba_last : k = Top -> r = [] }.

Lemma core_block s a0 l sz k r : heap_core s a0 (l ++ (sz, k) :: r) -> block_at s a0 l sz k r (a0 + total l).
Proof.
  intros H. pose proof (core_ok _ _ _ H) as Hok. destruct H as [Hlay (bt & Ebs & Etop & Hnt) (Hb0 & Hbm & Hbl) (Hs1 & Hs2) _].
  apply layout_app in Hlay as [Hl Hr]. pose proof Hr as (Hh & Hf & Hbo & Hrr). apply Forall_app in Hok as [Hokl Hokr].
  apply Forall_cons in Hokr as [_ Hokr]. pose proof (row_nonneg _ Hokl). pose proof (row_nonneg _ Hokr). pose proof (total_mod16 _ Hokl).
  rewrite total_app in *. simpl in Hs1, Hs2. pose proof Hbo as (_ & Hsz & _). simpl in Hsz.
  assert (Hmore : k <> Top -> r <> []) by (intros Hk ->; apply app_inj_tail in Ebs as [_ [= _ ->]]; done).
  split; try done.
  - rewrite total_app. simpl. split; [lia|]. split; [lia|]. split; [lia|]. split; [lia|]. split; [zlia|]. split; lia.
  - split; lia.
  - intros Hk. destruct (after_all None l) as [p|] eqn:E; [|done]. by destruct (Hf p eq_refl) as [_ ?].
  - intros Hk Hkt. destruct r as [|[sz1 k1] r1]; [by specialize (Hmore Hkt)|].
    exists sz1, r1. simpl in Hrr. destruct Hrr as (_ & Hf1 & _). unfold after in Hf1. simpl in Hf1.
    destruct (in_use k) eqn:Ek; [by destruct k|]. by destruct (Hf1 sz eq_refl) as [_ ->].
  - intros ->. destruct r as [|b r _] using rev_ind; [done|exfalso]. rewrite app_comm_cons, app_assoc in Ebs.
    apply app_inj_tail in Ebs as [<- _]. rewrite of_kind_app in Hnt. apply app_eq_nil in Hnt as [_ Hnt]. done.
Qed.

(** The blocks of a kind outside a part of the row of size [m]. *)
Definition rest (K : kind) (a0 : Z) (l : blocks) (m : Z) (r : blocks) : list (Z * Z) := of_kind K a0 l ++ of_kind K (a0 + total l + m) r.

Lemma of_kind_mid K a0 l mid r : of_kind K a0 (l ++ mid ++ r) ≡ₚ of_kind K (a0 + total l) mid ++ rest K a0 l (total mid) r.
Proof. unfold rest. rewrite !of_kind_app. solve_Permutation. Qed.

(** ** Replacing part of the row *)

Lemma row_top g a0 l mid mid' r : top_ok g a0 (l ++ mid ++ r) -> r <> [] -> of_kind Top (a0 + total l) mid' = [] -> total mid' = total mid ->
  top_ok g a0 (l ++ mid' ++ r).
Proof.
  intros (bt & Ebs & Etop & Hnt) Hr Htop Htot. destruct r as [|b r _] using rev_ind; [done|].
  rewrite !app_assoc in Ebs. apply app_inj_tail in Ebs as [Ebt ->]. exists (l ++ mid' ++ r). split; [by rewrite <-!app_assoc|]. split.
  - rewrite Etop, <-Ebt, !total_app. lia.
  - rewrite <-Ebt in Hnt. rewrite !of_kind_app in Hnt |- *. apply app_eq_nil in Hnt as [Hnt1 Hnt2]. apply app_eq_nil in Hnt1 as [Hnt1 _].
    rewrite Hnt1, Htop, Htot. rewrite total_app in Hnt2. simpl. rewrite <-Z.add_assoc. done.
Qed.

Lemma top_ok_gm g g' a0 bs : top g' = top g -> topsize g' = topsize g -> top_ok g a0 bs -> top_ok g' a0 bs.
Proof. intros E1 E2 (l & ?). exists l. by rewrite E1, E2. Qed.

Lemma row_core s s' a0 l mid mid' r : heap_core s a0 (l ++ mid ++ r) -> total mid' = total mid -> least_addr (gm s') = least_addr (gm s) ->
  (forall y, a0 <= y < a0 + total l -> head (get (mem s') y) = head (get (mem s) y) /\ prev_foot (get (mem s') y) = prev_foot (get (mem s) y)) ->
  layout (mem s') (a0 + total l) (after_all None l) mid' ->
  layout (mem s') (a0 + total l + total mid) (after_all (after_all None l) mid') r ->
  top_ok (gm s') a0 (l ++ mid' ++ r) -> heap_core s' a0 (l ++ mid' ++ r).
Proof.
  intros [Hlay _ Hbase Hsize Hhdr] Htot El Hleft Hmid Hright Htop.
  assert (Et : total (l ++ mid' ++ r) = total (l ++ mid ++ r)) by (rewrite !total_app; lia).
  split; rewrite ?Et, ?El; try done. apply layout_app in Hlay as [Hl _].
  rewrite !layout_app. split; [by apply (layout_frame (mem s))|]. rewrite Htot. done.
Qed.

(** The fields of the state the row is tied to. *)
Definition same_row (g g' : malloc_state) : Prop := top g' = top g /\ topsize g' = topsize g /\ least_addr g' = least_addr g.

(** A free block is taken whole. *)
Lemma take_core s s' a0 l sz k r : let x := a0 + total l in
  heap_core s a0 (l ++ (sz, k) :: r) -> k <> InUse -> k <> Top -> same_row (gm s) (gm s') ->
  head (get (mem s') x) = mkhead sz true true ->
  head (get (mem s') (x + sz)) = head (get (mem s) (x + sz)) .| PINUSE_BIT ->
  (forall y, y <> x -> y <> x + sz -> head (get (mem s') y) = head (get (mem s) y)) ->
  (forall y, prev_foot (get (mem s') y) = prev_foot (get (mem s) y)) ->
  heap_core s' a0 (l ++ (sz, InUse) :: r).
Proof.
  intros x H Hk Hkt (E1 & E2 & E3) Hx Hn Hh Hf. destruct (core_block _ _ _ _ _ _ H) as [_ Hok _ _ _ Hr Hrg _ Hpf _ Hnx _]. fold x in Hr, Hrg.
  destruct (Hnx Hk Hkt) as (sz1 & r1 & ->). pose proof Hok as (Hm & Hp & Hmin). simpl in Hm, Hp, Hmin. specialize (Hpf Hk).
  apply (row_core s s' a0 l [(sz, k)] [(sz, InUse)]); try done.
  - intros y Hy. rewrite Hf, Hh by (unfold x; lia). done.
  - fold x. simpl. rewrite Hpf. split; [done|]. split; [done|]. split; [|done]. split; [done|]. split; [done|]. intros _. by apply Hmin.
  - fold x. simpl total. rewrite Z.add_0_r. apply (layout_retag (mem s) _ _ (after (sz, k))); [done| |done|].
    + rewrite Hn. destruct Hr as (-> & _ & (Hm1 & _) & _). simpl. rewrite head_set_pinuse by done. done.
    + intros y Hy. rewrite Hf, Hh by lia. done.
  - apply (top_ok_gm (gm s)); [done|done|]. apply (row_top _ a0 l [(sz, k)] [(sz, InUse)]); try done. apply H.
Qed.

(** A free block is split: the first part is in use, the rest is free. *)
Lemma split_core s s' a0 l sz k r nb k' : let x := a0 + total l in
  heap_core s a0 (l ++ (sz, k) :: r) -> k <> InUse -> k <> Top -> k' <> InUse -> k' <> Top -> same_row (gm s) (gm s') ->
  nb mod 16 = 0 -> MIN_CHUNK_SIZE <= nb -> MIN_CHUNK_SIZE <= sz - nb ->
  head (get (mem s') x) = mkhead nb true true -> head (get (mem s') (x + nb)) = mkhead (sz - nb) true false ->
  prev_foot (get (mem s') (x + sz)) = sz - nb ->
  (forall y, y <> x -> y <> x + nb -> head (get (mem s') y) = head (get (mem s) y)) ->
  (forall y, y <> x + sz -> prev_foot (get (mem s') y) = prev_foot (get (mem s) y)) ->
  heap_core s' a0 (l ++ (nb, InUse) :: (sz - nb, k') :: r).
Proof.
  intros x H Hk Hkt Hk' Hkt' (E1 & E2 & E3) Hnm Hnb Hrs Hx Hn Hfn Hh Hf.
  destruct (core_block _ _ _ _ _ _ H) as [_ Hok _ _ _ Hr Hrg _ Hpf _ Hnx _]. fold x in Hr, Hrg.
  destruct (Hnx Hk Hkt) as (sz1 & r1 & ->). pose proof Hok as (Hm & Hp & Hmin). simpl in Hm, Hp, Hmin. specialize (Hpf Hk). rewrite min_chunk_size in *.
  assert (Hu' : in_use k' = false) by (by destruct k').
  apply (row_core s s' a0 l [(sz, k)] [(nb, InUse); (sz - nb, k')]); try done.
  - simpl. lia.
  - intros y Hy. rewrite Hf, Hh by (unfold x; lia). done.
  - fold x. simpl. rewrite Hpf, Hu'. split; [done|]. split; [done|]. split; [split; [done|split; [simpl; lia|done]]|].
    split; [done|]. split; [done|]. split; [|done]. split; [simpl; zlia|]. split; [simpl; lia|done].
  - fold x. change (total [(sz, k)]) with (sz + 0). rewrite Z.add_0_r. replace (after_all _ _) with (Some (sz - nb)) by (cbn; unfold after; cbn; by rewrite Hu').
    apply (layout_retag (mem s) _ _ (after (sz, k))); [done| |intros p [= <-]; by split|].
    + rewrite Hh by lia. destruct Hr as (-> & _ & _). simpl. unfold after. simpl. by destruct k.
    + intros y Hy. rewrite Hf, Hh by lia. done.
  - apply (top_ok_gm (gm s)); [done|done|]. apply (row_top _ a0 l [(sz, k)] [(nb, InUse); (sz - nb, k')]); [apply H|done|by destruct k'|simpl; lia].
Qed.

(** The top is split. *)
Lemma split_top_core s s' a0 l sz nb : let x := a0 + total l in
  heap_core s a0 (l ++ [(sz, Top)]) -> nb mod 16 = 0 -> MIN_CHUNK_SIZE <= nb < sz ->
  head (get (mem s') x) = mkhead nb true true -> head (get (mem s') (x + nb)) = mkhead (sz - nb) true false ->
  (forall y, y <> x -> y <> x + nb -> head (get (mem s') y) = head (get (mem s) y)) ->
  (forall y, prev_foot (get (mem s') y) = prev_foot (get (mem s) y)) ->
  top (gm s') = x + nb -> topsize (gm s') = sz - nb -> least_addr (gm s') = least_addr (gm s) ->
  heap_core s' a0 (l ++ [(nb, InUse); (sz - nb, Top)]).
Proof.
  intros x H Hnm Hnb Hx Hn Hh Hf E3 E4 E5. destruct (core_block _ _ _ _ _ _ H) as [_ Hok _ _ _ _ Hrg _ Hpf _ _ _]. fold x in Hrg.
  pose proof Hok as (Hm & Hp & _). simpl in Hm, Hp. specialize (Hpf ltac:(done)). rewrite min_chunk_size in *.
  apply (row_core s s' a0 l [(sz, Top)] [(nb, InUse); (sz - nb, Top)] []); try done.
  - simpl. lia.
  - intros y Hy. rewrite Hf, Hh by (unfold x; lia). done.
  - fold x. simpl. rewrite Hpf. split; [done|]. split; [done|]. split; [split; [done|split; [simpl; lia|intros _; rewrite min_chunk_size; simpl; lia]]|].
    split; [done|]. split; [done|]. split; [|done]. split; [simpl; zlia|]. split; [simpl; lia|done].
  - destruct (hc_top _ _ _ H) as (bt & Ebs & Etop & Hnt). apply app_inj_tail in Ebs as [<- [= Ets]].
    exists (l ++ [(nb, InUse)]). rewrite <-app_assoc, E3, E4. split; [done|]. split; [rewrite total_app; simpl; unfold x; lia|].
    rewrite of_kind_app, Hnt. done.
Qed.

(** Part of the row becomes one free block. *)
Lemma merge_core s s' a0 l mid sz k' sz1 r1 : let x := a0 + total l in
  heap_core s a0 (l ++ mid ++ (sz1, InUse) :: r1) -> total mid = sz -> sz mod 16 = 0 -> MIN_CHUNK_SIZE <= sz -> after_all None l = None ->
  k' <> InUse -> k' <> Top -> same_row (gm s) (gm s') ->
  head (get (mem s') x) = mkhead sz true false -> head (get (mem s') (x + sz)) = mkhead sz1 false true ->
  prev_foot (get (mem s') (x + sz)) = sz ->
  (forall y, y < x \/ x + sz < y -> head (get (mem s') y) = head (get (mem s) y) /\ prev_foot (get (mem s') y) = prev_foot (get (mem s) y)) ->
  heap_core s' a0 (l ++ (sz, k') :: (sz1, InUse) :: r1).
Proof.
  intros x H Htot Hm Hmin Hpf Hk' Hkt' (E1 & E2 & E3) Hx Hn Hfn Hout. rewrite min_chunk_size in Hmin.
  assert (Hu' : in_use k' = false) by (by destruct k'). pose proof (hc_layout _ _ _ H) as Hlay. rewrite !layout_app in Hlay. destruct Hlay as (_ & _ & Hr).
  apply (row_core s s' a0 l mid [(sz, k')]); try done.
  - simpl. lia.
  - intros y Hy. apply Hout. unfold x. lia.
  - fold x. simpl. rewrite Hpf, Hu'. split; [done|]. split; [done|]. split; [|done]. split; [done|]. split; [simpl; lia|done].
  - fold x. rewrite Htot. rewrite Htot in Hr. replace (after_all _ _) with (Some sz) by (cbn; unfold after; cbn; by rewrite Hu').
    apply (layout_retag (mem s) _ _ (after_all (after_all None l) mid)); [done|done|intros p [= <-]; by split|].
    intros y Hy. apply Hout. unfold x in *. lia.
  - apply (top_ok_gm (gm s)); [done|done|]. apply (row_top _ a0 l mid [(sz, k')]); [apply H|done|by destruct k'|simpl; lia].
Qed.

(** The end of the row becomes the top. *)
Lemma merge_top_core s s' a0 l mid sz : let x := a0 + total l in
  heap_core s a0 (l ++ mid) -> total mid = sz -> sz mod 16 = 0 -> 0 < sz -> after_all None l = None -> of_kind Top a0 l = [] ->
  top (gm s') = x -> topsize (gm s') = sz -> least_addr (gm s') = least_addr (gm s) ->
  head (get (mem s') x) = mkhead sz true false ->
  (forall y, y < x -> head (get (mem s') y) = head (get (mem s) y) /\ prev_foot (get (mem s') y) = prev_foot (get (mem s) y)) ->
  heap_core s' a0 (l ++ [(sz, Top)]).
Proof.
  intros x H Htot Hm Hmin Hpf Hnt E1 E2 E3 Hx Hout. rewrite <-(app_nil_r mid) in H.
  apply (row_core s s' a0 l mid [(sz, Top)] []); try done.
  - simpl. lia.
  - intros y Hy. apply Hout. unfold x. lia.
  - fold x. simpl. rewrite Hpf. split; [done|]. split; [done|]. split; [|done]. split; [done|]. split; [simpl; lia|done].
  - exists l. by rewrite E2, E1.
Qed.

(** Which free blocks are binned and which is kept aside is not in the tags. *)
Lemma undv_core s a0 bs : heap_core s a0 bs -> heap_core s a0 (undv bs).
Proof.
  intros [H1 (l & -> & H2 & H3) H4 H5 H6]. split; rewrite ?undv_total; try done; [by apply undv_layout|].
  exists (undv l). split; [by rewrite undv_app|]. rewrite undv_total. split; [done|]. by rewrite undv_other.
Qed.
End core.
