(* ===== verification/DlAlloc.v ===== *)
(** [dlmalloc] of the C library's allocator keeps the heap invariant: [malloc_fast] hands out exactly
    one block that was free, or finds that none is large enough and changes nothing. *)
From S2P Require Import Prelude DlBins DlHeap DlTree DlLarge DlFit DlSmall DlFree DlMalloc DlLayout DlCore.

Section alloc.
Context (gm_addr : Z) (Hgm : 0 < gm_addr).
Abbreviation core := (heap_core gm_addr).
Abbreviation inv := (heap_inv gm_addr).

(** ** Bins and rows *)

Lemma rest_in K a0 l mid r c : c ∈ rest K a0 l (total mid) r -> c ∈ of_kind K a0 (l ++ mid ++ r).
Proof. rewrite of_kind_mid, elem_of_app. tauto. Qed.

Lemma dv_ok_perm g l l' : l ≡ₚ l' -> dv_ok g l -> dv_ok g l'.
Proof.
  intros Hp [(E1 & E2 & ->)|(E1 & ->)]; [left|right]; (split; [done|]); [split; [done|]|].
  - by apply Permutation_nil_l in Hp.
  - symmetry in Hp. by apply Permutation_singleton_r in Hp.
Qed.

Lemma bins_core s s' l a0 bs : bins_frame gm_addr s s' l -> core s a0 bs -> core s' a0 bs.
Proof. intros [_ Hh Hg] H. apply (core_frame _ s); try done; by rewrite Hg. Qed.

(** Tags change in part of the row, whose chunks are in no bin. *)
Lemma reblock s s' a0 l mid mid' r : core s a0 (l ++ mid ++ r) -> core s' a0 (l ++ mid' ++ r) -> total mid' = total mid -> same_bins s s' ->
  free_inv gm_addr s (rest Binned a0 l (total mid) r) -> free_inv gm_addr s' (rest Binned a0 l (total mid) r).
Proof.
  intros H H' Et Hb. apply (free_core _ s s' a0 _ _ _ H H' Hb). intros c Hc. split; [by apply rest_in|]. apply rest_in. by rewrite Et.
Qed.

Lemma inv_intro s a0 l mid r : core s a0 (l ++ mid ++ r) ->
  free_inv gm_addr s (of_kind Binned (a0 + total l) mid ++ rest Binned a0 l (total mid) r) ->
  dv_ok (gm s) (of_kind Dv (a0 + total l) mid ++ rest Dv a0 l (total mid) r) -> inv s a0 (l ++ mid ++ r).
Proof.
  intros H1 H2 H3. split; [done| |].
  - eapply free_inv_perm; [|done]. symmetry. apply of_kind_mid.
  - eapply dv_ok_perm; [|done]. symmetry. apply of_kind_mid.
Qed.

Lemma inv_elim s a0 l mid r : inv s a0 (l ++ mid ++ r) -> core s a0 (l ++ mid ++ r) /\
  free_inv gm_addr s (of_kind Binned (a0 + total l) mid ++ rest Binned a0 l (total mid) r) /\
  dv_ok (gm s) (of_kind Dv (a0 + total l) mid ++ rest Dv a0 l (total mid) r).
Proof.
  intros [H1 H2 H3]. split; [done|]. split; [eapply free_inv_perm; [|done]|eapply dv_ok_perm; [|done]]; apply of_kind_mid.
Qed.

Lemma core_binnable s a0 l sz k r : core s a0 (l ++ (sz, k) :: r) -> k <> Top -> binnable sz.
Proof.
  intros H Hk. destruct (core_block _ _ _ _ _ _ _ H) as [_ (Hm & Hp & Hmin) _ _ _ _ Hrg _ _ _ _ _]. simpl in *.
  split; [split; [by apply Hmin|lia]|zlia].
Qed.

(** A binned block leaves its bin. *)
Lemma unlink_block func s a0 l sz r : inv s a0 (l ++ (sz, Binned) :: r) ->
  exists s', unlink_chunk gm_addr func (a0 + total l) sz s = Ok (tt, s') /\ core s' a0 (l ++ (sz, Binned) :: r) /\
    free_inv gm_addr s' (rest Binned a0 l sz r) /\ bins_only (gm s) (gm s').
Proof.
  intros H. apply (inv_elim s a0 l [(sz, Binned)] r) in H as (Hc & Hf & _). simpl in Hf. rewrite Z.add_0_r in Hf.
  destruct (unlink_chunk_ok gm_addr func Hgm _ sz s _ Hf) as (s' & Hrun & Hf' & Hb); [by eapply core_binnable|].
  exists s'. split; [done|]. split; [by eapply bins_core|]. split; [done|]. apply Hb.
Qed.

(** A free block of the row enters a bin. *)
Lemma insert_block func s a0 bs x sz fs : core s a0 bs -> of_kind Binned a0 bs ≡ₚ (x, sz) :: fs -> free_inv gm_addr s fs ->
  exists s', insert_chunk gm_addr func x sz s = Ok (tt, s') /\ core s' a0 bs /\
    free_inv gm_addr s' ((x, sz) :: fs) /\ bins_only (gm s) (gm s').
Proof.
  intros Hc Hp Hf. pose proof (of_kind_nodup Binned a0 _ (core_ok _ _ _ _ Hc)) as Hnd. rewrite Hp in Hnd. simpl in Hnd. apply NoDup_cons in Hnd as [Hni _].
  assert (Hin : (x, sz) ∈ of_kind Binned a0 bs) by (rewrite Hp; left).
  pose proof (of_kind_range _ _ _ _ _ (core_ok _ _ _ _ Hc) Hin) as Hr. pose proof (core_size _ _ _ _ _ _ _ Hc Hin) as Hsz.
  pose proof (of_kind_split _ _ _ _ _ Hin) as (l & r & Ebs & Ex).
  assert (Hb : binnable sz) by (rewrite Ebs in Hc; by eapply core_binnable).
  assert (Hu : usable s x) by (rewrite Ebs in Hc; rewrite Ex; apply (core_block _ _ _ _ _ _ _ Hc)).
  destruct (insert_chunk_ok gm_addr func Hgm x sz s _ Hf) as (s' & Hrun & Hf' & Hfr); try done.
  { intros Hh. apply (hc_headers _ _ _ _ Hc) in Hh. lia. }
  exists s'. split; [done|]. split; [by eapply bins_core|]. split; [done|]. apply Hfr.
Qed.

(** ** Tags *)
Definition same_gm (s s' : dl_st) : Prop := same_bins s s' /\ gm s' = gm s.

Lemma take_run s a0 l sz k r : core s a0 (l ++ (sz, k) :: r) -> k <> InUse -> k <> Top ->
  exists s', set_inuse_and_pinuse (a0 + total l) sz s = Ok (tt, s') /\ core s' a0 (l ++ (sz, InUse) :: r) /\ same_gm s s'.
Proof.
  intros H Hk Hkt. destruct (core_block _ _ _ _ _ _ _ H) as [_ (Hm & Hp & Hmin) _ _ _ _ Hrg _ _ _ _ _]. simpl in *. set (x := a0 + total l) in *.
  unfold set_inuse_and_pinuse, chunk_plus_offset. rewrite (wrap_small 64 (x + sz)) by (unfold fits; lia).
  rewrite wr_bind, rd_bind, wr_ok by lia. cbn [mem set_mem]. rewrite get_upd_ne by lia.
  eexists. split; [done|]. split; [|split; [|done]].
  - apply (take_core _ s _ a0 l sz k r H Hk Hkt); fold x; cbn [mem gm set_mem]; [done| | | |].
    + rewrite get_upd_ne, get_upd_eq by lia. cbn. by apply head_used.
    + rewrite get_upd_eq. done.
    + intros y H1 H2. by rewrite !get_upd_ne by done.
    + intros y. by rewrite !(get_upd_field prev_foot) by done.
  - etransitivity; [apply same_bins_head|apply same_bins_head].
Qed.

(** The stores that split a block, in both orders. *)
Definition split_heap (x nb rs : Z) (h : heap) : heap :=
  upd (x + nb + rs) (set_prev_foot rs) (upd (x + nb) (set_head (rs .| PINUSE_BIT)) (upd x (set_head (nb .| PINUSE_BIT .| CINUSE_BIT)) h)).
Definition split_heap' (x nb rs : Z) (h : heap) : heap :=
  upd x (set_head (nb .| PINUSE_BIT .| CINUSE_BIT)) (upd (x + nb + rs) (set_prev_foot rs) (upd (x + nb) (set_head (rs .| PINUSE_BIT)) h)).

Lemma upd_comm a b f g h : a <> b -> upd a f (upd b g h) = upd b g (upd a f h).
Proof. intros H. unfold upd at 1 3. rewrite !get_upd_ne by done. unfold upd. by rewrite insert_insert_ne by done. Qed.

Lemma split_heap_eq x nb rs h : 0 < nb -> 0 < rs -> split_heap' x nb rs h = split_heap x nb rs h.
Proof. intros H1 H2. unfold split_heap, split_heap'. by rewrite (upd_comm x (x + nb + rs)), (upd_comm x (x + nb)) by lia. Qed.

Lemma split_heap_core s s' a0 l sz k r nb k' : core s a0 (l ++ (sz, k) :: r) -> k <> InUse -> k <> Top -> k' <> InUse -> k' <> Top ->
  nb mod 16 = 0 -> MIN_CHUNK_SIZE <= nb -> MIN_CHUNK_SIZE <= sz - nb -> same_row (gm s) (gm s') ->
  mem s' = split_heap (a0 + total l) nb (sz - nb) (mem s) -> core s' a0 (l ++ (nb, InUse) :: (sz - nb, k') :: r).
Proof.
  intros H Hk Hkt Hk' Hkt' Hnm Hnb Hrs Hg Hm. destruct (core_block _ _ _ _ _ _ _ H) as [_ (Hszm & Hp & _) _ _ _ _ Hrg _ _ _ _ _].
  simpl in Hszm, Hp. rewrite min_chunk_size in *. set (x := a0 + total l) in *. unfold split_heap in Hm. replace (x + nb + (sz - nb)) with (x + sz) in Hm by lia.
  apply (split_core _ s s' a0 l sz k r nb k' H); fold x; try done; rewrite ?Hm.
  - rewrite !get_upd_ne, get_upd_eq by lia. cbn. by apply head_used.
  - rewrite get_upd_ne, get_upd_eq by lia. cbn. rewrite head_free; [done|zlia].
  - by rewrite get_upd_eq.
  - intros y H1 H2. rewrite (get_upd_field head) by done. by rewrite !get_upd_ne by done.
  - intros y H1. rewrite get_upd_ne by done. by rewrite !(get_upd_field prev_foot) by done.
Qed.

Lemma split_heap_links s g x nb rs : smallmap (g (gm s)) = smallmap (gm s) -> treemap (g (gm s)) = treemap (gm s) ->
  treebins (g (gm s)) = treebins (gm s) -> least_addr (g (gm s)) = least_addr (gm s) -> same_bins s (mkDl (g (gm s)) (split_heap x nb rs (mem s))).
Proof. intros H1 H2 H3 H4. split; try done. intros y. simpl. unfold split_heap. by rewrite !(get_upd_field links) by done. Qed.

(** ** Granting a block *)

(** One more block is in use: it holds [nb] bytes and is less than a chunk larger. *)
Definition granted (a0 : Z) (bs : blocks) (nb : Z) (s' : dl_st) (mem : Z) : Prop := exists bs' p sz,
  inv s' a0 bs' /\ total bs' = total bs /\ mem = chunk2mem p /\ nb <= sz < nb + MIN_CHUNK_SIZE /\
  of_kind InUse a0 bs' ≡ₚ (p, sz) :: of_kind InUse a0 bs.

Lemma rest_undv K a0 l m r : K <> Binned -> K <> Dv -> rest K a0 (undv l) m (undv r) = rest K a0 l m r.
Proof. intros H1 H2. unfold rest. by rewrite undv_total, !undv_other. Qed.
Lemma rest_undv_binned a0 l m r : rest Binned a0 (undv l) m (undv r) ≡ₚ rest Dv a0 l m r ++ rest Binned a0 l m r.
Proof. unfold rest. rewrite undv_total, !undv_binned. solve_Permutation. Qed.
Lemma rest_undv_dv a0 l m r : rest Dv a0 (undv l) m (undv r) = [].
Proof. unfold rest. by rewrite !undv_dv. Qed.

(** What is left once the block [x] of size [sz] is out of the bins and not kept aside. *)
Record loose (s : dl_st) (a0 : Z) (l : blocks) (sz : Z) (k : kind) (r : blocks) : Prop := {
  lo_kind : k <> InUse /\ k <> Top;
  lo_core : core s a0 (l ++ (sz, k) :: r);
  lo_free : free_inv gm_addr s (rest Binned a0 l sz r);
  lo_dv : dv_ok (gm s) (rest Dv a0 l sz r) }.

Lemma take_granted s a0 l sz k r nb : loose s a0 l sz k r -> nb <= sz < nb + MIN_CHUNK_SIZE ->
  exists s', set_inuse_and_pinuse (a0 + total l) sz s = Ok (tt, s') /\ granted a0 (l ++ (sz, k) :: r) nb s' (chunk2mem (a0 + total l)).
Proof.
  intros [[Hk Hkt] Hc Hf Hd] Hnb. destruct (take_run s a0 l sz k r Hc Hk Hkt) as (s' & Hrun & Hc' & Hb & Hg). exists s'. split; [done|].
  exists (l ++ (sz, InUse) :: r), (a0 + total l), sz. split; [|split; [by rewrite !total_app|split; [done|split; [done|]]]].
  - apply (inv_intro s' a0 l [(sz, InUse)] r); [done| |]; simpl; rewrite Z.add_0_r; [|by rewrite Hg].
    replace sz with (total [(sz, k)]) in Hf |- * by (simpl; lia). by apply (reblock s s' a0 l [(sz, k)] [(sz, InUse)] r).
  - rewrite (of_kind_mid InUse a0 l [(sz, InUse)] r), (of_kind_mid InUse a0 l [(sz, k)] r). simpl. by rewrite (decide_False (P := k = InUse)).
Qed.

(** The rest of the block goes to a bin. *)
Lemma split_insert_granted func s s1 a0 l sz k r nb : loose s a0 l sz k r -> nb mod 16 = 0 -> MIN_CHUNK_SIZE <= nb -> MIN_CHUNK_SIZE <= sz - nb ->
  gm s1 = gm s -> mem s1 = split_heap (a0 + total l) nb (sz - nb) (mem s) ->
  exists s', insert_chunk gm_addr func (a0 + total l + nb) (sz - nb) s1 = Ok (tt, s') /\
    granted a0 (l ++ (sz, k) :: r) nb s' (chunk2mem (a0 + total l)).
Proof.
  intros [[Hk Hkt] Hc Hf Hd] Hm Hnb Hrs Eg Em. rewrite min_chunk_size in *.
  assert (Hc1 : core s1 a0 (l ++ [(nb, InUse); (sz - nb, Binned)] ++ r)).
  { apply (split_heap_core s s1 a0 l sz k r nb Binned); try done; rewrite ?min_chunk_size; try lia. by rewrite Eg. }
  assert (Et : total [(nb, InUse); (sz - nb, Binned)] = total [(sz, k)]) by (simpl; lia).
  assert (Hb : same_bins s s1).
  { destruct s1 as [g1 m1]. simpl in Eg, Em. subst. by apply (split_heap_links s (fun g => g)). }
  replace sz with (total [(sz, k)]) in Hf, Hd by (simpl; lia).
  apply (reblock s s1 a0 l [(sz, k)] _ r Hc Hc1 Et Hb) in Hf.
  destruct (insert_block func s1 a0 _ (a0 + total l + nb) (sz - nb) (rest Binned a0 l (total [(sz, k)]) r) Hc1) as (s' & Hrun & Hc' & Hf' & Hg'); [|done|].
  { rewrite of_kind_mid, Et. simpl. done. }
  exists s'. split; [done|]. exists (l ++ [(nb, InUse); (sz - nb, Binned)] ++ r), (a0 + total l), nb.
  split; [|split; [rewrite !total_app, Et; simpl; lia|split; [done|split; [rewrite min_chunk_size; lia|]]]].
  - apply inv_intro; [done| |]; rewrite Et; simpl; [done|]. rewrite Hg'. unfold dv_ok. simpl. by rewrite Eg.
  - rewrite (of_kind_mid InUse a0 l [(sz, k)] r), of_kind_mid, Et. simpl. by rewrite (decide_False (P := k = InUse)).
Qed.

(** The rest of the block is kept aside; the chunk kept aside before goes to its bin. *)
Lemma split_dv_granted func s s1 a0 l sz k r nb : loose s a0 l sz k r -> nb mod 16 = 0 -> MIN_CHUNK_SIZE <= nb -> MIN_CHUNK_SIZE <= sz - nb ->
  dvsize (gm s) < MIN_LARGE_SIZE -> gm s1 = gm s -> mem s1 = split_heap (a0 + total l) nb (sz - nb) (mem s) ->
  exists s', replace_dv gm_addr func (a0 + total l + nb) (sz - nb) s1 = Ok (tt, s') /\
    granted a0 (l ++ (sz, k) :: r) nb s' (chunk2mem (a0 + total l)).
Proof.
  intros [[Hk Hkt] Hc Hf Hd] Hm Hnb Hrs Hsm Eg Em. rewrite min_chunk_size in *. pose proof (undv_core _ _ _ _ Hc) as Hcu.
  rewrite undv_app in Hcu. simpl in Hcu.
  assert (Hc1 : core s1 a0 (undv l ++ [(nb, InUse); (sz - nb, Dv)] ++ undv r)).
  { apply (split_heap_core s s1 a0 (undv l) sz (undv_kind k) (undv r) nb Dv); rewrite ?min_chunk_size, ?undv_total; try done; try lia; try (by destruct k). by rewrite Eg. }
  assert (Et : total [(nb, InUse); (sz - nb, Dv)] = sz) by (simpl; lia).
  assert (Hb : same_bins s s1).
  { destruct s1 as [g1 m1]. simpl in Eg, Em. subst. by apply (split_heap_links s (fun g => g)). }
  assert (Hf1 : free_inv gm_addr s1 (rest Binned a0 l sz r)).
  { apply (free_core _ s s1 a0 _ _ _ Hcu Hc1 Hb); [|done]. intros c Hin.
    assert (Hin' : c ∈ rest Binned a0 (undv l) sz (undv r)) by (rewrite rest_undv_binned; by apply elem_of_app; right).
    split; [apply (rest_in Binned a0 (undv l) [(sz, undv_kind k)]); simpl; by rewrite Z.add_0_r|apply rest_in; by rewrite Et]. }
  assert (Hin : exists s2, (if decide (dvsize (gm s1) = 0) then mret tt else DV ← gets (fun s => dv (gm s)); insert_small_chunk gm_addr func DV (dvsize (gm s1))) s1 = Ok (tt, s2) /\
    core s2 a0 (undv l ++ [(nb, InUse); (sz - nb, Dv)] ++ undv r) /\ free_inv gm_addr s2 (rest Binned a0 (undv l) sz (undv r))).
  { rewrite Eg. destruct Hd as [(E1 & _ & E2)|[E1 E2]].
    - rewrite decide_True by done. exists s1. split; [done|]. split; [done|]. eapply free_inv_perm; [|done]. by rewrite rest_undv_binned, E2.
    - rewrite decide_False by lia. rewrite gets_bind, Eg.
      destruct (insert_block func s1 a0 _ (dv (gm s)) (dvsize (gm s)) (rest Binned a0 l sz r) Hc1) as (s2 & Hrun & Hc2 & Hf2 & _); [|done|].
      { rewrite of_kind_mid, Et. cbn [of_kind decide snd fst app]. rewrite rest_undv_binned, E2. done. }
      exists s2. split; [|split; [done|eapply free_inv_perm; [|done]; by rewrite rest_undv_binned, E2]].
      unfold insert_chunk in Hrun. destruct (is_small (dvsize (gm s))) eqn:Es; [done|exfalso].
      unfold is_small, SMALLBIN_SHIFT, NSMALLBINS in Es. apply bool_decide_eq_false in Es. change MIN_LARGE_SIZE with 256 in Hsm.
      rewrite Z.shiftr_div_pow2 in Es by lia. zlia. }
  destruct Hin as (s2 & Hrun & Hc2 & Hf2). unfold replace_dv. rewrite gets_bind, (bind_ok _ _ _ _ _ Hrun). eexists. split; [done|].
  exists (undv l ++ [(nb, InUse); (sz - nb, Dv)] ++ undv r), (a0 + total l), nb.
  split; [|split; [rewrite !total_app, Et, !undv_total; simpl; lia|split; [done|split; [rewrite min_chunk_size; lia|]]]].
  - apply inv_intro; rewrite ?Et.
    + apply (core_frame _ s2); try done.
    + simpl. eapply free_heads; [done|by split|done].
    + rewrite rest_undv_dv. right. simpl. split; [lia|]. by rewrite undv_total.
  - rewrite (of_kind_mid InUse a0 l [(sz, k)] r), of_kind_mid, Et, undv_total, rest_undv by done. simpl.
    rewrite (decide_False (P := k = InUse)) by done. by rewrite Z.add_0_r.
Qed.
End alloc.
