(* ===== verification/DlServe.v ===== *)
(** [dlmalloc] of the C library's allocator, from the searches to the answer: with the heap invariant,
    [malloc_fast] runs to its end, and hands out a block or finds none that is large enough. *)
From S2P Require Import Prelude DlBins DlHeap DlTree DlLarge DlFit DlSmall DlFree DlMalloc DlLayout DlCore DlAlloc.

(** ** The searches over all free chunks *)
Section search.
Context (gm_addr : Z).

Lemma fit_large_free s fs nb : free_inv gm_addr s fs -> large nb -> exists v r, fit_large gm_addr nb s = Ok ((v, r), s) /\
  (v = 0 /\ (forall x sz, (x, sz) ∈ fs -> sz < nb) \/ v <> 0 /\ 0 <= r /\ (v, nb + r) ∈ fs /\ large (nb + r)).
Proof.
  intros (ss & ls & [Hs Hl Hp _ _]) Hnb. destruct (fit_large_ok gm_addr s ls nb Hl Hnb) as (v & r & Hrun & Hc & Hb). exists v, r. split; [done|].
  destruct Hc as [[-> ->]|(Hv & Hr & Hin)]; [left|right].
  - split; [done|]. intros x sz Hx. rewrite Hp in Hx. unfold large in Hnb. apply elem_of_app in Hx as [Hx|Hx].
    + apply (free_small_range gm_addr s ss) in Hx as [? _]; [lia|done].
    + destruct (Z.lt_ge_cases sz nb) as [|Hge]; [done|]. apply (free_large_range gm_addr s ls) in Hx as Hlx; [|done]. destruct Hlx as [[_ Hlt] _].
      change MAX_TREE_SIZE with (2 ^ 40) in Hlt. apply Hb in Hx; lia.
  - split; [done|]. split; [done|]. split; [rewrite Hp; apply elem_of_app; by right|]. by eapply free_large_range.
Qed.

Lemma fit_small_free s fs nb : free_inv gm_addr s fs -> treemap (gm s) <> 0 -> 0 < nb < MIN_LARGE_SIZE ->
  exists v r, fit_small gm_addr nb s = Ok ((v, r), s) /\ v <> 0 /\ 0 <= r /\ (v, nb + r) ∈ fs /\ large (nb + r).
Proof.
  intros (ss & ls & [Hs Hl Hp _ _]) Hm Hnb. destruct (fit_small_ok gm_addr s ls nb Hl Hm Hnb) as (v & r & Hrun & Hv & Hc & Hb). exists v, r.
  split; [done|]. split; [done|]. destruct Hc as [[-> _]|(_ & Hr & Hin)]; [done|]. split; [done|].
  split; [rewrite Hp; apply elem_of_app; by right|]. by eapply free_large_range.
Qed.

(** A chunk in a small bin has its bit in the map, one in a tree makes the other map not zero. *)
Lemma free_marks s fs x sz : free_inv gm_addr s fs -> (x, sz) ∈ fs ->
  sz < MIN_LARGE_SIZE /\ is_marked (smallmap (gm s)) (sz / 8) = true \/ treemap (gm s) <> 0.
Proof.
  intros (ss & ls & [Hs Hl Hp _ _]) Hin. rewrite Hp in Hin. apply elem_of_app in Hin as [H|H]; [left; by eapply free_small_range|right; by eapply free_large_range].
Qed.

Lemma free_smallmap s fs : free_inv gm_addr s fs -> fits 32 (smallmap (gm s)).
Proof. intros (ss & ls & [(lls & Hs) _ _ _ _]). by eapply sbins_map. Qed.
End search.

Section serve.
Context (gm_addr : Z) (Hgm : 0 < gm_addr).
Abbreviation core := (heap_core gm_addr).
Abbreviation inv := (heap_inv gm_addr).
Abbreviation granted := (granted gm_addr).

(** Where the rest of a split block goes. *)
Definition keeps (Q : Z -> Prop) (keep : Z -> Z -> cmd dl_st unit) : Prop := forall s s1 a0 l sz k r nb,
  loose gm_addr s a0 l sz k r -> nb mod 16 = 0 -> MIN_CHUNK_SIZE <= nb -> MIN_CHUNK_SIZE <= sz - nb -> Q (dvsize (gm s)) ->
  gm s1 = gm s -> mem s1 = split_heap (a0 + total l) nb (sz - nb) (mem s) ->
  exists s', keep (a0 + total l + nb) (sz - nb) s1 = Ok (tt, s') /\ granted a0 (l ++ (sz, k) :: r) nb s' (chunk2mem (a0 + total l)).

Lemma insert_keeps func : keeps (fun _ => True) (insert_chunk gm_addr func).
Proof. intros s s1 a0 l sz k r nb H1 H2 H3 H4 _ H5 H6. by apply (split_insert_granted gm_addr Hgm func s s1 a0 l sz k r nb). Qed.
Lemma dv_keeps func : keeps (fun d => d < MIN_LARGE_SIZE) (replace_dv gm_addr func).
Proof. intros s s1 a0 l sz k r nb H1 H2 H3 H4 H5 H6 H7. by apply (split_dv_granted gm_addr Hgm func s s1 a0 l sz k r nb). Qed.

(** What is too much is split off when a chunk can hold it. *)
Lemma serve_granted Q keep s a0 l sz k r nb rs : keeps Q keep -> loose gm_addr s a0 l sz k r -> Q (dvsize (gm s)) ->
  nb mod 16 = 0 -> MIN_CHUNK_SIZE <= nb -> 0 <= rs -> sz = nb + rs ->
  exists s', (if decide (rs < MIN_CHUNK_SIZE) then set_inuse_and_pinuse (a0 + total l) sz
    else _ ← set_size_and_pinuse_of_inuse_chunk (a0 + total l) nb;
         _ ← set_size_and_pinuse_of_free_chunk (a0 + total l + nb) rs;
         keep (a0 + total l + nb) rs) s = Ok (tt, s') /\ granted a0 (l ++ (sz, k) :: r) nb s' (chunk2mem (a0 + total l)).
Proof.
  intros Hkeep Hl HQ Hm Hnb Hrs Esz. case_decide as Hd; [apply take_granted; [done|lia]|].
  destruct (core_block _ _ _ _ _ _ _ (lo_core _ _ _ _ _ _ _ Hl)) as [_ _ _ _ _ _ Hrg _ _ _ _ _]. rewrite min_chunk_size in *.
  set (x := a0 + total l) in *. unfold set_size_and_pinuse_of_inuse_chunk, set_size_and_pinuse_of_free_chunk, set_foot, chunk_plus_offset.
  rewrite (wrap_small 64 (x + nb + rs)) by (unfold fits; lia). rewrite wr_bind, bind_assoc, !wr_bind by lia.
  replace rs with (sz - nb) by lia. eapply Hkeep; try done; rewrite ?min_chunk_size; lia.
Qed.

Lemma binned_loose s s1 a0 l sz r : inv s a0 (l ++ (sz, Binned) :: r) -> core s1 a0 (l ++ (sz, Binned) :: r) ->
  free_inv gm_addr s1 (rest Binned a0 l sz r) -> bins_only (gm s) (gm s1) -> loose gm_addr s1 a0 l sz Binned r.
Proof.
  intros H Hc Hf Hg. apply (inv_elim _ s a0 l [(sz, Binned)] r) in H as (_ & _ & Hd). simpl in Hd. rewrite Z.add_0_r in Hd.
  split; try done. rewrite Hg. exact Hd.
Qed.

Lemma block_of_kind s a0 bs K x sz : inv s a0 bs -> (x, sz) ∈ of_kind K a0 bs -> exists l r, bs = l ++ (sz, K) :: r /\ x = a0 + total l /\
  0 < x /\ least_addr (gm s) <= x /\ 0 < sz < MAX_TREE_SIZE /\ x + sz < 2 ^ 63 /\ sz mod 16 = 0.
Proof.
  intros H (l & r & -> & ->)%of_kind_split. exists l, r. split; [done|]. split; [done|].
  destruct (core_block _ _ _ _ _ _ _ (hi_core _ _ _ _ H)) as [_ (Hm & Hp & _) _ _ _ _ Hrg [Hu1 Hu2] _ _ _ _]. simpl in *. lia.
Qed.

(** The result of a search in the trees is used. *)
Lemma split_chunk_granted Q keep func s a0 bs v nb rs : keeps Q keep -> inv s a0 bs -> Q (dvsize (gm s)) -> (v, nb + rs) ∈ of_kind Binned a0 bs ->
  nb mod 16 = 0 -> MIN_CHUNK_SIZE <= nb -> 0 <= rs -> large (nb + rs) ->
  exists s', split_chunk gm_addr func keep v nb rs s = Ok (chunk2mem v, s') /\ granted a0 bs nb s' (chunk2mem v).
Proof.
  intros Hkeep H HQ Hin Hm Hnb Hrs Hlg. destruct (block_of_kind _ _ _ _ _ _ H Hin) as (l & r & -> & -> & Hx & Hla & Hsz & Hrg & _).
  set (x := a0 + total l) in *. rewrite min_chunk_size in Hnb. change MAX_TREE_SIZE with (2 ^ 40) in Hsz.
  unfold split_chunk. rewrite rtcheck_bind by (by apply ok_address_true). cbv zeta. unfold chunk_plus_offset. rewrite !wrap_small by (unfold fits; lia).
  unfold ok_next. rewrite bool_decide_eq_true_2 by lia.
  destruct (unlink_block gm_addr Hgm func s a0 l (nb + rs) r H) as (s1 & Hrun & Hc & Hf & Hg). unfold unlink_chunk in Hrun. fold x in Hrun.
  destruct (binnable_split (nb + rs)) as [[_ [Hsm _]]|[Es _]]; [by eapply core_binnable|exfalso; unfold large in Hlg; lia|]. rewrite Es in Hrun.
  rewrite (bind_ok _ _ _ _ _ Hrun), (Z.add_comm rs nb).
  destruct (serve_granted Q keep s1 a0 l (nb + rs) Binned r nb rs Hkeep) as (s' & Hrun' & Hgr); try done; [by eapply binned_loose|by rewrite Hg|].
  fold x in Hrun', Hgr. exists s'. split; [|done]. by rewrite (bind_ok _ _ _ _ _ Hrun').
Qed.

(** ** The chunk kept aside and the top *)

Lemma dv_block s a0 bs : inv s a0 bs -> 0 < dvsize (gm s) -> exists l r, bs = l ++ (dvsize (gm s), Dv) :: r /\ dv (gm s) = a0 + total l /\
  rest Dv a0 l (dvsize (gm s)) r = [].
Proof.
  intros H Hp. destruct (hi_dv _ _ _ _ H) as [(E & _)|[_ E]]; [lia|].
  destruct (block_of_kind s a0 bs Dv (dv (gm s)) (dvsize (gm s)) H) as (l & r & -> & Ex & _); [rewrite E; left|].
  exists l, r. split; [done|]. split; [done|]. rewrite Ex in E. set (d := dvsize (gm s)) in *.
  pose proof (of_kind_mid Dv a0 l [(d, Dv)] r) as Hp'. simpl in Hp'. rewrite E, Z.add_0_r in Hp'. by apply Permutation_cons_inv, Permutation_nil_l in Hp'.
Qed.

Lemma dv_small s a0 bs : inv s a0 bs -> 0 <= dvsize (gm s) < MAX_TREE_SIZE.
Proof.
  intros H. destruct (hi_dv _ _ _ _ H) as [(E & _)|[Hp E]]; [by rewrite E|].
  destruct (block_of_kind s a0 bs Dv (dv (gm s)) (dvsize (gm s)) H) as (l & r & _ & _ & _ & _ & ? & _); [rewrite E; left|lia].
Qed.

(** The state with another chunk kept aside. *)
Lemma dv_loose s a0 bs p d : inv s a0 bs -> 0 < dvsize (gm s) -> exists l r, bs = l ++ (dvsize (gm s), Dv) :: r /\ dv (gm s) = a0 + total l /\
  core (set_gm (set_dv p d) s) a0 bs /\ free_inv gm_addr (set_gm (set_dv p d) s) (rest Binned a0 l (dvsize (gm s)) r) /\
  rest Dv a0 l (dvsize (gm s)) r = [].
Proof.
  intros H Hp. destruct (dv_block s a0 bs H Hp) as (l & r & Ebs & Ex & Er). exists l, r. split; [done|]. split; [done|].
  set (z := dvsize (gm s)) in *. rewrite Ebs in H |- *. apply (inv_elim _ s a0 l [(z, Dv)] r) in H as (Hc & Hf & _). simpl in Hf. rewrite Z.add_0_r in Hf.
  split; [by apply (core_frame _ s)|]. split; [|done]. eapply free_heads; [done|by split|done].
Qed.

Lemma exhaust_dv s a0 bs nb : inv s a0 bs -> 0 < nb <= dvsize (gm s) -> dvsize (gm s) < nb + MIN_CHUNK_SIZE ->
  exists s', set_inuse_and_pinuse (dv (gm s)) (dvsize (gm s)) (set_gm (set_dv 0 0) s) = Ok (tt, s') /\ granted a0 bs nb s' (chunk2mem (dv (gm s))).
Proof.
  intros H Hnb Hlt. destruct (dv_loose s a0 bs 0 0 H ltac:(lia)) as (l & r & Ebs & -> & Hc & Hf & Hr). set (z := dvsize (gm s)) in *. rewrite Ebs in Hc |- *.
  apply take_granted; [|lia]. split; try done. left. by rewrite Hr.
Qed.

Lemma split_dv s a0 bs nb : inv s a0 bs -> nb mod 16 = 0 -> MIN_CHUNK_SIZE <= nb -> MIN_CHUNK_SIZE <= dvsize (gm s) - nb ->
  let rs := dvsize (gm s) - nb in let p := dv (gm s) in
  granted a0 bs nb (mkDl (set_dv (p + nb) rs (gm s)) (split_heap p nb rs (mem s))) (chunk2mem p).
Proof.
  intros H Hm Hnb Hrs rs p. rewrite min_chunk_size in *. destruct (dv_loose s a0 bs (p + nb) rs H ltac:(lia)) as (l & r & Ebs & Ep & Hc & Hf & Hr).
  fold p in Ep. set (z := dvsize (gm s)) in *. rewrite Ebs in Hc |- *. set (s1 := set_gm (set_dv (p + nb) rs) s) in *. set (s2 := mkDl _ _).
  assert (Hc2 : core s2 a0 (l ++ [(nb, InUse); (rs, Dv)] ++ r)).
  { apply (split_heap_core gm_addr s1 s2 a0 l z Dv r nb Dv); rewrite ?min_chunk_size; try done; try lia. simpl. by rewrite Ep. }
  assert (Et : total [(nb, InUse); (rs, Dv)] = total [(z, Dv)]) by (unfold rs; simpl; lia).
  replace z with (total [(z, Dv)]) in Hf, Hr by (simpl; lia).
  apply (reblock gm_addr s1 s2 a0 l [(z, Dv)] _ r Hc Hc2 Et) in Hf; [|by apply (split_heap_links s1 (fun g => g))].
  exists (l ++ [(nb, InUse); (rs, Dv)] ++ r), p, nb. split; [|split; [rewrite !total_app, Et; simpl; lia|split; [done|split; [rewrite min_chunk_size; lia|]]]].
  - apply inv_intro; [done| |]; rewrite Et; [done|]. rewrite Hr. right. simpl. split; [unfold rs; lia|]. by rewrite Ep.
  - rewrite (of_kind_mid InUse a0 l [(z, Dv)] r), of_kind_mid, Et, Ep. simpl. done.
Qed.

Lemma top_block s a0 bs : inv s a0 bs -> exists l, bs = l ++ [(topsize (gm s), Top)] /\ top (gm s) = a0 + total l.
Proof. intros H. destruct (hc_top _ _ _ _ (hi_core _ _ _ _ H)) as (l & ? & ? & _). by exists l. Qed.

Lemma split_top s a0 bs nb : inv s a0 bs -> nb mod 16 = 0 -> MIN_CHUNK_SIZE <= nb < topsize (gm s) ->
  let rs := topsize (gm s) - nb in let p := top (gm s) in
  granted a0 bs nb (mkDl (set_top (p + nb) rs (gm s)) (upd p (set_head (nb .| PINUSE_BIT .| CINUSE_BIT)) (upd (p + nb) (set_head (rs .| PINUSE_BIT)) (mem s))))
    (chunk2mem p).
Proof.
  intros H Hm Hnb rs p. rewrite min_chunk_size in *. destruct (top_block s a0 bs H) as (l & -> & Ep). fold p in Ep.
  pose proof (hi_core _ _ _ _ H) as Hc0. destruct (core_block _ _ _ _ _ _ _ Hc0) as [_ (Hzm & _) _ _ _ _ Hrg _ _ _ _ _]. simpl in Hzm.
  set (z := topsize (gm s)) in *. set (s2 := mkDl _ _).
  assert (Hc2 : core s2 a0 (l ++ [(nb, InUse); (rs, Top)] ++ [])).
  { apply (split_top_core _ s s2 a0 l z nb Hc0); rewrite <-?Ep, ?min_chunk_size; try done; simpl.
    - rewrite get_upd_eq. cbn. by apply head_used.
    - rewrite get_upd_ne, get_upd_eq by lia. cbn. apply head_free. unfold rs. zlia.
    - intros y H1 H2. by rewrite !get_upd_ne by done.
    - intros y. by rewrite !(get_upd_field prev_foot) by done. }
  apply (inv_elim _ s a0 l [(z, Top)] []) in H as (Hc & Hf & Hd). cbn [of_kind app fst snd] in Hf, Hd.
  assert (Et : total [(nb, InUse); (rs, Top)] = total [(z, Top)]) by (unfold rs; simpl; lia).
  apply (reblock gm_addr s s2 a0 l [(z, Top)] _ [] Hc Hc2 Et) in Hf; [|split; try done; intros y; simpl; by rewrite !(get_upd_field links) by done].
  exists (l ++ [(nb, InUse); (rs, Top)] ++ []), p, nb. split; [|split; [rewrite !total_app, Et; simpl; lia|split; [done|split; [rewrite min_chunk_size; lia|]]]].
  - apply inv_intro; [done| |]; rewrite Et; simpl; done.
  - rewrite (of_kind_mid InUse a0 l [(z, Top)] []), of_kind_mid, Et, Ep. simpl. done.
Qed.

(** Requests the last two places are asked for: a chunk size, or more than the heap can hold. *)
Definition request (nb : Z) : Prop := MIN_CHUNK_SIZE <= nb < 2 ^ 64 /\ (nb mod 16 = 0 \/ MAX_TREE_SIZE <= nb).

Lemma use_dv_or_top_ok s a0 bs nb : inv s a0 bs -> request nb -> exists res s', use_dv_or_top nb s = Ok (res, s') /\
  match res with inl m => granted a0 bs nb s' m | inr n => n = nb /\ s' = s /\ dvsize (gm s) < nb /\ topsize (gm s) <= nb end.
Proof.
  intros H [Hnb Hm]. pose proof (dv_small s a0 bs H) as Hdv. destruct (top_block s a0 bs H) as (lt & Ebt & Etop).
  assert (Htop : 0 < topsize (gm s) < MAX_TREE_SIZE /\ 0 < top (gm s) /\ top (gm s) + topsize (gm s) < 2 ^ 63).
  { rewrite Ebt in H. destruct (core_block _ _ _ _ _ _ _ (hi_core _ _ _ _ H)) as [_ (_ & ? & _) _ _ _ _ Hrg _ _ _ _ _]. simpl in *. lia. }
  clear Ebt Etop lt. rewrite min_chunk_size in Hnb. change MAX_TREE_SIZE with (2 ^ 40) in *. unfold use_dv_or_top. rewrite !gets_bind. cbv zeta.
  destruct (decide (nb <= dvsize (gm s))) as [Hd|Hd].
  - assert (Hdr : 0 < dv (gm s) /\ dv (gm s) + dvsize (gm s) < 2 ^ 63).
    { destruct (dv_block s a0 bs H ltac:(lia)) as (l & r & Ebs & -> & _). set (z := dvsize (gm s)) in *. rewrite Ebs in H.
      destruct (core_block _ _ _ _ _ _ _ (hi_core _ _ _ _ H)) as [_ _ _ _ _ _ Hrg _ _ _ _ _]. lia. }
    rewrite gets_bind. unfold chunk_plus_offset. rewrite !wrap_small by (unfold fits; lia). destruct (decide (MIN_CHUNK_SIZE <= _)) as [Hs|Hs].
    + rewrite bind_assoc, modify_bind, bind_assoc. unfold set_size_and_pinuse_of_free_chunk, set_size_and_pinuse_of_inuse_chunk, set_foot, chunk_plus_offset.
      rewrite min_chunk_size in Hs. rewrite wrap_small by (unfold fits; lia). rewrite bind_assoc, !wr_bind by lia. eexists _, _. split; [done|].
      pose proof (split_dv s a0 bs nb H ltac:(lia) ltac:(rewrite min_chunk_size; lia) ltac:(rewrite min_chunk_size; lia)) as Hg. cbv zeta in Hg.
      rewrite <-split_heap_eq in Hg by lia. exact Hg.
    + rewrite bind_assoc, modify_bind. destruct (exhaust_dv s a0 bs nb H ltac:(lia) ltac:(lia)) as (s' & Hrun & Hg).
      rewrite (bind_ok _ _ _ _ _ Hrun). eexists _, _. split; [done|]. done.
  - destruct (decide (nb < topsize (gm s))) as [Ht|Ht]; [|eexists _, _; split; [done|]; split; [done|]; split; [done|lia]].
    rewrite gets_bind. unfold chunk_plus_offset, set_size_and_pinuse_of_inuse_chunk. rewrite !wrap_small by (unfold fits; lia).
    rewrite modify_bind, !wr_bind by (simpl; lia). eexists _, _. split; [done|].
    apply (split_top s a0 bs nb H); [lia|rewrite min_chunk_size; lia].
Qed.
End serve.
