(* ===== verification/DlRequest.v ===== *)
(** [dlmalloc] of the C library's allocator meets its contract, one kind of request at a time and as a
    whole: [answer] says what a caller gets, or why [sys_alloc] is called. *)
From S2P Require Import Prelude DlBins DlHeap DlTree DlLarge DlFit DlSmall DlFree DlMalloc DlLayout DlCore DlAlloc DlServe.

(** ** The bits of the small bins *)

Lemma low_bits x : x .& 3 <> 0 <-> Z.testbit x 0 = true \/ Z.testbit x 1 = true.
Proof.
  change 3 with (Z.ones 2). rewrite land_low, !Z.testbit_eqb, !Z.eqb_eq by lia. change (2 ^ 0) with 1. change (2 ^ 1) with 2. rewrite Z.div_1_r. zlia.
Qed.

Lemma shifted_bit m idx j : 0 <= idx -> 0 <= j -> Z.testbit (m ≫ idx) j = is_marked m (idx + j).
Proof. intros H1 H2. rewrite Z.shiftr_spec by lia. by rewrite (Z.add_comm j). Qed.

(** The bin taken for a request that fits without a remainder. *)
Lemma exact_bin m idx : fits 32 m -> 0 <= idx < 32 -> (m ≫ idx) .& 3 <> 0 ->
  let i := u32 (idx + (bnot 32 (m ≫ idx) .& 1)) in idx <= i <= idx + 1 /\ i < 32 /\ is_marked m i = true.
Proof.
  intros Hm Hi Hlow%low_bits. cbv zeta. rewrite !shifted_bit, Z.add_0_r in Hlow by lia.
  assert (Ev : bnot 32 (m ≫ idx) .& 1 = if is_marked m idx then 0 else 1).
  { change 1 with (2 ^ 0) at 1. rewrite land_bit, bnot_testbit, shifted_bit, Z.add_0_r by lia. by destruct (is_marked m idx). }
  rewrite Ev. destruct (is_marked m idx) eqn:E0; rewrite wrap_small by (unfold fits; lia).
  - rewrite Z.add_0_r. split; [lia|]. split; [lia|done].
  - destruct Hlow as [|E1]; [done|]. split; [lia|]. split; [|done].
    destruct (decide (idx + 1 < 32)); [lia|]. unfold is_marked in E1. by rewrite (testbit_small m 32) in E1 by (done || lia).
Qed.

(** The next bin in use. *)
Lemma next_small m idx : fits 32 m -> 0 <= idx < 32 -> m ≫ idx <> 0 -> ~ (m ≫ idx) .& 3 <> 0 ->
  let i := compute_bit2idx (least_bit (u32 ((m ≫ idx) ≪ idx) .& left_bits (idx2bit idx))) in idx < i < 32 /\ is_marked m i = true.
Proof.
  intros Hm Hi Hnz Hlow. cbv zeta. set (lb := u32 _ .& _).
  assert (Hbit : forall j, 0 <= j < 32 -> Z.testbit lb j = bool_decide (idx < j) && is_marked m j).
  { intros j Hj. unfold lb. rewrite Z.land_spec, left_bits_spec, wrap_testbit, Z.shiftl_spec by lia.
    destruct (decide (idx < j)).
    - rewrite !bool_decide_eq_true_2 by lia. rewrite andb_true_r, shifted_bit by lia. simpl. by replace (idx + (j - idx)) with j by lia.
    - rewrite !bool_decide_eq_false_2 by lia. by rewrite andb_false_r. }
  assert (Hfit : fits 32 lb) by (apply land_fits_l; auto with vy).
  destruct (least_index lb Hfit) as [_ Hleast].
  assert (Hlb : lb <> 0).
  { intros E. apply Hnz. apply Z.bits_inj_0. intros j. destruct (Z.lt_ge_cases j 0) as [|Hj]; [by apply Z.testbit_neg_r|].
    destruct (decide (j = 0)) as [->|]; [apply not_true_is_false; intros Hb; apply Hlow, low_bits; by left|].
    rewrite shifted_bit by lia. destruct (decide (idx + j < 32)); [|unfold is_marked; by rewrite (testbit_small m 32) by (done || lia)].
    specialize (Hbit (idx + j) ltac:(lia)). rewrite E, Z.bits_0, bool_decide_eq_true_2 in Hbit by lia. done. }
  specialize (Hleast Hlb). cbv zeta in Hleast. destruct Hleast as (Hr & Hb & _). rewrite Hbit in Hb by lia.
  apply andb_true_iff in Hb as [Hb1%bool_decide_eq_true Hb2]. split; [lia|done].
Qed.

Lemma small_index2size_eq i : 0 <= i < 32 -> small_index2size i = 8 * i.
Proof. intros Hi. unfold small_index2size, SMALLBIN_SHIFT. rewrite Z.shiftl_mul_pow2 by lia. rewrite wrap_small by (unfold fits; lia). lia. Qed.
Lemma smallbin_nonzero gm_addr i : 0 < gm_addr -> 0 <= i -> smallbin_at gm_addr i <> 0.
Proof. intros Hg Hi. unfold smallbin_at. rewrite Z.shiftl_mul_pow2 by lia. lia. Qed.

(** No bin from [idx] on is in use. *)
Lemma no_small m idx j : 0 <= idx -> m ≫ idx = 0 -> 0 <= j -> is_marked m j = true -> j < idx.
Proof.
  intros Hi E Hj Hm. destruct (Z.lt_ge_cases j idx) as [|Hge]; [done|]. replace j with (idx + (j - idx)) in Hm by lia.
  rewrite <-shifted_bit, E, Z.bits_0 in Hm by lia. done.
Qed.

Section request.
Context (gm_addr : Z) (Hgm : 0 < gm_addr).
Abbreviation core := (heap_core gm_addr).
Abbreviation inv := (heap_inv gm_addr).
Abbreviation granted := (granted gm_addr).

(** The first chunk of a small bin leaves it. *)
Lemma unlink_first_block func i s a0 bs : inv s a0 bs -> 0 <= i < 32 -> is_marked (smallmap (gm s)) i = true ->
  let P := fd (get (mem s) (smallbin_at gm_addr i)) in
  exists l r s', bs = l ++ (8 * i, Binned) :: r /\ P = a0 + total l /\ unlink_first_small_chunk func (smallbin_at gm_addr i) P i s = Ok (tt, s') /\
    loose gm_addr s' a0 l (8 * i) Binned r /\ dvsize (gm s') = dvsize (gm s) /\ 0 < P /\ P + 8 * i < 2 ^ 63.
Proof.
  intros H Hi Hm P. destruct (unlink_first_free gm_addr func Hgm i s _ (hi_free _ _ _ _ H) Hi Hm) as (fs' & s' & Hp & Hrun & Hf & Hb). fold P in Hp, Hrun, Hb.
  assert (Hin : (P, 8 * i) ∈ of_kind Binned a0 bs) by (rewrite Hp; left).
  destruct (block_of_kind gm_addr s a0 bs Binned P (8 * i) H Hin) as (l & r & -> & EP & HP & _ & _ & Hr & _). exists l, r, s'.
  split; [done|]. split; [done|]. split; [done|]. split; [|split; [by rewrite (bf_gm _ _ _ _ Hb)|done]].
  apply (binned_loose gm_addr s); [done|eapply bins_core; [done|apply H]| |apply Hb].
  rewrite (of_kind_mid Binned a0 l [(8 * i, Binned)] r) in Hp. simpl in Hp. rewrite Z.add_0_r, EP in Hp. apply Permutation_cons_inv in Hp.
  by eapply free_inv_perm.
Qed.

(** No free block holds a request of [nb]; the top must keep a byte. *)
Definition too_large (a0 : Z) (bs : blocks) (nb : Z) : Prop := forall k x sz, k <> InUse -> (x, sz) ∈ of_kind k a0 bs -> sz < nb \/ k = Top /\ sz <= nb.

Definition answer (a0 : Z) (bs : blocks) (nb : Z) (s : dl_st) (res : Z + Z) (s' : dl_st) : Prop := match res with
  | inl m => granted a0 bs nb s' m
  | inr n => n = nb /\ s' = s /\ too_large a0 bs nb
  end.

Lemma last_places s a0 bs nb : inv s a0 bs -> request nb ->
  (dvsize (gm s) < nb -> forall x sz, (x, sz) ∈ of_kind Binned a0 bs -> sz < nb) ->
  exists res s', use_dv_or_top nb s = Ok (res, s') /\ answer a0 bs nb s res s'.
Proof.
  intros H Hnb Hbig. destruct (use_dv_or_top_ok gm_addr s a0 bs nb H Hnb) as (res & s' & Hrun & Hres). exists res, s'. split; [done|].
  destruct res as [m|n]; [done|]. destruct Hres as (-> & -> & Hd & Ht). split; [done|]. split; [done|].
  intros k x sz Hk Hin. destruct k; [done|left; by eapply Hbig|left|right].
  - destruct (hi_dv _ _ _ _ H) as [(_ & _ & E)|[_ E]]; rewrite E in Hin; [by apply elem_of_nil in Hin|]. by apply list_elem_of_singleton in Hin as [= _ ->].
  - split; [done|]. destruct (hc_top _ _ _ _ (hi_core _ _ _ _ H)) as (l & Ebs & _ & Hn). rewrite Ebs, of_kind_app, Hn in Hin. simpl in Hin.
    by apply list_elem_of_singleton in Hin as [= _ ->].
Qed.

Lemma malloc_small_ok s a0 bs nb : inv s a0 bs -> MIN_CHUNK_SIZE <= nb < MIN_LARGE_SIZE -> nb mod 16 = 0 ->
  exists res s', malloc_small gm_addr nb s = Ok (res, s') /\ answer a0 bs nb s res s'.
Proof.
  intros H Hnb Hm. assert (Hreq : request nb) by (split; [change MIN_LARGE_SIZE with 256 in Hnb; lia|by left]).
  assert (Hidx : small_index nb = nb / 8 /\ 4 <= nb / 8 < 32 /\ nb = 8 * (nb / 8)) by (apply small_index_eq; split; [done|zlia]).
  destruct Hidx as (Ei & Hi & Enb). unfold malloc_small. rewrite Ei. set (idx := nb / 8) in *. cbv zeta. rewrite !gets_bind.
  pose proof (free_smallmap _ _ _ (hi_free _ _ _ _ H)) as Hsm. rewrite min_chunk_size in Hnb. change MIN_LARGE_SIZE with 256 in Hnb.
  destruct (decide (smallmap (gm s) ≫ idx .& 3 <> 0)) as [Hex|Hex].
  { destruct (exact_bin _ idx Hsm ltac:(lia) Hex) as (Hr & Hr' & Hmark). cbv zeta in Hr, Hr', Hmark. set (i := u32 _) in *.
    destruct (unlink_first_block "dlmalloc" i s a0 bs H ltac:(lia) Hmark) as (l & r & s1 & -> & EP & Hrun & Hl & _ & HP & _). cbv zeta in EP, Hrun.
    rewrite rd_bind by (apply smallbin_nonzero; lia). rewrite EP in Hrun |- *. rewrite (bind_ok _ _ _ _ _ Hrun).
    rewrite small_index2size_eq by lia.
    destruct (take_granted gm_addr s1 a0 l (8 * i) Binned r nb Hl) as (s2 & Hrun2 & Hg); [rewrite min_chunk_size; lia|].
    rewrite (bind_ok _ _ _ _ _ Hrun2). by eexists _, _. }
  destruct (decide (dvsize (gm s) < nb)) as [Hd|Hd]; [|apply last_places; [done|done|intros; lia]].
  destruct (decide (smallmap (gm s) ≫ idx <> 0)) as [Hnx|Hnx].
  { destruct (next_small _ idx Hsm ltac:(lia) Hnx Hex) as (Hr & Hmark). cbv zeta in Hr, Hmark. set (i := compute_bit2idx _) in *.
    destruct (unlink_first_block "dlmalloc" i s a0 bs H ltac:(lia) Hmark) as (l & r & s1 & -> & EP & Hrun & Hl & Hdv & HP & HP2). cbv zeta in EP, Hrun.
    rewrite rd_bind by (apply smallbin_nonzero; lia). rewrite EP in Hrun, HP, HP2 |- *. rewrite (bind_ok _ _ _ _ _ Hrun).
    rewrite small_index2size_eq by lia.
    unfold chunk_plus_offset. rewrite !wrap_small by (unfold fits; lia).
    destruct (serve_granted gm_addr _ (replace_dv gm_addr "dlmalloc") s1 a0 l (8 * i) Binned r nb (8 * i - nb) (dv_keeps gm_addr Hgm _) Hl) as (s2 & Hrun2 & Hg); try lia;
      [rewrite Hdv; change MIN_LARGE_SIZE with 256; lia|rewrite min_chunk_size; lia|].
    rewrite (bind_ok _ _ _ _ _ Hrun2). by eexists _, _. }
  assert (Hsmall : treemap (gm s) = 0 -> forall x sz, (x, sz) ∈ of_kind Binned a0 bs -> sz < nb).
  { intros Etm x sz Hin. destruct (free_marks _ _ _ _ _ (hi_free _ _ _ _ H) Hin) as [[_ Hmk]|?]; [|done].
    destruct (block_of_kind gm_addr _ _ _ _ _ _ H Hin) as (l & r & _ & _ & _ & _ & Hp & _ & Hm16).
    assert (sz / 8 < idx) by (apply (no_small (smallmap (gm s))); [lia|lia|zlia|done]). zlia. }
  rewrite gets_bind. destruct (decide (treemap (gm s) <> 0)) as [Ht|Ht]; [|apply last_places; [done|done|intros _; apply Hsmall; lia]].
  destruct (fit_small_free gm_addr s _ nb (hi_free _ _ _ _ H) Ht) as (v & rs & Hrun & Hv & Hrs & Hin & Hlg); [change MIN_LARGE_SIZE with 256; lia|].
  destruct (split_chunk_granted gm_addr Hgm _ (replace_dv gm_addr "tmalloc_small") "tmalloc_small" s a0 bs v nb rs (dv_keeps gm_addr Hgm _) H) as (s2 & Hrun2 & Hg); try done.
  { change MIN_LARGE_SIZE with 256. lia. }
  { rewrite min_chunk_size. lia. }
  unfold tmalloc_small. rewrite bind_assoc, (bind_ok _ _ _ _ _ Hrun). rewrite (bind_ok _ _ _ _ _ Hrun2).
  destruct (block_of_kind gm_addr _ _ _ _ _ _ H Hin) as (l & r & _ & _ & Hv0 & _ & Hp & Hv63 & _).
  rewrite decide_True by (unfold chunk2mem; rewrite wrap_small by (unfold fits; lia); lia). by eexists _, _.
Qed.

Lemma malloc_large_ok s a0 bs nb : inv s a0 bs -> large nb -> nb mod 16 = 0 ->
  exists res s', (tm ← gets (fun s => treemap (gm s));
    if decide (tm <> 0) then
      mem ← tmalloc_large gm_addr nb;
      if decide (mem <> 0) then mret (inl mem) else use_dv_or_top nb
    else use_dv_or_top nb) s = Ok (res, s') /\ answer a0 bs nb s res s'.
Proof.
  intros H Hlg Hm. pose proof Hlg as Hlr. unfold large in Hlr. change MIN_LARGE_SIZE with 256 in Hlr. change MAX_TREE_SIZE with (2 ^ 40) in Hlr.
  assert (Hreq : request nb) by (split; [rewrite min_chunk_size; lia|by left]). pose proof (dv_small gm_addr s a0 bs H) as Hdv.
  change MAX_TREE_SIZE with (2 ^ 40) in Hdv. rewrite gets_bind. destruct (decide (treemap (gm s) <> 0)) as [Ht|Ht].
  2: { apply last_places; [done|done|]. intros _ x sz Hin. destruct (free_marks _ _ _ _ _ (hi_free _ _ _ _ H) Hin) as [[? _]|?]; [|done].
       change MIN_LARGE_SIZE with 256 in *. lia. }
  unfold tmalloc_large. destruct (fit_large_free gm_addr s _ nb (hi_free _ _ _ _ H) Hlg) as (v & rs & Hrun & Hfit).
  rewrite bind_assoc, (bind_ok _ _ _ _ _ Hrun), bind_assoc, gets_bind. destruct Hfit as [[-> Hnone]|(Hv & Hrs & Hin & Hlgv)].
  { rewrite decide_False by tauto. rewrite ret_bind, decide_False by tauto. apply last_places; [done|done|]. intros _. exact Hnone. }
  assert (Hrng : nb + rs < 2 ^ 40) by (by destruct Hlgv).
  destruct (decide (v <> 0 /\ rs < u64 (dvsize (gm s) - nb))) as [Hb|Hb].
  - destruct (split_chunk_granted gm_addr Hgm _ (insert_chunk gm_addr "tmalloc_large") "tmalloc_large" s a0 bs v nb rs (insert_keeps gm_addr Hgm _) H) as (s2 & Hrun2 & Hg); try done.
    { rewrite min_chunk_size. lia. }
    rewrite (bind_ok _ _ _ _ _ Hrun2). destruct (block_of_kind gm_addr _ _ _ _ _ _ H Hin) as (l & r & _ & _ & Hv0 & _ & Hp & Hv63 & _).
    rewrite decide_True by (unfold chunk2mem; rewrite wrap_small by (unfold fits; lia); lia). by eexists _, _.
  - rewrite ret_bind, decide_False by tauto. apply last_places; [done|done|]. intros Hlt. exfalso. apply Hb. split; [done|]. unfold wrap. zlia.
Qed.

(** What [dlmalloc] takes from the heap for a request. *)
Definition chunk_size (bytes : Z) : Z := if decide (bytes < MAX_REQUEST) then request2size bytes else MAX_SIZE_T.

Lemma malloc_fast_ok s a0 bs bytes : inv s a0 bs -> 0 <= bytes < 2 ^ 64 -> (bytes < MAX_TREE_SIZE - 32 \/ MAX_REQUEST <= bytes) ->
  exists res s', malloc_fast gm_addr bytes s = Ok (res, s') /\ answer a0 bs (chunk_size bytes) s res s'.
Proof.
  intros H Hb Hrange. unfold chunk_size, malloc_fast. change MAX_REQUEST with (2 ^ 64 - 128) in *. change MAX_TREE_SIZE with (2 ^ 40) in *.
  change MAX_SMALL_REQUEST with 232. destruct (decide (bytes <= 232)) as [Hs|Hs].
  { rewrite (decide_True (P := bytes < 2 ^ 64 - 128)) by lia. change (if decide (bytes < MIN_REQUEST) then _ else _) with (request2size bytes).
    destruct (request2size_least bytes) as (Hm & Hmin & _); [change MAX_REQUEST with (2 ^ 64 - 128); lia|].
    apply malloc_small_ok; [done| |done]. split; [done|]. apply small_request; [change MAX_REQUEST with (2 ^ 64 - 128); lia|done]. }
  destruct (decide (2 ^ 64 - 128 <= bytes)) as [Hl|Hl].
  { rewrite decide_False by lia. apply last_places; [done| |].
    - split; [|right]; [rewrite min_chunk_size|change MAX_TREE_SIZE with (2 ^ 40)]; unfold MAX_SIZE_T; lia.
    - intros _ x sz Hin. apply (block_of_kind gm_addr) with (s := s) in Hin as (l & r & _ & _ & _ & _ & Hp & _); [|done].
      change MAX_TREE_SIZE with (2 ^ 40) in Hp. unfold MAX_SIZE_T. lia. }
  rewrite decide_True by lia. unfold request2size. rewrite decide_False by (change MIN_REQUEST with 23; lia).
  assert (Hnb : pad_request bytes = (bytes + 23) / 16 * 16) by (apply pad_request_spec; change MAX_REQUEST with (2 ^ 64 - 128); lia).
  apply malloc_large_ok; [done| |rewrite Hnb; zlia]. unfold large. rewrite Hnb. change MIN_LARGE_SIZE with 256. change MAX_TREE_SIZE with (2 ^ 40). zlia.
Qed.
End request.
