(* ===== verification/DlRelease.v ===== *)
(** [dlfree] of the C library's allocator keeps the heap invariant: [free_fast] takes one block out of use
    and merges it with the free blocks on its two sides. *)
From S2P Require Import Prelude DlBins DlHeap DlTree DlLarge DlSmall DlFree DlMalloc DlLayout DlCore DlAlloc.

(** An address of the row is that of one block. *)
Lemma of_kind_inj K K' a bs x sz sz' : Forall block_ok bs -> (x, sz) ∈ of_kind K a bs -> (x, sz') ∈ of_kind K' a bs -> K = K' /\ sz = sz'.
Proof.
  intros Hok. revert a. induction Hok as [|b bs Hb Hok IH]; intros a; simpl; [by intros ?%elem_of_nil|].
  assert (Hlt : forall K z, (x, z) ∈ of_kind K (a + b.1) bs -> a < x).
  { intros K0 z Hz. apply (of_kind_range _ _ _ _ _ Hok) in Hz as (? & _). destruct Hb as (_ & ? & _). lia. }
  assert (Hat : forall K z, (x, z) ∈ (if decide (b.2 = K) then [(a, b.1)] else []) -> x = a /\ z = b.1 /\ b.2 = K).
  { intros K0 z Hz. case_decide; [by apply list_elem_of_singleton in Hz as [= -> ->]|by apply elem_of_nil in Hz]. }
  intros [H1|H1]%elem_of_app [H2|H2]%elem_of_app.
  - apply Hat in H1 as (-> & -> & <-). by apply Hat in H2 as (_ & -> & <-).
  - apply Hat in H1 as (-> & _). apply Hlt in H2. lia.
  - apply Hat in H2 as (-> & _). apply Hlt in H1. lia.
  - by apply (IH (a + b.1)).
Qed.

Section release.
Context (gm_addr : Z) (Hgm : 0 < gm_addr).
Abbreviation core := (heap_core gm_addr).
Abbreviation inv := (heap_inv gm_addr).

(** The block between [l] and [r] is out of use: it may be part of a larger free block. *)
Definition freed (a0 : Z) (l : blocks) (sz : Z) (r : blocks) (s' : dl_st) : Prop := exists bs',
  inv s' a0 bs' /\ total bs' = total l + sz + total r /\ of_kind InUse a0 bs' ≡ₚ rest InUse a0 l sz r.

Definition fast (a : after_free) : Prop := match a with Unmap _ _ => False | _ => True end.

Lemma freed_intro s' a0 l sz k r sz' r' : inv s' a0 (l ++ [(sz', k)] ++ r') -> k <> InUse ->
  sz' + total r' = sz + total r -> of_kind InUse (a0 + total l + sz') r' = of_kind InUse (a0 + total l + sz) r -> freed a0 l sz r s'.
Proof.
  intros H Hk Et Eu. exists (l ++ [(sz', k)] ++ r'). split; [done|]. split; [rewrite !total_app; simpl; lia|].
  rewrite of_kind_mid. simpl. rewrite decide_False by done. unfold rest. by rewrite Z.add_0_r, Eu.
Qed.

(** The merged block enters a bin. *)
Lemma free_bin_ok s a0 l sz r : core s a0 (l ++ [(sz, Binned)] ++ r) -> free_inv gm_addr s (rest Binned a0 l sz r) -> dv_ok (gm s) (rest Dv a0 l sz r) ->
  exists ans s', free_bin gm_addr (a0 + total l) sz s = Ok (ans, s') /\ fast ans /\ inv s' a0 (l ++ [(sz, Binned)] ++ r).
Proof.
  intros Hc Hf Hd. destruct (insert_block gm_addr Hgm "dlfree" s a0 _ (a0 + total l) sz (rest Binned a0 l sz r) Hc) as (s1 & Hrun & Hc1 & Hf1 & Hg); [|done|].
  { rewrite of_kind_mid. simpl. by rewrite Z.add_0_r. }
  assert (Hi : inv s1 a0 (l ++ [(sz, Binned)] ++ r)).
  { apply inv_intro; [done| |]; simpl; rewrite Z.add_0_r; [done|by rewrite Hg]. }
  unfold insert_chunk in Hrun. unfold free_bin. destruct (is_small sz); rewrite (bind_ok _ _ _ _ _ Hrun); [by eexists _, _|].
  rewrite modify_bind, gets_bind. eexists _, _. split; [done|]. split; [by case_decide|]. destruct Hi as [H1 H2 H3].
  split; [by apply (core_frame _ s1)|by eapply free_heads; [|split|]|done].
Qed.

(** ** Tags of a merged block *)

(** The stores of [set_free_with_pinuse] and [set_size_and_pinuse_of_free_chunk]. *)
Definition merge_heap (x sz : Z) (h : heap) : heap := upd (x + sz) (set_prev_foot sz) (upd x (set_head (sz .| PINUSE_BIT)) h).

Lemma merge_heap_core s s' h a0 l mid sz sz1 r1 k' : core s a0 (l ++ mid ++ (sz1, InUse) :: r1) -> total mid = sz -> sz mod 16 = 0 -> MIN_CHUNK_SIZE <= sz ->
  after_all None l = None -> k' <> InUse -> k' <> Top -> same_row (gm s) (gm s') ->
  (forall y, y <> a0 + total l + sz -> get h y = get (mem s) y) -> head (get h (a0 + total l + sz)) = mkhead sz1 false true ->
  mem s' = merge_heap (a0 + total l) sz h -> core s' a0 (l ++ [(sz, k')] ++ (sz1, InUse) :: r1).
Proof.
  intros Hc Et Hm Hmin Hpf Hk Hkt Hg Hsame Hn Em. rewrite min_chunk_size in Hmin.
  apply (merge_core _ s s' a0 l mid sz k' sz1 r1 Hc); rewrite ?min_chunk_size, ?Em; try done; unfold merge_heap.
  - rewrite get_upd_ne, get_upd_eq by lia. cbn. by apply head_free.
  - rewrite (get_upd_field head), get_upd_ne by (done || lia). done.
  - by rewrite get_upd_eq.
  - intros y Hy. rewrite !get_upd_ne by lia. by rewrite Hsame by lia.
Qed.

Lemma merge_heap_links s s' h x sz : (forall y, links (get h y) = links (get (mem s) y)) -> mem s' = merge_heap x sz h ->
  smallmap (gm s') = smallmap (gm s) -> treemap (gm s') = treemap (gm s) -> treebins (gm s') = treebins (gm s) -> least_addr (gm s') = least_addr (gm s) ->
  same_bins s s'.
Proof. intros Hl Em H1 H2 H3 H4. split; try done. intros y. rewrite Em. unfold merge_heap. by rewrite !(get_upd_field links) by done. Qed.

(** [free_inv] of the chunks outside a part of the row, when its tags change. *)
Lemma merge_free s s' a0 l mid sz k' r : core s a0 (l ++ mid ++ r) -> core s' a0 (l ++ [(sz, k')] ++ r) -> total mid = sz -> same_bins s s' ->
  free_inv gm_addr s (rest Binned a0 l sz r) -> free_inv gm_addr s' (rest Binned a0 l sz r).
Proof.
  intros H H' Et Hb Hf. rewrite <-Et in Hf |- *. apply (reblock gm_addr s s' a0 l mid [(sz, k')] r); try done. simpl. lia.
Qed.

Lemma run_set_free s x sz : 0 < x -> 0 <= sz -> x + sz < 2 ^ 63 ->
  set_size_and_pinuse_of_free_chunk x sz s = Ok (tt, set_mem (merge_heap x sz (mem s)) s).
Proof.
  intros Hx Hs Hr. unfold set_size_and_pinuse_of_free_chunk, set_foot, chunk_plus_offset. rewrite (wrap_small 64 (x + sz)) by (unfold fits; lia).
  by rewrite wr_bind, wr_ok by lia.
Qed.

(** Blocks [mid] that are to be one free block: they are in no bin and end with the one that is freed. *)
Record merging (s : dl_st) (a0 : Z) (l mid : blocks) (sz : Z) (r : blocks) : Prop := {
  fr_core : core s a0 (l ++ mid ++ r);
  fr_total : total mid = sz;
  fr_last : exists m0 z, mid = m0 ++ [(z, InUse)];
  fr_first : after_all None l = None;
  fr_free : free_inv gm_addr s (rest Binned a0 l sz r) }.

(** Where consolidation with the next block starts. The chunk kept aside may be the first of [mid]; then
    the next block is free. *)
Record freeing (s : dl_st) (a0 : Z) (l mid : blocks) (sz : Z) (r : blocks) : Prop := {
  fr_merging :> merging s a0 l mid sz r;
  fr_dv : dv (gm s) <> a0 + total l /\ dv_ok (gm s) (rest Dv a0 l sz r) \/
    dv (gm s) = a0 + total l /\ rest Dv a0 l sz r = [] /\ (forall sz1 k r1, r = (sz1, k) :: r1 -> k <> InUse) }.

Lemma freeing_next s a0 l mid sz r : merging s a0 l mid sz r -> let x := a0 + total l in exists sz1 k1 r1, r = (sz1, k1) :: r1 /\
  head (get (mem s) (x + sz)) = mkhead sz1 true (in_use k1) /\ sz1 mod 16 = 0 /\ 0 < sz1 /\ 0 < x /\ least_addr (gm s) <= x /\
  sz mod 16 = 0 /\ MIN_CHUNK_SIZE <= sz /\ x + sz + sz1 < 2 ^ 63 /\ sz + sz1 < MAX_TREE_SIZE /\
  block_at s a0 (l ++ mid) sz1 k1 r1 (x + sz).
Proof.
  intros [Hc Et (m0 & z & Em) Hpf _] x. pose proof (core_ok _ _ _ _ Hc) as Hok. rewrite !Forall_app in Hok. destruct Hok as (Hokl & Hokm & Hokr).
  pose proof (total_mod16 _ Hokm) as Hm16. pose proof (row_nonneg _ Hokl). pose proof (row_nonneg _ Hokr).
  assert (Hmin : MIN_CHUNK_SIZE <= sz).
  { rewrite Em in Hokm, Et. rewrite total_app in Et. apply Forall_app in Hokm as [Hm0 Hmz]. apply Forall_cons in Hmz as [(_ & _ & Hz) _].
    pose proof (row_nonneg _ Hm0). simpl in Et, Hz. specialize (Hz ltac:(done)). lia. }
  assert (Hr : r <> []).
  { rewrite Em, <-!app_assoc in Hc. rewrite app_assoc in Hc. destruct (core_block _ _ _ _ _ _ _ Hc) as [_ _ _ _ _ _ _ _ _ Hmore _ _]. by apply Hmore. }
  destruct r as [|[sz1 k1] r1]; [done|]. exists sz1, k1, r1. split; [done|]. pose proof Hc as Hc'. rewrite app_assoc in Hc'.
  pose proof (core_block _ _ _ _ _ _ _ Hc') as Hblk. rewrite total_app, Et, Z.add_assoc in Hblk. fold x in Hblk.
  pose proof Hblk as [_ (Hm1 & Hp1 & _) _ Hh _ _ Hrg _ _ _ _ _]. simpl in Hm1, Hp1. rewrite after_all_app, Em, after_all_app in Hh. cbn [after_all after in_use fst snd is_none] in Hh.
  destruct Hc as [_ _ (Hb1 & Hb2 & Hb3) (Hs1 & Hs2) _]. rewrite !total_app in Hs1, Hs2. simpl in Hs1, Hs2. apply Forall_cons in Hokr as [_ Hokr]. pose proof (row_nonneg _ Hokr).
  split; [exact Hh|]. split; [done|]. split; [done|]. unfold x. split; [lia|]. split; [lia|]. split; [by rewrite <-Et|]. split; [done|]. split; [lia|]. split; [lia|done].
Qed.

(** The next block is in use: it gets to know that it follows a free one. *)
Lemma run_free_used s s0 a0 l mid sz sz1 r1 : merging s a0 l mid sz ((sz1, InUse) :: r1) -> mem s0 = mem s -> same_row (gm s) (gm s0) -> same_bins s s0 ->
  let x := a0 + total l in exists s', set_free_with_pinuse x sz (x + sz) s0 = Ok (tt, s') /\ gm s' = gm s0 /\
    (forall k, k <> InUse -> k <> Top -> core s' a0 (l ++ [(sz, k)] ++ (sz1, InUse) :: r1)) /\ free_inv gm_addr s' (rest Binned a0 l sz ((sz1, InUse) :: r1)).
Proof.
  intros Hfr Em Hrow Hb x. destruct (freeing_next _ _ _ _ _ _ Hfr) as (? & ? & ? & [= <- <- <-] & Hh & Hm1 & Hp1 & Hx & Hla & Hm & Hmin & Hr & Hr2 & _).
  fold x in Hh, Hx, Hla, Hr. destruct Hfr as [Hc Et _ Hpf Hf]. rewrite min_chunk_size in Hmin. change MAX_TREE_SIZE with (2 ^ 40) in Hr2.
  unfold set_free_with_pinuse, clear_pinuse. rewrite bind_assoc, rd_bind, wr_bind, Em, Hh, head_clear_pinuse by lia.
  set (h := upd (x + sz) _ (mem s)). rewrite (run_set_free (set_mem h s0) x sz Hx) by lia. set (s2 := set_mem _ _).
  assert (Hk : forall k, k <> InUse -> k <> Top -> core s2 a0 (l ++ [(sz, k)] ++ (sz1, InUse) :: r1)).
  { intros k H1 H2. apply (merge_heap_core s s2 h a0 l mid sz sz1 r1 k); rewrite ?min_chunk_size; try done; unfold h.
    - intros y Hy. by rewrite get_upd_ne by (unfold x; lia).
    - fold x. by rewrite get_upd_eq. }
  exists s2. split; [done|]. split; [done|]. split; [done|].
  apply (merge_free s s2 a0 l mid sz Binned _ Hc (Hk Binned ltac:(done) ltac:(done)) Et); [|done]. apply (merge_heap_links s s2 h x sz); try done; try apply Hb.
  intros y. unfold h. by rewrite (get_upd_field links) by done.
Qed.

Lemma forward_used s a0 l mid sz sz1 r1 : freeing s a0 l mid sz ((sz1, InUse) :: r1) -> let x := a0 + total l in
  exists ans s', (_ ← set_free_with_pinuse x sz (x + sz); free_bin gm_addr x sz) s = Ok (ans, s') /\ fast ans /\ freed a0 l sz ((sz1, InUse) :: r1) s'.
Proof.
  intros [Hfr Hd] x. destruct Hd as [[Hne Hd]|(_ & _ & Hd)]; [|by destruct (Hd _ _ _ eq_refl)].
  destruct (run_free_used s s a0 l mid sz sz1 r1 Hfr) as (s2 & Hrun & Hg & Hk & Hf2); try done. rewrite (bind_ok _ _ _ _ _ Hrun).
  destruct (free_bin_ok s2 a0 l sz _ (Hk Binned ltac:(done) ltac:(done)) Hf2) as (ans & s' & Hrun' & Hans & Hi); [by rewrite Hg|].
  exists ans, s'. split; [done|]. split; [done|]. eapply freed_intro; [done|done|done|done].
Qed.

(** The next block is the chunk kept aside. *)
Lemma forward_dv s a0 l mid sz sz1 r1 : freeing s a0 l mid sz ((sz1, Dv) :: r1) -> let x := a0 + total l in
  dv (gm s) = x + sz /\ dvsize (gm s) = sz1 /\ exists s', set_size_and_pinuse_of_free_chunk x (sz + sz1) (set_gm (set_dv x (sz + sz1)) s) = Ok (tt, s') /\
    freed a0 l sz ((sz1, Dv) :: r1) s'.
Proof.
  intros Hfr x. destruct (freeing_next _ _ _ _ _ _ Hfr) as (? & ? & ? & [= <- <- <-] & Hh & Hm1 & Hp1 & Hx & Hla & Hm & Hmin & Hr & Hr2 & Hblk).
  fold x in Hh, Hx, Hla, Hr, Hblk. destruct Hfr as [[Hc Et _ Hpf Hf] Hd]. rewrite min_chunk_size in Hmin. change MAX_TREE_SIZE with (2 ^ 40) in Hr2.
  assert (Er : forall K, rest K a0 l sz ((sz1, Dv) :: r1) ≡ₚ (if decide (Dv = K) then [(x + sz, sz1)] else []) ++ rest K a0 l (sz + sz1) r1).
  { intros K. unfold rest. simpl. fold x. rewrite (Z.add_assoc x sz sz1). solve_Permutation. }
  assert (Hdv : dv (gm s) = x + sz /\ dvsize (gm s) = sz1 /\ rest Dv a0 l (sz + sz1) r1 = []).
  { destruct Hd as [[_ Hd]|(_ & E & _)]; [|specialize (Er Dv); rewrite E in Er; by apply Permutation_nil_l in Er].
    eapply dv_ok_perm in Hd; [|apply Er]. destruct Hd as [(_ & _ & [=])|(_ & [= E1 E2 E3])]. done. }
  destruct Hdv as (E1 & E2 & E3). split; [done|]. split; [done|].
  pose proof Hblk as [_ _ _ _ _ Hright Hrg2 _ _ _ Hnx _]. destruct (Hnx ltac:(done) ltac:(done)) as (sz2 & r2 & ->). simpl in Hrg2.
  destruct Hright as (Hh2 & _). cbn in Hh2. rewrite run_set_free by lia. set (s2 := set_mem _ _). exists s2. split; [done|].
  assert (Hc1 : core s a0 (l ++ (mid ++ [(sz1, Dv)]) ++ (sz2, InUse) :: r2)) by (rewrite <-app_assoc; exact Hc).
  assert (Et1 : total (mid ++ [(sz1, Dv)]) = sz + sz1) by (rewrite total_app; simpl; lia).
  assert (Hc2 : core s2 a0 (l ++ [(sz + sz1, Dv)] ++ (sz2, InUse) :: r2)).
  { apply (merge_heap_core s s2 (mem s) a0 l _ (sz + sz1) sz2 r2 Dv Hc1 Et1); rewrite ?min_chunk_size; try done; [zlia|lia|].
    fold x. by rewrite Z.add_assoc. }
  apply (freed_intro s2 a0 l sz Dv _ (sz + sz1) ((sz2, InUse) :: r2)); [|done|simpl; lia|simpl; fold x; by rewrite Z.add_assoc].
  apply inv_intro; [done| |]; simpl total; rewrite Z.add_0_r.
  - apply (merge_free s s2 a0 l _ (sz + sz1) Dv _ Hc1 Hc2 Et1); [by apply (merge_heap_links s s2 (mem s) x (sz + sz1))|].
    eapply free_inv_perm; [|exact Hf]. rewrite Er. done.
  - right. simpl. split; [lia|]. by rewrite E3.
Qed.

(** The next block is the top: what is kept aside becomes part of it. *)
Lemma forward_top s a0 l mid sz sz1 r1 : freeing s a0 l mid sz ((sz1, Top) :: r1) -> let x := a0 + total l in
  top (gm s) = x + sz /\ topsize (gm s) = sz1 /\
  freed a0 l sz ((sz1, Top) :: r1) (set_gm (fun g => if decide (x = dv g) then set_dv 0 0 g else g)
    (mkDl (set_top x (sz1 + sz) (gm s)) (upd x (set_head ((sz1 + sz) .| PINUSE_BIT)) (mem s)))).
Proof.
  intros Hfr x. destruct (freeing_next _ _ _ _ _ _ Hfr) as (? & ? & ? & [= <- <- <-] & Hh & Hm1 & Hp1 & Hx & Hla & Hm & Hmin & Hr & Hr2 & Hblk).
  fold x in Hh, Hx, Hla, Hr, Hblk. destruct Hfr as [[Hc Et _ Hpf Hf] Hd]. rewrite min_chunk_size in Hmin. change MAX_TREE_SIZE with (2 ^ 40) in Hr2.
  pose proof Hblk as [_ _ _ _ _ _ _ _ _ _ _ Hlast]. rewrite (Hlast eq_refl) in *. clear Hlast Hblk r1.
  destruct (hc_top _ _ _ _ Hc) as (bt & Ebt & Etop & Hnt). rewrite app_assoc in Ebt. apply app_inj_tail in Ebt as [<- [= Ets]].
  rewrite total_app, Et in Etop. split; [unfold x; lia|]. split; [done|]. set (s2 := set_gm _ _).
  rewrite of_kind_app in Hnt. apply app_eq_nil in Hnt as [Hnt _].
  assert (Hc1 : core s a0 (l ++ (mid ++ [(sz1, Top)]) ++ [])) by (rewrite app_nil_r; exact Hc).
  assert (Et1 : total (mid ++ [(sz1, Top)]) = sz1 + sz) by (rewrite total_app; simpl; lia).
  assert (Hg2 : forall B (f : malloc_state -> B), (forall p z g, f (set_dv p z g) = f g) -> f (gm s2) = f (set_top x (sz1 + sz) (gm s))).
  { intros B f Hfd. unfold s2. simpl. by case_decide. }
  assert (Hc2 : core s2 a0 (l ++ [(sz1 + sz, Top)])).
  { rewrite app_nil_r in Hc1. apply (merge_top_core _ s s2 a0 l _ (sz1 + sz) Hc1 Et1); try done; try (by rewrite Hg2); fold x; [zlia|lia| |].
    - unfold s2. simpl. rewrite get_upd_eq. cbn. apply head_free. zlia.
    - intros y Hy. unfold s2. simpl. by rewrite get_upd_ne by lia. }
  assert (Er : forall K, K <> Top -> rest K a0 l sz [(sz1, Top)] = rest K a0 l (sz1 + sz) []).
  { intros K HK. unfold rest. simpl. by rewrite decide_False by done. }
  apply (freed_intro s2 a0 l sz Top _ (sz1 + sz) []); [|done|simpl; lia|done]. apply inv_intro; [done| |]; simpl total; rewrite Z.add_0_r; simpl.
  - apply (merge_free s s2 a0 l _ (sz1 + sz) Top _ Hc1 Hc2 Et1); [|by rewrite <-Er].
    split; try (by rewrite Hg2). intros y. unfold s2. simpl. by rewrite (get_upd_field links) by done.
  - rewrite <-Er by done. unfold s2. simpl. destruct Hd as [[Hne Hd]|(E & E2 & _)].
    + rewrite decide_False by (unfold x in *; simpl; congruence). exact Hd.
    + rewrite decide_True by (unfold x in *; simpl; congruence). rewrite E2. by left.
Qed.

(** The next block is in a bin: it leaves it. *)
Lemma forward_binned s a0 l mid sz sz1 r1 : freeing s a0 l mid sz ((sz1, Binned) :: r1) -> let x := a0 + total l in let d := dv (gm s) in
  x + sz <> d /\ chunksize (get (mem s) (x + sz)) = sz1 /\
  exists ans s', (_ ← unlink_chunk gm_addr "dlfree" (x + sz) sz1;
    _ ← set_size_and_pinuse_of_free_chunk x (sz + sz1);
    if decide (x = d) then _ ← modify (set_gm (set_dv d (sz + sz1))); mret Done else free_bin gm_addr x (sz + sz1)) s = Ok (ans, s') /\
    fast ans /\ freed a0 l sz ((sz1, Binned) :: r1) s'.
Proof.
  intros Hfr x d. destruct (freeing_next _ _ _ _ _ _ Hfr) as (? & ? & ? & [= <- <- <-] & Hh & Hm1 & Hp1 & Hx & Hla & Hm & Hmin & Hr & Hr2 & Hblk).
  fold x in Hh, Hx, Hla, Hr, Hblk. destruct Hfr as [[Hc Et _ Hpf Hf] Hd]. rewrite min_chunk_size in Hmin. change MAX_TREE_SIZE with (2 ^ 40) in Hr2.
  pose proof Hc as Hc'. rewrite app_assoc in Hc'. pose proof (core_binnable _ _ _ _ _ _ _ Hc' ltac:(done)) as Hbin.
  pose proof Hblk as [_ _ _ _ _ Hright Hrg2 _ _ _ Hnx _]. destruct (Hnx ltac:(done) ltac:(done)) as (sz2 & r2 & ->). simpl in Hrg2.
  destruct Hright as (Hh2 & _). cbn in Hh2. set (r := (sz2, InUse) :: r2) in *.
  assert (Er : forall K, rest K a0 l sz ((sz1, Binned) :: r) ≡ₚ (if decide (Binned = K) then [(x + sz, sz1)] else []) ++ rest K a0 l (sz + sz1) r).
  { intros K. unfold rest. simpl. fold x. rewrite (Z.add_assoc x sz sz1). solve_Permutation. }
  eapply free_inv_perm in Hf; [|apply Er]. rewrite decide_True in Hf by done.
  split.
  { intros E. destruct Hd as [[_ Hd]|(E2 & _)]; [|unfold x, d in *; lia]. destruct Hd as [(_ & E2 & _)|[_ E2]]; [unfold d in *; lia|].
    assert (Hin : (x + sz, dvsize (gm s)) ∈ of_kind Dv a0 (l ++ mid ++ (sz1, Binned) :: r)).
    { apply rest_in. rewrite Et, E2, E. left. }
    assert (Hin2 : (x + sz, sz1) ∈ of_kind Binned a0 (l ++ mid ++ (sz1, Binned) :: r)).
    { apply rest_in. rewrite Et, Er. left. }
    destruct (of_kind_inj _ _ _ _ _ _ _ (core_ok _ _ _ _ Hc) Hin Hin2) as [? _]. done. }
  split.
  { eapply chunksize_mkhead; [exact Hh|done|lia]. }
  destruct (unlink_chunk_ok gm_addr "dlfree" Hgm (x + sz) sz1 s _ Hf Hbin) as (s1 & Hrun & Hf1 & Hb). rewrite (bind_ok _ _ _ _ _ Hrun).
  assert (Eg1 : bins_only (gm s) (gm s1)) by apply Hb. rewrite (bind_ok _ _ _ _ _ (run_set_free s1 x (sz + sz1) ltac:(lia) ltac:(lia) ltac:(lia))).
  set (s2 := set_mem _ s1). pose proof (bins_core _ _ _ _ _ _ Hb Hc) as Hcs1.
  assert (Hc1 : core s1 a0 (l ++ (mid ++ [(sz1, Binned)]) ++ r)) by (rewrite <-app_assoc; exact Hcs1).
  assert (Et1 : total (mid ++ [(sz1, Binned)]) = sz + sz1) by (rewrite total_app; simpl; lia).
  assert (Hk : forall k', k' <> InUse -> k' <> Top -> core s2 a0 (l ++ [(sz + sz1, k')] ++ r)).
  { intros k' Hk1 Hk2. apply (merge_heap_core s1 s2 (mem s1) a0 l _ (sz + sz1) sz2 r2 k' Hc1 Et1); rewrite ?min_chunk_size; try done; [zlia|lia|].
    fold x. rewrite Z.add_assoc. rewrite (proj1 (bf_heads _ _ _ _ Hb _)). exact Hh2. }
  assert (Hf2 : free_inv gm_addr s2 (rest Binned a0 l (sz + sz1) r)).
  { apply (merge_free s1 s2 a0 l _ (sz + sz1) Binned _ Hc1 (Hk Binned ltac:(done) ltac:(done)) Et1); [|done]. by apply (merge_heap_links s1 s2 (mem s1) x (sz + sz1)). }
  assert (Hfin : forall k' s', inv s' a0 (l ++ [(sz + sz1, k')] ++ r) -> k' <> InUse -> freed a0 l sz ((sz1, Binned) :: r) s').
  { intros k' s' Hi Hk'. eapply freed_intro; [exact Hi|done|simpl; lia|simpl; fold x; by rewrite Z.add_assoc]. }
  destruct Hd as [[Hne Hd]|(E & E2 & _)].
  - eapply dv_ok_perm in Hd; [|apply Er]. rewrite decide_False by (unfold x, d in *; congruence).
    destruct (free_bin_ok s2 a0 l (sz + sz1) r (Hk Binned ltac:(done) ltac:(done)) Hf2) as (ans & s' & Hrun' & Hans & Hi); [unfold s2; simpl; by rewrite Eg1|].
    exists ans, s'. split; [done|]. split; [done|]. by eapply Hfin.
  - rewrite decide_True by (unfold x, d in *; congruence). rewrite modify_bind. eexists _, _. split; [done|]. split; [done|].
    apply (Hfin Dv); [|done]. apply inv_intro; simpl total; rewrite ?Z.add_0_r.
    + apply (core_frame _ s2); [by apply Hk|done..].
    + simpl. eapply free_heads; [exact Hf2|by split|done].
    + specialize (Er Dv). rewrite E2 in Er. apply Permutation_nil_l in Er. simpl in Er. rewrite <-Er. right. simpl. split; [lia|]. unfold d. by rewrite E.
Qed.

(** Only the top block is at [top]. *)
Lemma top_next s a0 l mid sz sz1 k r1 : core s a0 (l ++ mid ++ (sz1, k) :: r1) -> total mid = sz -> k <> Top -> a0 + total l + sz <> top (gm s).
Proof.
  intros Hc Et Hk E. destruct (hc_top _ _ _ _ Hc) as (bt & Ebt & Etop & _).
  assert (H1 : (top (gm s), topsize (gm s)) ∈ of_kind Top a0 (l ++ mid ++ (sz1, k) :: r1)).
  { rewrite Ebt, of_kind_app, Etop. simpl. apply elem_of_app. right. left. }
  assert (H2 : (a0 + total l + sz, sz1) ∈ of_kind k a0 (l ++ mid ++ (sz1, k) :: r1)).
  { apply rest_in. rewrite Et. unfold rest. apply elem_of_app. right. simpl. rewrite decide_True by done. left. }
  rewrite E in H2. destruct (of_kind_inj _ _ _ _ _ _ _ (core_ok _ _ _ _ Hc) H1 H2) as [? _]. congruence.
Qed.

Lemma free_forward_ok s a0 l mid sz r : freeing s a0 l mid sz r -> let x := a0 + total l in
  exists ans s', free_forward gm_addr x sz (x + sz) s = Ok (ans, s') /\ fast ans /\ freed a0 l sz r s'.
Proof.
  intros Hfr x. destruct (freeing_next _ _ _ _ _ _ Hfr) as (sz1 & k1 & r1 & -> & Hh & Hm1 & Hp1 & Hx & Hla & Hm & Hmin & Hr & Hr2 & _).
  fold x in Hh, Hx, Hla, Hr. rewrite min_chunk_size in Hmin. change MAX_TREE_SIZE with (2 ^ 40) in Hr2.
  pose proof (top_next s a0 l mid sz sz1 k1 r1 (fr_core _ _ _ _ _ _ Hfr) (fr_total _ _ _ _ _ _ Hfr)) as Hnt. fold x in Hnt.
  unfold free_forward. rewrite rtcheck_bind.
  2: { unfold ok_next. rewrite bool_decide_eq_true_2 by lia. rewrite rd_bind by lia. by rewrite (pinuse_mkhead _ _ _ _ Hh Hm1). }
  rewrite rd_bind, (cinuse_mkhead _ _ _ _ Hh Hm1) by lia. destruct k1; cbn [in_use Z.b2z Z.mul Pos.mul].
  - rewrite (decide_False (P := 2 = 0)) by lia. by apply (forward_used s a0 l mid).
  - destruct (forward_binned _ _ _ _ _ _ _ Hfr) as (Hnd & Hsz & ans & s' & Hrun & Hans & Hf). fold x in Hnd, Hsz, Hrun. exists ans, s'. split; [|done].
    rewrite (decide_True (P := 0 = 0)), !gets_bind, (decide_False (P := x + sz = top _)), decide_False, rd_bind, Hsz by (done || lia || by apply Hnt).
    cbv zeta. rewrite wrap_small by (unfold fits; lia). exact Hrun.
  - destruct (forward_dv _ _ _ _ _ _ _ Hfr) as (E1 & E2 & s' & Hrun & Hf). fold x in E1, Hrun. exists Done, s'. split; [|done].
    rewrite (decide_True (P := 0 = 0)), !gets_bind, (decide_False (P := x + sz = top _)), decide_True, gets_bind, E2 by (done || by apply Hnt).
    cbv zeta. rewrite wrap_small by (unfold fits; lia). rewrite modify_bind, (Z.add_comm sz1). by rewrite (bind_ok _ _ _ _ _ Hrun).
  - destruct (forward_top _ _ _ _ _ _ _ Hfr) as (E1 & E2 & Hf). fold x in E1, Hf.
    rewrite (decide_True (P := 0 = 0)), !gets_bind, decide_True, gets_bind, E2 by done. cbv zeta. rewrite wrap_small by (unfold fits; lia).
    rewrite modify_bind, wr_bind by lia. exists (if decide (trim_check (gm s) < sz1 + sz) then Trim else Done). eexists. split; [|split; [|exact Hf]].
    + simpl. unfold set_gm at 3. simpl. by destruct (decide (x = dv (gm s))).
    + by case_decide.
Qed.

(** ** Freeing a block *)

Lemma block_in K a0 l sz r : (a0 + total l, sz) ∈ of_kind K a0 (l ++ (sz, K) :: r).
Proof. rewrite of_kind_app. simpl. rewrite decide_True by done. apply elem_of_app. right. left. Qed.

Lemma not_dv s a0 l sz k r : inv s a0 (l ++ (sz, k) :: r) -> k <> Dv -> dv (gm s) <> a0 + total l.
Proof.
  intros H Hk E. pose proof (core_block _ _ _ _ _ _ _ (hi_core _ _ _ _ H)) as [_ _ _ _ _ _ Hrg _ _ _ _ _]. pose proof (hi_dv _ _ _ _ H) as [(_ & E0 & _)|[_ Ed]]; [lia|].
  assert (Hin : (a0 + total l, dvsize (gm s)) ∈ of_kind Dv a0 (l ++ (sz, k) :: r)) by (rewrite Ed, E; left).
  destruct (of_kind_inj _ _ _ _ _ _ _ (core_ok _ _ _ _ (hi_core _ _ _ _ H)) Hin (block_in k a0 l sz r)) as [? _]. congruence.
Qed.

(** The block before is part of what is freed. *)
Lemma freed_back a0 l ps k sz r s' : k <> InUse -> freed a0 l (ps + sz) r s' -> freed a0 (l ++ [(ps, k)]) sz r s'.
Proof.
  intros Hk (bs' & H1 & H2 & H3). exists bs'. split; [done|]. rewrite total_app. simpl. split; [lia|]. rewrite H3. unfold rest.
  rewrite of_kind_app, total_app. simpl. rewrite decide_False, app_nil_r by done. by replace (a0 + (total l + (ps + 0)) + sz) with (a0 + total l + (ps + sz)) by lia.
Qed.

(** Nothing before the block is free. *)
Lemma start_forward s a0 l sz r : inv s a0 (l ++ (sz, InUse) :: r) -> after_all None l = None -> freeing s a0 l [(sz, InUse)] sz r.
Proof.
  intros H Hpf. pose proof (not_dv _ _ _ _ _ _ H ltac:(done)) as Hne. apply (inv_elim _ s a0 l [(sz, InUse)] r) in H as (Hc & Hf & Hd).
  simpl in Hf, Hd. rewrite Z.add_0_r in Hf, Hd. split; [split|by left]; try done; [simpl; lia|by exists [], sz].
Qed.

(** The block before was in a bin. *)
Lemma start_binned s a0 l ps sz r : inv s a0 (l ++ (ps, Binned) :: (sz, InUse) :: r) ->
  exists s1, unlink_chunk gm_addr "dlfree" (a0 + total l) ps s = Ok (tt, s1) /\ freeing s1 a0 l [(ps, Binned); (sz, InUse)] (ps + sz) r.
Proof.
  intros H. destruct (unlink_block gm_addr Hgm "dlfree" s a0 l ps _ H) as (s1 & Hrun & Hc1 & Hf1 & Hg). exists s1. split; [done|].
  assert (Er : forall K, K <> InUse -> rest K a0 l ps ((sz, InUse) :: r) = rest K a0 l (ps + sz) r).
  { intros K HK. unfold rest. simpl. rewrite decide_False by done. simpl. by rewrite Z.add_assoc. }
  pose proof (core_block _ _ _ _ _ _ _ (hi_core _ _ _ _ H)) as [_ _ _ _ _ _ _ _ Hfree _ _ _].
  split; [split|left]; [done|simpl; lia|by exists [(ps, Binned)], sz|by apply Hfree|by rewrite <-Er|].
  rewrite Hg. split; [by apply (not_dv s a0 l ps Binned _ H)|]. apply (inv_elim _ s a0 l [(ps, Binned)] _) in H as (_ & _ & Hd).
  rewrite <-Er by done. simpl in Hd. rewrite Z.add_0_r in Hd. exact Hd.
Qed.

(** The block before was kept aside. *)
Lemma start_dv s a0 l ps sz r : inv s a0 (l ++ (ps, Dv) :: (sz, InUse) :: r) ->
  dv (gm s) = a0 + total l /\ dvsize (gm s) = ps /\ rest Dv a0 l (ps + sz) r = [] /\ merging s a0 l [(ps, Dv); (sz, InUse)] (ps + sz) r.
Proof.
  intros H. pose proof (core_block _ _ _ _ _ _ _ (hi_core _ _ _ _ H)) as [_ _ _ _ _ _ _ _ Hfree _ _ _].
  pose proof (inv_elim _ s a0 l [(ps, Dv)] ((sz, InUse) :: r) H) as (Hc & Hf & Hd).
  assert (Er : forall K, K <> InUse -> rest K a0 l (total [(ps, Dv)]) ((sz, InUse) :: r) = rest K a0 l (ps + sz) r).
  { intros K HK. unfold rest. simpl. rewrite decide_False by done. rewrite Z.add_0_r. simpl. by rewrite Z.add_assoc. }
  rewrite Er in Hf, Hd by done. destruct Hd as [(_ & _ & [=])|(_ & [= E1 E2 E3])]. split; [done|]. split; [done|]. split; [done|].
  split; [done|simpl; lia|by exists [(ps, Dv)], sz|by apply Hfree|done].
Qed.

Lemma free_fast_ok s a0 l sz r : inv s a0 (l ++ (sz, InUse) :: r) ->
  exists ans s', free_fast gm_addr (chunk2mem (a0 + total l)) s = Ok (ans, s') /\ fast ans /\ freed a0 l sz r s'.
Proof.
  intros H. pose proof (core_block _ _ _ _ _ _ _ (hi_core _ _ _ _ H)) as [_ (Hm & Hp & _) _ Hh Hft _ Hrg Hu _ _ _ _]. simpl in Hm, Hp.
  set (x := a0 + total l) in *. change MAX_TREE_SIZE with (2 ^ 40) in Hrg. cbn [in_use] in Hh. destruct Hu as [Hx Hla].
  unfold free_fast. rewrite decide_False by (unfold chunk2mem; rewrite wrap_small by (unfold fits; lia); lia).
  rewrite chunk_mem_roundtrip by (unfold fits; lia). rewrite rtcheck_bind.
  2: { rewrite (bind_ok _ _ _ _ _ (ok_address_true x s Hla)). rewrite rd_bind, Hh, inuse_bits_mkhead by lia.
       rewrite bool_decide_eq_true_2; [done|]. change PINUSE_BIT with 1. destruct (is_none _); simpl; lia. }
  rewrite rd_bind, (chunksize_mkhead _ _ _ _ Hh Hm) by lia. unfold chunk_plus_offset. rewrite !wrap_small by (unfold fits; lia).
  rewrite rd_bind, (pinuse_mkhead _ _ _ _ Hh Hm) by lia. destruct (after_all None l) as [ps|] eqn:Ea; cbn [is_none Z.b2z].
  2: { rewrite (decide_False (P := 1 = 0)) by lia. apply free_forward_ok with (mid := [(sz, InUse)]). by apply start_forward. }
  rewrite (decide_True (P := 0 = 0)) by done. rewrite rd_bind, rd_bind, Hh, inuse_bits_mkhead by lia. cbn [is_none Z.b2z Z.mul Pos.mul Z.add].
  rewrite (decide_False (P := 2 = 0)) by lia. destruct (Hft ps eq_refl) as [-> _].
  destruct l as [|[ps' k0] l0 _] using rev_ind; [done|]. rewrite after_all_app in Ea. unfold after_all, after in Ea. cbn [fst snd] in Ea.
  destruct (in_use k0) eqn:Ek; [done|]. injection Ea as ->. rewrite <-app_assoc in H. simpl in H.
  pose proof (core_block _ _ _ _ _ _ _ (hi_core _ _ _ _ H)) as [_ (Hm0 & Hp0 & _) _ _ _ _ Hrg0 [Hx0 Hla0] _ _ _ Hlast]. simpl in Hm0, Hp0.
  assert (Ex : x = a0 + total l0 + ps) by (unfold x; rewrite total_app; simpl; lia). clearbody x. subst x. set (x0 := a0 + total l0) in *.
  unfold chunk_minus_offset. replace (x0 + ps - ps) with x0 by lia. change MAX_TREE_SIZE with (2 ^ 40) in Hrg0. simpl in Hrg0.
  rewrite !wrap_small, (Z.add_comm sz ps) by (unfold fits; lia). replace (x0 + ps + sz) with (x0 + (ps + sz)) by lia.
  rewrite rtcheck_bind by (by apply ok_address_true). rewrite gets_bind. destruct k0; [done| | |by specialize (Hlast eq_refl)].
  - pose proof (not_dv s a0 l0 ps Binned _ H ltac:(done)) as Hnd. fold x0 in Hnd. rewrite (decide_True (P := x0 <> dv (gm s))) by congruence.
    destruct (start_binned s a0 l0 ps sz r H) as (s1 & Hrun & Hfr). fold x0 in Hrun. rewrite (bind_ok _ _ _ _ _ Hrun).
    destruct (free_forward_ok s1 a0 l0 _ (ps + sz) r Hfr) as (ans & s' & Hrun' & Hans & Hf). exists ans, s'. split; [done|]. split; [done|].
    by apply freed_back.
  - destruct (start_dv s a0 l0 ps sz r H) as (E1 & E2 & E3 & Hfr). fold x0 in E1. rewrite (decide_False (P := x0 <> dv (gm s))) by (rewrite E1; tauto).
    destruct (freeing_next _ _ _ _ _ _ Hfr) as (sz1 & k1 & r1 & -> & Hhn & Hm1 & _). fold x0 in Hhn. rewrite rd_bind, Hhn, inuse_bits_mkhead by lia.
    destruct (decide (k1 = InUse)) as [->|Hk1].
    + rewrite (decide_True (P := _ = INUSE_BITS)) by done. rewrite modify_bind.
      destruct (run_free_used s (set_gm (set_dv (dv (gm s)) (ps + sz)) s) a0 l0 _ (ps + sz) sz1 r1 Hfr) as (s2 & Hrun & Hg & Hk & Hf2); try done.
      rewrite (bind_ok _ _ _ _ _ Hrun). exists Done, s2. split; [done|]. split; [done|]. apply freed_back; [done|].
      eapply (freed_intro s2 a0 l0 (ps + sz) Dv); [|done|done|done]. apply inv_intro; [by apply Hk| |]; simpl total; rewrite Z.add_0_r; simpl; [done|].
      rewrite E3, Hg. right. simpl. split; [lia|]. by rewrite E1.
    + rewrite (decide_False (P := _ = INUSE_BITS)) by (by destruct k1).
      destruct (free_forward_ok s a0 l0 [(ps, Dv); (sz, InUse)] (ps + sz) ((sz1, k1) :: r1)) as (ans & s' & Hrun' & Hans & Hf).
      { split; [exact Hfr|right]. split; [done|]. split; [done|]. by intros ? ? ? [= _ <- _]. }
      exists ans, s'. split; [done|]. split; [done|]. by apply freed_back.
Qed.
End release.
