(* ===== verification/DlInit.v ===== *)
(** How a heap of the C library's allocator begins: [init_bins] and [init_top] (lib/stdlib/dlmalloc.c)
    turn a zeroed state and a region of memory into a heap of one block, the top. *)
From S2P Require Import Prelude DlBins DlHeap DlTree DlLarge DlSmall DlFree DlLayout DlCore.

(** The size of [struct malloc_segment], and of what is kept behind the top. *)
Definition SIZEOF_SEGMENT : Z := 32.
Definition TOP_FOOT_SIZE : Z := align_offset (chunk2mem 0) + pad_request SIZEOF_SEGMENT + MIN_CHUNK_SIZE.

Definition set_trim_check v m := MState (smallmap m) (treemap m) (dvsize m) (topsize m) (least_addr m) (dv m) (top m)
  v (release_checks m) (magic m) (treebins m) (footprint m) (max_footprint m) (footprint_limit m) (mflags m) (DlHeap.seg m).

Section init.
Context (gm_addr : Z).
Abbreviation D := (cmd dl_st).

(** [trim_threshold] is the field of [mparams]. *)
Definition init_top (trim_threshold p psize : Z) : D unit :=
  let offset := align_offset (chunk2mem p) in
  let p := u64 (p + offset) in
  let psize := u64 (psize - offset) in
  _ ← modify (set_gm (set_top p psize));
  _ ← wr (set_head (psize .| PINUSE_BIT)) p;
  _ ← wr (set_head TOP_FOOT_SIZE) (chunk_plus_offset p psize);
  modify (set_gm (set_trim_check trim_threshold)).

Definition init_bins : D unit :=
  for_n (Z.to_nat NSMALLBINS) 0 (fun i =>
    let bin := smallbin_at gm_addr i in
    _ ← wr (set_bk bin) bin;
    wr (set_fd bin) bin).
End init.

(** ** The first heap *)
Section first.
Context (gm_addr : Z) (Hgm : 0 < gm_addr).

(** A state with no chunk in any bin. *)
Definition no_bins (g : malloc_state) : Prop := smallmap g = 0 /\ treemap g = 0 /\ treebins g = replicate 32 0 /\ dvsize g = 0 /\ dv g = 0.

Lemma no_small_chunks s : smallmap (gm s) = 0 -> small_inv gm_addr s [].
Proof.
  intros E. exists (replicate 32 []). split; rewrite ?E; try done.
  - intros i l Hi. apply lookup_replicate in Hi as [-> _]. split; rewrite ?E; [by unfold is_marked; rewrite Z.bits_0|done|]. intros a sz H. by apply elem_of_nil in H.
  - constructor.
  - intros a Ha. by apply elem_of_nil in Ha.
Qed.

Lemma no_large_chunks s : treemap (gm s) = 0 -> treebins (gm s) = replicate 32 0 -> large_inv gm_addr s [].
Proof.
  intros E1 E2. exists (replicate 32 Leaf). split; rewrite ?E1, ?E2; try done.
  - intros i t Hi. apply lookup_replicate in Hi as [-> Hi]. split; rewrite ?E1, ?E2.
    + rewrite Nat2Z.id. by apply lookup_replicate_2.
    + by unfold is_marked; rewrite Z.bits_0.
    + done.
    + done.
    + intros a sz H. by apply elem_of_nil in H.
  - constructor.
  - intros a Ha. by apply elem_of_nil in Ha.
Qed.

Lemma no_free s : no_bins (gm s) -> free_inv gm_addr s [].
Proof.
  intros (E1 & E2 & E3 & _). exists [], []. split; [by apply no_small_chunks|by apply no_large_chunks|done|constructor|]. intros a Ha. by apply elem_of_nil in Ha.
Qed.

(** Only the headers of the small bins are written. *)
Lemma init_bins_ok s : exists s', init_bins gm_addr s = Ok (tt, s') /\ gm s' = gm s /\ forall x, ~ header gm_addr x -> get (mem s') x = get (mem s) x.
Proof.
  destruct (for_n_inv (fun _ s' => gm s' = gm s /\ forall x, ~ header gm_addr x -> get (mem s') x = get (mem s) x) (Z.to_nat NSMALLBINS) 0
    (fun i => let bin := smallbin_at gm_addr i in _ ← wr (set_bk bin) bin; wr (set_fd bin) bin) s) as (s' & Hrun & Hg & Hm); [done| |by exists s'].
  intros i s1 Hi (Hg1 & Hm1). change (Z.to_nat NSMALLBINS) with 32%nat in Hi. cbv zeta.
  assert (Hnz : smallbin_at gm_addr i <> 0) by (unfold smallbin_at; rewrite Z.shiftl_mul_pow2 by lia; lia).
  rewrite wr_bind, wr_ok by done. eexists. split; [done|]. split; [done|]. intros x Hx. cbn [mem set_mem].
  rewrite !get_upd_ne; [by apply Hm1| |]; intros <-; apply Hx; exists i; split; [lia|done|lia|done].
Qed.

Lemma init_top_ok th s p psize : no_bins (gm s) -> 0 < p -> p mod 16 = 0 -> psize mod 16 = 0 -> 0 < psize < MAX_TREE_SIZE -> p + psize < 2 ^ 63 ->
  least_addr (gm s) <= p -> (forall x, header gm_addr x -> ~ (p <= x < p + psize)) ->
  exists s', init_top th p psize s = Ok (tt, s') /\ heap_inv gm_addr s' p [(psize, Top)] /\ gm s' = set_trim_check th (set_top p psize (gm s)).
Proof.
  intros Hn Hp Hpm Hm Hs Hr Hla Hh. change MAX_TREE_SIZE with (2 ^ 40) in Hs. unfold init_top.
  assert (Eo : align_offset (chunk2mem p) = 0).
  { unfold align_offset, chunk2mem. rewrite wrap_small by (unfold fits; lia). change CHUNK_ALIGN_MASK with (Z.ones 4).
    rewrite land_low by lia. rewrite decide_True; [done|zlia]. }
  rewrite Eo. cbv zeta. rewrite Z.add_0_r, Z.sub_0_r, !(wrap_small 64) by (unfold fits; lia). unfold chunk_plus_offset. rewrite wrap_small by (unfold fits; lia).
  rewrite modify_bind, !wr_bind by lia. eexists. split; [done|]. split; [|done]. split.
  - split; simpl; rewrite ?Z.add_0_r; try done.
    + split; [|split; [done|split; [split; [done|split; [simpl; lia|done]]|done]]]. rewrite get_upd_ne, get_upd_eq by lia. cbn. by apply head_free.
    + exists []. simpl. split; [done|]. split; [lia|done].
    + change MAX_TREE_SIZE with (2 ^ 40). lia.
  - simpl. apply (free_heads gm_addr s); [by apply no_free| |intros y Hy; by apply elem_of_nil in Hy].
    split; try done. intros y. simpl. by rewrite !(get_upd_field links) by done.
  - simpl. left. by destruct Hn as (_ & _ & _ & E1 & E2).
Qed.
End first.
