(* ===== verification/Dlmalloc.v ===== *)
(** The contract of the C library's allocator on one segment: what [dlmalloc] and [dlfree] promise, and
    what every sequence of calls keeps (lib/stdlib/dlmalloc.c). *)
From S2P Require Import Prelude DlBins DlHeap DlTree DlLarge DlFit DlSmall DlFree DlMalloc DlLayout DlCore DlAlloc DlServe DlRequest DlRelease DlInit.

(** ** Blocks in use *)

Lemma of_kind_apart K K' a bs x sz y z : Forall block_ok bs -> (x, sz) ∈ of_kind K a bs -> (y, z) ∈ of_kind K' a bs -> x = y \/ x + sz <= y \/ y + z <= x.
Proof.
  intros Hok. revert a. induction Hok as [|b bs Hb Hok IH]; intros a; simpl; [by intros ?%elem_of_nil|].
  assert (Hat : forall K x z, (x, z) ∈ (if decide (b.2 = K) then [(a, b.1)] else []) -> x = a /\ z = b.1).
  { intros K0 x0 z0 Hz. case_decide; [by apply list_elem_of_singleton in Hz as [= -> ->]|by apply elem_of_nil in Hz]. }
  intros [H1|H1]%elem_of_app [H2|H2]%elem_of_app.
  - apply Hat in H1 as [-> _]. apply Hat in H2 as [-> _]. by left.
  - apply Hat in H1 as [-> ->]. apply (of_kind_range _ _ _ _ _ Hok) in H2 as [? _]. right. by left.
  - apply Hat in H2 as [-> ->]. apply (of_kind_range _ _ _ _ _ Hok) in H1 as [? _]. right. by right.
  - by apply (IH (a + b.1)).
Qed.

(** With nothing in use the whole row is the top: free blocks have been merged. *)
Lemma all_free gm_addr s a0 bs : heap_inv gm_addr s a0 bs -> of_kind InUse a0 bs = [] -> bs = [(topsize (gm s), Top)].
Proof.
  intros H Hu. destruct (hc_top _ _ _ _ (hi_core _ _ _ _ H)) as (l & -> & _ & Ht). destruct l as [|[sz k] l]; [done|exfalso].
  rewrite <-app_comm_cons in H, Hu. set (r := l ++ _) in *.
  pose proof (core_block _ _ _ [] _ _ _ (hi_core _ _ _ _ H)) as [_ _ _ _ _ _ _ _ _ _ Hnx _].
  assert (Hk : k <> InUse) by (intros ->; done). assert (Hkt : k <> Top) by (intros ->; done).
  destruct (Hnx Hk Hkt) as (sz1 & r1 & E). rewrite E in Hu. simpl in Hu. by rewrite decide_False in Hu.
Qed.

Lemma chunk2mem_eq p : 0 <= p < 2 ^ 63 -> chunk2mem p = p + 16.
Proof. intros Hp. unfold chunk2mem. apply wrap_small. unfold fits. lia. Qed.

Lemma in_use_addr gm_addr s a0 bs K p sz : heap_inv gm_addr s a0 bs -> (p, sz) ∈ of_kind K a0 bs -> 0 <= p < 2 ^ 63 /\ p mod 16 = 0.
Proof.
  intros H (l & r & -> & ->)%of_kind_split. destruct (core_block _ _ _ _ _ _ _ (hi_core _ _ _ _ H)) as [_ (_ & Hp & _) _ _ _ _ Hrg _ _ _ _ _]. simpl in Hp. lia.
Qed.

(** A request of [bytes] is granted with a chunk that has room for it. *)
Lemma chunk_size_room bytes : 0 <= bytes < MAX_REQUEST -> bytes + 8 <= chunk_size bytes.
Proof.
  intros H. unfold chunk_size. rewrite decide_True by lia. destruct (request2size_least bytes H) as (_ & _ & Hr & _). exact Hr.
Qed.

(** ** [dlmalloc] *)
Section contract.
Context (gm_addr : Z) (Hgm : 0 < gm_addr).

(** What the caller gets: [bytes] bytes of the block [p], 16-byte aligned, of no other block in use. *)
Definition room_for (a0 : Z) (others : list (Z * Z)) (p sz bytes m : Z) : Prop :=
  m = p + 16 /\ m mod 16 = 0 /\ a0 + 16 <= m /\ m + bytes <= p + sz + 8 /\ sz < chunk_size bytes + MIN_CHUNK_SIZE /\
  forall q z, (q, z) ∈ others -> m + bytes <= q + 16 \/ q + z + 8 <= m.

Definition fresh_block (s' : dl_st) (a0 : Z) (bs : blocks) (bytes m : Z) : Prop := exists bs' p sz,
  heap_inv gm_addr s' a0 bs' /\ total bs' = total bs /\ of_kind InUse a0 bs' ≡ₚ (p, sz) :: of_kind InUse a0 bs /\
  room_for a0 (of_kind InUse a0 bs) p sz bytes m.

Lemma new_in_use s' a0 bs' others p sz bytes : 0 <= bytes < MAX_REQUEST -> heap_inv gm_addr s' a0 bs' -> of_kind InUse a0 bs' ≡ₚ (p, sz) :: others ->
  chunk_size bytes <= sz < chunk_size bytes + MIN_CHUNK_SIZE -> room_for a0 others p sz bytes (chunk2mem p).
Proof.
  intros Hb H Hp Hsz. pose proof (chunk_size_room bytes Hb) as Hroom.
  assert (Hin : (p, sz) ∈ of_kind InUse a0 bs') by (rewrite Hp; left). destruct (in_use_addr _ _ _ _ _ _ _ H Hin) as [Hr Hm].
  rewrite chunk2mem_eq by lia. pose proof (core_ok _ _ _ _ (hi_core _ _ _ _ H)) as Hok. destruct (of_kind_range _ _ _ _ _ Hok Hin) as (Ha & _).
  split; [done|]. split; [zlia|]. split; [lia|]. split; [lia|]. split; [lia|].
  intros q z Hq. assert (Hq' : (q, z) ∈ of_kind InUse a0 bs') by (rewrite Hp; by right).
  destruct (of_kind_apart _ _ _ _ _ _ _ _ Hok Hin Hq') as [->|[Hd|Hd]]; [exfalso|left; lia|right; lia].
  pose proof (of_kind_nodup InUse a0 _ Hok) as Hnd. rewrite Hp in Hnd. simpl in Hnd. apply NoDup_cons in Hnd as [Hni _].
  apply Hni. by apply (list_elem_of_fmap_2 fst _ (q, z)).
Qed.

Lemma granted_fresh s' a0 bs bytes m : 0 <= bytes < MAX_REQUEST -> granted gm_addr a0 bs (chunk_size bytes) s' m -> fresh_block s' a0 bs bytes m.
Proof. intros Hb (bs' & p & sz & H & Et & -> & Hsz & Hp). exists bs', p, sz. split; [done|]. split; [done|]. split; [done|]. by apply (new_in_use s' a0 bs'). Qed.

Lemma malloc_contract s a0 bs bytes : heap_inv gm_addr s a0 bs -> 0 <= bytes < MAX_TREE_SIZE - 32 ->
  exists res s', malloc_fast gm_addr bytes s = Ok (res, s') /\ match res with
    | inl m => fresh_block s' a0 bs bytes m
    | inr nb => nb = chunk_size bytes /\ s' = s /\ too_large a0 bs nb end.
Proof.
  intros H Hb. change MAX_TREE_SIZE with (2 ^ 40) in Hb. assert (Hr : 0 <= bytes < MAX_REQUEST) by (change MAX_REQUEST with (2 ^ 64 - 128); lia).
  destruct (malloc_fast_ok gm_addr Hgm s a0 bs bytes H) as (res & s' & Hrun & Hans); [lia|change MAX_TREE_SIZE with (2 ^ 40); lia|].
  exists res, s'. split; [done|]. destruct res as [m|nb]; [by apply granted_fresh|by destruct Hans as (-> & -> & Ht)].
Qed.

Lemma free_contract s a0 bs p sz : heap_inv gm_addr s a0 bs -> (p, sz) ∈ of_kind InUse a0 bs ->
  exists ans s' bs', free_fast gm_addr (p + 16) s = Ok (ans, s') /\ fast ans /\ heap_inv gm_addr s' a0 bs' /\ total bs' = total bs /\
    of_kind InUse a0 bs ≡ₚ (p, sz) :: of_kind InUse a0 bs'.
Proof.
  intros H Hin. destruct (in_use_addr _ _ _ _ _ _ _ H Hin) as [Hr _]. apply of_kind_split in Hin as (l & r & -> & ->).
  destruct (free_fast_ok gm_addr Hgm s a0 l sz r H) as (ans & s' & Hrun & Hans & bs' & Hi & Et & Hp). rewrite chunk2mem_eq in Hrun by lia.
  exists ans, s', bs'. split; [done|]. split; [done|]. split; [done|]. split; [rewrite Et, total_app; simpl; lia|].
  rewrite (of_kind_mid InUse a0 l [(sz, InUse)] r), Hp. simpl. by rewrite Z.add_0_r.
Qed.

(** ** Sequences of calls *)

(** States reached by calls that are answered from the heap, with what the caller holds: addresses and
    the sizes asked for. A caller frees only what it holds. *)
Inductive calls (s0 : dl_st) : dl_st -> list (Z * Z) -> Prop :=
  | calls_none : calls s0 s0 []
  | calls_malloc s live bytes m s' : calls s0 s live -> 0 <= bytes < MAX_TREE_SIZE - 32 ->
      malloc_fast gm_addr bytes s = Ok (inl m, s') -> calls s0 s' ((m, bytes) :: live)
  | calls_free s live m bytes ans s' : calls s0 s ((m, bytes) :: live) -> free_fast gm_addr m s = Ok (ans, s') -> calls s0 s' live
  | calls_any s live live' : calls s0 s live -> live ≡ₚ live' -> calls s0 s live'.

(** A held block and the chunk that holds it. *)
Definition holds (held chunk : Z * Z) : Prop := held.1 = chunk.1 + 16 /\ held.2 + 8 <= chunk.2.

Lemma calls_inv s0 a0 n s live : heap_inv gm_addr s0 a0 [(n, Top)] -> calls s0 s live ->
  exists bs used, heap_inv gm_addr s a0 bs /\ total bs = n /\ of_kind InUse a0 bs ≡ₚ used /\ Forall2 holds live used.
Proof.
  intros H0. induction 1 as [|s live bytes m s' _ IH Hb Hrun|s live m bytes ans s' _ IH Hrun|s live live' _ IH Hp].
  - exists [(n, Top)], []. split; [done|]. split; [simpl; lia|]. split; [done|constructor].
  - destruct IH as (bs & used & H & Et & Hu & Hl). destruct (malloc_contract s a0 bs bytes H Hb) as (res & s1 & Hrun1 & Hres).
    rewrite Hrun in Hrun1. injection Hrun1 as <- <-. destruct Hres as (bs' & p & sz & H' & Et' & Hp & -> & _ & _ & Hsz & _ & _).
    exists bs', ((p, sz) :: used). split; [done|]. split; [lia|]. split; [by rewrite Hp, Hu|]. constructor; [|done]. split; simpl; lia.
  - destruct IH as (bs & used & H & Et & Hu & Hl). inversion Hl as [|? [p sz] ? used' [E Hsz] Hl']; subst. simpl in E. subst m.
    destruct (free_contract s a0 bs p sz H) as (ans1 & s1 & bs' & Hrun1 & _ & H' & Et' & Hp); [rewrite Hu; left|].
    rewrite Hrun in Hrun1. injection Hrun1 as <- <-. exists bs', used'. split; [done|]. split; [done|]. split; [|done].
    rewrite Hu in Hp. by apply Permutation_cons_inv in Hp.
  - destruct IH as (bs & used & H & Et & Hu & Hl). destruct (Permutation_Forall2 Hp Hl) as (used' & Hpu & Hl').
    exists bs, used'. split; [done|]. split; [done|]. split; [by rewrite Hu|done].
Qed.
(** A sequence of calls that answers from the heap never goes wrong, and when everything has been given back
    the heap is one free block again, as at the start. *)
Lemma calls_safe s0 a0 n s live : heap_inv gm_addr s0 a0 [(n, Top)] -> calls s0 s live ->
  (forall bytes, 0 <= bytes < MAX_TREE_SIZE - 32 -> exists res s', malloc_fast gm_addr bytes s = Ok (res, s')) /\
  (forall m bytes, (m, bytes) ∈ live -> exists ans s', free_fast gm_addr m s = Ok (ans, s') /\ fast ans) /\
  (live = [] -> top (gm s) = a0 /\ topsize (gm s) = n).
Proof.
  intros H0 Hc. destruct (calls_inv s0 a0 n s live H0 Hc) as (bs & used & H & Et & Hu & Hl). split; [|split].
  - intros bytes Hb. destruct (malloc_contract s a0 bs bytes H Hb) as (res & s' & Hrun & _). by exists res, s'.
  - intros m bytes Hin. apply list_elem_of_lookup in Hin as [i Hi]. destruct (Forall2_lookup_l _ _ _ _ _ Hl Hi) as ([p sz] & Hp & [E _]). simpl in E. subst m.
    destruct (free_contract s a0 bs p sz H) as (ans & s' & bs' & Hrun & Hans & _); [rewrite Hu; by apply (list_elem_of_lookup_2 _ i)|]. by exists ans, s'.
  - intros ->. apply Forall2_nil_inv_l in Hl as ->. apply Permutation_nil_r in Hu. pose proof (all_free _ _ _ _ H Hu) as Ebs.
    rewrite Ebs in Et. simpl in Et. destruct (hc_top _ _ _ _ (hi_core _ _ _ _ H)) as (l & El & E2 & _). rewrite Ebs in El.
    destruct l as [|b [|]]; [|discriminate|discriminate]. simpl in E2. split; lia.
Qed.
End contract.

(** ** A first heap: 64 KiB mapped at 1 MiB *)
Definition zeroed : dl_st := mkDl (MState 0 0 0 0 0x100000 0 0 0 0 0 (replicate 32 0) 0 0 0 0 (mkSegment 0 0 0 0)) ∅.
Definition first_heap : dl_st := match init_top (2 ^ 21) 0x100000 (65536 - TOP_FOOT_SIZE) zeroed with Ok (_, s) => s | Stop _ => zeroed end.

Lemma first_heap_inv : heap_inv 4096 first_heap 0x100000 [(65456, Top)].
Proof.
  destruct (init_top_ok 4096 (2 ^ 21) zeroed 0x100000 65456) as (s' & Hrun & Hi & _); try done.
  - intros x (i & Hi & ->). unfold smallbin_at. rewrite Z.shiftl_mul_pow2 by lia. lia.
  - unfold first_heap. change (65536 - TOP_FOOT_SIZE) with 65456. by rewrite Hrun.
Defined.

(** The heap after one block of 100 bytes is taken. *)
Definition second_heap : dl_st := match malloc_fast 4096 100 first_heap with Ok (_, s) => s | Stop _ => zeroed end.
Lemma second_heap_inv : exists bs, heap_inv 4096 second_heap 0x100000 bs /\ (0x100000, 112) ∈ of_kind InUse 0x100000 bs.
Proof.
  destruct (malloc_fast_ok 4096 ltac:(lia) first_heap _ _ 100 first_heap_inv) as (res & s' & Hrun & Hans); [lia|change MAX_TREE_SIZE with (2 ^ 40); lia|].
  assert (E : malloc_fast 4096 100 first_heap = Ok (inl 0x100010, second_heap)) by (vm_compute; reflexivity).
  rewrite E in Hrun. injection Hrun as <- <-. destruct Hans as (bs' & p & sz & H & Et & Em & Hsz & Hp). exists bs'. split; [done|].
  assert (Hin : (p, sz) ∈ of_kind InUse 0x100000 bs') by (rewrite Hp; left).
  destruct (in_use_addr _ _ _ _ _ _ _ H Hin) as [Hr _]. rewrite chunk2mem_eq in Em by lia. assert (p = 0x100000) as -> by lia.
  pose proof (core_size _ _ _ _ _ _ _ (hi_core _ _ _ _ H) Hin) as Hc. assert (Ec : chunksize (get (mem second_heap) 0x100000) = 112) by (vm_compute; reflexivity).
  rewrite Ec in Hc. by subst sz.
Qed.

(** ** Properties *)

(** [dlmalloc], up to the call of [sys_alloc]. On a well-formed heap a request of less than 2^40 bytes always
    returns. Either it answers an address at which [bytes] bytes lie inside one block that was free: 16-byte aligned,
    inside the heap, apart from every block in use, at most a minimal chunk larger than needed; the heap stays
    well-formed and no other block changes hands. Or it leaves the state as it was, and no free block, nor the top, can
    hold the request: only then is the system asked for memory. *)
Theorem dlmalloc_grants gm_addr s a0 bs bytes : 0 < gm_addr -> heap_inv gm_addr s a0 bs -> 0 <= bytes < MAX_TREE_SIZE - 32 ->
  exists res s', malloc_fast gm_addr bytes s = Ok (res, s') /\ match res with
    | inl m => fresh_block gm_addr s' a0 bs bytes m
    | inr nb => nb = chunk_size bytes /\ s' = s /\ too_large a0 bs nb end.
Proof. intros Hgm H Hb. by apply malloc_contract. Qed.

Lemma dlmalloc_grants_witness : exists res s', malloc_fast 4096 100 first_heap = Ok (res, s') /\ match res with
    | inl m => fresh_block 4096 s' 0x100000 [(65456, Top)] 100 m
    | inr nb => nb = chunk_size 100 /\ s' = first_heap /\ too_large 0x100000 [(65456, Top)] nb end.
Proof. apply (dlmalloc_grants 4096 first_heap 0x100000 [(65456, Top)] 100); [lia|apply first_heap_inv|vm_compute; by split]. Defined.

(** The block is out of use and nothing else has changed hands. *)
Definition released gm_addr (s' : dl_st) (a0 : Z) (bs : blocks) (p sz : Z) : Prop := exists bs',
  heap_inv gm_addr s' a0 bs' /\ total bs' = total bs /\ of_kind InUse a0 bs ≡ₚ (p, sz) :: of_kind InUse a0 bs'.

(** [dlfree], up to the calls that give memory back to the system. Freeing a block in use always returns, never asks
    to unmap, keeps the heap well-formed with no two free neighbours, and takes exactly that block out of use. *)
Theorem dlfree_releases gm_addr s a0 bs p sz : 0 < gm_addr -> heap_inv gm_addr s a0 bs -> (p, sz) ∈ of_kind InUse a0 bs ->
  exists ans s', free_fast gm_addr (p + 16) s = Ok (ans, s') /\ fast ans /\ released gm_addr s' a0 bs p sz.
Proof.
  intros Hgm H Hin. destruct (free_contract gm_addr Hgm s a0 bs p sz H Hin) as (ans & s' & bs' & Hrun & Hans & Hi & Et & Hp).
  exists ans, s'. split; [done|]. split; [done|]. by exists bs'.
Qed.

Lemma dlfree_releases_witness : exists bs ans s', free_fast 4096 (0x100000 + 16) second_heap = Ok (ans, s') /\ fast ans /\
    released 4096 s' 0x100000 bs 0x100000 112.
Proof.
  destruct second_heap_inv as (bs & H & Hin). exists bs. apply (dlfree_releases 4096 second_heap 0x100000 bs 0x100000 112); [lia|exact H|exact Hin].
Defined.

(** Any sequence of [dlmalloc] and [dlfree] that is answered from the heap, on a heap that starts as one free
    block. Every further request returns; everything that is held can be freed; and when everything has been given back
    the heap is the one block it started as, whatever the order of the calls: nothing is lost and nothing stays split. *)
Theorem calls_restore_heap gm_addr s0 a0 n s live : 0 < gm_addr -> heap_inv gm_addr s0 a0 [(n, Top)] -> calls gm_addr s0 s live ->
  (forall bytes, 0 <= bytes < MAX_TREE_SIZE - 32 -> exists res s', malloc_fast gm_addr bytes s = Ok (res, s')) /\
  (forall m bytes, (m, bytes) ∈ live -> exists ans s', free_fast gm_addr m s = Ok (ans, s') /\ fast ans) /\
  (live = [] -> top (gm s) = a0 /\ topsize (gm s) = n).
Proof. intros Hgm. by apply calls_safe. Qed.

Lemma calls_restore_heap_witness :
  (forall bytes, 0 <= bytes < MAX_TREE_SIZE - 32 -> exists res s', malloc_fast 4096 bytes second_heap = Ok (res, s')) /\
  (forall m bytes, (m, bytes) ∈ [(0x100010, 100)] -> exists ans s', free_fast 4096 m second_heap = Ok (ans, s') /\ fast ans) /\
  ([(0x100010, 100)] = [] -> top (gm second_heap) = 0x100000 /\ topsize (gm second_heap) = 65456).
Proof.
  apply (calls_restore_heap 4096 first_heap 0x100000 65456 second_heap [(0x100010, 100)]); [lia|apply first_heap_inv|].
  apply (calls_malloc 4096 first_heap first_heap []); [apply calls_none|vm_compute; by split|vm_compute; reflexivity].
Defined.

(** A command on the bins returns, turns the set of free chunks [fs] into [fs'] and leaves all chunks but [l] alone. *)
Definition bins_step gm_addr (c : cmd dl_st unit) (s : dl_st) (fs' : list (Z * Z)) (l : list Z) : Prop :=
  exists s', c s = Ok (tt, s') /\ free_inv gm_addr s' fs' /\ bins_frame gm_addr s s' l.

(** C17: the free chunks in bins are a set. [insert_chunk] adds exactly one chunk and [unlink_chunk] removes exactly the one
    it is given, wherever in its ring or tree it is; both return, keep every ring, every tree and the two maps well-formed,
    write to no chunk outside the set, and leave all sizes and flags alone. *)
Theorem bins_are_a_set gm_addr func P S s fs : 0 < gm_addr -> binnable S ->
  (free_inv gm_addr s fs -> usable s P -> ~ header gm_addr P -> P ∉ fs.*1 -> chunksize (get (mem s) P) = S ->
    bins_step gm_addr (insert_chunk gm_addr func P S) s ((P, S) :: fs) (P :: fs.*1)) /\
  (free_inv gm_addr s ((P, S) :: fs) -> bins_step gm_addr (unlink_chunk gm_addr func P S) s fs (P :: fs.*1)).
Proof. intros Hgm HS. split; [intros H1 H2 H3 H4 H5; by apply insert_chunk_ok|intros H; by apply unlink_chunk_ok]. Qed.

(** A state with one chunk of 512 bytes that is in no bin. *)
Definition one_chunk : dl_st := set_mem (upd 0x200000 (set_head (512 .| PINUSE_BIT)) (mem zeroed)) zeroed.

Lemma bins_are_a_set_witness : bins_step 4096 (insert_chunk 4096 "dlfree" 0x200000 512) one_chunk [(0x200000, 512)] [0x200000].
Proof.
  apply (bins_are_a_set 4096 "dlfree" 0x200000 512 one_chunk []).
  - lia.
  - split; [vm_compute; by split|done].
  - by apply no_free.
  - by split.
  - intros (i & Hi & E). unfold smallbin_at in E. rewrite Z.shiftl_mul_pow2 in E by lia. lia.
  - intros H. by apply elem_of_nil in H.
  - vm_compute. reflexivity.
Defined.

(** A smallest chunk of [cs] that is large enough, and what it has too much. *)
Definition smallest_fit (cs : list (Z * Z)) (nb v r : Z) : Prop :=
  v <> 0 /\ 0 <= r /\ (v, nb + r) ∈ cs /\ forall a sz, (a, sz) ∈ cs -> nb <= sz -> nb + r <= sz.

(** C18: best fit. For a large request [nb] the walk down the bin of [nb] and the search of the next bin in use return, and
    find a smallest chunk of all trees that is large enough, with what it has too much; none is found only when there is none.
    For a small request any tree holds a chunk that is large enough, and a smallest one is found. *)
Theorem best_fit gm_addr s cs nb : large_inv gm_addr s cs ->
  (large nb -> exists v r, fit_large gm_addr nb s = Ok ((v, r), s) /\ (v = 0 /\ (forall a sz, (a, sz) ∈ cs -> sz < nb) \/ smallest_fit cs nb v r)) /\
  (treemap (gm s) <> 0 -> 0 < nb < MIN_LARGE_SIZE ->
    exists v r, fit_small gm_addr nb s = Ok ((v, r), s) /\ smallest_fit cs nb v r /\ forall a sz, (a, sz) ∈ cs -> nb < sz).
Proof.
  intros H. split.
  - intros Hnb. destruct (fit_large_ok gm_addr s cs nb H Hnb) as (v & r & Hrun & Hc & Hb). exists v, r. split; [done|].
    destruct Hc as [[-> ->]|(Hv & Hr & Hin)]; [left|right].
    + split; [done|]. intros a sz Ha. destruct (Z.lt_ge_cases sz nb) as [|Hge]; [done|]. apply (free_large_range gm_addr s cs) in Ha as Hl; [|done].
      destruct Hl as [[_ Hl] _]. change MAX_TREE_SIZE with (2 ^ 40) in Hl. apply Hb in Ha; lia.
    + split; [done|]. split; [done|]. split; [done|]. intros a sz Ha Hge. apply Hb in Ha; lia.
  - intros Ht Hnb. destruct (fit_small_ok gm_addr s cs nb H Ht Hnb) as (v & r & Hrun & Hv & Hc & Hb). exists v, r. split; [done|].
    destruct Hc as [[-> _]|(_ & Hr & Hin)]; [done|]. split.
    + split; [done|]. split; [done|]. split; [done|]. intros a sz Ha Hge. apply Hb in Ha; lia.
    + intros a sz Ha. apply (free_large_range gm_addr s cs) in Ha as [[Hl _] _]; [lia|done].
Qed.

Lemma best_fit_witness : exists v r, fit_large 4096 512 zeroed = Ok ((v, r), zeroed) /\
  (v = 0 /\ (forall a sz, (a, sz) ∈ ([] : list (Z * Z)) -> sz < 512) \/ smallest_fit [] 512 v r).
Proof. apply (best_fit 4096 zeroed [] 512); [by apply no_large_chunks|vm_compute; by split]. Defined.
