(* ===== verification/DlFrame.v ===== *)
(** What [dlmalloc] and [dlfree] of the C library's allocator leave alone: the part of
    [struct malloc_state] that belongs to the calls on system memory (lib/stdlib/dlmalloc.c). *)
From S2P Require Import Prelude DlBins DlHeap DlTree DlFit DlFree DlMalloc DlInit.

(** A command keeps a part of the state. *)
Definition leaves {S B A} (f : S -> B) (c : cmd S A) : Prop := forall s a s', c s = Ok (a, s') -> f s' = f s.

Section rules.
Context {S B : Type} (f : S -> B).

Lemma leaves_ret {A} (a : A) : leaves f (mret a).
Proof. by intros s b s' [= _ <-]. Qed.
Lemma leaves_halt {A} w : leaves f (halt w : cmd S A).
Proof. by intros s b s'. Qed.
Lemma leaves_bind {A C} (m : cmd S A) (k : A -> cmd S C) : leaves f m -> (forall a, leaves f (k a)) -> leaves f (m ≫= k).
Proof. intros Hm Hk s c s' H. apply bind_inv in H as (a & s1 & H1 & H2). by rewrite (Hk _ _ _ _ H2), (Hm _ _ _ H1). Qed.
Lemma leaves_gets {A} (g : S -> A) : leaves f (gets g).
Proof. by intros s b s' [= _ <-]. Qed.
Lemma leaves_get_st : leaves f get_st.
Proof. by intros s b s' [= _ <-]. Qed.
Lemma leaves_lift {A} w (o : option A) : leaves f (lift_opt w o).
Proof. destruct o; [apply leaves_ret|apply leaves_halt]. Qed.
Lemma leaves_modify g : (forall s, f (g s) = f s) -> leaves f (modify g).
Proof. intros H s b s' [= _ <-]. apply H. Qed.
End rules.

Create HintDb leaves discriminated.
#[export] Hint Resolve leaves_ret leaves_halt leaves_gets leaves_get_st leaves_lift : leaves.
#[export] Hint Extern 1 (leaves _ (modify _)) => (apply leaves_modify; intros ?; reflexivity) : leaves.

(** One step along the structure of a command. *)
Ltac leaves_step := first
  [ solve [auto with leaves]
  | match goal with
    | |- leaves _ (_ ≫= _) => apply leaves_bind; [|intros ?]
    | |- leaves _ (let _ := _ in _) => cbv zeta
    | |- leaves _ (if ?b then _ else _) => destruct b
    | |- leaves _ (match ?x with _ => _ end) => destruct x
    end ].
Ltac leaves_all := repeat leaves_step.

(** The part of the state the calls on system memory use, and the least address of the heap. *)
Definition sys_part (s : dl_st) : Z * Z * Z * Z * Z * Z * msegment :=
  (least_addr (gm s), magic (gm s), footprint (gm s), max_footprint (gm s), footprint_limit (gm s), mflags (gm s), DlHeap.seg (gm s)).

Section frame.
Context (gm_addr : Z) (func : string).
Abbreviation keeps := (leaves sys_part).

Lemma keeps_rd f a : keeps (rd f a).
Proof. unfold rd. case_decide; [auto with leaves|by intros s b s' [= _ <-]]. Qed.
Lemma keeps_wr g a : keeps (wr g a).
Proof. unfold wr. case_decide; [auto with leaves|by intros s b s' [= _ <-]]. Qed.
#[local] Hint Resolve keeps_rd keeps_wr : leaves.
Lemma keeps_treebin i : keeps (treebin_at gm_addr i).
Proof. unfold treebin_at. leaves_all. Qed.
Lemma keeps_ok a : keeps (ok_address a).
Proof. unfold ok_address. leaves_all. Qed.
#[local] Hint Resolve keeps_treebin keeps_ok : leaves.
Lemma keeps_abort {A} : keeps (ABORT func : cmd dl_st A).
Proof. apply leaves_halt. Qed.
#[local] Hint Resolve keeps_abort : leaves.
Lemma keeps_rtcheck c : keeps c -> keeps (rtcheck func c).
Proof. intros H. unfold rtcheck. leaves_all. Qed.
#[local] Hint Extern 2 (leaves _ (rtcheck _ _)) => (apply keeps_rtcheck; leaves_all) : leaves.

Lemma keeps_insert_small P S : keeps (insert_small_chunk gm_addr func P S).
Proof. unfold insert_small_chunk. leaves_all. Qed.
Lemma keeps_unlink_small P S : keeps (unlink_small_chunk gm_addr func P S).
Proof. unfold unlink_small_chunk, clear_smallmap, relink. leaves_all. Qed.
Lemma keeps_unlink_first B P I : keeps (unlink_first_small_chunk func B P I).
Proof. unfold unlink_first_small_chunk, clear_smallmap, relink. leaves_all. Qed.
#[local] Hint Resolve keeps_insert_small keeps_unlink_small keeps_unlink_first : leaves.
Lemma keeps_replace_dv P S : keeps (replace_dv gm_addr func P S).
Proof. unfold replace_dv. leaves_all. Qed.
#[local] Hint Resolve keeps_replace_dv : leaves.

Lemma keeps_insert_walk fuel T K X S : keeps (insert_walk func fuel T K X S).
Proof. revert T K. induction fuel as [|fuel IH]; intros T K; cbn [insert_walk]; unfold csize; leaves_all. Qed.
#[local] Hint Resolve keeps_insert_walk : leaves.
Lemma keeps_insert_large X S : keeps (insert_large_chunk gm_addr func X S).
Proof. unfold insert_large_chunk. leaves_all. Qed.
Lemma keeps_descend fuel R RP : keeps (descend fuel R RP).
Proof. revert R RP. induction fuel as [|fuel IH]; intros R RP; cbn [descend]; leaves_all. Qed.
#[local] Hint Resolve keeps_insert_large keeps_descend : leaves.
Lemma keeps_unlink_large X : keeps (unlink_large_chunk gm_addr func X).
Proof. unfold unlink_large_chunk, unchain, take_leaf, relink_parent, relink_children, adopt. leaves_all. Qed.
#[local] Hint Resolve keeps_unlink_large : leaves.

Lemma keeps_insert P S : keeps (insert_chunk gm_addr func P S).
Proof. unfold insert_chunk. leaves_all. Qed.
Lemma keeps_unlink P S : keeps (unlink_chunk gm_addr func P S).
Proof. unfold unlink_chunk. leaves_all. Qed.

Lemma keeps_free_chunk p s : keeps (set_size_and_pinuse_of_free_chunk p s).
Proof. unfold set_size_and_pinuse_of_free_chunk, set_foot. leaves_all. Qed.
Lemma keeps_inuse p s : keeps (set_inuse_and_pinuse p s).
Proof. unfold set_inuse_and_pinuse. leaves_all. Qed.
Lemma keeps_inuse_chunk p s : keeps (set_size_and_pinuse_of_inuse_chunk p s).
Proof. unfold set_size_and_pinuse_of_inuse_chunk. leaves_all. Qed.

Lemma keeps_smallest fuel nb t v rs : keeps (smallest fuel nb t v rs).
Proof.
  revert t v rs. induction fuel as [|fuel IH]; intros t v rs; cbn [smallest]; unfold csize, leftmost_child; leaves_all.
Qed.
Lemma keeps_fit_walk fuel nb t sb v rs rst : keeps (fit_walk fuel nb t sb v rs rst).
Proof. revert t sb v rs rst. induction fuel as [|fuel IH]; intros t sb v rs rst; cbn [fit_walk]; unfold csize; leaves_all. Qed.
End frame.
#[export] Hint Resolve keeps_rd keeps_wr keeps_treebin keeps_ok keeps_abort keeps_insert_small keeps_unlink_small keeps_unlink_first
  keeps_replace_dv keeps_insert_large keeps_unlink_large keeps_insert keeps_unlink keeps_free_chunk keeps_inuse keeps_inuse_chunk
  keeps_smallest keeps_fit_walk : leaves.
#[export] Hint Extern 2 (leaves _ (rtcheck _ _)) => (apply keeps_rtcheck; leaves_all) : leaves.

Section calls.
Context (gm_addr : Z).
Abbreviation keeps := (leaves sys_part).

Lemma keeps_split_chunk func keep v nb rs : (forall p s, keeps (keep p s)) -> keeps (split_chunk gm_addr func keep v nb rs).
Proof. intros H. unfold split_chunk. leaves_all. Qed.
Lemma keeps_tmalloc_large nb : keeps (tmalloc_large gm_addr nb).
Proof. unfold tmalloc_large, fit_large. leaves_all. apply keeps_split_chunk. auto with leaves. Qed.
Lemma keeps_tmalloc_small nb : keeps (tmalloc_small gm_addr nb).
Proof. unfold tmalloc_small, fit_small, csize, leftmost_child. leaves_all. apply keeps_split_chunk. auto with leaves. Qed.
Lemma keeps_use_dv_or_top nb : keeps (use_dv_or_top nb).
Proof. unfold use_dv_or_top. leaves_all. Qed.
#[local] Hint Resolve keeps_tmalloc_large keeps_tmalloc_small keeps_use_dv_or_top : leaves.
Lemma keeps_malloc_fast bytes : keeps (malloc_fast gm_addr bytes).
Proof. unfold malloc_fast, malloc_small. leaves_all. Qed.

Lemma keeps_free_bin p s : keeps (free_bin gm_addr p s).
Proof. unfold free_bin. leaves_all. Qed.
#[local] Hint Resolve keeps_free_bin : leaves.
Lemma keeps_clear_pinuse p : keeps (clear_pinuse p).
Proof. unfold clear_pinuse. leaves_all. Qed.
#[local] Hint Resolve keeps_clear_pinuse : leaves.
Lemma keeps_free_forward p s n : keeps (free_forward gm_addr p s n).
Proof. unfold free_forward, set_free_with_pinuse. leaves_all. Qed.
#[local] Hint Resolve keeps_free_forward : leaves.
Lemma keeps_free_fast mem : keeps (free_fast gm_addr mem).
Proof. unfold free_fast, set_free_with_pinuse. leaves_all. Qed.
Lemma keeps_init_top th p s : keeps (init_top th p s).
Proof. unfold init_top. leaves_all. Qed.
End calls.
