(* ===== verification/DlSys.v ===== *)
(** Memory from the system for the C library's allocator (lib/stdlib/dlmalloc.c): parameters, segments,
    regions mapped for one request, [sys_alloc], [sys_trim] and [release_unused_segments].

    The state is the heap of file DlHeap with the segment records pushed into it, the parameters and the
    memory system, of which the code uses [mmap] and [munmap] ([SystemMemory]). The kernel is built
    with [HAVE_MMAP], and without [HAVE_MORECORE] and [HAVE_MREMAP] (kernel/include/mm/malloc.h): the branches for
    [MORECORE] are compiled out and [CALL_MREMAP] answers [MFAIL]. Loops over the segments take fuel, one unit for
    each segment. *)
From S2P Require Import Prelude DlBins DlHeap DlTree DlFree DlMalloc DlInit.

Record malloc_params := mkParams {
  mp_magic : Z; page_size : Z; granularity : Z; mmap_threshold : Z; trim_threshold : Z; default_mflags : Z }.

Class SystemMemory (W : Type) := {
  CALL_MMAP : Z -> cmd W Z;
  CALL_MUNMAP : Z -> Z -> cmd W Z }.

Definition MFAIL : Z := MAX_SIZE_T.
Definition CALL_MREMAP (addr osz nsz mv : Z) : Z := MFAIL.
Definition USE_MMAP_BIT : Z := 1.
Definition USE_LOCK_BIT : Z := 0.
Definition USE_NONCONTIGUOUS_BIT : Z := 4.
Definition EXTERN_BIT : Z := 8.
Definition DEFAULT_GRANULARITY : Z := 64 * 1024.
Definition DEFAULT_TRIM_THRESHOLD : Z := 2 * 1024 * 1024.
Definition DEFAULT_MMAP_THRESHOLD : Z := 256 * 1024.
Definition MAX_RELEASE_CHECK_RATE : Z := 4095.
Definition malloc_getpagesize : Z := 0x1000.
Definition SIX_SIZE_T_SIZES : Z := 48.
Definition FOUR_SIZE_T_SIZES : Z := 32.
Definition SYS_ALLOC_PADDING : Z := TOP_FOOT_SIZE + MALLOC_ALIGNMENT.
Definition align_as_chunk (a : Z) : Z := u64 (a + align_offset (chunk2mem a)).

Definition set_least_addr v m := MState (smallmap m) (treemap m) (dvsize m) (topsize m) v (dv m) (top m)
  (trim_check m) (release_checks m) (magic m) (treebins m) (footprint m) (max_footprint m) (footprint_limit m) (mflags m) (DlHeap.seg m).
Definition set_magic v m := MState (smallmap m) (treemap m) (dvsize m) (topsize m) (least_addr m) (dv m) (top m)
  (trim_check m) (release_checks m) v (treebins m) (footprint m) (max_footprint m) (footprint_limit m) (mflags m) (DlHeap.seg m).
Definition set_max_footprint v m := MState (smallmap m) (treemap m) (dvsize m) (topsize m) (least_addr m) (dv m) (top m)
  (trim_check m) (release_checks m) (magic m) (treebins m) (footprint m) v (footprint_limit m) (mflags m) (DlHeap.seg m).
Definition set_footprint_limit v m := MState (smallmap m) (treemap m) (dvsize m) (topsize m) (least_addr m) (dv m) (top m)
  (trim_check m) (release_checks m) (magic m) (treebins m) (footprint m) (max_footprint m) v (mflags m) (DlHeap.seg m).
Definition set_mflags v m := MState (smallmap m) (treemap m) (dvsize m) (topsize m) (least_addr m) (dv m) (top m)
  (trim_check m) (release_checks m) (magic m) (treebins m) (footprint m) (max_footprint m) (footprint_limit m) v (DlHeap.seg m).
Definition set_seg v m := MState (smallmap m) (treemap m) (dvsize m) (topsize m) (least_addr m) (dv m) (top m)
  (trim_check m) (release_checks m) (magic m) (treebins m) (footprint m) (max_footprint m) (footprint_limit m) (mflags m) v.
Definition seg_size v (s : msegment) := mkSegment (base s) v (next s) (sflags s).
Definition seg_base v (s : msegment) := mkSegment v (size s) (next s) (sflags s).
Definition seg_next v (s : msegment) := mkSegment (base s) (size s) v (sflags s).

(** [user] holds the bytes of the blocks in use, which [calloc] and [realloc] write. *)
Record dlsys {W : Type} := mkSys { hst : dl_st; segs : gmap Z msegment; mparams : malloc_params; user : Z -> Z; os : W }.
Arguments dlsys W : clear implicits.

Section sys.
Context {W : Type} `{!SystemMemory W}.
(** The address of [_gm_], and of the local whose address seeds [magic]. *)
Context (gm_addr stack_addr : Z).
Abbreviation Y := (cmd (dlsys W)).

Definition on_heap {A} (c : cmd dl_st A) : Y A := fun y =>
  match c (hst y) with
  | Ok (a, h) => Ok (a, mkSys W h (segs y) (mparams y) (user y) (os y))
  | Stop w => Stop w
  end.
Definition on_os {A} (c : cmd W A) : Y A := fun y =>
  match c (os y) with
  | Ok (a, w) => Ok (a, mkSys W (hst y) (segs y) (mparams y) (user y) w)
  | Stop w => Stop w
  end.
Definition set_segs (f : gmap Z msegment -> gmap Z msegment) (y : dlsys W) : dlsys W := mkSys W (hst y) (f (segs y)) (mparams y) (user y) (os y).
Definition set_params (p : malloc_params) (y : dlsys W) : dlsys W := mkSys W (hst y) (segs y) p (user y) (os y).
Definition gm_get {A} (f : malloc_state -> A) : Y A := gets (fun y => f (gm (hst y))).
Definition gm_set (f : malloc_state -> malloc_state) : Y unit := on_heap (modify (set_gm f)).
Definition param {A} (f : malloc_params -> A) : Y A := gets (fun y => f (mparams y)).

(** ** Parameters *)

(** The checks of the configuration are on constants and hold. *)
Definition init_mparams : Y unit :=
  let magic := Z.lxor stack_addr 0x55555555 in
  let flags := USE_LOCK_BIT .| USE_MMAP_BIT .| USE_NONCONTIGUOUS_BIT in
  _ ← modify (set_params (mkParams ((magic .| 8) .& bnot 64 7) malloc_getpagesize DEFAULT_GRANULARITY DEFAULT_MMAP_THRESHOLD DEFAULT_TRIM_THRESHOLD flags));
  gm_set (set_mflags flags).
Definition ensure_initialization : Y unit :=
  m ← param mp_magic; if decide (m <> 0) then mret tt else init_mparams.

Definition align_to (unit x : Z) : Z := u64 (x + (unit - 1)) .& bnot 64 (unit - 1).
Definition page_align (x : Z) : Y Z := g ← param page_size; mret (align_to g x).
Definition granularity_align (x : Z) : Y Z := g ← param granularity; mret (align_to g x).
Definition mmap_align (x : Z) : Y Z := page_align x.

(** ** Segments *)
Definition seg_addr : Z := gm_addr + 888.
Definition rd_seg (sp : Z) : Y msegment :=
  if decide (sp = seg_addr) then gm_get DlHeap.seg
  else y ← get_st; lift_opt (Faulted sp) (segs y !! sp).
Definition wr_seg (sp : Z) (f : msegment -> msegment) : Y unit :=
  if decide (sp = seg_addr) then gm_set (fun g => set_seg (f (DlHeap.seg g)) g)
  else s ← rd_seg sp; modify (set_segs <[sp := f s]>).

Definition segment_holds (s : msegment) (a : Z) : bool := bool_decide (base s <= a /\ a < u64 (base s + size s)).
Definition is_mmapped_segment (s : msegment) : bool := bool_decide (sflags s .& USE_MMAP_BIT <> 0).
Definition is_extern_segment (s : msegment) : bool := bool_decide (sflags s .& EXTERN_BIT <> 0).

(** [for (;;) { if (test) return sp; if ((sp = sp->next) == 0) return 0; }] *)
Fixpoint find_seg (fuel : nat) (test : Z -> msegment -> bool) (sp : Z) : Y Z :=
  match fuel with
  | O => halt OutOfFuel
  | S fuel =>
    s ← rd_seg sp;
    if test sp s then mret sp else if decide (next s = 0) then mret 0 else find_seg fuel test (next s)
  end.
Definition segment_holding (fuel : nat) (addr : Z) : Y Z := find_seg fuel (fun _ s => segment_holds s addr) seg_addr.
Definition has_segment_link (fuel : nat) (ss : msegment) : Y bool :=
  sp ← find_seg fuel (fun sp _ => segment_holds ss sp) seg_addr; mret (bool_decide (sp <> 0)).

(** ** Regions mapped for one request *)
Definition grow_footprint (n : Z) : Y unit :=
  gm_set (fun g => let f := u64 (footprint g + n) in set_footprint f (if decide (max_footprint g < f) then set_max_footprint f g else g)).

(** Whether the footprint may grow by [n]. *)
Definition within_limit (n : Z) : Y bool :=
  g ← gm_get (fun g => g);
  let fp := u64 (footprint g + n) in
  mret (bool_decide (footprint_limit g = 0 \/ ~ (fp <= footprint g \/ footprint_limit g < fp))).

(** The tags of a mapped chunk, with a fencepost behind it. *)
Definition mapped_chunk (p psize : Z) : cmd dl_st unit :=
  _ ← wr (set_head psize) p;
  _ ← wr (set_head FENCEPOST_HEAD) (chunk_plus_offset p psize);
  wr (set_head 0) (chunk_plus_offset p (psize + SIZE_T_SIZE)).

Definition mmap_alloc (nb : Z) : Y Z :=
  mmsize ← mmap_align (u64 (nb + SIX_SIZE_T_SIZES + CHUNK_ALIGN_MASK));
  ok ← within_limit mmsize;
  if ok : bool then
    if decide (nb < mmsize) then
      mm ← on_os (CALL_MMAP mmsize);
      if decide (mm <> MFAIL) then
        let offset := align_offset (chunk2mem mm) in
        let psize := u64 (mmsize - offset - MMAP_FOOT_PAD) in
        let p := u64 (mm + offset) in
        _ ← on_heap (wr (set_prev_foot offset) p);
        _ ← on_heap (mapped_chunk p psize);
        _ ← gm_set (fun g => if decide (least_addr g = 0 \/ mm < least_addr g) then set_least_addr mm g else g);
        _ ← grow_footprint mmsize;
        mret (chunk2mem p)
      else mret 0
    else mret 0
  else mret 0.

(** Without [mremap] a mapped chunk is kept or given up. *)
Definition mmap_resize (oldp nb : Z) (flags : Z) : Y Z :=
  oldsize ← on_heap (rd chunksize oldp);
  if is_small nb then mret 0
  else
    g ← param granularity;
    if decide (u64 (nb + SIZE_T_SIZE) <= oldsize /\ u64 (oldsize - nb) <= u64 (g ≪ 1)) then mret oldp
    else
      offset ← on_heap (rd prev_foot oldp);
      let oldmmsize := u64 (oldsize + offset + MMAP_FOOT_PAD) in
      newmmsize ← mmap_align (u64 (nb + SIX_SIZE_T_SIZES + CHUNK_ALIGN_MASK));
      let cp := CALL_MREMAP (u64 (oldp - offset)) oldmmsize newmmsize flags in
      if decide (cp <> MFAIL) then
        let newp := u64 (cp + offset) in
        let psize := u64 (newmmsize - offset - MMAP_FOOT_PAD) in
        _ ← on_heap (mapped_chunk newp psize);
        _ ← gm_set (fun g => if decide (cp < least_addr g) then set_least_addr cp g else g);
        _ ← grow_footprint (newmmsize - oldmmsize);
        mret newp
      else mret 0.

(** ** New segments *)
(** The request is served from the start of a region below a segment; the rest joins the segment's first chunk. *)
Definition prepend_alloc (newbase oldbase nb : Z) : cmd dl_st Z :=
  let p := align_as_chunk newbase in
  let oldfirst := align_as_chunk oldbase in
  let psize := u64 (oldfirst - p) in
  let q := chunk_plus_offset p nb in
  let qsize := u64 (psize - nb) in
  _ ← set_size_and_pinuse_of_inuse_chunk p nb;
  g ← gets gm;
  _ ← (if decide (oldfirst = top g) then
         let tsize := u64 (topsize g + qsize) in
         _ ← modify (set_gm (set_top q tsize));
         wr (set_head (tsize .| PINUSE_BIT)) q
       else if decide (oldfirst = dv g) then
         let dsize := u64 (dvsize g + qsize) in
         _ ← modify (set_gm (set_dv q dsize));
         set_size_and_pinuse_of_free_chunk q dsize
       else
         h ← rd head oldfirst;
         '(oldfirst, qsize) ← (if decide (h .& INUSE_BITS = PINUSE_BIT) then
             nsize ← rd chunksize oldfirst;
             _ ← unlink_chunk gm_addr "prepend_alloc" oldfirst nsize;
             mret (chunk_plus_offset oldfirst nsize, u64 (qsize + nsize))
           else mret (oldfirst, qsize));
         _ ← set_free_with_pinuse q qsize oldfirst;
         insert_chunk gm_addr "prepend_alloc" q qsize);
  mret (chunk2mem p).

(** [for (;;)] of [add_segment]: fencepost heads every 8 bytes up to the end of the segment. *)
Fixpoint fenceposts (fuel : nat) (p old_end : Z) : cmd dl_st unit :=
  match fuel with
  | O => halt OutOfFuel
  | S fuel =>
    let nextp := chunk_plus_offset p SIZE_T_SIZE in
    _ ← wr (set_head FENCEPOST_HEAD) p;
    if decide (u64 (nextp + 8) < old_end) then fenceposts fuel nextp old_end else mret tt
  end.

Definition add_segment (fuel : nat) (tbase tsize mmapped : Z) : Y unit :=
  old_top ← gm_get top;
  oldsp ← segment_holding fuel old_top;
  olds ← rd_seg oldsp;
  let old_end := u64 (base olds + size olds) in
  let ssize := pad_request SIZEOF_SEGMENT in
  let rawsp := u64 (old_end - (ssize + FOUR_SIZE_T_SIZES + CHUNK_ALIGN_MASK)) in
  let asp := u64 (rawsp + align_offset (chunk2mem rawsp)) in
  let csp := if decide (asp < u64 (old_top + MIN_CHUNK_SIZE)) then old_top else asp in
  let ss := chunk2mem csp in
  let tnext := chunk_plus_offset csp ssize in
  th ← param trim_threshold;
  _ ← on_heap (init_top th tbase (u64 (tsize - TOP_FOOT_SIZE)));
  _ ← on_heap (set_size_and_pinuse_of_inuse_chunk csp ssize);
  cur ← gm_get DlHeap.seg;
  _ ← modify (set_segs <[ss := cur]>);
  _ ← gm_set (set_seg (mkSegment tbase tsize ss mmapped));
  _ ← on_heap (fenceposts (S (Z.to_nat (old_end - tnext))) tnext old_end);
  if decide (csp <> old_top) then
    let psize := u64 (csp - old_top) in
    on_heap (_ ← set_free_with_pinuse old_top psize (chunk_plus_offset old_top psize);
             insert_chunk gm_addr "add_segment" old_top psize)
  else mret tt.

(** The end of [sys_alloc]: the request is cut from the top. *)
Definition split_top_for (nb : Z) : cmd dl_st Z :=
  tops ← gets (fun s => topsize (gm s));
  if decide (nb < tops) then
    let rsize := u64 (tops - nb) in
    p ← gets (fun s => top (gm s));
    let r := chunk_plus_offset p nb in
    _ ← modify (set_gm (set_top r rsize));
    _ ← wr (set_head (rsize .| PINUSE_BIT)) r;
    _ ← set_size_and_pinuse_of_inuse_chunk p nb;
    mret (chunk2mem p)
  else mret 0.

Definition is_initialized (g : malloc_state) : bool := bool_decide (top g <> 0).

(** The first region becomes the heap. *)
Definition first_segment (tbase tsize mmap_flag : Z) : Y unit :=
  magic ← param mp_magic;
  th ← param trim_threshold;
  _ ← gm_set (fun g => let g := if decide (least_addr g = 0 \/ tbase < least_addr g) then set_least_addr tbase g else g in
        set_release_checks MAX_RELEASE_CHECK_RATE (set_magic magic (set_seg (mkSegment tbase tsize (next (DlHeap.seg g)) mmap_flag) g)));
  _ ← on_heap (init_bins gm_addr);
  on_heap (init_top th tbase (u64 (tsize - TOP_FOOT_SIZE))).

(** Whether a segment may be extended by a region with this flag. *)
Definition extendable (s : msegment) (mmap_flag : Z) : bool :=
  negb (is_extern_segment s) && bool_decide (sflags s .& USE_MMAP_BIT = mmap_flag).

(** Another region: it extends the segment of the top, goes below a segment, or becomes a segment of its own.
    [Some mem] answers the request. *)
Definition next_segment (fuel : nat) (tbase tsize mmap_flag nb : Z) : Y (option Z) :=
  sp ← find_seg fuel (fun _ s => bool_decide (tbase = u64 (base s + size s))) seg_addr;
  g ← gm_get (fun g => g);
  th ← param trim_threshold;
  app ← (if decide (sp <> 0) then s ← rd_seg sp; mret (extendable s mmap_flag && segment_holds s (top g)) else mret false);
  if app : bool then
    _ ← wr_seg sp (fun s => seg_size (u64 (size s + tsize)) s);
    _ ← on_heap (init_top th (top g) (u64 (topsize g + tsize)));
    mret None
  else
    _ ← gm_set (fun g => if decide (tbase < least_addr g) then set_least_addr tbase g else g);
    sp ← find_seg fuel (fun _ s => bool_decide (base s = u64 (tbase + tsize))) seg_addr;
    pre ← (if decide (sp <> 0) then s ← rd_seg sp; mret (extendable s mmap_flag) else mret false);
    if pre : bool then
      s ← rd_seg sp;
      _ ← wr_seg sp (fun s => seg_size (u64 (size s + tsize)) (seg_base tbase s));
      mem ← on_heap (prepend_alloc tbase (base s) nb);
      mret (Some mem)
    else
      _ ← add_segment fuel tbase tsize mmap_flag;
      mret None.

Definition sys_alloc (fuel : nat) (nb : Z) : Y Z :=
  _ ← ensure_initialization;
  g ← gm_get (fun g => g);
  thr ← param mmap_threshold;
  mem ← (if decide (mflags g .& USE_MMAP_BIT <> 0 /\ thr <= nb /\ topsize g <> 0) then mmap_alloc nb else mret 0);
  if decide (mem <> 0) then mret mem
  else
    asize ← granularity_align (u64 (nb + SYS_ALLOC_PADDING));
    if decide (asize <= nb) then mret 0
    else
      ok ← within_limit asize;
      if ok : bool then
        mp ← on_os (CALL_MMAP asize);
        if decide (mp <> MFAIL) then
          _ ← grow_footprint asize;
          g ← gm_get (fun g => g);
          served ← (if is_initialized g then next_segment fuel mp asize USE_MMAP_BIT nb
                    else _ ← first_segment mp asize USE_MMAP_BIT; mret None);
          match served with
          | Some mem => mret mem
          | None => on_heap (split_top_for nb)
          end
        else mret 0
      else mret 0.

(** ** Giving memory back *)

(** Segments that are one free chunk are unmapped and their records unlinked. Answers what was released and the
    number of segments. *)
Fixpoint release_loop (fuel : nat) (pred sp released nsegs : Z) : Y (Z * Z) :=
  if decide (sp = 0) then mret (released, nsegs)
  else match fuel with
  | O => halt OutOfFuel
  | S fuel =>
    s ← rd_seg sp;
    let nsegs := nsegs + 1 in
    '(pred', released) ← (if is_mmapped_segment s && negb (is_extern_segment s) then
        let p := align_as_chunk (base s) in
        c ← on_heap (gets (fun h => get (mem h) p));
        let psize := chunksize c in
        if decide (is_inuse c = false /\ u64 (base s + size s - TOP_FOOT_SIZE) <= u64 (p + psize)) then
          d ← gm_get dv;
          _ ← (if decide (p = d) then gm_set (set_dv 0 0) else on_heap (unlink_large_chunk gm_addr "release_unused_segments" p));
          r ← on_os (CALL_MUNMAP (base s) (size s));
          if decide (r = 0) then
            _ ← gm_set (fun g => set_footprint (u64 (footprint g - size s)) g);
            _ ← wr_seg pred (seg_next (next s));
            mret (pred, u64 (released + size s))
          else
            _ ← on_heap (insert_large_chunk gm_addr "release_unused_segments" p psize);
            mret (sp, released)
        else mret (sp, released)
      else mret (sp, released));
    release_loop fuel pred' (next s) released nsegs
  end.

Definition release_unused_segments (fuel : nat) : Y Z :=
  s ← gm_get DlHeap.seg;
  '(released, nsegs) ← release_loop fuel seg_addr (next s) 0 0;
  _ ← gm_set (set_release_checks (if decide (MAX_RELEASE_CHECK_RATE < nsegs) then nsegs else MAX_RELEASE_CHECK_RATE));
  mret released.

(** How much of the top [sys_trim] gives back: units of the granularity, keeping at least [pad]. *)
Definition trim_extra (unit topsize pad : Z) : Z := u64 (u64 ((u64 (topsize - pad + (unit - 1)) / unit) - 1) * unit).

(** The tail of the segment that holds the top is unmapped, unless another segment's record is in it. *)
Definition unmap_tail (fuel : nat) (sp extra : Z) : Y Z :=
  s ← rd_seg sp;
  if negb (is_extern_segment s) && is_mmapped_segment s && bool_decide (extra <= size s) then
    linked ← has_segment_link fuel s;
    if linked : bool then mret 0
    else
      let newsize := u64 (size s - extra) in
      if decide (CALL_MREMAP (base s) (size s) newsize 0 <> MFAIL) then mret extra
      else r ← on_os (CALL_MUNMAP (u64 (base s + newsize)) extra); mret (if decide (r = 0) then extra else 0)
  else mret 0.

Definition trim_top (fuel : nat) (pad : Z) : Y Z :=
  g ← gm_get (fun g => g);
  unit ← param granularity;
  sp ← segment_holding fuel (top g);
  released ← unmap_tail fuel sp (trim_extra unit (topsize g) pad);
  if decide (released <> 0) then
    th ← param trim_threshold;
    _ ← wr_seg sp (fun s => seg_size (u64 (size s - released)) s);
    _ ← gm_set (fun g => set_footprint (u64 (footprint g - released)) g);
    _ ← on_heap (init_top th (top g) (u64 (topsize g - released)));
    mret released
  else mret 0.

Definition sys_trim (fuel : nat) (pad : Z) : Y Z :=
  _ ← ensure_initialization;
  g ← gm_get (fun g => g);
  if decide (pad < MAX_REQUEST /\ top g <> 0) then
    let pad := u64 (pad + TOP_FOOT_SIZE) in
    released ← (if decide (pad < topsize g) then trim_top fuel pad else mret 0);
    r ← release_unused_segments fuel;
    let released := u64 (released + r) in
    _ ← gm_set (fun g => if decide (released = 0 /\ trim_check g < topsize g) then set_trim_check MAX_SIZE_T g else g);
    mret (if decide (released <> 0) then 1 else 0)
  else mret 0.

(** ** [dlmalloc] and [dlfree] *)
Definition dlmalloc (fuel : nat) (bytes : Z) : Y Z :=
  r ← on_heap (malloc_fast gm_addr bytes);
  match r with inl mem => mret mem | inr nb => sys_alloc fuel nb end.

Definition dlfree (fuel : nat) (mem : Z) : Y unit :=
  a ← on_heap (free_fast gm_addr mem);
  match a with
  | Done => mret tt
  | Trim => _ ← sys_trim fuel 0; mret tt
  | Release => _ ← release_unused_segments fuel; mret tt
  | Unmap b len =>
    r ← on_os (CALL_MUNMAP b len);
    if decide (r = 0) then gm_set (fun g => set_footprint (u64 (footprint g - len)) g) else mret tt
  end.
End sys.
