(* ===== verification/DlGrow.v ===== *)
(** A heap of the C library's allocator whose top grows or shrinks: [init_top] run again on the top
    (lib/stdlib/dlmalloc.c, [sys_alloc] and [sys_trim]) makes the row of blocks longer or shorter, and leaves
    every other block where it is. *)
From S2P Require Import Prelude DlBins DlHeap DlTree DlLarge DlSmall DlFree DlMalloc DlLayout DlCore DlAlloc DlServe DlRequest DlRelease DlInit DlFrame DlSys.

Section grow.
Context (gm_addr : Z).
Abbreviation core := (heap_core gm_addr).
Abbreviation inv := (heap_inv gm_addr).

(** The row with a top of another size. *)
Lemma retop_core s s' a0 l sz sz' : let x := a0 + total l in core s a0 (l ++ [(sz, Top)]) -> sz' mod 16 = 0 -> 0 < sz' ->
  total l + sz' < MAX_TREE_SIZE -> x + sz' < 2 ^ 63 -> (forall y, header gm_addr y -> ~ (a0 <= y < x + sz')) ->
  top (gm s') = x -> topsize (gm s') = sz' -> least_addr (gm s') = least_addr (gm s) -> head (get (mem s') x) = mkhead sz' true false ->
  (forall y, y < x -> head (get (mem s') y) = head (get (mem s) y) /\ prev_foot (get (mem s') y) = prev_foot (get (mem s) y)) ->
  core s' a0 (l ++ [(sz', Top)]).
Proof.
  intros x H Hm Hp Hs Hr Hh E1 E2 E3 Hx Hl. destruct (core_block _ _ _ _ _ _ _ H) as [_ _ Hleft _ _ _ _ _ Hpf _ _ _].
  specialize (Hpf ltac:(done)). pose proof (hc_top _ _ _ _ H) as (bt & Ebt & _ & Hnt). apply app_inj_tail in Ebt as [<- _].
  destruct H as [_ _ (Hb1 & Hb2 & Hb3) _ _]. split; rewrite ?total_app, ?E3; simpl; rewrite ?Z.add_0_r; try done.
  - apply layout_app. split; [apply (layout_frame (mem s)); [|done]; intros y Hy; apply Hl; unfold x; lia|].
    fold x. simpl. rewrite Hpf. split; [done|]. split; [done|]. split; [|done]. by split.
  - exists l. by rewrite E1, E2.
  - split; [done|]. unfold x in *. lia.
  - rewrite Z.add_assoc. exact Hh.
Qed.

(** What [heap_inv] depends on in [malloc_state]. *)
Definition same_heap (g g' : malloc_state) : Prop := same_row g g' /\ smallmap g' = smallmap g /\ treemap g' = treemap g /\ treebins g' = treebins g /\ dv g' = dv g /\ dvsize g' = dvsize g.

Lemma inv_gm s g a0 bs : same_heap (gm s) g -> inv s a0 bs -> inv (mkDl g (mem s)) a0 bs.
Proof.
  intros ((E1 & E2 & E3) & E4 & E5 & E6 & E7 & E8) [H1 H2 H3]. split.
  - by apply (core_frame _ s).
  - by apply (free_heads gm_addr s).
  - unfold dv_ok. simpl. by rewrite E7, E8.
Qed.

(** ** The top made larger or smaller *)

Lemma align_offset_0 p : 0 <= p < 2 ^ 63 -> p mod 16 = 0 -> align_offset (chunk2mem p) = 0.
Proof.
  intros Hp Hm. unfold align_offset, chunk2mem. rewrite wrap_small by (unfold fits; lia). change CHUNK_ALIGN_MASK with (Z.ones 4).
  rewrite land_low by lia. rewrite decide_True; [done|zlia].
Qed.

Lemma init_top_again th s a0 l sz sz' : inv s a0 (l ++ [(sz, Top)]) -> sz' mod 16 = 0 -> 0 < sz' -> total l + sz' < MAX_TREE_SIZE ->
  a0 + total l + sz' < 2 ^ 63 -> (forall y, header gm_addr y -> ~ (a0 <= y < a0 + total l + sz')) ->
  exists s', init_top th (a0 + total l) sz' s = Ok (tt, s') /\ inv s' a0 (l ++ [(sz', Top)]) /\ gm s' = set_trim_check th (set_top (a0 + total l) sz' (gm s)).
Proof.
  intros H Hm Hp Hs Hr Hh. pose proof (hi_core _ _ _ _ H) as Hc. destruct (core_block _ _ _ _ _ _ _ Hc) as [_ _ _ _ _ _ Hrg _ _ _ _ _].
  set (x := a0 + total l) in *. change MAX_TREE_SIZE with (2 ^ 40) in Hs. unfold init_top. rewrite align_offset_0 by lia. cbv zeta.
  rewrite Z.add_0_r, Z.sub_0_r, !(wrap_small 64) by (unfold fits; lia). unfold chunk_plus_offset. rewrite wrap_small by (unfold fits; lia).
  rewrite modify_bind, !wr_bind by lia. eexists. split; [done|]. split; [|done]. match goal with |- inv ?t _ _ => set (s' := t) end.
  assert (Hc' : core s' a0 (l ++ [(sz', Top)])).
  { apply (retop_core s s' a0 l sz sz' Hc); try done; fold x; simpl.
    - rewrite get_upd_ne, get_upd_eq by lia. cbn. by apply head_free.
    - intros y Hy. by rewrite !get_upd_ne by lia. }
  assert (Er : forall K z, K <> Top -> of_kind K a0 (l ++ [(z, Top)]) = of_kind K a0 l).
  { intros K z HK. rewrite of_kind_app. simpl. by rewrite decide_False, app_nil_r by done. }
  destruct H as [_ Hf Hd]. rewrite Er in Hf, Hd by done. split; [done| |]; rewrite Er by done.
  - apply (free_core _ s s' a0 _ _ _ Hc Hc'); [|intros c Hin; by rewrite !Er|done].
    split; try done. intros y. simpl. by rewrite !(get_upd_field links) by done.
  - exact Hd.
Qed.

(** [sys_alloc] cuts the request from the top. *)
Lemma split_top_for_ok s a0 bs nb : inv s a0 bs -> nb mod 16 = 0 -> MIN_CHUNK_SIZE <= nb < topsize (gm s) ->
  exists s' m, split_top_for nb s = Ok (m, s') /\ granted gm_addr a0 bs nb s' m /\ m <> 0.
Proof.
  intros H Hm Hnb. pose proof (split_top gm_addr s a0 bs nb H Hm Hnb) as Hg. cbv zeta in Hg. destruct (top_block _ s a0 bs H) as (l & Ebs & Et).
  rewrite Ebs in H. destruct (core_block _ _ _ _ _ _ _ (hi_core _ _ _ _ H)) as [_ _ _ _ _ _ Hrg _ _ _ _ _]. rewrite <-Et in Hrg. simpl in Hrg.
  change MAX_TREE_SIZE with (2 ^ 40) in Hrg. rewrite min_chunk_size in Hnb. unfold split_top_for. rewrite gets_bind, decide_True by lia. cbv zeta. rewrite gets_bind.
  unfold set_size_and_pinuse_of_inuse_chunk, chunk_plus_offset. rewrite !wrap_small by (unfold fits; lia). rewrite modify_bind, !wr_bind by (simpl; lia).
  eexists _, _. split; [done|]. split; [exact Hg|]. unfold chunk2mem. rewrite wrap_small by (unfold fits; lia). lia.
Qed.
End grow.

(** ** One segment *)
Section single.
Context {W : Type} `{!SystemMemory W}.
Context (gm_addr stack_addr : Z) (Hgm : 0 < gm_addr).
Abbreviation inv := (heap_inv gm_addr).
Abbreviation Y := (cmd (dlsys W)).

(** Parameters as [init_mparams] and [mallopt] leave them. *)
Definition ready (p : malloc_params) : Prop := mp_magic p <> 0 /\ exists k, 4 <= k < 40 /\ granularity p = 2 ^ k.

(** Addresses a heap of [n] bytes at [a0] can have. *)
Definition room (a0 n : Z) : Prop := n <= MAX_TREE_SIZE /\ a0 + n < 2 ^ 63 /\
  forall y, header gm_addr y \/ y = seg_addr gm_addr -> ~ (a0 <= y < a0 + n).

(** The heap is one segment, mapped at [a0]: a row of blocks, and [TOP_FOOT_SIZE] bytes behind the top. *)
Record one_segment (y : dlsys W) (a0 : Z) (bs : blocks) : Prop := {
  os_heap : inv (hst y) a0 bs;
  os_seg : DlHeap.seg (gm (hst y)) = mkSegment a0 (total bs + TOP_FOOT_SIZE) 0 USE_MMAP_BIT;
  os_params : ready (mparams y);
  os_room : room a0 (total bs + TOP_FOOT_SIZE) }.

Definition with_hst (h : dl_st) (y : dlsys W) : dlsys W := mkSys W h (segs y) (mparams y) (user y) (os y).
Definition with_os (w : W) (y : dlsys W) : dlsys W := mkSys W (hst y) (segs y) (mparams y) (user y) w.

Lemma on_heap_bind {A B} (c : cmd dl_st A) (k : A -> Y B) y a h : c (hst y) = Ok (a, h) -> (on_heap c ≫= k) y = k a (with_hst h y).
Proof. intros H. unfold mbind, cmd_bind, on_heap. by rewrite H. Qed.
Lemma on_heap_ok {A} (c : cmd dl_st A) y a h : c (hst y) = Ok (a, h) -> on_heap c y = Ok (a, with_hst h y).
Proof. intros H. unfold on_heap. by rewrite H. Qed.
Lemma on_os_bind {A B} (c : cmd W A) (k : A -> Y B) y a w : c (os y) = Ok (a, w) -> (on_os c ≫= k) y = k a (with_os w y).
Proof. intros H. unfold mbind, cmd_bind, on_os. by rewrite H. Qed.
Lemma gm_get_bind {A B} (f : malloc_state -> A) (k : A -> Y B) y : (gm_get f ≫= k) y = k (f (gm (hst y))) y.
Proof. done. Qed.
Lemma gm_set_bind {B} f (k : unit -> Y B) y : (gm_set f ≫= k) y = k tt (with_hst (set_gm f (hst y)) y).
Proof. done. Qed.
Lemma param_bind {A B} (f : malloc_params -> A) (k : A -> Y B) y : (param f ≫= k) y = k (f (mparams y)) y.
Proof. done. Qed.
Lemma initialized_bind {B} (k : unit -> Y B) y : ready (mparams y) -> (ensure_initialization stack_addr ≫= k) y = k tt y.
Proof. intros [H _]. unfold ensure_initialization. rewrite bind_assoc, param_bind. by rewrite decide_True. Qed.

Lemma align_to_pow k x : 0 <= k < 40 -> 0 <= x < 2 ^ 50 ->
  let a := align_to (2 ^ k) x in x <= a < x + 2 ^ k /\ a mod 2 ^ k = 0.
Proof.
  intros Hk Hx. assert (0 < 2 ^ k < 2 ^ 40) by (split; [apply Z.pow_pos_nonneg; lia|apply Z.pow_lt_mono_r; lia]).
  cbv zeta. unfold align_to. rewrite <-(Z.pred_succ (2 ^ k - 1)). replace (Z.pred (Z.succ (2 ^ k - 1))) with (Z.ones k) by (rewrite Z.ones_equiv; lia).
  rewrite (wrap_small 64) by (unfold fits; rewrite Z.ones_equiv; lia). rewrite land_bnot_ones by (unfold fits; rewrite ?Z.ones_equiv; lia).
  rewrite Z.ones_equiv. set (g := 2 ^ k) in *. split; [|apply Z_mod_mult]. Z.div_mod_to_equations. nia.
Qed.

Lemma pow_mod16 k a : 4 <= k -> a mod 2 ^ k = 0 -> a mod 16 = 0.
Proof. intros Hk Ha. replace (2 ^ k) with (16 * 2 ^ (k - 4)) in Ha by (rewrite <-(Z.pow_add_r 2 4) by lia; f_equal; lia).
  assert (0 < 2 ^ (k - 4)) by (apply Z.pow_pos_nonneg; lia). apply Z.mod_divide in Ha; [|lia]. destruct Ha as [c ->]. rewrite Z.mul_assoc, (Z.mul_comm _ 16), <-Z.mul_assoc, Z.mul_comm.
  replace (c * (16 * 2 ^ (k - 4))) with (c * 2 ^ (k - 4) * 16) by lia. apply Z_mod_mult.
Qed.

Lemma top_foot_size : TOP_FOOT_SIZE = 80.
Proof. reflexivity. Qed.

(** The search finds the segment of the heap, or nothing. *)
Lemma find_seg_one fuel test y a0 bs : one_segment y a0 bs -> (0 < fuel)%nat -> find_seg gm_addr fuel test (seg_addr gm_addr) y =
  Ok (if test (seg_addr gm_addr) (DlHeap.seg (gm (hst y))) then seg_addr gm_addr else 0, y).
Proof.
  intros H Hf. destruct fuel as [|fuel]; [lia|]. cbn [find_seg]. unfold rd_seg. rewrite decide_True, gm_get_bind by done.
  destruct (test _ _); [done|]. rewrite (os_seg _ _ _ H). by rewrite decide_True by done.
Qed.

Lemma within_limit_ok n (y : dlsys W) : exists b, within_limit n y = Ok (b, y) /\ (b = false -> footprint_limit (gm (hst y)) <> 0).
Proof. unfold within_limit. rewrite gm_get_bind. eexists. split; [done|]. intros H%bool_decide_eq_false. tauto. Qed.

Lemma seg_addr_pos : seg_addr gm_addr <> 0.
Proof. unfold seg_addr. lia. Qed.

Lemma extendable_mapped b n nx : extendable (mkSegment b n nx USE_MMAP_BIT) USE_MMAP_BIT = true.
Proof. done. Qed.

(** A region behind the segment makes it longer. *)
Lemma extend_ok fuel y a0 bs tsize nb : one_segment y a0 bs -> (0 < fuel)%nat -> tsize mod 16 = 0 -> 0 < tsize ->
  room a0 (total bs + TOP_FOOT_SIZE + tsize) -> exists y' l, bs = l ++ [(topsize (gm (hst y)), Top)] /\
    next_segment gm_addr fuel (a0 + total bs + TOP_FOOT_SIZE) tsize USE_MMAP_BIT nb y = Ok (None, y') /\
    one_segment y' a0 (l ++ [(topsize (gm (hst y)) + tsize, Top)]) /\ mparams y' = mparams y /\ os y' = os y.
Proof.
  intros H Hf Hm Hp (Hr1 & Hr2 & Hr3). pose proof (os_heap _ _ _ H) as Hi. destruct (top_block _ _ _ _ Hi) as (l & Ebs & Et).
  rewrite Ebs in Hi. pose proof (core_block _ _ _ _ _ _ _ (hi_core _ _ _ _ Hi)) as [_ (Hm1 & Hp1 & _) _ _ _ _ Hrg _ _ _ _ _]. simpl in Hm1, Hp1.
  set (z := topsize (gm (hst y))) in *. assert (Etot : total bs = total l + z) by (rewrite Ebs, total_app; simpl; lia).
  rewrite top_foot_size in *. change MAX_TREE_SIZE with (2 ^ 40) in Hr1. pose proof (row_nonneg l ltac:(eapply layout_ok, core_block; [apply Hi])) as Hl0.
  unfold next_segment. rewrite (bind_ok _ _ _ _ _ (find_seg_one fuel _ y a0 bs H Hf)). rewrite (os_seg _ _ _ H), top_foot_size. cbn [base size].
  rewrite (wrap_small 64) by (unfold fits; lia). rewrite bool_decide_eq_true_2 by lia. rewrite gm_get_bind, param_bind.
  rewrite (decide_True (P := seg_addr gm_addr <> 0)) by apply seg_addr_pos. unfold rd_seg. rewrite decide_True by done.
  rewrite bind_assoc, gm_get_bind, ret_bind, (os_seg _ _ _ H), top_foot_size, extendable_mapped. unfold segment_holds. cbn [base size andb].
  rewrite (wrap_small 64), Et by (unfold fits; lia). rewrite (bool_decide_eq_true_2 (a0 <= _ /\ _)) by lia.
  unfold wr_seg. rewrite decide_True by done. rewrite gm_set_bind. set (y1 := with_hst _ y).
  assert (Hi1 : inv (hst y1) a0 (l ++ [(z, Top)])) by (apply (inv_gm gm_addr (hst y)); [done|exact Hi]).
  fold z. rewrite (wrap_small 64 (z + tsize)) by (unfold fits; lia).
  destruct (init_top_again gm_addr (trim_threshold (mparams y)) (hst y1) a0 l z (z + tsize) Hi1) as (h & Hrun & Hi2 & Hg); [zlia|lia| |lia| |].
  { change MAX_TREE_SIZE with (2 ^ 40). lia. }
  { intros x Hx. specialize (Hr3 x (or_introl Hx)). lia. }
  rewrite (on_heap_bind _ _ _ _ _ Hrun). eexists _, l. split; [done|]. split; [done|]. split; [|done].
  assert (Etot' : total (l ++ [(z + tsize, Top)]) + 80 = total bs + 80 + tsize) by (rewrite total_app; simpl; lia).
  split; rewrite ?top_foot_size, ?Etot'; try done; [|apply H].
  cbn [hst with_hst]. rewrite Hg. cbn. rewrite (os_seg _ _ _ H), top_foot_size. cbn. rewrite wrap_small by (unfold fits; lia). done.
Qed.

Lemma one_gm y a0 bs g : one_segment y a0 bs -> same_heap (gm (hst y)) g -> DlHeap.seg g = DlHeap.seg (gm (hst y)) ->
  one_segment (with_hst (mkDl g (mem (hst y))) y) a0 bs.
Proof. intros [H1 H2 H3 H4] Hs Es. split; try done; [by apply inv_gm|]. simpl. by rewrite Es. Qed.

Lemma one_os y a0 bs w : one_segment y a0 bs -> one_segment (with_os w y) a0 bs.
Proof. intros [H1 H2 H3 H4]. by split. Qed.

Lemma one_hst y a0 bs h bs' : one_segment y a0 bs -> inv h a0 bs' -> sys_part h = sys_part (hst y) -> total bs' = total bs ->
  one_segment (with_hst h y) a0 bs'.
Proof. intros [H1 H2 H3 H4] Hi [= _ _ _ _ _ _ Es] Et. split; rewrite ?Et; try done. simpl. by rewrite Es. Qed.

Lemma grow_footprint_ok n y a0 bs : one_segment y a0 bs -> exists g, grow_footprint n y = Ok (tt, with_hst (mkDl g (mem (hst y))) y) /\
  one_segment (with_hst (mkDl g (mem (hst y))) y) a0 bs.
Proof. intros H. eexists. split; [done|]. apply one_gm; [done| |]; simpl; by case_decide. Qed.

Lemma keeps_split_top_for nb : leaves sys_part (split_top_for nb).
Proof. unfold split_top_for. leaves_all. Qed.

Lemma core_top_pos s a0 l z : heap_core gm_addr s a0 (l ++ [(z, Top)]) -> 0 < z /\ 0 < a0 + total l.
Proof. intros H. destruct (core_block _ _ _ _ _ _ _ H) as [_ (_ & Hp & _) _ _ _ _ Hrg _ _ _ _ _]. simpl in Hp. lia. Qed.

(** One more block is in use than in [bs], of at least [nb] bytes, in a row of length [n]. *)
Definition served (y' : dlsys W) (a0 : Z) (bs : blocks) (n nb m : Z) : Prop := exists bs' p sz, one_segment y' a0 bs' /\ total bs' = n /\
  m = chunk2mem p /\ nb <= sz < nb + MIN_CHUNK_SIZE /\ of_kind InUse a0 bs' ≡ₚ (p, sz) :: of_kind InUse a0 bs.

(** What [CALL_MMAP] may answer: failure, or the region behind the segment. *)
Definition contiguous (a0 : Z) (bs : blocks) (n r : Z) : Prop :=
  r = MFAIL \/ r = a0 + total bs + TOP_FOOT_SIZE /\ room a0 (total bs + TOP_FOOT_SIZE + n).

Definition region_size (p : malloc_params) (nb : Z) : Z := align_to (granularity p) (nb + SYS_ALLOC_PADDING).

Lemma region_size_ok p nb : ready p -> MIN_CHUNK_SIZE <= nb < MAX_TREE_SIZE ->
  nb + 96 <= region_size p nb < 2 ^ 50 /\ region_size p nb mod 16 = 0 /\ u64 (nb + SYS_ALLOC_PADDING) = nb + 96.
Proof.
  intros (_ & k & Hk & Eg) Hnb. rewrite min_chunk_size in Hnb. change MAX_TREE_SIZE with (2 ^ 40) in Hnb. unfold region_size. rewrite Eg. change SYS_ALLOC_PADDING with 96.
  destruct (align_to_pow k (nb + 96)) as [Ha1 Ha2]; [lia|lia|]. assert (2 ^ k < 2 ^ 40) by (apply Z.pow_lt_mono_r; lia).
  split; [lia|]. split; [apply (pow_mod16 k); [lia|done]|]. apply wrap_small. unfold fits. lia.
Qed.

(** The request is cut from a top that is large enough. *)
Lemma finish_top y a0 bs nb : one_segment y a0 bs -> nb mod 16 = 0 -> MIN_CHUNK_SIZE <= nb < topsize (gm (hst y)) ->
  exists m y', on_heap (split_top_for nb) y = Ok (m, y') /\ mparams y' = mparams y /\ os y' = os y /\ m <> 0 /\ served y' a0 bs (total bs) nb m.
Proof.
  intros H Hm Hnb. destruct (split_top_for_ok gm_addr (hst y) a0 _ nb (os_heap _ _ _ H) Hm Hnb) as (h & m & Hrun & Hg & Hmz).
  exists m, (with_hst h y). split; [by apply on_heap_ok|]. split; [done|]. split; [done|]. split; [done|].
  destruct Hg as (bs' & p & sz & Hi & Etot & Em & Hsz & Hu). exists bs', p, sz. split; [|done].
  apply (one_hst _ _ _ _ _ H); try done. by apply (keeps_split_top_for nb _ _ _ Hrun).
Qed.

Lemma sys_alloc_ok fuel y a0 bs nb r w : one_segment y a0 bs -> (0 < fuel)%nat -> nb mod 16 = 0 -> MIN_CHUNK_SIZE <= nb < MAX_TREE_SIZE ->
  nb < mmap_threshold (mparams y) -> CALL_MMAP (region_size (mparams y) nb) (os y) = Ok (r, w) -> contiguous a0 bs (region_size (mparams y) nb) r ->
  exists m y', sys_alloc gm_addr stack_addr fuel nb y = Ok (m, y') /\ mparams y' = mparams y /\
    (m = 0 /\ hst y' = hst y /\ (os y' = os y /\ footprint_limit (gm (hst y)) <> 0 \/ r = MFAIL /\ os y' = w) \/ m <> 0 /\ served y' a0 bs (total bs + region_size (mparams y) nb) nb m /\ os y' = w /\ r <> MFAIL).
Proof.
  intros H Hf Hm Hnb Hthr Hmm Hr. destruct (region_size_ok _ _ (os_params _ _ _ H) Hnb) as (Ha & Ham & Ew).
  unfold sys_alloc. rewrite (initialized_bind _ y (os_params _ _ _ H)), gm_get_bind, param_bind.
  rewrite (decide_False (P := _ /\ _ <= _ /\ _)), ret_bind by (intros (_ & ? & _); lia).
  rewrite (decide_False (P := 0 <> 0)) by lia. unfold granularity_align. rewrite bind_assoc, param_bind, ret_bind, Ew.
  change (align_to (granularity (mparams y)) (nb + 96)) with (region_size (mparams y) nb). set (n := region_size _ _) in *.
  rewrite (decide_False (P := n <= nb)) by lia. destruct (within_limit_ok n y) as (b & Hwl & Hlim). rewrite (bind_ok _ _ _ _ _ Hwl). destruct b.
  2: { exists 0, y. split; [done|]. split; [done|]. left. split; [done|]. split; [done|left; auto]. }
  rewrite (on_os_bind _ _ _ _ _ Hmm). destruct Hr as [->|[-> Hroom]].
  { rewrite decide_False by tauto. eexists _, _. split; [done|]. split; [done|]. left. split; [done|]. split; [done|by right]. }
  assert (Hne : a0 + total bs + TOP_FOOT_SIZE <> MFAIL) by (rewrite min_chunk_size in Hnb; destruct Hroom as (_ & Hr & _); change MFAIL with (2 ^ 64 - 1); lia).
  rewrite decide_True by done. apply (one_os _ _ _ w) in H. destruct (grow_footprint_ok n _ a0 bs H) as (g & Hrun & H'). rewrite (bind_ok _ _ _ _ _ Hrun).
  set (y1 := with_hst _ _) in *. rewrite gm_get_bind. destruct (hc_top _ _ _ _ (hi_core _ _ _ _ (os_heap _ _ _ H'))) as (l0 & Ebs & Et & _).
  destruct (extend_ok fuel y1 a0 bs n nb H' Hf) as (y2 & l & Ebs' & Hrun2 & H2 & Hp2 & Ho2); [done|rewrite min_chunk_size in Hnb; lia|exact Hroom|].
  assert (Hz : 0 < topsize (gm (hst y1)) /\ 0 < a0 + total l0) by (pose proof (hi_core _ _ _ _ (os_heap _ _ _ H')) as Hc; rewrite Ebs in Hc; by apply core_top_pos in Hc).
  assert (Hinit : is_initialized (gm (hst y1)) = true) by (apply bool_decide_eq_true_2; lia). rewrite Hinit, (bind_ok _ _ _ _ _ Hrun2).
  set (z := topsize (gm (hst y1))) in *. assert (Ez : topsize (gm (hst y2)) = z + n).
  { destruct (hc_top _ _ _ _ (hi_core _ _ _ _ (os_heap _ _ _ H2))) as (l2 & E & _). by apply app_inj_tail in E as [_ [= E]]. }
  destruct (finish_top y2 a0 _ nb H2 Hm) as (m & y' & Hrun3 & Ep & Eo & Hmz & Hs); [rewrite Ez; lia|].
  exists m, y'. split; [done|]. split; [by rewrite Ep, Hp2|]. right. split; [done|]. split; [|by rewrite Eo, Ho2].
  destruct Hs as (bs' & p & sz & Hi & Etot & Em & Hsz & Hu). exists bs', p, sz. split; [done|].
  split; [rewrite Etot, Ebs', !total_app; simpl; lia|]. split; [done|]. split; [done|]. by rewrite Hu, Ebs', !of_kind_app.
Qed.

(** ** Giving the tail back *)

(** Whole units are given back, and more than the foot is kept. *)
Lemma trim_extra_ok k z : 4 <= k < 40 -> TOP_FOOT_SIZE < z < 2 ^ 41 ->
  let e := trim_extra (2 ^ k) z TOP_FOOT_SIZE in 0 <= e /\ TOP_FOOT_SIZE < z - e /\ z - e <= TOP_FOOT_SIZE + 2 ^ k /\ e mod 16 = 0.
Proof.
  intros Hk Hz. rewrite top_foot_size in *. assert (0 < 2 ^ k < 2 ^ 40) by (split; [apply Z.pow_pos_nonneg; lia|apply Z.pow_lt_mono_r; lia]).
  cbv zeta. unfold trim_extra. rewrite (wrap_small 64 (z - 80 + _)) by (unfold fits; lia).
  set (q := (z - 80 + (2 ^ k - 1)) / 2 ^ k). assert (Hq : 1 <= q /\ q * 2 ^ k < z - 80 + 2 ^ k /\ z - 80 <= q * 2 ^ k).
  { unfold q. set (g := 2 ^ k) in *. Z.div_mod_to_equations. nia. }
  rewrite (wrap_small 64 (q - 1)) by (unfold fits; nia). rewrite wrap_small by (unfold fits; nia).
  split; [nia|]. split; [nia|]. split; [nia|]. apply (pow_mod16 k); [lia|]. apply Z_mod_mult.
Qed.

Lemma release_none fuel y a0 bs : one_segment y a0 bs -> exists y', release_unused_segments gm_addr fuel y = Ok (0, y') /\
  one_segment y' a0 bs /\ mparams y' = mparams y /\ os y' = os y /\ topsize (gm (hst y')) = topsize (gm (hst y)).
Proof.
  intros H. unfold release_unused_segments. rewrite gm_get_bind, (os_seg _ _ _ H). cbn [next].
  erewrite bind_ok by (destruct fuel; cbn [release_loop]; by rewrite decide_True). cbv beta iota. rewrite gm_set_bind. eexists. split; [done|].
  split; [|done]. by apply one_gm.
Qed.

(** The system answers when the tail of the segment is given back. *)
Definition tail_unmaps (y : dlsys W) (a0 : Z) (bs : blocks) : Prop := forall n, 0 <= n <= total bs -> n mod 16 = 0 ->
  exists r w, CALL_MUNMAP (a0 + total bs + TOP_FOOT_SIZE - n) n (os y) = Ok (r, w).

(** The row lost the tail that was unmapped, if any. *)
Definition trimmed (y y' : dlsys W) (a0 : Z) (bs bs' : blocks) : Prop := one_segment y' a0 bs' /\ mparams y' = mparams y /\
  of_kind InUse a0 bs' = of_kind InUse a0 bs /\ exists n, 0 <= n /\ total bs' = total bs - n /\
  (n = 0 /\ os y' = os y \/
   exists r n', 0 <= n' <= total bs /\ n' mod 16 = 0 /\ CALL_MUNMAP (a0 + total bs + TOP_FOOT_SIZE - n') n' (os y) = Ok (r, os y') /\ n = if decide (r = 0) then n' else 0).

Lemma unmap_tail_eq fuel y a0 bs e : one_segment y a0 bs -> (0 < fuel)%nat -> 0 <= e <= total bs ->
  unmap_tail gm_addr fuel (seg_addr gm_addr) e y =
  (r ← on_os (CALL_MUNMAP (a0 + total bs + TOP_FOOT_SIZE - e) e); mret (if decide (r = 0) then e else 0)) y.
Proof.
  intros H Hf He. pose proof (os_room _ _ _ H) as (Hr1 & Hr2 & Hr3).
  pose proof (hc_base _ _ _ _ (hi_core _ _ _ _ (os_heap _ _ _ H))) as (Hb & _). rewrite top_foot_size in *. change MAX_TREE_SIZE with (2 ^ 40) in Hr1.
  unfold unmap_tail, rd_seg. rewrite decide_True, gm_get_bind, (os_seg _ _ _ H), top_foot_size by done. cbn [base size].
  change (is_extern_segment _) with false. change (is_mmapped_segment _) with true. rewrite bool_decide_eq_true_2 by lia. cbn [negb andb].
  unfold has_segment_link. rewrite bind_assoc, (bind_ok _ _ _ _ _ (find_seg_one fuel _ y a0 bs H Hf)).
  assert (Hout : segment_holds (mkSegment a0 (total bs + 80) 0 USE_MMAP_BIT) (seg_addr gm_addr) = false).
  { apply bool_decide_eq_false_2. cbn [base size]. rewrite wrap_small by (unfold fits; lia). intros ?. apply (Hr3 (seg_addr gm_addr)); [by right|lia]. }
  rewrite Hout, ret_bind, bool_decide_eq_false_2 by tauto. rewrite decide_False by tauto.
  rewrite (wrap_small 64 (_ - e)), (wrap_small 64) by (unfold fits; lia). by replace (a0 + (total bs + 80 - e)) with (a0 + total bs + 80 - e) by lia.
Qed.

(** The top is in the segment. *)
Lemma segment_of_top fuel y a0 bs : one_segment y a0 bs -> (0 < fuel)%nat ->
  segment_holding gm_addr fuel (top (gm (hst y))) y = Ok (seg_addr gm_addr, y) /\ 0 <= topsize (gm (hst y)) <= total bs /\ topsize (gm (hst y)) mod 16 = 0.
Proof.
  intros H Hf. pose proof (os_heap _ _ _ H) as Hi. destruct (top_block _ _ _ _ Hi) as (l & Ebs & Et). rewrite Ebs in Hi.
  pose proof (core_block _ _ _ _ _ _ _ (hi_core _ _ _ _ Hi)) as Hb. pose proof (row_nonneg l ltac:(eapply layout_ok, Hb)) as Hl0.
  destruct Hb as [_ (Hm & Hp & _) _ _ _ _ Hrg _ _ _ _ _]. simpl in Hm, Hp. pose proof (os_room _ _ _ H) as (Hr1 & Hr2 & Hr3).
  set (z := topsize (gm (hst y))) in *. assert (Etot : total bs = total l + z) by (rewrite Ebs, total_app; simpl; lia). split; [|split; [lia|done]].
  unfold segment_holding. rewrite (find_seg_one fuel _ y a0 bs H Hf), (os_seg _ _ _ H). rewrite top_foot_size in *. change MAX_TREE_SIZE with (2 ^ 40) in Hr1.
  assert (Hin : segment_holds (mkSegment a0 (total bs + 80) 0 USE_MMAP_BIT) (top (gm (hst y))) = true).
  { apply bool_decide_eq_true_2. cbn [base size]. rewrite wrap_small, Et by (unfold fits; lia). lia. }
  by rewrite Hin.
Qed.

Lemma trim_top_ok fuel y a0 bs : one_segment y a0 bs -> (0 < fuel)%nat -> tail_unmaps y a0 bs -> TOP_FOOT_SIZE < topsize (gm (hst y)) ->
  exists v y' bs', trim_top gm_addr fuel TOP_FOOT_SIZE y = Ok (v, y') /\ trimmed y y' a0 bs bs'.
Proof.
  intros H Hf Hu Hz. pose proof (os_heap _ _ _ H) as Hi. destruct (top_block _ _ _ _ Hi) as (l & Ebs & Et). rewrite Ebs in Hi.
  pose proof (core_block _ _ _ _ _ _ _ (hi_core _ _ _ _ Hi)) as Hb. pose proof (row_nonneg l ltac:(eapply layout_ok, Hb)) as Hl0.
  destruct Hb as [_ (Hm & _) _ _ _ _ Hrg _ _ _ _ _]. simpl in Hm. set (z := topsize (gm (hst y))) in *.
  assert (Etot : total bs = total l + z) by (rewrite Ebs, total_app; simpl; lia). pose proof (os_room _ _ _ H) as (Hr1 & Hr2 & Hr3).
  destruct (os_params _ _ _ H) as (Hmag & k & Hk & Eg). unfold trim_top. rewrite gm_get_bind, param_bind. fold z. rewrite Eg.
  rewrite top_foot_size in *. change MAX_TREE_SIZE with (2 ^ 40) in Hr1.
  destruct (trim_extra_ok k z Hk) as (He & Hk1 & _ & Hem); [rewrite top_foot_size; lia|]. rewrite top_foot_size in *. set (e := trim_extra _ _ _) in *.
  rewrite (bind_ok _ _ _ _ _ (proj1 (segment_of_top fuel y a0 bs H Hf))). destruct (Hu e) as (r & w & Hr); [lia|done|].
  rewrite (bind_ok _ _ _ (if decide (r = 0) then e else 0) (with_os w y)).
  2: { rewrite (unmap_tail_eq fuel y a0 bs e H Hf), top_foot_size by lia. rewrite top_foot_size in Hr. by rewrite (on_os_bind _ _ _ _ _ Hr). }
  set (n := if decide (r = 0) then e else 0). apply (one_os _ _ _ w) in H.
  assert (Hn : 0 <= n <= e /\ n mod 16 = 0) by (unfold n; case_decide; [lia|done]).
  destruct (decide (n <> 0)) as [Hn0|Hn0].
  2: { exists 0, (with_os w y), bs. split; [done|]. split; [done|]. split; [done|]. split; [done|]. exists n. split; [lia|]. split; [lia|]. right. exists r, e. split; [lia|done]. }
  rewrite param_bind. unfold wr_seg. rewrite decide_True by done. rewrite !gm_set_bind. set (y1 := with_hst _ _).
  assert (Hi1 : inv (hst y1) a0 (l ++ [(z, Top)])) by (apply (inv_gm gm_addr (hst y)); [done|exact Hi]).
  rewrite (wrap_small 64 (z - n)), Et by (unfold fits; lia).
  destruct (init_top_again gm_addr (trim_threshold (mparams y)) (hst y1) a0 l z (z - n) Hi1) as (h & Hrun & Hi2 & Hg); [zlia|lia| |lia| |].
  { change MAX_TREE_SIZE with (2 ^ 40). lia. }
  { intros x Hx. specialize (Hr3 x (or_introl Hx)). lia. }
  rewrite (on_heap_bind _ _ _ _ _ Hrun). eexists _, _, (l ++ [(z - n, Top)]). split; [done|].
  assert (Etot' : total (l ++ [(z - n, Top)]) = total bs - n) by (rewrite total_app; simpl; lia).
  split; [|split; [done|split; [by rewrite Ebs, !of_kind_app|]]].
  - split; rewrite ?top_foot_size, ?Etot'; [done| |apply H|].
    + cbn [hst with_hst]. rewrite Hg. cbn. rewrite (os_seg _ _ _ H : DlHeap.seg (gm (hst y)) = _), top_foot_size. cbn. rewrite (wrap_small 64 (total bs + 80 - n)) by (unfold fits; lia). replace (total bs - n + 80) with (total bs + 80 - n) by lia. done.
    + split; [change MAX_TREE_SIZE with (2 ^ 40); lia|]. split; [lia|]. intros x Hx. specialize (Hr3 x Hx). lia.
  - exists n. split; [lia|]. split; [lia|]. right. rewrite top_foot_size. exists r, e. split; [lia|done].
Qed.

(** What [munmap] stops, the trim does not survive. *)
Lemma sys_trim_stops fuel y a0 bs w : let e := trim_extra (granularity (mparams y)) (topsize (gm (hst y))) TOP_FOOT_SIZE in
  one_segment y a0 bs -> (0 < fuel)%nat -> TOP_FOOT_SIZE < topsize (gm (hst y)) ->
  CALL_MUNMAP (a0 + total bs + TOP_FOOT_SIZE - e) e (os y) = Stop w -> sys_trim gm_addr stack_addr fuel 0 y = Stop w.
Proof.
  intros e H Hf Hz Hstop. destruct (segment_of_top fuel y a0 bs H Hf) as (Hseg & Hzr & _). destruct (os_params _ _ _ H) as (_ & k & Hk & Eg).
  pose proof (os_room _ _ _ H) as (Hr1 & _). change MAX_TREE_SIZE with (2 ^ 40) in Hr1. rewrite top_foot_size in Hz, Hr1.
  destruct (trim_extra_ok k (topsize (gm (hst y))) Hk) as (He & Hk1 & _); [rewrite top_foot_size; lia|]. rewrite <-Eg in He, Hk1. fold e in He, Hk1. rewrite top_foot_size in Hk1.
  assert (Ht : top (gm (hst y)) <> 0).
  { destruct (top_block _ _ _ _ (os_heap _ _ _ H)) as (l & Ebs & ->). pose proof (hi_core _ _ _ _ (os_heap _ _ _ H)) as Hc. rewrite Ebs in Hc. apply core_top_pos in Hc. lia. }
  unfold sys_trim. rewrite (initialized_bind _ y (os_params _ _ _ H)), gm_get_bind. rewrite decide_True by done.
  change (u64 (0 + TOP_FOOT_SIZE)) with TOP_FOOT_SIZE. cbv zeta. apply bind_stop. rewrite decide_True by (rewrite top_foot_size; lia).
  unfold trim_top. rewrite gm_get_bind, param_bind, (bind_ok _ _ _ _ _ Hseg). apply bind_stop. fold e.
  rewrite (unmap_tail_eq fuel y a0 bs e H Hf) by lia. apply bind_stop. unfold on_os. by rewrite Hstop.
Qed.

Lemma trimmed_refl y y' a0 bs : one_segment y' a0 bs -> mparams y' = mparams y -> os y' = os y -> trimmed y y' a0 bs bs.
Proof. intros H1 H2 H3. split; [done|]. split; [done|]. split; [done|]. exists 0. split; [lia|]. split; [lia|]. by left. Qed.

Lemma trimmed_after y y1 y2 a0 bs bs' : trimmed y y1 a0 bs bs' -> one_segment y2 a0 bs' -> mparams y2 = mparams y1 -> os y2 = os y1 -> trimmed y y2 a0 bs bs'.
Proof. intros (_ & E1 & E2 & E3) H Ep Eo. split; [done|]. split; [congruence|]. split; [done|]. by rewrite Eo. Qed.

Lemma sys_trim_ok fuel y a0 bs : one_segment y a0 bs -> (0 < fuel)%nat -> tail_unmaps y a0 bs ->
  exists v y' bs', sys_trim gm_addr stack_addr fuel 0 y = Ok (v, y') /\ trimmed y y' a0 bs bs'.
Proof.
  intros H Hf Hu. unfold sys_trim. rewrite (initialized_bind _ y (os_params _ _ _ H)), gm_get_bind.
  assert (Ht : top (gm (hst y)) <> 0).
  { destruct (top_block _ _ _ _ (os_heap _ _ _ H)) as (l & Ebs & ->). pose proof (hi_core _ _ _ _ (os_heap _ _ _ H)) as Hc.
    rewrite Ebs in Hc. apply core_top_pos in Hc. lia. }
  rewrite decide_True by done. change (u64 (0 + TOP_FOOT_SIZE)) with TOP_FOOT_SIZE. cbv zeta.
  assert (Htrim : exists v y1 bs1, (if decide (TOP_FOOT_SIZE < topsize (gm (hst y))) then trim_top gm_addr fuel TOP_FOOT_SIZE else mret 0) y = Ok (v, y1) /\
    trimmed y y1 a0 bs bs1).
  { case_decide; [by apply trim_top_ok|]. exists 0, y, bs. split; [done|]. by apply trimmed_refl. }
  destruct Htrim as (v & y1 & bs1 & Hrun & Htr). rewrite (bind_ok _ _ _ _ _ Hrun). pose proof Htr as (H1 & _).
  destruct (release_none fuel y1 a0 bs1 H1) as (y2 & Hrun2 & H2 & Ep & Eo & _). rewrite (bind_ok _ _ _ _ _ Hrun2), gm_set_bind.
  eexists _, _, bs1. split; [done|]. apply (trimmed_after y y1); [done| |done|done]. clear Hrun. apply one_gm; [done| |]; simpl; by case_decide.
Qed.
End single.
