(* ===== verification/DlSystem.v ===== *)
(** The contract of the C library's allocator with memory from the system (lib/stdlib/dlmalloc.c): [dlmalloc]
    and [dlfree] as a whole, from the first call on, while the system extends one segment.

    [GrowingMemory] says what is asked of the system: a region is mapped behind the last, or the call fails, and
    the tail of what was mapped can be given back or the call fails. *)
From S2P Require Import Prelude DlBins DlHeap DlTree DlLarge DlFit DlSmall DlFree DlMalloc DlLayout DlCore DlAlloc DlServe DlRequest DlRelease DlInit DlFrame Dlmalloc DlSys DlGrow.

Section system.
Context {W : Type} `{!SystemMemory W}.
Context (gm_addr stack_addr : Z) (Hgm : 0 < gm_addr).
Abbreviation inv := (heap_inv gm_addr).
Abbreviation Y := (cmd (dlsys W)).
Abbreviation one_segment := (one_segment gm_addr).

Lemma chunk_size_fine bytes : 0 <= bytes < MAX_TREE_SIZE - 32 -> 0 <= bytes < MAX_REQUEST /\ chunk_size bytes mod 16 = 0 /\
  MIN_CHUNK_SIZE <= chunk_size bytes < MAX_TREE_SIZE.
Proof.
  intros Hb. change MAX_TREE_SIZE with (2 ^ 40) in *. assert (Hr : 0 <= bytes < MAX_REQUEST) by (change MAX_REQUEST with (2 ^ 64 - 128); lia).
  split; [done|]. unfold chunk_size. rewrite decide_True by lia. destruct (request2size_least bytes Hr) as (Hm & Hmin & _). split; [done|]. split; [done|].
  unfold request2size. rewrite min_chunk_size. case_decide; [lia|]. rewrite pad_request_spec by done. zlia.
Qed.

(** ** Before the first call *)

(** Zeroed memory, or what a failed first call leaves. *)
Record unused (y : dlsys W) : Prop := {
  un_bins : no_bins (gm (hst y));
  un_top : top (gm (hst y)) = 0 /\ topsize (gm (hst y)) = 0;
  un_least : least_addr (gm (hst y)) = 0;
  un_seg : next (DlHeap.seg (gm (hst y))) = 0;
  un_params : mp_magic (mparams y) = 0 \/ ready (mparams y) }.

Definition first_params : malloc_params := mkParams ((Z.lxor stack_addr 0x55555555 .| 8) .& bnot 64 7) malloc_getpagesize DEFAULT_GRANULARITY
  DEFAULT_MMAP_THRESHOLD DEFAULT_TRIM_THRESHOLD (USE_LOCK_BIT .| USE_MMAP_BIT .| USE_NONCONTIGUOUS_BIT).
Definition params_of (p : malloc_params) : malloc_params := if decide (mp_magic p <> 0) then p else first_params.

Lemma first_params_ready : ready first_params.
Proof.
  split; [|by exists 16]. cbn [mp_magic first_params]. intros E. apply (f_equal (fun x => Z.testbit x 3)) in E.
  rewrite Z.land_spec, Z.lor_spec, bnot_testbit, Z.bits_0 in E by lia. change (Z.testbit 8 3) with true in E. change (Z.testbit 7 3) with false in E.
  rewrite orb_true_r in E. done.
Qed.

Lemma unused_init y : unused y -> exists y', ensure_initialization stack_addr y = Ok (tt, y') /\ unused y' /\
  mparams y' = params_of (mparams y) /\ ready (mparams y') /\ os y' = os y /\
  footprint_limit (gm (hst y')) = footprint_limit (gm (hst y)).
Proof.
  intros H. unfold params_of. destruct (decide (mp_magic (mparams y) <> 0)) as [Hm|Hm].
  - exists y. destruct (un_params y H) as [E|Hr]; [by rewrite E in Hm|]. pose proof (initialized_bind stack_addr (fun u => mret u) y Hr) as Hi.
    split; [|done]. unfold ensure_initialization. rewrite param_bind. by rewrite decide_True.
  - eexists. split; [|split].
    + unfold ensure_initialization. rewrite param_bind, decide_False by done. reflexivity.
    + destruct H as [H1 H2 H3 H4 H5]. split; try done. right. apply first_params_ready.
    + split; [done|]. split; [apply first_params_ready|]. done.
Qed.

Lemma malloc_fast_unused bytes s : no_bins (gm s) -> topsize (gm s) = 0 -> 0 <= bytes < MAX_TREE_SIZE - 32 ->
  malloc_fast gm_addr bytes s = Ok (inr (chunk_size bytes), s).
Proof.
  intros (E1 & E2 & _ & E3 & _) E4 Hb. destruct (chunk_size_fine bytes Hb) as (Hr & _ & Hc & _). rewrite min_chunk_size in Hc.
  unfold chunk_size in *. rewrite decide_True in Hc |- * by lia.
  assert (Hlast : use_dv_or_top (request2size bytes) s = Ok (inr (request2size bytes), s)).
  { unfold use_dv_or_top. rewrite !gets_bind, E3, E4. by rewrite !decide_False by lia. }
  unfold malloc_fast. case_decide as Hs.
  - change (if decide (bytes < MIN_REQUEST) then _ else _) with (request2size bytes). unfold malloc_small. rewrite !gets_bind, E1, E3, Z.shiftr_0_l.
    rewrite decide_False by (by intros []). rewrite decide_True by lia. rewrite (decide_False (P := 0 <> 0)) by (by intros []).
    rewrite gets_bind, E2. by rewrite decide_False by (by intros []).
  - rewrite decide_False by lia. unfold request2size in Hlast |- *. rewrite decide_False in Hlast |- * by (change MIN_REQUEST with 23; change MAX_SMALL_REQUEST with 232 in Hs; lia).
    rewrite gets_bind, E2. by rewrite decide_False by (by intros []).
Qed.

(** ** The first region *)
Lemma first_segment_ok y tbase n : unused y -> ready (mparams y) -> 0 < tbase -> tbase mod 16 = 0 -> TOP_FOOT_SIZE < n -> n mod 16 = 0 -> room gm_addr tbase n ->
  exists y', first_segment gm_addr tbase n USE_MMAP_BIT y = Ok (tt, y') /\ one_segment y' tbase [(n - TOP_FOOT_SIZE, Top)] /\
    mparams y' = mparams y /\ os y' = os y /\ topsize (gm (hst y')) = n - TOP_FOOT_SIZE.
Proof.
  intros [H1 H2 H3 H4 _] Hp Hb Hbm Hn Hm (Hr1 & Hr2 & Hr3). rewrite top_foot_size in *. change MAX_TREE_SIZE with (2 ^ 40) in Hr1.
  unfold first_segment. rewrite !param_bind, gm_set_bind. set (y1 := with_hst _ y). 
  assert (Hg1 : no_bins (gm (hst y1)) /\ least_addr (gm (hst y1)) = tbase /\ DlHeap.seg (gm (hst y1)) = mkSegment tbase n 0 USE_MMAP_BIT).
  { unfold y1. cbn [hst with_hst gm set_gm]. rewrite H3. rewrite decide_True by (by left). cbn. by rewrite H4. }
  destruct Hg1 as (Hg1 & Hg2 & Hg3). destruct (init_bins_ok gm_addr Hgm (hst y1)) as (h2 & Hrun2 & Eg2 & _). rewrite (on_heap_bind _ _ _ _ _ Hrun2).
  rewrite top_foot_size, (wrap_small 64 (n - 80)) by (unfold fits; lia).
  destruct (init_top_ok gm_addr (trim_threshold (mparams y)) h2 tbase (n - 80)) as (h3 & Hrun3 & Hi & Eg3); rewrite ?Eg2, ?Hg2; try done; try lia; [zlia| | |].
  { change MAX_TREE_SIZE with (2 ^ 40). lia. }
  { intros x Hx. specialize (Hr3 x (or_introl Hx)). lia. }
  rewrite (on_heap_ok _ (with_hst h2 y1) _ _ Hrun3). eexists. split; [done|]. cbn [hst with_hst mparams os]. split; [|by rewrite Eg3].
  split; rewrite ?top_foot_size; cbn [hst with_hst total fst]; [done| |done|].
  - rewrite Eg3. cbn. rewrite Eg2, Hg3. by replace (n - 80 + 0 + 80) with n by lia.
  - replace (n - 80 + 0 + 80) with n by lia. done.
Qed.

Lemma sys_alloc_first fuel y nb r w : let n := region_size (params_of (mparams y)) nb in unused y -> nb mod 16 = 0 -> MIN_CHUNK_SIZE <= nb < MAX_TREE_SIZE ->
  CALL_MMAP n (os y) = Ok (r, w) -> (r = MFAIL \/ 0 < r /\ r mod 16 = 0 /\ room gm_addr r n) ->
  exists m y', sys_alloc gm_addr stack_addr fuel nb y = Ok (m, y') /\ mparams y' = params_of (mparams y) /\
    (m = 0 /\ unused y' /\ (os y' = os y /\ footprint_limit (gm (hst y)) <> 0 \/ r = MFAIL /\ os y' = w) \/
     m <> 0 /\ served gm_addr y' r [] (n - TOP_FOOT_SIZE) nb m /\ os y' = w /\ r <> MFAIL).
Proof.
  intros n H Hm Hnb Hmm Hr. destruct (unused_init y H) as (y0 & Hrun0 & H0 & Ep0 & Hp0 & Eo0 & El0). unfold n in *. rewrite <-Ep0, <-Eo0, <-El0 in *. clear n H.
  destruct (region_size_ok _ _ Hp0 Hnb) as (Ha & Ham & Ew). pose proof H0 as [_ [Etop Etops] _ _ _]. unfold sys_alloc. rewrite (bind_ok _ _ _ _ _ Hrun0), gm_get_bind, param_bind, Etops.
  rewrite (decide_False (P := _ /\ _ <= _ /\ _)), ret_bind by (by intros (_ & _ & ?)).
  rewrite (decide_False (P := 0 <> 0)) by lia. unfold granularity_align. rewrite bind_assoc, param_bind, ret_bind, Ew.
  change (align_to (granularity (mparams y0)) (nb + 96)) with (region_size (mparams y0) nb). set (n := region_size _ _) in *.
  rewrite (decide_False (P := n <= nb)) by lia. destruct (within_limit_ok n y0) as (b & Hwl & Hlim). rewrite (bind_ok _ _ _ _ _ Hwl). destruct b.
  2: { exists 0, y0. split; [done|]. split; [done|]. left. split; [done|]. split; [done|left; auto]. }
  rewrite (on_os_bind _ _ _ _ _ Hmm). destruct Hr as [->|(Hb & Hbm & Hroom)].
  { rewrite decide_False by tauto. eexists _, _. split; [done|]. split; [done|]. left. split; [done|]. split; [by destruct H0|by right]. }
  assert (Hne : r <> MFAIL) by (rewrite min_chunk_size in Hnb; destruct Hroom as (_ & Hr & _); change MFAIL with (2 ^ 64 - 1); lia).
  rewrite decide_True by done. unfold grow_footprint. rewrite gm_set_bind, gm_get_bind. set (y1 := with_hst _ _).
  assert (H1 : unused y1) by (destruct H0; split; unfold y1; cbn; try case_decide; done).
  assert (Hinit : is_initialized (gm (hst y1)) = false) by (apply bool_decide_eq_false_2; rewrite (proj1 (un_top _ H1)); tauto).
  rewrite Hinit. destruct (first_segment_ok y1 r n H1 Hp0 Hb Hbm) as (y2 & Hrun2 & H2 & Ep2 & Eo2 & Et2); [rewrite top_foot_size; rewrite min_chunk_size in Hnb; lia|done|done|].
  rewrite bind_assoc, (bind_ok _ _ _ _ _ Hrun2), ret_bind.
  destruct (finish_top gm_addr y2 r _ nb H2 Hm) as (m & y' & Hrun3 & Ep & Eo & Hmz & Hs); [rewrite Et2, top_foot_size; lia|].
  exists m, y'. split; [done|]. split; [by rewrite Ep, Ep2|]. right. split; [done|]. split; [|by rewrite Eo, Eo2].
  destruct Hs as (bs' & p & sz & Hi & Etot & Em & Hsz & Hu). exists bs', p, sz. split; [done|]. split; [rewrite Etot; simpl; lia|]. done.
Qed.

(** ** Calls on one segment *)

(** What [dlmalloc] answers when [CALL_MMAP] answers [r] and goes to [w]: nothing, or a block of the heap, which
    has become [n] bytes longer only when nothing in it was large enough. *)
Definition served_call (y y' : dlsys W) (a0 : Z) (bs : blocks) (bytes n r : Z) (w : W) (m : Z) : Prop :=
  m = 0 /\ hst y' = hst y /\ too_large a0 bs (chunk_size bytes) /\ (os y' = os y /\ footprint_limit (gm (hst y)) <> 0 \/ r = MFAIL /\ os y' = w) \/
  m <> 0 /\ exists bs' p sz, one_segment y' a0 bs' /\ of_kind InUse a0 bs' ≡ₚ (p, sz) :: of_kind InUse a0 bs /\
    room_for a0 (of_kind InUse a0 bs) p sz bytes m /\
    (total bs' = total bs /\ os y' = os y \/ total bs' = total bs + n /\ os y' = w /\ r <> MFAIL /\ too_large a0 bs (chunk_size bytes)).

Lemma dlmalloc_one fuel y a0 bs bytes r w : let n := region_size (mparams y) (chunk_size bytes) in one_segment y a0 bs -> (0 < fuel)%nat ->
  0 <= bytes < MAX_TREE_SIZE - 32 -> chunk_size bytes < mmap_threshold (mparams y) -> CALL_MMAP n (os y) = Ok (r, w) -> contiguous gm_addr a0 bs n r ->
  exists m y', dlmalloc gm_addr stack_addr fuel bytes y = Ok (m, y') /\ mparams y' = mparams y /\ served_call y y' a0 bs bytes n r w m.
Proof.
  intros n H Hf Hb Hthr Hmm Hr. destruct (chunk_size_fine bytes Hb) as (Hbr & Hcm & Hc). unfold dlmalloc.
  destruct (malloc_contract gm_addr Hgm (hst y) a0 bs bytes (os_heap _ _ _ _ H) Hb) as (res & h & Hrun & Hres). rewrite (on_heap_bind _ _ _ _ _ Hrun).
  destruct res as [m|nb].
  - destruct Hres as (bs' & p & sz & Hi & Et & Hu & Hroom). exists m, (with_hst h y). split; [done|]. split; [done|]. right. split.
    { destruct Hroom as (-> & _ & Hm & _). pose proof (hc_base _ _ _ _ (hi_core _ _ _ _ (os_heap _ _ _ _ H))). lia. }
    exists bs', p, sz. split; [apply (one_hst gm_addr _ _ _ _ _ H); try done; by apply (keeps_malloc_fast gm_addr bytes _ _ _ Hrun)|]. split; [done|]. split; [done|]. by left.
  - destruct Hres as (-> & -> & Hlarge). replace (with_hst (hst y) y) with y by (by destruct y).
    destruct (sys_alloc_ok gm_addr stack_addr Hgm fuel y a0 bs _ r w H Hf Hcm Hc Hthr Hmm Hr) as (m & y' & Hrun' & Ep & Hans). exists m, y'. split; [done|]. split; [done|].
    destruct Hans as [(-> & Eh & Eo)|(Hm & (bs' & p & sz & H' & Et & -> & Hsz & Hu) & Eo & Hnr)]; [by left|right]. split; [done|]. exists bs', p, sz.
    split; [done|]. split; [done|]. split; [by apply (new_in_use gm_addr (hst y') a0 bs'); [|apply H'| |]|]. by right.
Qed.

(** What [dlfree] does: the block is out of use, and the heap [n] bytes shorter if its tail was unmapped. *)
Definition freed_call (y y' : dlsys W) (a0 : Z) (bs : blocks) (p sz : Z) : Prop := exists bs' n,
  one_segment y' a0 bs' /\ mparams y' = mparams y /\ of_kind InUse a0 bs ≡ₚ (p, sz) :: of_kind InUse a0 bs' /\ 0 <= n /\ total bs' = total bs - n /\
  (n = 0 /\ os y' = os y \/
   exists r n', 0 <= n' <= total bs /\ n' mod 16 = 0 /\ CALL_MUNMAP (a0 + total bs + TOP_FOOT_SIZE - n') n' (os y) = Ok (r, os y') /\ n = if decide (r = 0) then n' else 0).

Lemma trimmed_freed y y1 y' a0 bs bs1 bs' p sz : of_kind InUse a0 bs ≡ₚ (p, sz) :: of_kind InUse a0 bs1 -> total bs1 = total bs -> os y1 = os y ->
  mparams y1 = mparams y -> trimmed gm_addr y1 y' a0 bs1 bs' -> freed_call y y' a0 bs p sz.
Proof.
  intros Hp Et Eo Ep (H & Ep' & Eu & n & Hn & Etn & Hos). exists bs', n. rewrite Et, Eo in *. split; [done|]. split; [congruence|].
  split; [by rewrite Eu|]. done.
Qed.

Lemma dlfree_one fuel y a0 bs p sz : one_segment y a0 bs -> (0 < fuel)%nat -> (p, sz) ∈ of_kind InUse a0 bs -> tail_unmaps y a0 bs ->
  exists y', dlfree gm_addr stack_addr fuel (p + 16) y = Ok (tt, y') /\ freed_call y y' a0 bs p sz.
Proof.
  intros H Hf Hin Hu. destruct (free_contract gm_addr Hgm (hst y) a0 bs p sz (os_heap _ _ _ _ H) Hin) as (ans & h & bs1 & Hrun & Hans & Hi & Et & Hp).
  set (y1 := with_hst h y). assert (H1 : one_segment y1 a0 bs1) by (apply (one_hst gm_addr _ _ _ _ _ H); try done; by apply (keeps_free_fast gm_addr (p + 16) _ _ _ Hrun)).
  assert (Hu1 : tail_unmaps y1 a0 bs1) by (unfold tail_unmaps; by rewrite Et).
  unfold dlfree. rewrite (on_heap_bind _ _ _ _ _ Hrun). fold y1. destruct ans as [| | |b len]; [| | |done].
  - exists y1. split; [done|]. apply (trimmed_freed y y1 y1 a0 bs bs1 bs1); try done. by apply trimmed_refl.
  - destruct (sys_trim_ok gm_addr stack_addr fuel y1 a0 bs1 H1 Hf Hu1) as (v & y2 & bs' & Hrun2 & Htr). exists y2. rewrite (bind_ok _ _ _ _ _ Hrun2).
    split; [done|]. by apply (trimmed_freed y y1 y2 a0 bs bs1 bs').
  - destruct (release_none gm_addr fuel y1 a0 bs1 H1) as (y2 & Hrun2 & H2 & Ep & Eo & _). exists y2. rewrite (bind_ok _ _ _ _ _ Hrun2).
    split; [done|]. apply (trimmed_freed y y1 y2 a0 bs bs1 bs1); try done. by apply trimmed_refl.
Qed.
End system.

(** ** A system that extends one region *)

(** Memory from [lo] on is mapped up to [brk]. [CALL_MMAP] maps the next bytes or fails; [CALL_MUNMAP] of the last
    bytes unmaps them or fails. *)
Class GrowingMemory (W : Type) `{!SystemMemory W} (lo hi : Z) := {
  brk : W -> Z;
  mmap_grows n w : 0 < n -> n mod 16 = 0 -> exists r w', CALL_MMAP n w = Ok (r, w') /\
    (r = MFAIL /\ brk w' = brk w \/ r = brk w /\ brk w' = brk w + n /\ brk w' <= hi);
  munmap_shrinks n w : 0 <= n -> n mod 16 = 0 -> lo <= brk w - n -> exists r w', CALL_MUNMAP (brk w - n) n w = Ok (r, w') /\
    brk w' = if decide (r = 0) then brk w - n else brk w }.

Section sessions.
Context {W : Type} `{!SystemMemory W} (lo hi : Z) `{!GrowingMemory W lo hi}.
Context (gm_addr stack_addr : Z) (Hgm : 0 < gm_addr) (Hlo : 0 < lo /\ lo mod 16 = 0) (Hroom : room gm_addr lo (hi - lo)).

Lemma room_mono n m : n <= m -> room gm_addr lo m -> room gm_addr lo n.
Proof. intros Hn (H1 & H2 & H3). split; [lia|]. split; [lia|]. intros y Hy. specialize (H3 y Hy). lia. Qed.

(** The parameters in force, and the requests below the threshold for mappings of their own. *)
Definition params_now (y : dlsys W) : malloc_params := params_of stack_addr (mparams y).
Definition modest (y : dlsys W) (bytes : Z) : Prop := 0 <= bytes < MAX_TREE_SIZE - 32 /\ chunk_size bytes < mmap_threshold (params_now y).

(** States reached from zeroed memory by calls, with what the caller holds. *)
Inductive session (fuel : nat) (y0 : dlsys W) : dlsys W -> list (Z * Z) -> Prop :=
  | session_start : session fuel y0 y0 []
  | session_fail y live bytes y' : session fuel y0 y live -> modest y bytes -> dlmalloc gm_addr stack_addr fuel bytes y = Ok (0, y') -> session fuel y0 y' live
  | session_malloc y live bytes m y' : session fuel y0 y live -> modest y bytes -> dlmalloc gm_addr stack_addr fuel bytes y = Ok (m, y') -> m <> 0 ->
      session fuel y0 y' ((m, bytes) :: live)
  | session_free y live m bytes y' : session fuel y0 y ((m, bytes) :: live) -> dlfree gm_addr stack_addr fuel m y = Ok (tt, y') -> session fuel y0 y' live
  | session_any y live live' : session fuel y0 y live -> live ≡ₚ live' -> session fuel y0 y live'.

(** The state between calls. *)
Definition in_order (y : dlsys W) (live : list (Z * Z)) : Prop :=
  unused y /\ brk (os y) = lo /\ live = [] \/
  exists bs used, one_segment gm_addr y lo bs /\ brk (os y) = lo + total bs + TOP_FOOT_SIZE /\ of_kind InUse lo bs ≡ₚ used /\ Forall2 holds live used.

Lemma params_ready p : ready p -> params_of stack_addr p = p.
Proof. intros [H _]. unfold params_of. by rewrite decide_True. Qed.

Lemma params_of_idem p : params_of stack_addr (params_of stack_addr p) = params_of stack_addr p.
Proof.
  unfold params_of at 2 3. case_decide as H; [unfold params_of; by rewrite decide_True|]. apply params_ready, first_params_ready.
Qed.

(** Failure is not an address of a region. *)
Lemma failed_brk y n w : 0 < n -> (MFAIL = MFAIL /\ brk w = brk (os y) \/ MFAIL = brk (os y) /\ brk w = brk (os y) + n /\ brk w <= hi) -> brk w = brk (os y).
Proof.
  intros Hn [[_ E]|(E & Ew & Hle)]; [done|exfalso]. destruct Hroom as (_ & Hr & _). change MFAIL with (2 ^ 64 - 1) in E. lia.
Qed.

Lemma malloc_unused fuel y bytes : unused y -> brk (os y) = lo -> modest y bytes ->
  exists m y', dlmalloc gm_addr stack_addr fuel bytes y = Ok (m, y') /\ in_order y' (if decide (m = 0) then [] else [(m, bytes)]).
Proof.
  intros H Hb [Hbytes _]. destruct (chunk_size_fine bytes Hbytes) as (Hbr & Hcm & Hc). unfold dlmalloc.
  rewrite (on_heap_bind _ _ _ _ _ (malloc_fast_unused gm_addr bytes (hst y) (un_bins _ H) (proj2 (un_top _ H)) Hbytes)).
  replace (with_hst (hst y) y) with y by (by destruct y). destruct (unused_init stack_addr y H) as (y0 & _ & _ & Ep & Hp & _). rewrite Ep in Hp. clear y0 Ep.
  destruct (region_size_ok _ _ Hp Hc) as (Hn & Hnm & _). set (n := region_size _ _) in *. rewrite min_chunk_size in Hc.
  destruct (mmap_grows n (os y) ltac:(lia) Hnm) as (r & w & Hmm & Hr).
  destruct (sys_alloc_first gm_addr stack_addr Hgm fuel y (chunk_size bytes) r w H Hcm) as (m & y' & Hrun & Ep' & Hans); [by rewrite min_chunk_size|exact Hmm| |].
  { destruct Hr as [[-> _]|(-> & Hbn & Hle)]; [by left|right]. rewrite Hb in *. split; [lia|]. split; [lia|]. apply (room_mono _ (hi - lo)); [lia|done]. }
  exists m, y'. split; [done|]. destruct Hans as [(-> & Hu & Eo)|(Hm & (bs' & p & sz & H' & Et & -> & Hsz & Hp') & Eo & Hnr)].
  - left. split; [done|]. split; [|done]. rewrite <-Hb. destruct Eo as [[-> _]|[-> ->]]; [done|]. apply (failed_brk _ n); [lia|done].
  - rewrite decide_False by done. right. destruct Hr as [[-> _]|(-> & Hbn & _)]; [done|]. rewrite Hb in *. exists bs', [(p, sz)].
    split; [done|]. split; [rewrite Eo, Hbn, Et; lia|]. split; [by rewrite Hp'|]. constructor; [|done].
    destruct (new_in_use gm_addr (hst y') lo bs' [] p sz bytes Hbr (os_heap _ _ _ _ H')) as (E & _); [by rewrite Hp'|done|].
    pose proof (chunk_size_room bytes Hbr). split; simpl; [done|lia].
Qed.

Lemma malloc_served fuel y bs used live bytes : one_segment gm_addr y lo bs -> brk (os y) = lo + total bs + TOP_FOOT_SIZE -> of_kind InUse lo bs ≡ₚ used ->
  Forall2 holds live used -> (0 < fuel)%nat -> modest y bytes ->
  exists m y', dlmalloc gm_addr stack_addr fuel bytes y = Ok (m, y') /\ in_order y' (if decide (m = 0) then live else (m, bytes) :: live).
Proof.
  intros H Hb Hu Hl Hf [Hbytes Hthr]. unfold params_now in Hthr. rewrite (params_ready _ (os_params _ _ _ _ H)) in Hthr.
  destruct (chunk_size_fine bytes Hbytes) as (Hbr & Hcm & Hc). destruct (region_size_ok _ _ (os_params _ _ _ _ H) Hc) as (Hn & Hnm & _).
  set (n := region_size _ _) in *. rewrite min_chunk_size in Hc. destruct (mmap_grows n (os y) ltac:(lia) Hnm) as (r & w & Hmm & Hr).
  destruct (dlmalloc_one gm_addr stack_addr Hgm fuel y lo bs bytes r w H Hf Hbytes Hthr Hmm) as (m & y' & Hrun & Ep & Hans).
  { destruct Hr as [[-> _]|(-> & Hbn & Hle)]; [by left|right]. rewrite Hb in *. split; [done|]. apply (room_mono _ (hi - lo)); [lia|done]. }
  exists m, y'. split; [done|]. destruct Hans as [(-> & Eh & _ & Eo)|(Hm & bs' & p & sz & H' & Hp & Hroom1 & Hsys)].
  - right. exists bs, used. rewrite decide_True by done. split; [destruct H; split; by rewrite ?Eh, ?Ep|]. split; [|done]. rewrite <-Hb.
    destruct Eo as [[-> _]|[-> ->]]; [done|]. apply (failed_brk y n); [lia|done].
  - right. rewrite decide_False by done. exists bs', ((p, sz) :: used). split; [done|]. split; [|split; [by rewrite Hp, Hu|]].
    + destruct Hsys as [[-> ->]|(-> & -> & Hnr & _)]; [done|]. destruct Hr as [[-> _]|(_ & -> & _)]; [done|]. lia.
    + constructor; [|done]. destruct Hroom1 as (-> & _ & _ & Hsz & _). split; simpl; lia.
Qed.

Lemma malloc_step fuel y live bytes : in_order y live -> (0 < fuel)%nat -> modest y bytes ->
  exists m y', dlmalloc gm_addr stack_addr fuel bytes y = Ok (m, y') /\ in_order y' (if decide (m = 0) then live else (m, bytes) :: live).
Proof.
  intros [(H & Hb & ->)|(bs & used & H & Hb & Hu & Hl)] Hf Hm; [by apply malloc_unused|by apply (malloc_served fuel y bs used)].
Qed.

Lemma free_step fuel y live m bytes : in_order y ((m, bytes) :: live) -> (0 < fuel)%nat ->
  exists y', dlfree gm_addr stack_addr fuel m y = Ok (tt, y') /\ in_order y' live.
Proof.
  intros [(_ & _ & [=])|(bs & used & H & Hb & Hu & Hl)] Hf. inversion Hl as [|? [p sz] ? used' [E Hsz] Hl']; subst. simpl in E. subst m.
  assert (Htail : tail_unmaps y lo bs).
  { intros n Hn Hnm. destruct (munmap_shrinks n (os y)) as (r & w & Hr & _); [lia|done|rewrite Hb; change TOP_FOOT_SIZE with 80; lia|].
    exists r, w. by rewrite <-Hb. }
  destruct (dlfree_one gm_addr stack_addr Hgm fuel y lo bs p sz H Hf ltac:(rewrite Hu; left) Htail) as (y' & Hrun & bs' & n & H' & Ep & Hp & Hn & Et & Hos).
  exists y'. split; [done|]. right. exists bs', used'. split; [done|]. split; [|split; [|done]].
  - destruct Hos as [[-> ->]|(r & n' & Hn' & Hnm & Hr & En)]; [lia|]. rewrite <-Hb in Hr.
    destruct (munmap_shrinks n' (os y)) as (r1 & w1 & Hr1 & Hb1); [lia|done|rewrite Hb; change TOP_FOOT_SIZE with 80; lia|].
    rewrite Hr in Hr1. injection Hr1 as <- <-. rewrite Hb1. case_decide; lia.
  - rewrite Hu in Hp. by apply Permutation_cons_inv in Hp.
Qed.

Lemma session_in_order fuel y0 y live : unused y0 -> brk (os y0) = lo -> (0 < fuel)%nat -> session fuel y0 y live -> in_order y live.
Proof.
  intros H0 Hb Hf. induction 1 as [|y live bytes y' _ IH Hm Hrun|y live bytes m y' _ IH Hm Hrun Hnz|y live m bytes y' _ IH Hrun|y live live' _ IH Hp].
  - by left.
  - destruct (malloc_step fuel y live bytes IH Hf Hm) as (m' & y1 & Hrun1 & H1). rewrite Hrun in Hrun1. by injection Hrun1 as <- <-.
  - destruct (malloc_step fuel y live bytes IH Hf Hm) as (m' & y1 & Hrun1 & H1). rewrite Hrun in Hrun1. injection Hrun1 as <- <-.
    by rewrite decide_False in H1.
  - destruct (free_step fuel y live m bytes IH Hf) as (y1 & Hrun1 & H1). rewrite Hrun in Hrun1. by injection Hrun1 as <-.
  - destruct IH as [(H & Hbr & ->)|(bs & used & H & Hbr & Hu & Hl)]; [apply Permutation_nil_l in Hp; subst; by left|right].
    destruct (Permutation_Forall2 Hp Hl) as (used' & Hpu & Hl'). exists bs, used'. split; [done|]. split; [done|]. split; [by rewrite Hu|done].
Qed.

(** Held blocks do not overlap. *)
Definition apart (live : list (Z * Z)) : Prop := forall i j m n b c, live !! i = Some (m, b) -> live !! j = Some (n, c) -> i <> j -> m + b <= n \/ n + c <= m.

Lemma in_order_apart y live : in_order y live -> apart live.
Proof.
  intros [(_ & _ & ->)|(bs & used & H & _ & Hu & Hl)] i j m n b c Hi Hj Hne; [by rewrite lookup_nil in Hi|].
  destruct (Forall2_lookup_l _ _ _ _ _ Hl Hi) as ([p sz] & Hp & E1 & S1). destruct (Forall2_lookup_l _ _ _ _ _ Hl Hj) as ([q z] & Hq & E2 & S2).
  simpl in *. pose proof (core_ok _ _ _ _ (hi_core _ _ _ _ (os_heap _ _ _ _ H))) as Hok.
  assert (Hpin : (p, sz) ∈ of_kind InUse lo bs) by (rewrite Hu; by apply (list_elem_of_lookup_2 _ i)).
  assert (Hqin : (q, z) ∈ of_kind InUse lo bs) by (rewrite Hu; by apply (list_elem_of_lookup_2 _ j)).
  destruct (of_kind_apart _ _ _ _ _ _ _ _ Hok Hpin Hqin) as [->|[Hd|Hd]]; [exfalso|lia|lia].
  pose proof (of_kind_nodup InUse lo bs Hok) as Hnd. rewrite Hu in Hnd. apply Hne.
  by apply (NoDup_lookup used.*1 i j q Hnd); rewrite list_lookup_fmap, ?Hp, ?Hq.
Qed.
End sessions.

(** Between calls everything can go on, and what was given back is one block again. *)
Section safe.
Context {W : Type} `{!SystemMemory W} (lo hi : Z) `{!GrowingMemory W lo hi}.
Context (gm_addr stack_addr : Z) (Hgm : 0 < gm_addr) (Hlo : 0 < lo /\ lo mod 16 = 0) (Hroom : room gm_addr lo (hi - lo)).

Lemma in_order_perm y live live' : live ≡ₚ live' -> in_order lo hi gm_addr y live -> in_order lo hi gm_addr y live'.
Proof.
  intros Hp [(H & Hbr & ->)|(bs & used & H & Hbr & Hu & Hl)]; [apply Permutation_nil_l in Hp; subst; by left|right].
  destruct (Permutation_Forall2 Hp Hl) as (used' & Hpu & Hl'). exists bs, used'. split; [done|]. split; [done|]. split; [by rewrite Hu|done].
Qed.

Lemma in_order_frees fuel y live m bytes : in_order lo hi gm_addr y live -> (0 < fuel)%nat -> (m, bytes) ∈ live ->
  exists y', dlfree gm_addr stack_addr fuel m y = Ok (tt, y').
Proof.
  intros H Hf Hin. apply elem_of_Permutation in Hin as (live' & Hp). apply (in_order_perm _ _ _ Hp) in H.
  destruct (free_step lo hi gm_addr stack_addr Hgm fuel y live' m bytes H Hf) as (y' & Hrun & _). by exists y'.
Qed.

Lemma in_order_empty y : in_order lo hi gm_addr y [] -> unused y \/ top (gm (hst y)) = lo /\ topsize (gm (hst y)) + TOP_FOOT_SIZE = brk (os y) - lo.
Proof.
  intros [(H & _)|(bs & used & H & Hb & Hu & Hl)]; [by left|right]. apply Forall2_nil_inv_l in Hl as ->. apply Permutation_nil_r in Hu.
  pose proof (os_heap _ _ _ _ H) as Hi. pose proof (all_free _ _ _ _ Hi Hu) as Ebs. rewrite Hb, Ebs. simpl.
  destruct (hc_top _ _ _ _ (hi_core _ _ _ _ Hi)) as (l & El & E2 & _). rewrite Ebs in El. destruct l as [|b [|]]; [|discriminate|discriminate]. simpl in E2. split; lia.
Qed.
End safe.

(** ** A system for examples: addresses from 1 MiB on, mapped up to the state *)
Definition LO : Z := 0x100000.
Definition HI : Z := LO + 2 ^ 30.
#[export] Instance counter_memory : SystemMemory Z := {
  CALL_MMAP n := fun w => if decide (w + n <= HI) then Ok (w, w + n) else Ok (MFAIL, w);
  CALL_MUNMAP a n := fun w => if decide (a + n = w) then Ok (0, a) else Ok (-1, w) }.
#[export] Instance counter_grows : GrowingMemory Z LO HI.
Proof.
  refine {| brk := fun w => w |}.
  - intros n w Hn _. simpl. case_decide; eexists _, _; (split; [done|]); [by right|by left].
  - intros n w Hn _ Hl. simpl. rewrite decide_True by lia. eexists _, _. split; [done|]. by rewrite decide_True.
Defined.

Definition first_state : dlsys Z := mkSys Z (mkDl (MState 0 0 0 0 0 0 0 0 0 0 (replicate 32 0) 0 0 0 0 (mkSegment 0 0 0 0)) ∅) ∅ (mkParams 0 0 0 0 0 0) (fun _ => 0) LO.
Definition after_malloc (bytes : Z) (y : dlsys Z) : Z * dlsys Z := match dlmalloc 4096 0x7ffc 1 bytes y with Ok r => r | Stop _ => (0, y) end.
Definition second_state : dlsys Z := (after_malloc 100 first_state).2.

Lemma example_room : room 4096 LO (HI - LO).
Proof.
  split; [vm_compute; discriminate|]. split; [done|]. intros y [(i & Hi & ->)| ->]; unfold LO, HI.
  - unfold smallbin_at. rewrite Z.shiftl_mul_pow2 by lia. lia.
  - unfold seg_addr. lia.
Qed.
Lemma first_state_unused : unused first_state.
Proof. split; try done. by left. Qed.
Lemma example_session : session 4096 0x7ffc 1 first_state second_state [(0x100010, 100)].
Proof.
  apply session_malloc with (y := first_state); [constructor|split; [vm_compute; split; congruence|vm_compute; reflexivity]|vm_compute; reflexivity|done].
Qed.

#[local] Opaque second_state first_state dlmalloc dlfree.

(** ** Properties *)

(** C13: [dlmalloc] as a whole. On a heap of one segment, a request below the threshold for mappings of its own
    returns, when the system answers one call of [mmap] with failure or the region behind the segment. It answers 0, with the
    heap as it was and no free block large enough; or a fresh, aligned block apart from all others. The heap becomes longer only
    when nothing in it was large enough, by the region that was mapped. *)
Theorem dlmalloc_extends {W} `{!SystemMemory W} gm_addr stack_addr fuel (y : dlsys W) a0 bs bytes r w :
  let n := region_size (mparams y) (chunk_size bytes) in 0 < gm_addr -> one_segment gm_addr y a0 bs -> (0 < fuel)%nat -> 0 <= bytes < MAX_TREE_SIZE - 32 ->
  chunk_size bytes < mmap_threshold (mparams y) -> CALL_MMAP n (os y) = Ok (r, w) -> contiguous gm_addr a0 bs n r ->
  exists m y', dlmalloc gm_addr stack_addr fuel bytes y = Ok (m, y') /\ mparams y' = mparams y /\ served_call gm_addr y y' a0 bs bytes n r w m.
Proof. intros n Hgm. by apply dlmalloc_one. Qed.

Lemma brk_counter w : brk w = w.
Proof. done. Qed.

Lemma second_state_one : exists bs used, one_segment 4096 second_state LO bs /\ total bs = 65456 /\ of_kind InUse LO bs ≡ₚ used /\ Forall2 holds [(0x100010, 100)] used.
Proof.
  destruct (session_in_order LO HI 4096 0x7ffc ltac:(lia) ltac:(done) example_room 1 first_state second_state _ first_state_unused eq_refl ltac:(lia) example_session)
    as [(_ & _ & [=])|(bs & used & H & Hb & Hu & Hl)].
  exists bs, used. split; [exact H|]. split; [|exact (conj Hu Hl)]. assert (E : os second_state = LO + 65536) by (vm_compute; reflexivity).
  rewrite brk_counter, E, top_foot_size in Hb. lia.
Defined.

Lemma dlmalloc_extends_witness : exists bs m y', dlmalloc 4096 0x7ffc 1 100000 second_state = Ok (m, y') /\
  served_call 4096 second_state y' LO bs 100000 131072 (LO + 65536) (LO + 65536 + 131072) m.
Proof.
  destruct second_state_one as (bs & used & H & Et & _). exists bs.
  assert (En : region_size (mparams second_state) (chunk_size 100000) = 131072) by (vm_compute; reflexivity).
  pose proof (dlmalloc_extends 4096 0x7ffc 1 second_state LO bs 100000 (LO + 65536) (LO + 65536 + 131072)) as Hd. cbv zeta in Hd. rewrite En in Hd.
  destruct Hd as (m & y' & Hrun & _ & Hs); [lia|exact H|lia|vm_compute; by split|vm_compute; reflexivity|vm_compute; reflexivity| |exists m, y'; exact (conj Hrun Hs)].
  right. rewrite Et, top_foot_size. split; [done|]. apply (room_mono LO 4096 _ (HI - LO)); [done|apply example_room].
Defined.

(** C14: [dlfree] as a whole. On a heap of one segment, freeing a block in use returns, when the system answers where the tail of the segment
    is given back; exactly that block is out of use, no two free blocks are neighbours, and the heap is shorter by what was unmapped, with its
    top still in place, or as long as before. *)
Theorem dlfree_trims {W} `{!SystemMemory W} gm_addr stack_addr fuel (y : dlsys W) a0 bs p sz : 0 < gm_addr -> one_segment gm_addr y a0 bs -> (0 < fuel)%nat ->
  (p, sz) ∈ of_kind InUse a0 bs -> tail_unmaps y a0 bs ->
  exists y', dlfree gm_addr stack_addr fuel (p + 16) y = Ok (tt, y') /\ freed_call gm_addr y y' a0 bs p sz.
Proof. intros Hgm. by apply dlfree_one. Qed.

Lemma dlfree_trims_witness : exists bs p sz y', dlfree 4096 0x7ffc 1 (p + 16) second_state = Ok (tt, y') /\ p = LO /\ freed_call 4096 second_state y' LO bs p sz.
Proof.
  destruct second_state_one as (bs & used & H & Et & Hu & Hl). inversion Hl as [|? [p sz] ? used' [E Hsz] Hl']; subst. simpl in E.
  destruct (dlfree_trims 4096 0x7ffc 1 second_state LO bs p sz) as (y' & Hrun & Hf); [lia|exact H|lia|rewrite Hu; left| |].
  - intros n Hn _. simpl. rewrite Et, top_foot_size. rewrite decide_True; [by eexists _, _|]. assert (Eo : os second_state = LO + 65536) by (vm_compute; reflexivity). rewrite Eo. lia.
  - exists bs, p, sz, y'. split; [exact Hrun|]. split; [unfold LO; lia|exact Hf].
Defined.
