(* ===== verification/DlKernel.v ===== *)
(** The C library's allocator over the kernel's [mmap] and [munmap] (lib/stdlib/dlmalloc.c, lib/sys/mman): files
    DlSystem, Mman and Munmap put together.

    [kernel_memory] is the kernel's memory system: [CALL_MMAP] and [CALL_MUNMAP] as the macros of
    lib/stdlib/dlmalloc.c (lines 212 to 219) expand. *)
From S2P Require Import Prelude DList Paging Pmm Slab Vmm Mman Munmap DlBins DlHeap DlTree DlLarge.
From S2P Require Import DlSmall DlFree DlMalloc DlLayout DlCore DlAlloc DlServe DlRequest DlRelease DlInit DlFrame Dlmalloc DlSys DlGrow DlSystem.
Import MMU.

Definition MMAP_PROT : Z := PROT_READ .| PROT_WRITE.
Definition MMAP_FLAGS : Z := MAP_PRIVATE .| MAP_ANONYMOUS.

(** [vfuel] bounds the walks of the region list. *)
Definition kernel_memory {A} `{!ObjSource A} (vfuel : nat) : SystemMemory (mman A gpmm) := {|
  CALL_MMAP n := mmap vfuel 0 n MMAP_PROT MMAP_FLAGS (-1) 0;
  CALL_MUNMAP a n := munmap vfuel a n |}.

Section kernel.
Context {A : Type} `{!ObjSource A} (vfuel fuel : nat).
#[local] Existing Instance kernel_memory.
Context (gm_addr stack_addr : Z) (Hgm : 0 < gm_addr).

(** The first fitting region of the kernel's list is [r], and there is memory to map [n] bytes there. *)
Record can_map (w : mman A gpmm) (r : region) (n : Z) : Prop := {
  cm_vmm : exists l rs1 rs2, is_vmm (regions w) l /\ l.*2 = rs1 ++ r :: rs2 /\ ordered 0 l.*2 /\ (length l < vfuel)%nat /\
    Forall (fun r => fits_request n r = false) rs1;
  cm_fits : fits_request n r = true;
  cm_objects : objects (objs (regions w)) <> [];
  cm_tables : pt_ok (space w);
  cm_pages : n mod 4096 = 0 /\ 0 < n < 2 ^ 50 /\ 4 * (n / 4096) <= Z.of_nat (length (avail (pages (space w))));
  cm_range : range_ok (r_start r) (n / 4096) }.

(** Every byte of a range is mapped. *)
Definition all_mapped (w : mman A gpmm) (a n : Z) : Prop := forall va, a <= va < a + n -> is_Some (walk (ram (space w)) (cr3 (space w)) va).

Lemma range_byte virt n va : range_ok virt n -> virt <= va < virt + 4096 * n -> canonical va = true /\ idx 3 va <> 510.
Proof.
  intros (Ha & Hr & Hi) Hva. split.
  - unfold canonical, HIGHER_HALF in *. apply bool_decide_eq_true. lia.
  - specialize (Hi ((va - virt) / 4096) ltac:(zlia)). replace (virt + 4096 * ((va - virt) / 4096)) with (va / 4096 * 4096) in Hi by zlia.
    pose proof (path_page va) as E. injection E as E _. by rewrite E in Hi.
Qed.

Lemma kernel_maps w r n : can_map w r n -> exists w', mmap vfuel 0 n MMAP_PROT MMAP_FLAGS (-1) 0 w = Ok (r_start r, w') /\ all_mapped w' (r_start r) n.
Proof.
  intros [(l & rs1 & rs2 & Hv & El & Hord & Hf & Hno) Hfit Hobj Hok (Hm & Hn & Hav) Hr].
  assert (En : n = 4096 * (n / 4096)) by zlia. rewrite En in Hno, Hfit.
  destruct (mmap_maps vfuel w l rs1 r rs2 (n / 4096) MMAP_PROT Hv El Hord Hf Hno Hfit Hobj) as (w' & l' & Hrun & _ & _ & _ & Hok' & Hfresh);
    [zlia|done|done|done|done|].
  exists w'. split; [by rewrite En|]. intros va Hva. destruct (range_byte _ _ va Hr ltac:(lia)) as [Hc Hi]. apply (Hfresh va Hc Hi). lia.
Qed.

Abbreviation kernel_malloc := (dlmalloc (SystemMemory0 := kernel_memory vfuel) gm_addr stack_addr fuel).

(** The first call: the request lies in one block of the new heap, and its bytes are mapped. *)
Definition first_answer (y' : dlsys (mman A gpmm)) (a0 bytes m : Z) : Prop := exists bs' p sz, one_segment gm_addr y' a0 bs' /\
  of_kind InUse a0 bs' = [(p, sz)] /\ room_for a0 [] p sz bytes m /\ all_mapped (os y') m bytes.

Lemma first_call y r bytes : let n := region_size (params_of stack_addr (mparams y)) (chunk_size bytes) in unused y -> footprint_limit (gm (hst y)) = 0 ->
  0 <= bytes < MAX_TREE_SIZE - 32 -> can_map (os y) r n -> 0 < r_start r -> room gm_addr (r_start r) n ->
  exists m y', kernel_malloc bytes y = Ok (m, y') /\ first_answer y' (r_start r) bytes m.
Proof.
  intros n H Hlim Hb Hcm Hr Hroom. destruct (chunk_size_fine bytes Hb) as (Hbr & Hcm' & Hc). destruct (kernel_maps (os y) r n Hcm) as (w & Hmm & Hmap).
  pose proof (cm_range _ _ _ Hcm) as (Hal & _). assert (Hne : r_start r <> MFAIL) by (destruct Hroom as (_ & Hr2 & _); destruct (cm_pages _ _ _ Hcm) as (_ & ? & _); change MFAIL with (2 ^ 64 - 1); lia).
  destruct (sys_alloc_first (SystemMemory0 := kernel_memory vfuel) gm_addr stack_addr Hgm fuel y (chunk_size bytes) (r_start r) w H Hcm' Hc Hmm) as (m & y' & Hrun & _ & Hans).
  { right. split; [done|]. split; [zlia|done]. }
  exists m, y'. split.
  - unfold dlmalloc. rewrite (on_heap_bind _ _ _ _ _ (malloc_fast_unused gm_addr bytes (hst y) (un_bins _ H) (proj2 (un_top _ H)) Hb)).
    replace (with_hst (hst y) y) with y by (by destruct y). exact Hrun.
  - destruct Hans as [(_ & _ & [[_ ?]|[? _]])|(Hm & (bs' & p & sz & H' & Et & -> & Hsz & Hp) & Eo & _)]; [done|done|]. cbn [of_kind] in Hp.
    pose proof (new_in_use gm_addr (hst y') (r_start r) bs' [] p sz bytes Hbr (os_heap _ _ _ _ H') Hp Hsz) as Hroom'.
    apply Permutation_singleton_r in Hp. exists bs', p, sz. split; [done|]. split; [done|]. split; [done|].
    intros va Hva. rewrite Eo. apply Hmap. destruct Hroom' as (Em & _ & Ha & He & _). rewrite top_foot_size in Et.
    assert (Hin : (p, sz) ∈ of_kind InUse (r_start r) bs') by (rewrite Hp; left).
    destruct (of_kind_range _ _ _ _ _ (core_ok _ _ _ _ (hi_core _ _ _ _ (os_heap _ _ _ _ H'))) Hin) as (_ & _ & Hend & _). lia.
Qed.

(** ** Trimming *)
Abbreviation kernel_free := (dlfree (SystemMemory0 := kernel_memory vfuel) gm_addr stack_addr fuel).

(** The [e] bytes before [stop] are mapped to pages [fs] of their own, and no used region of that length starts there. *)
Record part_of_region (w : mman A gpmm) (start e : Z) (fs : list Z) : Prop := {
  pa_vmm : exists l, is_vmm (regions w) l /\ (length l < vfuel)%nat /\ Forall (fun r => 0 <= r_len r <= 2 ^ 64 - 0x1000) l.*2 /\
    forall m rs', free_regions start l.*2 = Some (m, rs') -> m <> e;
  pa_tables : pt_ok (space w);
  pa_range : range_ok start (e / 4096) /\ start <> 0 /\ e mod 4096 = 0 /\ 0 < e;
  pa_owns : owns (space w) start (e / 4096) fs }.

Lemma tail_stops w start e fs : part_of_region w start e fs -> munmap vfuel start e w = Stop (AssertFailed "region == len").
Proof.
  intros [(l & Hv & Hf & Hlen & Hno) Hok (Hr & Hnz & Hm & He) Ho]. assert (E : e = 4096 * (e / 4096)) by zlia. rewrite E in Hno |- *.
  by apply (munmap_mismatch vfuel w l start (e / 4096) fs); [| | | | | |zlia| |].
Qed.

Lemma free_stops y a0 bs p sz h fs : one_segment gm_addr y a0 bs -> (0 < fuel)%nat -> (p, sz) ∈ of_kind InUse a0 bs ->
  free_fast gm_addr (p + 16) (hst y) = Ok (Trim, h) -> TOP_FOOT_SIZE < topsize (gm h) ->
  let e := trim_extra (granularity (mparams y)) (topsize (gm h)) TOP_FOOT_SIZE in part_of_region (os y) (a0 + total bs + TOP_FOOT_SIZE - e) e fs ->
  kernel_free (p + 16) y = Stop (AssertFailed "region == len").
Proof.
  intros H Hf Hin Hrun Hz e Hpart. destruct (free_contract gm_addr Hgm (hst y) a0 bs p sz (os_heap _ _ _ _ H) Hin) as (ans & h' & bs1 & Hrun' & _ & Hi & Et & _).
  rewrite Hrun in Hrun'. injection Hrun' as <- <-.
  assert (H1 : one_segment gm_addr (with_hst h y) a0 bs1) by (apply (one_hst gm_addr _ _ _ _ _ H); try done; by apply (keeps_free_fast gm_addr (p + 16) _ _ _ Hrun)).
  unfold dlfree. rewrite (on_heap_bind _ _ _ _ _ Hrun). apply bind_stop.
  apply (sys_trim_stops (SystemMemory0 := kernel_memory vfuel) gm_addr stack_addr fuel (with_hst h y) a0 bs1 _ H1 Hf Hz).
  cbn [hst with_hst os mparams]. rewrite Et. by apply (tail_stops _ _ _ fs).
Qed.
End kernel.

(** ** An example: the kernel with 80 free pages, and addresses from 4 MiB on free *)
Definition map_descs : list efi_memory_descriptor := [ {| Type_ := EfiConventionalMemory; PhysicalStart := 0x100000; NumberOfPages := 80 |} ].
Definition map_ready : pst gpmm := match mm_physical_init map_descs own_start with Ok (_, s) => s | Stop _ => own_start end.

Lemma map_ready_ok : pt_ok map_ready /\ length (avail (pages map_ready)) = 80%nat.
Proof.
  destruct (init_spec map_descs own_start) as (p & Hrun & Hg & Hp).
  - apply pmm_root_ok.
  - apply (bool_decide_unpack _). vm_compute. reflexivity.
  - apply (bool_decide_unpack _). vm_compute. reflexivity.
  - apply (bool_decide_unpack _). vm_compute. reflexivity.
  - assert (E : free_pages (gchain p) = reverse ((fun i => 0x100000 + 4096 * i) <$> seqZ 0 80)) by (rewrite Hg; vm_compute; reflexivity).
    unfold map_ready. rewrite Hrun. cbn [pages]. change (avail p) with (free_pages (gchain p)). split; [|by rewrite E].
    apply pt_ok_init; [exact own_root|exact Hp|..]; change (avail p) with (free_pages (gchain p)); rewrite E.
    all: clear Hrun Hg Hp E; apply (bool_decide_unpack _); vm_compute; reflexivity.
Qed.

Definition zeroed_state {W} (w : W) : dlsys W :=
  mkSys W (mkDl (MState 0 0 0 0 0 0 0 0 0 0 (replicate 32 0) 0 0 0 0 (mkSegment 0 0 0 0)) ∅) ∅ (mkParams 0 0 0 0 0 0) (fun _ => 0) w.
Lemma zeroed_unused {W} (w : W) : unused (zeroed_state w).
Proof. split; try done. by left. Qed.

(** ** Properties *)

(** C15: the first [dlmalloc] of the kernel. From zeroed memory, when the first fitting region of the kernel's list has room and there is memory
    for it, the call returns an aligned block of a heap that starts at the region, and every byte that was asked for is mapped. *)
Theorem kernel_malloc_is_mapped {A} `{!ObjSource A} vfuel fuel gm_addr stack_addr (y : dlsys (mman A gpmm)) r bytes :
  let n := region_size (params_of stack_addr (mparams y)) (chunk_size bytes) in 0 < gm_addr -> unused y -> footprint_limit (gm (hst y)) = 0 ->
  0 <= bytes < MAX_TREE_SIZE - 32 -> can_map vfuel (os y) r n -> 0 < r_start r -> room gm_addr (r_start r) n ->
  exists m y', dlmalloc (SystemMemory0 := kernel_memory vfuel) gm_addr stack_addr fuel bytes y = Ok (m, y') /\ first_answer gm_addr y' (r_start r) bytes m.
Proof. intros n Hgm. by apply first_call. Qed.

Lemma kernel_malloc_is_mapped_witness : exists (y y' : dlsys (mman (list Z) gpmm)) m,
  dlmalloc (SystemMemory0 := kernel_memory 2) 4096 0x7ffc 1 100 y = Ok (m, y') /\ all_mapped (os y') m 100.
Proof.
  destruct (vmm_one 0x400000 0x100000 VM_FREE) as (v & H & Ho); [done|done|]. set (w := mkMM v map_ready : mman (list Z) gpmm).
  destruct map_ready_ok as [Hok Hav].
  destruct (kernel_malloc_is_mapped 2 1 4096 0x7ffc (zeroed_state w) (mkR 0x400000 0x100000 VM_FREE) 100) as (m & y' & Hrun & bs' & p & sz & _ & _ & _ & Hmap).
  - lia.
  - apply zeroed_unused.
  - reflexivity.
  - vm_compute; by split.
  - assert (En : region_size (params_of 0x7ffc (mkParams 0 0 0 0 0 0)) (chunk_size 100) = 65536) by (vm_compute; reflexivity).
    cbn [zeroed_state mparams]. rewrite En. split; cbn [os zeroed_state w regions space].
    + exists [(8, mkR 0x400000 0x100000 VM_FREE)], [], []. split; [exact H|]. clear. split; [reflexivity|]. split; [cbn; lia|]. split; [cbn; lia|constructor].
    + reflexivity.
    + by rewrite Ho.
    + exact Hok.
    + split; [reflexivity|]. split; [lia|]. rewrite Hav. vm_compute. discriminate.
    + change (65536 / 4096) with 16. clear. split; [reflexivity|]. cbn [r_start]. split; [unfold HIGHER_HALF; lia|]. intros k Hk. rewrite idx_3. zlia.
  - cbn. lia.
  - vm_compute region_size. clear. split; [vm_compute; discriminate|]. split; [cbn; lia|]. cbn [r_start]. intros x [(i & Hi & ->)| ->].
    + unfold smallbin_at. rewrite Z.shiftl_mul_pow2 by lia. lia.
    + unfold seg_addr. lia.
  - exists (zeroed_state w), y', m. exact (conj Hrun Hmap).
Defined.

(** A heap of three pages at 0x3FF000, its parameters set for an early trim, with one block in use. *)
Definition trim_params : malloc_params := mkParams 8 4096 4096 0x40000 4096 5.
Definition trim_start : dl_st := mkDl (MState 0 0 0 0 0x3FF000 0 0 0 4095 8 (replicate 32 0) 0x3000 0x3000 0 5 (mkSegment 0x3FF000 0x3000 0 USE_MMAP_BIT)) ∅.
Definition trim_heap : dl_st := match init_top 4096 0x3FF000 (0x3000 - TOP_FOOT_SIZE) trim_start with Ok (_, s) => s | Stop _ => trim_start end.
Definition trim_used : dl_st := match malloc_fast 4096 100 trim_heap with Ok (_, s) => s | Stop _ => trim_start end.
Definition trim_freed : dl_st := match free_fast 4096 0x3FF010 trim_used with Ok (_, s) => s | Stop _ => trim_start end.

Lemma trim_heap_inv : heap_inv 4096 trim_heap 0x3FF000 [(12208, Top)].
Proof.
  destruct (init_top_ok 4096 4096 trim_start 0x3FF000 12208) as (s' & Hrun & Hi & _); try done.
  - intros x (i & Hi & ->). unfold smallbin_at. rewrite Z.shiftl_mul_pow2 by lia. lia.
  - unfold trim_heap. change (0x3000 - TOP_FOOT_SIZE) with 12208. by rewrite Hrun.
Qed.

Lemma trim_used_ok : exists bs sz, heap_inv 4096 trim_used 0x3FF000 bs /\ total bs = 12208 /\ (0x3FF000, sz) ∈ of_kind InUse 0x3FF000 bs.
Proof.
  destruct (malloc_contract 4096 ltac:(lia) trim_heap _ _ 100 trim_heap_inv) as (res & s' & Hrun & Hans); [vm_compute; by split|].
  assert (E : malloc_fast 4096 100 trim_heap = Ok (inl 0x3FF010, trim_used)) by (vm_compute; reflexivity).
  rewrite E in Hrun. injection Hrun as <- <-. destruct Hans as (bs' & p & sz & H & Et & Hp & Em & _). exists bs', sz. split; [exact H|]. split; [exact Et|].
  rewrite Hp. assert (p = 0x3FF000) as -> by lia. left.
Qed.

(** C16: freeing can stop the kernel. When a block is freed and the top has grown past the trim threshold, [sys_trim] unmaps the tail of the
    heap's segment; the kernel's [munmap] takes whole regions only, unmaps the pages, and its assertion fails. *)
Theorem kernel_free_stops {A} `{!ObjSource A} vfuel fuel gm_addr stack_addr (y : dlsys (mman A gpmm)) a0 bs p sz h fs :
  0 < gm_addr -> one_segment gm_addr y a0 bs -> (0 < fuel)%nat -> (p, sz) ∈ of_kind InUse a0 bs ->
  free_fast gm_addr (p + 16) (hst y) = Ok (Trim, h) -> TOP_FOOT_SIZE < topsize (gm h) ->
  let e := trim_extra (granularity (mparams y)) (topsize (gm h)) TOP_FOOT_SIZE in part_of_region vfuel (os y) (a0 + total bs + TOP_FOOT_SIZE - e) e fs ->
  dlfree (SystemMemory0 := kernel_memory vfuel) gm_addr stack_addr fuel (p + 16) y = Stop (AssertFailed "region == len").
Proof. intros Hgm. by apply free_stops. Qed.

Lemma kernel_free_stops_witness : exists y : dlsys (mman (list Z) gpmm),
  dlfree (SystemMemory0 := kernel_memory 2) 4096 0x7ffc 1 0x3FF010 y = Stop (AssertFailed "region == len").
Proof.
  destruct (vmm_one 0x3FF000 0x3000 VM_USED) as (v & H & _); [reflexivity|reflexivity|]. destruct own_example_ok as [Hok Ho]. destruct trim_used_ok as (bs & sz & Hi & Et & Hin).
  set (y := mkSys (mman (list Z) gpmm) trim_used ∅ trim_params (fun _ => 0) (mkMM v own_example)). exists y.
  assert (Hrun : free_fast 4096 0x3FF010 trim_used = Ok (Trim, trim_freed)) by (vm_compute; reflexivity).
  assert (Ez : topsize (gm trim_freed) = 12208) by (vm_compute; reflexivity).
  apply (kernel_free_stops 2 1 4096 0x7ffc y 0x3FF000 bs 0x3FF000 sz trim_freed [0x500000; 0x501000]); [lia| |lia|exact Hin|exact Hrun|rewrite Ez; reflexivity|].
  - split; [exact Hi|cbn [hst y]; rewrite Et; vm_compute; reflexivity|split; [discriminate|exists 12; split; [lia|reflexivity]]|].
    rewrite Et. clear. split; [vm_compute; discriminate|]. split; [reflexivity|]. intros x [(i & Hi & ->)| ->].
    + unfold smallbin_at. rewrite Z.shiftl_mul_pow2 by lia. rewrite top_foot_size. lia.
    + unfold seg_addr. rewrite top_foot_size. lia.
  - cbn [y mparams granularity trim_params]. rewrite Ez, Et. change (trim_extra 4096 12208 TOP_FOOT_SIZE) with 0x2000. change (0x3FF000 + 12208 + TOP_FOOT_SIZE - 0x2000) with 0x400000.
    split; cbn [os y regions space].
    + exists [(8, mkR 0x3FF000 0x3000 VM_USED)]. split; [exact H|]. clear. split; [cbn; lia|]. split; [repeat constructor; cbn; lia|]. intros m rs' Hf. discriminate Hf.
    + exact Hok.
    + split; [apply range_example|]. split; [lia|]. split; [reflexivity|lia].
    + exact Ho.
Defined.
