(* ===== verification/DlCalls.v ===== *)
(** The rest of the C library's allocator (lib/stdlib/dlmalloc.c): resizing, aligned requests, clearing,
    requests in bulk, statistics and parameters.

    [user_memcpy] and [user_memset], the calls of [memcpy] and [memset] here, work on the bytes of blocks, which are apart from the chunk headers; the
    blocks [realloc] copies between do not overlap. [Unmap] is what [dispose_chunk] leaves to be done for a
    chunk that was mapped for one request. [MSPACES], [MALLOC_INSPECT_ALL], [FOOTERS] and [DEBUG] are off, and
    [MALLOC_FAILURE_ACTION] does nothing (kernel/include/mm/malloc.h). *)
From S2P Require Import Prelude DlBins DlHeap DlTree DlFree DlMalloc DlInit DlSys.

Definition MMAP_CHUNK_OVERHEAD : Z := 16.
Definition EINVAL : Z := 1.
Definition ENOMEM : Z := 3.

(** ** Chunks in use *)
Section heap.
Context (gm_addr : Z).
Abbreviation D := (cmd dl_st).

Definition set_inuse (p s : Z) : D unit :=
  h ← rd head p;
  _ ← wr (set_head ((h .& PINUSE_BIT) .| s .| CINUSE_BIT)) p;
  let n := chunk_plus_offset p s in
  h ← rd head n;
  wr (set_head (h .| PINUSE_BIT)) n.

(** The last part of [dispose_chunk]: consolidation with the chunk that follows. *)
Definition dispose_forward (p psize next : Z) : D after_free :=
  _ ← rtcheck "dispose_chunk" (ok_address next);
  c ← rd cinuse next;
  if decide (c = 0) then
    t ← gets (fun s => top (gm s));
    d ← gets (fun s => dv (gm s));
    if decide (next = t) then
      tops ← gets (fun s => topsize (gm s));
      let tsize := u64 (tops + psize) in
      _ ← modify (set_gm (set_top p tsize));
      _ ← wr (set_head (tsize .| PINUSE_BIT)) p;
      _ ← (if decide (p = d) then modify (set_gm (set_dv 0 0)) else mret tt);
      mret Done
    else if decide (next = d) then
      dvs ← gets (fun s => dvsize (gm s));
      let dsize := u64 (dvs + psize) in
      _ ← modify (set_gm (set_dv p dsize));
      _ ← set_size_and_pinuse_of_free_chunk p dsize;
      mret Done
    else
      nsize ← rd chunksize next;
      let psize := u64 (psize + nsize) in
      _ ← unlink_chunk gm_addr "dispose_chunk" next nsize;
      _ ← set_size_and_pinuse_of_free_chunk p psize;
      if decide (p = d) then _ ← modify (set_gm (set_dv d psize)); mret Done
      else _ ← insert_chunk gm_addr "dispose_chunk" p psize; mret Done
  else
    _ ← set_free_with_pinuse p psize next;
    _ ← insert_chunk gm_addr "dispose_chunk" p psize;
    mret Done.

Definition dispose_fast (p psize : Z) : D after_free :=
  let next := chunk_plus_offset p psize in
  pi ← rd pinuse p;
  if decide (pi = 0) then
    prevsize ← rd prev_foot p;
    h ← rd head p;
    if decide (h .& INUSE_BITS = 0) then mret (Unmap (u64 (p - prevsize)) (u64 (psize + prevsize + MMAP_FOOT_PAD)))
    else
      let prev := chunk_minus_offset p prevsize in
      let psize := u64 (psize + prevsize) in
      _ ← rtcheck "dispose_chunk" (ok_address prev);
      d ← gets (fun s => dv (gm s));
      if decide (prev <> d) then
        _ ← unlink_chunk gm_addr "dispose_chunk" prev prevsize;
        dispose_forward prev psize next
      else
        hn ← rd head next;
        if decide (hn .& INUSE_BITS = INUSE_BITS) then
          _ ← modify (set_gm (set_dv d psize));
          _ ← set_free_with_pinuse prev psize next;
          mret Done
        else dispose_forward prev psize next
  else dispose_forward p psize next.

(** The check of [try_realloc_chunk]: an address of the heap, in use, before a chunk that knows it is. *)
Definition chunk_in_use (p next : Z) : D bool :=
  ok ← ok_address p;
  if ok : bool then
    h ← rd head p;
    if bool_decide (h .& INUSE_BITS <> PINUSE_BIT) && ok_next p next then c ← rd pinuse next; mret (bool_decide (c <> 0)) else mret false
  else mret false.

(** ** Resizing in place, by where the chunk may grow *)
Definition extend_into_top (p oldsize nb : Z) : D Z :=
  g ← gets gm;
  if decide (nb < u64 (oldsize + topsize g)) then
    let newsize := u64 (oldsize + topsize g) in
    let newtopsize := u64 (newsize - nb) in
    let newtop := chunk_plus_offset p nb in
    _ ← set_inuse p nb;
    _ ← wr (set_head (newtopsize .| PINUSE_BIT)) newtop;
    _ ← modify (set_gm (set_top newtop newtopsize));
    mret p
  else mret 0.

Definition extend_into_dv (p oldsize nb : Z) : D Z :=
  dvs ← gets (fun s => dvsize (gm s));
  if decide (nb <= u64 (oldsize + dvs)) then
    let dsize := u64 (oldsize + dvs - nb) in
    _ ← (if decide (MIN_CHUNK_SIZE <= dsize) then
           let r := chunk_plus_offset p nb in
           let n := chunk_plus_offset r dsize in
           _ ← set_inuse p nb;
           _ ← set_size_and_pinuse_of_free_chunk r dsize;
           _ ← clear_pinuse n;
           modify (set_gm (set_dv r dsize))
         else
           _ ← set_inuse p (u64 (oldsize + dvs));
           modify (set_gm (set_dv 0 0)));
    mret p
  else mret 0.
End heap.

Section calls.
Context {W : Type} `{!SystemMemory W}.
Context (gm_addr stack_addr : Z).
Abbreviation Y := (cmd (dlsys W)).

Definition unmap_region (b len : Z) : Y unit :=
  r ← on_os (CALL_MUNMAP b len);
  if decide (r = 0) then gm_set (fun g => set_footprint (u64 (footprint g - len)) g) else mret tt.

Definition dispose_chunk (p psize : Z) : Y unit :=
  a ← on_heap (dispose_fast gm_addr p psize);
  match a with Unmap b len => unmap_region b len | _ => mret tt end.

(** A chunk in use is cut after [nb] bytes; the remainder is given back. *)
Definition cut_chunk (p nb rsize : Z) : Y unit :=
  let r := chunk_plus_offset p nb in
  _ ← on_heap (set_inuse p nb);
  _ ← on_heap (set_inuse r rsize);
  dispose_chunk r rsize.

Definition extend_into_free (p oldsize next nb : Z) : Y Z :=
  nextsize ← on_heap (rd chunksize next);
  if decide (nb <= u64 (oldsize + nextsize)) then
    let rsize := u64 (oldsize + nextsize - nb) in
    _ ← on_heap (unlink_chunk gm_addr "try_realloc_chunk" next nextsize);
    _ ← (if decide (rsize < MIN_CHUNK_SIZE) then on_heap (set_inuse p (u64 (oldsize + nextsize)))
         else cut_chunk p nb rsize);
    mret p
  else mret 0.

Definition try_realloc_chunk (p nb can_move : Z) : Y Z :=
  oldsize ← on_heap (rd chunksize p);
  let next := chunk_plus_offset p oldsize in
  _ ← on_heap (rtcheck "try_realloc_chunk" (chunk_in_use p next));
  h ← on_heap (rd head p);
  g ← gm_get (fun g => g);
  if decide (h .& INUSE_BITS = 0) then mmap_resize p nb can_move
  else if decide (nb <= oldsize) then
    let rsize := u64 (oldsize - nb) in
    _ ← (if decide (MIN_CHUNK_SIZE <= rsize) then cut_chunk p nb rsize else mret tt);
    mret p
  else if decide (next = top g) then on_heap (extend_into_top p oldsize nb)
  else if decide (next = dv g) then on_heap (extend_into_dv p oldsize nb)
  else
    c ← on_heap (rd cinuse next);
    if decide (c = 0) then extend_into_free p oldsize next nb else mret 0.

(** ** The bytes of blocks *)
Definition set_user (f : (Z -> Z) -> Z -> Z) (y : dlsys W) : dlsys W := mkSys W (hst y) (segs y) (mparams y) (f (user y)) (os y).
Fixpoint memcpy_bytes (n : nat) (dst src : Z) (u : Z -> Z) : Z -> Z :=
  match n with O => u | S n => memcpy_bytes n (dst + 1) (src + 1) (fun x => if decide (x = dst) then u src else u x) end.
Fixpoint memset_bytes (n : nat) (dst c : Z) (u : Z -> Z) : Z -> Z :=
  match n with O => u | S n => memset_bytes n (dst + 1) c (fun x => if decide (x = dst) then c else u x) end.
Definition user_memcpy (dst src n : Z) : Y unit := modify (set_user (memcpy_bytes (Z.to_nat n) dst src)).
Definition user_memset (dst c n : Z) : Y unit := modify (set_user (memset_bytes (Z.to_nat n) dst (wrap 8 c))).

(** ** [calloc] and [realloc] *)

(** The product is wrong only when a factor has more than 16 bits; then the division tells. *)
Definition calloc_size (n_elements elem_size : Z) : Z :=
  if decide (n_elements <> 0) then
    let req := u64 (n_elements * elem_size) in
    if decide ((n_elements .| elem_size) .& bnot 64 0xffff <> 0 /\ req / n_elements <> elem_size) then MAX_SIZE_T else req
  else 0.

(** [calloc_must_clear] is 1: [MMAP_CLEARS] is off. *)
Definition dlcalloc (fuel : nat) (n_elements elem_size : Z) : Y Z :=
  let req := calloc_size n_elements elem_size in
  mem ← dlmalloc gm_addr stack_addr fuel req;
  _ ← (if decide (mem <> 0) then user_memset mem 0 req else mret tt);
  mret mem.

Definition overhead_for (c : chunk) : Z := if is_mmapped c then MMAP_CHUNK_OVERHEAD else CHUNK_OVERHEAD.

Definition dlrealloc (fuel : nat) (oldmem bytes : Z) : Y Z :=
  if decide (oldmem = 0) then dlmalloc gm_addr stack_addr fuel bytes
  else if decide (MAX_REQUEST <= bytes) then mret 0
  else
    let nb := request2size bytes in
    let oldp := mem2chunk oldmem in
    newp ← try_realloc_chunk oldp nb 1;
    if decide (newp <> 0) then mret (chunk2mem newp)
    else
      mem ← dlmalloc gm_addr stack_addr fuel bytes;
      if decide (mem <> 0) then
        oc ← on_heap (rd (fun c => u64 (chunksize c - overhead_for c)) oldp);
        _ ← user_memcpy mem oldmem (if decide (oc < bytes) then oc else bytes);
        _ ← dlfree gm_addr stack_addr fuel oldmem;
        mret mem
      else mret 0.

Definition dlrealloc_in_place (oldmem bytes : Z) : Y Z :=
  if decide (oldmem = 0) then mret 0
  else if decide (MAX_REQUEST <= bytes) then mret 0
  else
    let nb := request2size bytes in
    let oldp := mem2chunk oldmem in
    newp ← try_realloc_chunk oldp nb 0;
    mret (if decide (newp = oldp) then oldmem else 0).

(** ** Aligned requests *)

(** [while (a < alignment) a <<= 1;] *)
Fixpoint next_power (fuel : nat) (a alignment : Z) : Y Z :=
  if decide (a < alignment) then match fuel with O => halt OutOfFuel | S fuel => next_power fuel (u64 (a ≪ 1)) alignment end
  else mret a.
Definition POWER_FUEL : nat := 60.

Definition fix_alignment (alignment : Z) : Y Z :=
  let alignment := if decide (alignment < MIN_CHUNK_SIZE) then MIN_CHUNK_SIZE else alignment in
  if decide (alignment .& u64 (alignment - 1) <> 0) then next_power POWER_FUEL (MALLOC_ALIGNMENT ≪ 1) alignment else mret alignment.

(** The chunk that starts at an aligned spot of the chunk at [mem], which is given back up to there. *)
Definition aligned_spot (alignment mem p : Z) : Z :=
  let br := mem2chunk (u64 (mem + alignment - 1) .& u64 (- alignment)) in
  if decide (MIN_CHUNK_SIZE <= u64 (br - p)) then br else u64 (br + alignment).

Definition skip_leader (alignment mem : Z) : Y Z :=
  let p := mem2chunk mem in
  if decide (mem .& u64 (alignment - 1) <> 0) then
    let newp := aligned_spot alignment mem p in
    let leadsize := u64 (newp - p) in
    sz ← on_heap (rd chunksize p);
    let newsize := u64 (sz - leadsize) in
    h ← on_heap (rd head p);
    _ ← (if decide (h .& INUSE_BITS = 0) then
           f ← on_heap (rd prev_foot p);
           _ ← on_heap (wr (set_prev_foot (u64 (f + leadsize))) newp);
           on_heap (wr (set_head newsize) newp)
         else
           _ ← on_heap (set_inuse newp newsize);
           _ ← on_heap (set_inuse p leadsize);
           dispose_chunk p leadsize);
    mret newp
  else mret p.

(** Spare room behind the chunk is given back. *)
Definition cut_tail (p nb : Z) : Y unit :=
  h ← on_heap (rd head p);
  if decide (h .& INUSE_BITS = 0) then mret tt
  else
    sz ← on_heap (rd chunksize p);
    if decide (u64 (nb + MIN_CHUNK_SIZE) < sz) then cut_chunk p nb (u64 (sz - nb)) else mret tt.

Definition internal_memalign (fuel : nat) (alignment bytes : Z) : Y Z :=
  alignment ← fix_alignment alignment;
  if decide (u64 (MAX_REQUEST - alignment) <= bytes) then mret 0
  else
    let nb := request2size bytes in
    mem ← dlmalloc gm_addr stack_addr fuel (u64 (nb + alignment + MIN_CHUNK_SIZE - CHUNK_OVERHEAD));
    if decide (mem <> 0) then
      p ← skip_leader alignment mem;
      _ ← cut_tail p nb;
      mret (chunk2mem p)
    else mret 0.

Definition dlmemalign (fuel : nat) (alignment bytes : Z) : Y Z :=
  if decide (alignment <= MALLOC_ALIGNMENT) then dlmalloc gm_addr stack_addr fuel bytes
  else internal_memalign fuel alignment bytes.

(** The answer, and what is stored through [pp] if anything is. *)
Definition dlposix_memalign (fuel : nat) (alignment bytes : Z) : Y (Z * option Z) :=
  let answer mem := if decide (mem = 0) then (ENOMEM, None) else (0, Some mem) in
  if decide (alignment = MALLOC_ALIGNMENT) then mem ← dlmalloc gm_addr stack_addr fuel bytes; mret (answer mem)
  else
    let d := alignment / 8 in
    let r := alignment mod 8 in
    if decide (r <> 0 \/ d = 0 \/ d .& u64 (d - 1) <> 0) then mret (EINVAL, None)
    else if decide (bytes <= u64 (MAX_REQUEST - alignment)) then
      mem ← internal_memalign fuel (if decide (alignment < MIN_CHUNK_SIZE) then MIN_CHUNK_SIZE else alignment) bytes;
      mret (answer mem)
    else mret (answer 0).

Definition dlvalloc (fuel : nat) (bytes : Z) : Y Z :=
  _ ← ensure_initialization stack_addr;
  pagesz ← param page_size;
  dlmemalign fuel pagesz bytes.

Definition dlpvalloc (fuel : nat) (bytes : Z) : Y Z :=
  _ ← ensure_initialization stack_addr;
  pagesz ← param page_size;
  dlmemalign fuel pagesz (u64 (bytes + pagesz - 1) .& bnot 64 (pagesz - 1)).

(** ** Requests in bulk *)
Definition set_flag (f : Z -> Z) : Y unit := gm_set (fun g => set_mflags (f (mflags g)) g).
Definition disable_mmap : Y unit := set_flag (fun f => f .& bnot 64 USE_MMAP_BIT).
Definition enable_mmap : Y unit := set_flag (fun f => f .| USE_MMAP_BIT).

(** The size of the chunk of element [i]: [element_size] if all are the same. *)
Definition chunk_size_of (element_size : Z) (sizes : list Z) (i : nat) : cmd dl_st Z :=
  if decide (element_size <> 0) then mret element_size
  else sz ← lift_opt (Faulted (8 * Z.of_nat i)) (sizes !! i); mret (request2size sz).

(** [for (i = 0; i != n_elements; ++i) contents_size += request2size(sizes[i]);] *)
Fixpoint sum_sizes (n i : nat) (sizes : list Z) (sum : Z) : cmd dl_st Z :=
  match n with
  | O => mret sum
  | S n => sz ← chunk_size_of 0 sizes i; sum_sizes n (S i) sizes (u64 (sum + sz))
  end.

(** [for (i = 0; ; ++i)]: every chunk but the last gets its size, the last one what is left. Answers what is stored in [marray]. *)
Fixpoint split_elements (n i : nat) (element_size : Z) (sizes : list Z) (p remainder_size : Z) : cmd dl_st (list Z) :=
  match n with
  | O => mret []
  | S O => _ ← set_size_and_pinuse_of_inuse_chunk p remainder_size; mret [chunk2mem p]
  | S n =>
    sz ← chunk_size_of element_size sizes i;
    _ ← set_size_and_pinuse_of_inuse_chunk p sz;
    l ← split_elements n (S i) element_size sizes (chunk_plus_offset p sz) (u64 (remainder_size - sz));
    mret (chunk2mem p :: l)
  end.

(** Words of an array, least significant byte first. *)
Fixpoint store_bytes (n : nat) (a v : Z) (u : Z -> Z) : Z -> Z :=
  match n with O => u | S n => store_bytes n (a + 1) (v ≫ 8) (fun x => if decide (x = a) then v .& 0xff else u x) end.
Fixpoint store_words (a : Z) (l : list Z) (u : Z -> Z) : Z -> Z :=
  match l with [] => u | v :: l => store_words (a + 8) l (store_bytes 8 a v u) end.

(** [same] and [clear] are the bits of [opts]; [chunks] is the caller's array, or 0. *)
Definition ialloc (fuel : nat) (n_elements : Z) (sizes : list Z) (same clear : bool) (chunks : Z) : Y Z :=
  _ ← ensure_initialization stack_addr;
  if decide (n_elements = 0) then (if decide (chunks <> 0) then mret chunks else dlmalloc gm_addr stack_addr fuel 0)
  else
    let n := Z.to_nat n_elements in
    let array_size := if decide (chunks <> 0) then 0 else request2size (u64 (n_elements * 8)) in
    element_size ← (if same then sz ← lift_opt (Faulted 0) (sizes !! 0%nat); mret (request2size sz) else mret 0);
    contents_size ← (if same then mret (u64 (n_elements * element_size)) else on_heap (sum_sizes n 0 sizes 0));
    was_enabled ← gm_get (fun g => mflags g .& USE_MMAP_BIT);
    _ ← disable_mmap;
    mem ← dlmalloc gm_addr stack_addr fuel (u64 (u64 (contents_size + array_size) - CHUNK_OVERHEAD));
    _ ← (if decide (was_enabled <> 0) then enable_mmap else mret tt);
    if decide (mem = 0) then mret 0
    else
      let p := mem2chunk mem in
      total_size ← on_heap (rd chunksize p);
      _ ← (if clear then user_memset mem 0 (u64 (total_size - SIZE_T_SIZE - array_size)) else mret tt);
      '(marray, remainder_size) ← (if decide (chunks <> 0) then mret (chunks, total_size)
        else
          let array_chunk := chunk_plus_offset p contents_size in
          _ ← on_heap (set_size_and_pinuse_of_inuse_chunk array_chunk (u64 (total_size - contents_size)));
          mret (chunk2mem array_chunk, contents_size));
      l ← on_heap (split_elements n 0 element_size sizes p remainder_size);
      _ ← modify (set_user (store_words marray l));
      mret marray.

Definition dlindependent_calloc (fuel : nat) (n_elements elem_size chunks : Z) : Y Z := ialloc fuel n_elements [elem_size] true true chunks.
Definition dlindependent_comalloc (fuel : nat) (n_elements : Z) (sizes : list Z) (chunks : Z) : Y Z := ialloc fuel n_elements sizes false false chunks.

(** The pointers of an array are freed from the first to the last; [mem] is the next one. A chunk whose next chunk is the
    next pointer is merged with it and left to the next round. Every slot ends as 0. *)
Fixpoint bulk_free_loop (mem : Z) (rest : list Z) : Y unit :=
  let continue := match rest with [] => mret tt | q :: rest' => bulk_free_loop q rest' end in
  if decide (mem = 0) then continue
  else
    let p := mem2chunk mem in
    psize ← on_heap (rd chunksize p);
    _ ← on_heap (rtcheck "internal_bulk_free" (ok ← ok_address p; if ok : bool then h ← rd head p; mret (bool_decide (h .& INUSE_BITS <> PINUSE_BIT)) else mret false));
    let next := chunk_plus_offset p psize in
    match rest with
    | q :: rest' =>
      if decide (q = chunk2mem next) then
        nsize ← on_heap (rd chunksize next);
        _ ← on_heap (set_inuse p (u64 (nsize + psize)));
        bulk_free_loop (chunk2mem p) rest'
      else _ ← dispose_chunk p psize; continue
    | [] => dispose_chunk p psize
    end.

(** The array is empty afterwards: answers the number of pointers not freed, and what is stored in the array. *)
Definition dlbulk_free (fuel : nat) (array : list Z) : Y (Z * list Z) :=
  _ ← (match array with [] => mret tt | mem :: rest => bulk_free_loop mem rest end);
  g ← gm_get (fun g => g);
  _ ← (if decide (trim_check g < topsize g) then sys_trim gm_addr stack_addr fuel 0 else mret 0);
  mret (0, map (fun _ => 0) array).

(** ** Statistics and parameters *)
Definition next_chunk (q : Z) (c : chunk) : Z := chunk_plus_offset q (chunksize c).

(** The chunks of a segment, up to the top or a fencepost: the sum of their sizes, and the sum and number of the free ones. *)
Fixpoint info_chunks (fuel : nat) (s : msegment) (q sum mfree nfree : Z) : Y (Z * Z * Z) :=
  g ← gm_get (fun g => g);
  if segment_holds s q && bool_decide (q <> top g) then
    c ← on_heap (gets (fun h => get (mem h) q));
    if decide (head c = FENCEPOST_HEAD) then mret (sum, mfree, nfree)
    else match fuel with
    | O => halt OutOfFuel
    | S fuel =>
      let sz := chunksize c in
      let mfree' := if is_inuse c then mfree else u64 (mfree + sz) in
      let nfree' := if is_inuse c then nfree else u64 (nfree + 1) in
      info_chunks fuel s (next_chunk q c) (u64 (sum + sz)) mfree' nfree'
    end
  else mret (sum, mfree, nfree).

Fixpoint info_segments (fuel cfuel : nat) (sp sum mfree nfree : Z) : Y (Z * Z * Z) :=
  if decide (sp = 0) then mret (sum, mfree, nfree)
  else match fuel with
  | O => halt OutOfFuel
  | S fuel =>
    s ← rd_seg gm_addr sp;
    '(sum, mfree, nfree) ← info_chunks cfuel s (align_as_chunk (base s)) sum mfree nfree;
    info_segments fuel cfuel (next s) sum mfree nfree
  end.

Record mallinfo := mkInfo {
  arena : Z; ordblks : Z; smblks : Z; hblks : Z; hblkhd : Z; usmblks : Z; fsmblks : Z; uordblks : Z; fordblks : Z; keepcost : Z }.

Definition dlmallinfo (fuel cfuel : nat) : Y mallinfo :=
  _ ← ensure_initialization stack_addr;
  g ← gm_get (fun g => g);
  if is_initialized g then
    let mfree := u64 (topsize g + TOP_FOOT_SIZE) in
    '(sum, mfree, nfree) ← info_segments fuel cfuel (seg_addr gm_addr) mfree mfree 1;
    mret (mkInfo sum nfree 0 0 (u64 (footprint g - sum)) (max_footprint g) 0 (u64 (footprint g - mfree)) mfree (topsize g))
  else mret (mkInfo 0 0 0 0 0 0 0 0 0 0).

Definition M_TRIM_THRESHOLD : Z := -1.
Definition M_GRANULARITY : Z := -2.
Definition M_MMAP_THRESHOLD : Z := -3.

(** [mallopt]: [value] is an [int], kept as it is when it becomes a [size_t]. *)
Definition change_mparam (param_number value : Z) : Y Z :=
  _ ← ensure_initialization stack_addr;
  let val := if decide (value = -1) then MAX_SIZE_T else u64 value in
  p ← param (fun p => p);
  let set f := modify (set_params f) in
  if decide (param_number = M_TRIM_THRESHOLD) then
    _ ← set (mkParams (mp_magic p) (page_size p) (granularity p) (mmap_threshold p) val (default_mflags p)); mret 1
  else if decide (param_number = M_GRANULARITY) then
    if decide (page_size p <= val /\ val .& u64 (val - 1) = 0) then
      _ ← set (mkParams (mp_magic p) (page_size p) val (mmap_threshold p) (trim_threshold p) (default_mflags p)); mret 1
    else mret 0
  else if decide (param_number = M_MMAP_THRESHOLD) then
    _ ← set (mkParams (mp_magic p) (page_size p) (granularity p) val (trim_threshold p) (default_mflags p)); mret 1
  else mret 0.
Definition dlmallopt (param_number value : Z) : Y Z := change_mparam param_number value.

Definition dlmalloc_trim (fuel : nat) (pad : Z) : Y Z :=
  _ ← ensure_initialization stack_addr;
  sys_trim gm_addr stack_addr fuel pad.

Definition dlmalloc_footprint : Y Z := gm_get footprint.
Definition dlmalloc_max_footprint : Y Z := gm_get max_footprint.
Definition dlmalloc_footprint_limit : Y Z := gm_get (fun g => if decide (footprint_limit g = 0) then MAX_SIZE_T else footprint_limit g).

(** The [if]s are not a chain: the minimal size for 0 is overwritten. *)
Definition dlmalloc_set_footprint_limit (bytes : Z) : Y Z :=
  result ← (if decide (bytes = 0) then granularity_align 1 else mret 0);
  result ← (if decide (bytes = MAX_SIZE_T) then mret 0 else granularity_align bytes);
  _ ← gm_set (set_footprint_limit result);
  mret result.

Definition dlmalloc_usable_size (mem : Z) : Y Z :=
  if decide (mem = 0) then mret 0
  else
    c ← on_heap (gets (fun h => get (DlHeap.mem h) (mem2chunk mem)));
    mret (if is_inuse c then u64 (chunksize c - overhead_for c) else 0).

(** The allocator of ACPICA is the C library's (kernel/driver/acpi/osl/mm.c). *)
Definition acpi_os_allocate (fuel : nat) (size : Z) : Y Z := dlmalloc gm_addr stack_addr fuel size.
Definition acpi_os_free (fuel : nat) (Memory : Z) : Y unit := dlfree gm_addr stack_addr fuel Memory.
End calls.
