(* ===== verification/DlDispose.v ===== *)
(** [dispose_chunk] of the C library's allocator (lib/stdlib/dlmalloc.c) does to a chunk in use what [dlfree] does:
    the two copies of the code are compared command by command, so that what is known of [dlfree] holds of
    [dispose_chunk]. *)
From S2P Require Import Prelude DlBins DlHeap DlTree DlFit DlFree DlMalloc DlLayout DlCore DlAlloc DlRelease DlInit DlFrame Dlmalloc DlSys DlGrow DlCalls.

(** Where [c] answers, [c'] answers the same. *)
Definition answers {A} (c c' : cmd dl_st A) : Prop := forall s a s', c s = Ok (a, s') -> c' s = Ok (a, s').

Lemma answers_refl {A} (c : cmd dl_st A) : answers c c.
Proof. by intros s a s'. Qed.
Lemma answers_bind {A B} (c c' : cmd dl_st A) (k k' : A -> cmd dl_st B) : answers c c' -> (forall a, answers (k a) (k' a)) -> answers (c ≫= k) (c' ≫= k').
Proof. intros Hc Hk s b s' H. apply bind_inv in H as (a & s1 & H1 & H2). rewrite (bind_ok _ _ _ _ _ (Hc _ _ _ H1)). by apply Hk. Qed.
Lemma answers_abort {A} func (c : cmd dl_st A) : answers (ABORT func) c.
Proof. by intros s a s'. Qed.
Lemma answers_rtcheck f g c : answers (rtcheck f c) (rtcheck g c).
Proof. apply answers_bind; [apply answers_refl|]. intros []; [apply answers_refl|apply answers_abort]. Qed.

Create HintDb answers discriminated.
#[export] Hint Resolve answers_refl answers_abort answers_rtcheck : answers.
Ltac answers_step := first
  [ solve [auto with answers]
  | match goal with
    | |- answers (_ ≫= _) (_ ≫= _) => apply answers_bind; [|intros ?]
    | |- answers (let _ := _ in _) _ => cbv zeta
    | |- answers (if ?b then _ else _) _ => destruct b
    | |- answers (match ?x with _ => _ end) _ => destruct x
    end ].
Ltac answers_all := repeat answers_step.

(** The name of the function a macro is expanded in shows only when it stops. *)
Section names.
Context (gm_addr : Z) (f g : string).
#[local] Hint Unfold clear_smallmap : answers.

Lemma insert_small_any P S : answers (insert_small_chunk gm_addr f P S) (insert_small_chunk gm_addr g P S).
Proof. unfold insert_small_chunk. answers_all. Qed.
Lemma unlink_small_any P S : answers (unlink_small_chunk gm_addr f P S) (unlink_small_chunk gm_addr g P S).
Proof. unfold unlink_small_chunk. answers_all. Qed.
Lemma insert_walk_any fuel T K X S : answers (insert_walk f fuel T K X S) (insert_walk g fuel T K X S).
Proof. revert T K. induction fuel as [|fuel IH]; intros T K; cbn [insert_walk]; answers_all. Qed.
#[local] Hint Resolve insert_walk_any : answers.
Lemma insert_large_any X S : answers (insert_large_chunk gm_addr f X S) (insert_large_chunk gm_addr g X S).
Proof. unfold insert_large_chunk. answers_all. Qed.
Lemma unlink_large_any X : answers (unlink_large_chunk gm_addr f X) (unlink_large_chunk gm_addr g X).
Proof. unfold unlink_large_chunk, unchain, take_leaf, relink_parent, relink_children, adopt. answers_all. Qed.
#[local] Hint Resolve insert_small_any unlink_small_any insert_large_any unlink_large_any : answers.
Lemma insert_any P S : answers (insert_chunk gm_addr f P S) (insert_chunk gm_addr g P S).
Proof. unfold insert_chunk. answers_all. Qed.
Lemma unlink_any P S : answers (unlink_chunk gm_addr f P S) (unlink_chunk gm_addr g P S).
Proof. unfold unlink_chunk. answers_all. Qed.
End names.

(** ** The two copies *)
Section copies.
Context (gm_addr : Z).

(** States that differ in counters only. *)
Definition alike (s t : dl_st) : Prop := mem t = mem s /\ same_heap (gm s) (gm t) /\ sys_part t = sys_part s.
Lemma alike_refl s : alike s s.
Proof. done. Qed.

(** Where [c], part of [dlfree], answers without a region to unmap, [c'] is done in a state like it. *)
Definition follows (c c' : cmd dl_st after_free) (s : dl_st) : Prop := forall ans s', c s = Ok (ans, s') -> fast ans -> exists t, c' s = Ok (Done, t) /\ alike s' t.

Lemma follows_bind {A} (m m' : cmd dl_st A) (k k' : A -> cmd dl_st after_free) s : answers m m' ->
  (forall a s1, m s = Ok (a, s1) -> follows (k a) (k' a) s1) -> follows (m ≫= k) (m' ≫= k') s.
Proof.
  intros Hm Hk ans s' H Hans. apply bind_inv in H as (a & s1 & H1 & H2). destruct (Hk a s1 H1 ans s' H2 Hans) as (t & Ht & Hl).
  exists t. split; [|done]. by rewrite (bind_ok _ _ _ _ _ (Hm _ _ _ H1)).
Qed.
Lemma follows_ret a s : fast a -> follows (mret a) (mret Done) s.
Proof. intros _ ans s' [= _ <-] _. exists s. split; [done|apply alike_refl]. Qed.
Lemma follows_unmap b n c s : follows (mret (Unmap b n)) c s.
Proof. by intros ans s' [= <- <-] []. Qed.

(** Reading leaves the state as it is. *)
Lemma read_state {A} (c : cmd dl_st A) s a s' : leaves (fun s => s) c -> c s = Ok (a, s') -> s' = s.
Proof. intros H. apply H. Qed.
Lemma reads_rd g a : leaves (fun s => s) (rd g a).
Proof. unfold rd. case_decide; [auto with leaves|by intros s b s' [= _ <-]]. Qed.
Lemma reads_ok a : leaves (fun s => s) (ok_address a).
Proof. apply leaves_gets. Qed.
#[local] Hint Resolve reads_rd reads_ok : leaves.

(** What a check that passed has found. *)
Lemma rtcheck_inv f c s u s' : leaves (fun s => s) c -> rtcheck f c s = Ok (u, s') -> s' = s /\ c s = Ok (true, s).
Proof.
  intros Hc H. unfold rtcheck in H. apply bind_inv in H as (b & s1 & H1 & H2). assert (E := Hc _ _ _ H1). simpl in E. subst s1. destruct b; [|done]. by injection H2 as _ <-.
Qed.

Lemma bin_follows p sz s : follows (free_bin gm_addr p sz) (_ ← insert_chunk gm_addr "dispose_chunk" p sz; mret Done) s.
Proof.
  unfold free_bin, insert_chunk. destruct (is_small sz); apply follows_bind.
  - apply insert_small_any.
  - intros u s1 _. by apply follows_ret.
  - apply insert_large_any.
  - intros u s1 _ ans s' H Hans. rewrite modify_bind, gets_bind in H. injection H as _ <-. by exists s1.
Qed.

Ltac as_follows := match goal with |- forall ans s', ?c ?s = _ -> _ -> exists t, ?c' ?s = _ /\ _ => change (follows c c' s) end.
Ltac same_step := apply follows_bind; [solve [auto with answers | apply unlink_any | answers_all]|intros ? ? _; cbv beta].

Ltac read_step := apply follows_bind; [apply answers_refl|];
  let E := fresh "E" in intros ? ? E; apply read_state in E; [subst|auto with leaves]; cbv beta.

Lemma forward_follows p psize next s : least_addr (gm s) <= p -> follows (free_forward gm_addr p psize next) (dispose_forward gm_addr p psize next) s.
Proof.
  intros Hp ans s' H Hans. unfold free_forward in H. apply bind_inv in H as (u & s1 & H1 & H).
  assert (Hr : leaves (fun s => s) (if ok_next p next then c ← rd pinuse next; mret (bool_decide (c <> 0)) else mret false)) by leaves_all.
  apply rtcheck_inv in H1 as [-> H1]; [|exact Hr]. destruct (ok_next p next) eqn:En; [|done]. apply bool_decide_eq_true in En.
  unfold dispose_forward. rewrite rtcheck_bind by (apply ok_address_true; lia). revert ans s' H Hans.
  as_follows.
  same_step. case_decide.
  - same_step. same_step. case_decide; [|case_decide].
    + same_step. same_step. same_step. same_step. intros ans s' H2 _. rewrite gets_bind in H2. injection H2 as _ <-. eexists. split; [done|apply alike_refl].
    + same_step. same_step. same_step. by apply follows_ret.
    + same_step. same_step. same_step. case_decide; [|apply bin_follows]. same_step. by apply follows_ret.
  - same_step. apply bin_follows.
Qed.

Lemma dispose_follows p s : 0 < p < 2 ^ 63 -> follows (free_fast gm_addr (chunk2mem p)) (dispose_fast gm_addr p (chunksize (get (mem s) p))) s.
Proof.
  intros Hp ans s' H Hans. unfold free_fast in H. rewrite decide_False in H by (unfold chunk2mem; rewrite wrap_small by (unfold fits; lia); lia).
  rewrite chunk_mem_roundtrip in H by (unfold fits; lia). cbv zeta in H. apply bind_inv in H as (u & s1 & H1 & H).
  apply rtcheck_inv in H1 as [-> H1]; [|leaves_all]. unfold ok_address in H1. rewrite gets_bind in H1. case_bool_decide as Hla; [|done]. clear H1.
  rewrite rd_bind in H by lia. unfold dispose_fast. cbv zeta. revert ans s' H Hans. as_follows.
  read_step. case_decide; [|by apply forward_follows]. read_step. read_step. case_decide; [by apply follows_unmap|].
  apply follows_bind; [apply answers_rtcheck|]. intros ? ? H1. apply rtcheck_inv in H1 as [-> H1]; [|auto with leaves].
  unfold ok_address in H1. injection H1 as Hlp%bool_decide_eq_true. read_step. case_decide.
  - apply follows_bind; [apply unlink_any|]. intros ? s1 H1%keeps_unlink. injection H1 as El _ _ _ _ _ _. apply forward_follows. by rewrite El.
  - read_step. case_decide; [|by apply forward_follows]. same_step. same_step. by apply follows_ret.
Qed.
End copies.

(** ** What [dispose_chunk] does to a block in use *)
Section dispose.
Context (gm_addr : Z) (Hgm : 0 < gm_addr).
Abbreviation inv := (heap_inv gm_addr).

Lemma alike_inv s t a0 bs : alike s t -> inv s a0 bs -> inv t a0 bs.
Proof. destruct t as [g h]. intros (Em & Hg & _) H. simpl in Em, Hg. subst h. by apply (inv_gm gm_addr s). Qed.

Lemma dispose_ok s a0 l sz r : inv s a0 (l ++ (sz, InUse) :: r) ->
  exists s', dispose_fast gm_addr (a0 + total l) sz s = Ok (Done, s') /\ freed gm_addr a0 l sz r s' /\ sys_part s' = sys_part s.
Proof.
  intros H. assert (Hin : (a0 + total l, sz) ∈ of_kind InUse a0 (l ++ (sz, InUse) :: r)) by apply block_in.
  pose proof (core_size _ _ _ _ _ _ _ (hi_core _ _ _ _ H) Hin) as Esz. pose proof (core_block _ _ _ _ _ _ _ (hi_core _ _ _ _ H)) as [_ (_ & Hp & _) _ _ _ _ Hrg _ _ _ _ _].
  simpl in Hp. destruct (free_fast_ok gm_addr Hgm s a0 l sz r H) as (ans & s1 & Hrun & Hans & bs' & Hi & Hrest).
  destruct (dispose_follows gm_addr (a0 + total l) s ltac:(lia) ans s1 Hrun Hans) as (t & Ht & Hl). rewrite Esz in Ht. exists t. split; [done|].
  split; [exists bs'; split; [by apply (alike_inv s1)|done]|]. destruct Hl as (_ & _ & ->). by apply (keeps_free_fast gm_addr _ _ _ _ Hrun).
Qed.
End dispose.
