(* ===== verification/DlRealloc.v ===== *)
(** Resizing a block in place in the C library's allocator (lib/stdlib/dlmalloc.c): [try_realloc_chunk]
    grows a block over the free block that follows it, or cuts it and gives the remainder back. *)
From S2P Require Import Prelude DlBins DlHeap DlTree DlLarge DlFit DlSmall DlFree DlMalloc DlLayout DlCore DlAlloc DlServe DlRequest DlRelease DlInit DlFrame.
From S2P Require Import Dlmalloc DlSys DlGrow DlSystem DlCalls DlDispose.

(** ** Heads of blocks in use *)

Lemma lor_land_absorb a b : (a .| b) .& b = b.
Proof. apply Z.bits_inj'. intros n Hn. rewrite Z.land_spec, Z.lor_spec. by destruct (Z.testbit a n), (Z.testbit b n). Qed.

Lemma land_mkhead sz p q : sz mod 16 = 0 -> mkhead sz p q .& PINUSE_BIT = Z.b2z p.
Proof. intros Hm. change PINUSE_BIT with (Z.ones 1). rewrite land_low by lia. unfold mkhead. destruct p, q; simpl; zlia. Qed.

Lemma head_inuse nb p : nb mod 16 = 0 -> Z.b2z p .| nb .| CINUSE_BIT = mkhead nb p true.
Proof.
  intros Hm. rewrite (Z.lor_comm (Z.b2z p)). destruct p; [by apply head_used|]. cbn [Z.b2z]. rewrite Z.lor_0_r. unfold mkhead. cbn [Z.b2z].
  rewrite (lor_add' 4); [unfold CINUSE_BIT; lia|lia|done|unfold fits, CINUSE_BIT; lia].
Qed.

(** The stores of [set_inuse]. *)
Definition inuse_heap (x nb : Z) (h : heap) : heap :=
  upd (x + nb) (fun c => set_head (head c .| PINUSE_BIT) c) (upd x (fun c => set_head ((head c .& PINUSE_BIT) .| nb .| CINUSE_BIT) c) h).

Lemma run_set_inuse s x nb : 0 < x -> 0 < nb -> x + nb < 2 ^ 63 -> set_inuse x nb s = Ok (tt, set_mem (inuse_heap x nb (mem s)) s).
Proof.
  intros Hx Hn Hr. unfold set_inuse, chunk_plus_offset. rewrite (wrap_small 64 (x + nb)) by (unfold fits; lia).
  rewrite rd_bind, wr_bind, rd_bind, wr_ok by lia. done.
Qed.

Section tags.
Context (x nb : Z) (h : heap) (Hn : 0 < nb).
Lemma inuse_heap_head sz p : head (get h x) = mkhead sz p true -> sz mod 16 = 0 -> nb mod 16 = 0 -> head (get (inuse_heap x nb h) x) = mkhead nb p true.
Proof. intros E Hm Hm'. unfold inuse_heap. rewrite get_upd_ne, get_upd_eq by lia. cbn. by rewrite E, land_mkhead, head_inuse. Qed.
(** Where there was no block the old head is of no consequence. *)
Lemma inuse_heap_fresh v : head (get h x) = v .| PINUSE_BIT -> nb mod 16 = 0 -> head (get (inuse_heap x nb h) x) = mkhead nb true true.
Proof. intros E Hm. unfold inuse_heap. rewrite get_upd_ne, get_upd_eq by lia. cbn. rewrite E, lor_land_absorb. by apply (head_inuse nb true). Qed.
Lemma inuse_heap_next : head (get (inuse_heap x nb h) (x + nb)) = head (get h (x + nb)) .| PINUSE_BIT.
Proof. unfold inuse_heap. rewrite get_upd_eq. cbn. by rewrite get_upd_ne by lia. Qed.
Lemma inuse_heap_other y : y <> x -> y <> x + nb -> get (inuse_heap x nb h) y = get h y.
Proof. intros H1 H2. unfold inuse_heap. by rewrite !get_upd_ne. Qed.
Lemma inuse_heap_foot y : prev_foot (get (inuse_heap x nb h) y) = prev_foot (get h y).
Proof. unfold inuse_heap. by rewrite !(get_upd_field prev_foot). Qed.
Lemma inuse_heap_links y : links (get (inuse_heap x nb h) y) = links (get h y).
Proof. unfold inuse_heap. by rewrite !(get_upd_field links). Qed.
End tags.

(** ** A block in use gets another size *)
Section resize.
Context (gm_addr : Z) (Hgm : 0 < gm_addr).
Abbreviation core := (heap_core gm_addr).
Abbreviation inv := (heap_inv gm_addr).

(** The block at [x], and blocks [m] behind it, become one of [nb] bytes and blocks [m']. *)
Lemma regrow_core s s' a0 l sz m nb m' r : let x := a0 + total l in core s a0 (l ++ ((sz, InUse) :: m) ++ r) ->
  nb mod 16 = 0 -> MIN_CHUNK_SIZE <= nb -> nb + total m' = sz + total m -> least_addr (gm s') = least_addr (gm s) ->
  (forall y, y < x -> head (get (mem s') y) = head (get (mem s) y)) ->
  (forall y, y <= x -> prev_foot (get (mem s') y) = prev_foot (get (mem s) y)) ->
  head (get (mem s') x) = mkhead nb (is_none (after_all None l)) true -> layout (mem s') (x + nb) None m' ->
  layout (mem s') (x + nb + total m') (after_all None m') r -> top_ok (gm s') a0 (l ++ ((nb, InUse) :: m') ++ r) ->
  core s' a0 (l ++ ((nb, InUse) :: m') ++ r).
Proof.
  intros x H Hm Hnb Et El Hh Hf Hx Hm' Hr Htop. rewrite min_chunk_size in Hnb. pose proof (core_block _ _ _ _ _ _ _ H) as [_ _ _ _ Hft _ _ _ _ _ _ _]. fold x in Hft.
  apply (row_core gm_addr s s' a0 l ((sz, InUse) :: m)); try done.
  - intros y Hy. split; [apply Hh|apply Hf]; unfold x; lia.
  - fold x. simpl. split; [exact Hx|]. split; [intros p Hp; rewrite Hf by lia; by apply Hft|]. split; [|exact Hm']. split; [done|]. split; [simpl; lia|]. intros _. by rewrite min_chunk_size.
  - fold x. simpl. replace (x + (sz + total m)) with (x + nb + total m') by lia. exact Hr.
Qed.

(** [heap_inv] of the new row, when its blocks are in no bin and the chunk kept aside is known. *)
Lemma regrow_inv s s' a0 l mid mid' r : core s a0 (l ++ mid ++ r) -> core s' a0 (l ++ mid' ++ r) -> total mid' = total mid -> same_bins s s' ->
  free_inv gm_addr s (rest Binned a0 l (total mid) r) -> of_kind Binned (a0 + total l) mid' = [] ->
  dv_ok (gm s') (of_kind Dv (a0 + total l) mid' ++ rest Dv a0 l (total mid) r) -> inv s' a0 (l ++ mid' ++ r).
Proof.
  intros H H' Et Hb Hf Hbin Hd. apply inv_intro; [done| |]; rewrite Et; [|done]. rewrite Hbin. by apply (reblock gm_addr s s' a0 l mid mid' r).
Qed.

(** What follows a block that becomes one in use. *)
Lemma layout_after_used h h' a pf b r : layout h a pf (b :: r) -> head (get h' a) = head (get h a) .| PINUSE_BIT ->
  (forall y, a < y -> head (get h' y) = head (get h y) /\ prev_foot (get h' y) = prev_foot (get h y)) -> layout h' a None (b :: r).
Proof.
  intros H Hh Hy. pose proof H as (E & _ & (Hm & _) & _). apply (layout_retag h _ _ pf); [done|rewrite Hh, E; by apply head_set_pinuse|done|].
  intros y [? _]. by apply Hy.
Qed.

(** The block takes all of the blocks behind it. *)
Lemma grow_core s s' a0 l sz m b r : let x := a0 + total l in let n := sz + total m in core s a0 (l ++ ((sz, InUse) :: m) ++ b :: r) -> n mod 16 = 0 -> MIN_CHUNK_SIZE <= n ->
  mem s' = inuse_heap x n (mem s) -> same_row (gm s) (gm s') -> core s' a0 (l ++ [(n, InUse)] ++ b :: r).
Proof.
  intros x n H Hm Hmin Em (E1 & E2 & E3). pose proof Hmin as Hmin'. rewrite min_chunk_size in Hmin'. pose proof (core_block _ _ _ _ _ _ _ H) as [_ (Hszm & _) _ Hh _ _ _ _ _ _ _ _]. fold x in Hh. simpl in Hszm.
  pose proof (hc_layout _ _ _ _ H) as Hlay. rewrite !layout_app in Hlay. destruct Hlay as (_ & _ & Hr). fold x in Hr. simpl total in Hr.
  apply (regrow_core s s' a0 l sz m n [] (b :: r) H); fold x; rewrite ?Em; try done.
  - simpl. unfold n. lia.
  - intros y Hy. by rewrite inuse_heap_other by lia.
  - intros y _. apply inuse_heap_foot.
  - by apply (inuse_heap_head x n _ ltac:(lia) sz).
  - simpl. rewrite Z.add_0_r. apply (layout_after_used _ _ _ _ _ _ Hr).
    + apply inuse_heap_next. lia.
    + intros y Hy. by rewrite inuse_heap_other by (unfold n in *; lia).
  - apply (top_ok_gm (gm s)); [done|done|]. apply (row_top _ a0 l ((sz, InUse) :: m) [(n, InUse)]); [apply H|done|done|simpl; unfold n; lia].
Qed.

(** The block and the blocks behind it become two blocks in use. *)
Lemma cut_core s s' a0 l sz m b r nb : let x := a0 + total l in let rs := sz + total m - nb in core s a0 (l ++ ((sz, InUse) :: m) ++ b :: r) ->
  nb mod 16 = 0 -> MIN_CHUNK_SIZE <= nb -> rs mod 16 = 0 -> MIN_CHUNK_SIZE <= rs ->
  mem s' = inuse_heap (x + nb) rs (inuse_heap x nb (mem s)) -> same_row (gm s) (gm s') -> core s' a0 (l ++ [(nb, InUse); (rs, InUse)] ++ b :: r).
Proof.
  intros x rs H Hm Hmin Hrm Hrs Em (E1 & E2 & E3). pose proof Hmin as Hmin'. rewrite min_chunk_size in Hmin'. pose proof Hrs as Hrs'. rewrite min_chunk_size in Hrs'.
  pose proof (core_block _ _ _ _ _ _ _ H) as [_ (Hszm & _) _ Hh _ _ _ _ _ _ _ _]. fold x in Hh. simpl in Hszm.
  pose proof (hc_layout _ _ _ _ H) as Hlay. rewrite !layout_app in Hlay. destruct Hlay as (_ & _ & Hr). fold x in Hr. simpl total in Hr.
  replace (x + (sz + total m)) with (x + nb + rs) in Hr by (unfold rs; lia).
  apply (regrow_core s s' a0 l sz m nb [(rs, InUse)] (b :: r) H); fold x; rewrite ?Em; try done.
  - simpl. unfold rs. lia.
  - intros y Hy. by rewrite !inuse_heap_other by lia.
  - intros y _. by rewrite !inuse_heap_foot.
  - rewrite inuse_heap_other by lia. by apply (inuse_heap_head x nb _ ltac:(lia) sz).
  - simpl. split; [|split; [done|split; [split; [done|split; [simpl; lia|done]]|done]]].
    apply (inuse_heap_fresh (x + nb) rs _ ltac:(lia) (head (get (mem s) (x + nb)))); [|done]. apply inuse_heap_next. lia.
  - simpl total. rewrite Z.add_0_r. apply (layout_after_used _ _ _ _ _ _ Hr).
    + rewrite inuse_heap_next by lia. by rewrite inuse_heap_other by lia.
    + intros y Hy. by rewrite !inuse_heap_other by lia.
  - apply (top_ok_gm (gm s)); [done|done|]. apply (row_top _ a0 l ((sz, InUse) :: m) [(nb, InUse); (rs, InUse)]); [apply H|done|done|simpl; unfold rs; lia].
Qed.

(** ** Growing a block *)

(** The block at [a0 + total l], of [sz] bytes, holds [nb] bytes afterwards and less than a chunk more; every other block in use is where it was. *)
Definition resized (a0 : Z) (l : blocks) (sz : Z) (r : blocks) (nb : Z) (s' : dl_st) : Prop := exists bs' sz',
  inv s' a0 bs' /\ total bs' = total l + sz + total r /\ nb <= sz' < nb + MIN_CHUNK_SIZE /\
  of_kind InUse a0 bs' ≡ₚ (a0 + total l, sz') :: rest InUse a0 l sz r.

Lemma resized_intro s' a0 l sz m nb sz' m' r' : inv s' a0 (l ++ ((sz', InUse) :: m') ++ r') -> nb <= sz' < nb + MIN_CHUNK_SIZE -> sz' + total m' = sz + total m ->
  of_kind InUse (a0 + total l + sz') m' = [] -> of_kind InUse (a0 + total l + sz) m = [] -> resized a0 l sz (m ++ r') nb s'.
Proof.
  intros H Hsz Et Em' Em. exists (l ++ ((sz', InUse) :: m') ++ r'), sz'. split; [done|]. split; [rewrite !total_app; simpl; lia|]. split; [done|].
  rewrite of_kind_mid. simpl. rewrite Em'. unfold rest. rewrite of_kind_app, Em. simpl. constructor.
  by replace (a0 + total l + sz + total m) with (a0 + total l + (sz' + total m')) by lia.
Qed.

(** What is known of a block in use and the block that follows it. *)
Record growing (s : dl_st) (a0 : Z) (l : blocks) (sz sz1 : Z) (k1 : kind) (r1 : blocks) : Prop := {
  gr_inv : inv s a0 (l ++ ((sz, InUse) :: (sz1, k1) :: r1));
  gr_core : core s a0 (l ++ [(sz, InUse); (sz1, k1)] ++ r1);
  gr_free : free_inv gm_addr s (of_kind Binned (a0 + total l + sz) [(sz1, k1)] ++ rest Binned a0 l (sz + sz1) r1);
  gr_dv : dv_ok (gm s) (of_kind Dv (a0 + total l + sz) [(sz1, k1)] ++ rest Dv a0 l (sz + sz1) r1);
  gr_size : sz mod 16 = 0 /\ sz1 mod 16 = 0 /\ MIN_CHUNK_SIZE <= sz /\ 0 < sz1;
  gr_range : 0 < a0 + total l /\ a0 + total l + sz + sz1 + total r1 < 2 ^ 63 /\ sz + sz1 < MAX_TREE_SIZE /\ 0 <= total r1;
  gr_head : head (get (mem s) (a0 + total l + sz)) = mkhead sz1 true (in_use k1) }.

Lemma grows s a0 l sz sz1 k1 r1 : inv s a0 (l ++ (sz, InUse) :: (sz1, k1) :: r1) -> growing s a0 l sz sz1 k1 r1.
Proof.
  intros H. pose proof (core_block _ _ _ _ _ _ _ (hi_core _ _ _ _ H)) as [_ (Hm & _ & Hmin) _ _ _ Hr Hrg _ _ _ _ _]. simpl in Hm, Hmin, Hrg.
  pose proof Hr as (Hh & _ & (Hm1 & Hp1 & _) & Hr1). simpl in Hh, Hm1, Hp1. pose proof (row_nonneg _ (layout_ok _ _ _ _ Hr1)).
  pose proof (inv_elim _ s a0 l [(sz, InUse); (sz1, k1)] r1 H) as (Hc & Hf & Hd). simpl in Hf, Hd. rewrite Z.add_0_r in Hf, Hd.
  split; try done; [by rewrite min_chunk_size in *; auto with lia|]. lia.
Qed.

(** Into the top. *)
Lemma extend_top_ok s a0 l sz z nb : growing s a0 l sz z Top [] -> nb mod 16 = 0 -> sz < nb < sz + z ->
  exists s', extend_into_top (a0 + total l) sz nb s = Ok (a0 + total l, s') /\ resized a0 l sz [(z, Top)] nb s'.
Proof.
  intros [H Hc Hf Hd (Hm & Hm1 & Hmin & Hp1) Hrg Hh] Hnm Hnb. set (x := a0 + total l) in *. rewrite min_chunk_size in Hmin. change MAX_TREE_SIZE with (2 ^ 40) in Hrg. simpl in Hrg.
  destruct (hc_top _ _ _ _ Hc) as (bt & Ebt & _ & Hnt). change (l ++ _ ++ []) with (l ++ [(sz, InUse)] ++ [(z, Top)]) in Ebt. rewrite app_assoc in Ebt. apply app_inj_tail in Ebt as [Ebt [= Ez]].
  unfold extend_into_top. rewrite gets_bind, <-Ez. cbv zeta. rewrite (wrap_small 64 (sz + z)), decide_True by (unfold fits; lia).
  unfold chunk_plus_offset. rewrite !wrap_small by (unfold fits; lia). rewrite (bind_ok _ _ _ _ _ (run_set_inuse s x nb ltac:(lia) ltac:(lia) ltac:(lia))).
  rewrite wr_bind, modify_bind by lia. set (s' := set_gm _ _). exists s'. split; [done|].
  assert (Hc' : core s' a0 (l ++ [(nb, InUse); (sz + z - nb, Top)] ++ [])).
  { apply (regrow_core s s' a0 l sz [(z, Top)] nb [(sz + z - nb, Top)] []); fold x; rewrite ?min_chunk_size; simpl; try done; try lia.
    - intros y Hy. by rewrite get_upd_ne, inuse_heap_other by lia.
    - intros y Hy. by rewrite (get_upd_field prev_foot), inuse_heap_foot.
    - rewrite get_upd_ne by lia. apply (inuse_heap_head x nb (mem s) ltac:(lia) sz); try done. destruct (core_block _ _ _ _ _ _ _ (hi_core _ _ _ _ H)) as [_ _ _ Ehd _ _ _ _ _ _ _ _]. exact Ehd.
    - split; [|split; [done|split; [|done]]]; [rewrite get_upd_eq; cbn; apply head_free; zlia|]. split; [simpl; zlia|split; [simpl; lia|done]].
    - exists (l ++ [(nb, InUse)]). rewrite <-app_assoc. split; [done|]. simpl. split; [rewrite total_app; simpl; lia|].
      rewrite <-Ebt, of_kind_app in Hnt. apply app_eq_nil in Hnt as [Hnt _]. by rewrite of_kind_app, Hnt. }
  rewrite <-(app_nil_r [(z, Top)]). apply (resized_intro s' a0 l sz [(z, Top)] nb nb [(sz + z - nb, Top)] []); [|rewrite min_chunk_size; lia|simpl; lia|done|done].
  apply (regrow_inv s s' a0 l [(sz, InUse); (z, Top)] _ [] Hc Hc'); simpl total; rewrite ?Z.add_0_r; [lia| |exact Hf|done|exact Hd].
  split; try done. intros y. simpl. by rewrite (get_upd_field links), inuse_heap_links.
Qed.

(** Behind a free block there is one in use, which knows. *)
Lemma grows_next s a0 l sz sz1 k1 r1 : growing s a0 l sz sz1 k1 r1 -> k1 <> InUse -> k1 <> Top -> exists sz2 r2, r1 = (sz2, InUse) :: r2 /\
  head (get (mem s) (a0 + total l + sz + sz1)) = mkhead sz2 false true /\ sz2 mod 16 = 0 /\ 0 < sz2 < 2 ^ 60 /\ MIN_CHUNK_SIZE <= sz1.
Proof.
  intros [H _ _ _ _ _ _] Hk Hkt. change (l ++ _) with (l ++ [(sz, InUse)] ++ (sz1, k1) :: r1) in H. rewrite app_assoc in H.
  pose proof (core_block _ _ _ _ _ _ _ (hi_core _ _ _ _ H)) as [_ (_ & Hp1 & Hmin) _ _ _ Hr Hrg _ _ _ Hnx _]. destruct (Hnx Hk Hkt) as (sz2 & r2 & ->).
  rewrite total_app in Hr. simpl in Hr. rewrite Z.add_0_r, Z.add_assoc in Hr. destruct Hr as (Hh & _ & (Hm2 & Hp2 & _) & Hr2). pose proof (row_nonneg _ (layout_ok _ _ _ _ Hr2)). change MAX_TREE_SIZE with (2 ^ 40) in Hrg. simpl in *.
  exists sz2, r2. split; [done|]. split; [|split; [done|split; [lia|by apply Hmin]]]. rewrite Hh. unfold after. simpl. by destruct k1.
Qed.

(** The stores that cut the chunk kept aside. *)
Definition cut_dv_heap (x nb ds : Z) (h : heap) : heap :=
  upd (x + nb + ds) (fun c => set_head (head c .& bnot 64 PINUSE_BIT) c) (merge_heap (x + nb) ds (inuse_heap x nb h)).

Lemma cut_dv_core s s' a0 l sz sz1 r1 nb : growing s a0 l sz sz1 Dv r1 -> let x := a0 + total l in let ds := sz + sz1 - nb in nb mod 16 = 0 -> sz < nb -> MIN_CHUNK_SIZE <= ds ->
  mem s' = cut_dv_heap x nb ds (mem s) -> same_row (gm s) (gm s') -> core s' a0 (l ++ [(nb, InUse); (ds, Dv)] ++ r1).
Proof.
  intros Hg x ds Hnm Hnb Hds Em (E1 & E2 & E3). destruct (grows_next _ _ _ _ _ _ _ Hg ltac:(done) ltac:(done)) as (sz2 & r2 & -> & Hh2 & Hm2 & Hp2 & _).
  destruct Hg as [H Hc _ _ (Hm & Hm1 & Hmin & Hp1) Hrg Hh]. fold x in Hrg, Hh, Hh2. rewrite min_chunk_size in Hmin, Hds. change MAX_TREE_SIZE with (2 ^ 40) in Hrg.
  pose proof (hc_layout _ _ _ _ Hc) as Hlay. rewrite !layout_app in Hlay. destruct Hlay as (_ & _ & Hr). fold x in Hr. simpl total in Hr. rewrite Z.add_0_r in Hr.
  destruct (core_block _ _ _ _ _ _ _ (hi_core _ _ _ _ H)) as [_ _ _ Ehd _ _ _ _ _ _ _ _]. fold x in Ehd. replace (x + sz + sz1) with (x + nb + ds) in Hh2 by (unfold ds; lia).
  apply (regrow_core s s' a0 l sz [(sz1, Dv)] nb [(ds, Dv)] ((sz2, InUse) :: r2) Hc); fold x; rewrite ?min_chunk_size, ?Em; unfold cut_dv_heap, merge_heap; simpl total; try done; try lia.
  - intros y Hy. by rewrite !get_upd_ne, inuse_heap_other by lia.
  - intros y Hy. by rewrite !get_upd_ne, inuse_heap_foot by lia.
  - rewrite !get_upd_ne by lia. by apply (inuse_heap_head x nb (mem s) ltac:(lia) sz).
  - simpl. split; [|split; [done|split; [|done]]]; [rewrite !get_upd_ne, get_upd_eq by lia; cbn; apply head_free; unfold ds; zlia|].
    split; [simpl; unfold ds; zlia|split; [simpl; lia|intros _; rewrite min_chunk_size; simpl; lia]].
  - rewrite Z.add_0_r. replace (x + nb + ds) with (x + (sz + sz1)) by (unfold ds; lia). apply (layout_retag _ _ _ _ (Some ds) _ _ Hr); replace (x + (sz + sz1)) with (x + nb + ds) by (unfold ds; lia).
    + rewrite get_upd_eq. cbn. rewrite (get_upd_field head), get_upd_ne, inuse_heap_other, Hh2 by (done || lia). apply head_clear_pinuse; [done|lia].
    + intros p [= <-]. split; [|done]. by rewrite (get_upd_field prev_foot), get_upd_eq.
    + intros y Hy. by rewrite !get_upd_ne, inuse_heap_other by lia.
  - apply (top_ok_gm (gm s)); [done|done|]. apply (row_top _ a0 l [(sz, InUse); (sz1, Dv)] [(nb, InUse); (ds, Dv)]); [apply Hc|done|done|simpl; unfold ds; lia].
Qed.

Lemma same_bins_heap s f h : (forall y, links (get h y) = links (get (mem s) y)) -> smallmap (f (gm s)) = smallmap (gm s) -> treemap (f (gm s)) = treemap (gm s) ->
  treebins (f (gm s)) = treebins (gm s) -> least_addr (f (gm s)) = least_addr (gm s) -> same_bins s (mkDl (f (gm s)) h).
Proof. by split. Qed.

(** Over the chunk kept aside. *)
Lemma extend_dv_ok s a0 l sz sz1 r1 nb : growing s a0 l sz sz1 Dv r1 -> nb mod 16 = 0 -> sz < nb <= sz + sz1 ->
  exists s', extend_into_dv (a0 + total l) sz nb s = Ok (a0 + total l, s') /\ resized a0 l sz ((sz1, Dv) :: r1) nb s'.
Proof.
  intros Hg Hnm Hnb. pose proof Hg as [H Hc Hf Hd (Hm & Hm1 & Hmin & Hp1) Hrg Hh]. set (x := a0 + total l) in *.
  destruct (grows_next _ _ _ _ _ _ _ Hg ltac:(done) ltac:(done)) as (sz2 & r2 & -> & _).
  rewrite min_chunk_size in Hmin. change MAX_TREE_SIZE with (2 ^ 40) in Hrg. destruct Hd as [(_ & _ & [=])|(_ & [= E1 E2 E3])].
  unfold extend_into_dv. rewrite gets_bind, <-E2. cbv zeta. rewrite (wrap_small 64 (sz + sz1)), decide_True by (unfold fits; lia).
  unfold chunk_plus_offset. rewrite !wrap_small by (unfold fits; lia). destruct (decide (MIN_CHUNK_SIZE <= _)) as [Hds|Hds]; rewrite min_chunk_size in Hds.
  - set (ds := sz + sz1 - nb) in *. rewrite bind_assoc, (bind_ok _ _ _ _ _ (run_set_inuse s x nb ltac:(lia) ltac:(lia) ltac:(lia))).
    rewrite bind_assoc, (bind_ok _ _ _ _ _ (run_set_free _ (x + nb) ds ltac:(lia) ltac:(lia) ltac:(lia))).
    unfold clear_pinuse. rewrite bind_assoc, bind_assoc, rd_bind, wr_bind, modify_bind by lia. set (s' := set_gm _ _). exists s'. split; [done|].
    assert (Hc' : core s' a0 (l ++ [(nb, InUse); (ds, Dv)] ++ (sz2, InUse) :: r2)) by (apply (cut_dv_core s s' a0 l sz sz1 _ nb Hg); rewrite ?min_chunk_size; try done; fold x ds; lia).
    apply (resized_intro s' a0 l sz [(sz1, Dv)] nb nb [(ds, Dv)]); [|rewrite min_chunk_size; lia|simpl; lia|done|done].
    apply (regrow_inv s s' a0 l [(sz, InUse); (sz1, Dv)] _ _ Hc Hc'); simpl total; rewrite ?Z.add_0_r; [lia| |exact Hf|done|].
    + apply (same_bins_heap s); try done. intros y. simpl. unfold merge_heap. by rewrite !(get_upd_field links), inuse_heap_links.
    + fold x. simpl. rewrite E3. right. simpl. split; [lia|done].
  - rewrite bind_assoc, (bind_ok _ _ _ _ _ (run_set_inuse s x (sz + sz1) ltac:(lia) ltac:(lia) ltac:(lia))), modify_bind. set (s' := set_gm _ _). exists s'. split; [done|].
    assert (Hc' : core s' a0 (l ++ [(sz + sz1, InUse)] ++ (sz2, InUse) :: r2)).
    { apply (grow_core s s' a0 l sz [(sz1, Dv)] (sz2, InUse) r2) in Hc; [by replace (sz + total [(sz1, Dv)]) with (sz + sz1) in Hc by (simpl; lia)|simpl; zlia|rewrite min_chunk_size; simpl; lia| |done].
      simpl. by rewrite Z.add_0_r. }
    apply (resized_intro s' a0 l sz [(sz1, Dv)] nb (sz + sz1) []); [|rewrite min_chunk_size; lia|simpl; lia|done|done].
    apply (regrow_inv s s' a0 l [(sz, InUse); (sz1, Dv)] _ _ Hc Hc'); simpl total; rewrite ?Z.add_0_r; [lia| |exact Hf|done|].
    + apply (same_bins_heap s); try done. intros y. simpl. by rewrite inuse_heap_links.
    + simpl. rewrite E3. by left.
Qed.

(** Cutting a block, with the blocks [m] behind it that are no longer in a bin: the remainder is disposed of. *)
Lemma cut_ok s a0 l sz m b r nb : let x := a0 + total l in let rs := sz + total m - nb in core s a0 (l ++ ((sz, InUse) :: m) ++ b :: r) ->
  free_inv gm_addr s (rest Binned a0 l (sz + total m) (b :: r)) -> dv_ok (gm s) (rest Dv a0 l (sz + total m) (b :: r)) -> of_kind InUse (x + sz) m = [] ->
  nb mod 16 = 0 -> MIN_CHUNK_SIZE <= nb -> rs mod 16 = 0 -> MIN_CHUNK_SIZE <= rs ->
  exists s1 s2 s3, set_inuse x nb s = Ok (tt, s1) /\ set_inuse (x + nb) rs s1 = Ok (tt, s2) /\ dispose_fast gm_addr (x + nb) rs s2 = Ok (Done, s3) /\
    resized a0 l sz (m ++ b :: r) nb s3 /\ sys_part s3 = sys_part s.
Proof.
  intros x rs Hc Hf Hd Hu Hnm Hnb Hrm Hrs. pose proof Hnb as Hnb'. pose proof Hrs as Hrs'. rewrite min_chunk_size in Hnb', Hrs'.
  assert (Hx : 0 < x /\ x + nb + rs < 2 ^ 63).
  { pose proof (core_block _ _ _ _ _ _ _ Hc) as [_ _ _ _ _ _ Hrg _ _ _ _ _]. pose proof (core_ok _ _ _ _ Hc) as Hok. rewrite !Forall_app in Hok. destruct Hok as (_ & _ & Hok).
    pose proof (row_nonneg _ Hok) as Hnn. fold x in Hrg. change (_ ++ b :: r) with (m ++ b :: r) in Hrg. rewrite total_app in Hrg. unfold rs. lia. }
  set (s2 := set_mem (inuse_heap (x + nb) rs (inuse_heap x nb (mem s))) s).
  assert (Hc2 : core s2 a0 (l ++ [(nb, InUse); (rs, InUse)] ++ b :: r)) by (by apply (cut_core s s2 a0 l sz m b r nb)).
  assert (Hi : inv s2 a0 ((l ++ [(nb, InUse)]) ++ (rs, InUse) :: b :: r)).
  { rewrite <-app_assoc. apply (regrow_inv s s2 a0 l ((sz, InUse) :: m) [(nb, InUse); (rs, InUse)] (b :: r) Hc Hc2); simpl total; rewrite ?Z.add_0_r; [unfold rs; lia| |done|done|done].
    apply (same_bins_heap s (fun g => g)); try done. intros y. by rewrite !inuse_heap_links. }
  destruct (dispose_ok gm_addr Hgm s2 a0 (l ++ [(nb, InUse)]) rs (b :: r) Hi) as (s3 & Hrun & (bs' & Hi3 & Et & Hp) & Hsp). rewrite total_app in Hrun, Et. simpl in Hrun, Et. rewrite Z.add_0_r, Z.add_assoc in Hrun.
  exists (set_mem (inuse_heap x nb (mem s)) s), s2, s3. split; [apply run_set_inuse; lia|]. split; [apply (run_set_inuse (set_mem _ s)); lia|]. split; [exact Hrun|]. split; [|done].
  exists bs', nb. split; [done|]. split; [rewrite Et, total_app; simpl; unfold rs; lia|]. split; [rewrite min_chunk_size; lia|]. rewrite Hp. unfold rest.
  fold x. rewrite !of_kind_app, Hu, total_app. simpl total. cbn [app]. replace (x + sz + total m) with (a0 + (total l + (nb + 0)) + rs) by (unfold rs, x; lia). simpl. solve_Permutation.
Qed.

(** ** [try_realloc_chunk] *)
Context {W : Type} `{!SystemMemory W}.
Abbreviation Y := (cmd (dlsys W)).

Lemma dispose_chunk_eq (y : dlsys W) p sz h : dispose_fast gm_addr p sz (hst y) = Ok (Done, h) -> dispose_chunk gm_addr p sz y = Ok (tt, with_hst h y).
Proof. intros H. unfold dispose_chunk. by rewrite (on_heap_bind _ _ _ _ _ H). Qed.

Lemma cut_chunk_eq (y : dlsys W) p nb rs s1 s2 s3 : 0 < p -> 0 < nb -> p + nb < 2 ^ 63 -> set_inuse p nb (hst y) = Ok (tt, s1) -> set_inuse (p + nb) rs s1 = Ok (tt, s2) ->
  dispose_fast gm_addr (p + nb) rs s2 = Ok (Done, s3) -> cut_chunk gm_addr p nb rs y = Ok (tt, with_hst s3 y).
Proof.
  intros Hp Hn Hr H1 H2 H3. unfold cut_chunk, chunk_plus_offset. rewrite wrap_small by (unfold fits; lia). rewrite (on_heap_bind _ _ _ _ _ H1), (on_heap_bind _ _ (with_hst s1 y) _ _ H2).
  by rewrite (dispose_chunk_eq (with_hst s2 (with_hst s1 y)) _ _ _ H3).
Qed.

(** The block cannot grow: what follows it is in use or too small. *)
Definition cannot_grow (sz : Z) (r : blocks) (nb : Z) : Prop := sz < nb /\ exists sz1 k1 r1, r = (sz1, k1) :: r1 /\
  match k1 with InUse => True | Top => sz + sz1 <= nb | _ => sz + sz1 < nb end.

(** Over a free block of a bin. *)
Lemma extend_free_ok (y : dlsys W) a0 l sz sz1 r1 nb : growing (hst y) a0 l sz sz1 Binned r1 -> nb mod 16 = 0 -> sz < nb <= sz + sz1 -> let x := a0 + total l in
  exists h, extend_into_free gm_addr x sz (x + sz) nb y = Ok (x, with_hst h y) /\ resized a0 l sz ((sz1, Binned) :: r1) nb h /\ sys_part h = sys_part (hst y).
Proof.
  intros Hg Hnm Hnb x. pose proof Hg as [H Hc Hf Hd (Hm & Hm1 & Hmin & Hp1) Hrg Hh]. fold x in Hf, Hd, Hrg, Hh.
  destruct (grows_next _ _ _ _ _ _ _ Hg ltac:(done) ltac:(done)) as (sz2 & r2 & -> & _). rewrite min_chunk_size in Hmin. change MAX_TREE_SIZE with (2 ^ 40) in Hrg.
  unfold extend_into_free. erewrite on_heap_bind by (apply rd_ok; lia). rewrite (chunksize_mkhead _ _ _ _ Hh Hm1) by lia. cbv zeta. rewrite (wrap_small 64 (sz + sz1)), decide_True by (unfold fits; lia).
  change (l ++ _) with (l ++ [(sz, InUse)] ++ (sz1, Binned) :: (sz2, InUse) :: r2) in H. rewrite app_assoc in H.
  destruct (unlink_block gm_addr Hgm "try_realloc_chunk" (hst y) a0 _ sz1 _ H) as (s1 & Hrun & Hc1 & Hf1 & Hg1). rewrite total_app in Hrun. simpl in Hrun. rewrite Z.add_0_r, Z.add_assoc in Hrun. fold x in Hrun.
  pose proof (keeps_unlink gm_addr _ _ _ _ _ _ Hrun) as Hsp.
  destruct y as [h0 sg mp us o]. simpl in *. erewrite on_heap_bind by exact Hrun. simpl. rewrite <-app_assoc in Hc1. simpl in Hc1.
  assert (Er : forall K, K <> InUse -> rest K a0 (l ++ [(sz, InUse)]) sz1 ((sz2, InUse) :: r2) = rest K a0 l (sz + sz1) ((sz2, InUse) :: r2)).
  { intros K HK. unfold rest. rewrite of_kind_app, total_app. simpl. rewrite !decide_False by done. rewrite !app_nil_r. by replace (a0 + (total l + (sz + 0)) + sz1) with (a0 + total l + (sz + sz1)) by lia. }
  rewrite Er in Hf1 by done. simpl in Hd. rewrite (wrap_small 64 (sz + sz1 - nb)) by (unfold fits; lia).
  assert (Hd1 : dv_ok (gm s1) (rest Dv a0 l (sz + sz1) ((sz2, InUse) :: r2))) by (by rewrite Hg1).
  destruct (decide (sz + sz1 - nb < MIN_CHUNK_SIZE)) as [Hrs|Hrs]; rewrite min_chunk_size in Hrs.
  - set (s2 := set_mem (inuse_heap x (sz + sz1) (mem s1)) s1). exists s2. erewrite on_heap_bind by (simpl; apply run_set_inuse; lia). split; [done|]. split; [|done].
    assert (Hc2 : core s2 a0 (l ++ [(sz + sz1, InUse)] ++ (sz2, InUse) :: r2)).
    { pose proof (grow_core s1 s2 a0 l sz [(sz1, Binned)] (sz2, InUse) r2 Hc1) as Hc2. simpl total in Hc2. rewrite Z.add_0_r in Hc2. apply Hc2; try done; [zlia|rewrite min_chunk_size; lia]. }
    apply (resized_intro s2 a0 l sz [(sz1, Binned)] nb (sz + sz1) []); [|rewrite min_chunk_size; lia|simpl; lia|done|done].
    apply (regrow_inv s1 s2 a0 l [(sz, InUse); (sz1, Binned)] _ _ Hc1 Hc2); simpl total; rewrite ?Z.add_0_r; [lia| |done|done|done].
    apply (same_bins_heap s1 (fun g => g)); try done. intros z. by rewrite inuse_heap_links.
  - destruct (cut_ok s1 a0 l sz [(sz1, Binned)] (sz2, InUse) r2 nb Hc1) as (t1 & t2 & t3 & R1 & R2 & R3 & Hres & Hsp3); rewrite ?min_chunk_size; simpl total; rewrite ?Z.add_0_r; try done; [lia|zlia|lia|].
    simpl total in *. rewrite ?Z.add_0_r in *. exists t3. erewrite bind_ok by (eapply (cut_chunk_eq (mkSys W s1 sg mp us o)); [| | |exact R1|exact R2|exact R3]; lia). split; [done|]. split; [exact Hres|]. by rewrite Hsp3.
Qed.

Lemma keeps_set_inuse p sz : leaves sys_part (set_inuse p sz).
Proof. unfold set_inuse. leaves_all. Qed.
#[local] Hint Resolve keeps_set_inuse keeps_clear_pinuse : leaves.
Lemma keeps_extend_top p sz nb : leaves sys_part (extend_into_top p sz nb).
Proof. unfold extend_into_top. leaves_all. Qed.
Lemma keeps_extend_dv p sz nb : leaves sys_part (extend_into_dv p sz nb).
Proof. unfold extend_into_dv. leaves_all. Qed.

(** What [try_realloc_chunk] answers. *)
Definition resize_call (y y' : dlsys W) (a0 : Z) (l : blocks) (sz : Z) (r : blocks) (nb p : Z) : Prop :=
  p = a0 + total l /\ (exists h, y' = with_hst h y /\ resized a0 l sz r nb h /\ sys_part h = sys_part (hst y)) \/
  p = 0 /\ y' = y /\ cannot_grow sz r nb.

(** The tests of the block and of what follows it. *)
Lemma realloc_checks (y : dlsys W) a0 l sz sz1 k1 r1 : growing (hst y) a0 l sz sz1 k1 r1 -> let x := a0 + total l in
  chunk_in_use x (x + sz) (hst y) = Ok (true, hst y) /\ chunksize (get (mem (hst y)) x) = sz /\ head (get (mem (hst y)) x) .& INUSE_BITS <> 0 /\
  cinuse (get (mem (hst y)) (x + sz)) = 2 * Z.b2z (in_use k1) /\ (x + sz = top (gm (hst y)) <-> k1 = Top) /\ (x + sz = dv (gm (hst y)) <-> k1 = Dv).
Proof.
  intros [H Hc Hf Hd (Hm & Hm1 & Hmin & Hp1) Hrg Hh] x. fold x in Hf, Hd, Hrg, Hh. pose proof (core_block _ _ _ _ _ _ _ (hi_core _ _ _ _ H)) as [_ _ _ Ehd _ _ _ [_ Hla] _ _ _ _]. fold x in Ehd, Hla.
  rewrite min_chunk_size in Hmin. change MAX_TREE_SIZE with (2 ^ 40) in Hrg. cbn [in_use] in Ehd. split; [|split; [|split; [|split; [|split]]]].
  - unfold chunk_in_use. rewrite (bind_ok _ _ _ _ _ (ok_address_true x (hst y) Hla)), rd_bind, Ehd, inuse_bits_mkhead by lia.
    rewrite (bool_decide_eq_true_2 (_ <> _)) by (change PINUSE_BIT with 1; destruct (is_none _); simpl; lia). unfold ok_next. rewrite (bool_decide_eq_true_2 (x < _)) by lia. cbn [andb].
    rewrite rd_bind by lia. by rewrite (pinuse_mkhead _ _ _ _ Hh Hm1).
  - apply (chunksize_mkhead _ _ _ _ Ehd Hm). lia.
  - rewrite Ehd, inuse_bits_mkhead by done. destruct (is_none _); simpl; lia.
  - by apply (cinuse_mkhead _ _ _ _ Hh Hm1).
  - split; [|intros ->].
    + intros E. destruct (decide (k1 = Top)) as [|Hk]; [done|exfalso]. change (l ++ _) with (l ++ [(sz, InUse)] ++ (sz1, k1) :: r1) in H.
      pose proof (top_next gm_addr (hst y) a0 l [(sz, InUse)] sz sz1 k1 r1 (hi_core _ _ _ _ H)) as Hnt. apply Hnt; [simpl; lia|done|done].
    + change (l ++ _) with (l ++ [(sz, InUse)] ++ (sz1, Top) :: r1) in H. rewrite app_assoc in H.
      pose proof (core_block _ _ _ _ _ _ _ (hi_core _ _ _ _ H)) as [_ _ _ _ _ _ _ _ _ _ _ Hl]. rewrite (Hl eq_refl) in H.
      destruct (top_block _ _ _ _ H) as (lt & E & ->). apply app_inj_tail in E as [<- _]. rewrite total_app. simpl. unfold x. lia.
  - split; [|intros ->].
    + intros E. destruct (decide (k1 = Dv)) as [|Hk]; [done|exfalso]. change (l ++ _) with (l ++ [(sz, InUse)] ++ (sz1, k1) :: r1) in H. rewrite app_assoc in H.
      apply (not_dv gm_addr _ _ _ _ _ _ H Hk). rewrite total_app. simpl. rewrite <-E. unfold x. lia.
    + destruct Hd as [(_ & _ & [=])|(_ & [= E1 E2 E3])]. exact E1.
Qed.

Lemma with_same (y : dlsys W) : with_hst (hst y) y = y.
Proof. by destruct y. Qed.
Lemma on_rd_bind {B} f a (k : Z -> Y B) (y : dlsys W) : 0 < a -> (on_heap (rd f a) ≫= k) y = k (f (get (mem (hst y)) a)) y.
Proof. intros Ha. erewrite on_heap_bind by (apply rd_ok; lia). by rewrite with_same. Qed.
Lemma on_check_bind {B} func c (k : unit -> Y B) (y : dlsys W) : c (hst y) = Ok (true, hst y) -> (on_heap (rtcheck func c) ≫= k) y = k tt y.
Proof. intros Hc. erewrite on_heap_bind by (unfold rtcheck; by rewrite (bind_ok _ _ _ _ _ Hc)). by rewrite with_same. Qed.

(** A block that is large enough is cut when the remainder can be a block. *)
Lemma shrink_ok (y : dlsys W) a0 l sz sz1 k1 r1 nb : growing (hst y) a0 l sz sz1 k1 r1 -> nb mod 16 = 0 -> MIN_CHUNK_SIZE <= nb <= sz -> let x := a0 + total l in
  exists y', (if decide (MIN_CHUNK_SIZE <= u64 (sz - nb)) then cut_chunk gm_addr x nb (u64 (sz - nb)) else mret tt) y = Ok (tt, y') /\
    resize_call y y' a0 l sz ((sz1, k1) :: r1) nb x.
Proof.
  intros [H _ _ _ (Hm & _ & _ & Hp1) Hrg _] Hnm Hnb x. fold x in Hrg. rewrite min_chunk_size in Hnb. change MAX_TREE_SIZE with (2 ^ 40) in Hrg.
  rewrite wrap_small by (unfold fits; lia). destruct (decide (MIN_CHUNK_SIZE <= _)) as [Hrs|Hrs]; rewrite min_chunk_size in Hrs.
  - apply (inv_elim _ (hst y) a0 l [(sz, InUse)] _) in H as (Hc1 & Hf1 & Hd1). simpl in Hf1, Hd1. rewrite Z.add_0_r in Hf1, Hd1.
    destruct (cut_ok (hst y) a0 l sz [] (sz1, k1) r1 nb Hc1) as (t1 & t2 & t3 & R1 & R2 & R3 & Hres & Hsp3); rewrite ?min_chunk_size; simpl total; rewrite ?Z.add_0_r; try done; [lia|zlia|].
    simpl total in R2, R3. rewrite ?Z.add_0_r in R2, R3. exists (with_hst t3 y). split; [eapply cut_chunk_eq; [| | |exact R1|exact R2|exact R3]; lia|].
    left. split; [done|]. by exists t3.
  - exists y. split; [done|]. left. split; [done|]. exists (hst y). split; [by rewrite with_same|]. split; [|done].
    exists (l ++ (sz, InUse) :: (sz1, k1) :: r1), sz. split; [done|]. split; [rewrite total_app; simpl; lia|]. split; [rewrite min_chunk_size; lia|].
    rewrite (of_kind_mid InUse a0 l [(sz, InUse)] ((sz1, k1) :: r1)). simpl. by rewrite Z.add_0_r.
Qed.

Lemma call_resized (y : dlsys W) a0 l sz r nb h : resized a0 l sz r nb h -> sys_part h = sys_part (hst y) -> resize_call y (with_hst h y) a0 l sz r nb (a0 + total l).
Proof. intros H1 H2. left. split; [done|]. by exists h. Qed.
Lemma call_refused y a0 l sz sz1 k1 r1 nb : sz < nb -> match k1 with InUse => True | Top => sz + sz1 <= nb | _ => sz + sz1 < nb end ->
  resize_call y y a0 l sz ((sz1, k1) :: r1) nb 0.
Proof. intros H1 H2. right. split; [done|]. split; [done|]. split; [done|]. by exists sz1, k1, r1. Qed.

(** A block that is too small takes room from the free block behind it. *)
Lemma grow_in_place_ok (y : dlsys W) a0 l sz sz1 k1 r1 nb : growing (hst y) a0 l sz sz1 k1 r1 -> nb mod 16 = 0 -> sz < nb < MAX_TREE_SIZE -> let x := a0 + total l in
  exists p y', match k1 with
    | Top => on_heap (extend_into_top x sz nb)
    | Dv => on_heap (extend_into_dv x sz nb)
    | Binned => extend_into_free gm_addr x sz (x + sz) nb
    | InUse => mret 0 end y = Ok (p, y') /\ resize_call y y' a0 l sz ((sz1, k1) :: r1) nb p.
Proof.
  intros Hg Hnm Hnb x. pose proof Hg as [H _ _ Hd (Hm & Hm1 & Hmin & Hp1) Hrg Hh]. fold x in Hd, Hrg, Hh. rewrite min_chunk_size in Hmin. change MAX_TREE_SIZE with (2 ^ 40) in Hnb, Hrg.
  destruct k1.
  - exists 0, y. split; [done|]. apply call_refused; [lia|done].
  - destruct (decide (nb <= sz + sz1)) as [Hn|Hn].
    + destruct (extend_free_ok y a0 l sz sz1 r1 nb Hg Hnm ltac:(lia)) as (h & Hrun & Hres & Hsp). exists x, (with_hst h y). split; [exact Hrun|]. by apply call_resized.
    + exists 0, y. split; [|apply call_refused; lia]. unfold extend_into_free. rewrite on_rd_bind, (chunksize_mkhead _ _ _ _ Hh Hm1) by lia.
      rewrite wrap_small, decide_False by (unfold fits; lia). done.
  - destruct (decide (nb <= sz + sz1)) as [Hn|Hn].
    + destruct (extend_dv_ok (hst y) a0 l sz sz1 r1 nb Hg Hnm ltac:(lia)) as (h & Hrun & Hres). exists x, (with_hst h y). split; [by apply on_heap_ok|].
      apply call_resized; [done|]. by apply (keeps_extend_dv x sz nb _ _ _ Hrun).
    + exists 0, y. split; [|apply call_refused; lia]. destruct Hd as [(_ & _ & [=])|(_ & [= _ E _])]. unfold on_heap, extend_into_dv. rewrite gets_bind, <-E.
      rewrite wrap_small, decide_False by (unfold fits; lia). exact (f_equal (fun y => Ok (0, y)) (with_same y)).
  - change (l ++ _) with (l ++ [(sz, InUse)] ++ (sz1, Top) :: r1) in H. rewrite app_assoc in H.
    pose proof (core_block _ _ _ _ _ _ _ (hi_core _ _ _ _ H)) as [_ _ _ _ _ _ _ _ _ _ _ Hl]. rewrite (Hl eq_refl) in Hg, H |- *. clear Hl. destruct (decide (nb < sz + sz1)) as [Hn|Hn].
    + destruct (extend_top_ok (hst y) a0 l sz sz1 nb Hg Hnm ltac:(lia)) as (h & Hrun & Hres). exists x, (with_hst h y). split; [by apply on_heap_ok|].
      apply call_resized; [done|]. by apply (keeps_extend_top x sz nb _ _ _ Hrun).
    + exists 0, y. split; [|apply call_refused; lia]. destruct (top_block _ _ _ _ H) as (lt & E & _). apply app_inj_tail in E as [_ [= E]]. unfold on_heap, extend_into_top. rewrite gets_bind, <-E.
      rewrite wrap_small, decide_False by (unfold fits; lia). exact (f_equal (fun y => Ok (0, y)) (with_same y)).
Qed.

Lemma try_realloc_ok (y : dlsys W) a0 l sz r nb mv : inv (hst y) a0 (l ++ (sz, InUse) :: r) -> nb mod 16 = 0 -> MIN_CHUNK_SIZE <= nb < MAX_TREE_SIZE ->
  exists p y', try_realloc_chunk gm_addr (a0 + total l) nb mv y = Ok (p, y') /\ resize_call y y' a0 l sz r nb p.
Proof.
  intros H Hnm Hnb. pose proof (core_block _ _ _ _ _ _ _ (hi_core _ _ _ _ H)) as [_ _ _ _ _ _ _ _ _ Hmore _ _]. destruct r as [|[sz1 k1] r1]; [by specialize (Hmore ltac:(done))|].
  pose proof (grows _ _ _ _ _ _ _ H) as Hg. destruct (realloc_checks y a0 l sz sz1 k1 r1 Hg) as (C1 & C2 & C3 & C4 & C5 & C6).
  pose proof (gr_range _ _ _ _ _ _ _ Hg) as Hrg. pose proof (gr_size _ _ _ _ _ _ _ Hg) as (_ & _ & Hmin & Hp1). set (x := a0 + total l) in *. rewrite min_chunk_size in Hmin. change MAX_TREE_SIZE with (2 ^ 40) in Hrg.
  unfold try_realloc_chunk. rewrite on_rd_bind, C2 by lia. cbv zeta. unfold chunk_plus_offset. rewrite (wrap_small 64 (x + sz)) by (unfold fits; lia).
  rewrite (on_check_bind _ _ _ _ C1), on_rd_bind, gm_get_bind by lia. rewrite (decide_False (P := _ = 0)) by done. destruct (decide (nb <= sz)) as [Hs|Hs].
  - destruct (shrink_ok y a0 l sz sz1 k1 r1 nb Hg Hnm ltac:(lia)) as (y' & Hrun & Hres). exists x, y'. by rewrite (bind_ok _ _ _ _ _ Hrun).
  - destruct (grow_in_place_ok y a0 l sz sz1 k1 r1 nb Hg Hnm ltac:(lia)) as (p & y' & Hrun & Hres). exists p, y'. split; [|done]. rewrite <-Hrun. fold x.
    destruct (decide (x + sz = top _)) as [Et|Et]; [apply C5 in Et as ->; done|]. destruct (decide (x + sz = dv _)) as [Ed|Ed]; [apply C6 in Ed as ->; done|].
    rewrite on_rd_bind, C4 by lia. destruct k1; [done|done|by destruct Ed; apply C6|by destruct Et; apply C5].
Qed.
End resize.
