(* ===== verification/DlContents.v ===== *)
(** The bytes of the blocks in use: no call of the C library's allocator (lib/stdlib/dlmalloc.c) but [calloc] and
    [realloc] writes them, and these write the block they answer. *)
From S2P Require Import Prelude DlBins DlHeap DlTree DlFree DlMalloc DlInit DlFrame DlSys DlGrow DlCalls.

Section keeps.
Context {W : Type} `{!SystemMemory W} (gm_addr stack_addr : Z).
Abbreviation Y := (cmd (dlsys W)).
Abbreviation kept := (leaves (@user W)).

Lemma kept_heap {A} (c : cmd dl_st A) : kept (on_heap c).
Proof. intros y a y' H. unfold on_heap in H. destruct (c (hst y)) as [[b h]|]; [by injection H as _ <-|done]. Qed.
Lemma kept_os {A} (c : cmd W A) : kept (on_os c).
Proof. intros y a y' H. unfold on_os in H. destruct (c (os y)) as [[b w]|]; [by injection H as _ <-|done]. Qed.
#[local] Hint Resolve kept_heap kept_os : leaves.
Lemma kept_gm_get {A} (f : malloc_state -> A) : kept (gm_get f).
Proof. apply leaves_gets. Qed.
Lemma kept_gm_set f : kept (gm_set f).
Proof. apply kept_heap. Qed.
Lemma kept_param {A} (f : malloc_params -> A) : kept (param f).
Proof. apply leaves_gets. Qed.
#[local] Hint Resolve kept_gm_get kept_gm_set kept_param : leaves.

Lemma kept_init : kept (ensure_initialization stack_addr).
Proof. unfold ensure_initialization, init_mparams. leaves_all. Qed.
Lemma kept_rd_seg sp : kept (rd_seg gm_addr sp).
Proof. unfold rd_seg. leaves_all. Qed.
#[local] Hint Resolve kept_init kept_rd_seg : leaves.
Lemma kept_wr_seg sp f : kept (wr_seg gm_addr sp f).
Proof. unfold wr_seg. leaves_all. Qed.
Lemma kept_find fuel test sp : kept (find_seg gm_addr fuel test sp).
Proof. revert sp. induction fuel as [|fuel IH]; intros sp; cbn [find_seg]; leaves_all. Qed.
#[local] Hint Resolve kept_wr_seg kept_find : leaves.
Lemma kept_holding fuel a : kept (segment_holding gm_addr fuel a).
Proof. unfold segment_holding. leaves_all. Qed.
Lemma kept_link fuel s : kept (has_segment_link gm_addr fuel s).
Proof. unfold has_segment_link. leaves_all. Qed.
#[local] Hint Resolve kept_holding kept_link : leaves.
Lemma kept_grow n : kept (grow_footprint n).
Proof. unfold grow_footprint. leaves_all. Qed.
Lemma kept_limit n : kept (within_limit n).
Proof. unfold within_limit. leaves_all. Qed.
Lemma kept_align n : kept (granularity_align n).
Proof. unfold granularity_align. leaves_all. Qed.
#[local] Hint Resolve kept_grow kept_limit kept_align : leaves.
Lemma kept_mmap_alloc nb : kept (mmap_alloc nb).
Proof. unfold mmap_alloc, mmap_align, page_align. leaves_all. Qed.
Lemma kept_mmap_resize p nb f : kept (mmap_resize p nb f).
Proof. unfold mmap_resize, mmap_align, page_align. leaves_all. Qed.
Lemma kept_add_segment fuel b n f : kept (add_segment gm_addr fuel b n f).
Proof. unfold add_segment. leaves_all. Qed.
Lemma kept_first_segment b n f : kept (first_segment gm_addr b n f).
Proof. unfold first_segment. leaves_all. Qed.
#[local] Hint Resolve kept_mmap_alloc kept_mmap_resize kept_add_segment kept_first_segment : leaves.
Lemma kept_next_segment fuel b n f nb : kept (next_segment gm_addr fuel b n f nb).
Proof. unfold next_segment. leaves_all. Qed.
#[local] Hint Resolve kept_next_segment : leaves.
Lemma kept_sys_alloc fuel nb : kept (sys_alloc gm_addr stack_addr fuel nb).
Proof. unfold sys_alloc. leaves_all. Qed.
Lemma kept_release_loop fuel pred sp r n : kept (release_loop gm_addr fuel pred sp r n).
Proof. revert pred sp r n. induction fuel as [|fuel IH]; intros pred sp r n; cbn [release_loop]; leaves_all. Qed.
#[local] Hint Resolve kept_sys_alloc kept_release_loop : leaves.
Lemma kept_release fuel : kept (release_unused_segments gm_addr fuel).
Proof. unfold release_unused_segments. leaves_all. Qed.
#[local] Hint Resolve kept_release : leaves.
Lemma kept_sys_trim fuel pad : kept (sys_trim gm_addr stack_addr fuel pad).
Proof. unfold sys_trim, trim_top, unmap_tail. leaves_all. Qed.
#[local] Hint Resolve kept_sys_trim : leaves.

Lemma kept_dlmalloc fuel bytes : kept (dlmalloc gm_addr stack_addr fuel bytes).
Proof. unfold dlmalloc. leaves_all. Qed.
Lemma kept_dlfree fuel mem : kept (dlfree gm_addr stack_addr fuel mem).
Proof. unfold dlfree. leaves_all. Qed.
Lemma kept_dispose p n : kept (dispose_chunk gm_addr p n).
Proof. unfold dispose_chunk, unmap_region. leaves_all. Qed.
#[local] Hint Resolve kept_dlmalloc kept_dlfree kept_dispose : leaves.
Lemma kept_cut p nb rs : kept (cut_chunk gm_addr p nb rs).
Proof. unfold cut_chunk. leaves_all. Qed.
#[local] Hint Resolve kept_cut : leaves.
Lemma kept_try_realloc p nb mv : kept (try_realloc_chunk gm_addr p nb mv).
Proof. unfold try_realloc_chunk, extend_into_free. leaves_all. Qed.
Lemma kept_power fuel a al : kept (next_power fuel a al : Y Z).
Proof. revert a. induction fuel as [|fuel IH]; intros a; cbn [next_power]; leaves_all. Qed.
#[local] Hint Resolve kept_power : leaves.
Lemma kept_memalign fuel al bytes : kept (internal_memalign gm_addr stack_addr fuel al bytes).
Proof. unfold internal_memalign, fix_alignment, skip_leader, cut_tail. leaves_all. Qed.
#[local] Hint Resolve kept_memalign : leaves.
Lemma kept_dlmemalign fuel al bytes : kept (dlmemalign gm_addr stack_addr fuel al bytes).
Proof. unfold dlmemalign. leaves_all. Qed.
End keeps.

(** ** Copying and filling *)

Lemma memcpy_bytes_spec n dst src u a : (dst + Z.of_nat n <= src \/ src + Z.of_nat n <= dst) ->
  memcpy_bytes n dst src u a = if decide (dst <= a < dst + Z.of_nat n) then u (src + (a - dst)) else u a.
Proof.
  revert dst src u. induction n as [|n IH]; intros dst src u Hd; cbn [memcpy_bytes]; [rewrite decide_False by lia; done|].
  rewrite IH by lia. cbv beta. destruct (decide (a = dst)) as [->|Hne].
  - rewrite (decide_False (P := dst + 1 <= dst < _)), (decide_True (P := dst <= dst < _)) by lia. f_equal. lia.
  - destruct (decide (dst + 1 <= a < _)) as [Hin|Hin].
    + rewrite (decide_True (P := dst <= a < _)), decide_False by lia. f_equal. lia.
    + by rewrite (decide_False (P := dst <= a < _)) by lia.
Qed.

Lemma memset_bytes_spec n dst c u a : memset_bytes n dst c u a = if decide (dst <= a < dst + Z.of_nat n) then c else u a.
Proof.
  revert dst u. induction n as [|n IH]; intros dst u; cbn [memset_bytes]; [rewrite decide_False by lia; done|].
  rewrite IH. cbv beta. destruct (decide (a = dst)) as [->|Hne].
  - by rewrite (decide_False (P := dst + 1 <= dst < _)), (decide_True (P := dst <= dst < _)) by lia.
  - destruct (decide (dst + 1 <= a < _)) as [Hin|Hin]; [by rewrite decide_True by lia|by rewrite (decide_False (P := dst <= a < _)) by lia].
Qed.
