(* ===== verification/DlAlign.v ===== *)
(** Aligned requests of the C library's allocator (lib/stdlib/dlmalloc.c, [internal_memalign]): the part of a
    block before an aligned spot and the room behind what was asked for are given back. *)
From S2P Require Import Prelude DlBins DlHeap DlTree DlLarge DlFit DlSmall DlFree DlMalloc DlLayout DlCore DlAlloc DlServe DlRequest DlRelease DlInit DlFrame.
From S2P Require Import Dlmalloc DlSys DlGrow DlSystem DlCalls DlDispose DlRealloc.

(** ** Powers of two *)

Lemma power_of_two a : 0 < a -> a .& (a - 1) = 0 -> exists k, 0 <= k /\ a = 2 ^ k.
Proof.
  intros Ha H. exists (Z.log2 a). split; [apply Z.log2_nonneg|]. destruct (Z.log2_spec a Ha) as [Hl Hu]. destruct (decide (a = 2 ^ Z.log2 a)) as [|Hne]; [done|exfalso].
  assert (E : Z.log2 (a - 1) = Z.log2 a) by (apply Z.log2_unique; [apply Z.log2_nonneg|lia]).
  assert (Hp : 0 < 2 ^ Z.log2 a) by (apply Z.pow_pos_nonneg; [lia|apply Z.log2_nonneg]).
  assert (Hb : Z.testbit (a .& (a - 1)) (Z.log2 a) = true) by (rewrite Z.land_spec, Z.bit_log2 by lia; rewrite <-E, Z.bit_log2 by lia; done).
  by rewrite H, Z.bits_0 in Hb.
Qed.

Lemma pow_range k : 5 <= k < 64 -> 32 <= 2 ^ k < 2 ^ 64.
Proof. intros Hk. split; [change 32 with (2 ^ 5); apply Z.pow_le_mono_r; lia|apply Z.pow_lt_mono_r; lia]. Qed.

Lemma land_pow k x : 0 <= k < 64 -> 0 <= x -> x .& u64 (2 ^ k - 1) = x mod 2 ^ k.
Proof.
  intros Hk Hx. assert (0 < 2 ^ k < 2 ^ 64) by (split; [apply Z.pow_pos_nonneg; lia|apply Z.pow_lt_mono_r; lia]).
  rewrite wrap_small by (unfold fits; lia). replace (2 ^ k - 1) with (Z.ones k) by (rewrite Z.ones_equiv; lia). apply land_low. lia.
Qed.
Lemma land_neg_pow k x : 0 <= k < 64 -> fits 64 x -> x .& u64 (- 2 ^ k) = 2 ^ k * (x / 2 ^ k).
Proof.
  intros Hk Hx. assert (0 < 2 ^ k < 2 ^ 64) by (split; [apply Z.pow_pos_nonneg; lia|apply Z.pow_lt_mono_r; lia]).
  replace (u64 (- 2 ^ k)) with (bnot 64 (Z.ones k)); [rewrite land_bnot_ones by (lia || done); lia|].
  unfold bnot. f_equal. rewrite Z.ones_equiv. unfold Z.lnot. lia.
Qed.

(** ** The alignment asked for *)
Section align.
Context {W : Type} `{!SystemMemory W} (gm_addr stack_addr : Z) (Hgm : 0 < gm_addr).
Abbreviation Y := (cmd (dlsys W)).
Abbreviation inv := (heap_inv gm_addr).

Lemma next_power_ok n fuel j al (y : dlsys W) : 0 <= j -> j + Z.of_nat n < 64 -> (n <= fuel)%nat -> al <= 2 ^ (j + Z.of_nat n) ->
  exists k, j <= k < 64 /\ next_power fuel (2 ^ j) al y = Ok (2 ^ k, y) /\ al <= 2 ^ k /\ (k = j \/ 2 ^ k < 2 * al).
Proof.
  revert fuel j. induction n as [|n IH]; intros fuel j Hj Hjn Hf Hal.
  - rewrite Z.add_0_r in Hal. exists j. split; [lia|]. split; [|split; [done|by left]]. destruct fuel; cbn [next_power]; by rewrite decide_False by lia.
  - destruct fuel as [|fuel]; [lia|]. cbn [next_power]. destruct (decide (2 ^ j < al)) as [Hlt|Hlt].
    + assert (E : u64 (2 ^ j ≪ 1) = 2 ^ (j + 1)).
      { rewrite Z.shiftl_mul_pow2, <-(Z.pow_add_r 2 j 1) by lia. apply wrap_small. split; [apply Z.pow_nonneg; lia|apply Z.pow_lt_mono_r; lia]. }
      rewrite E. destruct (IH fuel (j + 1)) as (k & Hk & Hrun & Hle & Hub); [lia|lia|lia|by replace (j + 1 + Z.of_nat n) with (j + Z.of_nat (S n)) by lia|].
      exists k. split; [lia|]. split; [done|]. split; [done|]. right. destruct Hub as [->|]; [|done]. rewrite (Z.pow_add_r 2 j 1), Z.pow_1_r by lia. lia.
    + exists j. split; [lia|]. split; [done|]. split; [lia|by left].
Qed.

(** A power of two is left as it is, from 32 on; anything else is made the next one. *)
Lemma fix_alignment_ok al (y : dlsys W) : 0 <= al < 2 ^ 63 -> exists k, 5 <= k < 64 /\ fix_alignment al y = Ok (2 ^ k, y) /\ al <= 2 ^ k /\
  (2 ^ k = 32 \/ 2 ^ k < 2 * al) /\ (al = 2 ^ Z.log2 al -> 32 <= al -> 2 ^ k = al).
Proof.
  intros Hal. unfold fix_alignment. rewrite min_chunk_size. set (a := if decide (al < 32) then 32 else al). assert (Ha : 32 <= a < 2 ^ 63 /\ al <= a /\ (a = 32 \/ a = al)) by (unfold a; case_decide; lia).
  cbv zeta. rewrite (wrap_small 64 (a - 1)) by (unfold fits; lia). destruct (decide (a .& (a - 1) <> 0)) as [Hp|Hp].
  - destruct (next_power_ok 58 POWER_FUEL 5 a y) as (k & Hk & Hrun & Hle & Hub); [lia|lia|unfold POWER_FUEL; lia|change (2 ^ (5 + Z.of_nat 58)) with (2 ^ 63); lia|].
    exists k. split; [lia|]. split; [exact Hrun|]. split; [lia|].
    assert (Hal32 : 32 < al) by (destruct Ha as (? & _ & [E|E]); [by rewrite E in Hp|destruct (decide (al = 32)) as [->|]; [by rewrite E in Hp|lia]]).
    split; [destruct Hub as [->|]; [by left|right; lia]|]. intros E _. exfalso. apply Hp. assert (a = al) as -> by lia. rewrite E.
    replace (2 ^ Z.log2 al - 1) with (Z.ones (Z.log2 al)) by (rewrite Z.ones_equiv; lia). rewrite Z.land_ones by apply Z.log2_nonneg. apply Z_mod_same_full.
  - destruct (power_of_two a ltac:(lia)) as (k & Hk & E); [by destruct (decide (a .& (a - 1) = 0))|]. exists k.
    assert (5 <= k < 63). { split; [apply (Z.pow_le_mono_r_iff 2); lia|apply (Z.pow_lt_mono_r_iff 2); lia]. }
    rewrite <-E. split; [lia|]. split; [done|]. split; [lia|]. split; [lia|]. intros _ ?. lia.
Qed.

(** ** The aligned spot *)

Lemma aligned_spot_ok k p : 5 <= k < 62 -> 0 < p < 2 ^ 63 -> p mod 16 = 0 -> (p + 16) mod 2 ^ k <> 0 ->
  let q := aligned_spot (2 ^ k) (p + 16) p in p + 32 <= q <= p + 16 + 2 ^ k /\ q mod 16 = 0 /\ (q + 16) mod 2 ^ k = 0.
Proof.
  intros Hk Hp Hm Hne. pose proof (pow_range k ltac:(lia)) as Hkr. assert (Hk2 : 2 ^ k < 2 ^ 62) by (apply Z.pow_lt_mono_r; lia).
  assert (Hd : 2 ^ k mod 16 = 0) by (apply (pow_mod16 k); [lia|apply Z_mod_same_full]). unfold aligned_spot. rewrite min_chunk_size.
  rewrite (wrap_small 64 (p + 16 + 2 ^ k - 1)) by (unfold fits; lia). rewrite land_neg_pow by (unfold fits; lia). set (A := 2 ^ k) in *. set (c := (p + 16 + A - 1) / A).
  assert (Hc : p + 16 < A * c < p + 16 + A).
  { assert (E : (p + 16) mod A + A * ((p + 16) / A) = p + 16) by (pose proof (Z.div_mod (p + 16) A ltac:(lia)); lia).
    pose proof (Z.mod_pos_bound (p + 16) A ltac:(lia)). assert (c = (p + 16) / A + 1) as ->; [|nia].
    unfold c. symmetry. apply (Z.div_unique _ _ _ ((p + 16) mod A - 1)); lia. }
  assert (Hc16 : (A * c) mod 16 = 0) by (rewrite Z.mul_mod, Hd by lia; done). unfold mem2chunk. rewrite (wrap_small 64 (A * c - 16)) by (unfold fits; lia).
  rewrite (wrap_small 64 (A * c - 16 - p)) by (unfold fits; lia). assert (Hq : p + 16 <= A * c - 16) by zlia.
  destruct (decide (32 <= A * c - 16 - p)) as [Hr|Hr].
  - split; [lia|]. split; [zlia|]. replace (A * c - 16 + 16) with (c * A) by lia. apply Z_mod_mult.
  - rewrite wrap_small by (unfold fits; lia). split; [zlia|]. split; [zlia|]. replace (A * c - 16 + A + 16) with ((c + 1) * A) by lia. apply Z_mod_mult.
Qed.

(** ** Blocks exchanged *)

(** One block in use has become another; the rest of the blocks in use, and the length of the row, are the same. *)
Definition swapped (a0 : Z) (bs bs' : blocks) (b b' : Z * Z) : Prop := total bs' = total bs /\
  exists others, of_kind InUse a0 bs ≡ₚ b :: others /\ of_kind InUse a0 bs' ≡ₚ b' :: others.

Lemma swapped_refl a0 bs b : b ∈ of_kind InUse a0 bs -> swapped a0 bs bs b b.
Proof. intros (l & Hl)%elem_of_Permutation. split; [done|]. by exists l. Qed.
Lemma swapped_trans a0 bs1 bs2 bs3 b1 b2 b3 : swapped a0 bs1 bs2 b1 b2 -> swapped a0 bs2 bs3 b2 b3 -> swapped a0 bs1 bs3 b1 b3.
Proof.
  intros (E1 & o1 & H1 & H2) (E2 & o2 & H3 & H4). split; [congruence|]. exists o1. split; [done|]. rewrite H2 in H3. apply Permutation_cons_inv in H3. by rewrite H3.
Qed.
Lemma swapped_in a0 bs bs' b b' : swapped a0 bs bs' b b' -> b' ∈ of_kind InUse a0 bs'.
Proof. intros (_ & o & _ & H). rewrite H. left. Qed.

Lemma resized_swapped a0 l sz r nb h : resized gm_addr a0 l sz r nb h -> exists bs' sz', inv h a0 bs' /\ nb <= sz' < nb + MIN_CHUNK_SIZE /\
  swapped a0 (l ++ (sz, InUse) :: r) bs' (a0 + total l, sz) (a0 + total l, sz').
Proof.
  intros (bs' & sz' & Hi & Et & Hsz & Hp). exists bs', sz'. split; [done|]. split; [done|]. split; [rewrite Et, total_app; simpl; lia|].
  exists (rest InUse a0 l sz r). split; [|done]. rewrite (of_kind_mid InUse a0 l [(sz, InUse)] r). simpl. by rewrite Z.add_0_r.
Qed.

(** A block in use is cut when the remainder can be a block. *)
Lemma cut_block_ok (y : dlsys W) a0 bs p sz nb : inv (hst y) a0 bs -> (p, sz) ∈ of_kind InUse a0 bs -> nb mod 16 = 0 -> MIN_CHUNK_SIZE <= nb -> MIN_CHUNK_SIZE <= sz - nb ->
  exists h bs' z, cut_chunk gm_addr p nb (sz - nb) y = Ok (tt, with_hst h y) /\ inv h a0 bs' /\ nb <= z /\ swapped a0 bs bs' (p, sz) (p, z) /\ sys_part h = sys_part (hst y).
Proof.
  intros H Hin Hm Hnb Hrs. apply of_kind_split in Hin as (l & r & -> & ->). pose proof (core_block _ _ _ _ _ _ _ (hi_core _ _ _ _ H)) as [_ (Hszm & _) _ _ _ _ Hrg _ _ Hmore _ _]. simpl in Hszm.
  destruct r as [|b r]; [by specialize (Hmore ltac:(done))|]. apply (inv_elim _ (hst y) a0 l [(sz, InUse)] _) in H as (Hc & Hf & Hd). simpl in Hf, Hd. rewrite Z.add_0_r in Hf, Hd.
  pose proof Hnb as Hnb'. pose proof Hrs as Hrs'. rewrite min_chunk_size in Hnb', Hrs'.
  destruct (cut_ok gm_addr Hgm (hst y) a0 l sz [] b r nb Hc) as (t1 & t2 & t3 & R1 & R2 & R3 & Hres & Hsp); simpl total; rewrite ?Z.add_0_r; try done; [zlia|].
  simpl total in R2, R3. rewrite ?Z.add_0_r in R2, R3. apply resized_swapped in Hres as (bs' & z & Hi & Hz & Hsw). exists t3, bs', z.
  split; [eapply cut_chunk_eq; [| | |exact R1|exact R2|exact R3]; lia|]. split; [done|]. split; [lia|]. by split.
Qed.

Lemma cut_tail_ok (y : dlsys W) a0 bs p sz nb : inv (hst y) a0 bs -> (p, sz) ∈ of_kind InUse a0 bs -> nb mod 16 = 0 -> MIN_CHUNK_SIZE <= nb <= sz ->
  exists h bs' z, cut_tail gm_addr p nb y = Ok (tt, with_hst h y) /\ inv h a0 bs' /\ nb <= z /\ swapped a0 bs bs' (p, sz) (p, z) /\ sys_part h = sys_part (hst y).
Proof.
  intros H Hin Hm Hnb. pose proof (hi_core _ _ _ _ H) as Hc. pose proof (core_size _ _ _ _ _ _ _ Hc Hin) as Esz. destruct (in_use_addr _ _ _ _ _ _ _ H Hin) as [Hr _].
  pose proof Hin as Hin'. apply of_kind_split in Hin' as (l & r & Ebs & Ep). rewrite Ebs in Hc. pose proof (core_block _ _ _ _ _ _ _ Hc) as [_ (Hszm & _) _ Hh _ _ Hrg _ _ _ _ _].
  simpl in Hszm. rewrite <-Ep in Hh, Hrg. change MAX_TREE_SIZE with (2 ^ 40) in Hrg. unfold cut_tail. rewrite on_rd_bind, Hh, inuse_bits_mkhead by (done || lia). cbn [in_use Z.b2z].
  rewrite decide_False by (destruct (is_none _); simpl; lia). rewrite on_rd_bind, Esz by lia. pose proof Hnb as Hnb'. rewrite min_chunk_size in Hnb' |- *. rewrite (wrap_small 64 (nb + 32)) by (unfold fits; lia).
  destruct (decide (nb + 32 < sz)) as [Hlt|Hlt].
  - rewrite wrap_small by (unfold fits; lia). apply cut_block_ok; [done|done|done|lia|rewrite min_chunk_size; lia].
  - exists (hst y), bs, sz. rewrite with_same. split; [done|]. split; [done|]. split; [lia|]. split; [by apply swapped_refl|done].
Qed.

(** ** The leader *)

Lemma upd_twice a f g h : upd a f (upd a g h) = upd a (fun c => f (g c)) h.
Proof. change (upd a f (upd a g h)) with (<[a := f (get (upd a g h) a)]> (upd a g h)). rewrite get_upd_eq. unfold upd. by rewrite insert_insert_eq. Qed.
Lemma upd_ext a f g h : (forall c, f c = g c) -> upd a f h = upd a g h.
Proof. intros H. unfold upd. by rewrite H. Qed.

(** The two marks may be set in either order. *)
Lemma inuse_heap_swap x n rs h : 0 < n -> 0 < rs -> inuse_heap x n (inuse_heap (x + n) rs h) = inuse_heap (x + n) rs (inuse_heap x n h).
Proof.
  intros Hn Hr. unfold inuse_heap. rewrite (upd_comm x (x + n + rs)), (upd_comm (x + n) (x + n + rs)) by lia. f_equal.
  rewrite (upd_comm x (x + n)), upd_twice, upd_twice by lia. apply upd_ext. intros c. destruct c as [f hd fd bk c0 c1 p i]. unfold set_head. cbn. f_equal.
  apply Z.bits_inj'. intros j Hj. rewrite !Z.lor_spec, !Z.land_spec, !Z.lor_spec. by destruct (Z.testbit hd j), (Z.testbit PINUSE_BIT j), (Z.testbit rs j), (Z.testbit CINUSE_BIT j).
Qed.

(** The start of a block is given back. *)
Lemma lead_ok (y : dlsys W) a0 bs p sz lead : inv (hst y) a0 bs -> (p, sz) ∈ of_kind InUse a0 bs -> lead mod 16 = 0 -> MIN_CHUNK_SIZE <= lead -> MIN_CHUNK_SIZE <= sz - lead ->
  exists h bs', (_ ← on_heap (set_inuse (p + lead) (sz - lead)); _ ← on_heap (set_inuse p lead); dispose_chunk gm_addr p lead) y = Ok (tt, with_hst h y) /\
    inv h a0 bs' /\ swapped a0 bs bs' (p, sz) (p + lead, sz - lead) /\ sys_part h = sys_part (hst y).
Proof.
  intros H Hin Hm Hle Hrs. apply of_kind_split in Hin as (l & r & -> & ->). pose proof (core_block _ _ _ _ _ _ _ (hi_core _ _ _ _ H)) as [_ (Hszm & _) _ _ _ _ Hrg _ _ Hmore _ _]. simpl in Hszm.
  destruct r as [|b r]; [by specialize (Hmore ltac:(done))|]. apply (inv_elim _ (hst y) a0 l [(sz, InUse)] _) in H as (Hc & Hf & Hd). simpl in Hf, Hd. rewrite Z.add_0_r in Hf, Hd.
  pose proof Hle as Hle'. pose proof Hrs as Hrs'. rewrite min_chunk_size in Hle', Hrs'. set (x := a0 + total l) in *. set (n := sz - lead) in *.
  set (h2 := inuse_heap x lead (inuse_heap (x + lead) n (mem (hst y)))). set (s2 := set_mem h2 (hst y)).
  assert (Em : h2 = inuse_heap (x + lead) n (inuse_heap x lead (mem (hst y)))) by (apply inuse_heap_swap; lia).
  assert (Hc2 : heap_core gm_addr s2 a0 (l ++ [(lead, InUse); (n, InUse)] ++ b :: r)).
  { pose proof (cut_core gm_addr (hst y) s2 a0 l sz [] b r lead Hc Hm Hle) as Hc2. simpl total in Hc2. rewrite Z.add_0_r in Hc2. by apply Hc2; [unfold n; zlia|..]. }
  assert (Hi : inv s2 a0 (l ++ (lead, InUse) :: (n, InUse) :: b :: r)).
  { apply (regrow_inv gm_addr (hst y) s2 a0 l [(sz, InUse)] [(lead, InUse); (n, InUse)] (b :: r) Hc Hc2); simpl total; rewrite ?Z.add_0_r; [unfold n; lia| |done|done|done].
    apply (same_bins_heap (hst y) (fun g => g)); try done. intros z. unfold h2. by rewrite !inuse_heap_links. }
  destruct (dispose_ok gm_addr Hgm s2 a0 l lead ((n, InUse) :: b :: r) Hi) as (s3 & Hrun & (bs' & Hi3 & Et & Hp) & Hsp). fold x in Hrun. exists s3, bs'. split; [|split; [done|split; [|done]]].
  - erewrite on_heap_bind by (apply run_set_inuse; lia). erewrite on_heap_bind by (simpl; apply run_set_inuse; lia). by apply (dispose_chunk_eq gm_addr (with_hst s2 y)).
  - split; [rewrite Et, total_app; simpl; unfold n; lia|]. exists (rest InUse a0 l sz (b :: r)). split.
    + rewrite (of_kind_mid InUse a0 l [(sz, InUse)] (b :: r)). simpl. by rewrite Z.add_0_r.
    + rewrite Hp. unfold rest. simpl. fold x. replace (x + lead + n) with (x + sz) by (unfold n; lia). solve_Permutation.
Qed.

Lemma skip_leader_ok (y : dlsys W) a0 bs p sz k nb : inv (hst y) a0 bs -> (p, sz) ∈ of_kind InUse a0 bs -> 5 <= k < 40 -> MIN_CHUNK_SIZE <= nb -> nb + 2 ^ k + 32 <= sz ->
  exists h bs' q z, skip_leader gm_addr (2 ^ k) (p + 16) y = Ok (q, with_hst h y) /\ inv h a0 bs' /\ nb <= z /\ swapped a0 bs bs' (p, sz) (q, z) /\
    (q + 16) mod 2 ^ k = 0 /\ sys_part h = sys_part (hst y).
Proof.
  intros H Hin Hk Hnb Hsz. pose proof (hi_core _ _ _ _ H) as Hc. pose proof (core_size _ _ _ _ _ _ _ Hc Hin) as Esz. destruct (in_use_addr _ _ _ _ _ _ _ H Hin) as [Hr Hpm].
  pose proof Hin as Hin'. apply of_kind_split in Hin' as (l & r & Ebs & Ep). rewrite Ebs in Hc. pose proof (core_block _ _ _ _ _ _ _ Hc) as [_ (Hszm & Hsp & _) _ Hh _ _ Hrg _ _ _ _ _].
  simpl in Hszm, Hsp. rewrite <-Ep in Hh, Hrg. change MAX_TREE_SIZE with (2 ^ 40) in Hrg. rewrite min_chunk_size in Hnb. pose proof (pow_range k ltac:(lia)) as Hkr. assert (2 ^ k < 2 ^ 40) by (apply Z.pow_lt_mono_r; lia).
  unfold skip_leader. rewrite land_pow by lia. change (mem2chunk (p + 16)) with (u64 (p + 16 - 16)). replace (p + 16 - 16) with p by lia. rewrite (wrap_small 64 p) by (unfold fits; lia).
  destruct (decide ((p + 16) mod 2 ^ k <> 0)) as [Hal|Hal].
  - destruct (aligned_spot_ok k p ltac:(lia) ltac:(lia) Hpm Hal) as (Hq & Hqm & Hqa). set (q := aligned_spot _ _ _) in *. rewrite on_rd_bind, Esz by lia.
    rewrite (wrap_small 64 (q - p)) by (unfold fits; lia). rewrite (wrap_small 64 (sz - (q - p))) by (unfold fits; lia). rewrite on_rd_bind, Hh, inuse_bits_mkhead by (done || lia).
    rewrite (decide_False (P := _ = 0)) by (destruct (is_none _); simpl; lia).
    destruct (lead_ok y a0 bs p sz (q - p) H Hin) as (h & bs' & Hrun & Hi & Hsw & Hpart); [zlia|rewrite min_chunk_size; lia|rewrite min_chunk_size; lia|].
    replace (p + (q - p)) with q in Hrun, Hsw by lia. exists h, bs', q, (sz - (q - p)). split; [by rewrite (bind_ok _ _ _ _ _ Hrun)|]. split; [done|]. split; [lia|]. split; [done|]. by split.
  - exists (hst y), bs, p, sz. rewrite with_same. split; [done|]. split; [done|]. split; [lia|]. split; [by apply swapped_refl|]. split; [|done]. destruct (decide ((p + 16) mod 2 ^ k = 0)); [done|tauto].
Qed.

(** Both ends of a block that was made large enough. *)
Lemma align_block_ok (y : dlsys W) a0 bs p sz k nb : inv (hst y) a0 bs -> (p, sz) ∈ of_kind InUse a0 bs -> 5 <= k < 40 -> nb mod 16 = 0 -> MIN_CHUNK_SIZE <= nb -> nb + 2 ^ k + 32 <= sz ->
  exists h bs' q z, (q ← skip_leader gm_addr (2 ^ k) (p + 16); _ ← cut_tail gm_addr q nb; mret (chunk2mem q)) y = Ok (q + 16, with_hst h y) /\ inv h a0 bs' /\ nb <= z /\
    swapped a0 bs bs' (p, sz) (q, z) /\ (q + 16) mod 2 ^ k = 0 /\ sys_part h = sys_part (hst y).
Proof.
  intros H Hin Hk Hm Hnb Hsz. destruct (skip_leader_ok y a0 bs p sz k nb H Hin Hk Hnb Hsz) as (h1 & bs1 & q & z1 & Hrun1 & Hi1 & Hz1 & Hsw1 & Hal & Hp1).
  destruct (cut_tail_ok (with_hst h1 y) a0 bs1 q z1 nb Hi1 (swapped_in _ _ _ _ _ Hsw1) Hm ltac:(lia)) as (h2 & bs2 & z2 & Hrun2 & Hi2 & Hz2 & Hsw2 & Hp2).
  exists h2, bs2, q, z2. split; [|split; [done|split; [done|split; [by apply (swapped_trans a0 bs bs1 bs2 _ (q, z1))|split; [done|by rewrite Hp2]]]]].
  rewrite (bind_ok _ _ _ _ _ Hrun1), (bind_ok _ _ _ _ _ Hrun2). destruct (in_use_addr _ _ _ _ _ _ _ Hi2 (swapped_in _ _ _ _ _ Hsw2)) as [Hr _]. by rewrite chunk2mem_eq.
Qed.
End align.
