(* ===== verification/DlSession.v ===== *)
(** Whole sessions with the C library's allocator (lib/stdlib/dlmalloc.c): every call that hands blocks out or takes
    them back keeps the heap in order, and the bytes of the blocks held stay what their holder made them. *)
From S2P Require Import Prelude DlBins DlHeap DlTree DlLarge DlFit DlSmall DlFree DlMalloc DlLayout DlCore DlAlloc DlServe DlRequest DlRelease DlInit DlFrame.
From S2P Require Import Dlmalloc DlSys DlGrow DlSystem DlCalls DlDispose DlRealloc DlContents DlAlign.

Lemma in_use_chunk gm_addr s a0 bs p sz : heap_inv gm_addr s a0 bs -> (p, sz) ∈ of_kind InUse a0 bs ->
  let c := get (mem s) p in chunksize c = sz /\ is_mmapped c = false /\ 0 < p /\ p + sz < 2 ^ 63 /\ 32 <= sz < 2 ^ 40 /\ p mod 16 = 0.
Proof.
  intros H Hin c. pose proof (hi_core _ _ _ _ H) as Hc. pose proof (core_size _ _ _ _ _ _ _ Hc Hin) as Esz. pose proof Hin as Hin'. apply of_kind_split in Hin' as (l & r & Ebs & Ep).
  rewrite Ebs in Hc. pose proof (core_block _ _ _ _ _ _ _ Hc) as [_ (Hszm & _ & Hmin) _ Hh _ _ Hrg _ _ _ _ _]. simpl in Hszm, Hmin. rewrite <-Ep in Hh, Hrg.
  specialize (Hmin ltac:(done)). rewrite min_chunk_size in Hmin. change MAX_TREE_SIZE with (2 ^ 40) in Hrg.
  split; [done|]. split; [|split; [lia|split; [lia|split; [lia|apply Hrg]]]]. unfold is_mmapped, c. rewrite Hh, inuse_bits_mkhead by done. apply bool_decide_eq_false_2. destruct (is_none _); simpl; lia.
Qed.

Section steps.
Context {W : Type} `{!SystemMemory W} (lo hi : Z) `{!GrowingMemory W lo hi}.
Context (gm_addr stack_addr : Z) (Hgm : 0 < gm_addr) (Hlo : 0 < lo /\ lo mod 16 = 0) (Hroom : room gm_addr lo (hi - lo)).
Abbreviation inv := (heap_inv gm_addr).
Abbreviation in_order := (in_order lo hi gm_addr).

(** The heap while there is one: its blocks in use. *)
Definition running (y : dlsys W) (bs : blocks) (used : list (Z * Z)) : Prop :=
  one_segment gm_addr y lo bs /\ brk (os y) = lo + total bs + TOP_FOOT_SIZE /\ of_kind InUse lo bs ≡ₚ used.

Lemma running_in_order y bs used live : running y bs used -> Forall2 holds live used -> in_order y live.
Proof. intros (H1 & H2 & H3) Hl. right. by exists bs, used. Qed.
Lemma in_order_running y b live : in_order y (b :: live) -> exists bs p sz used, running y bs ((p, sz) :: used) /\ Forall2 holds live used /\ b.1 = p + 16 /\ b.2 + 8 <= sz.
Proof.
  intros [(_ & _ & [=])|(bs & used & H1 & H2 & H3 & Hl)]. inversion Hl as [|? [p sz] ? used' [E Hsz] Hl']; subst. by exists bs, p, sz, used'.
Qed.

Lemma in_order_user f y live : in_order y live -> in_order (set_user f y) live.
Proof.
  intros [([H1 H2 H3 H4 H5] & H6 & H7)|(bs & used & [H1 H2 H3 H4] & H5 & H6 & H7)]; [left; by split|right]. exists bs, used. by split.
Qed.

Lemma running_swap y bs p sz used h bs' q z : running y bs ((p, sz) :: used) -> inv h lo bs' -> swapped lo bs bs' (p, sz) (q, z) -> sys_part h = sys_part (hst y) ->
  running (with_hst h y) bs' ((q, z) :: used).
Proof.
  intros (H1 & H2 & H3) Hi (Et & others & Ho1 & Ho2) Hs. split; [by apply (one_hst gm_addr y lo bs)|]. split; [by rewrite Et|].
  rewrite H3 in Ho1. apply Permutation_cons_inv in Ho1. by rewrite Ho2, Ho1.
Qed.

(** ** [realloc] *)

(** The block can be resized where it is. *)
Lemma resize_step y bs p sz used bytes mv : running y bs ((p, sz) :: used) -> 0 <= bytes < MAX_TREE_SIZE - 32 ->
  exists q y', try_realloc_chunk gm_addr p (chunk_size bytes) mv y = Ok (q, y') /\ user y' = user y /\
    (q = p /\ (exists bs' z, running y' bs' ((p, z) :: used) /\ bytes + 8 <= z) \/ q = 0 /\ y' = y).
Proof.
  intros Hr Hb. destruct (chunk_size_fine bytes Hb) as (Hbr & Hcm & Hc). pose proof Hr as (H1 & _ & Hu).
  assert (Hin : (p, sz) ∈ of_kind InUse lo bs) by (rewrite Hu; left). apply of_kind_split in Hin as (l & r & Ebs & Ep). pose proof (os_heap _ _ _ _ H1) as Hi. rewrite Ebs in Hi.
  destruct (try_realloc_ok gm_addr Hgm y lo l sz r (chunk_size bytes) mv Hi Hcm Hc) as (q & y' & Hrun & Hans). rewrite <-Ep in Hrun. exists q, y'.
  split; [done|]. split; [by apply (kept_try_realloc gm_addr _ _ _ _ _ _ Hrun)|].
  destruct Hans as [(-> & h & -> & Hres & Hs)|(-> & -> & _)]; [left|by right]. split; [done|]. apply resized_swapped in Hres as (bs' & z & Hi' & Hz & Hsw). rewrite <-Ebs, <-Ep in Hsw.
  exists bs', z. split; [by apply (running_swap y bs p sz)|]. pose proof (chunk_size_room bytes Hbr). lia.
Qed.

(** Two blocks in use are apart. *)
Lemma running_apart y bs p sz q z used : running y bs ((p, sz) :: (q, z) :: used) -> p + sz <= q \/ q + z <= p.
Proof.
  intros (H1 & _ & Hu). pose proof (core_ok _ _ _ _ (hi_core _ _ _ _ (os_heap _ _ _ _ H1))) as Hok.
  assert (Hp : (p, sz) ∈ of_kind InUse lo bs) by (rewrite Hu; left). assert (Hq : (q, z) ∈ of_kind InUse lo bs) by (rewrite Hu; right; left).
  destruct (of_kind_apart _ _ _ _ _ _ _ _ Hok Hp Hq) as [->|[Hd|Hd]]; [exfalso|by left|by right].
  pose proof (of_kind_nodup InUse lo bs Hok) as Hnd. rewrite Hu in Hnd. apply NoDup_cons in Hnd as [Hni _]. apply Hni. left.
Qed.

(** The bytes of a block: its first [n] ones are those of another, and no other block's have changed. *)
Definition moved (y y' : dlsys W) (m m' n bytes : Z) : Prop :=
  (forall i, 0 <= i < n -> user y' (m' + i) = user y (m + i)) /\ (forall a, ~ (m' <= a < m' + bytes) -> user y' a = user y a).

Lemma realloc_step fuel y live m bytes bytes' : in_order y ((m, bytes) :: live) -> (0 < fuel)%nat -> modest stack_addr y bytes' ->
  exists m' y', dlrealloc gm_addr stack_addr fuel m bytes' y = Ok (m', y') /\
    (m' = 0 /\ in_order y' ((m, bytes) :: live) /\ user y' = user y \/ m' <> 0 /\ in_order y' ((m', bytes') :: live) /\ moved y y' m m' (Z.min bytes bytes') bytes').
Proof.
  intros H Hf Hmod. pose proof Hmod as [Hb _]. destruct (chunk_size_fine bytes' Hb) as (Hbr & _). destruct (in_order_running y _ live H) as (bs & p & sz & used & Hr & Hl & Em & Hsz). simpl in Em, Hsz. subst m.
  pose proof Hr as (H1 & _ & Hu). assert (Hin : (p, sz) ∈ of_kind InUse lo bs) by (rewrite Hu; left).
  destruct (in_use_chunk _ _ _ _ _ _ (os_heap _ _ _ _ H1) Hin) as (_ & _ & Hp & Hps & Hs40 & _).
  unfold dlrealloc. rewrite (decide_False (P := p + 16 = 0)), (decide_False (P := MAX_REQUEST <= bytes')) by lia.
  assert (Enb : request2size bytes' = chunk_size bytes') by (unfold chunk_size; by rewrite decide_True by lia). rewrite Enb.
  assert (Emp : mem2chunk (p + 16) = p) by (unfold mem2chunk; rewrite wrap_small by (unfold fits; lia); lia). rewrite Emp. cbv zeta.
  destruct (resize_step y bs p sz used bytes' 1 Hr Hb) as (q & y1 & Hrun & Eu & Hans). rewrite (bind_ok _ _ _ _ _ Hrun).
  destruct Hans as [(-> & bs' & z & Hr' & Hz)|(-> & ->)].
  { rewrite (decide_True (P := p <> 0)) by lia. exists (p + 16), y1. split; [unfold chunk2mem; by rewrite wrap_small by (unfold fits; lia)|]. right. split; [lia|].
    split; [apply (running_in_order y1 bs' _ _ Hr'); by constructor|]. by split; rewrite Eu. }
  rewrite (decide_False (P := 0 <> 0)) by lia.
  destruct (malloc_step lo hi gm_addr stack_addr Hgm Hlo Hroom fuel y _ bytes' H Hf Hmod) as (m' & y1 & Hrun1 & H1'). rewrite (bind_ok _ _ _ _ _ Hrun1).
  pose proof (kept_dlmalloc gm_addr stack_addr fuel bytes' _ _ _ Hrun1) as Eu1. destruct (decide (m' = 0)) as [->|Hm'].
  { rewrite (decide_False (P := 0 <> 0)) by lia. exists 0, y1. split; [done|]. left. by split. }
  rewrite (decide_True (P := m' <> 0)) by done. pose proof H1' as [(_ & _ & [=])|(bs1 & used1 & Hos1 & Hbr1 & Hu1 & Hl1)].
  inversion Hl1 as [|? [q z] ? used2 [Eq Hqz] Hl2]; subst. inversion Hl2 as [|? [p1 sz1] ? used3 [Ep1 Hsz1] Hl3]; subst. simpl in Eq, Hqz, Ep1, Hsz1. assert (p1 = p) as -> by lia. subst m'.
  assert (Hin1 : (p, sz1) ∈ of_kind InUse lo bs1) by (rewrite Hu1; right; left). destruct (in_use_chunk _ _ _ _ _ _ (os_heap _ _ _ _ Hos1) Hin1) as (Esz1 & Emm & _ & _ & Hs1 & _).
  rewrite (on_rd_bind _ _ _ _ Hp). unfold overhead_for. rewrite Esz1, Emm. change CHUNK_OVERHEAD with 8. rewrite (wrap_small 64 (sz1 - 8)) by (unfold fits; lia).
  set (n := if decide (sz1 - 8 < bytes') then sz1 - 8 else bytes'). assert (Hn : 0 <= n <= bytes' /\ n <= sz1 - 8 /\ Z.min bytes bytes' <= n) by (unfold n; case_decide; lia).
  unfold user_memcpy. rewrite modify_bind. set (y2 := set_user _ y1).
  assert (H2 : in_order y2 ((p + 16, bytes) :: (q + 16, bytes') :: live)).
  { apply (in_order_perm lo hi gm_addr _ ((q + 16, bytes') :: (p + 16, bytes) :: live)); [apply perm_swap|]. by apply in_order_user. }
  destruct (free_step lo hi gm_addr stack_addr Hgm fuel y2 _ _ _ H2 Hf) as (y3 & Hrun3 & H3). rewrite (bind_ok _ _ _ _ _ Hrun3). exists (q + 16), y3. split; [done|]. right. split; [done|]. split; [done|].
  pose proof (kept_dlfree gm_addr stack_addr fuel _ _ _ _ Hrun3) as Eu3. pose proof (running_apart y1 bs1 q z p sz1 used3 (conj Hos1 (conj Hbr1 Hu1))) as Hd.
  assert (E : forall a, user y3 a = if decide (q + 16 <= a < q + 16 + n) then user y (p + 16 + (a - (q + 16))) else user y a).
  { intros a. rewrite Eu3. unfold y2. simpl. rewrite memcpy_bytes_spec by lia. by rewrite Z2Nat.id, Eu1 by lia. }
  split; [intros i Hi|intros a Ha]; rewrite E; [rewrite decide_True by lia; f_equal; lia|by rewrite decide_False by lia].
Qed.

(** In place the block is resized or nothing happens. *)
Lemma realloc_in_place_step y live m bytes bytes' : in_order y ((m, bytes) :: live) -> modest stack_addr y bytes' ->
  exists m' y', dlrealloc_in_place gm_addr m bytes' y = Ok (m', y') /\ user y' = user y /\
    (m' = 0 /\ y' = y \/ m' = m /\ m <> 0 /\ in_order y' ((m, bytes') :: live)).
Proof.
  intros H [Hb _]. destruct (chunk_size_fine bytes' Hb) as (Hbr & _). destruct (in_order_running y _ live H) as (bs & p & sz & used & Hr & Hl & Em & Hsz). simpl in Em, Hsz. subst m.
  pose proof Hr as (H1 & _ & Hu). assert (Hin : (p, sz) ∈ of_kind InUse lo bs) by (rewrite Hu; left). destruct (in_use_chunk _ _ _ _ _ _ (os_heap _ _ _ _ H1) Hin) as (_ & _ & Hp & Hps & Hs40 & _).
  unfold dlrealloc_in_place. rewrite (decide_False (P := p + 16 = 0)), (decide_False (P := MAX_REQUEST <= bytes')) by lia.
  assert (Enb : request2size bytes' = chunk_size bytes') by (unfold chunk_size; by rewrite decide_True by lia). rewrite Enb.
  assert (Emp : mem2chunk (p + 16) = p) by (unfold mem2chunk; rewrite wrap_small by (unfold fits; lia); lia). rewrite Emp. cbv zeta.
  destruct (resize_step y bs p sz used bytes' 0 Hr Hb) as (q & y1 & Hrun & Eu & Hans). rewrite (bind_ok _ _ _ _ _ Hrun). destruct Hans as [(-> & bs' & z & Hr' & Hz)|(-> & ->)].
  - exists (p + 16), y1. rewrite (decide_True (P := p = p)) by done. split; [done|]. split; [done|]. right. split; [done|]. split; [lia|]. apply (running_in_order y1 bs' _ _ Hr'); by constructor.
  - exists 0, y. rewrite (decide_False (P := 0 = p)) by lia. split; [done|]. split; [done|]. by left.
Qed.

(** ** [memalign] *)

Lemma memalign_step fuel y live k bytes : in_order y live -> (0 < fuel)%nat -> 5 <= k < 40 -> 0 <= bytes < MAX_TREE_SIZE - 32 -> modest stack_addr y (chunk_size bytes + 2 ^ k + 24) ->
  exists m y', dlmemalign gm_addr stack_addr fuel (2 ^ k) bytes y = Ok (m, y') /\ user y' = user y /\
    (m = 0 /\ in_order y' live \/ m <> 0 /\ m mod 2 ^ k = 0 /\ in_order y' ((m, bytes) :: live)).
Proof.
  intros H Hf Hk Hb Hmod. destruct (chunk_size_fine bytes Hb) as (Hbr & Hcm & Hc). pose proof (chunk_size_room bytes Hbr) as Hroom1. pose proof (pow_range k ltac:(lia)) as Hkr. assert (2 ^ k < 2 ^ 40) by (apply Z.pow_lt_mono_r; lia).
  pose proof (fix_alignment_ok (2 ^ k) y ltac:(lia)) as (k' & _ & Hrun & _ & _ & E). rewrite E in Hrun by (rewrite ?Z.log2_pow2 by lia; lia).
  pose proof Hc as Hc'. rewrite min_chunk_size in Hc'. change MAX_TREE_SIZE with (2 ^ 40) in Hc', Hb.
  unfold dlmemalign. rewrite decide_False by (change MALLOC_ALIGNMENT with 16; lia). unfold internal_memalign. rewrite (bind_ok _ _ _ _ _ Hrun).
  change MAX_REQUEST with (2 ^ 64 - 128). rewrite (wrap_small 64 (2 ^ 64 - 128 - _)), decide_False by (unfold fits; lia). cbv zeta.
  assert (Enb : request2size bytes = chunk_size bytes) by (unfold chunk_size; by rewrite decide_True by lia). rewrite Enb. set (nb := chunk_size bytes) in *.
  rewrite min_chunk_size. change CHUNK_OVERHEAD with 8. rewrite (wrap_small 64 (nb + 2 ^ k + 32 - 8)) by (unfold fits; lia). replace (nb + 2 ^ k + 32 - 8) with (nb + 2 ^ k + 24) by lia.
  destruct (malloc_step lo hi gm_addr stack_addr Hgm Hlo Hroom fuel y _ _ H Hf Hmod) as (m & y1 & Hrun1 & H1). rewrite (bind_ok _ _ _ _ _ Hrun1).
  pose proof (kept_dlmalloc gm_addr stack_addr fuel _ _ _ _ Hrun1) as Eu1. destruct (decide (m = 0)) as [->|Hm].
  { rewrite (decide_False (P := 0 <> 0)) by lia. exists 0, y1. split; [done|]. split; [done|]. by left. }
  rewrite (decide_True (P := m <> 0)) by done. destruct (in_order_running y1 _ live H1) as (bs & p & sz & used & Hr & Hl & Em & Hsz). simpl in Em, Hsz. subst m.
  pose proof Hr as (Hos & _ & Hu). assert (Hin : (p, sz) ∈ of_kind InUse lo bs) by (rewrite Hu; left).
  destruct (align_block_ok gm_addr Hgm y1 lo bs p sz k nb (os_heap _ _ _ _ Hos) Hin Hk Hcm) as (h & bs' & q & z & Hrun2 & Hi2 & Hz & Hsw & Hal & Hs); [rewrite min_chunk_size; lia|lia|].
  pose proof (running_swap y1 bs p sz used h bs' q z Hr Hi2 Hsw Hs) as Hr2. destruct (in_use_chunk _ _ _ _ _ _ Hi2 (swapped_in _ _ _ _ _ Hsw)) as (_ & _ & Hq & _).
  exists (q + 16), (with_hst h y1). split; [exact Hrun2|]. split; [done|]. right. split; [lia|]. split; [done|]. apply (running_in_order _ bs' _ _ Hr2). constructor; [|done]. split; simpl; lia.
Qed.

(** *** The relatives of [memalign] *)

(** Alignments that are no power of two from 8 on are refused before anything else is done. *)
Lemma posix_rejects fuel (y : dlsys W) al bytes : fits 64 al -> (forall k, 3 <= k -> al <> 2 ^ k) -> dlposix_memalign gm_addr stack_addr fuel al bytes y = Ok ((EINVAL, None), y).
Proof.
  intros Hf Hn. unfold fits in Hf. unfold dlposix_memalign. change MALLOC_ALIGNMENT with 16. rewrite (decide_False (P := al = 16)) by (apply (Hn 4); lia). cbv zeta.
  destruct (decide (al mod 8 <> 0 \/ al / 8 = 0 \/ al / 8 .& u64 (al / 8 - 1) <> 0)) as [|Hok]; [done|exfalso].
  assert (Hd : 0 < al / 8) by (assert (0 <= al / 8) by (apply Z.div_pos; lia); destruct (decide (al / 8 = 0)); [tauto|lia]). assert (Hr : al = 8 * (al / 8)) by (pose proof (Z.div_mod al 8 ltac:(lia)); lia).
  rewrite wrap_small in Hok by (unfold fits; lia). destruct (power_of_two (al / 8) Hd) as (k & Hk & E); [lia|]. apply (Hn (k + 3)); [lia|]. rewrite Hr, E, Z.pow_add_r by lia. lia.
Qed.

Lemma posix_step fuel y live k bytes : in_order y live -> (0 < fuel)%nat -> 5 <= k < 40 -> 0 <= bytes < MAX_TREE_SIZE - 32 -> modest stack_addr y (chunk_size bytes + 2 ^ k + 24) ->
  exists r y', dlposix_memalign gm_addr stack_addr fuel (2 ^ k) bytes y = Ok (r, y') /\ user y' = user y /\
    (r = (ENOMEM, None) /\ in_order y' live \/ exists m, r = (0, Some m) /\ m mod 2 ^ k = 0 /\ in_order y' ((m, bytes) :: live)).
Proof.
  intros H Hf Hk Hb Hmod. destruct (memalign_step fuel y live k bytes H Hf Hk Hb Hmod) as (m & y' & Hrun & Eu & Hans). pose proof (pow_range k ltac:(lia)) as Hkr. assert (2 ^ k < 2 ^ 40) by (apply Z.pow_lt_mono_r; lia).
  change MAX_TREE_SIZE with (2 ^ 40) in Hb. unfold dlmemalign in Hrun. change MALLOC_ALIGNMENT with 16 in Hrun. rewrite decide_False in Hrun by lia.
  unfold dlposix_memalign. change MALLOC_ALIGNMENT with 16. rewrite (decide_False (P := 2 ^ k = 16)) by lia. cbv zeta.
  assert (Ed : 2 ^ k / 8 = 2 ^ (k - 3)) by (change 8 with (2 ^ 3); rewrite <-Z.pow_sub_r by lia; done). assert (Hdp : 0 < 2 ^ (k - 3)) by (apply Z.pow_pos_nonneg; lia).
  assert (Er : 2 ^ k mod 8 = 0) by (replace k with ((k - 3) + 3) by lia; rewrite Z.pow_add_r by lia; apply Z_mod_mult).
  rewrite (decide_False (P := _ \/ _ \/ _)) by (rewrite Ed, Er, land_pow by lia; rewrite Z_mod_same_full; lia).
  change MAX_REQUEST with (2 ^ 64 - 128). rewrite (wrap_small 64 (2 ^ 64 - 128 - 2 ^ k)), decide_True by (unfold fits; lia). rewrite min_chunk_size, (decide_False (P := 2 ^ k < 32)) by lia.
  rewrite (bind_ok _ _ _ _ _ Hrun). eexists _, y'. split; [done|]. split; [done|]. destruct Hans as [[-> Ho]|(Hm & Hal & Ho)]; [left; by rewrite decide_True by done|right]. exists m. by rewrite decide_False by done.
Qed.

Lemma init_step y live : in_order y live -> exists y0, ensure_initialization stack_addr y = Ok (tt, y0) /\ in_order y0 live /\ user y0 = user y /\ mparams y0 = params_now stack_addr y.
Proof.
  intros [(H & Hbr & ->)|(bs & used & H & Hrest)].
  - destruct (unused_init stack_addr y H) as (y0 & Hrun & H0 & Ep & _ & Eo & _). exists y0. split; [done|]. split; [left; by rewrite Eo|]. split; [by apply (kept_init stack_addr _ _ _ Hrun)|done].
  - exists y. pose proof (os_params _ _ _ _ H) as Hp. split; [unfold ensure_initialization; rewrite param_bind; by rewrite decide_True by apply Hp|]. split; [right; by exists bs, used|]. split; [done|].
    unfold params_now. by rewrite params_ready.
Qed.

(** [dlpvalloc] rounds up to whole pages without a check: for the last page of the address space what is asked for becomes 0. *)
Lemma pvalloc_wraps fuel y live bytes : in_order y live -> page_size (params_now stack_addr y) = 0x1000 -> 2 ^ 64 - 0x1000 < bytes < 2 ^ 64 ->
  exists y0, in_order y0 live /\ mparams y0 = params_now stack_addr y /\ dlpvalloc gm_addr stack_addr fuel bytes y = dlmemalign gm_addr stack_addr fuel 0x1000 0 y0.
Proof.
  intros H Hp Hb. destruct (init_step y live H) as (y0 & Hrun & H0 & _ & Ep). exists y0. split; [done|]. split; [done|]. unfold dlpvalloc. rewrite (bind_ok _ _ _ _ _ Hrun), param_bind, Ep, Hp.
  assert (E : u64 (bytes + 0x1000 - 1) .& bnot 64 (0x1000 - 1) = 0); [|by rewrite E].
  assert (Eu : u64 (bytes + 0x1000 - 1) = bytes + 0x1000 - 1 - 2 ^ 64) by (unfold wrap; symmetry; apply (Z.mod_unique _ _ 1); lia). rewrite Eu. change (0x1000 - 1) with (Z.ones 12). rewrite (land_bnot_ones 64 12) by (unfold fits; lia). zlia.
Qed.

(** ** [calloc] *)

Lemma calloc_size_exact n e : fits 64 n -> fits 64 e -> calloc_size n e = if decide (n * e < 2 ^ 64) then n * e else MAX_SIZE_T.
Proof.
  intros Hn He. unfold fits in Hn, He. unfold calloc_size. destruct (decide (n <> 0)) as [Hn0|Hn0]; [|assert (n = 0) as -> by lia; rewrite decide_True; [lia|simpl; lia]].
  cbv zeta. destruct (decide (n * e < 2 ^ 64)) as [Hlt|Hge].
  - rewrite (wrap_small 64 (n * e)) by (unfold fits; nia). rewrite decide_False; [done|]. intros [_ Hne]. apply Hne. rewrite Z.mul_comm. by apply Z.div_mul.
  - rewrite decide_True; [done|]. split.
    + intros E. assert (Hb : forall x, fits 64 x -> x .& bnot 64 0xffff = 0 -> x < 2 ^ 16).
      { intros x Hx Ex. change 0xffff with (Z.ones 16) in Ex. rewrite (land_bnot_ones 64 16) in Ex by (done || lia). assert (x / 2 ^ 16 = 0) as Ed by lia. apply Z.div_small_iff in Ed; lia. }
      rewrite Z.land_lor_distr_l in E. apply Z.lor_eq_0_iff in E as [E1 E2]. apply Hb in E1; [|done]. apply Hb in E2; [|done]. nia.
    + intros E. assert (Hw : 0 <= u64 (n * e) < 2 ^ 64) by (apply Z.mod_pos_bound; lia). pose proof (Z.mul_div_le (u64 (n * e)) n ltac:(lia)). rewrite E in *. lia.
Qed.

Lemma calloc_step fuel y live n e : in_order y live -> (0 < fuel)%nat -> fits 64 n -> fits 64 e -> modest stack_addr y (n * e) ->
  exists m y', dlcalloc gm_addr stack_addr fuel n e y = Ok (m, y') /\
    (m = 0 /\ in_order y' live /\ user y' = user y \/
     m <> 0 /\ in_order y' ((m, n * e) :: live) /\ forall a, user y' a = if decide (m <= a < m + n * e) then 0 else user y a).
Proof.
  intros H Hf Hn He Hmod. pose proof Hmod as [Hb _]. change MAX_TREE_SIZE with (2 ^ 40) in Hb. unfold dlcalloc. rewrite calloc_size_exact, decide_True by (done || lia). cbv zeta.
  destruct (malloc_step lo hi gm_addr stack_addr Hgm Hlo Hroom fuel y _ _ H Hf Hmod) as (m & y1 & Hrun1 & H1). rewrite (bind_ok _ _ _ _ _ Hrun1).
  pose proof (kept_dlmalloc gm_addr stack_addr fuel _ _ _ _ Hrun1) as Eu1. exists m. destruct (decide (m = 0)) as [->|Hm].
  - rewrite (decide_False (P := 0 <> 0)) by lia. exists y1. split; [done|]. by left.
  - rewrite (decide_True (P := m <> 0)) by done. eexists. split; [unfold user_memset; rewrite modify_bind; done|]. right. split; [done|]. split; [by apply in_order_user|].
    intros a. simpl. rewrite memset_bytes_spec, Z2Nat.id, Eu1 by lia. done.
Qed.

(** ** Requests that are too large *)

Lemma align_to_le unit x : align_to unit x <= MAX_SIZE_T.
Proof.
  unfold align_to. assert (Hw : fits 64 (u64 (x + (unit - 1)))) by (apply wrap_fits; lia). pose proof (land_fits_l 64 _ (bnot 64 (unit - 1)) ltac:(lia) Hw) as [_ Hl]. unfold MAX_SIZE_T. lia.
Qed.

(** The largest size is given up before the system is asked. *)
Lemma sys_alloc_max fuel (y y0 : dlsys W) : ensure_initialization stack_addr y = Ok (tt, y0) -> sys_alloc gm_addr stack_addr fuel MAX_SIZE_T y = Ok (0, y0).
Proof.
  intros Hini. assert (Hgive : forall unit x, ~ MAX_SIZE_T < align_to unit x) by (intros unit x; pose proof (align_to_le unit x); lia).
  assert (Hmm : mmap_alloc MAX_SIZE_T y0 = Ok (0, y0)).
  { unfold mmap_alloc, mmap_align, page_align. rewrite bind_assoc, param_bind, ret_bind. destruct (within_limit_ok (align_to (page_size (mparams y0)) (u64 (MAX_SIZE_T + SIX_SIZE_T_SIZES + CHUNK_ALIGN_MASK))) y0) as (b & Hwl & _).
    rewrite (bind_ok _ _ _ _ _ Hwl). destruct b; [|done]. by rewrite decide_False by apply Hgive. }
  unfold sys_alloc. rewrite (bind_ok _ _ _ _ _ Hini), gm_get_bind, param_bind.
  assert (Hmem : (if decide (mflags (gm (hst y0)) .& USE_MMAP_BIT <> 0 /\ mmap_threshold (mparams y0) <= MAX_SIZE_T /\ topsize (gm (hst y0)) <> 0) then mmap_alloc MAX_SIZE_T else mret 0) y0 = Ok (0, y0)) by (by case_decide).
  rewrite (bind_ok _ _ _ _ _ Hmem). rewrite (decide_False (P := 0 <> 0)) by lia. unfold granularity_align. rewrite bind_assoc, param_bind, ret_bind.
  by rewrite decide_True by apply align_to_le.
Qed.

Lemma malloc_too_large fuel y live bytes : in_order y live -> MAX_REQUEST <= bytes < 2 ^ 64 ->
  exists y', dlmalloc gm_addr stack_addr fuel bytes y = Ok (0, y') /\ in_order y' live /\ user y' = user y.
Proof.
  intros H Hb. assert (Hmax : MAX_REQUEST = 2 ^ 64 - 128) by reflexivity.
  assert (Hfast : malloc_fast gm_addr bytes (hst y) = Ok (inr MAX_SIZE_T, hst y)).
  { destruct H as [(H & _)|(bs & used & H & _)].
    - destruct H as [(_ & _ & _ & E3 & _) [_ E4] _ _ _]. unfold malloc_fast. rewrite decide_False by (change MAX_SMALL_REQUEST with 232; lia). rewrite decide_True by lia.
      unfold use_dv_or_top. rewrite !gets_bind, E3, E4. by rewrite !decide_False by (unfold MAX_SIZE_T; lia).
    - destruct (malloc_fast_ok gm_addr Hgm (hst y) lo bs bytes (os_heap _ _ _ _ H)) as (res & h & Hrun & Hres); [lia|lia|]. rewrite Hrun. unfold chunk_size in Hres. rewrite decide_False in Hres by lia.
      destruct res as [m|n]; [exfalso|by destruct Hres as (-> & -> & _)]. destruct Hres as (bs' & p & sz & Hi & _ & _ & Hsz & Hp).
      destruct (in_use_chunk _ _ _ _ p sz Hi) as (_ & _ & _ & _ & Hs & _); [rewrite Hp; left|]. unfold MAX_SIZE_T in Hsz. lia. }
  unfold dlmalloc. rewrite (on_heap_bind _ _ _ _ _ Hfast). replace (with_hst (hst y) y) with y by (by destruct y).
  destruct H as [(H & Hbr & ->)|(bs & used & H & Hrest)].
  - destruct (unused_init stack_addr y H) as (y0 & Hrun & H0 & _ & _ & Eo & _). exists y0. rewrite (sys_alloc_max fuel y y0 Hrun). split; [done|]. split; [left; by rewrite Eo|].
    by apply (kept_init stack_addr _ _ _ Hrun).
  - exists y. rewrite (sys_alloc_max fuel y y); [split; [done|]; split; [right; by exists bs, used|done]|].
    pose proof (initialized_bind stack_addr (fun u => mret u) y (os_params _ _ _ _ H)) as Hi. unfold ensure_initialization. rewrite param_bind. by rewrite decide_True by apply (os_params _ _ _ _ H).
Qed.

(** A product that does not fit in [size_t] is refused. *)
Lemma calloc_overflow fuel y live n e : in_order y live -> fits 64 n -> fits 64 e -> 2 ^ 64 <= n * e ->
  exists y', dlcalloc gm_addr stack_addr fuel n e y = Ok (0, y') /\ in_order y' live /\ user y' = user y.
Proof.
  intros H Hn He Hov. unfold dlcalloc. rewrite calloc_size_exact, decide_False by (done || lia). cbv zeta.
  destruct (malloc_too_large fuel y live MAX_SIZE_T H) as (y' & Hrun & H' & Eu); [by vm_compute|]. rewrite (bind_ok _ _ _ _ _ Hrun). exists y'.
  by rewrite (decide_False (P := 0 <> 0)) by lia.
Qed.
End steps.
