(* ===== verification/DlBulk.v ===== *)
(** Blocks given back in bulk ([dlbulk_free] of lib/stdlib/dlmalloc.c): neighbours in the array that are neighbours in memory are
    joined first, and every block named is given back. *)
From S2P Require Import Prelude DlBins DlHeap DlTree DlLarge DlFit DlSmall DlFree DlMalloc DlLayout DlCore DlAlloc DlServe DlRequest DlRelease DlInit DlFrame.
From S2P Require Import Dlmalloc DlSys DlGrow DlSystem DlCalls DlDispose DlRealloc DlContents DlAlign DlSession.

Section merge.
Context (gm_addr : Z) (Hgm : 0 < gm_addr).
Abbreviation inv := (heap_inv gm_addr).

(** A block in use takes the block in use behind it. *)
Lemma merge_ok s a0 l sz sz1 r1 : inv s a0 (l ++ (sz, InUse) :: (sz1, InUse) :: r1) ->
  exists s', set_inuse (a0 + total l) (sz1 + sz) s = Ok (tt, s') /\ inv s' a0 (l ++ (sz + sz1, InUse) :: r1) /\ sys_part s' = sys_part s.
Proof.
  intros H. pose proof (grows gm_addr _ _ _ _ _ _ _ H) as [_ Hc Hf Hd (Hm & Hm1 & Hmin & Hp1) Hrg Hh]. rewrite min_chunk_size in Hmin. change MAX_TREE_SIZE with (2 ^ 40) in Hrg.
  assert (Hb : exists b r, r1 = b :: r).
  { change (l ++ _) with (l ++ [(sz, InUse)] ++ (sz1, InUse) :: r1) in H. rewrite app_assoc in H. pose proof (core_block _ _ _ _ _ _ _ (hi_core _ _ _ _ H)) as [_ _ _ _ _ _ _ _ _ Hmore _ _].
    destruct r1 as [|b r]; [by specialize (Hmore ltac:(done))|by exists b, r]. }
  destruct Hb as (b & r & ->). replace (sz1 + sz) with (sz + sz1) by lia. rewrite run_set_inuse by lia. eexists. split; [done|]. split; [|done].
  set (s' := set_mem _ _). change (inv s' a0 (l ++ [(sz + sz1, InUse)] ++ b :: r)).
  assert (Hc' : heap_core gm_addr s' a0 (l ++ [(sz + sz1, InUse)] ++ b :: r)).
  { pose proof (grow_core gm_addr s s' a0 l sz [(sz1, InUse)] b r) as Hg. cbv zeta in Hg. simpl total in Hg. rewrite Z.add_0_r in Hg. apply Hg; [exact Hc|zlia|rewrite min_chunk_size; lia|done|done]. }
  apply (regrow_inv gm_addr s s' a0 l [(sz, InUse); (sz1, InUse)] _ (b :: r) Hc Hc'); simpl total; rewrite ?Z.add_0_r; [lia| |exact Hf|done|exact Hd].
  split; try done. intros y. simpl. by rewrite inuse_heap_links.
Qed.
End merge.

Section bulk.
Context {W : Type} `{!SystemMemory W} (lo hi : Z) `{!GrowingMemory W lo hi}.
Context (gm_addr stack_addr : Z) (Hgm : 0 < gm_addr) (Hlo : 0 < lo /\ lo mod 16 = 0) (Hroom : room gm_addr lo (hi - lo)).
Abbreviation in_order := (in_order lo hi gm_addr).
Abbreviation running := (running lo hi gm_addr).

Lemma running_block y bs p sz used : running y bs ((p, sz) :: used) -> exists l r, bs = l ++ (sz, InUse) :: r /\ p = lo + total l /\ heap_inv gm_addr (hst y) lo bs.
Proof.
  intros (H1 & _ & Hu). assert (Hin : (p, sz) ∈ of_kind InUse lo bs) by (rewrite Hu; left). apply of_kind_split in Hin as (l & r & -> & ->). exists l, r. split; [done|]. split; [done|apply H1].
Qed.

(** The heap after a call that put [bs'] in place of [bs]. *)
Lemma running_heap y bs used h bs' used' : running y bs used -> heap_inv gm_addr h lo bs' -> sys_part h = sys_part (hst y) -> total bs' = total bs -> of_kind InUse lo bs' ≡ₚ used' ->
  running (with_hst h y) bs' used'.
Proof. intros (H1 & H2 & _) Hi Hs Et Hu. split; [by apply (one_hst gm_addr y lo bs)|]. split; [by rewrite Et|done]. Qed.

Lemma dispose_running y bs p sz used : running y bs ((p, sz) :: used) -> exists h bs', dispose_chunk gm_addr p sz y = Ok (tt, with_hst h y) /\ running (with_hst h y) bs' used.
Proof.
  intros H. destruct (running_block _ _ _ _ _ H) as (l & r & -> & -> & Hi). destruct (dispose_ok gm_addr Hgm (hst y) lo l sz r Hi) as (h & Hrun & (bs' & Hi' & Et & Hu) & Hs).
  exists h, bs'. split; [by apply dispose_chunk_eq|]. apply (running_heap y _ _ _ _ _ H Hi' Hs); [rewrite Et, total_app; simpl; lia|].
  destruct H as (_ & _ & Hu0). rewrite Hu. change (l ++ (sz, InUse) :: r) with (l ++ [(sz, InUse)] ++ r) in Hu0. rewrite of_kind_mid in Hu0. simpl in Hu0. rewrite Z.add_0_r in Hu0. by apply Permutation_cons_inv in Hu0.
Qed.

Lemma merge_running y bs p sz sz1 used : running y bs ((p, sz) :: (p + sz, sz1) :: used) ->
  exists h bs', set_inuse p (sz1 + sz) (hst y) = Ok (tt, h) /\ running (with_hst h y) bs' ((p, sz + sz1) :: used).
Proof.
  intros H. destruct (running_block _ _ _ _ _ H) as (l & r & -> & -> & Hi). pose proof (core_ok _ _ _ _ (hi_core _ _ _ _ Hi)) as Hok. pose proof H as (_ & _ & Hu).
  destruct r as [|[z1 k1] r].
  { exfalso. destruct (core_block _ _ _ _ _ _ _ (hi_core _ _ _ _ Hi)) as [_ _ _ _ _ _ _ _ _ Hmore _ _]. by apply Hmore. }
  assert (Hin : (lo + total l + sz, sz1) ∈ of_kind InUse lo (l ++ (sz, InUse) :: (z1, k1) :: r)) by (rewrite Hu; right; left).
  assert (Hin' : (lo + total l + sz, z1) ∈ of_kind k1 lo (l ++ (sz, InUse) :: (z1, k1) :: r)).
  { change (l ++ _) with (l ++ [(sz, InUse)] ++ (z1, k1) :: r). rewrite app_assoc. replace (lo + total l + sz) with (lo + total (l ++ [(sz, InUse)])) by (rewrite total_app; simpl; lia). apply block_in. }
  destruct (of_kind_inj _ _ _ _ _ _ _ Hok Hin Hin') as [<- <-].
  destruct (merge_ok gm_addr (hst y) lo l sz sz1 r Hi) as (h & Hrun & Hi' & Hs). eexists h, _. split; [done|].
  apply (running_heap y _ _ _ _ _ H Hi' Hs); [rewrite !total_app; simpl; lia|].
  change (l ++ (sz, InUse) :: (sz1, InUse) :: r) with (l ++ [(sz, InUse); (sz1, InUse)] ++ r) in Hu. change (l ++ (sz + sz1, InUse) :: r) with (l ++ [(sz + sz1, InUse)] ++ r).
  rewrite of_kind_mid in Hu |- *. simpl in Hu |- *. rewrite !Z.add_0_r in *. do 2 apply Permutation_cons_inv in Hu. by rewrite Hu.
Qed.

(** The pointers of an array, null ones among them, and the chunks they name. *)
Inductive named : list Z -> list (Z * Z) -> Prop :=
  | named_nil : named [] []
  | named_null a us : named a us -> named (0 :: a) us
  | named_chunk a p sz us : named a us -> named (p + 16 :: a) ((p, sz) :: us).

Lemma check_in_use y bs p sz used : running y bs ((p, sz) :: used) ->
  (ok ← ok_address p; if ok : bool then h ← rd head p; mret (bool_decide (h .& INUSE_BITS <> PINUSE_BIT)) else mret false) (hst y) = Ok (true, hst y).
Proof.
  intros H. destruct (running_block _ _ _ _ _ H) as (l & r & -> & -> & Hi). pose proof (core_block _ _ _ _ _ _ _ (hi_core _ _ _ _ Hi)) as [_ (Hm & _) _ Ehd _ _ _ [Hx Hla] _ _ _ _]. simpl in Hm.
  rewrite (bind_ok _ _ _ _ _ (ok_address_true _ (hst y) Hla)), rd_bind by lia. rewrite Ehd, inuse_bits_mkhead by done. rewrite bool_decide_eq_true_2; [done|]. change PINUSE_BIT with 1. destruct (is_none _); simpl; lia.
Qed.

Lemma bulk_chunk rest y bs p sz used : running y bs ((p, sz) :: used) -> bulk_free_loop gm_addr (p + 16) rest y = (match rest with
    | q :: rest' => if decide (q = p + sz + 16) then nsize ← on_heap (rd chunksize (p + sz)); _ ← on_heap (set_inuse p (u64 (nsize + sz))); bulk_free_loop gm_addr (p + 16) rest'
                    else _ ← dispose_chunk gm_addr p sz; bulk_free_loop gm_addr q rest'
    | [] => dispose_chunk gm_addr p sz
    end) y.
Proof.
  intros H. pose proof H as (H1 & _ & Hu). assert (Hin : (p, sz) ∈ of_kind InUse lo bs) by (rewrite Hu; left). destruct (in_use_chunk _ _ _ _ _ _ (os_heap _ _ _ _ H1) Hin) as (Esz & _ & Hp & Hps & Hs40 & _).
  assert (Emp : mem2chunk (p + 16) = p) by (unfold mem2chunk; rewrite wrap_small by (unfold fits; lia); lia). assert (Enx : chunk_plus_offset p sz = p + sz) by (unfold chunk_plus_offset; by rewrite wrap_small by (unfold fits; lia)).
  destruct rest as [|q rest]; unfold bulk_free_loop; fold (bulk_free_loop gm_addr); rewrite decide_False, Emp by lia; cbv zeta; rewrite on_rd_bind, Esz, (on_check_bind _ _ _ _ (check_in_use y bs p sz used H)) by done; [done|].
  by rewrite Enx, !chunk2mem_eq by lia.
Qed.

Lemma named_cons mem a us : named (mem :: a) us -> mem = 0 /\ named a us \/ exists p sz us', mem = p + 16 /\ us = (p, sz) :: us' /\ named a us'.
Proof. intros H. inversion H as [|? ? Hn|? p sz us' Hn]; subst; [by left|right]. by exists p, sz, us'. Qed.

Lemma bulk_loop_ok rest : forall mem y bs us used, named (mem :: rest) us -> running y bs (us ++ used) ->
  exists h bs', bulk_free_loop gm_addr mem rest y = Ok (tt, with_hst h y) /\ running (with_hst h y) bs' used.
Proof.
  induction rest as [|q rest IH]; intros mem y bs us used [[-> Hn]|(p & sz & us' & -> & -> & Hn)]%named_cons Hr.
  - inversion Hn; subst. exists (hst y), bs. replace (with_hst (hst y) y) with y by (by destruct y). by split.
  - inversion Hn; subst. rewrite (bulk_chunk _ _ _ _ _ _ Hr). by apply (dispose_running y bs p sz).
  - by apply (IH q y bs us).
  - rewrite (bulk_chunk _ _ _ _ _ _ Hr). destruct (decide (q = p + sz + 16)) as [->|Hq].
    + pose proof Hr as (H1 & _ & Hu). assert (Hin : (p, sz) ∈ of_kind InUse lo bs) by (rewrite Hu; left). destruct (in_use_chunk _ _ _ _ _ _ (os_heap _ _ _ _ H1) Hin) as (_ & _ & Hp & Hps & Hs40 & _).
      apply named_cons in Hn as [[Hq _]|(p1 & sz1 & us & Ep1 & -> & Hn)]; [lia|]. assert (p1 = p + sz) as -> by lia.
      assert (Hin1 : (p + sz, sz1) ∈ of_kind InUse lo bs) by (rewrite Hu; right; left). destruct (in_use_chunk _ _ _ _ _ _ (os_heap _ _ _ _ H1) Hin1) as (Esz1 & _ & _ & _ & Hs1 & _).
      rewrite on_rd_bind, Esz1 by lia. rewrite (wrap_small 64 (sz1 + sz)) by (unfold fits; lia). destruct (merge_running y bs p sz sz1 (us ++ used) Hr) as (h & bs1 & Hrun & Hr1).
      rewrite (on_heap_bind _ _ _ _ _ Hrun). destruct (IH (p + 16) (with_hst h y) bs1 ((p, sz + sz1) :: us) used) as (h2 & bs2 & Hrun2 & Hr2); [by constructor|done|]. by exists h2, bs2.
    + destruct (dispose_running y bs p sz (us' ++ used) Hr) as (h & bs1 & Hrun & Hr1). rewrite (bind_ok _ _ _ _ _ Hrun).
      destruct (IH q (with_hst h y) bs1 us' used Hn Hr1) as (h2 & bs2 & Hrun2 & Hr2). by exists h2, bs2.
Qed.

(** The tail of the heap can be unmapped. *)
Lemma running_tail y bs used : running y bs used -> tail_unmaps y lo bs.
Proof.
  intros (H & Hb & _) n Hn Hnm. destruct (munmap_shrinks n (os y)) as (r & w & Hr & _); [lia|done|rewrite Hb; change TOP_FOOT_SIZE with 80; lia|]. exists r, w. by rewrite <-Hb.
Qed.

Lemma trim_running fuel y bs used : running y bs used -> (0 < fuel)%nat -> exists v y' bs', sys_trim gm_addr stack_addr fuel 0 y = Ok (v, y') /\ running y' bs' used.
Proof.
  intros H Hf. pose proof (running_tail _ _ _ H) as Htail. pose proof H as (H1 & Hb & Hu).
  destruct (sys_trim_ok gm_addr stack_addr fuel y lo bs H1 Hf Htail) as (v & y' & bs' & Hrun & H' & Ep & Eu & n & Hn & Et & Hos). exists v, y', bs'. split; [done|]. split; [done|]. split; [|by rewrite Eu].
  destruct Hos as [[-> ->]|(r & n' & Hn' & Hnm & Hr & En)]; [lia|]. rewrite <-Hb in Hr.
  destruct (munmap_shrinks n' (os y)) as (r1 & w1 & Hr1 & Hb1); [lia|done|rewrite Hb; change TOP_FOOT_SIZE with 80; lia|].
  rewrite Hr in Hr1. injection Hr1 as <- <-. rewrite Hb1. case_decide; lia.
Qed.

(** The chunks of the blocks an array names. *)
Lemma named_blocks array freed us : filter (fun m => m <> 0) array = freed.*1 -> Forall2 holds freed us -> named array us.
Proof.
  revert freed us. induction array as [|m array IH]; intros freed us E H.
  - destruct freed; [|discriminate]. inversion H; subst. constructor.
  - rewrite filter_cons in E. case_decide as Hm.
    + destruct freed as [|b freed]; [discriminate|]. injection E as -> E. inversion H as [|? [p sz] ? us' [Ep _] H']; subst. simpl in Ep. rewrite Ep. constructor. by apply (IH freed).
    + assert (m = 0) as -> by lia. constructor. by apply (IH freed).
Qed.

Lemma bulk_step fuel y freed others array : in_order y (freed ++ others) -> freed <> [] -> filter (fun m => m <> 0) array = freed.*1 -> (0 < fuel)%nat ->
  exists y', dlbulk_free gm_addr stack_addr fuel array y = Ok ((0, map (fun _ => 0) array), y') /\ in_order y' others /\ user y' = user y.
Proof.
  intros [(_ & _ & E)|(bs & used & H1 & H2 & H3 & Hl)] Hne Hf Hfuel; [by apply app_eq_nil in E as [-> _]|]. apply Forall2_app_inv_l in Hl as (us & used' & Hus & Hl & ->).
  pose proof (named_blocks array freed us Hf Hus) as Hn. destruct array as [|mem rest]; [by destruct freed|].
  destruct (bulk_loop_ok rest mem y bs us used' Hn (conj H1 (conj H2 H3))) as (h & bs' & Hrun & Hr). unfold dlbulk_free. rewrite (bind_ok _ _ _ _ _ Hrun), gm_get_bind. case_decide.
  - destruct (trim_running fuel _ bs' used' Hr Hfuel) as (v & y' & bs2 & Hrun2 & Hr2). rewrite (bind_ok _ _ _ _ _ Hrun2). exists y'. split; [done|]. split; [by apply (running_in_order lo hi gm_addr y' bs2 used')|].
    by rewrite (kept_sys_trim gm_addr stack_addr fuel 0 _ _ _ Hrun2).
  - rewrite ret_bind. eexists. split; [done|]. split; [by apply (running_in_order lo hi gm_addr _ bs' used')|done].
Qed.
End bulk.
