(* ===== verification/DlInfo.v ===== *)
(** The statistics of the C library's allocator ([dlmallinfo] of lib/stdlib/dlmalloc.c): the walk over the chunks of the heap
    ends at its top and counts every block once. *)
From S2P Require Import Prelude DlBins DlHeap DlTree DlLarge DlFit DlSmall DlFree DlMalloc DlLayout DlCore DlAlloc DlServe DlRequest DlRelease DlInit DlFrame.
From S2P Require Import Dlmalloc DlSys DlGrow DlSystem DlCalls DlDispose DlRealloc DlContents DlAlign DlSession.

(** The bytes and the number of the free blocks of a row. *)
Definition is_used (k : kind) : bool := bool_decide (k = InUse).
Fixpoint free_bytes (bs : blocks) : Z := match bs with [] => 0 | b :: bs => (if is_used b.2 then 0 else b.1) + free_bytes bs end.
Fixpoint free_blocks (bs : blocks) : Z := match bs with [] => 0 | b :: bs => (if is_used b.2 then 0 else 1) + free_blocks bs end.

Lemma free_bounds bs : Forall block_ok bs -> 0 <= free_bytes bs <= total bs /\ 0 <= free_blocks bs <= total bs.
Proof.
  induction 1 as [|[sz k] bs (Hm & Hp & _) _ IH]; simpl in *; [lia|]. destruct (is_used k); lia.
Qed.
Lemma free_app l r : free_bytes (l ++ r) = free_bytes l + free_bytes r /\ free_blocks (l ++ r) = free_blocks l + free_blocks r.
Proof. induction l as [|b l [IH1 IH2]]; [done|]. change ((b :: l) ++ r) with (b :: (l ++ r)). cbn [free_bytes free_blocks]. rewrite IH1, IH2. lia. Qed.

Section info.
Context {W : Type} `{!SystemMemory W} (gm_addr stack_addr : Z) (Hgm : 0 < gm_addr).
Abbreviation one_segment := (one_segment gm_addr).

(** One chunk of the walk. *)
Lemma info_step fuel (y : dlsys W) a0 l sz k r sum mfree nfree : one_segment y a0 (l ++ (sz, k) :: r) -> k <> Top ->
  info_chunks (S fuel) (DlHeap.seg (gm (hst y))) (a0 + total l) sum mfree nfree y =
  info_chunks fuel (DlHeap.seg (gm (hst y))) (a0 + total l + sz) (u64 (sum + sz)) (if is_used k then mfree else u64 (mfree + sz)) (if is_used k then nfree else u64 (nfree + 1)) y.
Proof.
  intros H Hk. pose proof (os_heap _ _ _ _ H) as Hi. pose proof (hi_core _ _ _ _ Hi) as Hc. pose proof (os_room _ _ _ _ H) as (_ & Hr63 & _). pose proof (os_seg _ _ _ _ H) as Eseg. rewrite top_foot_size in *.
  pose proof (core_block _ _ _ _ _ _ _ Hc) as [_ (Hm & Hp & _) _ Hh _ _ Hrg _ Hfree Hmore _ _]. simpl in Hm, Hp. rewrite total_app in *. simpl total in *. set (x := a0 + total l) in *. change MAX_TREE_SIZE with (2 ^ 40) in Hrg.
  assert (Htop : x <> top (gm (hst y))).
  { destruct (hc_top _ _ _ _ Hc) as (bt & Ebt & Et & _). intros E. rewrite Et in E. apply (f_equal total) in Ebt as Etot. rewrite !total_app in Etot. simpl in Etot.
    destruct r as [|b r _] using rev_ind; [by apply Hmore|]. rewrite app_comm_cons, app_assoc in Ebt. apply app_inj_tail in Ebt as [Ebt ->]. subst bt.
    rewrite total_app in E. simpl in E. assert (0 <= total r); [|unfold x in E; lia].
    pose proof (core_ok _ _ _ _ Hc) as Hok. apply Forall_app in Hok as [_ Hok]. apply Forall_cons in Hok as [_ Hok]. apply Forall_app in Hok as [Hok _]. by apply row_nonneg. }
  cbn [info_chunks]. rewrite gm_get_bind. unfold segment_holds. rewrite Eseg. cbn [base size]. rewrite (wrap_small 64 (a0 + _)) by (unfold fits; lia). rewrite bool_decide_eq_true_2 by lia. rewrite bool_decide_eq_true_2 by done. cbn [andb].
  erewrite on_heap_bind by reflexivity. replace (with_hst (hst y) y) with y by (by destruct y).
  rewrite decide_False by (rewrite Hh; change FENCEPOST_HEAD with 11; unfold mkhead; destruct (is_none _), (in_use k); simpl; zlia). cbv zeta. rewrite (chunksize_mkhead _ _ _ _ Hh Hm) by lia.
  assert (Eu : is_inuse (get (mem (hst y)) x) = is_used k).
  { unfold is_inuse, is_used. rewrite Hh, inuse_bits_mkhead by done. change PINUSE_BIT with 1. destruct (decide (k = InUse)) as [->|Hne].
    - simpl. rewrite !bool_decide_eq_true_2 by (done || (destruct (is_none _); simpl; lia)). done.
    - rewrite (Hfree Hne). simpl. rewrite !bool_decide_eq_false_2 by (done || (destruct k; simpl; try done; lia)). done. }
  rewrite Eu. unfold next_chunk, chunk_plus_offset. rewrite (chunksize_mkhead _ _ _ _ Hh Hm), (wrap_small 64 (x + sz)) by (unfold fits; lia). done.
Qed.

Lemma info_top fuel (y : dlsys W) a0 bt z sum mfree nfree : one_segment y a0 (bt ++ [(z, Top)]) ->
  info_chunks fuel (DlHeap.seg (gm (hst y))) (a0 + total bt) sum mfree nfree y = Ok ((sum, mfree, nfree), y).
Proof.
  intros H. destruct (hc_top _ _ _ _ (hi_core _ _ _ _ (os_heap _ _ _ _ H))) as (bt' & [-> [= ->]]%app_inj_tail & Et & _).
  assert (E : bool_decide (a0 + total bt' <> top (gm (hst y))) = false) by (apply bool_decide_eq_false_2; rewrite Et; tauto).
  destruct fuel; cbn [info_chunks]; rewrite gm_get_bind, E, andb_false_r; done.
Qed.

Lemma info_walk r : forall fuel (y : dlsys W) a0 l z sum mfree nfree, one_segment y a0 (l ++ r ++ [(z, Top)]) -> of_kind Top (a0 + total l) r = [] -> (length r <= fuel)%nat ->
  0 <= sum -> sum + total r < 2 ^ 63 -> 0 <= mfree <= sum -> 0 <= nfree <= sum ->
  info_chunks fuel (DlHeap.seg (gm (hst y))) (a0 + total l) sum mfree nfree y = Ok ((sum + total r, mfree + free_bytes r, nfree + free_blocks r), y).
Proof.
  induction r as [|[sz k] r IH]; intros fuel y a0 l z sum mfree nfree H Hnt Hf Hs Hst Hm Hn.
  - cbn [total free_bytes free_blocks]. rewrite !Z.add_0_r. by apply (info_top fuel y a0 l z).
  - cbn [total free_bytes free_blocks fst snd length] in *. destruct fuel as [|fuel]; [lia|]. simpl in Hnt. case_decide as Hk; [discriminate|].
    pose proof (core_ok _ _ _ _ (hi_core _ _ _ _ (os_heap _ _ _ _ H))) as Hok. apply Forall_app in Hok as [_ Hok]. pose proof Hok as Hok'. apply Forall_cons in Hok' as [(_ & Hp & _) Hok']. apply Forall_app in Hok' as [Hokr _]. simpl in Hp.
    pose proof (row_nonneg _ Hokr). rewrite (info_step fuel y a0 l sz k (r ++ [(z, Top)])) by done.
    rewrite (wrap_small 64 (sum + sz)), (wrap_small 64 (mfree + sz)), (wrap_small 64 (nfree + 1)) by (unfold fits; lia).
    replace (a0 + total l + sz) with (a0 + total (l ++ [(sz, k)])) by (rewrite total_app; simpl; lia).
    rewrite (IH fuel y a0 (l ++ [(sz, k)]) z); try lia; [|by rewrite <-app_assoc|rewrite total_app; simpl; by rewrite Z.add_0_r, Z.add_assoc|destruct (is_used k); lia|destruct (is_used k); lia].
    f_equal. f_equal. f_equal; [f_equal|]; [lia|destruct (is_used k); lia|destruct (is_used k); lia].
Qed.

(** What [dlmallinfo] answers for a heap of blocks [bs]. *)
Definition info_of (g : malloc_state) (bs : blocks) : mallinfo :=
  mkInfo (total bs + TOP_FOOT_SIZE) (free_blocks bs) 0 0 (u64 (footprint g - (total bs + TOP_FOOT_SIZE))) (max_footprint g) 0
    (u64 (footprint g - (free_bytes bs + TOP_FOOT_SIZE))) (free_bytes bs + TOP_FOOT_SIZE) (topsize g).

Lemma info_ok fuel cfuel (y : dlsys W) a0 bs : one_segment y a0 bs -> (0 < fuel)%nat -> (length bs <= S cfuel)%nat -> dlmallinfo gm_addr stack_addr fuel cfuel y = Ok (info_of (gm (hst y)) bs, y).
Proof.
  intros H Hf Hcf. pose proof (hi_core _ _ _ _ (os_heap _ _ _ _ H)) as Hc. destruct (hc_top _ _ _ _ Hc) as (bt & Ebs & Et & Hnt). destruct (hc_base _ _ _ _ Hc) as (Hb0 & Hbm & _).
  pose proof (core_ok _ _ _ _ Hc) as Hok. rewrite Ebs in Hok. apply Forall_app in Hok as [Hokt [(_ & Hz & _) _]%Forall_cons]. simpl in Hz. destruct (free_bounds _ Hokt) as [Hfb Hfn]. destruct (free_app bt [(topsize (gm (hst y)), Top)]) as [E1 E2].
  pose proof (row_nonneg _ Hokt). pose proof (os_room _ _ _ _ H) as (_ & Hr63 & _). pose proof (os_seg _ _ _ _ H) as Eseg. pose proof Ebs as Etot. apply (f_equal total) in Etot. rewrite total_app in Etot. simpl in Etot. rewrite top_foot_size in Hr63.
  unfold dlmallinfo. rewrite (initialized_bind stack_addr _ y (os_params _ _ _ _ H)), gm_get_bind. unfold is_initialized. rewrite bool_decide_eq_true_2 by lia. cbv zeta.
  destruct fuel as [|fuel]; [lia|]. cbn [info_segments]. rewrite decide_False by (unfold seg_addr; lia). rewrite !bind_assoc. unfold rd_seg at 1. rewrite decide_True by done. rewrite gm_get_bind.
  assert (Eal : align_as_chunk (base (DlHeap.seg (gm (hst y)))) = a0 + total []).
  { rewrite Eseg. cbn [base]. unfold align_as_chunk. rewrite align_offset_0 by (done || lia). rewrite Z.add_0_r, wrap_small by (unfold fits; lia). simpl. lia. }
  rewrite Eal.
  assert (Hcf' : (length bt <= cfuel)%nat) by (rewrite Ebs, length_app in Hcf; simpl in Hcf; lia). set (m := u64 (topsize (gm (hst y)) + TOP_FOOT_SIZE)).
  assert (Em : m = topsize (gm (hst y)) + 80) by (unfold m; rewrite top_foot_size, wrap_small by (unfold fits; lia); done). rewrite Ebs in H.
  assert (Hw : info_chunks cfuel (DlHeap.seg (gm (hst y))) (a0 + total []) m m 1 y = Ok ((m + total bt, m + free_bytes bt, 1 + free_blocks bt), y)).
  { apply (info_walk bt cfuel y a0 [] (topsize (gm (hst y)))); try done; try lia. simpl. by rewrite Z.add_0_r. }
  assert (F1 : m + total bt = total bs + TOP_FOOT_SIZE) by (rewrite top_foot_size; lia). assert (F2 : m + free_bytes bt = free_bytes bs + TOP_FOOT_SIZE) by (rewrite top_foot_size, Ebs, E1; simpl; lia).
  assert (F3 : 1 + free_blocks bt = free_blocks bs) by (rewrite Ebs, E2; simpl; lia). rewrite F1, F2, F3 in Hw.
  rewrite bind_assoc, (bind_ok _ _ _ _ _ Hw). rewrite Eseg. cbn [next]. by destruct fuel; cbn [info_segments]; rewrite decide_True, ret_bind by done.
Qed.
End info.

(** The sizes of the blocks in use. *)
Definition used_bytes (used : list (Z * Z)) : Z := foldr (fun b n => b.2 + n) 0 used.
Lemma used_bytes_perm l l' : l ≡ₚ l' -> used_bytes l = used_bytes l'.
Proof. induction 1; simpl; lia. Qed.
Lemma free_and_used a bs : total bs = free_bytes bs + used_bytes (of_kind InUse a bs).
Proof.
  revert a. induction bs as [|[sz k] bs IH]; intros a; [done|]. simpl. rewrite (IH (a + sz)). unfold is_used. case_decide as E; subst.
  - rewrite bool_decide_eq_true_2 by done. simpl. lia.
  - rewrite bool_decide_eq_false_2 by done. simpl. lia.
Qed.

#[local] Opaque second_state dlmallinfo.

(** C7: [dlmallinfo] tells the truth about the heap. On a heap of one segment, with fuel for as many chunks as there are blocks, the walk ends and changes nothing;
    the answer has the size of the segment, the number and the bytes of the free blocks (the top and the record of the segment behind it among them), what remains of the
    footprint in use and outside the segment; the segment is the free bytes and the chunks in use, no more and no less. *)
Theorem dlmallinfo_counts {W} `{!SystemMemory W} gm_addr stack_addr fuel cfuel (y : dlsys W) a0 bs used : 0 < gm_addr -> one_segment gm_addr y a0 bs -> of_kind InUse a0 bs ≡ₚ used ->
  (0 < fuel)%nat -> (length bs <= S cfuel)%nat ->
  dlmallinfo gm_addr stack_addr fuel cfuel y = Ok (info_of (gm (hst y)) bs, y) /\
  arena (info_of (gm (hst y)) bs) = fordblks (info_of (gm (hst y)) bs) + used_bytes used.
Proof.
  intros Hgm H Hu Hf Hc. split; [by apply (info_ok gm_addr stack_addr Hgm fuel cfuel y a0)|]. unfold info_of. cbn [arena fordblks]. rewrite (free_and_used a0 bs), (used_bytes_perm _ _ Hu). lia.
Qed.

Lemma dlmallinfo_counts_witness : exists bs used info, dlmallinfo 4096 0x7ffc 1 (length bs) second_state = Ok (info, second_state) /\
  arena info = 65536 /\ of_kind InUse LO bs ≡ₚ used /\ fordblks info = 65536 - used_bytes used.
Proof.
  destruct second_state_one as (bs & used & H & Et & Hu & Hl). destruct (dlmallinfo_counts 4096 0x7ffc 1 (length bs) second_state LO bs used) as [Hrun Ha]; [lia|exact H|exact Hu|lia|lia|].
  exists bs, used. eexists. split; [exact Hrun|]. assert (E : arena (info_of (gm (hst second_state)) bs) = 65536) by (unfold info_of; cbn [arena]; rewrite Et; reflexivity).
  split; [exact E|]. split; [exact Hu|]. rewrite E in Ha. lia.
Defined.
