(* ===== verification/DlUsage.v ===== *)
(** The C library's allocator as its callers see it (lib/stdlib/dlmalloc.c): what is written to a block is read back from
    it until it is freed, through every call that hands blocks out, moves them or takes them back. *)
From S2P Require Import Prelude DlBins DlHeap DlTree DlLarge DlFit DlSmall DlFree DlMalloc DlLayout DlCore DlAlloc DlServe DlRequest DlRelease DlInit DlFrame.
From S2P Require Import Dlmalloc DlSys DlGrow DlSystem DlCalls DlDispose DlRealloc DlContents DlAlign DlSession DlBulk.

Section usage.
Context {W : Type} `{!SystemMemory W} (lo hi : Z) `{!GrowingMemory W lo hi}.
Context (gm_addr stack_addr : Z) (Hgm : 0 < gm_addr) (Hlo : 0 < lo /\ lo mod 16 = 0) (Hroom : room gm_addr lo (hi - lo)).
Abbreviation in_order := (in_order lo hi gm_addr).

(** A block held: its address and the bytes its holder counts on. *)
Abbreviation held_block := (Z * list Z)%type.
Definition len (b : list Z) : Z := Z.of_nat (length b).
Definition sizes (held : list held_block) : list (Z * Z) := (fun b => (b.1, len b.2)) <$> held.
Definition bytes_at (f : Z -> Z) (m n : Z) : list Z := f <$> seqZ m n.
Definition write_bytes (m : Z) (c : list Z) (f : Z -> Z) (a : Z) : Z := if decide (m <= a < m + len c) then nth (Z.to_nat (a - m)) c 0 else f a.

(** After a change of size: the bytes there were, and whatever comes behind them. *)
Definition resized_bytes (f : Z -> Z) (m : Z) (c : list Z) (n : Z) : list Z := take (Z.to_nat n) c ++ bytes_at f (m + len c) (n - len c).

(** What a call that answers [m] adds to the blocks held. *)
Definition added (m : Z) (c : list Z) (held : list held_block) : list held_block := if decide (m = 0) then held else (m, c) :: held.

(** States reached from zeroed memory by calls and by writes of the callers to their blocks. *)
Inductive usage (fuel : nat) (y0 : dlsys W) : dlsys W -> list held_block -> Prop :=
  | use_start : usage fuel y0 y0 []
  | use_malloc y held n m y' : usage fuel y0 y held -> modest stack_addr y n -> dlmalloc gm_addr stack_addr fuel n y = Ok (m, y') ->
      usage fuel y0 y' (added m (bytes_at (user y') m n) held)
  | use_calloc y held n e m y' : usage fuel y0 y held -> fits 64 n -> fits 64 e -> modest stack_addr y (n * e) -> dlcalloc gm_addr stack_addr fuel n e y = Ok (m, y') ->
      usage fuel y0 y' (added m (replicate (Z.to_nat (n * e)) 0) held)
  | use_calloc_large y held n e m y' : usage fuel y0 y held -> fits 64 n -> fits 64 e -> 2 ^ 64 <= n * e -> dlcalloc gm_addr stack_addr fuel n e y = Ok (m, y') ->
      usage fuel y0 y' held
  | use_memalign y held k n m y' : usage fuel y0 y held -> 5 <= k < 40 -> 0 <= n < MAX_TREE_SIZE - 32 -> modest stack_addr y (chunk_size n + 2 ^ k + 24) ->
      dlmemalign gm_addr stack_addr fuel (2 ^ k) n y = Ok (m, y') -> usage fuel y0 y' (added m (bytes_at (user y') m n) held)
  | use_realloc y held m c n m' y' : usage fuel y0 y ((m, c) :: held) -> modest stack_addr y n -> dlrealloc gm_addr stack_addr fuel m n y = Ok (m', y') ->
      usage fuel y0 y' (if decide (m' = 0) then (m, c) :: held else (m', resized_bytes (user y') m' c n) :: held)
  | use_realloc_in_place y held m c n m' y' : usage fuel y0 y ((m, c) :: held) -> modest stack_addr y n -> dlrealloc_in_place gm_addr m n y = Ok (m', y') ->
      usage fuel y0 y' (if decide (m' = 0) then (m, c) :: held else (m, resized_bytes (user y') m c n) :: held)
  | use_free y held m c y' : usage fuel y0 y ((m, c) :: held) -> dlfree gm_addr stack_addr fuel m y = Ok (tt, y') -> usage fuel y0 y' held
  | use_bulk_free y freed held array r y' : usage fuel y0 y (freed ++ held) -> freed <> [] -> filter (fun m => m <> 0) array = freed.*1 ->
      dlbulk_free gm_addr stack_addr fuel array y = Ok (r, y') -> usage fuel y0 y' held
  | use_write y held m c c' : usage fuel y0 y ((m, c) :: held) -> length c' = length c -> usage fuel y0 (set_user (write_bytes m c') y) ((m, c') :: held)
  | use_any y held held' : usage fuel y0 y held -> held ≡ₚ held' -> usage fuel y0 y held'.

(** The heap is in order and every block has the bytes its holder counts on. *)
Definition intact (f : Z -> Z) (held : list held_block) : Prop := Forall (fun b => bytes_at f b.1 (len b.2) = b.2) held.
Definition in_use (y : dlsys W) (held : list held_block) : Prop := in_order y (sizes held) /\ intact (user y) held.

(** ** Bytes *)
Lemma bytes_at_ext f g m n : (forall a, m <= a < m + n -> f a = g a) -> bytes_at f m n = bytes_at g m n.
Proof. intros H. apply list_fmap_ext. intros i a Ha. apply H. apply lookup_seqZ in Ha as [-> Hi]. lia. Qed.
Lemma bytes_at_len f m n : len (bytes_at f m n) = Z.max 0 n.
Proof. unfold len, bytes_at. rewrite length_fmap, length_seqZ. lia. Qed.
Lemma bytes_at_split f m n k : 0 <= n -> 0 <= k -> bytes_at f m (n + k) = bytes_at f m n ++ bytes_at f (m + n) k.
Proof. intros Hn Hk. unfold bytes_at. rewrite seqZ_app by lia. by rewrite fmap_app. Qed.

Lemma list_at f m (c : list Z) : (forall i, 0 <= i < len c -> f (m + i) = nth (Z.to_nat i) c 0) -> bytes_at f m (len c) = c.
Proof.
  intros H. apply list_eq. intros i. unfold bytes_at. rewrite list_lookup_fmap. unfold len in *. destruct (decide (i < length c)%nat) as [Hi|Hi].
  - rewrite (proj2 (lookup_seqZ m (Z.of_nat (length c)) i (m + Z.of_nat i))) by lia. simpl. rewrite H, Nat2Z.id by lia. symmetry. destruct (nth_lookup_or_length c i 0); [done|lia].
  - rewrite lookup_seqZ_ge by lia. symmetry. apply lookup_ge_None_2. lia.
Qed.
Lemma at_list f m (c : list Z) i : bytes_at f m (len c) = c -> 0 <= i < len c -> f (m + i) = nth (Z.to_nat i) c 0.
Proof.
  intros H Hi. symmetry. apply nth_lookup_Some. rewrite <-H. unfold bytes_at. rewrite list_lookup_fmap, lookup_seqZ_lt by lia. simpl. by rewrite Z2Nat.id by lia.
Qed.

Lemma at_resized f g m m' c n : bytes_at f m (len c) = c -> (forall i, 0 <= i < Z.min (len c) n -> g (m' + i) = f (m + i)) -> 0 <= n ->
  len (resized_bytes g m' c n) = n /\ bytes_at g m' n = resized_bytes g m' c n.
Proof.
  intros Hc Hg Hn. assert (E : bytes_at g m' (Z.min (len c) n) = take (Z.to_nat n) c).
  { replace (Z.min (len c) n) with (len (take (Z.to_nat n) c)) by (unfold len; rewrite length_take; lia). apply list_at. intros i Hi. unfold len in Hi. rewrite length_take in Hi.
    rewrite Hg by (unfold len; lia). rewrite (at_list f m c) by (done || (unfold len; lia)). by rewrite !nth_lookup, lookup_take_lt by lia. }
  unfold resized_bytes. destruct (decide (n <= len c)) as [Hle|Hgt].
  - unfold bytes_at at 1 3. rewrite (seqZ_nil _ (n - len c)), app_nil_r by lia. rewrite Z.min_r in E by lia. split; [|done]. rewrite <-E, bytes_at_len. lia.
  - rewrite Z.min_l in E by lia. rewrite <-E. assert (0 <= len c) by (unfold len; lia). rewrite <-bytes_at_split by lia. replace (len c + (n - len c)) with n by lia. split; [|done]. rewrite bytes_at_len. lia.
Qed.

Lemma sizes_added m c held : sizes (added m c held) = if decide (m = 0) then sizes held else (m, len c) :: sizes held.
Proof. unfold added. by case_decide. Qed.

(** ** Blocks left alone *)
Lemma intact_frame f g y m n held : in_order y ((m, n) :: sizes held) -> intact f held -> (forall a, ~ (m <= a < m + n) -> g a = f a) -> intact g held.
Proof.
  intros Ho Hf Hg. unfold intact in *. rewrite Forall_lookup in Hf |- *. intros i [m1 c1] Hi. simpl. rewrite <-(Hf i _ Hi) at 2. simpl. apply bytes_at_ext. intros a Ha. apply Hg.
  pose proof (in_order_apart lo hi gm_addr y _ Ho 0%nat (S i) m m1 n (len c1) eq_refl) as Hap. specialize (Hap ltac:(simpl; unfold sizes; by rewrite list_lookup_fmap, Hi) ltac:(lia)). lia.
Qed.
Lemma intact_same f g held : (forall a, g a = f a) -> intact f held -> intact g held.
Proof. intros Hg Hf. eapply Forall_impl; [exact Hf|]. intros b Hb. by rewrite <-Hb at 2; apply bytes_at_ext. Qed.

(** A call that answers a block and touches no bytes. *)
Lemma in_use_added y y' held m n : in_use y held -> user y' = user y -> 0 <= n -> in_order y' (if decide (m = 0) then sizes held else (m, n) :: sizes held) ->
  in_use y' (added m (bytes_at (user y') m n) held).
Proof.
  intros [_ Hi] Eu Hn Ho. assert (El : len (bytes_at (user y') m n) = n) by (rewrite bytes_at_len; lia). split; [by rewrite sizes_added, El|].
  unfold added. case_decide; [|constructor; [simpl; by rewrite El|]]; apply (intact_same (user y)); (done || by rewrite Eu).
Qed.

(** ** The calls *)
Lemma use_malloc_step fuel y held n : in_use y held -> (0 < fuel)%nat -> modest stack_addr y n ->
  exists m y', dlmalloc gm_addr stack_addr fuel n y = Ok (m, y') /\ in_use y' (added m (bytes_at (user y') m n) held).
Proof.
  intros H Hf Hm. destruct (malloc_step lo hi gm_addr stack_addr Hgm Hlo Hroom fuel y _ n (proj1 H) Hf Hm) as (m & y' & Hrun & Ho). exists m, y'. split; [done|].
  apply (in_use_added y); [done|by apply (kept_dlmalloc gm_addr stack_addr fuel n _ _ _ Hrun)|by destruct Hm as [[? _] _]|done].
Qed.

Lemma use_memalign_step fuel y held k n : in_use y held -> (0 < fuel)%nat -> 5 <= k < 40 -> 0 <= n < MAX_TREE_SIZE - 32 -> modest stack_addr y (chunk_size n + 2 ^ k + 24) ->
  exists m y', dlmemalign gm_addr stack_addr fuel (2 ^ k) n y = Ok (m, y') /\ m mod 2 ^ k = 0 /\ in_use y' (added m (bytes_at (user y') m n) held).
Proof.
  intros H Hf Hk Hn Hm. destruct (memalign_step lo hi gm_addr stack_addr Hgm Hlo Hroom fuel y _ k n (proj1 H) Hf Hk Hn Hm) as (m & y' & Hrun & Eu & Hans). exists m, y'. split; [done|].
  destruct Hans as [[-> Ho]|(Hm0 & Hal & Ho)]; (split; [done|]; apply (in_use_added y); [done|done|lia|by case_decide]).
Qed.

Lemma use_calloc_step fuel y held n e : in_use y held -> (0 < fuel)%nat -> fits 64 n -> fits 64 e -> modest stack_addr y (n * e) ->
  exists m y', dlcalloc gm_addr stack_addr fuel n e y = Ok (m, y') /\ in_use y' (added m (replicate (Z.to_nat (n * e)) 0) held).
Proof.
  intros [Ho Hi] Hf Hn He Hm. destruct (calloc_step lo hi gm_addr stack_addr Hgm Hlo Hroom fuel y _ n e Ho Hf Hn He Hm) as (m & y' & Hrun & Hans). exists m, y'. split; [done|].
  assert (Hb : 0 <= n * e) by (by destruct Hm as [[? _] _]). assert (El : len (replicate (Z.to_nat (n * e)) 0) = n * e) by (unfold len; rewrite length_replicate; lia).
  split; rewrite ?sizes_added, ?El; unfold added; destruct Hans as [(-> & Ho' & Eu)|(Hm0 & Ho' & Eu)]; rewrite ?decide_True by done; rewrite ?(decide_False (P := m = 0)) by done; try done; [by rewrite Eu|].
  constructor.
  - cbn [fst snd]. apply list_at. intros i Hir. rewrite El in Hir. rewrite Eu, decide_True by lia. symmetry. rewrite nth_lookup. by rewrite lookup_replicate_2 by lia.
  - apply (intact_frame (user y) _ y' m (n * e)); [done|done|]. intros a Ha. by rewrite Eu, decide_False by lia.
Qed.

Lemma use_calloc_large_step fuel y held n e : in_use y held -> fits 64 n -> fits 64 e -> 2 ^ 64 <= n * e ->
  exists y', dlcalloc gm_addr stack_addr fuel n e y = Ok (0, y') /\ in_use y' held.
Proof.
  intros [Ho Hi] Hn He Hm. destruct (calloc_overflow lo hi gm_addr stack_addr Hgm fuel y _ n e Ho Hn He Hm) as (y' & Hrun & Ho' & Eu).
  exists y'. split; [done|]. split; [done|]. by rewrite Eu.
Qed.

Lemma use_realloc_step fuel y held m c n : in_use y ((m, c) :: held) -> (0 < fuel)%nat -> modest stack_addr y n ->
  exists m' y', dlrealloc gm_addr stack_addr fuel m n y = Ok (m', y') /\
    in_use y' (if decide (m' = 0) then (m, c) :: held else (m', resized_bytes (user y') m' c n) :: held).
Proof.
  intros [Ho Hi] Hf Hm. destruct (realloc_step lo hi gm_addr stack_addr Hgm Hlo Hroom fuel y _ m (len c) n Ho Hf Hm) as (m' & y' & Hrun & Hans). exists m', y'. split; [done|].
  destruct Hans as [(-> & Ho' & Eu)|(Hm' & Ho' & Hmv & Hfr)]; [rewrite decide_True by done; split; [done|by rewrite Eu]|]. rewrite decide_False by done.
  apply Forall_cons in Hi as [Hc Hi]. destruct Hm as [[Hn _] _]. destruct (at_resized (user y) (user y') m m' c n Hc Hmv Hn) as (El & Ec).
  split; [cbn [sizes fmap list_fmap fst snd]; by rewrite El|]. constructor; [cbn [fst snd]; by rewrite El|]. by apply (intact_frame (user y) _ y' m' n).
Qed.

Lemma use_in_place_step y held m c n : in_use y ((m, c) :: held) -> modest stack_addr y n ->
  exists m' y', dlrealloc_in_place gm_addr m n y = Ok (m', y') /\ (m' = 0 \/ m' = m) /\
    in_use y' (if decide (m' = 0) then (m, c) :: held else (m, resized_bytes (user y') m c n) :: held).
Proof.
  intros [Ho Hi] Hm. destruct (realloc_in_place_step lo hi gm_addr stack_addr Hgm y _ m (len c) n Ho Hm) as (m' & y' & Hrun & Eu & Hans). exists m', y'. split; [done|].
  destruct Hans as [[-> ->]|(-> & Hm' & Ho')]; [split; [by left|by rewrite decide_True by done]|]. split; [by right|]. rewrite decide_False by done.
  apply Forall_cons in Hi as [Hc Hi]. destruct Hm as [[Hn _] _]. destruct (at_resized (user y) (user y') m m c n Hc (fun i _ => f_equal (fun f => f (m + i)) Eu) Hn) as (El & Ec).
  split; [cbn [sizes fmap list_fmap fst snd]; by rewrite El|]. constructor; [cbn [fst snd]; by rewrite El|]. by rewrite Eu.
Qed.

Lemma use_free_step fuel y held m c : in_use y ((m, c) :: held) -> (0 < fuel)%nat -> exists y', dlfree gm_addr stack_addr fuel m y = Ok (tt, y') /\ in_use y' held.
Proof.
  intros [Ho Hi] Hf. destruct (free_step lo hi gm_addr stack_addr Hgm fuel y _ m (len c) Ho Hf) as (y' & Hrun & Ho'). exists y'. split; [done|]. split; [done|].
  rewrite (kept_dlfree gm_addr stack_addr fuel m _ _ _ Hrun). by apply Forall_cons in Hi as [_ Hi].
Qed.

Lemma use_bulk_step fuel y freed held array : in_use y (freed ++ held) -> freed <> [] -> filter (fun m => m <> 0) array = freed.*1 -> (0 < fuel)%nat ->
  exists y', dlbulk_free gm_addr stack_addr fuel array y = Ok ((0, map (fun _ => 0) array), y') /\ in_use y' held.
Proof.
  intros [Ho Hi] Hne Hf Hfuel. unfold sizes in Ho. rewrite fmap_app in Ho.
  destruct (bulk_step lo hi gm_addr stack_addr Hgm fuel y _ _ array Ho) as (y' & Hrun & Ho' & Eu); [by destruct freed|rewrite Hf, <-list_fmap_compose; by apply list_fmap_ext|done|].
  exists y'. split; [done|]. split; [done|]. rewrite Eu. by apply Forall_app in Hi as [_ Hi].
Qed.

Lemma use_write_step y held m c c' : in_use y ((m, c) :: held) -> length c' = length c -> in_use (set_user (write_bytes m c') y) ((m, c') :: held).
Proof.
  intros [Ho Hi] El. assert (El' : len c' = len c) by (unfold len; by rewrite El). apply Forall_cons in Hi as [_ Hi].
  split; [cbn [sizes fmap list_fmap fst snd]; rewrite El'; by apply in_order_user|]. constructor.
  - cbn [fst snd]. apply list_at. intros i Hir. cbn. unfold write_bytes. rewrite decide_True by lia. f_equal. lia.
  - apply (intact_frame (user y) _ y m (len c)); [done|done|]. intros a Ha. cbn. unfold write_bytes. by rewrite decide_False by lia.
Qed.

Lemma in_use_perm y held held' : held ≡ₚ held' -> in_use y held -> in_use y held'.
Proof.
  intros Hp [Ho Hi]. split; [|unfold intact in *; by rewrite <-Hp]. apply (in_order_perm lo hi gm_addr y (sizes held)); [|done]. by apply fmap_Permutation.
Qed.

(** A call that has returned is the one the lemmas are about. *)
Lemma same_answer {A} (c : A) c' (y y' : dlsys W) : Ok (c, y) = Ok (c', y') -> c = c' /\ y = y'.
Proof. by intros [= -> ->]. Qed.

Lemma usage_in_use fuel y0 y held : unused y0 -> brk (os y0) = lo -> (0 < fuel)%nat -> usage fuel y0 y held -> in_use y held.
Proof.
  intros H0 Hb Hf. induction 1 as [|y held n m y' _ IH Hm Hrun|y held n e m y' _ IH Hn He Hm Hrun|y held n e m y' _ IH Hn He Hm Hrun|y held k n m y' _ IH Hk Hn Hm Hrun
    |y held m c n m' y' _ IH Hm Hrun|y held m c n m' y' _ IH Hm Hrun|y held m c y' _ IH Hrun|y freed held array r y' _ IH Hne Hfr Hrun|y held m c c' _ IH El|y held held' _ IH Hp].
  - split; [by left|constructor].
  - destruct (use_malloc_step fuel y held n IH Hf Hm) as (m1 & y1 & Hrun1 & H1). rewrite Hrun in Hrun1. by apply same_answer in Hrun1 as [-> ->].
  - destruct (use_calloc_step fuel y held n e IH Hf Hn He Hm) as (m1 & y1 & Hrun1 & H1). rewrite Hrun in Hrun1. by apply same_answer in Hrun1 as [-> ->].
  - destruct (use_calloc_large_step fuel y held n e IH Hn He Hm) as (y1 & Hrun1 & H1). rewrite Hrun in Hrun1. by apply same_answer in Hrun1 as [_ ->].
  - destruct (use_memalign_step fuel y held k n IH Hf Hk Hn Hm) as (m1 & y1 & Hrun1 & _ & H1). rewrite Hrun in Hrun1. by apply same_answer in Hrun1 as [-> ->].
  - destruct (use_realloc_step fuel y held m c n IH Hf Hm) as (m1 & y1 & Hrun1 & H1). rewrite Hrun in Hrun1. by apply same_answer in Hrun1 as [-> ->].
  - destruct (use_in_place_step y held m c n IH Hm) as (m1 & y1 & Hrun1 & _ & H1). rewrite Hrun in Hrun1. by apply same_answer in Hrun1 as [-> ->].
  - destruct (use_free_step fuel y held m c IH Hf) as (y1 & Hrun1 & H1). rewrite Hrun in Hrun1. by apply same_answer in Hrun1 as [_ ->].
  - destruct (use_bulk_step fuel y freed held array IH Hne Hfr Hf) as (y1 & Hrun1 & H1). rewrite Hrun in Hrun1. by apply same_answer in Hrun1 as [_ ->].
  - by apply (use_write_step y held m c c').
  - by apply (in_use_perm y held held').
Qed.

(** Every further call returns. *)
Definition answering (fuel : nat) (y : dlsys W) (held : list held_block) : Prop :=
  (forall n, modest stack_addr y n -> exists m y', dlmalloc gm_addr stack_addr fuel n y = Ok (m, y')) /\
  (forall n e, fits 64 n -> fits 64 e -> 2 ^ 64 <= n * e \/ modest stack_addr y (n * e) -> exists m y', dlcalloc gm_addr stack_addr fuel n e y = Ok (m, y')) /\
  (forall m c n, (m, c) ∈ held -> modest stack_addr y n -> exists m' y', dlrealloc gm_addr stack_addr fuel m n y = Ok (m', y')) /\
  (forall m c, (m, c) ∈ held -> exists y', dlfree gm_addr stack_addr fuel m y = Ok (tt, y')).

Lemma in_use_answering fuel y held : in_use y held -> (0 < fuel)%nat -> answering fuel y held.
Proof.
  intros H Hf. split; [|split; [|split]].
  - intros n Hm. destruct (use_malloc_step fuel y held n H Hf Hm) as (m & y' & Hrun & _). by exists m, y'.
  - intros n e Hn He [Hm|Hm]; [destruct (use_calloc_large_step fuel y held n e H Hn He Hm) as (y' & Hrun & _); by exists 0, y'|].
    destruct (use_calloc_step fuel y held n e H Hf Hn He Hm) as (m & y' & Hrun & _). by exists m, y'.
  - intros m c n (held' & Hp)%elem_of_Permutation Hm. destruct (use_realloc_step fuel y held' m c n (in_use_perm y _ _ Hp H) Hf Hm) as (m' & y' & Hrun & _). by exists m', y'.
  - intros m c (held' & Hp)%elem_of_Permutation. destruct (use_free_step fuel y held' m c (in_use_perm y _ _ Hp H) Hf) as (y' & Hrun & _). by exists y'.
Qed.
End usage.

(** ** An example: ten cleared elements of ten bytes, written and made longer *)
Definition run {A} (c : cmd (dlsys Z) A) (none : A) (y : dlsys Z) : A * dlsys Z := match c y with Ok r => r | Stop _ => (none, y) end.
Lemma run_ok {A} (c : cmd (dlsys Z) A) none y a y' : c y = Ok (a, y') -> c y = Ok (run c none y).
Proof. unfold run. by intros ->. Qed.

Definition ten : list Z := seqZ 1 100.
Definition cleared_state : dlsys Z := (run (dlcalloc 4096 0x7ffc 1 10 10) 0 first_state).2.
Definition written_state : dlsys Z := set_user (write_bytes 0x100010 ten) cleared_state.

Lemma modest_by (y : dlsys Z) n : bool_decide (0 <= n < MAX_TREE_SIZE - 32) && bool_decide (chunk_size n < mmap_threshold (params_now 0x7ffc y)) = true -> modest 0x7ffc y n.
Proof. intros [H1%bool_decide_eq_true H2%bool_decide_eq_true]%andb_true_iff. by split. Qed.

Lemma cleared_run : dlcalloc 4096 0x7ffc 1 10 10 first_state = Ok (0x100010, cleared_state).
Proof.
  pose proof (usage_in_use LO HI 4096 0x7ffc ltac:(lia) ltac:(done) example_room 1 first_state first_state [] first_state_unused eq_refl ltac:(lia) (use_start _ _ _ _)) as H.
  destruct (use_calloc_step LO HI 4096 0x7ffc ltac:(lia) ltac:(done) example_room 1 first_state [] 10 10 H) as (m & y' & Hrun & _); [lia|done|done|apply modest_by; vm_compute; reflexivity|].
  rewrite (run_ok _ 0 _ _ _ Hrun). unfold cleared_state. set (r := run _ _ _). assert (E : r.1 = 0x100010) by (vm_compute; reflexivity). rewrite <-E. by destruct r.
Qed.

Lemma example_usage : usage 4096 0x7ffc 1 first_state written_state [(0x100010, ten)].
Proof.
  apply use_write with (c := replicate 100 0); [|done].
  change [(0x100010, replicate 100 0)] with (added 0x100010 (replicate (Z.to_nat (10 * 10)) 0) []).
  apply (use_calloc _ _ _ _ first_state); [apply use_start|done|done|apply modest_by; vm_compute; reflexivity|apply cleared_run].
Qed.

#[local] Opaque first_state cleared_state written_state dlmalloc dlcalloc dlrealloc dlmemalign dlfree.

(** ** Properties *)



(** C5: [dlrealloc_in_place] resizes a block where it is or refuses. For a request that fits the address space the block becomes the smallest chunk
    that holds the request, or that much and a remainder too small for a chunk of its own, at the same address and with no other block changed; it
    answers 0, with nothing changed at all, only when the block is too small and what follows it in memory does not make up for it. *)
Theorem realloc_in_place_exact {W} `{!SystemMemory W} gm_addr (y : dlsys W) a0 l sz r bytes : let m := a0 + total l + 16 in 0 < gm_addr ->
  heap_inv gm_addr (hst y) a0 (l ++ (sz, InUse) :: r) -> 0 <= bytes < MAX_TREE_SIZE - 32 ->
  exists res y', dlrealloc_in_place gm_addr m bytes y = Ok (res, y') /\
    (res = m /\ (exists h, y' = with_hst h y /\ resized gm_addr a0 l sz r (chunk_size bytes) h /\ sys_part h = sys_part (hst y)) \/
     res = 0 /\ y' = y /\ cannot_grow sz r (chunk_size bytes)).
Proof.
  intros m Hgm H Hb. destruct (chunk_size_fine bytes Hb) as (Hbr & Hcm & Hc). change MAX_TREE_SIZE with (2 ^ 40) in Hb.
  destruct (in_use_chunk _ _ _ _ _ _ H (block_in _ _ _ _ _)) as (_ & _ & Hp & Hps & Hs40 & _). unfold dlrealloc_in_place, m.
  rewrite (decide_False (P := _ = 0)), (decide_False (P := MAX_REQUEST <= bytes)) by lia.
  assert (Enb : request2size bytes = chunk_size bytes) by (unfold chunk_size; by rewrite decide_True by lia). rewrite Enb.
  assert (Emp : mem2chunk (a0 + total l + 16) = a0 + total l) by (unfold mem2chunk; rewrite wrap_small by (unfold fits; lia); lia). rewrite Emp. cbv zeta.
  destruct (try_realloc_ok gm_addr Hgm y a0 l sz r (chunk_size bytes) 0 H Hcm Hc) as (p & y' & Hrun & Hans). rewrite (bind_ok _ _ _ _ _ Hrun). destruct Hans as [(-> & Hres)|(-> & -> & Hno)].
  - eexists _, y'. split; [done|]. rewrite decide_True by done. by left.
  - eexists _, y. split; [done|]. rewrite decide_False by lia. by right.
Qed.



(** [dispose_chunk], which gives a chunk's parts back from within [dlrealloc] and [dlmemalign], is [dlfree] up to what [dlfree] asks of the system. On a block in
    use both return, and leave the same tags and links in memory, the same bins, top and kept chunk, and the same segment. *)
Theorem dispose_chunk_is_free {W} `{!SystemMemory W} gm_addr (y : dlsys W) a0 bs p sz : 0 < gm_addr -> heap_inv gm_addr (hst y) a0 bs -> (p, sz) ∈ of_kind InUse a0 bs ->
  exists ans s1 s2, free_fast gm_addr (p + 16) (hst y) = Ok (ans, s1) /\ fast ans /\ dispose_chunk gm_addr p sz y = Ok (tt, with_hst s2 y) /\ alike s1 s2.
Proof.
  intros Hgm H Hin. destruct (in_use_chunk _ _ _ _ _ _ H Hin) as (Esz & _ & Hp & Hps & Hs & _). pose proof Hin as Hin'. apply of_kind_split in Hin' as (l & r & -> & ->).
  destruct (free_fast_ok gm_addr Hgm (hst y) a0 l sz r H) as (ans & s1 & Hrun & Hans & _).
  destruct (dispose_follows gm_addr (a0 + total l) (hst y) ltac:(lia) ans s1 Hrun Hans) as (s2 & Hrun2 & Hl). rewrite Esz in Hrun2. rewrite chunk2mem_eq in Hrun by lia.
  exists ans, s1, s2. split; [done|]. split; [done|]. split; [by apply dispose_chunk_eq|done].
Qed.

Lemma second_in_order : in_order LO HI 4096 second_state [(0x100010, 100)].
Proof. apply (session_in_order LO HI 4096 0x7ffc ltac:(lia) ltac:(done) example_room 1 first_state); [apply first_state_unused|done|lia|apply example_session]. Defined.



Lemma realloc_in_place_exact_witness : exists p l sz r res y', p = LO /\ dlrealloc_in_place 4096 (p + 16) 60 second_state = Ok (res, y') /\
  (res = p + 16 \/ res = 0 /\ cannot_grow sz r (chunk_size 60)) /\ p = LO + total l.
Proof.
  destruct second_state_one as (bs & used & H & Et & Hu & Hl). inversion Hl as [|? [p sz] ? used' [E Hsz] Hl']; subst. simpl in E.
  assert (Hin : (p, sz) ∈ of_kind InUse LO bs) by (rewrite Hu; left). apply of_kind_split in Hin as (l & r & -> & Ep).
  destruct (realloc_in_place_exact 4096 second_state LO l sz r 60) as (res & y' & Hrun & Hans); [lia|exact (os_heap _ _ _ _ H)|vm_compute; by split|].
  exists p, l, sz, r, res, y'. rewrite <-Ep in Hrun, Hans. split; [unfold LO; lia|]. split; [exact Hrun|]. split; [|exact Ep]. destruct Hans as [[Hr _]|(Hr & _ & Hno)]; [left; exact Hr|right; exact (conj Hr Hno)].
Defined.

Lemma dispose_chunk_is_free_witness : exists sz ans s1 s2, free_fast 4096 (LO + 16) (hst second_state) = Ok (ans, s1) /\
  dispose_chunk 4096 LO sz second_state = Ok (tt, with_hst s2 second_state) /\ alike s1 s2.
Proof.
  destruct second_state_one as (bs & used & H & Et & Hu & Hl). inversion Hl as [|? [p sz] ? used' [E Hsz] Hl']; subst. simpl in E. assert (p = LO) as -> by (unfold LO; lia).
  destruct (dispose_chunk_is_free 4096 second_state LO bs LO sz) as (ans & s1 & s2 & H1 & _ & H2 & H3); [lia|exact (os_heap _ _ _ _ H)|rewrite Hu; left|].
  exists sz, ans, s1, s2. exact (conj H1 (conj H2 H3)).
Defined.
